(* ===== verification/_CoqProject ===== *)
-Q . S2P
Prelude.v
Stream.v
SixBit.v
CStr.v
Lru.v
Aobj.v
Hash.v
Row.v
RowLayout.v
RowTrip.v
RowInsert.v
BtSearch.v
DirtyStream.v
Btree.v
BtInsert.v
BtDelete.v
BtOps.v
BtIter.v
BtScan.v
BtLoop.v
BtKey.v
BtKeyLaws.v
BtStream.v
Abt.v
GetCol.v
Parser.v
InsertParse.v
Filter.v
Index.v
IndexLaws.v
MciLaws.v
OrderBy.v
Dml.v
Range.v
RangeOps.v
RangeLaws.v
DmlLaws.v
Database.v
Mci.v
IndexBuild.v
Queries.v
Update.v
UpdateOver.v
UpdateCols.v
UpdateLaws.v
