(* ===== verification/Prelude.v ===== *)
(** * Verification of Alchemy Database

    Alchemy Database is a hybrid of Redis and a relational store; its own code
    is the C of [src/DB].  Rows are byte streams kept in B-trees, whose nodes
    carry counters of rows evicted to disk.  This library models that core
    executably and proves it correct.  Each file below names the C file it
    translates; definitions keep the C names.

    ** Files

    - [Prelude]: machine integers ([uwrap], [swrap]), little-endian memory,
      arrays as lists, shared tactics and hint databases.
    - [CStr] ([DB/parser.h], libc): NUL-terminated strings, the macros that
      skip blanks, [strtoul].
    - [Aobj] ([DB/aobj.c], [DB/colparse.c]): typed values; construction from
      text, cloning, replies, comparison, arithmetic.
    - [Stream] ([DB/stream.c], columns): the bit-packed integers of rows and
      keys; round trips, the reserved ghost byte, the LRU and LFU columns.
    - [SixBit] ([DB/sixbit.c]): six-bit compression of TEXT; round trip and
      refusal.
    - [Hash] ([DB/hash.c]): the open-addressing tables of sparse rows, 16-bit
      and 32-bit by one definition.
    - [Row] ([DB/row.c]): creation of a row, its compression, its two layouts,
      access to a column.  [RowLayout] proves the layouts, [RowTrip] that a
      column is read back as written, [RowInsert] that the values of an INSERT
      are.
    - [Lru] ([DB/lru.c]): the clock of LRU columns.
    - [Parser] ([DB/parser.c]): the scanning functions of the SQL parser, over a
      buffer and an index for each pointer.
    - [InsertParse] ([DB/colparse.c]): the VALUES of an INSERT, from the text to
      the slices that [Row] makes a row of.
    - [BtSearch] ([DB/bt_code.c], binary search): the integer logarithm with its
      memo table, [findkindex], and the interface [KeyOrder]/[KeyOrderLaws] of
      comparators.
    - [DirtyStream] ([DB/bt_code.c], DS): the counters of evicted rows of one
      node: widths, allocation, release, movement.
    - [Btree] ([DB/bt_code.c], [DB/btreepriv.h]): nodes, the invariant [wf],
      the abstraction [inorder], and every query.
    - [BtInsert], [BtDelete]: insertion with splits; deletion and eviction with
      all their rebalancing cases, and what is left of the key they return.
    - [BtOps] ([DB/bt_code.c], [DB/bt.c]): creation, histories of operations
      against the interface [OrderedStore], cloning into another node size (not
      called in the program as it is compiled).
    - [BtIter] ([DB/bt_iterator.c]): the iterators of range, full and OFFSET
      scans, a stack of (node, key index, child index) moved by
      [btNext].  [BtScan] proves the scans.
    - [BtKey] ([DB/stream.c], [DB/bt.c], [DB/bt.h]): the kinds of tree, their
      constructors and comparators, the key of a search and the stream that a
      tree stores.  [BtKeyLaws] discharges [KeyOrderLaws] for every tree the
      constructors create; [BtStream] proves the streams.
    - [Abt] ([DB/bt.c]): the API the rest of the program uses, by typed value:
      [btAdd], [btFind], [btDelete], [btReplace] and the index-node calls; the
      small node size throughout, as [TEST_WITH_TRANS_ONE_ONLY] leaves it.
    - [GetCol] ([DB/row.c]): the value of a column of a row, [getCol].
    - [Filter] ([DB/filter.c], [passFilts] of [DB/range.c]): the filters of a
      WHERE clause, their conversion and compiled form, and whether a row passes
      them.
    - [OrderBy] ([DB/orderby.c]): the keys of queued rows, their comparison and
      sort.  [qsort] is an interface, [QSort] with [QSortLaws].
    - [Index] ([DB/index.c]): the maintenance of simple, UNIQUE, order-by and
      multi-column indexes, over a store of trees by address.  [IndexLaws] is
      the interface of an index, a set of pairs of a value and a key, with
      [DeleteLaw] for the indexes whose trees keep the deleted key, and its
      implementations by single-column indexes; [MciLaws] implements it by
      multi-column indexes without constraint, of any depth; [Mci] shows what the
      undo of a UNIQUE multi-column index does.
    - [Dml] ([DB/row.c], [DB/alsosql.c]): INSERT, REPLACE, DELETE and UPDATE of
      one row with all the indexes of its table.  [DmlLaws] proves them against
      the interface, for any list of indexes; [Database] states the theorems
      and tries them on a table.
    - [IndexBuild] ([DB/index.c]): CREATE INDEX on a table with rows, by the scan
      of [buildIndex], index cursors, and what DROP INDEX frees.
    - [Update] ([DB/row.c]): the row an UPDATE makes ([updateRow]): expressions
      ([evalExpr]), the values, overwriting in place.  [UpdateOver] proves that
      overwriting numbers of unchanged width is writing the row anew,
      [UpdateCols] what each column gets, [UpdateLaws] that the new row reads back.
    - [Range] ([DB/range.c]): the decision whether to sort ([setQueued]) and the
      walks of a query, by primary key and by index, over a row operation that
      is a parameter as in the code; [RangeOps] has the row operations and the
      actions of SELECT, DELETE and UPDATE.  [BtLoop] has the loop over an
      iterator and reduces it to a loop over a list of keys, [RangeLaws] shows
      what a walk visits, by the interface [Visits], and [Queries] proves the
      statements from it.

    ** How state and operations correspond to the code

    A [bt_n] is a header, a dirty stream and the live prefixes of the key and
    child arrays; pointers to children are the children themselves, and a
    function that updates a node in place returns the new node.  Where the C
    code reallocates a node through a stale parent pointer the model returns
    [None], as it does for an access outside a live prefix and for a failed
    assertion: the theorems that an operation returns [Some] say that none of
    these happens.  Loops whose recursion is not structural take fuel; [None]
    also stands for exhausted fuel, and the same theorems show that the fuel
    given (the height of the tree, the length of the array, seven halvings of
    a word) is enough.

    A key that the tree functions return is a [void *]: what a slot holds, when
    slots are words, and else the address of the slot.  The model says by
    [key_rep] which it is in a tree ([key_rep_of] computes it from [ksize] and
    [bflag]), and a deleted key is returned with what the address gives when it is
    read: the key copied to [BT_DelBuf] in a packed tree, the next key once
    [mvXKeys] has closed the slot in a tree of wide keys that are not copied, and
    nothing when the slot is freed or a number is used as an address.

    ** What the theorems show

    The B-tree refines a strictly sorted list of keys: [bt_find], [bt_exist],
    [bt_replace], [bt_min], [bt_max], [bt_insert], [bt_delete] and any history of
    them agree with the list, keep the tree well formed (order, uniform depth,
    occupancy, exact subtree counts) and never fail, for every key order that
    satisfies [KeyOrderLaws] and both node sizes of [bt_create].  Deletion is so
    in trees that keep the deleted key ([rep_kept]): of words or of copied keys.
    In the index node of a U128 key, sixteen bytes and not copied, it is not:
    [slot_delete_wrong_key] shows a tree lose a key that nobody deleted; and
    the index node of an INT key ordered by an INT column reads through a number
    ([bad_delete_undefined]).  Range and full
    scans terminate and report exactly the keys asked for.  Every numeric tree
    that [DB/bt.c] creates, driven through the typed API, holds a finite map
    from its keys to what was stored, under deletions where the tree is one of
    those ([kept]).  These theorems are about trees without
    evicted rows; the dirty streams are verified on their own ([DirtyStream]).

    Above them, statements keep a table and its indexes together: after a
    history of INSERT, DELETE and UPDATE every index is the inverse of the rows,
    a refused INSERT changes nothing, and the auto-increment is not below any
    key; a lookup in the index of a column then gives the keys of the rows with
    the value.  The UPDATEs of a history give no UNIQUE index a value it holds
    ([updatable]), and keys can be removed from the trees ([removable]: for a U128
    key every index is UNIQUE).  CREATE INDEX brings a table to such a state with one more index, or is
    refused with nothing changed but a lost iterator, and DROP INDEX leaves it with
    one less.  The store has fewer than 2^32 trees, which the histories are bounded to
    keep.  Where a statement does break the agreement a theorem says how: an
    UPDATE that violates a UNIQUE index, an UPDATE of the key of a row with a
    UNIQUE value, and the undo of multi-column indexes.

    Queries over such a table are proved against its rows: a SELECT by the values
    of an index, or by a range of keys with a sort, gives the rows in the range
    that pass the filters, in order, within LIMIT and OFFSET; a DELETE removes
    the rows a query gives, and keeps the indexes consistent.  They cover index
    lookups by one value and ranges, of indexes on one column without
    constraint, in either order of the keys of a value, and ranges of the key in
    ascending order.  Walks of UNIQUE and multi-column indexes, IN lists and
    positioned OFFSETs are modelled without theorems.

    The text of an INSERT is taken apart into slices and these are made a row
    from which every column is read back ([insert_statement]); the search for
    unescaped characters that the parser builds on equals a single pass.  An
    UPDATE of a row gives again such a row, overwritten or new, in which the
    columns it names have their new values and the others their old ones; an
    expression with a whole number is exact or refused.

    The encodings are round trips on their whole domain: integers, six-bit
    TEXT, hash tables, whole rows of either layout, with and without
    compression, the streams of every kind of tree, and replies.  Where the code
    fails outside a domain a theorem says how.

    ** What is not modelled

    Memory accounting ([msize], [dsize], [numnodes]), allocation failure and
    destruction; the parsing of SQL but for the VALUES of an INSERT, planning,
    joins, network, replication, queued updates, Lua and the Redis core; see the manifest for the list.  LZF, the float
    conversions, [powf] and [qsort] of libc, Lua functions, and the text of an output
    row are parameters of the definitions that use them. *)

From stdpp Require Export base list numbers sorting sets.
From Stdlib Require Export ZArith Lia.

#[export] Set Default Goal Selector "!".

(** ** Scopes, hint databases and tactics *)

Declare Scope adb_scope.
Delimit Scope adb_scope with adb.

Create HintDb adb.
Create Rewrite HintDb uwrap.
Create Rewrite HintDb len.

#[global] Open Scope Z_scope.

(** Decide every boolean comparison of [Z] that the goal or a hypothesis
    branches on. *)
Ltac zcases :=
  repeat match goal with
  | |- context [Z.eqb ?a ?b] => destruct (Z.eqb_spec a b)
  | |- context [Z.ltb ?a ?b] => destruct (Z.ltb_spec a b)
  | |- context [Z.leb ?a ?b] => destruct (Z.leb_spec a b)
  | H : context [Z.eqb ?a ?b] |- _ => destruct (Z.eqb_spec a b)
  | H : context [Z.ltb ?a ?b] |- _ => destruct (Z.ltb_spec a b)
  | H : context [Z.leb ?a ?b] |- _ => destruct (Z.leb_spec a b)
  end.

(** [lia] with the quotients and remainders by constants eliminated. *)
Ltac dlia := Z.to_euclidean_division_equations; lia.

(** Break the conjunctions, pairs and existentials of the context. *)
Ltac dest :=
  repeat match goal with
  | H : _ /\ _ |- _ => destruct H
  | H : exists _, _ |- _ => destruct H
  | p : (_ * _)%type |- _ => destruct p
  end.

(** ** Machine integers

    A [w]-bit unsigned integer is a [Z] in [0 .. 2^w); arithmetic wraps
    with [uwrap w].  [swrap w] is the two's complement reading that a C cast
    to a signed type of [w] bits performs. *)

Definition uwrap (w z : Z) : Z := z mod 2 ^ w.

Definition swrap (w z : Z) : Z :=
  let u := uwrap w z in if u <? 2 ^ (w - 1) then u else u - 2 ^ w.

Abbreviation u8 := (uwrap 8).
Abbreviation u16 := (uwrap 16).
Abbreviation u32 := (uwrap 32).
Abbreviation u64 := (uwrap 64).
Abbreviation u128 := (uwrap 128).
Abbreviation s32 := (swrap 32).
Abbreviation s64 := (swrap 64).

Definition UCHAR_MAX : Z := 255.
Definition USHRT_MAX : Z := 65535.
Definition UINT_MAX : Z := 4294967295.
Definition TWO_POW_32 : Z := 4294967296.

Lemma uwrap_bound w z : 0 <= w -> 0 <= uwrap w z < 2 ^ w.
Proof. intros. apply Z.mod_pos_bound, Z.pow_pos_nonneg; lia. Qed.

Lemma uwrap_small w z : 0 <= z < 2 ^ w -> uwrap w z = z.
Proof. apply Z.mod_small. Qed.

Lemma uwrap_add_l w a b : uwrap w (uwrap w a + b) = uwrap w (a + b).
Proof. apply Zplus_mod_idemp_l. Qed.

Lemma uwrap_add_r w a b : uwrap w (a + uwrap w b) = uwrap w (a + b).
Proof. apply Zplus_mod_idemp_r. Qed.

Lemma uwrap_sub_l w a b : uwrap w (uwrap w a - b) = uwrap w (a - b).
Proof. apply Zminus_mod_idemp_l. Qed.

Lemma uwrap_sub_r w a b : uwrap w (a - uwrap w b) = uwrap w (a - b).
Proof. apply Zminus_mod_idemp_r. Qed.

Lemma uwrap_idem w a : uwrap w (uwrap w a) = uwrap w a.
Proof. apply Zmod_mod. Qed.

#[export] Hint Rewrite uwrap_add_l uwrap_add_r uwrap_sub_l uwrap_sub_r
  uwrap_idem : uwrap.

(** Equalities of wrapped sums: push the inner wraps out, then compare the
    arguments with [lia]. *)
Ltac wrap_eq := autorewrite with uwrap; f_equal; lia.

Lemma swrap_small w z :
  0 < w -> - 2 ^ (w - 1) <= z < 2 ^ (w - 1) -> swrap w z = z.
Proof.
  intros Hw Hz. unfold swrap.
  assert (Hp : 2 ^ w = 2 * 2 ^ (w - 1)).
  { rewrite <- Z.pow_succ_r by lia. f_equal. lia. }
  destruct (Z_lt_le_dec z 0) as [Hn|Hn].
  - replace (uwrap w z) with (z + 2 ^ w).
    + zcases; lia.
    + unfold uwrap. rewrite <- (Z_mod_plus_full z 1), Z.mul_1_l.
      symmetry. apply Z.mod_small. lia.
  - rewrite uwrap_small by lia. zcases; lia.
Qed.

(** ** Little-endian memory

    [memcpy] of the low [n] bytes of an integer, and the load of an [n]-byte
    unsigned integer, on a little-endian machine.  A load past the end of the
    buffer is [None]. *)

Fixpoint le_bytes (n : nat) (z : Z) : list Z :=
  match n with
  | O => []
  | S n' => z mod 256 :: le_bytes n' (z / 256)
  end.

Fixpoint le_num (bs : list Z) : Z :=
  match bs with
  | [] => 0
  | b :: bs' => b + 256 * le_num bs'
  end.

Definition load (n : nat) (bs : list Z) : option Z :=
  if (n <=? length bs)%nat then Some (le_num (take n bs)) else None.

Lemma length_le_bytes n z : length (le_bytes n z) = n.
Proof. revert z. induction n; simpl; intros; [done|]. by rewrite IHn. Qed.

Lemma le_num_bytes n z : le_num (le_bytes n z) = z mod 256 ^ Z.of_nat n.
Proof.
  revert z. induction n as [|n IH]; intros z; cbn [le_bytes le_num].
  - by rewrite Z.pow_0_r, Z.mod_1_r.
  - rewrite IH, Nat2Z.inj_succ, Z.pow_succ_r by lia.
    rewrite Z.rem_mul_r by (try apply Z.pow_pos_nonneg; lia). lia.
Qed.

Lemma le_num_bytes_small n z :
  0 <= z < 256 ^ Z.of_nat n -> le_num (le_bytes n z) = z.
Proof. intros. rewrite le_num_bytes. by apply Z.mod_small. Qed.

Lemma load_app n bs rest :
  length bs = n -> load n (bs ++ rest) = Some (le_num bs).
Proof.
  intros <-. unfold load. rewrite length_app, take_app_length.
  by destruct (Nat.leb_spec (length bs) (length bs + length rest)); [|lia].
Qed.

Lemma load_le_bytes n z rest :
  0 <= z < 256 ^ Z.of_nat n -> load n (le_bytes n z ++ rest) = Some z.
Proof.
  intros Hz. rewrite load_app by apply length_le_bytes.
  by rewrite le_num_bytes_small.
Qed.

Lemma le_bytes_mod n z : le_bytes n z = le_bytes n (z mod 256 ^ Z.of_nat n).
Proof.
  revert z. induction n as [|n IH]; intros z; cbn [le_bytes]; [done|].
  rewrite Nat2Z.inj_succ, Z.pow_succ_r by lia.
  assert (0 < 256 ^ Z.of_nat n) by (apply Z.pow_pos_nonneg; lia).
  rewrite Z.rem_mul_r by lia. f_equal.
  - rewrite (Z.mul_comm 256), Z_mod_plus_full. by rewrite Zmod_mod.
  - rewrite IH. f_equal.
    rewrite (Z.mul_comm 256), Z.div_add, (Z.div_small (z mod 256)) by
      (try apply Z.mod_pos_bound; lia). lia.
Qed.

(** Every byte the encoders write is a byte. *)
Definition is_byte (b : Z) : Prop := 0 <= b < 256.

Lemma le_bytes_byte n z : Forall is_byte (le_bytes n z).
Proof.
  revert z. induction n; simpl; intros; constructor; [|done].
  apply Z.mod_pos_bound. lia.
Qed.

#[export] Hint Resolve le_bytes_byte length_le_bytes : adb.

(** ** Lists as arrays

    The keys of a B-tree node, the columns of a row and the entries of a hash
    table are arrays whose live prefix is a list.  [ins_at] opens a gap and
    stores, [del_at] closes the gap. *)

Section ArrayOps.
Context {A : Type}.

Definition ins_at (i : nat) (x : A) (l : list A) : list A :=
  take i l ++ x :: drop i l.

Definition del_at (i : nat) (l : list A) : list A :=
  take i l ++ drop (S i) l.

Lemma length_ins_at i x l : length (ins_at i x l) = S (length l).
Proof.
  unfold ins_at. rewrite length_app, length_take. simpl.
  rewrite length_drop. lia.
Qed.

Lemma length_del_at i l :
  (i < length l)%nat -> length (del_at i l) = pred (length l).
Proof.
  intros. unfold del_at. rewrite length_app, length_take, length_drop. lia.
Qed.

Lemma ins_at_app i x l1 l2 :
  i = length l1 -> ins_at i x (l1 ++ l2) = l1 ++ x :: l2.
Proof. intros ->. unfold ins_at. by rewrite take_app_length, drop_app_length. Qed.

Lemma del_at_app i x l1 l2 :
  i = length l1 -> del_at i (l1 ++ x :: l2) = l1 ++ l2.
Proof.
  intros ->. unfold del_at. rewrite take_app_length.
  rewrite (drop_app_ge l1) by lia.
  replace (S (length l1) - length l1)%nat with 1%nat by lia. done.
Qed.

Lemma insert_app_mid i (x y : A) l1 l2 :
  i = length l1 -> <[i := y]> (l1 ++ x :: l2) = l1 ++ y :: l2.
Proof.
  intros ->. rewrite insert_app_r_alt by lia. by rewrite Nat.sub_diag.
Qed.

(** Splitting a list at the position of one of its elements. *)
Lemma lookup_split (l : list A) i x :
  l !! i = Some x ->
  exists l1 l2, l = l1 ++ x :: l2 /\ length l1 = i.
Proof.
  intros H. exists (take i l), (drop (S i) l). split.
  - symmetry. by apply take_drop_middle.
  - apply length_take_le. apply lookup_lt_Some in H. lia.
Qed.

Lemma take_drop_split (l : list A) i :
  (i <= length l)%nat ->
  exists l1 l2, l = l1 ++ l2 /\ length l1 = i.
Proof.
  intros. exists (take i l), (drop i l).
  by rewrite take_drop, length_take_le.
Qed.
End ArrayOps.

#[export] Hint Rewrite @length_ins_at @length_app @length_take @length_drop
  @length_insert : len.

(** Normalise the lengths of a goal and of its hypotheses. *)
Ltac len := autorewrite with len in *; simpl in *.
Ltac len_lia := len; lia.
