(* ===== verification/Stream.v ===== *)
(** * Column streams ([DB/stream.c], the column half)

    The bit-packed integers in which rows, B-tree keys and row headers store
    their numbers: [cIcol] chooses a width and tags the value, [wUCol] writes
    it, [sI2I] reads it back.  The first byte of an encoded number carries the
    width in its low bits and is never [0]; [0] is reserved for ghost rows.
    The LRU and LFU columns are fixed-width instances that are overwritten in
    place.  A byte buffer is a list of [Z] in [0 .. 255]; a load past its end
    is [None]. *)

From S2P Require Import Prelude.

(** ** Constants *)

Definition TWO_POW_7 : Z := 128.
Definition TWO_POW_14 : Z := 16384.
Definition TWO_POW_29 : Z := 536870912.
Definition TWO_POW_44 : Z := 17592186044416.
Definition TWO_POW_59 : Z := 576460752303423488.

Definition COL_1BYTE_INT : Z := 1.
Definition COL_2BYTE_INT : Z := 2.
Definition COL_4BYTE_INT : Z := 4.
Definition COL_6BYTE_INT : Z := 8.
Definition COL_8BYTE_INT : Z := 16.
Definition COL_5BYTE_INT : Z := 32.
Definition COL_9BYTE_INT : Z := 32.

(** [flag & bit] used as a condition. *)
Definition has (flag bit : Z) : bool := negb (Z.land flag bit =? 0).

(** ** Integers *)

Definition getCSize (l : Z) (isi : bool) : Z :=
  if l <? TWO_POW_7 then 1
  else if l <? TWO_POW_14 then 2
  else if l <? TWO_POW_29 then 4
  else if isi then 5
  else if l <? TWO_POW_44 then 6
  else if l <? TWO_POW_59 then 8
  else 9.

(** What [cIcol] stores through its pointers, and its return value. *)
Record icol := Icol { sflag : Z; col : Z; csize : Z }.

Definition cIcol (l : Z) (isi : bool) : icol :=
  if l <? TWO_POW_7 then Icol COL_1BYTE_INT (l * 2 + 1) 1
  else if l <? TWO_POW_14 then Icol COL_2BYTE_INT (l * 4 + 2) 2
  else if l <? TWO_POW_29 then Icol COL_4BYTE_INT (l * 8 + 4) 4
  else if isi then Icol COL_5BYTE_INT l 5
  else if l <? TWO_POW_44 then Icol COL_6BYTE_INT (l * 16 + 8) 6
  else if l <? TWO_POW_59 then Icol COL_8BYTE_INT (l * 32 + 16) 8
  else Icol COL_9BYTE_INT l 9.

(** The bytes [wUCol] appends at the row pointer. *)
Definition wUCol (sflag icol : Z) (isi : bool) : list Z :=
  if sflag =? 0 then []
  else if sflag =? COL_1BYTE_INT then le_bytes 1 icol
  else if sflag =? COL_2BYTE_INT then le_bytes 2 icol
  else if sflag =? COL_4BYTE_INT then le_bytes 4 icol
  else if isi then COL_5BYTE_INT :: le_bytes 4 icol
  else if sflag =? COL_6BYTE_INT then le_bytes 6 icol
  else if sflag =? COL_8BYTE_INT then le_bytes 8 icol
  else COL_9BYTE_INT :: le_bytes 8 icol.

(** The value read at [data] and the number of bytes it occupies. *)
Definition sI2I (data : list Z) (isi : bool) : option (Z * Z) :=
  b1 ← head data;
  if has b1 COL_1BYTE_INT then
    v ← load 1 data; Some (u64 (v - 1) / 2, 1)
  else if has b1 COL_2BYTE_INT then
    v ← load 2 data; Some (u64 (v - 2) / 4, 2)
  else if has b1 COL_4BYTE_INT then
    v ← load 4 data; Some (u64 (v - 4) / 8, 4)
  else if isi then
    v ← load 4 (tail data); Some (v, 5)
  else if has b1 COL_6BYTE_INT then
    v ← load 6 data; Some (u64 (v - 8) / 16, 6)
  else if has b1 COL_8BYTE_INT then
    v ← load 8 data; Some (u64 (v - 16) / 32, 8)
  else
    v ← load 8 (tail data); Some (v, 9).

Definition cr8Icol (l : Z) : icol := cIcol l true.
Definition cr8Lcol (l : Z) : icol := cIcol l false.
Definition writeUIntCol (sflag icol : Z) : list Z := wUCol sflag icol true.
Definition writeULongCol (sflag icol : Z) : list Z := wUCol sflag icol false.

Definition streamIntToUInt (data : list Z) : option (Z * Z) :=
  '(v, n) ← sI2I data true; Some (u32 v, n).
Definition streamLongToULong (data : list Z) : option (Z * Z) :=
  sI2I data false.

(** The encoded form of a number: [cr8Icol]/[cr8Lcol] followed by the write. *)
Definition enc_col (l : Z) (isi : bool) : list Z :=
  let c := cIcol l isi in wUCol (sflag c) (col c) isi.

(** ** 128-bit and float columns (the float as its four bytes) *)

Definition writeU128Col (xcol : Z) : list Z := le_bytes 16 xcol.
Definition streamToU128 (data : list Z) : option (Z * Z) :=
  v ← load 16 data; Some (v, 16).
Definition cr8Xcol (x : Z) : Z * Z := (x, 16).

Definition writeFloatCol (fflag : bool) (fcol : Z) : list Z :=
  if fflag then le_bytes 4 fcol else [].
Definition streamFloatToFloat (data : list Z) : option (Z * Z) :=
  v ← load 4 data; Some (v, 4).

(** ** LRU and LFU columns *)

Definition getLruSflag : Z := COL_4BYTE_INT.
Definition cLRUcol (l : Z) : icol := Icol getLruSflag (u64 (l * 8 + 4)) 4.
Definition streamLRUToUInt (data : list Z) : option Z :=
  v ← load 4 data; Some (u32 (u64 (v - 4) / 8)).
Definition overwriteLRUcol (row : list Z) (icol : Z) : list Z :=
  le_bytes 4 (u64 (icol * 8 + 4)) ++ drop 4 row.

Definition getLfuSflag : Z := COL_8BYTE_INT.
Definition cLFUcol (l : Z) : icol := Icol getLfuSflag (u64 (l * 32 + 16)) 8.
Definition streamLFUToULong (data : list Z) : option Z :=
  v ← load 4 data; Some (u64 (v - 16) / 32).
Definition overwriteLFUcol (row : list Z) (icol : Z) : list Z :=
  le_bytes 8 (u64 (icol * 32 + 16)) ++ drop 8 row.

(** ** Lemmas *)

Lemma has_testbit b k : 0 <= k -> has b (2 ^ k) = Z.testbit b k.
Proof.
  intros Hk. unfold has.
  assert (E : Z.land b (2 ^ k) = if Z.testbit b k then 2 ^ k else 0).
  { apply Z.bits_inj'. intros n Hn. rewrite Z.land_spec, Z.pow2_bits_eqb by lia.
    destruct (Z.eqb_spec k n) as [->|Hne].
    - destruct (Z.testbit b n); [|by rewrite Z.bits_0].
      by rewrite Z.pow2_bits_true by lia.
    - rewrite andb_false_r. destruct (Z.testbit b k).
      + by rewrite Z.pow2_bits_false by lia.
      + by rewrite Z.bits_0. }
  rewrite E. assert (0 < 2 ^ k) by (apply Z.pow_pos_nonneg; lia).
  destruct (Z.testbit b k); [|done].
  by destruct (Z.eqb_spec (2 ^ k) 0); [lia|].
Qed.

(** The first byte of a value tagged at bit [k] has bit [k] set and every
    lower bit clear. *)
Lemma has_tag q k j :
  0 <= j <= k -> k < 8 -> has (((2 * q + 1) * 2 ^ k) mod 256) (2 ^ j) = (j =? k).
Proof.
  intros Hj Hk. rewrite has_testbit by lia. change 256 with (2 ^ 8).
  rewrite Z.mod_pow2_bits_low, Z.mul_pow2_bits by lia.
  destruct (Z.eqb_spec j k) as [->|Hne].
  - rewrite Z.sub_diag. apply Z.testbit_odd_0.
  - apply Z.testbit_neg_r. lia.
Qed.

(** The tests [sI2I] makes on the first byte of each tagged form. *)
Create Rewrite HintDb tags.

Ltac tag_fact l k j :=
  match goal with |- has (?v mod 256) _ = _ =>
    replace v with ((2 * l + 1) * 2 ^ k) by lia;
    refine (has_tag l k j _ _); lia
  end.

Lemma tag_2_1 l : has ((l * 2 + 1) mod 256) 1 = true.
Proof. tag_fact l 0 0. Qed.
Lemma tag_4_1 l : has ((l * 4 + 2) mod 256) 1 = false.
Proof. tag_fact l 1 0. Qed.
Lemma tag_4_2 l : has ((l * 4 + 2) mod 256) 2 = true.
Proof. tag_fact l 1 1. Qed.
Lemma tag_8_1 l : has ((l * 8 + 4) mod 256) 1 = false.
Proof. tag_fact l 2 0. Qed.
Lemma tag_8_2 l : has ((l * 8 + 4) mod 256) 2 = false.
Proof. tag_fact l 2 1. Qed.
Lemma tag_8_4 l : has ((l * 8 + 4) mod 256) 4 = true.
Proof. tag_fact l 2 2. Qed.
Lemma tag_16_1 l : has ((l * 16 + 8) mod 256) 1 = false.
Proof. tag_fact l 3 0. Qed.
Lemma tag_16_2 l : has ((l * 16 + 8) mod 256) 2 = false.
Proof. tag_fact l 3 1. Qed.
Lemma tag_16_4 l : has ((l * 16 + 8) mod 256) 4 = false.
Proof. tag_fact l 3 2. Qed.
Lemma tag_16_8 l : has ((l * 16 + 8) mod 256) 8 = true.
Proof. tag_fact l 3 3. Qed.
Lemma tag_32_1 l : has ((l * 32 + 16) mod 256) 1 = false.
Proof. tag_fact l 4 0. Qed.
Lemma tag_32_2 l : has ((l * 32 + 16) mod 256) 2 = false.
Proof. tag_fact l 4 1. Qed.
Lemma tag_32_4 l : has ((l * 32 + 16) mod 256) 4 = false.
Proof. tag_fact l 4 2. Qed.
Lemma tag_32_8 l : has ((l * 32 + 16) mod 256) 8 = false.
Proof. tag_fact l 4 3. Qed.
Lemma tag_32_16 l : has ((l * 32 + 16) mod 256) 16 = true.
Proof. tag_fact l 4 4. Qed.

#[export] Hint Rewrite tag_2_1 tag_4_1 tag_4_2 tag_8_1 tag_8_2 tag_8_4 tag_16_1 tag_16_2 tag_16_4 tag_16_8 tag_32_1 tag_32_2 tag_32_4 tag_32_8 tag_32_16 : tags.

Ltac unfold_consts :=
  unfold TWO_POW_7, TWO_POW_14, TWO_POW_29, TWO_POW_44, TWO_POW_59,
    COL_1BYTE_INT, COL_2BYTE_INT, COL_4BYTE_INT, COL_5BYTE_INT, COL_6BYTE_INT,
    COL_8BYTE_INT, COL_9BYTE_INT in *.

Lemma head_le_bytes n z rest : head (le_bytes (S n) z ++ rest) = Some (z mod 256).
Proof. done. Qed.

(** Every width the encoder picks is read back, with the length it reported,
    whatever follows it in the buffer. *)
Lemma sI2I_enc (l : Z) (isi : bool) (rest : list Z) :
  0 <= l < (if isi then 2 ^ 32 else 2 ^ 64) ->
  sI2I (enc_col l isi ++ rest) isi = Some (l, csize (cIcol l isi)).
Proof.
  intros Hl.
  unfold enc_col, cIcol, sI2I. unfold_consts.
  repeat match goal with |- context [l <? ?c] => destruct (Z.ltb_spec l c) end;
    destruct isi; try lia;
    cbn [sflag col csize wUCol Z.eqb Pos.eqb]; unfold_consts; cbn [Z.eqb Pos.eqb];
    rewrite ?head_le_bytes; cbn [mbind option_bind head app tail];
    autorewrite with tags; cbn [has Z.land Pos.land Z.eqb negb Z.of_N];
    rewrite load_le_bytes by lia; cbn [mbind option_bind];
    first [done | rewrite uwrap_small by lia; do 2 f_equal; dlia].
Qed.

Lemma length_enc_col l isi : Z.of_nat (length (enc_col l isi)) = csize (cIcol l isi).
Proof.
  unfold enc_col, cIcol. unfold_consts.
  repeat match goal with |- context [l <? ?c] => destruct (Z.ltb_spec l c) end;
    destruct isi; reflexivity.
Qed.

Lemma csize_getCSize l isi : csize (cIcol l isi) = getCSize l isi.
Proof. unfold cIcol, getCSize. repeat case_match; reflexivity. Qed.

Lemma enc_col_byte l isi : Forall is_byte (enc_col l isi).
Proof.
  unfold enc_col, wUCol. unfold_consts.
  repeat case_match; auto with adb;
    (constructor; [unfold is_byte; lia|auto with adb]).
Qed.

Lemma length_enc_col_getCSize l isi : length (enc_col l isi) = Z.to_nat (getCSize l isi).
Proof. rewrite <- csize_getCSize, <- length_enc_col. lia. Qed.

Lemma getCSize_pos l isi : 1 <= getCSize l isi <= 9.
Proof. unfold getCSize. repeat case_match; lia. Qed.

#[export] Hint Resolve enc_col_byte : adb.

Lemma streamIntToUInt_enc l rest :
  0 <= l < 2 ^ 32 ->
  streamIntToUInt (enc_col l true ++ rest) = Some (l, getCSize l true).
Proof.
  intros Hl. unfold streamIntToUInt. rewrite sI2I_enc by done. cbn.
  by rewrite uwrap_small, csize_getCSize by lia.
Qed.

Lemma streamLongToULong_enc l rest :
  0 <= l < 2 ^ 64 ->
  streamLongToULong (enc_col l false ++ rest) = Some (l, getCSize l false).
Proof.
  intros Hl. unfold streamLongToULong. rewrite sI2I_enc by done.
  by rewrite csize_getCSize.
Qed.

(** The fixed-width forms of the LRU and LFU columns read as any number of their
    width does. *)
Lemma streamIntToUInt_4 l rest :
  0 <= l < 2 ^ 29 -> streamIntToUInt (le_bytes 4 (l * 8 + 4) ++ rest) = Some (l, 4).
Proof.
  intros Hl. unfold streamIntToUInt, sI2I. unfold_consts.
  rewrite head_le_bytes. cbn [mbind option_bind]. autorewrite with tags.
  rewrite load_le_bytes by (cbn; lia). cbn [mbind option_bind].
  rewrite (uwrap_small 64), uwrap_small by dlia. do 2 f_equal. dlia.
Qed.

Lemma streamLongToULong_8 l rest :
  0 <= l < 2 ^ 59 -> streamLongToULong (le_bytes 8 (l * 32 + 16) ++ rest) = Some (l, 8).
Proof.
  intros Hl. unfold streamLongToULong, sI2I. unfold_consts.
  rewrite head_le_bytes. cbn [mbind option_bind]. autorewrite with tags.
  rewrite load_le_bytes by (cbn; lia). cbn [mbind option_bind].
  rewrite uwrap_small by lia. do 2 f_equal. dlia.
Qed.

(** ** Properties *)

(** C26: an INT column (any 32-bit value) and a LONG column (any 64-bit value)
    written by [cr8Icol]/[writeUIntCol] and [cr8Lcol]/[writeULongCol] are read
    back by [streamIntToUInt] and [streamLongToULong] with the same value,
    whatever bytes follow, and the length read is the length written, which
    is the [getCSize] of the value. *)
Theorem int_column_roundtrip (l : Z) (rest : list Z) :
  (0 <= l < 2 ^ 32 ->
   let c := cr8Icol l in
   let w := writeUIntCol (sflag c) (col c) in
   streamIntToUInt (w ++ rest) = Some (l, getCSize l true) /\
   Z.of_nat (length w) = getCSize l true /\ csize c = getCSize l true) /\
  (0 <= l < 2 ^ 64 ->
   let c := cr8Lcol l in
   let w := writeULongCol (sflag c) (col c) in
   streamLongToULong (w ++ rest) = Some (l, getCSize l false) /\
   Z.of_nat (length w) = getCSize l false /\ csize c = getCSize l false).
Proof.
  split; intros Hl; cbv zeta;
    [change (writeUIntCol _ _) with (enc_col l true)
    |change (writeULongCol _ _) with (enc_col l false)];
    unfold cr8Icol, cr8Lcol; rewrite length_enc_col, csize_getCSize;
    auto using streamIntToUInt_enc, streamLongToULong_enc.
Qed.

Lemma int_column_roundtrip_witness :
  streamIntToUInt (writeUIntCol (sflag (cr8Icol 4000000000)) (col (cr8Icol 4000000000)) ++ [7])
  = Some (4000000000, 5).
Proof. apply (int_column_roundtrip 4000000000 [7]). lia. Defined.

(** The first byte of an encoded integer is never [0], the value that
    marks a ghost row. *)
Theorem encoded_head_not_ghost (l : Z) (isi : bool) (b : Z) :
  0 <= l -> head (enc_col l isi) = Some b -> b <> 0.
Proof.
  intros Hl Hh ->. revert Hh. unfold enc_col, cIcol. unfold_consts.
  repeat match goal with |- context [l <? ?c] => destruct (Z.ltb_spec l c) end;
    destruct isi; cbn -[Z.modulo Z.mul Z.add]; intros [= E]; dlia.
Qed.

Lemma encoded_head_not_ghost_witness : head (enc_col 300 false) = Some 178 /\ 178 <> 0.
Proof.
  split; [reflexivity|]. apply (encoded_head_not_ghost 300 false); [lia|reflexivity].
Defined.

(** overwriting an LRU column and reading it back yields the time for every
    value below [2^29], and an LFU column written as eight bytes is read back
    through four, so that the access count returned is the count modulo
    [2^27]. *)
Theorem lru_lfu_column (row : list Z) (l : Z) :
  (0 <= l < 2 ^ 29 -> streamLRUToUInt (overwriteLRUcol row l) = Some l) /\
  (0 <= l < 2 ^ 59 -> streamLFUToULong (overwriteLFUcol row l) = Some (l mod 2 ^ 27)).
Proof.
  split; intros Hl.
  - unfold streamLRUToUInt, overwriteLRUcol. rewrite uwrap_small by lia.
    rewrite load_le_bytes by lia. cbn. f_equal.
    rewrite (uwrap_small 64), uwrap_small; dlia.
  - unfold streamLFUToULong, overwriteLFUcol. rewrite uwrap_small by lia.
    change (le_bytes 8 ?z) with (le_bytes 4 z ++ le_bytes 4 (z / 256 / 256 / 256 / 256)).
    rewrite <- app_assoc, load_app by apply length_le_bytes.
    rewrite le_num_bytes. cbn [mbind option_bind]. f_equal.
    rewrite uwrap_small; dlia.
Qed.

Lemma lru_lfu_column_witness :
  streamLRUToUInt (overwriteLRUcol [0;0;0;0] 12345) = Some 12345 /\
  streamLFUToULong (overwriteLFUcol [0;0;0;0;0;0;0;0] (2 ^ 27 + 5)) = Some 5.
Proof.
  split.
  - apply (lru_lfu_column [0;0;0;0] 12345). lia.
  - apply (lru_lfu_column [0;0;0;0;0;0;0;0] (2 ^ 27 + 5)). lia.
Defined.
