(* ===== verification/SixBit.v ===== *)
(** * Six-bit string compression ([DB/sixbit.c])

    TEXT columns whose characters all belong to a 63-character alphabet are
    stored as six-bit codes, four characters in three bytes.  [_createSixBit]
    packs into a zeroed buffer through a moving pointer, modelled as the
    buffer and an index; [unpackSixBit] reads the codes back.  The alphabet
    tables are computed by [init_six_bit_strings] as in the source.

    A [char] is a [Z]; an access outside a buffer or a table (a negative
    [char] used as an index) is [None], the undefined outcome, and is distinct
    from [Some None], the code's own failure return. *)

From S2P Require Import Prelude.

(** The letters a-z and A-Z followed by eleven punctuation characters. *)
Definition sixbitchars : list Z :=
  (Z.of_nat <$> seq 97 26) ++ (Z.of_nat <$> seq 65 26) ++
  [32; 95; 43; 45; 46; 44; 39; 34; 35; 47; 92].

(** [init_six_bit_strings]: the two 256-entry tables. *)
Definition to_six_bit_strings : list Z :=
  foldl (fun t i => <[Z.to_nat (nth i sixbitchars 0) := Z.of_nat i + 1]> t)
        (replicate 256 0) (seq 0 (length sixbitchars)).

Definition from_six_bit_strings : list Z :=
  foldl (fun t i => <[(i + 1)%nat := nth i sixbitchars 0]> t)
        (replicate 256 0) (seq 0 (length sixbitchars)).

(** [table[(int)c]]: a negative index is outside the table. *)
Definition index (t : list Z) (c : Z) : option Z :=
  if c <? 0 then None else t !! Z.to_nat c.

(** [**dest += b]. *)
Definition add_byte (buf : list Z) (pos : nat) (b : Z) : option (list Z) :=
  v ← buf !! pos; Some (<[pos := u8 (v + b)]> buf).

Definition six_bit_pack (s_c : Z) (s_i : Z) (buf : list Z) (pos : nat)
  : option (option (list Z * nat)) :=
  s_p ← index to_six_bit_strings s_c;
  if s_p =? 0 then Some None
  else
    let state := s_i mod 4 in
    if state =? 0 then
      buf1 ← add_byte buf pos (u8 (Z.shiftl s_p 2));
      Some (Some (buf1, pos))
    else if state =? 1 then
      buf1 ← add_byte buf pos (Z.shiftr s_p 4);
      buf2 ← add_byte buf1 (S pos) (u8 (Z.shiftl s_p 4));
      Some (Some (buf2, S pos))
    else if state =? 2 then
      buf1 ← add_byte buf pos (Z.shiftr s_p 2);
      buf2 ← add_byte buf1 (S pos) (u8 (Z.shiftl s_p 6));
      Some (Some (buf2, S pos))
    else
      buf1 ← add_byte buf pos s_p;
      Some (Some (buf1, S pos)).

Definition six_bit_unpack (s_i : Z) (src : list Z) (pos : nat) : option (Z * nat) :=
  let state := s_i mod 4 in
  b1 ← src !! pos;
  if state =? 0 then
    u ← index from_six_bit_strings (u8 (Z.shiftr b1 2)); Some (u, pos)
  else if state =? 1 then
    b2 ← src !! S pos;
    u ← index from_six_bit_strings
          (u8 (Z.shiftr (u8 (Z.shiftl b1 6)) 2 + Z.shiftr b2 4));
    Some (u, S pos)
  else if state =? 2 then
    b2 ← src !! S pos;
    u ← index from_six_bit_strings
          (u8 (Z.shiftr (u8 (Z.shiftl b1 4)) 2 + Z.shiftr b2 6));
    Some (u, S pos)
  else
    u ← index from_six_bit_strings (u8 (Z.shiftr (u8 (Z.shiftl b1 2)) 2));
    Some (u, S pos).

(** The packing loop of [_createSixBit], from index [i]. *)
Fixpoint pack_loop (src : list Z) (i : Z) (buf : list Z) (pos : nat)
  : option (option (list Z * nat)) :=
  match src with
  | [] => Some (Some (buf, pos))
  | c :: src' =>
      r ← six_bit_pack c i buf pos;
      match r with
      | None => Some None
      | Some (buf', pos') => pack_loop src' (i + 1) buf' pos'
      end
  end.

(** The packed buffer and [*new_len]; [Some None] is the NULL return. *)
Definition _createSixBit (src : list Z) : option (option (list Z * Z)) :=
  let dest := replicate (length src + 1) 0 in
  if (length src =? 0)%nat then Some (Some (dest, 0))
  else
    r ← pack_loop src 0 dest 0;
    match r with
    | None => Some None
    | Some (buf, pos) => Some (Some (buf, Z.of_nat pos + 1))
    end.

(** The unpacking loop: [n] characters from index [i]; [fdest] is the output
    buffer and [len] the count of characters stored. *)
Fixpoint unpack_loop (n : nat) (i : nat) (src : list Z) (pos : nat)
    (fdest : list Z) (len : nat) : option (list Z * nat) :=
  match n with
  | O => Some (fdest, len)
  | S n' =>
      '(u, pos') ← six_bit_unpack (Z.of_nat i) src pos;
      if u =? 0 then unpack_loop n' (S i) src pos' fdest len
      else unpack_loop n' (S i) src pos' (<[i := u]> fdest) (S len)
  end.

(** [mem] is the content of the freshly allocated output buffer; the result is
    the [*s_len] characters returned. *)
Definition unpackSixBit (mem : list Z) (src : list Z) (s_len : Z) : option (list Z) :=
  let was_len := Z.to_nat (u32 (s_len * 4) / 3) in
  '(fdest, len) ← unpack_loop was_len 0 src 0 (take (was_len + 1) mem) 0;
  Some (take len fdest).

(** ** Lemmas *)

(** The characters the alphabet can encode. *)
Definition packable (c : Z) : Prop :=
  exists p, index to_six_bit_strings c = Some p /\ p <> 0.

Lemma tables_inverse_b :
  forallb (fun c =>
    match to_six_bit_strings !! c with
    | Some p => (0 <=? p) && (p <? 64) &&
        ((p =? 0) || bool_decide (from_six_bit_strings !! Z.to_nat p = Some (Z.of_nat c)))
    | None => false
    end) (seq 0 256) = true.
Proof. vm_compute. reflexivity. Qed.

(** The two tables are inverse on the alphabet, and codes fit in six bits. *)
Lemma tables_inverse c p :
  index to_six_bit_strings c = Some p -> p <> 0 ->
  0 < p < 64 /\ index from_six_bit_strings p = Some c /\ 0 < c.
Proof.
  unfold index. destruct (Z.ltb_spec c 0) as [|Hc]; [done|]. intros H Hp.
  pose proof tables_inverse_b as T. rewrite forallb_forall in T.
  assert (Hlt : (Z.to_nat c < 256)%nat) by (apply lookup_lt_Some in H; done).
  specialize (T (Z.to_nat c)). rewrite H in T.
  assert (Hin : In (Z.to_nat c) (seq 0 256)) by (apply in_seq; lia).
  apply T in Hin. clear T.
  apply andb_true_iff in Hin as [Hr Hf]. apply andb_true_iff in Hr as [H1 H2].
  apply Z.leb_le in H1. apply Z.ltb_lt in H2.
  apply orb_true_iff in Hf as [Hf|Hf]; [apply Z.eqb_eq in Hf; lia|].
  apply bool_decide_eq_true in Hf. rewrite Z2Nat.id in Hf by lia.
  split; [lia|]. split.
  - destruct (Z.ltb_spec p 0); [lia|done].
  - destruct (Z.eq_dec c 0) as [->|]; [|lia]. vm_compute in H. congruence.
Qed.

Lemma from_zero : index from_six_bit_strings 0 = Some 0.
Proof. vm_compute. reflexivity. Qed.

(** One group: the three bytes of four codes. *)
Definition byte0 (p0 p1 : Z) : Z := p0 * 4 + p1 / 16.
Definition byte1 (p1 p2 : Z) : Z := p1 mod 16 * 16 + p2 / 4.
Definition byte2 (p2 p3 : Z) : Z := p2 mod 4 * 64 + p3.

Lemma add_byte_app pre v post b :
  add_byte (pre ++ v :: post) (length pre) b = Some (pre ++ u8 (v + b) :: post).
Proof.
  unfold add_byte. rewrite list_lookup_middle by done. cbn.
  by rewrite insert_app_mid.
Qed.

Lemma add_byte_app_S pre w v post b :
  add_byte (pre ++ w :: v :: post) (S (length pre)) b
  = Some (pre ++ w :: u8 (v + b) :: post).
Proof.
  change (pre ++ w :: v :: post) with (pre ++ [w] ++ v :: post).
  rewrite app_assoc. replace (S (length pre)) with (length (pre ++ [w])) by (len; lia).
  rewrite add_byte_app. by rewrite <- app_assoc.
Qed.

Ltac six_bits :=
  rewrite ?Z.shiftl_mul_pow2, ?Z.shiftr_div_pow2 by lia; unfold uwrap;
  unfold byte0, byte1, byte2; dlia.

(** One step of the packer in each of its four states. *)
Section PackSteps.
Context (c p i : Z) (pre z : list Z).
Context (Hc : index to_six_bit_strings c = Some p) (Hp : 0 < p < 64).

Lemma pack_step0 :
  i mod 4 = 0 ->
  six_bit_pack c i (pre ++ 0 :: z) (length pre)
  = Some (Some (pre ++ byte0 p 0 :: z, length pre)).
Proof.
  intros Hi. unfold six_bit_pack. rewrite Hc. cbn [mbind option_bind].
  destruct (Z.eqb_spec p 0); [lia|]. rewrite Hi. cbn [Z.eqb].
  rewrite add_byte_app. cbn. do 5 f_equal. six_bits.
Qed.

Lemma pack_step1 q :
  i mod 4 = 1 -> 0 < q < 64 ->
  six_bit_pack c i (pre ++ byte0 q 0 :: 0 :: z) (length pre)
  = Some (Some (pre ++ byte0 q p :: byte1 p 0 :: z, S (length pre))).
Proof.
  intros Hi Hq. unfold six_bit_pack. rewrite Hc. cbn [mbind option_bind].
  destruct (Z.eqb_spec p 0); [lia|]. rewrite Hi. cbn [Z.eqb Pos.eqb].
  rewrite add_byte_app. cbn [mbind option_bind]. rewrite add_byte_app_S.
  cbn [mbind option_bind]. do 4 f_equal. f_equal; [|f_equal]; six_bits.
Qed.

Lemma pack_step2 q :
  i mod 4 = 2 -> 0 < q < 64 ->
  six_bit_pack c i (pre ++ byte1 q 0 :: 0 :: z) (length pre)
  = Some (Some (pre ++ byte1 q p :: byte2 p 0 :: z, S (length pre))).
Proof.
  intros Hi Hq. unfold six_bit_pack. rewrite Hc. cbn [mbind option_bind].
  destruct (Z.eqb_spec p 0); [lia|]. rewrite Hi. cbn [Z.eqb Pos.eqb].
  rewrite add_byte_app. cbn [mbind option_bind]. rewrite add_byte_app_S.
  cbn [mbind option_bind]. do 4 f_equal. f_equal; [|f_equal]; six_bits.
Qed.

Lemma pack_step3 q :
  i mod 4 = 3 -> 0 < q < 64 ->
  six_bit_pack c i (pre ++ byte2 q 0 :: z) (length pre)
  = Some (Some (pre ++ byte2 q p :: z, S (length pre))).
Proof.
  intros Hi Hq. unfold six_bit_pack. rewrite Hc. cbn [mbind option_bind].
  destruct (Z.eqb_spec p 0); [lia|]. rewrite Hi. cbn [Z.eqb Pos.eqb].
  rewrite add_byte_app. cbn. do 5 f_equal. six_bits.
Qed.
End PackSteps.

(** The packed bytes of a list of codes, group by group (a list of whole groups
    is followed by one zero byte), and the number of characters [unpackSixBit]
    probes after the last one. *)
Fixpoint packed (ps : list Z) : list Z :=
  match ps with
  | [] => [0]
  | [p0] => [byte0 p0 0]
  | [p0; p1] => [byte0 p0 p1; byte1 p1 0]
  | [p0; p1; p2] => [byte0 p0 p1; byte1 p1 p2; byte2 p2 0]
  | p0 :: p1 :: p2 :: p3 :: r =>
      byte0 p0 p1 :: byte1 p1 p2 :: byte2 p2 p3 :: packed r
  end.

Fixpoint extra (n : nat) : nat :=
  match n with
  | S (S (S (S m))) => extra m
  | 1%nat | 2%nat => 0
  | _ => 1
  end.

(** How far the pointer has moved after [n] characters. *)
Fixpoint advance (n : nat) : nat :=
  match n with
  | S (S (S (S m))) => 3 + advance m
  | 3%nat => 2
  | 2%nat => 1
  | _ => 0
  end.

Definition coded (c p : Z) : Prop :=
  index to_six_bit_strings c = Some p /\ 0 < p < 64 /\
  index from_six_bit_strings p = Some c /\ 0 < c.

Lemma packable_coded c : packable c -> exists p, coded c p.
Proof.
  intros (p & Hc & Hp). exists p. unfold coded.
  destruct (tables_inverse c p Hc Hp) as (? & ? & ?). auto.
Qed.

Ltac mod4 := match goal with H : _ mod 4 = 0 |- _ => dlia end.

(** Peel one packing step, in state [n], off the loop. *)
Ltac pack_step lem :=
  cbn [pack_loop]; erewrite lem by (first [eassumption | mod4]);
  cbn [mbind option_bind].

(** Move the packed bytes from behind the pointer into the prefix. *)
Ltac shift_pre b :=
  match goal with |- context [?pre ++ b :: ?z] =>
    replace (pre ++ b :: z) with ((pre ++ [b]) ++ z) by (by rewrite <- app_assoc);
    replace (S (length pre)) with (length (pre ++ [b])) by (len; lia)
  end.

Lemma pack_loop_packed : forall src ps pre i m,
  Forall2 coded src ps -> i mod 4 = 0 -> (length src < m)%nat ->
  pack_loop src i (pre ++ replicate m 0) (length pre) =
  Some (Some (pre ++ packed ps ++ replicate (m - length (packed ps)) 0,
              (length pre + advance (length src))%nat)).
Proof.
  fix IH 6. intros src ps pre i m HF Hi Hm.
  destruct HF as [|c0 p0 src ps C0 HF].
  { destruct m; [simpl in Hm; lia|]. cbn. by rewrite Nat.add_0_r, Nat.sub_0_r. }
  destruct C0 as (? & ? & _ & _), m as [|m]; [simpl in Hm; lia|].
  cbn [replicate]. pack_step pack_step0.
  destruct HF as [|c1 p1 src ps C1 HF].
  { cbn. by rewrite Nat.add_0_r, Nat.sub_0_r. }
  destruct C1 as (? & ? & _ & _), m as [|m]; [simpl in Hm; lia|].
  cbn [replicate]. pack_step pack_step1. shift_pre (byte0 p0 p1).
  destruct HF as [|c2 p2 src ps C2 HF].
  { cbn. rewrite <- app_assoc, Nat.sub_0_r. len. do 3 f_equal; lia. }
  destruct C2 as (? & ? & _ & _), m as [|m]; [simpl in Hm; lia|].
  cbn [replicate]. pack_step pack_step2. shift_pre (byte1 p1 p2).
  destruct HF as [|c3 p3 src ps C3 HF].
  { cbn. rewrite <- !app_assoc, Nat.sub_0_r. len. do 3 f_equal; lia. }
  destruct C3 as (? & ? & _ & _).
  pack_step pack_step3. shift_pre (byte2 p2 p3).
  rewrite (IH src ps) by (first [eassumption | mod4 | simpl in Hm; lia]).
  rewrite <- !app_assoc. len. do 3 f_equal; lia.
Qed.

(** One step of the unpacker in each of its four states. *)
Section UnpackSteps.
Context (c p i : Z) (pre z : list Z).
Context (Hc : index from_six_bit_strings p = Some c) (Hp : 0 <= p < 64).

Lemma unpack_step0 q :
  i mod 4 = 0 -> 0 <= q < 64 ->
  six_bit_unpack i (pre ++ byte0 p q :: z) (length pre) = Some (c, length pre).
Proof.
  intros Hi Hq. unfold six_bit_unpack. rewrite Hi, (list_lookup_middle pre _ _ (length pre)) by done.
  cbn [mbind option_bind Z.eqb].
  replace (u8 (Z.shiftr _ _)) with p by six_bits. by rewrite Hc.
Qed.

Lemma unpack_step1 q r :
  i mod 4 = 1 -> 0 <= q < 64 -> 0 <= r < 64 ->
  six_bit_unpack i (pre ++ byte0 q p :: byte1 p r :: z) (length pre)
  = Some (c, S (length pre)).
Proof.
  intros Hi Hq Hr. unfold six_bit_unpack. rewrite Hi, (list_lookup_middle pre _ _ (length pre)) by done.
  cbn [mbind option_bind Z.eqb Pos.eqb].
  rewrite (lookup_app_r pre), Nat.sub_succ_l, Nat.sub_diag by lia.
  cbn [mbind option_bind lookup list_lookup].
  replace (u8 (_ + _)) with p by six_bits. by rewrite Hc.
Qed.

Lemma unpack_step2 q r :
  i mod 4 = 2 -> 0 <= q < 64 -> 0 <= r < 64 ->
  six_bit_unpack i (pre ++ byte1 q p :: byte2 p r :: z) (length pre)
  = Some (c, S (length pre)).
Proof.
  intros Hi Hq Hr. unfold six_bit_unpack. rewrite Hi, (list_lookup_middle pre _ _ (length pre)) by done.
  cbn [mbind option_bind Z.eqb Pos.eqb].
  rewrite (lookup_app_r pre), Nat.sub_succ_l, Nat.sub_diag by lia.
  cbn [mbind option_bind lookup list_lookup].
  replace (u8 (_ + _)) with p by six_bits. by rewrite Hc.
Qed.

Lemma unpack_step3 q :
  i mod 4 = 3 -> 0 <= q < 64 ->
  six_bit_unpack i (pre ++ byte2 q p :: z) (length pre) = Some (c, S (length pre)).
Proof.
  intros Hi Hq. unfold six_bit_unpack. rewrite Hi, (list_lookup_middle pre _ _ (length pre)) by done.
  cbn [mbind option_bind Z.eqb Pos.eqb].
  replace (u8 _) with p by six_bits. by rewrite Hc.
Qed.
End UnpackSteps.

(** Peel one unpacking step off the loop: character [c] is stored behind the
    output prefix [fp]. *)
Ltac unpack_step lem c fp g0 g :=
  cbn [unpack_loop Nat.add];
  erewrite lem by (first [eassumption | mod4 | lia | len; mod4]);
  cbn [mbind option_bind];
  destruct (Z.eqb_spec c 0); [lia|];
  rewrite (insert_app_mid (length fp) g0 c fp g) by done;
  replace (fp ++ c :: g) with ((fp ++ [c]) ++ g) by (by rewrite <- app_assoc);
  replace (S (length fp)) with (length (fp ++ [c])) by (len; lia).

Lemma unpack_loop_packed : forall src ps pre z fp g len,
  Forall2 coded src ps -> Z.of_nat (length fp) mod 4 = 0 ->
  (length src <= length g)%nat ->
  unpack_loop (length src + extra (length src)) (length fp)
    (pre ++ packed ps ++ z) (length pre) (fp ++ g) len =
  Some (fp ++ src ++ drop (length src) g, (len + length src)%nat).
Proof.
  fix IH 8. intros src ps pre z fp g len HF Hi Hg.
  destruct HF as [|c0 p0 src ps C0 HF].
  { cbn [packed app length extra Nat.add unpack_loop].
    replace (pre ++ 0 :: z) with (pre ++ byte0 0 0 :: z) by done.
    erewrite unpack_step0 by (first [apply from_zero | done | lia]).
    cbn. by rewrite Nat.add_0_r. }
  destruct C0 as (_ & ? & ? & ?), g as [|g0 g]; [simpl in Hg; lia|].
  destruct HF as [|c1 p1 src ps C1 HF].
  { cbn [packed app length extra]. unpack_step unpack_step0 c0 fp g0 g.
    cbn. rewrite <- app_assoc. do 2 f_equal. lia. }
  destruct C1 as (_ & ? & ? & ?), g as [|g1 g]; [simpl in Hg; lia|].
  destruct HF as [|c2 p2 src ps C2 HF].
  { cbn [packed app length extra]. unpack_step unpack_step0 c0 fp g0 (g1 :: g).
    unpack_step unpack_step1 c1 (fp ++ [c0]) g1 g.
    cbn. rewrite <- !app_assoc. do 2 f_equal. lia. }
  destruct C2 as (_ & ? & ? & ?), g as [|g2 g]; [simpl in Hg; lia|].
  destruct HF as [|c3 p3 src ps C3 HF].
  { cbn [packed app length extra]. unpack_step unpack_step0 c0 fp g0 (g1 :: g2 :: g).
    unpack_step unpack_step1 c1 (fp ++ [c0]) g1 (g2 :: g).
    shift_pre (byte0 p0 p1).
    unpack_step unpack_step2 c2 ((fp ++ [c0]) ++ [c1]) g2 g.
    shift_pre (byte1 p1 p2). cbn [unpack_loop].
    erewrite unpack_step3 by (first [apply from_zero | lia | len; mod4]).
    cbn. rewrite <- !app_assoc. do 2 f_equal. lia. }
  destruct C3 as (_ & ? & ? & ?), g as [|g3 g]; [simpl in Hg; lia|].
  cbn [packed app length extra].
  unpack_step unpack_step0 c0 fp g0 (g1 :: g2 :: g3 :: g).
  unpack_step unpack_step1 c1 (fp ++ [c0]) g1 (g2 :: g3 :: g).
  shift_pre (byte0 p0 p1).
  unpack_step unpack_step2 c2 ((fp ++ [c0]) ++ [c1]) g2 (g3 :: g).
  shift_pre (byte1 p1 p2).
  unpack_step unpack_step3 c3 (((fp ++ [c0]) ++ [c1]) ++ [c2]) g3 g.
  shift_pre (byte2 p2 p3).
  rewrite (IH src ps) by (first [eassumption | len; mod4 | simpl in Hg; lia]).
  rewrite <- !app_assoc. cbn [app drop]. do 2 f_equal. simpl. lia.
Qed.

Lemma length_packed : forall src ps, Forall2 coded src ps ->
  length (packed ps) = S (advance (length src)) /\ (advance (length src) <= length src)%nat.
Proof.
  fix IH 3. intros src ps HF.
  do 4 (destruct HF as [|? ? ? ? ? HF]; [simpl; lia|]).
  cbn [packed length advance]. destruct (IH _ _ HF). lia.
Qed.

Lemma probes : forall n, ((advance n + 1) * 4 / 3 = n + extra n)%nat.
Proof.
  fix IH 1. intros n. do 4 (destruct n as [|n]; [reflexivity|]).
  change (advance (S (S (S (S n))))) with (3 + advance n)%nat.
  change (extra (S (S (S (S n))))) with (extra n). specialize (IH n).
  pose proof (Nat.div_add ((advance n + 1) * 4) 4 3 ltac:(lia)) as E.
  rewrite IH in E.
  transitivity (((advance n + 1) * 4 + 4 * 3) / 3)%nat; [f_equal|]; lia.
Qed.

Lemma extra_le : forall n, (extra n <= 1)%nat.
Proof.
  fix IH 1. intros n. do 4 (destruct n as [|n]; [simpl; lia|]). exact (IH n).
Qed.

Lemma Forall_coded src : Forall packable src -> exists ps, Forall2 coded src ps.
Proof.
  induction 1 as [|c src Hc _ [ps IH]]; [exists []; constructor|].
  destruct (packable_coded c Hc) as [p Hp]. exists (p :: ps). by constructor.
Qed.

Lemma createSixBit_packed src ps :
  Forall2 coded src ps -> src <> [] ->
  exists pad, _createSixBit src
    = Some (Some (packed ps ++ pad, Z.of_nat (length (packed ps)))).
Proof.
  intros HF Hne. unfold _createSixBit.
  destruct (Nat.eqb_spec (length src) 0) as [E|_]; [by destruct src|].
  pose proof (pack_loop_packed src ps [] 0 (length src + 1)) as E.
  cbn [app length] in E. rewrite E by (first [done | lia]).
  cbn [mbind option_bind]. eexists. do 4 f_equal. destruct (length_packed src ps HF). lia.
Qed.

Lemma unpackSixBit_packed src ps mem z :
  Forall2 coded src ps -> src <> [] ->
  Z.of_nat (length src) < 2 ^ 29 -> (length src + 2 <= length mem)%nat ->
  unpackSixBit mem (packed ps ++ z) (Z.of_nat (length (packed ps))) = Some src.
Proof.
  intros HF Hne Hb Hm. destruct (length_packed src ps HF) as [Hl Ha].
  unfold unpackSixBit. rewrite uwrap_small by lia.
  replace (Z.to_nat _) with (length src + extra (length src))%nat.
  2:{ rewrite <- probes.
      rewrite Hl. replace (Z.of_nat (S _) * 4) with
        (Z.of_nat ((advance (length src) + 1) * 4)) by lia.
      change 3 with (Z.of_nat 3). by rewrite <- Nat2Z.inj_div, Nat2Z.id. }
  pose proof (extra_le (length src)).
  pose proof (unpack_loop_packed src ps [] z []) as E. cbn [app length] in E.
  rewrite E by (first [done | len_lia]).
  cbn [mbind option_bind Nat.add]. f_equal. apply take_app_length.
Qed.

Lemma pack_loop_app src rest : forall i buf pos,
  pack_loop (src ++ rest) i buf pos =
  r ← pack_loop src i buf pos;
  match r with
  | None => Some None
  | Some (buf', pos') => pack_loop rest (i + Z.of_nat (length src)) buf' pos'
  end.
Proof.
  induction src as [|c src IH]; intros i buf pos.
  { cbn. by rewrite Z.add_0_r. }
  cbn [app pack_loop length].
  destruct (six_bit_pack c i buf pos) as [[[buf' pos']|]|]; cbn [mbind option_bind]; try done.
  rewrite IH. destruct (pack_loop src (i + 1) buf' pos') as [[[? ?]|]|]; cbn; try done.
  f_equal. lia.
Qed.

Lemma not_packable c :
  0 <= c < 256 -> ~ packable c -> index to_six_bit_strings c = Some 0.
Proof.
  intros Hc Hn. unfold packable in Hn.
  destruct (index to_six_bit_strings c) as [p|] eqn:E.
  - destruct (Z.eq_dec p 0) as [->|Hp]; [done|]. destruct Hn. eauto.
  - unfold index in E. destruct (Z.ltb_spec c 0); [lia|].
    apply lookup_ge_None in E. assert (length to_six_bit_strings = 256)%nat by done. lia.
Qed.

Lemma advance_lt n : (advance (S n) <= n)%nat.
Proof.
  assert (H : forall m, (advance (S m) <= m /\ advance (S (S m)) <= S m /\
                         advance (S (S (S m))) <= S (S m) /\
                         advance (S (S (S (S m)))) <= S (S (S m)))%nat).
  { induction m as [|m (H1 & H2 & H3 & H4)]; [cbn; lia|].
    split_and!; try done. cbn [advance] in *. lia. }
  apply H.
Qed.

(** Packing followed by unpacking. *)
Lemma sixbit_ok (src : list Z) :
  Forall packable src -> Z.of_nat (length src) < 2 ^ 29 ->
  exists buf n,
    _createSixBit src = Some (Some (buf, n)) /\ 0 <= n <= Z.of_nat (length src) /\
    (Z.to_nat n <= length buf)%nat /\ (n = 0 -> src = []) /\
    forall mem rest, (length src + 2 <= length mem)%nat ->
      unpackSixBit mem (take (Z.to_nat n) buf ++ rest) n = Some src.
Proof.
  intros HP Hb. destruct (Forall_coded src HP) as [ps HF].
  destruct src as [|c src].
  { exists [0], 0. split_and!; try done; cbn; lia. }
  destruct (createSixBit_packed _ ps HF) as [pad Hp]; [done|].
  destruct (length_packed _ ps HF) as [Hl _].
  pose proof (advance_lt (length src)) as Ha. cbn [length] in Hl.
  exists (packed ps ++ pad), (Z.of_nat (length (packed ps))).
  rewrite Nat2Z.id. split_and!; try done; try (cbn [length]; lia).
  - rewrite length_app. lia.
  - intros mem rest Hm. rewrite take_app_length. by apply unpackSixBit_packed.
Qed.

Lemma sixbit_no (src rest : list Z) (c : Z) :
  Forall packable src -> 0 <= c < 128 -> ~ packable c ->
  _createSixBit (src ++ c :: rest) = Some None.
Proof.
  intros HP Hc Hn. destruct (Forall_coded src HP) as [ps HF].
  unfold _createSixBit.
  destruct (Nat.eqb_spec (length (src ++ c :: rest)) 0) as [E|_]; [len_lia|].
  pose proof (pack_loop_packed src ps [] 0 (length (src ++ c :: rest) + 1)) as E.
  cbn [app length] in E. rewrite pack_loop_app, E by (first [done | len_lia]).
  cbn [mbind option_bind pack_loop]. unfold six_bit_pack.
  by rewrite (not_packable c) by (done || lia).
Qed.

(** On ASCII text the packer either refuses or packs reversibly. *)
Lemma sixbit_total (src : list Z) :
  Forall (fun c => 0 <= c < 128) src -> Z.of_nat (length src) < 2 ^ 29 ->
  _createSixBit src = Some None \/
  exists buf n,
    _createSixBit src = Some (Some (buf, n)) /\ 0 <= n <= Z.of_nat (length src) /\
    (Z.to_nat n <= length buf)%nat /\ (n = 0 -> src = []) /\
    forall mem rest, (length src + 2 <= length mem)%nat ->
      unpackSixBit mem (take (Z.to_nat n) buf ++ rest) n = Some src.
Proof.
  intros HA Hb.
  assert (Hdec : Forall packable src \/ exists l c r, src = l ++ c :: r /\ Forall packable l /\
            0 <= c < 128 /\ ~ packable c).
  { clear Hb. induction HA as [|c src Hc HA IH]; [by left|].
    destruct (index to_six_bit_strings c) as [p|] eqn:E.
    - destruct (Z.eq_dec p 0) as [->|Hp].
      + right. exists [], c, src. split_and!; try done; [lia..|].
        intros (q & Hq & Hq0). congruence.
      + assert (packable c) by (exists p; auto).
        destruct IH as [IH|(l & c' & r & -> & Hl & Hc' & Hn)]; [left; by constructor|].
        right. exists (c :: l), c', r. split_and!; try done; [by constructor|lia..].
    - right. exists [], c, src. split_and!; try done; [lia..|]. intros (q & Hq & _). congruence. }
  destruct Hdec as [HP|(l & c & r & -> & Hl & Hc & Hn)].
  - right. by apply sixbit_ok.
  - left. by apply sixbit_no.
Qed.

(** A byte of 128 or more is a negative [char], and indexes before the table. *)
Lemma negative_char_undefined c i buf pos : c < 0 -> six_bit_pack c i buf pos = None.
Proof. intros Hc. unfold six_bit_pack, index. by destruct (Z.ltb_spec c 0); [|lia]. Qed.

(** ** Properties *)

(** C32: a string of packable characters is packed, into a buffer [buf] of
    which the first [n] bytes are kept, and unpacking those [n] bytes, whatever
    follows them in the row, returns the string. *)
Theorem sixbit_roundtrip (src mem rest : list Z) :
  Forall packable src -> Z.of_nat (length src) < 2 ^ 29 ->
  (length src + 2 <= length mem)%nat ->
  exists buf n,
    _createSixBit src = Some (Some (buf, n)) /\ 0 <= n <= Z.of_nat (length src) + 1 /\
    unpackSixBit mem (take (Z.to_nat n) buf ++ rest) n = Some src.
Proof.
  intros HP Hb Hm. destruct (sixbit_ok src HP Hb) as (buf & n & E & Hn & _ & _ & H).
  exists buf, n. split_and!; [done|lia..|by apply H].
Qed.

Lemma sixbit_roundtrip_witness :
  exists buf n, _createSixBit [72; 101; 108; 108; 111] = Some (Some (buf, n)) /\
    (0 <= n <= 6) /\ unpackSixBit (replicate 7 0) (take (Z.to_nat n) buf ++ [1; 2]) n
      = Some [72; 101; 108; 108; 111].
Proof.
  apply (sixbit_roundtrip [72; 101; 108; 108; 111] (replicate 7 0) [1; 2]).
  - repeat constructor; eexists; (split; [vm_compute; reflexivity|done]).
  - simpl. lia.
  - simpl. lia.
Defined.

(** a string whose first character outside the alphabet comes after any
    number of packable ones is refused (the NULL return), and the packer stays
    inside its buffer until then. *)
Theorem sixbit_refuses (src rest : list Z) (c : Z) :
  Forall packable src -> 0 <= c < 128 -> ~ packable c ->
  _createSixBit (src ++ c :: rest) = Some None.
Proof. apply sixbit_no. Qed.

Lemma sixbit_refuses_witness : _createSixBit ([72; 105] ++ 64 :: [97]) = Some None.
Proof.
  apply (sixbit_refuses [72; 105] [97] 64).
  - repeat constructor; eexists; (split; [vm_compute; reflexivity|done]).
  - lia.
  - intros (p & Hp & Hne). vm_compute in Hp. congruence.
Defined.
