(* ===== verification/CStr.v ===== *)
(** * C strings

    A string is a list of bytes; a [char *] into a buffer is an index, and the
    terminating [0] is an element of the buffer.  Reading outside the buffer is
    [None].  [strtoul] is the C library's, in base 10; the scanning macros are
    those of [DB/parser.h]. *)

From S2P Require Import Prelude.

(** ** Characters *)

Definition ISBLANK (c : Z) : bool := (c =? 32) || (c =? 9).
Definition isspace (c : Z) : bool := (c =? 32) || ((9 <=? c) && (c <=? 13)).
Definition isdigit (c : Z) : bool := (48 <=? c) && (c <=? 57).

(** ** [strtoul], base 10

    Leading white space and one sign are skipped; digits accumulate, and a
    value that does not fit saturates; a minus sign negates modulo [2^64].  The
    list is the string up to its terminator. *)

Definition ULONG_MAX : Z := 2 ^ 64 - 1.

Fixpoint drop_spaces (s : list Z) : list Z :=
  match s with
  | c :: s' => if isspace c then drop_spaces s' else s
  | [] => []
  end.

Fixpoint digits (s : list Z) (acc : Z) : Z :=
  match s with
  | c :: s' => if isdigit c then digits s' (acc * 10 + (c - 48)) else acc
  | [] => acc
  end.

Definition strtoul (s : list Z) : Z :=
  let s := drop_spaces s in
  let '(neg, s) := match s with
                   | 45 :: s' => (true, s')
                   | 43 :: s' => (false, s')
                   | _ => (false, s)
                   end in
  let n := digits s 0 in
  if ULONG_MAX <? n then ULONG_MAX else if neg then u64 (- n) else n.

(** The bytes of a buffer up to the first [0]. *)
Fixpoint cstring (s : list Z) : list Z :=
  match s with
  | c :: s' => if c =? 0 then [] else c :: cstring s'
  | [] => []
  end.

(** ** Scanning a buffer *)

(** [SKIP_SPACES] and [REV_SKIP_SPACES]; the loops are bounded by the buffer. *)
Fixpoint skip_spaces (fuel : nat) (buf : list Z) (i : nat) : option nat :=
  match fuel with
  | O => None
  | S fuel' =>
      c ← buf !! i;
      if ISBLANK c then skip_spaces fuel' buf (S i) else Some i
  end.
Definition SKIP_SPACES (buf : list Z) (i : nat) : option nat :=
  skip_spaces (S (length buf)) buf i.

Fixpoint REV_SKIP_SPACES (buf : list Z) (i : nat) : option nat :=
  c ← buf !! i;
  if ISBLANK c || (c =? 0)
  then match i with O => None | S i' => REV_SKIP_SPACES buf i' end
  else Some i.

(** [memcpy] of [len] bytes at index [i]. *)
Definition slice (buf : list Z) (i len : nat) : option (list Z) :=
  if (i + len <=? length buf)%nat then Some (take len (drop i buf)) else None.

(** ** Decimal strings *)

(** The decimal digits of a number, most significant first ([%lu]). *)
Fixpoint print_dec (fuel : nat) (n : Z) (acc : list Z) : list Z :=
  match fuel with
  | O => acc
  | S fuel' =>
      let acc := 48 + n mod 10 :: acc in
      if n <? 10 then acc else print_dec fuel' (n / 10) acc
  end.
Definition print_lu (n : Z) : list Z := print_dec 20 n [].

Lemma digits_app s1 : forall s2 acc,
  Forall (fun c => isdigit c = true) s1 -> digits (s1 ++ s2) acc = digits s2 (digits s1 acc).
Proof.
  induction s1 as [|c s1 IH]; intros s2 acc HF; [done|].
  apply Forall_cons in HF as [Hc HF]. cbn. rewrite Hc. by apply IH.
Qed.

Lemma isdigit_dec n : isdigit (48 + n mod 10) = true.
Proof.
  unfold isdigit. apply andb_true_intro. rewrite !Z.leb_le.
  pose proof (Z.mod_pos_bound n 10). lia.
Qed.

(** Every number below [10^20], so every 64-bit one, prints and reads back. *)
Lemma digits_print fuel : forall n acc,
  0 <= n < 10 ^ Z.of_nat fuel -> (0 < fuel)%nat ->
  exists ds, print_dec fuel n acc = ds ++ acc /\ Forall (fun c => isdigit c = true) ds /\
    digits ds 0 = n /\ ds <> [] /\ (length ds <= fuel)%nat.
Proof.
  induction fuel as [|fuel IH]; intros n acc Hn Hf; [lia|]. cbn [print_dec].
  rewrite Nat2Z.inj_succ, Z.pow_succ_r in Hn by lia.
  destruct (Z.ltb_spec n 10) as [Hlt|Hge].
  - exists [48 + n mod 10].
    assert (E : digits [48 + n mod 10] 0 = n).
    { cbn [digits]. rewrite isdigit_dec. rewrite Z.mod_small by lia. lia. }
    split_and!; [done| |done|done|cbn; lia].
    constructor; [apply isdigit_dec|constructor].
  - destruct fuel as [|fuel]; [cbn in Hn; lia|].
    destruct (IH (n / 10) (48 + n mod 10 :: acc)) as (ds & -> & HF & Hd & Hne & Hl);
      [split; [dlia|apply Z.div_lt_upper_bound; lia]|lia|].
    exists (ds ++ [48 + n mod 10]). split_and!.
    + by rewrite <- app_assoc.
    + apply Forall_app. split; [done|]. constructor; [apply isdigit_dec|constructor].
    + rewrite digits_app by done. cbn [digits]. rewrite isdigit_dec, Hd. dlia.
    + by destruct ds.
    + rewrite length_app. cbn. lia.
Qed.

Lemma isdigit_not_space c : isdigit c = true -> isspace c = false /\ c <> 45 /\ c <> 43 /\ c <> 0.
Proof.
  unfold isdigit, isspace. intros [H1%Z.leb_le H2%Z.leb_le]%andb_true_iff.
  split; [|lia]. apply orb_false_iff. rewrite Z.eqb_neq, andb_false_iff, !Z.leb_gt. lia.
Qed.

Lemma strtoul_digits ds :
  Forall (fun c => isdigit c = true) ds -> digits ds 0 <= ULONG_MAX ->
  strtoul ds = digits ds 0.
Proof.
  intros HF Hb. unfold strtoul. destruct ds as [|c ds]; [done|].
  apply Forall_cons in HF as [Hc HF].
  destruct (isdigit_not_space c Hc) as (Hs & H45 & H43 & _).
  cbn [drop_spaces]. rewrite Hs.
  assert (E : match c with 45 => (true, ds) | 43 => (false, ds) | _ => (false, c :: ds) end
              = (false, c :: ds)).
  { destruct c as [|q|q]; try done. do 6 (destruct q as [q|q|]; try done). }
  rewrite E. destruct (Z.ltb_spec ULONG_MAX (digits (c :: ds) 0)); [lia|done].
Qed.

Lemma strtoul_print n : 0 <= n < 2 ^ 64 -> strtoul (print_lu n) = n.
Proof.
  intros Hn. unfold print_lu.
  destruct (digits_print 20 n []) as (ds & -> & HF & Hd & _); [cbn; lia|lia|].
  rewrite app_nil_r, strtoul_digits; [done|done|]. unfold ULONG_MAX. lia.
Qed.

Lemma print_lu_digits n : 0 <= n < 2 ^ 64 ->
  Forall (fun c => isdigit c = true) (print_lu n) /\ print_lu n <> [] /\
  (length (print_lu n) <= 20)%nat.
Proof.
  intros Hn. unfold print_lu.
  destruct (digits_print 20 n []) as (ds & -> & HF & _ & Hne & Hl); [cbn; lia|lia|].
  rewrite app_nil_r. auto.
Qed.

Lemma digits_stop ds c r acc :
  Forall (fun c => isdigit c = true) ds -> isdigit c = false ->
  digits (ds ++ c :: r) acc = digits ds acc.
Proof. intros HF Hc. rewrite digits_app by done. cbn. by rewrite Hc. Qed.

Lemma digits_whole ds acc : digits (ds ++ []) acc = digits ds acc.
Proof. by rewrite app_nil_r. Qed.

(** [strtoul] stops at the first character that is no digit. *)
Lemma strtoul_prefix ds c r :
  Forall (fun c => isdigit c = true) ds -> ds <> [] -> isdigit c = false ->
  strtoul (ds ++ c :: r) = strtoul ds.
Proof.
  intros HF Hne Hc. destruct ds as [|d ds]; [done|].
  apply Forall_cons in HF as [Hd HF].
  destruct (isdigit_not_space d Hd) as (Hs & H45 & H43 & _).
  unfold strtoul. cbn [app drop_spaces]. rewrite Hs.
  assert (E : forall l, match d with 45 => (true, l) | 43 => (false, l) | _ => (false, d :: l) end
              = (false, d :: l)).
  { intros l. destruct d as [|q|q]; try done. do 6 (destruct q as [q|q|]; try done). }
  rewrite !E. change (d :: ds ++ c :: r) with ((d :: ds) ++ c :: r).
  by rewrite digits_stop by (done || by constructor).
Qed.

Lemma cstring_app s r : Forall (fun c => c <> 0) s -> cstring (s ++ r) = s ++ cstring r.
Proof.
  induction 1 as [|c s Hc _ IH]; [done|]. cbn. destruct (Z.eqb_spec c 0); [done|]. by rewrite IH.
Qed.

Lemma cstring_id s : Forall (fun c => c <> 0) s -> cstring s = s.
Proof. intros H. rewrite <- (app_nil_r s) at 1. rewrite cstring_app by done. apply app_nil_r. Qed.

Lemma digits_nonzero ds : Forall (fun c => isdigit c = true) ds -> Forall (fun c => c <> 0) ds.
Proof.
  intros H. eapply Forall_impl; [exact H|]. intros c Hc. by apply isdigit_not_space.
Qed.

Lemma isdigit_not_blank c : isdigit c = true -> ISBLANK c = false.
Proof.
  unfold isdigit, ISBLANK. intros [H1%Z.leb_le H2%Z.leb_le]%andb_true_iff.
  apply orb_false_iff. rewrite !Z.eqb_neq. lia.
Qed.

Lemma SKIP_SPACES_at buf i c : buf !! i = Some c -> ISBLANK c = false -> SKIP_SPACES buf i = Some i.
Proof. intros Hi Hc. unfold SKIP_SPACES. cbn [skip_spaces]. rewrite Hi. cbn. by rewrite Hc. Qed.

Lemma slice_mid pre s post i len :
  i = length pre -> len = length s -> slice (pre ++ s ++ post) i len = Some s.
Proof.
  intros -> ->. unfold slice. rewrite !length_app.
  destruct (Nat.leb_spec (length pre + length s) (length pre + (length s + length post))); [|lia].
  by rewrite drop_app_length, take_app_length.
Qed.

(** ** [strncmp], [strchr] and the end pointer of [strtol]

    Reading past the end of either buffer is [None]; the sign of the result is
    that of the first difference. *)

Fixpoint strncmp (s1 s2 : list Z) (n : nat) : option Z :=
  match n with
  | O => Some 0
  | S n' =>
      match s1, s2 with
      | c1 :: s1', c2 :: s2' =>
          if c1 =? c2 then if c1 =? 0 then Some 0 else strncmp s1' s2' n'
          else Some (c1 - c2)
      | _, _ => None
      end
  end.

(** The index of the first [c] before the terminator. *)
Fixpoint strchr (s : list Z) (c : Z) : option (option nat) :=
  match s with
  | [] => None
  | b :: s' =>
      if b =? c then Some (Some O)
      else if b =? 0 then Some None
      else option_map (option_map S) (strchr s' c)
  end.

Fixpoint drop_digits (s : list Z) : list Z :=
  match s with
  | c :: s' => if isdigit c then drop_digits s' else s
  | [] => []
  end.

(** What [strtol] leaves at its end pointer: the whole string when there is no
    digit to read. *)
Definition strtol_rest (s : list Z) : list Z :=
  let t := drop_spaces s in
  let t := match t with
           | 45 :: t' => t'
           | 43 :: t' => t'
           | _ => t
           end in
  match t with
  | c :: _ => if isdigit c then drop_digits t else s
  | [] => s
  end.

Lemma strncmp_same s : forall n, (n <= length s)%nat -> strncmp s s n = Some 0.
Proof.
  induction s as [|c s IH]; intros [|n] Hn; cbn in *; try done; [lia|].
  rewrite Z.eqb_refl. destruct (c =? 0); [done|]. apply IH. lia.
Qed.

(** On strings without a terminator inside, a zero result means that the first
    [n] bytes agree. *)
Lemma strncmp_zero s1 : forall s2 n,
  Forall (fun c => c <> 0) s1 -> (n <= length s1)%nat -> (n <= length s2)%nat ->
  exists r, strncmp s1 s2 n = Some r /\ (r = 0 <-> take n s1 = take n s2).
Proof.
  induction s1 as [|c1 s1 IH]; intros s2 [|n] HF H1 H2; cbn in H1; [by exists 0|lia|by exists 0|].
  destruct s2 as [|c2 s2]; cbn in H2; [lia|]. apply Forall_cons in HF as [Hc HF].
  cbn. destruct (Z.eqb_spec c1 c2) as [->|Hne].
  - destruct (Z.eqb_spec c2 0); [done|]. destruct (IH s2 n HF) as (r & -> & Hr); [lia..|].
    exists r. split; [done|]. rewrite Hr. split; [by intros ->|congruence].
  - exists (c1 - c2). split; [done|]. split; [lia|congruence].
Qed.
