(* ===== verification/Lru.v ===== *)
(** * The clock of LRU columns ([getLru] of [DB/lru.c])

    A row that is read gets a time; times are rounded down to an interval, so
    that most rows of a busy table share one, but after [ThresAccess] accesses a
    new interval begins at once. *)

From S2P Require Import Prelude.

Definition IntervalSecs : Z := 5.
Definition ThresAccess : Z := 55.

(** The fields of a table, and the last time anything was read, which the tables
    share. *)
Record lru_t := Lru { n_intr : Z; lastts : Z; nextts : Z }.
Record clock := Clock { LastT : Z; Tbl : list lru_t }.

(** [t] is [time(NULL)] less the beginning of time. *)
Definition getLru (c : clock) (t : Z) (tmatch : nat) : option (clock * Z) :=
  rt ← Tbl c !! tmatch;
  let tmod := t - t mod IntervalSecs in
  let n := if u32 (LastT c + IntervalSecs) <? t then 0 else n_intr rt in
  let n := u32 (n + 1) in
  let ret rt v := Some (Clock t (<[tmatch := rt]> (Tbl c)), v) in
  if n =? ThresAccess then ret (Lru 0 t (u32 (t + IntervalSecs))) t
  else if negb (lastts rt =? 0) then
    if t <? nextts rt then ret (Lru n (lastts rt) (nextts rt)) (lastts rt)
    else ret (Lru 0 0 (nextts rt)) tmod
  else ret (Lru n (lastts rt) (nextts rt)) tmod.

(** The times given at a list of accesses, a time and a table each. *)
Fixpoint run (c : clock) (calls : list (Z * nat)) : option (clock * list Z) :=
  match calls with
  | [] => Some (c, [])
  | (t, tm) :: calls => '(c, v) ← getLru c t tm; '(c, vs) ← run c calls; Some (c, v :: vs)
  end.

(** ** The times of a table do not go back *)

(** At time [now] nothing above [low] was given: [low] is at most the interval
    that has begun, or the interval now. *)
Definition lru_ok (now low : Z) (rt : lru_t) : Prop :=
  if lastts rt =? 0 then low <= now - now mod IntervalSecs
  else low <= lastts rt <= now /\ nextts rt = lastts rt + IntervalSecs.

Lemma tmod_mono a b : a <= b -> a - a mod IntervalSecs <= b - b mod IntervalSecs.
Proof. unfold IntervalSecs. intros. dlia. Qed.

Lemma lru_later now now' low rt : now <= now' -> lru_ok now low rt -> lru_ok now' low rt.
Proof. unfold lru_ok. intros H. pose proof (tmod_mono now now' H). destruct (lastts rt =? 0); lia. Qed.

Lemma getLru_ok c t tm rt now low : 0 <= now <= t -> t < 2 ^ 32 - IntervalSecs -> Tbl c !! tm = Some rt -> lru_ok now low rt ->
  exists rt' v, getLru c t tm = Some (Clock t (<[tm := rt']> (Tbl c)), v) /\ lru_ok t v rt' /\ low <= v /\ t - IntervalSecs < v <= t.
Proof.
  intros Hnow Ht Hrt Hok. unfold getLru. rewrite Hrt. cbn [mbind option_bind]. pose proof (tmod_mono now t ltac:(lia)) as Hm.
  assert (Hr : 0 <= t mod IntervalSecs < IntervalSecs) by (apply Z.mod_pos_bound; done).
  assert (Hlow : low <= t).
  { unfold lru_ok in Hok. assert (0 <= now mod IntervalSecs) by (apply Z.mod_pos_bound; done). destruct (lastts rt =? 0); lia. }
  unfold lru_ok in *. destruct (_ =? ThresAccess).
  - eexists _, _. split; [done|]. cbn [lastts nextts]. rewrite uwrap_small by (unfold IntervalSecs in *; lia).
    unfold IntervalSecs in *. split_and!; try lia. destruct (Z.eqb_spec t 0) as [->|]; [done|lia].
  - destruct (Z.eqb_spec (lastts rt) 0) as [E|E]; cbn [negb].
    + eexists _, _. split; [done|]. cbn [lastts nextts]. rewrite E. cbn. unfold IntervalSecs in *. lia.
    + destruct (Z.ltb_spec t (nextts rt)); (eexists _, _; split; [done|]; cbn [lastts nextts]).
      * destruct (Z.eqb_spec (lastts rt) 0); [done|]. lia.
      * cbn. unfold IntervalSecs in *. lia.
Qed.

Lemma zip_forall {A B} (P : A -> B -> Prop) l k : Forall2 P l k -> Forall (fun p => P p.1 p.2) (zip l k).
Proof. induction 1; cbn; by constructor. Qed.

Lemma run_lru calls : forall c now (low : nat -> Z), 0 <= now ->
  Forall (fun '(t, tm) => now <= t < 2 ^ 32 - IntervalSecs /\ (tm < length (Tbl c))%nat) calls ->
  StronglySorted (fun a b => a.1 <= b.1) calls -> (forall tm rt, Tbl c !! tm = Some rt -> lru_ok now (low tm) rt) ->
  exists c' vs, run c calls = Some (c', vs) /\
    Forall2 (fun '(t, tm) v => low tm <= v /\ t - IntervalSecs < v <= t) calls vs /\
    StronglySorted (fun a b => a.1.2 = b.1.2 -> a.2 <= b.2) (zip calls vs).
Proof.
  induction calls as [|[t tm] calls IH]; intros c now low Hnow HF Hs Hlow.
  { exists c, []. split; [done|]. split; constructor. }
  apply Forall_cons in HF as [[Ht Htm] HF]. apply StronglySorted_inv in Hs as [Hs Hall].
  destruct (lookup_lt_is_Some_2 _ _ Htm) as [rt Hrt].
  destruct (getLru_ok c t tm rt now (low tm)) as (rt' & v & E & Hok & Hlv & Hv); [lia|lia|done|by apply Hlow|].
  cbn [run]. rewrite E. cbn [mbind option_bind].
  destruct (IH (Clock t (<[tm := rt']> (Tbl c))) t (fun k => if decide (k = tm) then v else low k)) as (c' & vs & -> & H2 & H3).
  - lia.
  - cbn [Tbl]. rewrite length_insert. rewrite Forall_forall in *. intros [t' tm'] Hin. pose proof (HF _ Hin) as [? ?].
    specialize (Hall _ Hin). cbn in Hall. lia.
  - done.
  - intros k rk Hk. cbn [Tbl] in Hk. case_decide as Hd.
    + subst k. rewrite list_lookup_insert_eq in Hk by done. by injection Hk as <-.
    + rewrite list_lookup_insert_ne in Hk by done. apply (lru_later now); [lia|by apply Hlow].
  - cbn [mbind option_bind]. exists c', (v :: vs). split; [done|]. split.
    + constructor; [lia|]. eapply Forall2_impl; [exact H2|]. intros [t' tm'] v'. cbn. case_decide as Hd; [subst|]; lia.
    + cbn [zip zip_with]. constructor; [done|]. eapply Forall_impl; [exact (zip_forall _ _ _ H2)|].
      intros [[t' tm'] v']. cbn. intros [Hl _] ->. case_decide; [done|congruence].
Qed.

(** C34: However the tables are accessed, as long as the clock of the machine does
    not go back, every access gets a time of the last [IntervalSecs] seconds, and
    the times a table gives never decrease. *)
Theorem getLru_monotone (n : nat) (calls : list (Z * nat)) :
  Forall (fun '(t, tm) => 0 <= t < 2 ^ 32 - IntervalSecs /\ (tm < n)%nat) calls ->
  StronglySorted (fun a b => a.1 <= b.1) calls ->
  exists c vs, run (Clock 0 (replicate n (Lru 0 0 0))) calls = Some (c, vs) /\
    Forall2 (fun '(t, _) v => t - IntervalSecs < v <= t) calls vs /\
    StronglySorted (fun a b => a.1.2 = b.1.2 -> a.2 <= b.2) (zip calls vs).
Proof.
  intros HF Hs. destruct (run_lru calls (Clock 0 (replicate n (Lru 0 0 0))) 0 (fun _ => 0)) as (c & vs & E & H2 & H3).
  - lia.
  - cbn [Tbl]. by rewrite length_replicate.
  - done.
  - intros tm rt H. apply lookup_replicate in H as [-> _]. done.
  - exists c, vs. split; [done|]. split; [|done]. eapply Forall2_impl; [exact H2|]. intros [t tm] v. cbn. lia.
Qed.

(** Two tables, one of them in a burst at 7 seconds. *)
Definition w_calls : list (Z * nat) := replicate 60 (7, 0%nat) ++ [(8, 1%nat); (9, 0%nat); (13, 0%nat); (13, 1%nat)].
Lemma getLru_monotone_witness :
  exists c vs, run (Clock 0 (replicate 2 (Lru 0 0 0))) w_calls = Some (c, vs) /\
    Forall2 (fun '(t, _) v => t - IntervalSecs < v <= t) w_calls vs /\
    StronglySorted (fun a b => a.1.2 = b.1.2 -> a.2 <= b.2) (zip w_calls vs).
Proof.
  apply getLru_monotone.
  - apply (bool_decide_unpack _). vm_compute. exact I.
  - unfold w_calls. cbn [replicate app]. repeat (constructor; [|repeat (constructor; [cbn; lia|]); constructor]). constructor.
Defined.
