(* ===== verification/Aobj.v ===== *)
(** * Typed values ([DB/aobj.c], [DB/common.h])

    An [aobj] carries a value of any column type: it is what SQL text is parsed
    into, what keys are built from, what a column read from a row becomes and
    what the replies print.  The string pointer is the memory it points to;
    freed memory is kept apart, so that a read of it is [None].  [strtod], [atof]
    and the formats of [FLOAT] are the C library's and are parameters; a [FLOAT]
    is its 32 bits. *)

From S2P Require Import Prelude CStr.
From Stdlib Require Import SpecFloat.

(** ** Column types *)

Definition COL_TYPE_NONE : Z := 0.
Definition COL_TYPE_INT : Z := 1.
Definition COL_TYPE_LONG : Z := 2.
Definition COL_TYPE_STRING : Z := 3.
Definition COL_TYPE_FLOAT : Z := 4.
Definition COL_TYPE_U128 : Z := 5.
Definition COL_TYPE_LUAO : Z := 6.
Definition COL_TYPE_FUNC : Z := 7.
Definition COL_TYPE_BOOL : Z := 8.
Definition COL_TYPE_CNAME : Z := 9.
Definition COL_TYPE_ERR : Z := 10.

Definition C_IS_N (ctype : Z) : bool := ctype =? COL_TYPE_NONE.
Definition C_IS_I (ctype : Z) : bool := ctype =? COL_TYPE_INT.
Definition C_IS_L (ctype : Z) : bool := ctype =? COL_TYPE_LONG.
Definition C_IS_S (ctype : Z) : bool := ctype =? COL_TYPE_STRING.
Definition C_IS_F (ctype : Z) : bool := ctype =? COL_TYPE_FLOAT.
Definition C_IS_X (ctype : Z) : bool := ctype =? COL_TYPE_U128.
Definition C_IS_P (ctype : Z) : bool := ctype =? COL_TYPE_FUNC.
Definition C_IS_O (ctype : Z) : bool := ctype =? COL_TYPE_LUAO.
Definition C_IS_B (ctype : Z) : bool := ctype =? COL_TYPE_BOOL.
Definition C_IS_C (ctype : Z) : bool := ctype =? COL_TYPE_CNAME.
Definition C_IS_E (ctype : Z) : bool := ctype =? COL_TYPE_ERR.
Definition C_IS_NUM (ctype : Z) : bool := C_IS_I ctype || C_IS_L ctype || C_IS_X ctype.

(** ** Single-precision floats *)

(** The value of 32 bits; [f32_sub] is the subtraction of two [float]s. *)
Definition f32_of_bits (b : Z) : spec_float :=
  let sg := Z.testbit b 31 in
  let e := Z.land (Z.shiftr b 23) 255 in
  let m := Z.land b (2 ^ 23 - 1) in
  if e =? 255 then if m =? 0 then S754_infinity sg else S754_nan
  else if e =? 0 then match m with Zpos p => S754_finite sg p (-149) | _ => S754_zero sg end
  else match m + 2 ^ 23 with
       | Zpos p => S754_finite sg p (e - 150)
       | _ => S754_nan
       end.

Definition f32_sub (a b : Z) : spec_float := SFsub 24 128 (f32_of_bits a) (f32_of_bits b).

(** [(f == 0.0) ? 0 : ((f > 0.0) ? 1 : -1)] *)
Definition f32_sign (f : spec_float) : Z :=
  match f with
  | S754_zero _ => 0
  | S754_finite false _ _ | S754_infinity false => 1
  | _ => -1
  end.

(** ** The record *)

Inductive sptr :=
| S_NULL
| S_FREED
| S_MEM (m : list Z).

(** A read through a string pointer. *)
Definition deref (p : sptr) : option (list Z) :=
  match p with S_MEM m => Some m | _ => None end.

Record aobj := Aobj {
  ao_s : sptr; ao_len : Z; ao_i : Z; ao_l : Z; ao_x : Z; ao_f : Z; ao_b : bool;
  ao_type : Z; ao_enc : Z; ao_freeme : bool; ao_empty : bool;
}.

(** The string an [aobj] denotes. *)
Definition ao_str (a : aobj) : option (list Z) :=
  m ← deref (ao_s a); slice m 0 (Z.to_nat (ao_len a)).

Definition initAobj : aobj :=
  Aobj S_NULL 0 0 0 0 0 false COL_TYPE_NONE 0 false true.
Definition initAobjZeroNum (ctype : Z) : aobj :=
  Aobj S_NULL 0 0 0 0 0 false ctype ctype false false.
Definition initAobjInt (l : Z) : aobj :=
  Aobj S_NULL 0 (u32 l) 0 0 0 false COL_TYPE_INT COL_TYPE_INT false false.
Definition initAobjLong (l : Z) : aobj :=
  Aobj S_NULL 0 0 l 0 0 false COL_TYPE_LONG COL_TYPE_LONG false false.
Definition initAobjString (s : sptr) (len : Z) : aobj :=
  Aobj s (u32 len) 0 0 0 0 false COL_TYPE_STRING COL_TYPE_STRING false false.
(** The other fields keep what they held. *)
Definition initAobjU128 (a : aobj) (x : Z) : aobj :=
  Aobj (ao_s a) (ao_len a) (ao_i a) (ao_l a) x (ao_f a) (ao_b a)
    COL_TYPE_U128 COL_TYPE_U128 (ao_freeme a) false.
Definition initAobjFloat (f : Z) : aobj :=
  Aobj S_NULL 0 0 0 0 f false COL_TYPE_FLOAT COL_TYPE_FLOAT false false.
Definition initAobjBool (b : bool) : aobj :=
  Aobj S_NULL 0 0 0 0 0 b COL_TYPE_BOOL COL_TYPE_BOOL false false.

(** [free(a->s)] when the object owns its string. *)
Definition releaseAobj (a : aobj) : aobj :=
  Aobj (if ao_freeme a then S_NULL else ao_s a) (ao_len a) (ao_i a) (ao_l a) (ao_x a) (ao_f a)
    (ao_b a) COL_TYPE_NONE (ao_enc a) false true.

(** ** Text to values *)

Definition is_int (s : list Z) : bool :=
  match strtol_rest s with [] => true | _ => false end.

(** [parseU128]: the two halves around a bar. *)
Definition _parseU128 (s c : list Z) : option Z :=
  match c with
  | [] => None
  | _ => Some (strtoul s * 2 ^ 64 + strtoul c)
  end.
Definition parseU128 (s : list Z) : option Z :=
  match list_find (fun c => c = 124) s with
  | None => None
  | Some (p, _) => _parseU128 s (drop (S p) s)
  end.

(** The characters of [true] and [false]. *)
Definition s_true : list Z := [116; 114; 117; 101].
Definition s_false : list Z := [102; 97; 108; 115; 101].

Section Text.
Context (is_float : list Z -> bool) (atof : list Z -> Z).

(** [s] is the string up to its terminator; [p] is the pointer to it. *)
Definition initAobjDetermineType (a : aobj) (p : sptr) (s : list Z) (len : Z) (fs : bool) : aobj :=
  if is_int s then
    Aobj (if fs then p else ao_s a) (if fs then len else ao_len a) (ao_i a)
      (if fs then ao_l a else strtoul s) (ao_x a) (ao_f a) (ao_b a)
      COL_TYPE_LONG COL_TYPE_LONG (ao_freeme a) false
  else if is_float s then
    Aobj (if fs then p else ao_s a) (if fs then len else ao_len a) (ao_i a) (ao_l a) (ao_x a)
      (if fs then ao_f a else atof s) (ao_b a)
      COL_TYPE_FLOAT COL_TYPE_FLOAT (ao_freeme a) false
  else if bool_decide (s = s_true) then
    Aobj (ao_s a) (ao_len a) (ao_i a) (ao_l a) (ao_x a) (ao_f a) true
      COL_TYPE_BOOL COL_TYPE_BOOL (ao_freeme a) false
  else if bool_decide (s = s_false) then
    Aobj (ao_s a) (ao_len a) (ao_i a) (ao_l a) (ao_x a) (ao_f a) false
      COL_TYPE_BOOL COL_TYPE_BOOL (ao_freeme a) false
  else
    Aobj p len (ao_i a) (ao_l a) (ao_x a) (ao_f a) (ao_b a)
      COL_TYPE_LUAO COL_TYPE_LUAO (ao_freeme a) false.

(** [x] where [parseU128] found one, else the zero of [bzero]. *)
Definition x_or_zero (x : option Z) : Z := default 0 x.

(** [buf] is the memory from [s] on.  The LUAO branch copies the text, lets
    [initAobjDetermineType] keep a pointer to the copy, and frees it. *)
Definition initAobjFromStr (buf : list Z) (len : Z) (ctype : Z) : option aobj :=
  let s := cstring buf in
  if C_IS_S ctype then
    m ← slice buf 0 (Z.to_nat len);
    Some (Aobj (S_MEM m) len 0 0 0 0 false COL_TYPE_STRING COL_TYPE_STRING true false)
  else if C_IS_F ctype then Some (initAobjFloat (atof s))
  else if C_IS_L ctype then Some (initAobjLong (strtoul s))
  else if C_IS_I ctype then Some (initAobjInt (strtoul s))
  else if C_IS_X ctype then
    Some (Aobj S_NULL 0 0 0 (x_or_zero (parseU128 s)) 0 false COL_TYPE_U128 COL_TYPE_U128 false false)
  else if C_IS_P ctype then
    Some (Aobj S_NULL 0 (u32 (strtoul s)) 0 0 0 false COL_TYPE_FUNC COL_TYPE_FUNC false false)
  else if C_IS_O ctype then
    m ← slice buf 0 (Z.to_nat len);
    Some (initAobjDetermineType (initAobjZeroNum COL_TYPE_LUAO) S_FREED (cstring m) len false)
  else None.

(** [s] is an [sds]; its [_strdup] stops at the first terminator. *)
Definition convertSdsToAobj (s : list Z) (ctype : Z) : option aobj :=
  let c := cstring s in
  if C_IS_S ctype then
    Some (Aobj (S_MEM (c ++ [0])) (Z.of_nat (length s)) 0 0 0 0 false
            COL_TYPE_STRING COL_TYPE_STRING true false)
  else if C_IS_I ctype then Some (initAobjInt (strtoul c))
  else if C_IS_L ctype then Some (initAobjLong (strtoul c))
  else if C_IS_F ctype then Some (initAobjFloat (atof c))
  else if C_IS_X ctype then
    Some (Aobj S_NULL 0 0 0 (x_or_zero (parseU128 c)) 0 false COL_TYPE_U128 COL_TYPE_U128 false false)
  else if C_IS_P ctype then
    Some (Aobj S_NULL 0 (u32 (strtoul c)) 0 0 0 false COL_TYPE_FUNC COL_TYPE_FUNC false false)
  else None.
End Text.

Definition initAobjFromLong (l : Z) (ctype : Z) : option aobj :=
  if C_IS_I ctype then Some (initAobjInt l)
  else if C_IS_L ctype then Some (initAobjLong l)
  else if C_IS_X ctype then
    Some (Aobj S_NULL 0 0 0 l 0 false COL_TYPE_U128 COL_TYPE_U128 false false)
  else None.

(** The IN list of a filter, converted element by element. *)
Definition convertINLtoAobj (atof : list Z -> Z) (ol : list (list Z)) (ctype : Z)
  : option (list aobj) :=
  mapM (fun ink => convertSdsToAobj atof ink ctype) ol.

(** [aobjClone] duplicates the string when the source owns it. *)
Definition aobjClone (src : aobj) : option aobj :=
  if ao_freeme src then
    m ← ao_str src;
    Some (Aobj (S_MEM m) (ao_len src) (ao_i src) (ao_l src) (ao_x src) (ao_f src) (ao_b src)
            (ao_type src) (ao_enc src) true (ao_empty src))
  else Some src.
Definition cloneAobj (a : aobj) : option aobj := aobjClone a.
Definition cloneAobjList (ll : list aobj) : option (list aobj) := mapM cloneAobj ll.

(** ** Values to text *)

(** [SPRINTF_128] *)
Definition sprintf_128 (x : Z) : list Z :=
  print_lu (x / 2 ^ 64) ++ 124 :: print_lu (x mod 2 ^ 64).

Section Output.
(** [FLOAT_FMT], [%.17g] and the current error message. *)
Context (float_fmt float_17g : Z -> list Z) (curr_error : list Z).

(** The string and its length. *)
Definition strFromAobj (a : aobj) : option (list Z) :=
  if C_IS_S (ao_type a) then ao_str a
  else if C_IS_I (ao_type a) then Some (print_lu (ao_i a))
  else if C_IS_P (ao_type a) then Some (print_lu (ao_i a))
  else if C_IS_L (ao_type a) then Some (print_lu (ao_l a))
  else if C_IS_F (ao_type a) then Some (float_fmt (ao_f a))
  else if C_IS_X (ao_type a) then Some (sprintf_128 (ao_x a))
  else None.
Definition initStringAobjFromAobj (a2 : aobj) : option aobj :=
  s ← strFromAobj a2;
  Some (Aobj (S_MEM (s ++ [0])) (Z.of_nat (length s)) 0 0 0 0 false
          COL_TYPE_STRING COL_TYPE_STRING true false).

Definition createSDSFromAobj (a : aobj) : option (list Z) :=
  if C_IS_S (ao_type a) || (ao_enc a =? COL_TYPE_STRING) then ao_str a
  else if C_IS_F (ao_type a) then Some (float_fmt (ao_f a))
  else if C_IS_L (ao_type a) then Some (print_lu (ao_l a))
  else if C_IS_I (ao_type a) then Some (print_lu (ao_i a))
  else if C_IS_P (ao_type a) then Some (print_lu (ao_i a))
  else if C_IS_X (ao_type a) then Some (sprintf_128 (ao_x a))
  else if C_IS_B (ao_type a) then Some (if ao_b a then s_true else s_false)
  else None.

(** The replies: a buffer and the length reported for it. *)
Definition outputIntS (s : list Z) : list Z * Z :=
  (58 :: s ++ [13; 10], Z.of_nat (length s) + 3).
Definition outputInt (i : Z) : list Z * Z := outputIntS (print_lu i).
Definition outputLong (l : Z) : list Z * Z := outputIntS (print_lu l).
Definition bulk (buf : list Z) : list Z :=
  36 :: print_lu (Z.of_nat (length buf)) ++ [13; 10] ++ buf ++ [13; 10].
Definition outputX (x : Z) : list Z * Z :=
  let buf := sprintf_128 x in (bulk buf, Z.of_nat (length (bulk buf))).
Definition outputFloat (f : Z) : list Z * Z :=
  let buf := float_17g f in (bulk buf, Z.of_nat (length (bulk buf))).
(** The lengths are [int]s: a negative one makes [memcpy] or [malloc] take almost
    [2^64] bytes. *)
Definition outputS (s : list Z) (len : Z) : option (list Z * Z) :=
  let len := s32 len in
  if len <? 0 then None
  else
    m ← slice s 0 (Z.to_nat len);
    let ilen := print_lu len in
    let rlen := s32 (Z.of_nat (length ilen) + 5 + len) in
    if rlen <? 0 then None
    else Some (36 :: ilen ++ [13; 10] ++ m ++ [13; 10], rlen).
Definition outputNil : list Z * Z := ([58; 45; 49; 13; 10], 5).

Definition outputAobj (a : aobj) : option (list Z * Z) :=
  if C_IS_I (ao_type a) then Some (outputInt (ao_i a))
  else if C_IS_P (ao_type a) then Some (outputInt (ao_i a))
  else if C_IS_B (ao_type a) then Some (outputInt (if ao_b a then 1 else 0))
  else if C_IS_L (ao_type a) then Some (outputLong (ao_l a))
  else if C_IS_F (ao_type a) then Some (outputFloat (ao_f a))
  else if C_IS_S (ao_type a) then s ← deref (ao_s a); outputS s (ao_len a)
  else if C_IS_X (ao_type a) then Some (outputX (ao_x a))
  else if C_IS_O (ao_type a) then s ← deref (ao_s a); outputS s (ao_len a)
  else if C_IS_N (ao_type a) then Some outputNil
  else if C_IS_E (ao_type a) then outputS curr_error (Z.of_nat (length curr_error))
  else None.
(** [sl_t]: the string, its length and its type. *)
Definition outputReformat (a : aobj) : option (list Z * Z * Z) :=
  '(s, len) ← outputAobj a; Some (s, len, ao_type a).
Definition outputSL (atof : list Z -> Z) (is_float : list Z -> bool) (ct : Z) (s : list Z) (len : Z)
  : option (list Z * Z * Z) :=
  a ← initAobjFromStr is_float atof s len COL_TYPE_STRING;
  '(s2, len2) ← outputAobj a; Some (s2, len2, ct).
End Output.

(** ** Comparison and arithmetic *)

Definition aobjCmp (a b : aobj) : option Z :=
  if C_IS_S (ao_type a) then
    s1 ← deref (ao_s a); s2 ← deref (ao_s b); strncmp s1 s2 (Z.to_nat (ao_len a))
  else if C_IS_F (ao_type a) then Some (f32_sign (f32_sub (ao_f a) (ao_f b)))
  else if C_IS_L (ao_type a) then
    Some (if ao_l a =? ao_l b then 0 else if ao_l b <? ao_l a then 1 else -1)
  else if C_IS_X (ao_type a) then
    Some (if ao_x a =? ao_x b then 0 else if ao_x b <? ao_x a then 1 else -1)
  else if C_IS_I (ao_type a) || C_IS_P (ao_type a) then
    Some (s32 (u32 (ao_i a - ao_i b)))
  else None.

Definition aobjEQ (a b : aobj) : option bool := option_map (fun c => c =? 0) (aobjCmp a b).
(** [bool] is [unsigned char], so the [int] is truncated. *)
Definition aobjNE (a b : aobj) : option bool := option_map (fun c => negb (u8 c =? 0)) (aobjCmp a b).
Definition aobjLT (a b : aobj) : option bool := option_map (fun c => c <? 0) (aobjCmp a b).
Definition aobjLE (a b : aobj) : option bool := option_map (fun c => c <=? 0) (aobjCmp a b).
Definition aobjGT (a b : aobj) : option bool := option_map (fun c => 0 <? c) (aobjCmp a b).
Definition aobjGE (a b : aobj) : option bool := option_map (fun c => 0 <=? c) (aobjCmp a b).

Definition getSizeAobj (a : aobj) : option Z :=
  if negb (C_IS_NUM (ao_type a)) then Some (-1)
  else if C_IS_I (ao_type a) then Some 4
  else if C_IS_L (ao_type a) then Some 8
  else if C_IS_X (ao_type a) then Some 16
  else None.

Definition set_i (a : aobj) (i : Z) : aobj :=
  Aobj (ao_s a) (ao_len a) i (ao_l a) (ao_x a) (ao_f a) (ao_b a) (ao_type a) (ao_enc a)
    (ao_freeme a) (ao_empty a).
Definition set_l (a : aobj) (l : Z) : aobj :=
  Aobj (ao_s a) (ao_len a) (ao_i a) l (ao_x a) (ao_f a) (ao_b a) (ao_type a) (ao_enc a)
    (ao_freeme a) (ao_empty a).

Definition incrbyAobj (a : aobj) (l : Z) : option aobj :=
  if C_IS_L (ao_type a) then Some (set_l a (u64 (ao_l a + l)))
  else if C_IS_I (ao_type a) then Some (set_i a (u32 (ao_i a + u32 l)))
  else None.
Definition decrbyAobj (a : aobj) (l : Z) : option aobj :=
  if C_IS_L (ao_type a) then Some (set_l a (u64 (ao_l a - l)))
  else if C_IS_I (ao_type a) then Some (set_i a (u32 (ao_i a - u32 l)))
  else None.
Definition subtractAobj (a b : aobj) : option Z :=
  if C_IS_L (ao_type a) && C_IS_L (ao_type b) then Some (u64 (ao_l a - ao_l b))
  else if C_IS_I (ao_type a) && C_IS_I (ao_type b) then Some (u32 (ao_i a - ao_i b))
  else None.

(** ** Lemmas *)

Ltac ctypes :=
  unfold C_IS_N, C_IS_I, C_IS_L, C_IS_S, C_IS_F, C_IS_X, C_IS_P, C_IS_O, C_IS_B, C_IS_C, C_IS_E,
    COL_TYPE_NONE, COL_TYPE_INT, COL_TYPE_LONG, COL_TYPE_STRING, COL_TYPE_FLOAT, COL_TYPE_U128,
    COL_TYPE_LUAO, COL_TYPE_FUNC, COL_TYPE_BOOL, COL_TYPE_CNAME, COL_TYPE_ERR in *.

Lemma num_cases t : C_IS_NUM t = true -> t = 1 \/ t = 2 \/ t = 5.
Proof. unfold C_IS_NUM. ctypes. lia. Qed.

(** The number an [aobj] of a numeric type denotes. *)
Definition num_val (a : aobj) : option Z :=
  if C_IS_I (ao_type a) then Some (ao_i a)
  else if C_IS_L (ao_type a) then Some (ao_l a)
  else if C_IS_X (ao_type a) then Some (ao_x a)
  else None.

(** An [aobj] whose fields are within their widths. *)
Definition ao_ok (a : aobj) : Prop :=
  0 <= ao_i a < 2 ^ 32 /\ 0 <= ao_l a < 2 ^ 64 /\ 0 <= ao_x a < 2 ^ 128.

Lemma aobjCmp_int a b : C_IS_I (ao_type a) = true -> aobjCmp a b = Some (s32 (ao_i a - ao_i b)).
Proof.
  intros Ht%Z.eqb_eq. unfold aobjCmp. ctypes. rewrite Ht. cbn [Z.eqb Pos.eqb orb]. f_equal.
  unfold swrap. by rewrite uwrap_idem.
Qed.

Lemma aobjCmp_wide a b x y :
  num_val a = Some x -> num_val b = Some y -> ao_type a = ao_type b ->
  C_IS_I (ao_type a) = false ->
  aobjCmp a b = Some (if x =? y then 0 else if y <? x then 1 else -1).
Proof.
  unfold num_val, aobjCmp. intros Hx Hy Ht Hi. rewrite <- Ht, Hi in *. ctypes.
  destruct (Z.eqb_spec (ao_type a) 2) as [E|E];
    [|destruct (Z.eqb_spec (ao_type a) 5) as [E5|E5]; [|done]].
  - rewrite E. cbn. by simplify_eq.
  - rewrite E5. cbn. by simplify_eq.
Qed.

(** Equality and inequality of INT values. *)
Lemma int_eq_ok a b :
  ao_ok a -> ao_ok b -> C_IS_I (ao_type a) = true ->
  aobjEQ a b = Some (ao_i a =? ao_i b).
Proof.
  intros (Ha & _) (Hb & _) Ht. unfold aobjEQ. rewrite aobjCmp_int by done. cbn. f_equal.
  apply eq_true_iff_eq. rewrite !Z.eqb_eq. unfold swrap, uwrap. zcases; dlia.
Qed.

Lemma int_ne_ok a b :
  C_IS_I (ao_type a) = true ->
  aobjNE a b = Some (negb (ao_i a mod 256 =? ao_i b mod 256)).
Proof.
  intros Ht. unfold aobjNE. rewrite aobjCmp_int by done. cbn. f_equal. f_equal.
  apply eq_true_iff_eq. rewrite !Z.eqb_eq. unfold swrap, uwrap. zcases; dlia.
Qed.

(** ** Reading a reply

    The client's side of the protocol: an integer reply or a bulk reply, and
    what follows it. *)

Inductive reply :=
| R_INT (n : Z)
| R_BULK (s : list Z).

Fixpoint until_crlf (bs : list Z) : option (list Z * list Z) :=
  match bs with
  | [] => None
  | 13 :: 10 :: r => Some ([], r)
  | b :: r => '(l, r) ← until_crlf r; Some (b :: l, r)
  end.

Definition resp_read (bs : list Z) : option (reply * list Z) :=
  match bs with
  | 58 :: r => '(l, r) ← until_crlf r; Some (R_INT (strtoul l), r)
  | 36 :: r =>
      '(l, r) ← until_crlf r;
      let n := Z.to_nat (strtoul l) in
      s ← slice r 0 n;
      match drop n r with
      | 13 :: 10 :: r => Some (R_BULK s, r)
      | _ => None
      end
  | _ => None
  end.

Lemma until_crlf_digits ds r :
  Forall (fun c => isdigit c = true) ds -> until_crlf (ds ++ 13 :: 10 :: r) = Some (ds, r).
Proof.
  induction 1 as [|c ds Hc HF IH]; [done|].
  assert (Hne : c <> 13) by (intros ->; done).
  assert (E : forall q : list Z, until_crlf (c :: q) = ('(l, r) ← until_crlf q; Some (c :: l, r))).
  { intros q. cbn [until_crlf]. destruct c as [|p|p]; try done.
    do 5 (destruct p as [p|p|]; try done). }
  cbn [app]. by rewrite E, IH.
Qed.

Lemma resp_read_int n r : 0 <= n < 2 ^ 64 ->
  resp_read ((outputIntS (print_lu n)).1 ++ r) = Some (R_INT n, r).
Proof.
  intros Hn. cbn [outputIntS fst app resp_read]. rewrite <- app_assoc.
  destruct (print_lu_digits n Hn) as (HF & _). cbn [app].
  rewrite until_crlf_digits by done. cbn [mbind option_bind]. by rewrite strtoul_print.
Qed.

Lemma resp_read_bulk s r : Z.of_nat (length s) < 2 ^ 64 ->
  resp_read (bulk s ++ r) = Some (R_BULK s, r).
Proof.
  intros Hn. unfold bulk. cbn [app resp_read]. rewrite <- !app_assoc. cbn [app].
  destruct (print_lu_digits (Z.of_nat (length s))) as (HF & _); [lia|].
  rewrite until_crlf_digits by done. cbn [mbind option_bind].
  rewrite strtoul_print, Nat2Z.id by lia. rewrite <- app_assoc.
  change (s ++ [13; 10] ++ r) with ([] ++ s ++ 13 :: 10 :: r).
  rewrite slice_mid by done. cbn [mbind option_bind app].
  by rewrite drop_app_length.
Qed.

Section ReplyOf.
Context (float_17g : Z -> list Z).

(** What a client is to read for a value. *)
Definition reply_of (a : aobj) : option reply :=
  if C_IS_I (ao_type a) || C_IS_P (ao_type a) then Some (R_INT (ao_i a))
  else if C_IS_B (ao_type a) then Some (R_INT (if ao_b a then 1 else 0))
  else if C_IS_L (ao_type a) then Some (R_INT (ao_l a))
  else if C_IS_F (ao_type a) then Some (R_BULK (float_17g (ao_f a)))
  else if C_IS_S (ao_type a) || C_IS_O (ao_type a) then s ← ao_str a; Some (R_BULK s)
  else if C_IS_X (ao_type a) then Some (R_BULK (sprintf_128 (ao_x a)))
  else None.
End ReplyOf.

Lemma length_bulk s : Z.of_nat (length (bulk s)) =
  Z.of_nat (length (print_lu (Z.of_nat (length s)))) + 5 + Z.of_nat (length s).
Proof. unfold bulk. cbn [length]. rewrite !length_app. cbn [length]. lia. Qed.

Lemma outputS_bulk m len s : 0 <= len -> len + 25 < 2 ^ 31 -> slice m 0 (Z.to_nat len) = Some s ->
  outputS m len = Some (bulk s, Z.of_nat (length (bulk s))).
Proof.
  intros Hl Hlt Hs. unfold outputS. rewrite (swrap_small 32 len) by lia.
  destruct (Z.ltb_spec len 0); [lia|]. rewrite Hs. cbn [mbind option_bind].
  destruct (print_lu_digits len) as (_ & _ & H20); [lia|].
  rewrite swrap_small by lia. destruct (Z.ltb_spec (Z.of_nat (length (print_lu len)) + 5 + len) 0); [lia|].
  assert (E : Z.of_nat (length s) = len).
  { unfold slice in Hs. case_match eqn:Hb; [|done]. apply Nat.leb_le in Hb. simplify_eq.
    rewrite length_take, drop_0. lia. }
  rewrite length_bulk. unfold bulk. by rewrite E.
Qed.

Lemma sprintf_128_short x : 0 <= x < 2 ^ 128 -> Z.of_nat (length (sprintf_128 x)) <= 41.
Proof.
  intros Hx. unfold sprintf_128. rewrite length_app. cbn [length].
  destruct (print_lu_digits (x / 2 ^ 64)) as (_ & _ & H1); [split; [dlia|apply Z.div_lt_upper_bound; lia]|].
  destruct (print_lu_digits (x mod 2 ^ 64)) as (_ & _ & H2); [apply Z.mod_pos_bound; lia|]. lia.
Qed.

(** The comparisons of two numbers. *)
Lemma cmp_numeric (a b : aobj) (x y : Z) :
  ao_ok a -> ao_ok b -> ao_type a = ao_type b ->
  num_val a = Some x -> num_val b = Some y ->
  aobjEQ a b = Some (x =? y) /\
  aobjNE a b = Some (if C_IS_I (ao_type a) then negb (x mod 256 =? y mod 256) else negb (x =? y)) /\
  ((C_IS_I (ao_type a) = true -> Z.abs (x - y) < 2 ^ 31) ->
   aobjLT a b = Some (x <? y) /\ aobjLE a b = Some (x <=? y) /\
   aobjGT a b = Some (y <? x) /\ aobjGE a b = Some (y <=? x)).
Proof.
  intros Ha Hb Ht Hx Hy. destruct (C_IS_I (ao_type a)) eqn:Hi.
  - assert (ao_i a = x /\ ao_i b = y) as [<- <-].
    { unfold num_val in *. rewrite <- Ht, Hi in *. by simplify_eq. }
    split_and!; [by apply int_eq_ok|by apply int_ne_ok|].
    intros Hd. specialize (Hd eq_refl).
    unfold aobjLT, aobjLE, aobjGT, aobjGE. rewrite aobjCmp_int by done. cbn.
    rewrite swrap_small by lia. split_and!; f_equal; zcases; lia.
  - unfold aobjEQ, aobjNE, aobjLT, aobjLE, aobjGT, aobjGE.
    rewrite (aobjCmp_wide a b x y) by done. cbn [option_map].
    destruct (Z.eqb_spec x y), (Z.ltb_spec y x); try lia;
      (split_and!; [done|done|intros _; split_and!]; cbn; f_equal; zcases; lia || done).
Qed.

(** ** Properties *)

(** C29: for two values of the same numeric type [aobjEQ] decides equality of
    their numbers.  [aobjNE] does so for LONG and U128; its result is an
    [unsigned char], so for INT, compared by a 32-bit difference, it sees the
    numbers modulo 256 only.  The four order comparisons decide the order, for
    INT as long as the numbers are less than [2^31] apart. *)
Theorem aobj_cmp_numeric (a b : aobj) (x y : Z) :
  ao_ok a -> ao_ok b -> ao_type a = ao_type b ->
  num_val a = Some x -> num_val b = Some y ->
  aobjEQ a b = Some (x =? y) /\
  aobjNE a b = Some (if C_IS_I (ao_type a) then negb (x mod 256 =? y mod 256) else negb (x =? y)) /\
  ((C_IS_I (ao_type a) = true -> Z.abs (x - y) < 2 ^ 31) ->
   aobjLT a b = Some (x <? y) /\ aobjLE a b = Some (x <=? y) /\
   aobjGT a b = Some (y <? x) /\ aobjGE a b = Some (y <=? x)).
Proof. apply cmp_numeric. Qed.

(** A string of 2^31 bytes or more has a negative length: the copy is undefined. *)
Lemma outputS_too_long s len : 2 ^ 31 <= len < 2 ^ 32 -> outputS s len = None.
Proof.
  intros Hl. unfold outputS, s32, swrap, uwrap. rewrite Z.mod_small by lia.
  destruct (Z.ltb_spec len (2 ^ (32 - 1))); [lia|]. destruct (Z.ltb_spec (len - 2 ^ 32) 0); [done|lia].
Qed.

(** C28: what a value is printed as, the client reads back: every reply is one
    complete integer or bulk reply, of exactly the length reported with it, that
    parses to the value whatever follows.  A string leaves room for its framing in
    an [int] (see [outputS_too_long]), and a FLOAT prints as at most the 24
    characters of [%.17g]. *)
Theorem reply_parses (float_17g : Z -> list Z) (curr_error : list Z) (a : aobj) (v : reply) (rest : list Z) :
  ao_ok a -> 0 <= ao_len a -> ao_len a + 25 < 2 ^ 31 ->
  Z.of_nat (length (float_17g (ao_f a))) <= 24 ->
  reply_of float_17g a = Some v ->
  exists bs n, outputAobj float_17g curr_error a = Some (bs, n) /\
    n = Z.of_nat (length bs) /\ resp_read (bs ++ rest) = Some (v, rest).
Proof.
  intros (Hi & Hl & Hx) Hlen Hlt Hf. unfold reply_of, outputAobj, ao_str.
  assert (Hint : forall n, 0 <= n < 2 ^ 64 -> exists bs m, Some (outputIntS (print_lu n)) = Some (bs, m) /\
    m = Z.of_nat (length bs) /\ resp_read (bs ++ rest) = Some (R_INT n, rest)).
  { intros n Hn. eexists _, _. split; [done|]. split; [|by apply resp_read_int].
    cbn [length]. rewrite length_app. cbn [length]. lia. }
  assert (Hstr : forall v, (s ← (m ← deref (ao_s a); slice m 0 (Z.to_nat (ao_len a))); Some (R_BULK s)) = Some v ->
    exists bs n, (s ← deref (ao_s a); outputS s (ao_len a)) = Some (bs, n) /\
    n = Z.of_nat (length bs) /\ resp_read (bs ++ rest) = Some (v, rest)).
  { intros w H. apply bind_Some in H as (s & H & ?). apply bind_Some in H as (m & Hm & Hs).
    simplify_eq. rewrite Hm. cbn [mbind option_bind]. rewrite (outputS_bulk m _ s) by (lia || done).
    eexists _, _. split; [done|]. split; [done|]. apply resp_read_bulk.
    unfold slice in Hs. case_match; [|done]. simplify_eq. rewrite length_take. lia. }
  assert (Hb : forall s, Z.of_nat (length s) < 2 ^ 64 ->
    exists bs n, Some (bulk s, Z.of_nat (length (bulk s))) = Some (bs, n) /\
    n = Z.of_nat (length bs) /\ resp_read (bs ++ rest) = Some (R_BULK s, rest)).
  { intros s Hs. eexists _, _. split; [done|]. split; [done|]. by apply resp_read_bulk. }
  pose proof (sprintf_128_short _ Hx) as Hx41.
  ctypes. generalize (ao_type a). intros ty H.
  destruct (Z.eqb_spec ty 1); [subst; cbn [orb Z.eqb Pos.eqb] in *; simplify_eq; apply Hint; lia|].
  destruct (Z.eqb_spec ty 7); [subst; cbn [orb Z.eqb Pos.eqb] in *; simplify_eq; apply Hint; lia|].
  destruct (Z.eqb_spec ty 8); [subst; cbn [orb Z.eqb Pos.eqb] in *; simplify_eq; apply Hint; destruct (ao_b a); lia|].
  destruct (Z.eqb_spec ty 2); [subst; cbn [orb Z.eqb Pos.eqb] in *; simplify_eq; apply Hint; lia|].
  destruct (Z.eqb_spec ty 4); [subst; cbn [orb Z.eqb Pos.eqb] in *; simplify_eq; apply Hb; lia|].
  destruct (Z.eqb_spec ty 3); [subst; cbn [orb Z.eqb Pos.eqb] in *; by apply Hstr|].
  destruct (Z.eqb_spec ty 5); [subst; cbn [orb Z.eqb Pos.eqb] in *; simplify_eq; apply Hb; lia|].
  destruct (Z.eqb_spec ty 6); [subst; cbn [orb Z.eqb Pos.eqb] in *; by apply Hstr|done].
Qed.

Lemma int_obj_ok n : ao_ok (initAobjInt n).
Proof.
  unfold ao_ok. cbn [initAobjInt ao_i ao_l ao_x]. unfold u32, uwrap.
  pose proof (Z.mod_pos_bound n (2 ^ 32)). lia.
Qed.

(** The INT values 300 and 44 differ by 256. *)
Lemma aobj_cmp_numeric_witness :
  aobjEQ (initAobjInt 300) (initAobjInt 44) = Some false /\
  aobjNE (initAobjInt 300) (initAobjInt 44) = Some false /\
  aobjLT (initAobjInt 44) (initAobjInt 300) = Some true.
Proof.
  destruct (aobj_cmp_numeric (initAobjInt 300) (initAobjInt 44) 300 44) as (E & N & _);
    [apply int_obj_ok|apply int_obj_ok|done|done|done|].
  destruct (aobj_cmp_numeric (initAobjInt 44) (initAobjInt 300) 44 300) as (_ & _ & O);
    [apply int_obj_ok|apply int_obj_ok|done|done|done|].
  split_and!; [exact E|exact N|]. apply O. intros _. lia.
Defined.

Lemma reply_parses_witness :
  exists bs n, outputAobj (fun _ => []) [] (initAobjInt 4000000000) = Some (bs, n) /\
    n = Z.of_nat (length bs) /\ resp_read (bs ++ [43; 79; 75]) = Some (R_INT 4000000000, [43; 79; 75]).
Proof.
  apply (reply_parses (fun _ => []) [] (initAobjInt 4000000000) (R_INT 4000000000));
    [apply int_obj_ok|cbn; lia|cbn; lia|cbn; lia|reflexivity].
Defined.
