(* ===== verification/Hash.v ===== *)
(** * Open-addressing hash tables ([DB/hash.c])

    The dictionary of a sparse row.  A key hashes to [key mod nentries] and
    collides upwards, at most [max_colijns] slots away; the entry of the home
    slot counts how far its keys have gone.  A table that finds no slot grows by
    a quarter and reinserts.  The file has the table twice, with 32-bit and
    16-bit keys; the two copies differ in the widths of [hcfg]. *)

From S2P Require Import Prelude.

(** ** Data *)

Definition HASH_NULL : Z := 0.
Definition MAX_COLLISIONS : Z := 25.
Definition ERR_INVALID_HASHKEY : Z := -1.

Record ahash_entry := AEnt { n_colijns : Z; e_key : Z; e_val : Z }.

Record ahash := AHash {
  nvalid : Z;
  max_colijns : Z;
  entries : list ahash_entry;
}.
Definition nentries (ht : ahash) : nat := length (entries ht).

(** Widths of [n_colijns], [key] and [val], and the size of an entry. *)
Record hcfg := HCfg { h_nw : Z; h_kw : Z; h_vw : Z; h_esize : Z }.
Definition cfg32 : hcfg := HCfg 32 32 64 16.
Definition cfg16 : hcfg := HCfg 8 16 32 7.
Definition sizeof_ahash : Z := 24.

Definition zero_entry : ahash_entry := AEnt 0 0 0.

(** ** Operations *)

Definition init (ht : ahash) : ahash :=
  AHash 0 (if max_colijns ht =? 0 then MAX_COLLISIONS else max_colijns ht) (entries ht).

Definition alc_hash_make (nentries : Z) : ahash :=
  let nentries := if nentries =? 0 then 2 else nentries in
  init (AHash 0 0 (replicate (Z.to_nat nentries) zero_entry)).

Definition alc_hash_size (c : hcfg) (ht : ahash) : Z :=
  u32 (Z.of_nat (nentries ht) * h_esize c + sizeof_ahash).

Definition home (n : nat) (key : Z) : nat := Z.to_nat (key mod Z.of_nat n).

(** The slots of the two loops, up to the clipped last index and then from the
    start of the array. *)
Definition probes (n index last_index : nat) (cap : nat -> nat) : list nat :=
  if (n <=? last_index)%nat
  then seq (index + 1) (n - 1 - index) ++ seq 0 (cap (last_index - n + 1)%nat)
  else seq (index + 1) (last_index - index).

(** The first probe whose key satisfies [P], with its number. *)
Fixpoint scan (P : Z -> bool) (es : list ahash_entry) (ps : list nat) (d : nat)
    : option (option (nat * nat)) :=
  match ps with
  | [] => Some None
  | p :: ps' =>
      e ← es !! p;
      if P (e_key e) then Some (Some (p, d)) else scan P es ps' (S d)
  end.

Definition lookup_entry (key : Z) (ht : ahash) : option (option nat) :=
  let es := entries ht in
  let n := nentries ht in
  let index := home n key in
  e ← es !! index;
  if e_key e =? key then Some (Some index)
  else if 0 <? n_colijns e then
    r ← scan (fun k => k =? key) es
          (probes n index (index + Z.to_nat (n_colijns e)) (fun w => w)) 1;
    Some (option_map fst r)
  else Some None.

(** The slot for a key and the table with the collision count of the home slot
    updated, or [NULL]. *)
Definition lookup_insert_entry (c : hcfg) (key : Z) (ht : ahash)
    : option (ahash * option nat) :=
  let es := entries ht in
  let n := nentries ht in
  let index := home n key in
  let usable k := (k =? key) || (k =? HASH_NULL) in
  e ← es !! index;
  if usable (e_key e) then Some (ht, Some index)
  else
    r ← scan usable es
          (probes n index (index + Z.to_nat (max_colijns ht)) (Nat.min n)) 1;
    match r with
    | None => Some (ht, None)
    | Some (p, d) =>
        if n_colijns e <? Z.of_nat d then
          Some (AHash (nvalid ht) (max_colijns ht)
                  (<[index := AEnt (uwrap (h_nw c) (Z.of_nat d)) (e_key e) (e_val e)]> es),
                Some p)
        else Some (ht, Some p)
    end.

(** Store at the slot found: overwrite or claim. *)
Definition set_entry (key val : Z) (p : nat) (ht : ahash) : option ahash :=
  e ← entries ht !! p;
  let es := <[p := AEnt (n_colijns e) key val]> (entries ht) in
  Some (AHash (if e_key e =? key then nvalid ht else u32 (nvalid ht + 1))
          (max_colijns ht) es).

(** The [while (!v)] loop of an insertion in a second rehash. *)
Fixpoint expand (c : hcfg) (fuel : nat) (key : Z) (ht : ahash) : option ahash :=
  match fuel with
  | O => None
  | S fuel' =>
      let n := Z.of_nat (nentries ht) in
      if max_colijns ht =? n then Some ht
      else
        let m := u32 (max_colijns ht + max_colijns ht / 2) in
        let m := if n <? m then n else m in
        '(ht, v) ← lookup_insert_entry c key (AHash (nvalid ht) m (entries ht));
        match v with
        | Some _ => Some ht
        | None => expand c fuel' key ht
        end
  end.

(** Reinsertion with [ins]; a non-zero status stops the loop. *)
Fixpoint reinsert (ins : Z -> Z -> ahash -> option (Z * ahash))
    (l : list ahash_entry) (ht : ahash) : option (Z * ahash) :=
  match l with
  | [] => Some (0, ht)
  | e :: l' =>
      if e_key e =? 0 then reinsert ins l' ht
      else
        '(status, ht) ← ins (e_key e) (e_val e) ht;
        if status =? 0 then reinsert ins l' ht else Some (status, ht)
  end.

Definition rehash (ins : Z -> Z -> ahash -> option (Z * ahash)) (ht : ahash)
    : option (Z * ahash) :=
  let n := nentries ht in
  reinsert ins (entries ht)
    (init (AHash (nvalid ht) (max_colijns ht) (replicate (n + Nat.max 2 (n / 4)) zero_entry))).

Fixpoint hash_insert (c : hcfg) (fuel : nat) (key val : Z) (rehash_lvl : Z) (ht : ahash)
    : option (Z * ahash) :=
  match fuel with
  | O => None
  | S fuel' =>
      if key =? 0 then Some (ERR_INVALID_HASHKEY, ht)
      else
        '(ht, v) ← lookup_insert_entry c key ht;
        match v with
        | Some p => ht ← set_entry key val p ht; Some (0, ht)
        | None =>
            ht ← (if 1 <? rehash_lvl then expand c (nentries ht + 3) key ht else Some ht);
            '(status, ht) ←
              rehash (fun k v h => hash_insert c fuel' k v (rehash_lvl + 1) h) ht;
            if status =? 0 then hash_insert c fuel' key val rehash_lvl ht
            else Some (-1, ht)
        end
  end.

(** The fuel bounds the nesting of rehashes and retries. *)
Definition alc_hash_insert (c : hcfg) (fuel : nat) (key val : Z) (ht : ahash)
    : option (Z * ahash) :=
  hash_insert c fuel (uwrap (h_kw c) key) (uwrap (h_vw c) val) 0 ht.

Definition alc_hash_delete (c : hcfg) (key : Z) (ht : ahash) : option ahash :=
  let key := uwrap (h_kw c) key in
  if key =? 0 then Some ht
  else
    v ← lookup_entry key ht;
    match v with
    | None => Some ht
    | Some p =>
        e ← entries ht !! p;
        Some (AHash (u32 (nvalid ht - 1)) (max_colijns ht)
                (<[p := AEnt (n_colijns e) 0 (e_val e)]> (entries ht)))
    end.

Definition alc_hash_fetch (c : hcfg) (key : Z) (ht : ahash) : option Z :=
  let key := uwrap (h_kw c) key in
  if key =? 0 then Some 0
  else
    v ← lookup_entry key ht;
    match v with
    | None => Some 0
    | Some p => e ← entries ht !! p; Some (e_val e)
    end.

(** The two copies. *)
Definition alc_hash32_make := alc_hash_make.
Definition alc_hash16_make := alc_hash_make.
Definition alc_hash32_size := alc_hash_size cfg32.
Definition alc_hash16_size := alc_hash_size cfg16.
Definition alc_hash32_insert := alc_hash_insert cfg32.
Definition alc_hash16_insert := alc_hash_insert cfg16.
Definition alc_hash32_delete := alc_hash_delete cfg32.
Definition alc_hash16_delete := alc_hash_delete cfg16.
Definition alc_hash32_fetch := alc_hash_fetch cfg32.
Definition alc_hash16_fetch := alc_hash_fetch cfg16.

(** ** The abstraction: the value under a key *)

Definition hget (es : list ahash_entry) (k : Z) : option Z :=
  match list_find (fun e => e_key e = k) es with
  | Some (_, e) => Some (e_val e)
  | None => None
  end.

Definition ht_get (ht : ahash) (k : Z) : option Z := hget (entries ht) k.

(** ** The invariant *)

(** The slot [d] places above [h], once around. *)
Definition slot (n h d : nat) : nat := if (h + d <? n)%nat then (h + d)%nat else (h + d - n)%nat.

(** The key at [p] sits within reach of its home slot and every slot before it
    holds another key; in a table larger than every key it is at home. *)
Definition placed (B : Z) (m : Z) (es : list ahash_entry) (p : nat) (k : Z) : Prop :=
  let n := length es in
  exists d, (d < n)%nat /\ Z.of_nat d <= m /\ p = slot n (home n k) d /\
    (B < Z.of_nat n -> d = 0%nat) /\
    forall d', (d' < d)%nat -> exists e, es !! slot n (home n k) d' = Some e /\
      e_key e <> 0 /\ e_key e <> k.

Record ht_inv (B : Z) (ht : ahash) : Prop := {
  inv_pos : (2 <= nentries ht)%nat;
  inv_max : 2 <= max_colijns ht <= Z.max MAX_COLLISIONS (Z.of_nat (nentries ht));
  inv_ent : forall p e, entries ht !! p = Some e ->
    0 <= e_key e <= B /\ 0 <= n_colijns e < Z.of_nat (nentries ht);
  inv_place : forall p e, entries ht !! p = Some e -> e_key e <> 0 ->
    placed B (max_colijns ht) (entries ht) p (e_key e);
}.

(** The collision counts reach every key: what [lookup_entry] relies on. *)
Definition ht_reach (ht : ahash) : Prop :=
  let n := nentries ht in
  forall p e d h, entries ht !! p = Some e -> e_key e <> 0 -> (d < n)%nat ->
    p = slot n (home n (e_key e)) d -> entries ht !! home n (e_key e) = Some h ->
    Z.of_nat d <= n_colijns h.

(** ** Probing *)

Lemma slot_lt n h d : (h < n)%nat -> (d <= n)%nat -> (slot n h d < n)%nat.
Proof. unfold slot. destruct (Nat.ltb_spec (h + d) n); lia. Qed.

Lemma slot_0 n h : (h < n)%nat -> slot n h 0 = h.
Proof. unfold slot. destruct (Nat.ltb_spec (h + 0) n); lia. Qed.

Lemma slot_inj n h d d' :
  (h < n)%nat -> (d < n)%nat -> (d' < n)%nat -> slot n h d = slot n h d' -> d = d'.
Proof. unfold slot. destruct (Nat.ltb_spec (h + d) n), (Nat.ltb_spec (h + d') n); lia. Qed.

Lemma home_lt n k : (0 < n)%nat -> (home n k < n)%nat.
Proof.
  intros. unfold home. pose proof (Z.mod_pos_bound k (Z.of_nat n)). lia.
Qed.

Lemma seq_slots n h a len :
  (forall j, (j < len)%nat -> slot n h (a + j) = (h + a + j)%nat) ->
  seq (h + a) len = map (slot n h) (seq a len).
Proof.
  revert a. induction len as [|len IH]; intros a Hj; [done|]. cbn [seq map]. f_equal.
  - rewrite <- (Nat.add_0_r a) at 2. rewrite Hj by lia. lia.
  - replace (S (h + a)) with (h + S a)%nat by lia. apply IH. intros j Hlt.
    replace (S a + j)%nat with (a + S j)%nat by lia. rewrite Hj by lia. lia.
Qed.

Lemma seq_wrapped n h w :
  (h < n)%nat -> (w <= n)%nat ->
  seq 0 w = map (slot n h) (seq (n - h) w).
Proof.
  intros Hh Hw.
  assert (G : forall a, (a + w <= n)%nat -> seq a w = map (slot n h) (seq (n - h + a) w)).
  { induction w as [|w IH]; intros a Ha; [done|]. cbn [seq map]. f_equal.
    - unfold slot. destruct (Nat.ltb_spec (h + (n - h + a)) n); lia.
    - rewrite IH by lia. f_equal. f_equal. lia. }
  rewrite (G 0%nat) by lia. by rewrite Nat.add_0_r.
Qed.

(** The probes are consecutive slots from the one above home; there are [m] of
    them, or fewer when the cap stops the second loop after one round. *)
Lemma probes_slots n h m cap :
  (h < n)%nat -> (cap (h + m - n + 1)%nat <= n)%nat ->
  probes n h (h + m) cap =
    map (slot n h) (seq 1 (if (n <=? h + m)%nat then n - 1 - h + cap (h + m - n + 1)%nat else m)%nat).
Proof.
  intros Hh Hc. unfold probes. destruct (Nat.leb_spec n (h + m)).
  - rewrite seq_app, map_app. f_equal.
    + apply seq_slots. intros j Hj. unfold slot. destruct (Nat.ltb_spec (h + (1 + j)) n); lia.
    + rewrite (seq_wrapped n h) by lia. f_equal. f_equal. lia.
  - replace (h + m - h)%nat with m by lia.
    apply seq_slots. intros j Hj. unfold slot. destruct (Nat.ltb_spec (h + (1 + j)) n); lia.
Qed.

(** [scan] finds the first slot that satisfies the test. *)
Lemma scan_spec P es f len : forall a,
  (forall j, (a <= j < a + len)%nat -> (f j < length es)%nat) ->
  (exists d e, (a <= d < a + len)%nat /\ es !! f d = Some e /\ P (e_key e) = true /\
     (forall j, (a <= j < d)%nat -> exists e', es !! f j = Some e' /\ P (e_key e') = false) /\
     scan P es (map f (seq a len)) a = Some (Some (f d, d))) \/
  ((forall j, (a <= j < a + len)%nat -> exists e', es !! f j = Some e' /\ P (e_key e') = false) /\
   scan P es (map f (seq a len)) a = Some None).
Proof.
  induction len as [|len IH]; intros a Hf; cbn [seq map scan].
  - right. split; [lia|done].
  - destruct (lookup_lt_is_Some_2 es (f a)) as [e He]; [apply Hf; lia|].
    rewrite He. cbn [mbind option_bind]. destruct (P (e_key e)) eqn:HP.
    + left. exists a, e. split_and!; try done; lia.
    + destruct (IH (S a)) as [(d & e' & Hd & He' & HP' & Hall & ->)|[Hall ->]].
      * intros j Hj. apply Hf. lia.
      * left. exists d, e'. split_and!; try done; [lia..|].
        intros j Hj. destruct (decide (j = a)) as [->|]; [by exists e|]. apply Hall. lia.
      * right. split; [|done]. intros j Hj.
        destruct (decide (j = a)) as [->|]; [by exists e|]. apply Hall. lia.
Qed.

(** ** Lemmas on the abstraction *)

Definition distinct_keys (es : list ahash_entry) : Prop :=
  forall p q e f, es !! p = Some e -> es !! q = Some f ->
    e_key e = e_key f -> e_key e <> 0 -> p = q.

Definition kv (es : list ahash_entry) : list (Z * Z) := (fun e => (e_key e, e_val e)) <$> es.

Lemma hget_none es k :
  (forall q f, es !! q = Some f -> e_key f <> k) -> hget es k = None.
Proof.
  intros H. unfold hget. destruct (list_find _ es) as [[i f]|] eqn:E; [|done].
  apply list_find_Some in E as (Hi & Hk & _). by destruct (H i f Hi).
Qed.

Lemma hget_some es p e :
  distinct_keys es -> es !! p = Some e -> e_key e <> 0 -> hget es (e_key e) = Some (e_val e).
Proof.
  intros Hd Hp Hk. unfold hget. destruct (list_find _ es) as [[i f]|] eqn:E.
  - apply list_find_Some in E as (Hi & Hk' & _).
    assert (i = p) as -> by (by apply (Hd i p f e); [..|rewrite Hk']).
    congruence.
  - rewrite list_find_None, Forall_lookup in E. by destruct (E p e Hp).
Qed.

Lemma hget_kv es es' k : kv es = kv es' -> hget es k = hget es' k.
Proof.
  unfold hget. revert es'. induction es as [|e es IH]; intros [|e' es'] E; try done.
  cbn in E. injection E as Ek Ev E. cbn.
  rewrite Ek. destruct (decide (e_key e' = k)); [by rewrite Ev|].
  specialize (IH es' E). destruct (list_find _ es) as [[]|], (list_find _ es') as [[]|];
    cbn in *; congruence.
Qed.

Lemma hget_cons e es k :
  hget (e :: es) k = if decide (e_key e = k) then Some (e_val e) else hget es k.
Proof.
  unfold hget. cbn. destruct (decide (e_key e = k)); [done|].
  by destruct (list_find _ es) as [[]|].
Qed.

(** Tables that agree outside the slot of [k] agree on the other keys. *)
Lemma hget_agree es es' p k k' :
  distinct_keys es -> distinct_keys es' -> length es = length es' -> k' <> 0 -> k' <> k ->
  (forall q e e', q <> p -> es !! q = Some e -> es' !! q = Some e' ->
     e_key e = e_key e' /\ e_val e = e_val e') ->
  (forall e, es !! p = Some e -> e_key e = k \/ e_key e = 0) ->
  (forall e, es' !! p = Some e -> e_key e = k \/ e_key e = 0) ->
  hget es' k' = hget es k'.
Proof.
  intros Hd Hd' Hl H0 Hk Hsame Hp Hp'.
  destruct (list_find (fun e => e_key e = k') es) as [[q e]|] eqn:E.
  - apply list_find_Some in E as (Hq & <- & _).
    rewrite (hget_some es q) by done.
    destruct (decide (q = p)) as [->|Hne]; [destruct (Hp e Hq); congruence|].
    destruct (lookup_lt_is_Some_2 es' q) as [e' He'];
      [rewrite <- Hl; by eapply lookup_lt_Some|].
    destruct (Hsame q e e' Hne Hq He') as [Ek ->]. rewrite Ek in H0 |- *.
    by apply (hget_some es' q).
  - rewrite list_find_None, Forall_lookup in E. rewrite !hget_none; [done|exact E|].
    intros q e' He' Hk'. destruct (decide (q = p)) as [->|Hne].
    { destruct (Hp' e' He'); congruence. }
    destruct (lookup_lt_is_Some_2 es q) as [e He]; [rewrite Hl; by eapply lookup_lt_Some|].
    destruct (Hsame q e e' Hne He He') as [Ek _]. apply (E q e He). congruence.
Qed.

(** ** The invariant makes keys distinct *)

Lemma placed_distinct B m es p q e f :
  (2 <= length es)%nat -> es !! p = Some e -> es !! q = Some f -> e_key e = e_key f ->
  placed B m es p (e_key e) -> placed B m es q (e_key f) -> p = q.
Proof.
  intros Hn Hp Hq Hk (d & Hd & _ & Ep & _ & Hbefore) (d' & Hd' & _ & Eq & _ & Hbefore').
  rewrite <- Hk in *. destruct (Nat.lt_trichotomy d d') as [Hlt|[->|Hlt]].
  - destruct (Hbefore' d Hlt) as (x & Hx & _ & Hne). rewrite <- Ep, Hp in Hx. congruence.
  - congruence.
  - destruct (Hbefore d' Hlt) as (x & Hx & _ & Hne). rewrite <- Eq, Hq in Hx. congruence.
Qed.

Lemma inv_distinct B ht : ht_inv B ht -> distinct_keys (entries ht).
Proof.
  intros Hi p q e f Hp Hq Hk H0.
  eapply (placed_distinct B (max_colijns ht)); try done.
  - apply Hi.
  - by apply Hi.
  - apply Hi; congruence.
Qed.

Lemma kv_lookup es es' p e :
  kv es = kv es' -> es !! p = Some e ->
  exists e', es' !! p = Some e' /\ e_key e' = e_key e /\ e_val e' = e_val e.
Proof.
  intros E Hp. assert (H : kv es' !! p = Some (e_key e, e_val e)).
  { rewrite <- E. unfold kv. by rewrite list_lookup_fmap, Hp. }
  unfold kv in H. rewrite list_lookup_fmap in H.
  destruct (es' !! p) as [e'|]; [|done]. exists e'. cbn in H. by injection H as -> ->.
Qed.

Lemma kv_distinct es es' : kv es = kv es' -> distinct_keys es -> distinct_keys es'.
Proof.
  intros E Hd p q e f Hp Hq Hk H0. symmetry in E.
  destruct (kv_lookup _ _ p e E Hp) as (e1 & Hp1 & Ek1 & _).
  destruct (kv_lookup _ _ q f E Hq) as (f1 & Hq1 & Ek2 & _).
  apply (Hd p q e1 f1); congruence.
Qed.

(** ** The slot for an insertion *)

Definition bump (c : hcfg) (es : list ahash_entry) (i d : nat) : list ahash_entry :=
  match es !! i with
  | Some h => if n_colijns h <? Z.of_nat d
              then <[i := AEnt (uwrap (h_nw c) (Z.of_nat d)) (e_key h) (e_val h)]> es
              else es
  | None => es
  end.

Lemma bump_kv c es i d : kv (bump c es i d) = kv es.
Proof.
  unfold bump. destruct (es !! i) as [h|] eqn:E; [|done].
  destruct (_ <? _); [|done]. unfold kv. rewrite list_fmap_insert. cbn.
  apply list_insert_id. by rewrite list_lookup_fmap, E.
Qed.

Lemma bump_length c es i d : length (bump c es i d) = length es.
Proof.
  unfold bump. destruct (es !! i); [|done]. destruct (_ <? _); [|done]. by rewrite length_insert.
Qed.

(** A bumped entry keeps its key and value; its count only grows, unless the
    new count does not fit its width. *)
Lemma bump_lookup c es i d p e :
  es !! p = Some e ->
  exists e', bump c es i d !! p = Some e' /\ e_key e' = e_key e /\ e_val e' = e_val e /\
    (e' = e \/ (p = i /\ n_colijns e < Z.of_nat d /\ n_colijns e' = uwrap (h_nw c) (Z.of_nat d))).
Proof.
  intros Hp. unfold bump. destruct (es !! i) as [h|] eqn:E; [|exists e; auto].
  destruct (Z.ltb_spec (n_colijns h) (Z.of_nat d)); [|exists e; auto].
  destruct (decide (p = i)) as [->|Hne].
  - assert (h = e) as -> by congruence.
    exists (AEnt (uwrap (h_nw c) (Z.of_nat d)) (e_key e) (e_val e)).
    rewrite list_lookup_insert_eq by (by eapply lookup_lt_Some). cbn. split_and!; auto.
  - exists e. rewrite list_lookup_insert_ne by congruence. auto.
Qed.

(** What a search for a slot for [k] finds. *)
Definition found_slot (c : hcfg) (k : Z) (ht : ahash) (d : nat) (e : ahash_entry) : Prop :=
  let n := nentries ht in
  let p := slot n (home n k) d in
  lookup_insert_entry c k ht =
    Some (AHash (nvalid ht) (max_colijns ht) (bump c (entries ht) (home n k) d), Some p) /\
  (d < n)%nat /\ Z.of_nat d <= max_colijns ht /\ entries ht !! p = Some e /\
  (e_key e = k \/ e_key e = 0) /\
  (forall d', (d' < d)%nat -> exists e', entries ht !! slot n (home n k) d' = Some e' /\
     e_key e' <> 0 /\ e_key e' <> k).

Lemma usable_spec k x : (x =? k) || (x =? HASH_NULL) = true <-> x = k \/ x = 0.
Proof. unfold HASH_NULL. rewrite orb_true_iff, !Z.eqb_eq. done. Qed.
Lemma unusable_spec k x : (x =? k) || (x =? HASH_NULL) = false <-> x <> 0 /\ x <> k.
Proof. unfold HASH_NULL. rewrite orb_false_iff, !Z.eqb_neq. tauto. Qed.

Lemma bump_0 c es i :
  (forall e, es !! i = Some e -> 0 <= n_colijns e) -> bump c es i 0 = es.
Proof.
  intros H. unfold bump. destruct (es !! i) as [e|] eqn:E; [|done].
  specialize (H e eq_refl). destruct (Z.ltb_spec (n_colijns e) (Z.of_nat 0)); [lia|done].
Qed.

Lemma lookup_insert_spec c B ht k :
  ht_inv B ht -> 0 < k <= B ->
  (exists d e, found_slot c k ht d e) \/
  (lookup_insert_entry c k ht = Some (ht, None) /\ Z.of_nat (nentries ht) <= B).
Proof.
  intros Hi Hk. pose proof (inv_pos _ _ Hi) as Hn. pose proof (inv_max _ _ Hi) as Hm.
  set (n := nentries ht) in *. pose proof (home_lt n k ltac:(lia)) as Hh.
  destruct (lookup_lt_is_Some_2 (entries ht) (home n k)) as [e He]; [exact Hh|].
  unfold lookup_insert_entry. fold n. rewrite He. cbn [mbind option_bind].
  destruct ((e_key e =? k) || (e_key e =? HASH_NULL)) eqn:Hu.
  { left. exists 0%nat, e. unfold found_slot. fold n. rewrite slot_0 by done.
    apply usable_spec in Hu. split_and!; try done; [|lia..].
    unfold lookup_insert_entry. fold n. rewrite He. cbn [mbind option_bind].
    apply usable_spec in Hu. rewrite Hu, bump_0; [by destruct ht|].
    intros e' He'. by apply (inv_ent _ _ Hi _ _ He'). }
  rewrite probes_slots by lia.
  set (len := (if (n <=? _)%nat then _ else _)%nat).
  assert (Hlen : (len <= 2 * n - 1 - home n k)%nat).
  { unfold len. destruct (Nat.leb_spec n (home n k + Z.to_nat (max_colijns ht))); lia. }
  assert (Hlen' : (len <= Z.to_nat (max_colijns ht))%nat).
  { unfold len. destruct (Nat.leb_spec n (home n k + Z.to_nat (max_colijns ht))); lia. }
  set (us := fun x => (x =? k) || (x =? HASH_NULL)).
  apply unusable_spec in Hu as Hu'.
  destruct (scan_spec us (entries ht) (slot n (home n k)) len 1)
    as [(d & e' & Hd & He' & Hus & Hall & Hscan)|[Hall Hscan]].
  - intros j Hj. unfold slot. fold (nentries ht). fold n. destruct (Nat.ltb_spec (home n k + j) n); lia.
  - left. exists d, e'.
    assert (Hprior : forall d', (d' < d)%nat -> exists x,
      entries ht !! slot n (home n k) d' = Some x /\ e_key x <> 0 /\ e_key x <> k).
    { intros [|d'] Hd'; [rewrite slot_0 by done; by exists e|].
      destruct (Hall (S d')) as (x & Hx & Hux); [lia|]. exists x.
      split; [done|]. by apply unusable_spec. }
    assert (Hdn : (d < n)%nat).
    { destruct (decide (d < n)%nat) as [|Hge]; [done|]. exfalso.
      destruct (Hprior (d - n)%nat) as (x & Hx & Hx0 & Hxk); [lia|].
      assert (slot n (home n k) (d - n) = slot n (home n k) d) as E'.
      { unfold slot. destruct (Nat.ltb_spec (home n k + (d - n)) n), (Nat.ltb_spec (home n k + d) n); lia. }
      rewrite E', He' in Hx. injection Hx as ->. apply usable_spec in Hus. tauto. }
    unfold found_slot. fold n. split_and!; try done; [|lia|by apply usable_spec].
    unfold lookup_insert_entry. fold n. rewrite He. cbn [mbind option_bind]. rewrite Hu.
    rewrite probes_slots by lia. fold len. fold us. rewrite Hscan. cbn [mbind option_bind].
    unfold bump. rewrite He. by destruct (n_colijns e <? Z.of_nat d); destruct ht.
  - right. rewrite Hscan. split; [done|].
    destruct (decide (Z.of_nat n <= B)) as [|Hgt]; [done|]. exfalso.
    destruct (inv_place _ _ Hi (home n k) e He) as (d & Hd & _ & Ep & H0 & _); [tauto|].
    change (length (entries ht)) with n in *.
    assert (d = 0%nat) as -> by (apply H0; lia).
    rewrite slot_0 in Ep by (apply home_lt; lia).
    pose proof (inv_ent _ _ Hi _ _ He). unfold home in Ep.
    rewrite !Z.mod_small in Ep by lia. lia.
Qed.

(** ** Insertion *)

(** What an insertion promises; the collision counts stay right as long as they
    fit their width. *)
Record ins_ok (c : hcfg) (B k v : Z) (ht ht' : ahash) : Prop := {
  io_inv : ht_inv B ht';
  io_n : (nentries ht <= nentries ht')%nat;
  io_max : max_colijns ht <= max_colijns ht' \/ max_colijns ht <= MAX_COLLISIONS;
  io_size : Z.of_nat (nentries ht') <= Z.max (Z.of_nat (nentries ht)) (B + B / 4 + 2);
  io_get : forall k', k' <> 0 ->
    ht_get ht' k' = if decide (k' = k) then Some v else ht_get ht k';
  io_reach : max_colijns ht' < 2 ^ h_nw c -> ht_reach ht -> ht_reach ht';
}.

Section Store.
Context (c : hcfg) (Hc : 8 <= h_nw c) (B : Z) (ht : ahash) (k v : Z) (d : nat).
Context (e : ahash_entry) (Hi : ht_inv B ht) (Hk : 0 < k <= B).
Context (Hf : found_slot c k ht d e).
Let n := nentries ht.
Let i := home n k.
Let p := slot n i d.

Lemma store_lookup es' e1 q x :
  bump c (entries ht) i d !! p = Some e1 ->
  es' = <[p := AEnt (n_colijns e1) k v]> (bump c (entries ht) i d) ->
  entries ht !! q = Some x ->
  exists y, es' !! q = Some y /\
    (q = p -> e_key y = k /\ e_val y = v) /\
    (q <> p -> e_key y = e_key x /\ e_val y = e_val x) /\
    (n_colijns y = n_colijns x \/
     (q = i /\ n_colijns x < Z.of_nat d /\ n_colijns y = uwrap (h_nw c) (Z.of_nat d))).
Proof.
  intros H1 -> Hq.
  destruct (bump_lookup c (entries ht) i d q x Hq) as (y & Hy & Ek & Ev & Hcol).
  destruct (decide (q = p)) as [->|Hne].
  - assert (e1 = y) as -> by congruence.
    exists (AEnt (n_colijns y) k v).
    rewrite list_lookup_insert_eq by (by eapply lookup_lt_Some).
    split_and!; try done. destruct Hcol as [->|]; auto.
  - exists y. rewrite list_lookup_insert_ne by congruence.
    split_and!; try done. destruct Hcol as [->|]; auto.
Qed.

Lemma store_ent es' e1 :
  bump c (entries ht) i d !! p = Some e1 ->
  es' = <[p := AEnt (n_colijns e1) k v]> (bump c (entries ht) i d) ->
  forall q y, es' !! q = Some y -> 0 <= e_key y <= B /\ 0 <= n_colijns y < Z.of_nat n.
Proof.
  intros H1 He q y Hy. destruct Hf as (_ & Hd & _).
  destruct (lookup_lt_is_Some_2 (entries ht) q) as [x Hx].
  { rewrite <- (bump_length c _ i d). apply lookup_lt_Some in Hy.
    rewrite He, length_insert in Hy. exact Hy. }
  destruct (store_lookup es' e1 q x H1 He Hx) as (y' & Hy' & Hp & Hnp & Hcol).
  assert (y' = y) as -> by congruence.
  destruct (inv_ent _ _ Hi q x Hx) as [Hkx Hcx].
  split.
  - destruct (decide (q = p)) as [E|E]; [destruct (Hp E); lia|destruct (Hnp E); lia].
  - destruct Hcol as [->|(_ & _ & ->)]; [exact Hcx|].
    pose proof (uwrap_bound (h_nw c) (Z.of_nat d) ltac:(lia)).
    assert (uwrap (h_nw c) (Z.of_nat d) <= Z.of_nat d)
      by (apply Z.mod_le; [lia|apply Z.pow_pos_nonneg; lia]). unfold n. lia.
Qed.

(** Slots probed before [p] hold other keys, and stay as they are. *)
Lemma store_place es' e1 :
  bump c (entries ht) i d !! p = Some e1 ->
  es' = <[p := AEnt (n_colijns e1) k v]> (bump c (entries ht) i d) ->
  forall q y, es' !! q = Some y -> e_key y <> 0 ->
    placed B (max_colijns ht) es' q (e_key y).
Proof.
  intros H1 He q y Hy Hy0. pose proof (inv_pos _ _ Hi) as Hn. fold n in Hn.
  destruct Hf as (_ & Hd & Hdm & Hpe & Hek & Hprior). fold n i p in Hd, Hpe, Hprior.
  assert (Hl : length es' = n) by (rewrite He, length_insert, bump_length; done).
  assert (Hi' : (i < n)%nat) by (apply home_lt; lia).
  assert (Hsame : forall q x, entries ht !! q = Some x -> e_key x <> 0 ->
            exists y, es' !! q = Some y /\ e_key y = e_key x).
  { intros q' x Hx Hx0. destruct (store_lookup es' e1 q' x H1 He Hx) as (z & Hz & Hp & Hnp & _).
    exists z. split; [done|]. destruct (decide (q' = p)) as [->|E]; [|by apply Hnp].
    assert (x = e) as -> by congruence. destruct Hek; [|done]. destruct (Hp eq_refl). congruence. }
  assert (Hkeep : forall q x, entries ht !! q = Some x -> e_key x <> 0 ->
            placed B (max_colijns ht) es' q (e_key x)).
  { intros q' x Hx Hx0. destruct (inv_place _ _ Hi q' x Hx Hx0) as (d0 & Hd0 & Hm & Ep & Hb & Hbef).
    exists d0. rewrite Hl. split_and!; try done. intros d' Hd'.
    destruct (Hbef d' Hd') as (z & Hz & Hz0 & Hzx).
    destruct (Hsame _ z Hz Hz0) as (w & Hw & Ew). exists w. by rewrite Ew. }
  destruct (lookup_lt_is_Some_2 (entries ht) q) as [x Hx].
  { apply lookup_lt_Some in Hy. rewrite Hl in Hy. exact Hy. }
  destruct (store_lookup es' e1 q x H1 He Hx) as (y' & Hy' & Hp & Hnp & _).
  assert (y' = y) as -> by congruence.
  destruct (decide (q = p)) as [->|E].
  - destruct (Hp eq_refl) as [-> _]. exists d. rewrite Hl. fold i.
    split_and!; try done.
    + intros HBn. destruct d as [|d0] eqn:Ed; [done|]. exfalso.
      destruct (Hprior 0%nat) as (z & Hz & Hz0 & Hzk); [lia|].
      rewrite slot_0 in Hz by done.
      destruct (inv_place _ _ Hi i z Hz Hz0) as (d1 & _ & _ & Ep & Hb & _).
      change (length (entries ht)) with n in *. rewrite (Hb HBn) in Ep.
      rewrite slot_0 in Ep by (apply home_lt; lia).
      destruct (inv_ent _ _ Hi i z Hz) as [Hzb _].
      unfold i, home in Ep. rewrite !Z.mod_small in Ep by lia. lia.
    + intros d' Hd'. destruct (Hprior d' Hd') as (z & Hz & Hz0 & Hzk).
      destruct (Hsame _ z Hz Hz0) as (w & Hw & Ew). exists w. by rewrite Ew.
  - destruct (Hnp E) as [Ek _]. rewrite Ek in *. by apply Hkeep.
Qed.

Lemma store_reach es' e1 nv :
  bump c (entries ht) i d !! p = Some e1 ->
  es' = <[p := AEnt (n_colijns e1) k v]> (bump c (entries ht) i d) ->
  max_colijns ht < 2 ^ h_nw c -> ht_reach ht ->
  ht_reach (AHash nv (max_colijns ht) es').
Proof.
  intros H1 He Hmax Hr. destruct Hf as (_ & Hd & Hdm & Hpe & Hek & Hprior). fold n i p in Hd, Hpe, Hprior.
  pose proof (inv_pos _ _ Hi) as Hn. fold n in Hn.
  assert (Hi' : (i < n)%nat) by (apply home_lt; lia).
  assert (Hl : length es' = n) by (rewrite He, length_insert, bump_length; done).
  assert (Hw : uwrap (h_nw c) (Z.of_nat d) = Z.of_nat d) by (apply uwrap_small; lia).
  unfold ht_reach, nentries. cbn [entries]. rewrite Hl.
  intros q y d0 h Hy Hy0 Hd0 Eq Hh.
  destruct (lookup_lt_is_Some_2 (entries ht) q) as [x Hx];
    [apply lookup_lt_Some in Hy; rewrite Hl in Hy; exact Hy|].
  destruct (store_lookup es' e1 q x H1 He Hx) as (y' & Hy' & Hp & Hnp & _).
  assert (y' = y) as -> by congruence.
  destruct (lookup_lt_is_Some_2 (entries ht) (home n (e_key y))) as [h0 Hh0];
    [exact (home_lt n _ ltac:(lia))|].
  destruct (store_lookup es' e1 _ h0 H1 He Hh0) as (h' & Hh' & _ & _ & Hcol).
  assert (h' = h) as -> by congruence.
  destruct (decide (q = p)) as [->|E].
  - destruct (Hp eq_refl) as [Ek _]. rewrite Ek in Eq, Hh0, Hh. fold i in Eq, Hh0, Hh.
    assert (d0 = d) as -> by (apply (slot_inj n i); [done..|]; by rewrite <- Eq).
    destruct (bump_lookup c (entries ht) i d i h0 Hh0) as (h1 & Hh1 & _ & _ & Hb).
    assert (Hh1c : n_colijns h = n_colijns h1).
    { rewrite He in Hh. destruct (decide (p = i)) as [Epi|Epi].
      - rewrite Epi in Hh, H1. rewrite list_lookup_insert_eq in Hh by (by eapply lookup_lt_Some).
        injection Hh as <-. cbn. congruence.
      - rewrite list_lookup_insert_ne in Hh by done. congruence. }
    rewrite Hh1c. destruct Hb as [->|(_ & _ & ->)]; [|lia].
    destruct (Z.le_gt_cases (Z.of_nat d) (n_colijns h0)) as [|Hlt]; [done|]. exfalso.
    unfold bump in Hh1. rewrite Hh0 in Hh1.
    destruct (Z.ltb_spec (n_colijns h0) (Z.of_nat d)); [|lia].
    rewrite list_lookup_insert_eq in Hh1 by (by eapply lookup_lt_Some).
    injection Hh1 as E0. apply (f_equal n_colijns) in E0. cbn in E0. lia.
  - destruct (Hnp E) as [Ek _]. rewrite Ek in Eq, Hy0, Hh, Hh0.
    assert (Hold : Z.of_nat d0 <= n_colijns h0) by (by apply (Hr q x d0 h0)).
    destruct Hcol as [->|(_ & Hlt & ->)]; lia.
Qed.

Lemma store_ok :
  exists ht', set_entry k v p (AHash (nvalid ht) (max_colijns ht) (bump c (entries ht) i d))
    = Some ht' /\ ins_ok c B k v ht ht' /\ nentries ht' = n.
Proof.
  pose proof Hf as (_ & Hd & Hdm & Hpe & Hek & Hprior). fold n i p in Hpe, Hprior.
  destruct (bump_lookup c (entries ht) i d p e Hpe) as (e1 & H1 & Ek1 & _ & _).
  unfold set_entry. cbn [entries nvalid max_colijns]. rewrite H1. cbn [mbind option_bind].
  set (es' := <[p := _]> _). eexists. split; [reflexivity|].
  assert (Hl : length es' = n) by (unfold es'; rewrite length_insert, bump_length; done).
  split; [|exact Hl].
  assert (Hinv : ht_inv B (AHash (if e_key e1 =? k then nvalid ht else u32 (nvalid ht + 1))
                  (max_colijns ht) es')).
  { pose proof (inv_max _ _ Hi). split; unfold nentries; cbn [entries max_colijns]; rewrite ?Hl.
    - apply Hi.
    - apply Hi.
    - by apply (store_ent es' e1).
    - by apply (store_place es' e1). }
  split; [done|unfold nentries at 2; cbn; lia|cbn; lia|unfold nentries at 1; cbn; lia| |].
  - intros k' Hk'0. unfold ht_get. cbn [entries].
    assert (Hpp : exists y, es' !! p = Some y /\ e_key y = k /\ e_val y = v).
    { destruct (store_lookup es' e1 p e H1 eq_refl Hpe) as (y & Hy & Hp & _). exists y. auto. }
    destruct Hpp as (y & Hy & Ey & Ev). destruct (decide (k' = k)) as [->|Hne].
    + rewrite <- Ev, <- Ey. eapply hget_some; [exact (inv_distinct _ _ Hinv)|exact Hy|congruence].
    + apply (hget_agree (entries ht) es' p k).
      * by eapply inv_distinct.
      * exact (inv_distinct _ _ Hinv).
      * by rewrite Hl.
      * done.
      * done.
      * intros q x z Hq Hx Hz.
        destruct (store_lookup es' e1 q x H1 eq_refl Hx) as (z' & Hz' & _ & Hnp & _).
        assert (z' = z) as -> by congruence. destruct (Hnp Hq). auto.
      * intros x Hx. assert (x = e) as -> by congruence. tauto.
      * intros x Hx. assert (x = y) as -> by congruence. auto.
  - cbn [max_colijns]. intros Hmax Hr. by eapply store_reach.
Qed.
End Store.

(** ** Growing *)

Lemma zero_lookup n p e : replicate n zero_entry !! p = Some e -> e = zero_entry.
Proof. intros H. by apply lookup_replicate in H as [-> _]. Qed.

Lemma fresh_ok B n nv m :
  (2 <= n)%nat -> 0 <= B -> 2 <= m <= Z.max MAX_COLLISIONS (Z.of_nat n) ->
  let ht := AHash nv m (replicate n zero_entry) in
  ht_inv B ht /\ ht_reach ht /\ forall k, k <> 0 -> ht_get ht k = None.
Proof.
  intros Hn HB Hm ht.
  assert (Hl : nentries ht = n) by (unfold nentries; cbn; by rewrite length_replicate).
  split_and!; [split; rewrite ?Hl; try done| |].
  - intros p e He. apply zero_lookup in He as ->. cbn. lia.
  - intros p e He H0. by apply zero_lookup in He as ->.
  - intros p e d h He H0. by apply zero_lookup in He as ->.
  - intros k Hk. apply hget_none. intros q f Hf. apply zero_lookup in Hf as ->. cbn. congruence.
Qed.

Lemma inv_set_max B ht m :
  ht_inv B ht -> 2 <= m <= Z.max MAX_COLLISIONS (Z.of_nat (nentries ht)) ->
  (max_colijns ht <= m \/ m = Z.of_nat (nentries ht)) ->
  ht_inv B (AHash (nvalid ht) m (entries ht)).
Proof.
  intros Hi Hm Hor. split; try apply Hi; [exact Hm|].
  intros p e He H0. destruct (inv_place _ _ Hi p e He H0) as (d & Hd & Hdm & Hrest).
  exists d. split; [done|]. split; [|exact Hrest]. cbn.
  unfold nentries in Hor. lia.
Qed.

Lemma expand_ok c B k : forall fuel ht,
  ht_inv B ht -> 0 < k <= B -> B < 2 ^ 31 -> Z.of_nat (nentries ht) <= B ->
  (if max_colijns ht <=? Z.of_nat (nentries ht)
   then Z.of_nat (nentries ht) - max_colijns ht + 1 else 3) <= Z.of_nat fuel ->
  exists ht1, expand c fuel k ht = Some ht1 /\ kv (entries ht1) = kv (entries ht) /\
    2 <= max_colijns ht1 <= Z.max MAX_COLLISIONS (Z.of_nat (nentries ht)) /\
    (max_colijns ht <= max_colijns ht1 \/ max_colijns ht <= MAX_COLLISIONS).
Proof.
  induction fuel as [|fuel IH]; intros ht Hi Hk HB Hn Hf.
  { exfalso. destruct (Z.leb_spec (max_colijns ht) (Z.of_nat (nentries ht))); lia. }
  pose proof (inv_max _ _ Hi) as Hm. pose proof (inv_pos _ _ Hi) as Hp.
  unfold MAX_COLLISIONS in *. cbn [expand].
  destruct (Z.eqb_spec (max_colijns ht) (Z.of_nat (nentries ht))) as [E|E].
  { exists ht. split_and!; try done; lia. }
  set (n := Z.of_nat (nentries ht)) in *. set (m0 := max_colijns ht) in *.
  rewrite (uwrap_small 32) by dlia.
  set (m := if n <? m0 + m0 / 2 then n else m0 + m0 / 2).
  assert (Hmm : 2 <= m <= Z.max 25 n /\ m <= n /\ (m0 < m \/ (m = n /\ n < m0))).
  { unfold m. destruct (Z.ltb_spec n (m0 + m0 / 2)); dlia. }
  assert (Hi2 : ht_inv B (AHash (nvalid ht) m (entries ht))).
  { apply inv_set_max; [done|unfold MAX_COLLISIONS; fold n; lia|fold m0 n; lia]. }
  destruct (lookup_insert_spec c B _ k Hi2 Hk) as [(d & e & -> & _)|[-> _]];
    cbn [mbind option_bind].
  - eexists. split; [reflexivity|]. cbn [entries max_colijns]. rewrite bump_kv.
    split_and!; try done; lia.
  - destruct (IH (AHash (nvalid ht) m (entries ht)) Hi2 Hk HB Hn) as (ht1 & -> & Hkv & Hm1 & Hor).
    + change (nentries (AHash _ _ _)) with (nentries ht). cbn [max_colijns]. fold n.
      destruct (Z.leb_spec m n), (Z.leb_spec m0 n); lia.
    + exists ht1. cbn [entries max_colijns] in *. split_and!; try done.
      * apply Hm1.
      * apply Hm1.
      * lia.
Qed.

Section Reinsert.
Context (c : hcfg) (B : Z) (n0 : nat) (ins : Z -> Z -> ahash -> option (Z * ahash)).
Context (Hins : forall k v h, ht_inv B h -> 0 < k <= B -> (n0 <= nentries h)%nat ->
  exists h', ins k v h = Some (0, h') /\ ins_ok c B k v h h').

Lemma reinsert_ok (Hc : 8 <= h_nw c) : forall l h,
  ht_inv B h -> (n0 <= nentries h)%nat ->
  (forall p e, l !! p = Some e -> 0 <= e_key e <= B) -> distinct_keys l ->
  exists h', reinsert ins l h = Some (0, h') /\ ht_inv B h' /\
    (nentries h <= nentries h')%nat /\
    (max_colijns h <= max_colijns h' \/ max_colijns h <= MAX_COLLISIONS) /\
    Z.of_nat (nentries h') <= Z.max (Z.of_nat (nentries h)) (B + B / 4 + 2) /\
    (forall k, k <> 0 -> ht_get h' k =
       match hget l k with Some v => Some v | None => ht_get h k end) /\
    (max_colijns h' < 2 ^ h_nw c -> ht_reach h -> ht_reach h').
Proof.
  induction l as [|e l IH]; intros h Hi Hn Hb Hd.
  { exists h. split_and!; try done; lia. }
  assert (Hd' : distinct_keys l).
  { intros p q x y Hx Hy E0 E1. enough (S p = S q) by lia. by apply (Hd (S p) (S q) x y). }
  assert (Hb' : forall p e, l !! p = Some e -> 0 <= e_key e <= B).
  { intros p x Hx. by apply (Hb (S p)). }
  cbn [reinsert]. destruct (Z.eqb_spec (e_key e) 0) as [E|E].
  { destruct (IH h Hi Hn Hb' Hd') as (h' & -> & H1 & H2 & H3 & HS & H4 & H5).
    exists h'. split_and!; try done. intros k Hk. rewrite hget_cons, H4 by done.
    by destruct (decide (e_key e = k)); [congruence|]. }
  pose proof (Hb 0%nat e eq_refl) as Hke.
  destruct (Hins (e_key e) (e_val e) h Hi ltac:(lia) Hn) as (h1 & -> & [I1 N1 M1 S1 G1 R1]).
  cbn [mbind option_bind]. destruct (Z.eqb_spec 0 0) as [_|]; [|done].
  destruct (IH h1 I1 ltac:(lia) Hb' Hd') as (h' & -> & H1 & H2 & H3 & HS & H4 & H5).
  exists h'. split_and!; try done; [lia|lia|lia| |].
  - intros k Hk. rewrite hget_cons, H4, G1 by done.
    destruct (decide (k = e_key e)) as [->|Hne], (decide (e_key e = _)); try congruence.
    rewrite hget_none; [done|]. intros q f Hq Hkf.
    assert (0 = S q)%nat by (apply (Hd 0%nat (S q) e f); done). lia.
  - intros Hm Hr. apply H5; [done|]. apply R1; [|done].
    assert (2 ^ 8 <= 2 ^ h_nw c) by (apply Z.pow_le_mono_r; lia).
    destruct H3; [lia|]. unfold MAX_COLLISIONS in *. lia.
Qed.
End Reinsert.

(** Every insertion of a key not above [B] returns, with fuel for the sizes the
    table can still grow through. *)
Lemma hash_insert_ok c (Hc : 8 <= h_nw c) B (HB : B < 2 ^ 31) : forall fuel k v lvl ht,
  ht_inv B ht -> 0 < k <= B -> B + 1 - Z.of_nat (nentries ht) < Z.of_nat fuel -> (0 < fuel)%nat ->
  exists ht', hash_insert c fuel k v lvl ht = Some (0, ht') /\ ins_ok c B k v ht ht'.
Proof.
  induction fuel as [|fuel IH]; intros k v lvl ht Hi Hk Hf Hpos; [lia|].
  pose proof (inv_pos _ _ Hi) as Hn. pose proof (inv_max _ _ Hi) as Hm.
  cbn [hash_insert]. destruct (Z.eqb_spec k 0) as [|_]; [lia|].
  destruct (lookup_insert_spec c B ht k Hi Hk) as [(d & e & Hfs)|[-> HnB]].
  { destruct (store_ok c Hc B ht k v d e Hi Hk Hfs) as (ht' & Hst & Hok & _).
    destruct Hfs as [-> _]. cbn [mbind option_bind]. rewrite Hst. cbn [mbind option_bind].
    by exists ht'. }
  cbn [mbind option_bind].
  assert (exists ht1, (if 1 <? lvl then expand c (nentries ht + 3) k ht else Some ht) = Some ht1 /\
    kv (entries ht1) = kv (entries ht) /\
    2 <= max_colijns ht1 <= Z.max MAX_COLLISIONS (Z.of_nat (nentries ht)) /\
    (max_colijns ht <= max_colijns ht1 \/ max_colijns ht <= MAX_COLLISIONS))
    as (ht1 & -> & Hkv & Hm1 & Hr1).
  { destruct (1 <? lvl).
    - apply (expand_ok c B); try done.
      destruct (Z.leb_spec (max_colijns ht) (Z.of_nat (nentries ht))); lia.
    - exists ht. split_and!; try done; lia. }
  assert (Hn1 : nentries ht1 = nentries ht).
  { apply (f_equal length) in Hkv. unfold kv in Hkv. by rewrite !length_fmap in Hkv. }
  cbn [mbind option_bind]. unfold rehash, init. cbn [max_colijns entries].
  destruct (Z.eqb_spec (max_colijns ht1) 0) as [|_]; [lia|]. rewrite Hn1.
  set (n' := (nentries ht + Nat.max 2 (nentries ht / 4))%nat).
  destruct (fresh_ok B n' 0 (max_colijns ht1)) as (Hfi & Hfr & Hfg); [lia|lia|lia|].
  set (fresh := AHash 0 (max_colijns ht1) (replicate n' zero_entry)) in *.
  assert (Hfn : nentries fresh = n') by (unfold nentries; cbn; by rewrite length_replicate).
  destruct (reinsert_ok c B n' (fun k v h => hash_insert c fuel k v (lvl + 1) h))
    with (l := entries ht1) (h := fresh) as (ht2 & -> & I2 & N2 & M2 & S2 & G2 & R2); try done.
  - intros k' v' h Hh Hk' Hn'. apply IH; try done; lia.
  - lia.
  - intros p e He. symmetry in Hkv. destruct (kv_lookup _ _ p e (eq_sym Hkv) He) as (e' & He' & <- & _).
    by apply (inv_ent _ _ Hi p).
  - eapply kv_distinct; [by symmetry|]. by eapply inv_distinct.
  - cbn [mbind option_bind]. destruct (Z.eqb_spec 0 0) as [_|]; [|done].
    destruct (IH k v lvl ht2 I2 Hk) as (ht' & -> & [I3 N3 M3 S3 G3 R3]); [lia|lia|].
    exists ht'. split; [done|]. cbn [fresh max_colijns] in M2.
    assert (Z.of_nat n' <= B + B / 4 + 2).
    { unfold n'. pose proof (Nat2Z.inj_div (nentries ht) 4). dlia. }
    split; [done|lia|lia|lia| |].
    + intros k' Hk'. rewrite G3, G2, Hfg by done. destruct (decide (k' = k)); [done|].
      unfold ht_get. rewrite (hget_kv _ _ k' Hkv). by destruct (hget (entries ht) k').
    + intros Hmax _. apply R3; [done|]. apply R2; [|done].
      assert (2 ^ 8 <= 2 ^ h_nw c) by (apply Z.pow_le_mono_r; lia).
      unfold MAX_COLLISIONS in *. lia.
Qed.

(** ** Lookup *)

(** What [lookup_entry] needs; unlike the invariant, it survives a deletion. *)
Record lookable (ht : ahash) : Prop := {
  lk_pos : (2 <= nentries ht)%nat;
  lk_col : forall p e, entries ht !! p = Some e -> 0 <= n_colijns e < Z.of_nat (nentries ht);
  lk_dist : distinct_keys (entries ht);
  lk_reach : ht_reach ht;
}.

Lemma inv_lookable B ht : ht_inv B ht -> ht_reach ht -> lookable ht.
Proof.
  intros Hi Hr. split; [apply Hi| |by eapply inv_distinct|done].
  intros p e He. by apply (inv_ent _ _ Hi p).
Qed.

Lemma slot_onto n h p : (h < n)%nat -> (p < n)%nat -> exists d, (d < n)%nat /\ p = slot n h d.
Proof.
  intros Hh Hp. exists (if h <=? p then p - h else p + n - h)%nat. unfold slot.
  destruct (Nat.leb_spec h p).
  - destruct (Nat.ltb_spec (h + (p - h)) n); lia.
  - destruct (Nat.ltb_spec (h + (p + n - h)) n); lia.
Qed.

Lemma lookup_entry_spec ht k :
  lookable ht -> k <> 0 ->
  (exists p e, entries ht !! p = Some e /\ e_key e = k /\ lookup_entry k ht = Some (Some p)) \/
  ((forall p e, entries ht !! p = Some e -> e_key e <> k) /\ lookup_entry k ht = Some None).
Proof.
  intros [Hn Hcol Hd Hr] Hk. unfold lookup_entry. set (n := nentries ht) in *.
  pose proof (home_lt n k ltac:(lia)) as Hh.
  destruct (lookup_lt_is_Some_2 (entries ht) (home n k)) as [h He]; [exact Hh|].
  rewrite He. cbn [mbind option_bind].
  destruct (Z.eqb_spec (e_key h) k) as [E|E]; [left; by exists (home n k), h|].
  pose proof (Hcol _ _ He) as Hc.
  assert (Hreach : forall p e, entries ht !! p = Some e -> e_key e = k ->
    exists d, (1 <= d < n)%nat /\ p = slot n (home n k) d /\ Z.of_nat d <= n_colijns h).
  { intros p e Hp Ek. destruct (slot_onto n (home n k) p) as (d & Hdn & Ep);
      [done|by eapply lookup_lt_Some|].
    exists d. split; [|split; [done|]].
    - destruct d; [|lia]. rewrite slot_0 in Ep by done. congruence.
    - apply (Hr p e d h); rewrite ?Ek; try done. }
  destruct (Z.ltb_spec 0 (n_colijns h)) as [Hpos|Hz].
  - rewrite probes_slots by lia.
    replace (if (n <=? _)%nat then _ else _)%nat with (Z.to_nat (n_colijns h))
      by (destruct (Nat.leb_spec n (home n k + Z.to_nat (n_colijns h))); lia).
    destruct (scan_spec (fun x => x =? k) (entries ht) (slot n (home n k))
                (Z.to_nat (n_colijns h)) 1)
      as [(d & e & Hdr & He' & Hus & _ & ->)|[Hall ->]]; cbn [mbind option_bind option_map fst].
    + intros j Hj. change (length (entries ht)) with n. apply slot_lt; lia.
    + left. exists (slot n (home n k) d), e. split_and!; try done. by apply Z.eqb_eq.
    + right. split; [|done]. intros p e Hp Ek.
      destruct (Hreach p e Hp Ek) as (d & Hdn & Ep & Hdc).
      destruct (Hall d) as (e' & He' & Hne); [lia|]. apply Z.eqb_neq in Hne. congruence.
  - right. split; [|done]. intros p e Hp Ek.
    destruct (Hreach p e Hp Ek) as (d & Hdn & _ & Hdc). lia.
Qed.

(** A fetch returns the value under the key, [0] when there is none. *)
Lemma fetch_ok c ht key :
  lookable ht ->
  let k := uwrap (h_kw c) key in
  alc_hash_fetch c key ht =
    Some (if k =? 0 then 0 else match ht_get ht k with Some v => v | None => 0 end).
Proof.
  intros Hl k. unfold alc_hash_fetch. fold k. destruct (Z.eqb_spec k 0) as [|Hk]; [done|].
  destruct (lookup_entry_spec ht k Hl Hk) as [(p & e & Hp & Ek & ->)|[Hno ->]];
    cbn [mbind option_bind].
  - rewrite Hp. cbn [mbind option_bind]. f_equal. unfold ht_get. rewrite <- Ek.
    by rewrite (hget_some _ p e) by (try apply Hl; congruence).
  - unfold ht_get. by rewrite hget_none.
Qed.

Lemma hget_clear es p e k' :
  distinct_keys es -> es !! p = Some e -> e_key e <> 0 -> k' <> 0 ->
  hget (<[p := AEnt (n_colijns e) 0 (e_val e)]> es) k' =
    if decide (k' = e_key e) then None else hget es k'.
Proof.
  intros Hd Hp He Hk'. assert (Hd' : distinct_keys (<[p := AEnt (n_colijns e) 0 (e_val e)]> es)).
  { intros q r x y Hx Hy Ek E0. apply list_lookup_insert_Some in Hx, Hy.
    destruct Hx as [(_ & <- & _)|[_ Hx]]; [done|].
    destruct Hy as [(_ & <- & _)|[_ Hy]]; [cbn in *; congruence|]. by apply (Hd q r x y). }
  destruct (decide (k' = e_key e)) as [->|Hne].
  - apply hget_none. intros q f Hq Hk.
    apply list_lookup_insert_Some in Hq as [(_ & <- & _)|[Hpq Hq]]; [cbn in Hk; congruence|].
    apply Hpq. apply (Hd p q e f); congruence.
  - apply (hget_agree es _ p (e_key e)); try done.
    + by rewrite length_insert.
    + intros q x y Hq Hx Hy. rewrite list_lookup_insert_ne in Hy by done.
      assert (x = y) as -> by congruence. done.
    + intros x Hx. assert (x = e) as -> by congruence. auto.
    + intros x Hx. rewrite list_lookup_insert_eq in Hx by (by eapply lookup_lt_Some).
      injection Hx as <-. auto.
Qed.

Lemma clear_lookable ht nv p e :
  lookable ht -> entries ht !! p = Some e ->
  lookable (AHash nv (max_colijns ht) (<[p := AEnt (n_colijns e) 0 (e_val e)]> (entries ht))).
Proof.
  intros [Hn Hcol Hd Hr] Hp.
  split; unfold nentries in *; cbn [entries]; rewrite ?length_insert; try done.
  - intros q f Hq. apply list_lookup_insert_Some in Hq as [(-> & <- & _)|[_ Hq]]; cbn.
    + by apply (Hcol q).
    + by apply (Hcol q f).
  - intros q r x y Hx Hy Ek E0. apply list_lookup_insert_Some in Hx, Hy.
    destruct Hx as [(_ & <- & _)|[_ Hx]]; [done|].
    destruct Hy as [(_ & <- & _)|[_ Hy]]; [cbn in *; congruence|]. by apply (Hd q r x y).
  - intros q x d h Hx E0 Hdn Eq Hh. cbn [entries] in *. unfold nentries in *.
    cbn [entries] in *. rewrite length_insert in *.
    apply list_lookup_insert_Some in Hx as [(_ & <- & _)|[_ Hx]]; [done|].
    apply list_lookup_insert_Some in Hh as [(-> & <- & _)|[_ Hh]]; cbn.
    + by apply (Hr q x d e).
    + by apply (Hr q x d h).
Qed.

(** ** Histories of insertions *)

Fixpoint insert_all (c : hcfg) (fuel : nat) (kvs : list (Z * Z)) (ht : ahash)
    : option ahash :=
  match kvs with
  | [] => Some ht
  | (k, v) :: kvs' =>
      '(status, ht) ← alc_hash_insert c fuel k v ht;
      if status =? 0 then insert_all c fuel kvs' ht else None
  end.

(** The last value given to a key. *)
Fixpoint last_val (kvs : list (Z * Z)) (k : Z) : option Z :=
  match kvs with
  | [] => None
  | (k', v) :: kvs' =>
      match last_val kvs' k with
      | Some w => Some w
      | None => if decide (k' = k) then Some v else None
      end
  end.

Lemma make_ok B : 0 <= B ->
  let ht := alc_hash_make 2 in
  ht_inv B ht /\ ht_reach ht /\ (forall k, k <> 0 -> ht_get ht k = None).
Proof. intros HB. apply (fresh_ok B 2 0 25); unfold MAX_COLLISIONS; lia. Qed.

Lemma insert_all_ok c (Hc : 8 <= h_nw c) B (HB : B < 2 ^ 31) (HBk : B < 2 ^ h_kw c)
    fuel (Hf : B < Z.of_nat fuel) : forall kvs ht,
  ht_inv B ht ->
  Forall (fun kv => 0 < kv.1 <= B /\ 0 <= kv.2 < 2 ^ h_vw c) kvs ->
  exists ht', insert_all c fuel kvs ht = Some ht' /\ ht_inv B ht' /\
    (max_colijns ht <= max_colijns ht' \/ max_colijns ht <= MAX_COLLISIONS) /\
    Z.of_nat (nentries ht') <= Z.max (Z.of_nat (nentries ht)) (B + B / 4 + 2) /\
    (forall k, k <> 0 -> ht_get ht' k =
       match last_val kvs k with Some v => Some v | None => ht_get ht k end) /\
    (max_colijns ht' < 2 ^ h_nw c -> ht_reach ht -> ht_reach ht').
Proof.
  induction kvs as [|[k v] kvs IH]; intros ht Hi HF.
  { exists ht. split_and!; try done; lia. }
  apply Forall_cons in HF as [[Hk Hv] HF]. cbn [fst snd] in *. cbn [insert_all].
  unfold alc_hash_insert. rewrite (uwrap_small (h_kw c)), (uwrap_small (h_vw c)) by lia.
  pose proof (inv_pos _ _ Hi).
  destruct (hash_insert_ok c Hc B HB fuel k v 0 ht Hi Hk) as (h1 & -> & [I1 N1 M1 S1 G1 R1]);
    [lia|lia|].
  cbn [mbind option_bind]. destruct (Z.eqb_spec 0 0) as [_|]; [|done].
  destruct (IH h1 I1 HF) as (ht' & -> & I2 & M2 & S2 & G2 & R2).
  exists ht'. split_and!; try done; [lia|lia| |].
  - intros k' Hk'. cbn [last_val]. rewrite G2, G1 by done.
    destruct (last_val kvs k'); [done|].
    destruct (decide (k' = k)) as [->|], (decide (k = _)); congruence.
  - intros Hm Hr. apply R2; [done|]. apply R1; [|done].
    assert (2 ^ 8 <= 2 ^ h_nw c) by (apply Z.pow_le_mono_r; lia).
    destruct M2; [lia|]. unfold MAX_COLLISIONS in *. lia.
Qed.

(** The two instances; a 16-bit table counts collisions in one byte. *)
Definition hash_width (c : hcfg) (ht : ahash) : Prop :=
  c = cfg32 \/ (c = cfg16 /\ max_colijns ht <= UCHAR_MAX).

(** ** Widths

    Every field of a table fits its width, so a table in a row can be read
    back. *)

Definition ent_fits (c : hcfg) (e : ahash_entry) : Prop :=
  0 <= n_colijns e < 2 ^ h_nw c /\ 0 <= e_key e < 2 ^ h_kw c /\ 0 <= e_val e < 2 ^ h_vw c.
Definition ht_fits (c : hcfg) (ht : ahash) : Prop :=
  0 <= nvalid ht < 2 ^ 32 /\ Forall (ent_fits c) (entries ht).

Section Fits.
Context (c : hcfg) (Hn : 0 <= h_nw c) (Hk : 0 <= h_kw c) (Hv : 0 <= h_vw c).

Lemma zero_fits n : Forall (ent_fits c) (replicate n zero_entry).
Proof.
  apply Forall_replicate. unfold ent_fits. cbn.
  split_and!; try lia; apply Z.pow_pos_nonneg; lia.
Qed.

Lemma lookup_insert_fits k ht ht1 v :
  ht_fits c ht -> lookup_insert_entry c k ht = Some (ht1, v) -> ht_fits c ht1.
Proof.
  intros [Hnv HF] H. unfold lookup_insert_entry in H.
  destruct (entries ht !! _) as [e|] eqn:He; [|done]. cbn [mbind option_bind] in H.
  destruct (_ || _); [by injection H as <- _|].
  destruct (scan _ _ _ _) as [[[p d]|]|]; cbn [mbind option_bind] in H; try done;
    [|by injection H as <- _].
  destruct (_ <? _); [|by injection H as <- _]. injection H as <- _.
  split; [done|]. cbn [entries]. apply Forall_insert; [done|].
  destruct (Forall_lookup_1 _ _ _ _ HF He) as (_ & H2 & H3). split; [|done].
  apply uwrap_bound. lia.
Qed.

Lemma set_entry_fits k v p ht ht1 :
  ht_fits c ht -> 0 <= k < 2 ^ h_kw c -> 0 <= v < 2 ^ h_vw c ->
  set_entry k v p ht = Some ht1 -> ht_fits c ht1.
Proof.
  intros [Hnv HF] Hkb Hvb H. unfold set_entry in H.
  destruct (entries ht !! p) as [e|] eqn:He; [|done]. injection H as <-.
  destruct (Forall_lookup_1 _ _ _ _ HF He) as (H1 & _).
  split; cbn [nvalid entries].
  - destruct (_ =? _); [done|apply uwrap_bound; lia].
  - apply Forall_insert; [done|]. unfold ent_fits. cbn. tauto.
Qed.

Lemma expand_fits k : forall fuel ht ht1,
  ht_fits c ht -> expand c fuel k ht = Some ht1 -> ht_fits c ht1.
Proof.
  induction fuel as [|fuel IH]; intros ht ht1 Hf H; [done|]. cbn [expand] in H.
  destruct (_ =? _); [by injection H as <-|].
  destruct (lookup_insert_entry _ _ _) as [[h2 v]|] eqn:E; [|done]. cbn [mbind option_bind] in H.
  apply lookup_insert_fits in E; [|exact Hf].
  destruct v; [by injection H as <-|by eapply IH].
Qed.

Lemma reinsert_fits ins l :
  (forall k v h s h', ht_fits c h -> 0 <= k < 2 ^ h_kw c -> 0 <= v < 2 ^ h_vw c ->
     ins k v h = Some (s, h') -> ht_fits c h') ->
  Forall (ent_fits c) l -> forall h s h', ht_fits c h -> reinsert ins l h = Some (s, h') ->
  ht_fits c h'.
Proof.
  intros Hins HF. induction HF as [|e l (_ & H2 & H3) _ IH]; intros h s h' Hh H; cbn in H.
  { by injection H as _ <-. }
  destruct (_ =? _); [by eapply IH|].
  destruct (ins _ _ _) as [[st h1]|] eqn:E; [|done]. cbn [mbind option_bind] in H.
  apply Hins in E; try done. destruct (_ =? _); [by eapply IH|]. by injection H as _ <-.
Qed.

Lemma hash_insert_fits : forall fuel k v lvl ht s ht',
  ht_fits c ht -> 0 <= k < 2 ^ h_kw c -> 0 <= v < 2 ^ h_vw c ->
  hash_insert c fuel k v lvl ht = Some (s, ht') -> ht_fits c ht'.
Proof.
  induction fuel as [|fuel IH]; intros k v lvl ht s ht' Hf Hkb Hvb H; [done|].
  cbn [hash_insert] in H. destruct (k =? 0); [by injection H as _ <-|].
  destruct (lookup_insert_entry _ _ _) as [[h1 p]|] eqn:E; [|done]. cbn [mbind option_bind] in H.
  apply lookup_insert_fits in E; [|done]. destruct p as [p|].
  - destruct (set_entry k v p h1) as [h2|] eqn:E2; [|done]. injection H as _ <-.
    by eapply set_entry_fits.
  - destruct (if 1 <? lvl then _ else _) as [h2|] eqn:E2; [|done]. cbn [mbind option_bind] in H.
    assert (F2 : ht_fits c h2).
    { destruct (1 <? lvl); [by eapply expand_fits|by injection E2 as <-]. }
    unfold rehash in H.
    destruct (reinsert _ _ _) as [[st h3]|] eqn:E3; [|done]. cbn [mbind option_bind] in H.
    assert (F3 : ht_fits c h3).
    { eapply reinsert_fits; [|apply F2| |exact E3].
      - intros k' v' h s' h' H1 H2 H3 H4. exact (IH k' v' _ h s' h' H1 H2 H3 H4).
      - split; [cbn; lia|apply zero_fits]. }
    destruct (st =? 0); [by eapply IH|by injection H as _ <-].
Qed.

Lemma insert_all_fits fuel : forall kvs ht ht',
  ht_fits c ht -> insert_all c fuel kvs ht = Some ht' -> ht_fits c ht'.
Proof.
  induction kvs as [|[k v] kvs IH]; intros ht ht' Hf H; [by injection H as <-|].
  cbn [insert_all] in H. unfold alc_hash_insert in H.
  destruct (hash_insert _ _ _ _ _ _) as [[s h1]|] eqn:E; [|done]. cbn [mbind option_bind] in H.
  apply hash_insert_fits in E; [|done|by apply uwrap_bound|by apply uwrap_bound].
  destruct (s =? 0); [by eapply IH|done].
Qed.

Lemma make_fits : ht_fits c (alc_hash_make 2).
Proof. split; [cbn; lia|apply (zero_fits 2)]. Qed.
End Fits.

Lemma built_ok c B fuel kvs :
  c = cfg32 \/ c = cfg16 -> 0 <= B < 2 ^ 31 -> B < 2 ^ h_kw c -> B < Z.of_nat fuel ->
  Forall (fun kv => 0 < kv.1 <= B /\ 0 <= kv.2 < 2 ^ h_vw c) kvs ->
  exists ht, insert_all c fuel kvs (alc_hash_make 2) = Some ht /\
    (hash_width c ht -> lookable ht) /\
    (forall k, k <> 0 -> ht_get ht k = last_val kvs k) /\
    ht_fits c ht /\ Z.of_nat (nentries ht) <= B + B / 4 + 2 /\
    0 <= max_colijns ht <= B + B / 4 + 25.
Proof.
  intros Hcc HB HBk Hf HF. assert (Hc : 8 <= h_nw c) by (destruct Hcc as [-> | ->]; cbn; lia).
  destruct (make_ok B) as (Hi & Hr & Hg); [lia|].
  destruct (insert_all_ok c Hc B ltac:(lia) HBk fuel Hf kvs _ Hi HF)
    as (ht & E & Hi' & _ & Hs & Hg' & Hr').
  pose proof (inv_max _ _ Hi') as Hm.
  change (nentries (alc_hash_make 2)) with 2%nat in Hs. unfold MAX_COLLISIONS in *.
  assert (Hsz : Z.of_nat (nentries ht) <= B + B / 4 + 2) by dlia.
  exists ht. split; [exact E|]. split; [|split; [|split; [|split; [done|dlia]]]].
  - intros Hw. apply (inv_lookable B); [done|]. apply Hr'; [|done].
    destruct Hw as [->|[-> Hw]]; cbn [h_nw cfg32 cfg16]; [|unfold UCHAR_MAX in Hw; lia].
    dlia.
  - intros k Hk. rewrite Hg' by done. by rewrite Hg; [destruct (last_val kvs k)|].
  - eapply insert_all_fits; [| | | |exact E]; try (destruct Hcc as [-> | ->]; cbn; lia).
    apply make_fits; destruct Hcc as [-> | ->]; cbn; lia.
Qed.

(** ** Properties *)

(** C23: any sequence of insertions of non-zero keys into a new table terminates
    with success, whatever rehashes it needs, and a fetch then returns the last
    value inserted under the key and [0] for a key never inserted; for the
    16-bit table as long as no more than 255 collisions are allowed, since its
    collision counts have one byte. *)
Theorem hash_table_correct (c : hcfg) (B : Z) (fuel : nat) (kvs : list (Z * Z)) :
  c = cfg32 \/ c = cfg16 -> 0 <= B < 2 ^ 31 -> B < 2 ^ h_kw c -> B < Z.of_nat fuel ->
  Forall (fun kv => 0 < kv.1 <= B /\ 0 <= kv.2 < 2 ^ h_vw c) kvs ->
  exists ht, insert_all c fuel kvs (alc_hash_make 2) = Some ht /\
    (hash_width c ht -> forall k, 0 < k < 2 ^ h_kw c ->
       alc_hash_fetch c k ht =
         Some (match last_val kvs k with Some v => v | None => 0 end)).
Proof.
  intros Hc HB HBk Hf HF.
  destruct (built_ok c B fuel kvs Hc HB HBk Hf HF) as (ht & E & Hl & Hg & _).
  exists ht. split; [exact E|]. intros Hw k Hk.
  rewrite fetch_ok by auto. rewrite uwrap_small by lia.
  destruct (Z.eqb_spec k 0); [lia|]. by rewrite Hg.
Qed.

(** deleting a key from a table built by insertions makes its fetch return
    [0] and changes no other key. *)
Theorem hash_delete_correct (c : hcfg) (B : Z) (fuel : nat) (kvs : list (Z * Z))
    (ht : ahash) (k : Z) :
  c = cfg32 \/ c = cfg16 -> 0 <= B < 2 ^ 31 -> B < 2 ^ h_kw c -> B < Z.of_nat fuel ->
  Forall (fun kv => 0 < kv.1 <= B /\ 0 <= kv.2 < 2 ^ h_vw c) kvs ->
  insert_all c fuel kvs (alc_hash_make 2) = Some ht -> hash_width c ht ->
  0 < k < 2 ^ h_kw c ->
  exists ht', alc_hash_delete c k ht = Some ht' /\
    forall k', 0 < k' < 2 ^ h_kw c ->
      alc_hash_fetch c k' ht' = if decide (k' = k) then Some 0 else alc_hash_fetch c k' ht.
Proof.
  intros Hc HB HBk Hf HF E Hw Hk.
  destruct (built_ok c B fuel kvs Hc HB HBk Hf HF) as (ht0 & E0 & Hl & _).
  assert (ht0 = ht) as -> by congruence. specialize (Hl Hw).
  unfold alc_hash_delete. rewrite uwrap_small by lia. destruct (Z.eqb_spec k 0) as [|H0]; [lia|].
  destruct (lookup_entry_spec ht k Hl H0) as [(p & e & Hp & Ek & ->)|[Hno ->]];
    cbn [mbind option_bind].
  - rewrite Hp. cbn [mbind option_bind]. eexists. split; [reflexivity|].
    intros k' Hk'. rewrite !fetch_ok by (try apply clear_lookable; done).
    rewrite uwrap_small by lia. destruct (Z.eqb_spec k' 0); [lia|].
    unfold ht_get. cbn [entries]. rewrite hget_clear by (try apply Hl; congruence || lia).
    rewrite Ek. by destruct (decide (k' = k)).
  - exists ht. split; [done|]. intros k' Hk'. destruct (decide (k' = k)) as [->|]; [|done].
    rewrite fetch_ok by done. rewrite uwrap_small by lia.
    destruct (Z.eqb_spec k 0); [lia|]. unfold ht_get. by rewrite hget_none.
Qed.

(** The tables of two colliding keys [1] and [9] among eight entries. *)
Definition two_keys : list (Z * Z) := [(1, 10); (9, 90)].

(** deletion leaves holes that insertion does not look past: after deleting
    [1], a new value for [9] goes into the freed slot beside the old entry, and
    deleting [9] then brings the old value back. *)
Theorem hash_delete_resurrects :
  (h ← insert_all cfg32 1 two_keys (alc_hash_make 8);
   h ← alc_hash_delete cfg32 1 h;
   h ← insert_all cfg32 1 [(9, 99)] h;
   new ← alc_hash_fetch cfg32 9 h;
   h ← alc_hash_delete cfg32 9 h;
   old ← alc_hash_fetch cfg32 9 h;
   Some (new, old)) = Some (99, 90).
Proof. reflexivity. Qed.

(** ** Witnesses *)

Definition sample_kvs : list (Z * Z) := [(7, 70); (1, 10); (9, 90); (7, 71); (17, 170); (33, 5)].

Lemma sample_kvs_ok : Forall (fun kv => 0 < kv.1 <= 33 /\ 0 <= kv.2 < 2 ^ h_vw cfg16) sample_kvs.
Proof. repeat constructor; cbn; lia. Qed.

Lemma hash_table_correct_witness :
  exists ht, insert_all cfg16 34 sample_kvs (alc_hash_make 2) = Some ht /\
    (hash_width cfg16 ht -> forall k, 0 < k < 2 ^ 16 ->
       alc_hash_fetch cfg16 k ht =
         Some (match last_val sample_kvs k with Some v => v | None => 0 end)).
Proof.
  apply (hash_table_correct cfg16 33 34 sample_kvs);
    [auto|lia|cbn; lia|lia|apply sample_kvs_ok].
Defined.

Definition sample_ht : ahash :=
  match insert_all cfg16 34 sample_kvs (alc_hash_make 2) with
  | Some ht => ht
  | None => alc_hash_make 2
  end.

Lemma hash_delete_correct_witness :
  exists ht', alc_hash_delete cfg16 7 sample_ht = Some ht' /\
    forall k', 0 < k' < 2 ^ 16 ->
      alc_hash_fetch cfg16 k' ht' =
        if decide (k' = 7) then Some 0 else alc_hash_fetch cfg16 k' sample_ht.
Proof.
  apply (hash_delete_correct cfg16 33 34 sample_kvs sample_ht 7);
    [auto|lia|cbn; lia|lia|apply sample_kvs_ok|reflexivity| |cbn; lia].
  right. split; [done|]. vm_compute. discriminate.
Defined.
