(* ===== verification/Row.v ===== *)
(** * Rows ([DB/row.c], the writing and reading of rows)

    A row holds the columns after the primary key.  A normal row is
    [flag | ncols | offsets | data], a sparse row
    [flag | rlen | ncols | hash table | data]; the flag byte gives the width of
    the offsets, the compression of the TEXT columns and the kind of row.
    [createRow] parses the text of an INSERT, [writeRow] lays the row out,
    [getRawCol] reads one column back.  Where the C code reads what nobody wrote
    the model returns [None]; [Some None] is the NULL return. *)

From S2P Require Import Prelude Stream SixBit Hash CStr.

(** ** Data *)

Inductive ctype := C_INT | C_LONG | C_U128 | C_FLOAT | C_STRING | C_LUAO.

Definition C_IS_S (c : ctype) : bool := match c with C_STRING => true | _ => false end.
Definition C_IS_O (c : ctype) : bool := match c with C_LUAO => true | _ => false end.

Definition RFLAG_1BYTE_INT : Z := 1.
Definition RFLAG_2BYTE_INT : Z := 2.
Definition RFLAG_4BYTE_INT : Z := 4.
Definition RFLAG_SIZE_FLAG : Z := 7.
Definition RFLAG_6BIT_ZIP : Z := 8.
Definition RFLAG_LZF_ZIP : Z := 16.
Definition RFLAG_HASH16_ROW : Z := 32.
Definition RFLAG_HASH32_ROW : Z := 64.
Definition RFLAG_HASH_ROW : Z := 96.
Definition MIN_NUM_COLS_FOR_HASH_ROW : Z := 100.

Definition CZIP_NONE : Z := 0.
Definition CZIP_SIX : Z := 1.
Definition CZIP_LZF : Z := 2.

(** What [createRow] collects for one column; [strs] are the [slens] bytes. *)
Record crd_t := Crd {
  strs : list Z;
  icols : Z;
  iflags : Z;
  xcols : Z;
  fcols : Z;
  fflags : bool;
  empty : bool;
  mcofsts : Z;
}.
Definition slens (c : crd_t) : Z := Z.of_nat (length (strs c)).
Definition set_mcofsts (c : crd_t) (v : Z) : crd_t :=
  Crd (strs c) (icols c) (iflags c) (xcols c) (fcols c) (fflags c) (empty c) v.

(** A column of the row under construction: its type and its data.  The list of
    them is [crd[1 ..]] with [Tbl[tmatch].col[1 ..]]. *)
Abbreviation column := (ctype * crd_t)%type.

Record cr_t := Cr { cols : list column; rlen : Z; cnt : Z }.
Definition ncols (cr : cr_t) : Z := Z.of_nat (length (cols cr)) + 1.

(** ** Layout *)

Definition assign_rflag (rlen ztype : Z) : Z :=
  (if rlen <? UCHAR_MAX then RFLAG_1BYTE_INT
   else if rlen <? USHRT_MAX then RFLAG_2BYTE_INT
   else RFLAG_4BYTE_INT) +
  (if ztype =? CZIP_SIX then RFLAG_6BIT_ZIP
   else if ztype =? CZIP_LZF then RFLAG_LZF_ZIP
   else 0).

Definition rawUintWriteToRow (val : Z) : list Z :=
  let c := cr8Icol val in writeUIntCol (sflag c) (col c).

Definition set_col_offst (rflag cofst : Z) : list Z :=
  if has rflag RFLAG_1BYTE_INT then le_bytes 1 cofst
  else if has rflag RFLAG_2BYTE_INT then le_bytes 2 cofst
  else le_bytes 4 cofst.

(** The bytes written before the offsets, and the bytes allocated. *)
Definition createRowBlob (ncols rflag rlen : Z) : list Z * Z :=
  (rflag :: rawUintWriteToRow (ncols - 1),
   1 + getCSize (ncols - 1) true + ncols * rflag + rlen).

(** ** Hash rows *)

(** A table in memory: the header, with padding and a null [entries] pointer,
    then the entries. *)
Definition ent_bytes (c : hcfg) (e : ahash_entry) : list Z :=
  le_bytes (Z.to_nat (h_nw c / 8)) (n_colijns e) ++
  le_bytes (Z.to_nat (h_kw c / 8)) (e_key e) ++
  le_bytes (Z.to_nat (h_vw c / 8)) (e_val e).
Definition ht_bytes (c : hcfg) (ht : ahash) (ptr : Z) : list Z :=
  le_bytes 4 (nvalid ht) ++ le_bytes 4 (Z.of_nat (nentries ht)) ++
  le_bytes 4 (max_colijns ht) ++ le_bytes 4 0 ++ le_bytes 8 ptr ++
  concat (ent_bytes c <$> entries ht).

(** Insert every filled column [i] with its offset and that of column [i - 1]. *)
Fixpoint hash_cols (c : hcfg) (mult : Z) (fuel : nat) (cols : list column) (i prev : Z)
    (ht : ahash) : option ahash :=
  match cols with
  | [] => Some ht
  | (_, d) :: cols' =>
      ht ← (if empty d then Some ht
            else option_map snd
                   (alc_hash_insert c fuel i (mcofsts d + prev * mult) ht));
      hash_cols c mult fuel cols' (i + 1) (mcofsts d) ht
  end.

(** [createHash16Row] and [createHash32Row]: the bytes before the data, and the
    flag, or NULL when the table is not worth its space.  [msize > hsize * 1.2]
    is written on integers. *)
Definition createHashNRow (c : hcfg) (mult flag : Z) (cr : cr_t) (rflag msize : Z)
    : option (option (list Z * Z)) :=
  ht ← hash_cols c mult (S (Z.to_nat (ncols cr))) (cols cr) 1 0 (alc_hash_make 2);
  let hsize := alc_hash_size c ht in
  if 6 * hsize <? 5 * msize then
    let rflag := Z.lor rflag flag in
    Some (Some (rflag :: rawUintWriteToRow (rlen cr) ++ rawUintWriteToRow (ncols cr - 1)
                  ++ ht_bytes c ht 0, rflag))
  else Some None.
Definition createHash16Row := createHashNRow cfg16 USHRT_MAX RFLAG_HASH16_ROW.
Definition createHash32Row := createHashNRow cfg32 UINT_MAX RFLAG_HASH32_ROW.

(** [ncols * 0.25 < cnt] is written on integers. *)
Definition createHashRow (cr : cr_t) (rflag : Z) : option (option (list Z * Z)) :=
  if (ncols cr <? MIN_NUM_COLS_FOR_HASH_ROW) || (ncols cr <? 4 * cnt cr) then Some None
  else
    let sflag := Z.land rflag RFLAG_SIZE_FLAG in
    let use16 := negb (has rflag RFLAG_4BYTE_INT) && (ncols cr <? USHRT_MAX) in
    let msize := u32 (ncols cr * sflag) in
    if use16 then createHash16Row cr rflag msize else createHash32Row cr rflag msize.

(** ** Compression of the TEXT columns

    [lzf_compress src out_len] and [lzf_decompress src out_len] are the LZF
    library; [None] is its failure to fit. *)

Record zip_t := Zip {
  z_type : Z;
  z_six : list (list Z * Z);
  z_lzf : list (icol * list Z);
}.

Definition contains_text_col (cols : list column) : bool :=
  existsb (fun c => C_IS_S c.1) cols.

Definition compression_justified (tlen mtlen : Z) : bool := mtlen <? tlen.

Section Lzf.
Context (lzf_compress : list Z -> Z -> option (list Z)).
Context (lzf_decompress : list Z -> Z -> list Z).
(** The Lua side of a LUAOBJ column: whether the assignment succeeded. *)
Context (writeLuaTblCol : list Z -> bool).

(** One column: the header with the original length, and the compressed bytes. *)
Definition lzfZipCol (s : list Z) : option (icol * list Z) :=
  let len := Z.of_nat (length s) in
  z ← lzf_compress s (Z.max 4 (u32 (len + 4)));
  Some (cr8Icol len, z).

(** The LZF loop: the sums of lengths and the columns compressed so far; the
    first column that does not compress ends it. *)
Fixpoint lzf_cols (cols : list column) (tlen mtlen : Z) (czd : list (icol * list Z))
    : Z * Z * list (icol * list Z) :=
  match cols with
  | [] => (tlen, mtlen, czd)
  | (t, d) :: cols' =>
      if C_IS_S t then
        let tlen := u32 (tlen + slens d) in
        match lzfZipCol (strs d) with
        | None => (tlen, mtlen, czd)
        | Some z => lzf_cols cols' tlen
                      (u32 (mtlen + csize z.1 + Z.of_nat (length z.2))) (czd ++ [z])
        end
      else lzf_cols cols' tlen mtlen czd
  end.

(** The six-bit loop; the packer sees the bytes as signed [char]s. *)
Fixpoint six_cols (cols : list column) (czd : list (list Z * Z))
    : option (option (list (list Z * Z))) :=
  match cols with
  | [] => Some (Some czd)
  | (t, d) :: cols' =>
      if C_IS_S t then
        r ← _createSixBit (swrap 8 <$> strs d);
        match r with
        | None => Some None
        | Some z => six_cols cols' (czd ++ [z])
        end
      else six_cols cols' czd
  end.

(** How much the [k]-th TEXT column shrinks; [None] when its compressed form was
    never made. *)
Definition zip_diff (z : zip_t) (k : nat) (d : crd_t) : option Z :=
  if z_type z =? CZIP_SIX then
    s ← z_six z !! k; Some (s32 (slens d - s.2))
  else if z_type z =? CZIP_LZF then
    s ← z_lzf z !! k; Some (s32 (slens d - (csize s.1 + Z.of_nat (length s.2))))
  else Some 0.

(** The last loop of [zipCol]: correct the offsets and the row length. *)
Fixpoint mod_cofsts (z : zip_t) (cols : list column) (k : nat) (shrunk rlen : Z)
    : option (list column * Z) :=
  match cols with
  | [] => Some ([], rlen)
  | (t, d) :: cols' =>
      diff ← (if C_IS_S t then zip_diff z k d else Some 0);
      let shrunk := u32 (shrunk + diff) in
      '(rest, rl) ← mod_cofsts z cols' (if C_IS_S t then S k else k) shrunk (u32 (rlen - diff));
      Some ((t, set_mcofsts d (s32 (mcofsts d - shrunk))) :: rest, rl)
  end.

Definition zipCol (cr : cr_t) : option (cr_t * zip_t) :=
  let long := existsb (fun c => C_IS_S c.1 && (20 <? slens c.2)) (cols cr) in
  let '(type, lzf) :=
    if long then
      let '(tlen, mtlen, czd) := lzf_cols (cols cr) 0 0 [] in
      (if compression_justified tlen mtlen then CZIP_LZF else CZIP_SIX, czd)
    else (CZIP_SIX, []) in
  six ← (if type =? CZIP_SIX then six_cols (cols cr) [] else Some (Some []));
  match six with
  | None => Some (cr, Zip CZIP_NONE [] lzf)
  | Some six =>
      let z := Zip type six lzf in
      '(cs, rl) ← mod_cofsts z (cols cr) 0 0 (rlen cr);
      Some (Cr cs rl (cnt cr), z)
  end.

(** ** Writing *)

Definition writeLzfCol (z : icol * list Z) : list Z :=
  take (Z.to_nat (csize z.1)) (le_bytes 8 (col z.1)) ++ z.2.

(** The bytes of a TEXT column, the [k]-th of the row. *)
Definition text_bytes (z : zip_t) (k : nat) (d : crd_t) : option (list Z) :=
  if z_type z =? CZIP_SIX then
    s ← z_six z !! k; Some (take (Z.to_nat s.2) s.1)
  else if z_type z =? CZIP_LZF then
    s ← z_lzf z !! k; Some (writeLzfCol s)
  else Some (strs d).

(** The bytes of one column; [Some None] is a failed Lua assignment. *)
Definition col_bytes (z : zip_t) (k : nat) (t : ctype) (d : crd_t)
    : option (option (list Z)) :=
  match t with
  | C_INT => Some (Some (writeUIntCol (iflags d) (icols d)))
  | C_LONG => Some (Some (writeULongCol (iflags d) (icols d)))
  | C_U128 => Some (Some (writeU128Col (xcols d)))
  | C_FLOAT => Some (Some (writeFloatCol (fflags d) (fcols d)))
  | C_LUAO => Some (if (slens d =? 0) || writeLuaTblCol (strs d) then Some [] else None)
  | C_STRING => option_map Some (text_bytes z k d)
  end.

Fixpoint write_cols (z : zip_t) (k : nat) (cols : list column)
    : option (option (list Z)) :=
  match cols with
  | [] => Some (Some [])
  | (t, d) :: cols' =>
      b ← col_bytes z k t d;
      match b with
      | None => Some None
      | Some b =>
          rest ← write_cols z (if C_IS_S t then S k else k) cols';
          Some (option_map (app b) rest)
      end
  end.

(** The row before its data, and its flag. *)
Definition row_header (cr : cr_t) (z : zip_t) : option (list Z * Z) :=
  let rflag := assign_rflag (rlen cr) (z_type z) in
  h ← createHashRow cr rflag;
  match h with
  | Some h => Some h
  | None =>
      Some ((createRowBlob (ncols cr) rflag (rlen cr)).1
              ++ concat ((fun c => set_col_offst rflag (mcofsts c.2)) <$> cols cr), rflag)
  end.

Definition writeRow (GlobalZipSwitch : bool) (cr : cr_t) : option (option (list Z)) :=
  '(cr, z) ← (if contains_text_col (cols cr) && GlobalZipSwitch
              then zipCol cr else Some (cr, Zip CZIP_NONE [] []));
  '(header, _) ← row_header cr z;
  data ← write_cols z 0 (cols cr);
  Some (option_map (app header) data).
End Lzf.

(** ** Reading *)

(** The entries of a table in memory. *)
Fixpoint read_entries (c : hcfg) (n : nat) (bs : list Z) : option (list ahash_entry) :=
  match n with
  | O => Some []
  | S n' =>
      let a := Z.to_nat (h_nw c / 8) in
      let b := Z.to_nat (h_kw c / 8) in
      let v := Z.to_nat (h_vw c / 8) in
      nc ← load a bs;
      key ← load b (drop a bs);
      val ← load v (drop (a + b) bs);
      rest ← read_entries c n' (drop (Z.to_nat (h_esize c)) bs);
      Some (AEnt nc key val :: rest)
  end.

(** [SIMULATE_HT_ENTRIES] and the load of the table at [off] of the row at
    address [addr]: a null [entries] pointer is replaced, in the row, by the
    address after the header; any other value is followed, and memory outside
    the row is [None]. *)
Definition row_table (c : hcfg) (addr : Z) (orow : list Z) (off : nat)
    : option (ahash * list Z) :=
  let ht := drop off orow in
  nv ← load 4 ht;
  n ← load 4 (drop 4 ht);
  mx ← load 4 (drop 8 ht);
  ptr ← load 8 (drop 16 ht);
  let own := addr + Z.of_nat off + sizeof_ahash in
  let ents := if ptr =? 0 then own else ptr in
  if ents =? own then
    es ← read_entries c (Z.to_nat n) (drop 24 ht);
    Some (AHash nv mx es,
          take (off + 16) orow ++ le_bytes 8 ents ++ drop (off + 24) orow)
  else None.

(** What [getRowPayload] finds: the offset of the data and the three values it
    stores through its pointers. *)
Record payload := Payload { p_row : nat; p_rflag : Z; p_ncols : Z; p_rlen : Z }.

Definition getRowPayload (orow : list Z) : option payload :=
  rflag ← orow !! 0%nat;
  if has rflag RFLAG_HASH_ROW then
    '(rlen, c1) ← streamIntToUInt (drop 1 orow);
    '(nc, c2) ← streamIntToUInt (drop (1 + Z.to_nat c1) orow);
    let off := (1 + Z.to_nat c1 + Z.to_nat c2)%nat in
    n ← load 4 (drop (off + 4) orow);
    let size := u32 (n * (if has rflag RFLAG_HASH32_ROW then h_esize cfg32 else h_esize cfg16)
                       + sizeof_ahash) in
    let row := (off + Z.to_nat size)%nat in
    Some (Payload row rflag nc (u32 (rlen + Z.of_nat row)))
  else
    let sflag := Z.land rflag RFLAG_SIZE_FLAG in
    '(nc, c1) ← streamIntToUInt (drop 1 orow);
    let row := (1 + Z.to_nat c1 + Z.to_nat (u32 (nc * sflag)))%nat in
    rlen ← (if has rflag RFLAG_1BYTE_INT then load 1 (drop (row - 1) orow)
            else if has rflag RFLAG_2BYTE_INT then load 2 (drop (row - 2) orow)
            else load 4 (drop (row - 4) orow));
    Some (Payload row rflag nc (u32 (rlen + Z.of_nat row))).

Definition getRowMallocSize (stream : option (list Z)) : option Z :=
  match stream with
  | None => Some 8
  | Some s => p ← getRowPayload s; Some (p_rlen p)
  end.

(** The offset of the table of a hash row. *)
Definition getHashFromRow (orow : list Z) : option nat :=
  '(_, c1) ← streamIntToUInt (drop 1 orow);
  '(_, c2) ← streamIntToUInt (drop (1 + Z.to_nat c1) orow);
  Some (1 + Z.to_nat c1 + Z.to_nat c2)%nat.

(** The offset array entry [j] of a normal row. *)
Definition get_cofst (rflag : Z) (cofst : list Z) (j : Z) : option Z :=
  if j <? 0 then None
  else if has rflag RFLAG_1BYTE_INT then load 1 (drop (Z.to_nat j) cofst)
  else
    let sflag := Z.land rflag RFLAG_SIZE_FLAG in
    if has rflag RFLAG_2BYTE_INT then load 2 (drop (Z.to_nat (j * sflag)) cofst)
    else load 4 (drop (Z.to_nat (j * sflag)) cofst).

(** Where a column's bytes start, their number, the flag, and the row as the
    read leaves it. *)
Record coldata := ColData { cd_start : nat; cd_clen : Z; cd_rflag : Z; cd_row : list Z }.

Definition hash_coldata (c : hcfg) (mult w : Z) (addr : Z) (orow : list Z) (cmatch : Z)
    (p : payload) : option coldata :=
  off ← getHashFromRow orow;
  '(ht, orow) ← row_table c addr orow off;
  val ← alc_hash_fetch c cmatch ht;
  let start := uwrap w (val / mult) in
  let next := uwrap w (val mod mult) in
  Some (ColData (p_row p + Z.to_nat start) (u32 (next - start)) (p_rflag p) orow).

(** [cmatch] is at least [1]; the row is at address [addr]. *)
Definition getColData (addr : Z) (orow : list Z) (cmatch : Z) : option coldata :=
  p ← getRowPayload orow;
  let rflag := p_rflag p in
  if p_ncols p <? cmatch then Some (ColData (p_row p) 0 rflag orow)
  else if has rflag RFLAG_HASH32_ROW then hash_coldata cfg32 UINT_MAX 32 addr orow cmatch p
  else if has rflag RFLAG_HASH16_ROW then hash_coldata cfg16 USHRT_MAX 16 addr orow cmatch p
  else
    let mcmatch := cmatch - 1 in
    let cofst := drop (Z.to_nat (1 + getCSize (u32 (p_ncols p - 1)) true)) orow in
    start ← (if mcmatch =? 0 then Some 0 else get_cofst rflag cofst (mcmatch - 1));
    next ← get_cofst rflag cofst mcmatch;
    Some (ColData (p_row p + Z.to_nat start) (u32 (next - start)) rflag orow).

(** The value of a column; [V_LUAO] is answered by Lua. *)
Inductive colval :=
| V_EMPTY
| V_INT (i : Z)
| V_LONG (l : Z)
| V_U128 (x : Z)
| V_FLOAT (f : Z)
| V_STRING (s : list Z)
| V_LUAO.

Section GetCol.
Context (lzf_decompress : list Z -> Z -> list Z).

Definition streamLZFTextToString (s : list Z) (len : Z) : option (list Z) :=
  '(oclen, clen) ← streamIntToUInt s;
  let llen := len - clen in
  z ← slice s (Z.to_nat clen) (Z.to_nat llen);
  Some (lzf_decompress z oclen).

(** The part of [getRawCol] that decodes the bytes found; [mem] is the fresh
    buffer of the six-bit unpacker. *)
Definition decode_col (mem : list Z) (rflag : Z) (t : ctype) (data : list Z) (clen : Z)
    : option colval :=
  if (clen =? 0) && negb (C_IS_O t) then Some V_EMPTY
  else match t with
  | C_INT => '(i, _) ← streamIntToUInt data; Some (V_INT i)
  | C_LONG => '(l, _) ← streamLongToULong data; Some (V_LONG l)
  | C_U128 => '(x, _) ← streamToU128 data; Some (V_U128 x)
  | C_FLOAT => '(f, _) ← streamFloatToFloat data; Some (V_FLOAT f)
  | C_LUAO => Some V_LUAO
  | C_STRING =>
      s ← (if has rflag RFLAG_6BIT_ZIP then unpackSixBit mem data clen
           else if has rflag RFLAG_LZF_ZIP then streamLZFTextToString data clen
           else slice data 0 (Z.to_nat clen));
      Some (V_STRING s)
  end.

(** [getRawCol] of a column kept in the row: its value, and the row as the read
    leaves it. *)
Definition getRawCol (mem : list Z) (addr : Z) (orow : list Z) (t : ctype) (cmatch : Z)
    : option (colval * list Z) :=
  cd ← getColData addr orow cmatch;
  v ← decode_col mem (cd_rflag cd) t (drop (cd_start cd) (cd_row cd)) (cd_clen cd);
  Some (v, cd_row cd).
End GetCol.

(** ** Creating a row from the text of an INSERT *)

(** The table: the types of columns [1 ..], the LRU and LFU columns if any. *)
Record r_tbl_t := Tbl {
  coltypes : list ctype;
  lruc : option nat;
  lfuc : option nat;
}.

Definition zero_crd : crd_t := Crd [] 0 0 0 0 false false 0.

(** [strToULong], [cr8IcolFromStr], [cr8LcolFromStr]: [None] is the error
    return; the number of bytes comes with flag and value. *)
Definition strToULong (s : list Z) (isi : bool) : option Z :=
  if 31 <=? Z.of_nat (length s) then None
  else
    let m := strtoul (cstring s) in
    if isi && (TWO_POW_32 <=? m) then None else Some m.
Definition cr8IcolFromStr (s : list Z) : option icol :=
  if (length s =? 0)%nat then Some (Icol 0 0 0)
  else l ← strToULong s true; Some (cr8Icol l).
Definition cr8LcolFromStr (s : list Z) : option icol :=
  if (length s =? 0)%nat then Some (Icol 0 0 0)
  else l ← strToULong s false; Some (cr8Lcol l).

(** [parseU128n] of the [len] bytes at [i]; the two halves are read to the first
    non-digit, wherever the column ends. *)
Definition parseU128n (buf : list Z) (i len : nat) : option (option Z) :=
  s ← slice buf i len;
  match list_find (fun c => c = 124) s with
  | None => Some None
  | Some (p, _) =>
      let c := (i + p + 1)%nat in
      b ← buf !! c;
      if b =? 0 then Some None
      else
        let high := strtoul (cstring (drop i buf)) in
        let low := strtoul (cstring (drop c buf)) in
        Some (Some (low + high * 2 ^ 64))
  end.

Section CreateRow.
Context (atof : list Z -> Z).

Definition strToFloat (s : list Z) : option (Z * Z) :=
  if 31 <=? Z.of_nat (length s) then None
  else if (length s =? 0)%nat then Some (0, 0)
  else Some (atof (cstring s), 4).

(** The slice of the buffer that holds column [i, j): leading blanks skipped,
    trailing blanks dropped when the byte at [j] is blank. *)
Definition col_slice (vals : list Z) (i j : nat) : option (nat * Z) :=
  st ← SKIP_SPACES vals i;
  e ← vals !! j;
  mend ← (if ISBLANK e then REV_SKIP_SPACES vals j else Some j);
  Some (st, Z.of_nat j - Z.of_nat i - (Z.of_nat st - Z.of_nat i) - (Z.of_nat j - Z.of_nat mend)).

(** One user column: its data before the offset is set, and the bytes it will
    take; [Some None] is an error reply. *)
Definition fill_col (vals : list Z) (t : ctype) (o : Z * Z) : option (option (crd_t * Z)) :=
  let em := o.1 =? -1 in
  '(st, len) ← (if em then Some (0%nat, 0) else col_slice vals (Z.to_nat o.1) (Z.to_nat o.2));
  match t with
  | C_STRING =>
      if em then Some (Some (Crd [] 0 0 0 0 false true 0, 0))
      else if len <? 2 then None
      else
        s ← slice vals (st + 1) (Z.to_nat (len - 2));
        Some (Some (Crd s 0 0 0 0 false false 0, len - 2))
  | C_LUAO =>
      if em then Some (Some (Crd [39; 39] 0 0 0 0 false true 0, 0))
      else if len <? 0 then None
      else s ← slice vals st (Z.to_nat len); Some (Some (Crd s 0 0 0 0 false false 0, 0))
  | _ =>
      if len <? 0 then None
      else
        s ← (if em then Some [] else slice vals st (Z.to_nat len));
        match t with
        | C_INT =>
            match cr8IcolFromStr s with
            | None => Some None
            | Some c => Some (Some (Crd s (col c) (sflag c) 0 0 false em 0, csize c))
            end
        | C_LONG =>
            match cr8LcolFromStr s with
            | None => Some (Some (Crd s 0 0 0 0 false em 0, -1))
            | Some c => Some (Some (Crd s (col c) (sflag c) 0 0 false em 0, csize c))
            end
        | C_U128 =>
            if (length s =? 0)%nat then Some (Some (Crd s 0 0 0 0 false em 0, 0))
            else
              x ← parseU128n vals st (length s);
              match x with
              | None => Some None
              | Some x => Some (Some (Crd s 0 0 x 0 false em 0, 16))
              end
        | _ =>
            match strToFloat s with
            | None => Some None
            | Some (f, n) => Some (Some (Crd s 0 0 0 f (negb (n =? 0)) em 0, n))
            end
        end
  end.

Definition lru_crd (lru : Z) : crd_t * Z :=
  let c := cLRUcol lru in (Crd [] (col c) (sflag c) 0 0 false false 0, csize c).
Definition lfu_crd : crd_t * Z :=
  let c := cLFUcol 1 in (Crd [] (col c) (sflag c) 0 0 false false 0, csize c).

(** The loop over columns [i ..] with their types and slices. *)
Fixpoint fill_cols (rt : r_tbl_t) (lru : Z) (vals : list Z) (i : nat)
    (ts : list (ctype * (Z * Z))) (rlen cnt : Z) : option (option (list column * Z * Z)) :=
  match ts with
  | [] => Some (Some ([], rlen, cnt))
  | (t, o) :: ts' =>
      let isr := bool_decide (lruc rt = Some i) in
      let isf := bool_decide (lfuc rt = Some i) in
      r ← (if isr then Some (Some (lru_crd lru))
           else if isf then Some (Some lfu_crd)
           else fill_col vals t o);
      match r with
      | None => Some None
      | Some (d, nclen) =>
          let rlen := u32 (rlen + nclen) in
          let cnt := if isr || isf || empty d then cnt else cnt + 1 in
          rest ← fill_cols rt lru vals (S i) ts' rlen cnt;
          match rest with
          | None => Some None
          | Some (cs, rl, cn) =>
              Some (Some ((t, set_mcofsts d (s32 rlen)) :: cs, rl, cn))
          end
      end
  end.

(** The number of columns up to the last one given. *)
Fixpoint filled (cofsts : list (Z * Z)) (i n : nat) : nat :=
  match cofsts with
  | [] => n
  | o :: cofsts' => filled cofsts' (S i) (if o.1 =? -1 then n else S i)
  end.

Definition row_ncols (rt : r_tbl_t) (cofsts : list (Z * Z)) : nat :=
  let n := filled cofsts 0 0 in
  let n := match lruc rt with Some c => if (n <=? c)%nat then S c else n | None => n end in
  match lfuc rt with Some c => if (n <=? c)%nat then S c else n | None => n end.

(** [createRow] on a table whose keys live apart from its rows; [cofsts] has one
    slice per column, the key's first, [(-1, -1)] for a column not given. *)
Definition createRow_data (rt : r_tbl_t) (lru : Z) (vals : list Z) (cofsts : list (Z * Z))
    : option (option cr_t) :=
  match row_ncols rt cofsts with
  | O => None
  | S n =>
      let ts := take n (zip (coltypes rt) (tail cofsts)) in
      r ← fill_cols rt lru vals 1 ts 0 0;
      match r with
      | None => Some None
      | Some (cs, rl, cn) => Some (Some (Cr cs rl cn))
      end
  end.
End CreateRow.

Definition createRow (lzf_compress : list Z -> Z -> option (list Z))
    (writeLuaTblCol : list Z -> bool) (atof : list Z -> Z) (GlobalZipSwitch : bool)
    (rt : r_tbl_t) (lru : Z) (vals : list Z) (cofsts : list (Z * Z))
    : option (option (list Z)) :=
  cr ← createRow_data atof rt lru vals cofsts;
  match cr with
  | None => Some None
  | Some cr => writeRow lzf_compress writeLuaTblCol GlobalZipSwitch cr
  end.
