(* ===== verification/RowLayout.v ===== *)
(** * The layout of rows ([DB/row.c])

    What [zipCol], [writeRow] and [getRawCol] promise each other: the offsets
    of a row under construction, the offsets after compression, and the value
    read back for every column. *)

From S2P Require Import Prelude Stream SixBit Hash CStr Row.

(** ** The lengths [createRow] accounts for *)

Definition raw_len (t : ctype) (d : crd_t) : Z :=
  match t with
  | C_INT => Z.of_nat (length (writeUIntCol (iflags d) (icols d)))
  | C_LONG => Z.of_nat (length (writeULongCol (iflags d) (icols d)))
  | C_U128 => if empty d then 0 else 16
  | C_FLOAT => Z.of_nat (length (writeFloatCol (fflags d) (fcols d)))
  | C_STRING => slens d
  | C_LUAO => 0
  end.

Fixpoint total_len (cols : list column) : Z :=
  match cols with
  | [] => 0
  | (t, d) :: cs => raw_len t d + total_len cs
  end.

(** Every offset is the end of its column, uncompressed. *)
Fixpoint raw_laid (off : Z) (cols : list column) : Prop :=
  match cols with
  | [] => True
  | (t, d) :: cs => mcofsts d = off + raw_len t d /\ raw_laid (off + raw_len t d) cs
  end.

(** Every offset is the end of the bytes [bs] written for its column. *)
Fixpoint laid (off : Z) (cols : list column) (bs : list (list Z)) : Prop :=
  match cols, bs with
  | [], [] => True
  | (t, d) :: cs, b :: bs' =>
      mcofsts d = off + Z.of_nat (length b) /\ laid (off + Z.of_nat (length b)) cs bs'
  | _, _ => False
  end.

Definition same_data (a b : column) : Prop :=
  b.1 = a.1 /\ b.2 = set_mcofsts a.2 (mcofsts b.2).

Lemma same_data_refl cols : Forall2 same_data cols cols.
Proof. induction cols as [|[t d] cs IH]; constructor; [|done]. split; [done|]. by destruct d. Qed.

Section Emitted.
Context (writeLuaTblCol : list Z -> bool).

(** [bs] are the bytes of the columns, and the lengths that [zipCol] takes off
    the offsets are the ones the compression saves. *)
Fixpoint emitted (z : zip_t) (k : nat) (cols : list column) (bs : list (list Z)) : Prop :=
  match cols, bs with
  | [], [] => True
  | (t, d) :: cs, b :: bs' =>
      col_bytes writeLuaTblCol z k t d = Some (Some b) /\
      (if C_IS_S t then zip_diff z k d = Some (slens d - Z.of_nat (length b))
       else raw_len t d = Z.of_nat (length b)) /\
      emitted z (if C_IS_S t then S k else k) cs bs'
  | _, _ => False
  end.

Lemma total_len_nonneg cols : 0 <= total_len cols.
Proof.
  induction cols as [|[t d] cs IH]; cbn; [lia|].
  assert (0 <= raw_len t d); [|lia]. unfold raw_len, slens.
  destruct t; try destruct (empty d); lia.
Qed.

Lemma raw_len_nonneg t d : 0 <= raw_len t d.
Proof. pose proof (total_len_nonneg [(t, d)]). cbn in *. lia. Qed.

Lemma s32_eq x y : x mod 2 ^ 32 = y mod 2 ^ 32 -> - 2 ^ 31 <= y < 2 ^ 31 -> s32 x = y.
Proof.
  intros E Hy. rewrite <- (swrap_small 32 y) by lia. unfold swrap, uwrap. by rewrite E.
Qed.

Lemma emitted_concat z : forall cols bs k,
  emitted z k cols bs -> write_cols writeLuaTblCol z k cols = Some (Some (concat bs)).
Proof.
  induction cols as [|[t d] cs IH]; intros [|b bs] k; cbn [emitted]; try done.
  intros (Hb & _ & Hr). cbn [write_cols]. rewrite Hb. cbn [mbind option_bind].
  by rewrite (IH bs _ Hr).
Qed.

(** The column bytes do not depend on the offset. *)
Lemma emitted_same z : forall cols cols' bs k,
  Forall2 same_data cols cols' -> emitted z k cols bs -> emitted z k cols' bs.
Proof.
  induction cols as [|[t d] cs IH]; intros cols' bs k HF He.
  - by inversion HF; subst.
  - inversion HF as [|? [t' d'] ? ? [Et Ed] HF']; subst. cbn in Et, Ed. subst t'.
    destruct bs as [|b bs]; [done|]. cbn [emitted] in *.
    destruct He as (Hb & Hl & Hr). split_and!.
    + rewrite Ed. by destruct t.
    + rewrite Ed. by destruct t.
    + by apply IH.
Qed.

(** [mod_cofsts] turns the uncompressed offsets into those of the bytes
    written, and takes what the compression saves off the row length. *)
Lemma mod_cofsts_ok z : forall cols bs k off sh rl,
  emitted z k cols bs -> raw_laid off cols ->
  0 <= off - sh -> off - sh + Z.of_nat (length (concat bs)) < 2 ^ 31 ->
  0 <= off -> off + total_len cols < 2 ^ 31 ->
  exists cols', mod_cofsts z cols k (u32 sh) (u32 rl)
      = Some (cols', u32 (rl - total_len cols + Z.of_nat (length (concat bs)))) /\
    laid (off - sh) cols' bs /\ Forall2 same_data cols cols'.
Proof.
  induction cols as [|[t d] cs IH]; intros [|b bs] k off sh rl He Hl H1 H2 H3 H4; cbn in He; try done.
  { exists []. split_and!; [cbn; do 2 f_equal; wrap_eq|done|constructor]. }
  destruct He as (_ & Hd & Hr). destruct Hl as [Hm Hl]. cbn [total_len concat] in *.
  rewrite length_app in *. pose proof (total_len_nonneg cs). pose proof (raw_len_nonneg t d).
  assert (Hdiff : (if C_IS_S t then zip_diff z k d else Some 0)
                  = Some (raw_len t d - Z.of_nat (length b))).
  { destruct t; cbn in Hd |- *; first [exact Hd | f_equal; lia]. }
  cbn [mod_cofsts]. rewrite Hdiff. cbn [mbind option_bind].
  set (df := raw_len t d - Z.of_nat (length b)) in *.
  rewrite uwrap_add_l, uwrap_sub_l.
  destruct (IH bs (if C_IS_S t then S k else k) (off + raw_len t d) (sh + df) (rl - df) Hr Hl)
    as (cs' & -> & Hl' & HF'); [lia..|].
  eexists. split; [cbn [mbind option_bind]; do 3 f_equal; lia|].
  rewrite Hm. rewrite (s32_eq _ (off - sh + Z.of_nat (length b))); [|unfold uwrap; rewrite Zminus_mod_idemp_r; f_equal; lia|lia].
  split.
  - split; [done|]. by replace (off - sh + Z.of_nat (length b)) with (off + raw_len t d - (sh + df)) by lia.
  - constructor; [done|exact HF'].
Qed.
End Emitted.

Lemma raw_total writeLua z : forall cols bs k,
  emitted writeLua z k cols bs -> z_type z = CZIP_NONE ->
  total_len cols = Z.of_nat (length (concat bs)).
Proof.
  induction cols as [|[t d] cs IH]; intros [|b bs] k He Hz; cbn in He; try done.
  destruct He as (_ & Hd & Hr). cbn [total_len concat]. rewrite length_app.
  rewrite (IH bs (if C_IS_S t then S k else k)) by done.
  assert (E : raw_len t d = Z.of_nat (length b)); [|lia].
  destruct t; cbn in Hd |- *; try exact Hd. unfold zip_diff in Hd. rewrite Hz in Hd.
  cbn in Hd. injection Hd. lia.
Qed.

Lemma laid_raw writeLua z : forall cols bs k off,
  emitted writeLua z k cols bs -> z_type z = CZIP_NONE -> raw_laid off cols -> laid off cols bs.
Proof.
  induction cols as [|[t d] cs IH]; intros [|b bs] k off He Hz Hl; cbn in He; try done.
  destruct He as (_ & Hd & Hr). destruct Hl as [Hm Hl]. cbn [laid].
  assert (E : raw_len t d = Z.of_nat (length b)).
  { destruct t; cbn in Hd |- *; try exact Hd. unfold zip_diff in Hd. rewrite Hz in Hd.
    cbn in Hd. injection Hd. lia. }
  rewrite <- E. split; [done|]. by apply (IH bs (if C_IS_S t then S k else k)).
Qed.

(** ** What is read back *)

(** An empty TEXT column may read as the empty value. *)
Definition norm (v : colval) : colval :=
  match v with V_STRING [] => V_EMPTY | _ => v end.

Definition mem_ok (mem : list Z) (v : colval) : Prop :=
  match v with V_STRING s => (length s + 2 <= length mem)%nat | _ => True end.

(** The data of a column and the value it stands for, as [fill_col] and the LRU
    and LFU writers make them.  A U128 column must be given: see
    [empty_u128_column].  A TEXT column is ASCII: [_createSixBit], which the row
    tries first, indexes its table with a [char], undefined for other bytes
    ([negative_char_undefined]). *)
Inductive col_ok (writeLua : list Z -> bool) : ctype -> crd_t -> colval -> Prop :=
| ok_int_empty d : iflags d = 0 -> col_ok writeLua C_INT d V_EMPTY
| ok_int d i : 0 <= i < 2 ^ 32 -> iflags d = sflag (cr8Icol i) ->
    icols d = col (cr8Icol i) -> col_ok writeLua C_INT d (V_INT i)
| ok_lru d l : 0 <= l < 2 ^ 29 -> iflags d = sflag (cLRUcol l) -> icols d = col (cLRUcol l) ->
    col_ok writeLua C_INT d (V_INT l)
| ok_lfu d l : 0 <= l < 2 ^ 59 -> iflags d = sflag (cLFUcol l) -> icols d = col (cLFUcol l) ->
    col_ok writeLua C_LONG d (V_LONG l)
| ok_long_empty d : iflags d = 0 -> col_ok writeLua C_LONG d V_EMPTY
| ok_long d l : 0 <= l < 2 ^ 64 -> iflags d = sflag (cr8Lcol l) ->
    icols d = col (cr8Lcol l) -> col_ok writeLua C_LONG d (V_LONG l)
| ok_u128 d : empty d = false -> 0 <= xcols d < 2 ^ 128 ->
    col_ok writeLua C_U128 d (V_U128 (xcols d))
| ok_float_empty d : fflags d = false -> col_ok writeLua C_FLOAT d V_EMPTY
| ok_float d : fflags d = true -> 0 <= fcols d < 2 ^ 32 ->
    col_ok writeLua C_FLOAT d (V_FLOAT (fcols d))
| ok_text d : Forall (fun c => 0 <= c < 128) (strs d) -> slens d < 2 ^ 29 ->
    col_ok writeLua C_STRING d (V_STRING (strs d))
| ok_luao d : slens d = 0 \/ writeLua (strs d) = true -> col_ok writeLua C_LUAO d V_LUAO.

(** The offset of a column is not part of its value. *)
Lemma col_ok_offset writeLua t d v m :
  col_ok writeLua t d v -> col_ok writeLua t (set_mcofsts d m) v.
Proof.
  destruct 1 as [d H|d i H1 H2 H3|d l H1 H2 H3|d l H1 H2 H3|d H|d l H1 H2 H3|d H1 H2|d H|d H1 H2
                |d H1 H2|d H];
    [by apply ok_int_empty|by apply ok_int|by apply ok_lru|by apply ok_lfu|by apply ok_long_empty
    |by apply ok_long|by apply (ok_u128 _ (set_mcofsts d m))|by apply ok_float_empty
    |by apply (ok_float _ (set_mcofsts d m))|by apply (ok_text _ (set_mcofsts d m))
    |by apply ok_luao].
Qed.

Section Stored.
Context (writeLua : list Z -> bool).
Context (lzf_compress : list Z -> Z -> option (list Z)).
Context (lzf_decompress : list Z -> Z -> list Z).

(** [b] decodes to [v] under the flags of the row, whatever follows it. *)
Definition reads (ztype : Z) (t : ctype) (b : list Z) (v : colval) : Prop :=
  forall rflag mem rest,
    has rflag RFLAG_6BIT_ZIP = (ztype =? CZIP_SIX) ->
    has rflag RFLAG_LZF_ZIP = (ztype =? CZIP_LZF) -> mem_ok mem v ->
    norm <$> decode_col lzf_decompress mem rflag t (b ++ rest) (Z.of_nat (length b))
      = Some (norm v).

Fixpoint stored (z : zip_t) (k : nat) (cols : list column) (bs : list (list Z))
    (vs : list colval) : Prop :=
  match cols, bs, vs with
  | [], [], [] => True
  | (t, d) :: cs, b :: bs', v :: vs' =>
      col_bytes writeLua z k t d = Some (Some b) /\
      (if C_IS_S t then zip_diff z k d = Some (slens d - Z.of_nat (length b))
       else raw_len t d = Z.of_nat (length b)) /\
      Z.of_nat (length b) <= raw_len t d + 16 /\
      reads (z_type z) t b v /\
      stored z (if C_IS_S t then S k else k) cs bs' vs'
  | _, _, _ => False
  end.

Lemma stored_emitted z : forall cols bs vs k,
  stored z k cols bs vs -> emitted writeLua z k cols bs.
Proof.
  induction cols as [|[t d] cs IH]; intros [|b bs] [|v vs] k; cbn; try done.
  intros (H1 & H2 & _ & _ & Hr). split_and!; try done. by eapply IH.
Qed.

Lemma stored_same z : forall cols cols' bs vs k,
  Forall2 same_data cols cols' -> stored z k cols bs vs -> stored z k cols' bs vs.
Proof.
  induction cols as [|[t d] cs IH]; intros cols' bs vs k HF He.
  - by inversion HF; subst.
  - inversion HF as [|? [t' d'] ? ? [Et Ed] HF']; subst. cbn in Et, Ed. subst t'.
    destruct bs as [|b bs], vs as [|v vs]; try done. cbn [stored] in *.
    destruct He as (Hb & Hl & Hle & Hrd & Hr). rewrite Ed. split_and!; try done; by apply IH.
Qed.

Lemma stored_length z : forall cols bs vs k,
  stored z k cols bs vs ->
  Z.of_nat (length (concat bs)) <= total_len cols + 16 * Z.of_nat (length cols).
Proof.
  induction cols as [|[t d] cs IH]; intros [|b bs] [|v vs] k; cbn [stored]; try done.
  intros (_ & _ & Hle & _ & Hr). specialize (IH _ _ _ Hr). cbn [concat total_len length].
  rewrite length_app. lia.
Qed.

Lemma reads_len0 ztype t v : C_IS_O t = false -> v = V_EMPTY -> reads ztype t [] v.
Proof. intros Ht -> rflag mem rest _ _ _. unfold decode_col. cbn. by rewrite Ht. Qed.

Lemma enc_col_ne l isi : (Z.of_nat (length (enc_col l isi)) =? 0) = false.
Proof.
  apply Z.eqb_neq. rewrite length_enc_col, csize_getCSize. pose proof (getCSize_pos l isi). lia.
Qed.

(** Every column but TEXT is stored as it is. *)
Lemma plain_stored z k t d v :
  col_ok writeLua t d v -> C_IS_S t = false ->
  exists b, col_bytes writeLua z k t d = Some (Some b) /\
    raw_len t d = Z.of_nat (length b) /\ reads (z_type z) t b v.
Proof.
  intros Hok Ht. destruct Hok as [d E|d i Hi Ef Ei|d l Hl Ef El|d l Hl Ef El|d E|d l Hl Ef El|d Hs Hx|d E|d E Hf|d _ _|d Hlua];
    try done; cbn [col_bytes raw_len].
  - eexists. split_and!; [reflexivity|done|]. unfold writeUIntCol, wUCol. rewrite E. by apply reads_len0.
  - rewrite Ef, Ei. change (writeUIntCol _ _) with (enc_col i true).
    eexists. split_and!; [reflexivity|done|]. intros rflag mem rest _ _ _. unfold decode_col.
    rewrite enc_col_ne. cbn [andb C_IS_O]. by rewrite streamIntToUInt_enc by lia.
  - rewrite Ef, El. unfold cLRUcol. cbn [sflag col]. rewrite uwrap_small by lia.
    change (writeUIntCol _ ?v) with (le_bytes 4 v).
    eexists. split_and!; [reflexivity|done|]. intros rflag mem rest _ _ _. unfold decode_col.
    rewrite length_le_bytes. cbn [Z.of_nat Z.eqb andb]. by rewrite streamIntToUInt_4 by lia.
  - rewrite Ef, El. unfold cLFUcol. cbn [sflag col]. rewrite uwrap_small by lia.
    change (writeULongCol _ ?v) with (le_bytes 8 v).
    eexists. split_and!; [reflexivity|done|]. intros rflag mem rest _ _ _. unfold decode_col.
    rewrite length_le_bytes. cbn [Z.of_nat Z.eqb andb]. by rewrite streamLongToULong_8 by lia.
  - eexists. split_and!; [reflexivity|done|]. unfold writeULongCol, wUCol. rewrite E. by apply reads_len0.
  - rewrite Ef, El. change (writeULongCol _ _) with (enc_col l false).
    eexists. split_and!; [reflexivity|done|]. intros rflag mem rest _ _ _. unfold decode_col.
    rewrite enc_col_ne. cbn [andb C_IS_O]. by rewrite streamLongToULong_enc by lia.
  - eexists. split_and!; [reflexivity| |].
    + by rewrite Hs.
    + intros rflag mem rest _ _ _. unfold decode_col, writeU128Col. rewrite length_le_bytes.
      cbn [Z.of_nat Z.eqb andb]. unfold streamToU128. by rewrite load_le_bytes by (cbn; lia).
  - eexists. split_and!; [reflexivity|done|]. unfold writeFloatCol. rewrite E. by apply reads_len0.
  - eexists. split_and!; [reflexivity|done|]. unfold writeFloatCol. rewrite E.
    intros rflag mem rest _ _ _. unfold decode_col. rewrite length_le_bytes.
    cbn [Z.of_nat Z.eqb andb]. unfold streamFloatToFloat. by rewrite load_le_bytes by (cbn; lia).
  - exists []. split_and!; [|done|intros rflag mem rest _ _ _; by unfold decode_col].
    unfold slens in Hlua. do 2 f_equal.
    destruct Hlua as [E | ->]; [unfold slens; rewrite E; done|by rewrite orb_true_r].
Qed.

(** ** Text *)

Lemma take_le_bytes n m z : (n <= m)%nat -> take n (le_bytes m z) = le_bytes n z.
Proof.
  revert m z. induction n as [|n IH]; intros [|m] z Hnm; try done; [lia|].
  cbn. f_equal. apply IH. lia.
Qed.

(** The stored form of a TEXT column under each compression. *)
Definition text_stored (z : zip_t) (k : nat) (d : crd_t) (b : list Z) : Prop :=
  text_bytes z k d = Some b /\ zip_diff z k d = Some (slens d - Z.of_nat (length b)) /\
  Z.of_nat (length b) <= slens d + 16 /\ reads (z_type z) C_STRING b (V_STRING (strs d)).

Lemma text_none k d six lzf : text_stored (Zip CZIP_NONE six lzf) k d (strs d).
Proof.
  unfold text_stored, text_bytes, zip_diff, slens. cbn [z_type CZIP_NONE CZIP_SIX CZIP_LZF Z.eqb].
  split_and!; [done|f_equal; lia|lia|].
  intros rflag mem rest H1 H2 _. unfold decode_col. rewrite H1, H2.
  destruct (strs d) as [|c s] eqn:E; [done|]. rewrite <- E in *.
  destruct (Z.eqb_spec (Z.of_nat (length (strs d))) 0) as [E0|_]; [rewrite E in E0; done|].
  cbn [andb z_type CZIP_NONE CZIP_SIX CZIP_LZF Z.eqb]. unfold slice.
  rewrite Nat2Z.id, drop_0, take_app_length, length_app, Nat.add_0_l. by destruct (Nat.leb_spec (length (strs d)) (length (strs d) + length rest)); [|lia].
Qed.

Lemma s8_ascii s : Forall (fun c => 0 <= c < 128) s -> swrap 8 <$> s = s.
Proof.
  induction 1 as [|c s Hc _ IH]; [done|]. cbn. rewrite swrap_small by lia. by f_equal.
Qed.

Lemma text_six d buf n czd k lzf :
  Forall (fun c => 0 <= c < 128) (strs d) -> slens d < 2 ^ 29 ->
  0 <= n <= slens d -> (Z.to_nat n <= length buf)%nat -> (n = 0 -> strs d = []) ->
  (forall mem rest, (length (strs d) + 2 <= length mem)%nat ->
     unpackSixBit mem (take (Z.to_nat n) buf ++ rest) n = Some (strs d)) ->
  czd !! k = Some (buf, n) ->
  text_stored (Zip CZIP_SIX czd lzf) k d (take (Z.to_nat n) buf).
Proof.
  intros HA Hb Hn Hl H0 Hu Hk.
  assert (Hlen : length (take (Z.to_nat n) buf) = Z.to_nat n) by (rewrite length_take; lia).
  unfold text_stored, text_bytes, zip_diff.
  cbn [z_type z_six CZIP_SIX Z.eqb Pos.eqb]. rewrite Hk. cbn [mbind option_bind fst snd].
  rewrite Hlen, Z2Nat.id by lia. split_and!; [done|rewrite s32_eq with (y := slens d - n); [done|done|lia]|lia|].
  intros rflag mem rest H1 _ Hmem. unfold decode_col. rewrite H1, Hlen, Z2Nat.id by lia.
  destruct (Z.eqb_spec n 0) as [->|_].
  - by rewrite H0.
  - cbn [andb C_IS_O z_type CZIP_SIX Z.eqb Pos.eqb]. by rewrite Hu.
Qed.

(** Compression that succeeds returns something decompression inverts, within
    the space given. *)
Context (lzf_spec : forall s m z, lzf_compress s m = Some z ->
  lzf_decompress z (Z.of_nat (length s)) = s /\ Z.of_nat (length z) <= m).

Lemma text_lzf d zz czd k six :
  slens d < 2 ^ 29 -> lzf_compress (strs d) (Z.max 4 (u32 (slens d + 4))) = Some zz ->
  czd !! k = Some (cr8Icol (slens d), zz) ->
  text_stored (Zip CZIP_LZF six czd) k d (enc_col (slens d) true ++ zz).
Proof.
  intros Hb Hz Hk. destruct (lzf_spec _ _ _ Hz) as [Hd Hm].
  assert (Hs0 : 0 <= slens d) by (unfold slens; lia).
  rewrite uwrap_small in Hm by lia. pose proof (getCSize_pos (slens d) true).
  assert (Hw : writeLzfCol (cr8Icol (slens d), zz) = enc_col (slens d) true ++ zz).
  { unfold writeLzfCol. cbn [fst snd]. f_equal. unfold enc_col, cr8Icol, cIcol. unfold_consts.
    repeat match goal with |- context [slens d <? ?c] => destruct (Z.ltb_spec (slens d) c) end;
      try lia; cbn [csize col sflag wUCol Z.eqb Pos.eqb]; unfold_consts; cbn [Z.eqb Pos.eqb];
      by apply take_le_bytes; cbn; lia. }
  assert (Hlen : Z.of_nat (length (enc_col (slens d) true ++ zz))
                 = getCSize (slens d) true + Z.of_nat (length zz)).
  { rewrite length_app, length_enc_col_getCSize. lia. }
  unfold text_stored, text_bytes, zip_diff.
  cbn [z_type z_lzf CZIP_SIX CZIP_LZF Z.eqb Pos.eqb]. rewrite Hk. cbn [mbind option_bind fst snd].
  rewrite Hw, Hlen. unfold cr8Icol. rewrite csize_getCSize.
  split_and!; [done|by rewrite s32_eq with (y := slens d - (getCSize (slens d) true + Z.of_nat (length zz))); [..|lia]|lia|].
  intros rflag mem rest H1 H2 _. unfold decode_col. rewrite Hlen.
  destruct (Z.eqb_spec (getCSize (slens d) true + Z.of_nat (length zz)) 0); [lia|].
  cbn [andb]. rewrite H1, H2. cbn [z_type CZIP_SIX CZIP_LZF Z.eqb Pos.eqb].
  unfold streamLZFTextToString. rewrite <- app_assoc, streamIntToUInt_enc by lia.
  cbn [mbind option_bind]. unfold slice.
  replace (Z.to_nat (getCSize (slens d) true + Z.of_nat (length zz) - getCSize (slens d) true))
    with (length zz) by lia.
  rewrite !length_app, length_enc_col_getCSize.
  destruct (Nat.leb_spec (Z.to_nat (getCSize (slens d) true) + length zz)
    (Z.to_nat (getCSize (slens d) true) + (length zz + length rest))); [|lia].
  rewrite <- length_enc_col_getCSize, drop_app_length, take_app_length.
  cbn [mbind option_bind fmap option_fmap option_map]. unfold slens. by rewrite Hd.
Qed.

(** ** The three compressions *)

Definition cols_ok (cols : list column) (vs : list colval) : Prop :=
  Forall2 (fun c v => col_ok writeLua c.1 c.2 v) cols vs.

Lemma text_value d v : col_ok writeLua C_STRING d v ->
  v = V_STRING (strs d) /\ Forall (fun c => 0 <= c < 128) (strs d) /\ slens d < 2 ^ 29.
Proof. inversion 1; subst. auto. Qed.

(** A column is stored when its text is. *)
Lemma stored_cons z k t d v cs b bs vs :
  col_ok writeLua t d v ->
  (C_IS_S t = true -> text_stored z k d b) ->
  (C_IS_S t = false -> col_bytes writeLua z k t d = Some (Some b) /\
     raw_len t d = Z.of_nat (length b) /\ reads (z_type z) t b v) ->
  stored z (if C_IS_S t then S k else k) cs bs vs ->
  stored z k ((t, d) :: cs) (b :: bs) (v :: vs).
Proof.
  intros Hok HS HN Hr. cbn [stored]. destruct (C_IS_S t) eqn:Et.
  - destruct t; try done. destruct (HS eq_refl) as (H1 & H2 & H3 & H4).
    destruct (text_value d v Hok) as (-> & _).
    split_and!; try done. cbn [col_bytes]. by rewrite H1.
  - destruct (HN eq_refl) as (H1 & H2 & H3). split_and!; try done. lia.
Qed.

Lemma none_stored six lzf : forall cols vs k,
  cols_ok cols vs -> exists bs, stored (Zip CZIP_NONE six lzf) k cols bs vs.
Proof.
  intros cols vs k HF. revert k. induction HF as [|[t d] v cs vs Hok _ IH]; intros k.
  { by exists []. }
  destruct (IH (if C_IS_S t then S k else k)) as [bs Hbs].
  destruct (C_IS_S t) eqn:Et.
  - exists (strs d :: bs). apply stored_cons; try done; rewrite ?Et; try done.
    intros _. apply text_none.
  - destruct (plain_stored (Zip CZIP_NONE six lzf) k t d v Hok Et) as (b & H).
    exists (b :: bs). apply stored_cons; try done; by rewrite ?Et.
Qed.

Lemma six_stored : forall cols vs acc,
  cols_ok cols vs ->
  six_cols cols acc = Some None \/
  exists l, six_cols cols acc = Some (Some (acc ++ l)) /\
    forall lzf, exists bs, stored (Zip CZIP_SIX (acc ++ l) lzf) (length acc) cols bs vs.
Proof.
  intros cols vs acc HF. revert acc. induction HF as [|[t d] v cs vs Hok _ IH]; intros acc.
  { right. exists []. rewrite app_nil_r. split; [done|]. intros lzf. by exists []. }
  cbn [six_cols]. destruct (C_IS_S t) eqn:Et.
  - destruct t; try done. destruct (text_value d v Hok) as (Ev & HA & Hb).
    rewrite s8_ascii by done.
    destruct (sixbit_total (strs d) HA Hb) as [->|(buf & n & -> & Hn & Hl & H0 & Hu)];
      [by left|]. cbn [mbind option_bind].
    destruct (IH (acc ++ [(buf, n)])) as [->|(l & -> & Hl')]; [by left|].
    right. exists ((buf, n) :: l). rewrite <- app_assoc. split; [done|]. intros lzf.
    destruct (Hl' lzf) as [bs Hbs]. rewrite <- app_assoc in Hbs. cbn [app] in Hbs.
    exists (take (Z.to_nat n) buf :: bs). apply stored_cons; try done.
    + intros _. apply text_six; try done. by apply list_lookup_middle.
    + rewrite length_app, Nat.add_1_r in Hbs. exact Hbs.
  - destruct (IH acc) as [->|(l & -> & Hl')]; [by left|]. right. exists l. split; [done|].
    intros lzf. destruct (Hl' lzf) as [bs Hbs].
    destruct (plain_stored (Zip CZIP_SIX (acc ++ l) lzf) (length acc) t d v Hok Et) as (b & H).
    exists (b :: bs). apply stored_cons; try done; by rewrite ?Et.
Qed.

Fixpoint texts (cols : list column) : nat :=
  match cols with
  | [] => 0
  | (t, _) :: cs => if C_IS_S t then S (texts cs) else texts cs
  end.

Lemma lzf_stored six : forall cols vs tl ml acc,
  cols_ok cols vs ->
  let '(_, _, czd) := lzf_cols lzf_compress cols tl ml acc in
  length czd = (length acc + texts cols)%nat ->
  exists l, czd = acc ++ l /\ exists bs, stored (Zip CZIP_LZF six czd) (length acc) cols bs vs.
Proof.
  intros cols vs tl ml acc HF. revert tl ml acc.
  induction HF as [|[t d] v cs vs Hok _ IH]; intros tl ml acc; cbn [lzf_cols texts].
  { intros _. exists []. rewrite app_nil_r. split; [done|]. by exists []. }
  destruct (C_IS_S t) eqn:Et.
  - destruct t; try done. destruct (text_value d v Hok) as (Ev & HA & Hb).
    unfold lzfZipCol. fold (slens d).
    destruct (lzf_compress (strs d) (Z.max 4 (u32 (slens d + 4)))) as [zz|] eqn:Ez;
      cbn [mbind option_bind]; [|lia].
    cbn [fst snd].
    specialize (IH (u32 (tl + slens d)) (u32 (ml + csize (cr8Icol (slens d)) + Z.of_nat (length zz)))
                  (acc ++ [(cr8Icol (slens d), zz)])).
    destruct (lzf_cols _ cs _ _ _) as [[tl' ml'] czd]. intros Hlen.
    destruct IH as (l & -> & bs & Hbs); [rewrite length_app; cbn; lia|].
    exists ((cr8Icol (slens d), zz) :: l). rewrite <- app_assoc in Hbs |- *. cbn [app] in *.
    split; [done|]. exists ((enc_col (slens d) true ++ zz) :: bs). apply stored_cons; try done.
    + intros _. apply text_lzf; try done. by apply list_lookup_middle.
    + rewrite length_app, Nat.add_1_r in Hbs. exact Hbs.
  - specialize (IH tl ml acc). destruct (lzf_cols _ cs _ _ _) as [[tl' ml'] czd]. intros Hlen.
    destruct (IH Hlen) as (l & -> & bs & Hbs). exists l. split; [done|].
    destruct (plain_stored (Zip CZIP_LZF six (acc ++ l)) (length acc) t d v Hok Et) as (b & H).
    exists (b :: bs). apply stored_cons; try done; by rewrite ?Et.
Qed.

(** LZF is not tried, or it compressed every TEXT column, or it did not pay. *)
Definition lzf_complete (cols : list column) : bool :=
  negb (existsb (fun c => C_IS_S c.1 && (20 <? slens c.2)) cols) ||
  let '(tl, ml, czd) := lzf_cols lzf_compress cols 0 0 [] in
  (length czd =? texts cols)%nat || negb (compression_justified tl ml).

(** ** [zipCol] *)

Lemma zip_shift z cr bs vs :
  stored z 0 (cols cr) bs vs -> raw_laid 0 (cols cr) -> rlen cr = total_len (cols cr) ->
  total_len (cols cr) + 16 * Z.of_nat (length (cols cr)) < 2 ^ 31 ->
  exists cols' , mod_cofsts z (cols cr) 0 0 (rlen cr)
      = Some (cols', Z.of_nat (length (concat bs))) /\
    stored z 0 cols' bs vs /\ laid 0 cols' bs /\ Forall2 same_data (cols cr) cols'.
Proof.
  intros Hst Hl Hr Hb. pose proof (stored_length z _ _ _ _ Hst).
  pose proof (total_len_nonneg (cols cr)).
  destruct (mod_cofsts_ok writeLua z (cols cr) bs 0 0 0 (rlen cr)) as (cols' & E & Hl' & HF);
    try (first [done | lia | by eapply stored_emitted]).
  change (u32 0) with 0 in E. rewrite (uwrap_small 32 (rlen cr)) in E by lia.
  exists cols'. split; [|split; [by eapply stored_same|done]].
  rewrite E, Hr, uwrap_small by lia. do 2 f_equal. lia.
Qed.

Lemma zipCol_ok cr vs :
  cols_ok (cols cr) vs -> raw_laid 0 (cols cr) -> rlen cr = total_len (cols cr) ->
  total_len (cols cr) + 16 * Z.of_nat (length (cols cr)) < 2 ^ 31 ->
  lzf_complete (cols cr) = true ->
  exists cols' z bs, zipCol lzf_compress cr
      = Some (Cr cols' (Z.of_nat (length (concat bs))) (cnt cr), z) /\
    stored z 0 cols' bs vs /\ laid 0 cols' bs /\ Forall2 same_data (cols cr) cols' /\
    (z_type z = CZIP_NONE \/ z_type z = CZIP_SIX \/ z_type z = CZIP_LZF).
Proof.
  intros Hok Hl Hr Hb Hlz. unfold zipCol.
  assert (Hgo : forall type lzf,
    (type = CZIP_SIX \/ type = CZIP_LZF /\ length lzf = texts (cols cr) /\
       exists tl ml, lzf_cols lzf_compress (cols cr) 0 0 [] = (tl, ml, lzf)) ->
    exists cols' z bs,
      (six ← (if type =? CZIP_SIX then six_cols (cols cr) [] else Some (Some []));
       match six with
       | None => Some (cr, Zip CZIP_NONE [] lzf)
       | Some six =>
           let z := Zip type six lzf in
           '(cs, rl) ← mod_cofsts z (cols cr) 0 0 (rlen cr);
           Some (Cr cs rl (cnt cr), z)
       end) = Some (Cr cols' (Z.of_nat (length (concat bs))) (cnt cr), z) /\
      stored z 0 cols' bs vs /\ laid 0 cols' bs /\ Forall2 same_data (cols cr) cols' /\
      (z_type z = CZIP_NONE \/ z_type z = CZIP_SIX \/ z_type z = CZIP_LZF)).
  { intros type lzf [->|(-> & Hlen & tl & ml & E)].
    - cbn [CZIP_SIX Z.eqb Pos.eqb].
      destruct (six_stored (cols cr) vs [] Hok) as [->|(l & -> & Hst)]; cbn [mbind option_bind].
      + destruct (none_stored [] lzf (cols cr) vs 0 Hok) as [bs Hbs].
        pose proof (laid_raw writeLua _ _ _ _ 0 (stored_emitted _ _ _ _ _ Hbs) eq_refl Hl) as Hlb.
        exists (cols cr), (Zip CZIP_NONE [] lzf), bs. split_and!; try done.
        * do 2 f_equal. destruct cr as [cs rl cn]. cbn in *. f_equal. rewrite Hr.
          apply (raw_total writeLua (Zip CZIP_NONE [] lzf) cs bs 0); [|done].
          by apply (stored_emitted _ _ _ vs).
        * apply same_data_refl.
        * by left.
      + destruct (Hst lzf) as [bs Hbs]. cbn [app length] in *.
        destruct (zip_shift _ cr bs vs Hbs Hl Hr Hb) as (cols' & -> & H1 & H2 & H3).
        cbn [mbind option_bind]. exists cols', (Zip CZIP_SIX l lzf), bs. split_and!; auto.
    - cbn [CZIP_SIX CZIP_LZF Z.eqb Pos.eqb mbind option_bind].
      pose proof (lzf_stored [] (cols cr) vs 0 0 [] Hok) as Hst. rewrite E in Hst.
      destruct (Hst Hlen) as (l & _ & bs & Hbs).
      destruct (zip_shift _ cr bs vs Hbs Hl Hr Hb) as (cols' & -> & H1 & H2 & H3).
      cbn [mbind option_bind]. exists cols', (Zip CZIP_LZF [] lzf), bs. split_and!; auto. }
  unfold lzf_complete in Hlz. destruct (existsb _ _); cbn [negb orb] in Hlz.
  - destruct (lzf_cols lzf_compress (cols cr) 0 0 []) as [[tl ml] czd] eqn:E.
    apply Hgo. destruct (compression_justified tl ml); [|by left].
    right. rewrite orb_false_r in Hlz. apply Nat.eqb_eq in Hlz. eauto.
  - apply Hgo. by left.
Qed.
End Stored.
