(* ===== verification/RowTrip.v ===== *)
(** * Rows read back ([DB/row.c])

    The round trip of rows: whatever [writeRow] lays out, as a normal or as a
    hash row, [getRawCol] reads back column by column; the rows for which it
    does not. *)

From S2P Require Import Prelude Stream SixBit Hash CStr Row RowLayout.

(** Every column of the row at [addr] reads as its value, and a column past the
    last one as empty. *)
Definition reads_back (lzf_decompress : list Z -> Z -> list Z) (row : list Z)
    (ts : list ctype) (vs : list colval) : Prop :=
  forall addr mem,
    (forall i t v, ts !! i = Some t -> vs !! i = Some v -> mem_ok mem v ->
       exists v' row', getRawCol lzf_decompress mem addr row t (Z.of_nat i + 1) = Some (v', row') /\
         norm v' = norm v) /\
    (forall i t, (length ts <= i)%nat -> Z.of_nat i < 2 ^ 32 -> C_IS_O t = false ->
       exists row', getRawCol lzf_decompress mem addr row t (Z.of_nat i + 1) = Some (V_EMPTY, row')).

(** ** Flags *)

Record flags_ok (rflag w ztype : Z) : Prop := {
  fl_width : w = 1 \/ w = 2 \/ w = 4;
  fl_size : Z.land rflag RFLAG_SIZE_FLAG = w;
  fl_1 : has rflag RFLAG_1BYTE_INT = (w =? 1);
  fl_2 : has rflag RFLAG_2BYTE_INT = (w =? 2);
  fl_4 : has rflag RFLAG_4BYTE_INT = (w =? 4);
  fl_six : has rflag RFLAG_6BIT_ZIP = (ztype =? CZIP_SIX);
  fl_lzf : has rflag RFLAG_LZF_ZIP = (ztype =? CZIP_LZF);
  fl_byte : 0 < rflag < 32;
}.

Lemma assign_flags rlen zt :
  0 <= rlen < 2 ^ 32 -> zt = CZIP_NONE \/ zt = CZIP_SIX \/ zt = CZIP_LZF ->
  exists w, flags_ok (assign_rflag rlen zt) w zt /\ rlen < 256 ^ w /\
    (w = 1 \/ w = 2 -> rlen < USHRT_MAX).
Proof.
  intros Hr Hz. unfold assign_rflag, UCHAR_MAX, USHRT_MAX.
  destruct (Z.ltb_spec rlen 255); [exists 1|destruct (Z.ltb_spec rlen 65535); [exists 2|exists 4]];
    (destruct Hz as [-> | [-> | ->]]; (split; [split; first [reflexivity | lia | (split; reflexivity)]|lia])).
Qed.

Lemma no_hash rflag w zt : flags_ok rflag w zt ->
  has rflag RFLAG_HASH_ROW = false /\ has rflag RFLAG_HASH32_ROW = false /\
  has rflag RFLAG_HASH16_ROW = false.
Proof.
  intros H. pose proof (fl_byte _ _ _ H) as Hb.
  assert (Hl : forall m, Z.land rflag (2 ^ 5 * m) = 0).
  { intros m. rewrite Z.mul_comm, <- Z.shiftl_mul_pow2 by lia. apply Z.bits_inj'. intros n Hn.
    rewrite Z.land_spec, Z.bits_0. destruct (Z.ltb_spec n 5).
    - by rewrite Z.shiftl_spec_low, andb_false_r by lia.
    - rewrite (Z.bits_above_log2 rflag); [done|lia|].
      destruct (Z.eq_dec rflag 0); [lia|]. apply Z.log2_lt_pow2; [lia|].
      assert (2 ^ 5 <= 2 ^ n) by (apply Z.pow_le_mono_r; lia). lia. }
  unfold has. change RFLAG_HASH_ROW with (2 ^ 5 * 3). change RFLAG_HASH32_ROW with (2 ^ 5 * 2).
  change RFLAG_HASH16_ROW with (2 ^ 5 * 1). by rewrite !Hl.
Qed.

(** ** The offset array *)

Lemma chunk_load w l j v r :
  l !! j = Some v -> 0 <= v < 256 ^ Z.of_nat w ->
  load w (drop (j * w) (concat (le_bytes w <$> l) ++ r)) = Some v.
Proof.
  revert j. induction l as [|x l IH]; intros [|j] Hj Hv; try done; cbn [fmap list_fmap concat] in *.
  - injection Hj as ->. cbn [Nat.mul]. rewrite drop_0, <- app_assoc. by apply load_le_bytes.
  - rewrite <- app_assoc, drop_app. rewrite length_le_bytes.
    rewrite drop_ge by (rewrite length_le_bytes; cbn; lia).
    replace (S j * w - w)%nat with (j * w)%nat by (cbn; lia). cbn [app]. by apply IH.
Qed.

Lemma length_chunks w (l : list Z) : length (concat (le_bytes w <$> l)) = (length l * w)%nat.
Proof.
  induction l as [|x l IH]; [done|]. cbn [fmap list_fmap concat length].
  rewrite length_app, length_le_bytes, IH. cbn. lia.
Qed.

Lemma set_col_offst_eq rflag w zt v : flags_ok rflag w zt ->
  set_col_offst rflag v = le_bytes (Z.to_nat w) v.
Proof.
  intros H. unfold set_col_offst. rewrite (fl_1 _ _ _ H), (fl_2 _ _ _ H).
  by destruct (fl_width _ _ _ H) as [-> | [-> | ->]].
Qed.

Lemma get_cofst_eq rflag w zt offs r j v : flags_ok rflag w zt ->
  offs !! j = Some v -> 0 <= v < 256 ^ w ->
  get_cofst rflag (concat (le_bytes (Z.to_nat w) <$> offs) ++ r) (Z.of_nat j) = Some v.
Proof.
  intros H Hj Hv. unfold get_cofst. rewrite (fl_1 _ _ _ H), (fl_2 _ _ _ H), (fl_size _ _ _ H).
  destruct (Z.ltb_spec (Z.of_nat j) 0); [lia|].
  pose proof (chunk_load (Z.to_nat w) offs j v r Hj) as Hc.
  pose proof (fl_width _ _ _ H) as Hw. rewrite Z2Nat.id in Hc by lia. specialize (Hc Hv).
  replace (Z.to_nat (Z.of_nat j)) with j by lia.
  replace (Z.to_nat (Z.of_nat j * w)) with (j * Z.to_nat w)%nat by lia.
  destruct Hw as [-> | [-> | ->]]; cbn [Z.eqb Pos.eqb]; try exact Hc.
  change (Z.to_nat 1) with 1%nat in Hc. by rewrite Nat.mul_1_r in Hc.
Qed.

(** The offset of column [j] is the end of its bytes. *)
Lemma laid_lookup : forall cols bs off j b,
  laid off cols bs -> bs !! j = Some b ->
  exists t d, cols !! j = Some (t, d) /\
    mcofsts d = off + Z.of_nat (length (concat (take j bs))) + Z.of_nat (length b).
Proof.
  induction cols as [|[t d] cs IH]; intros [|b0 bs] off [|j] b Hl Hb; try done; cbn in Hl, Hb.
  - injection Hb as ->. exists t, d. split; [done|]. cbn. lia.
  - destruct Hl as [_ Hl]. destruct (IH bs _ j b Hl Hb) as (t' & d' & Hj & Hm).
    exists t', d'. split; [done|]. cbn [take concat]. rewrite length_app. lia.
Qed.

Lemma laid_length : forall cols bs off, laid off cols bs -> length bs = length cols.
Proof.
  induction cols as [|[t d] cs IH]; intros [|b bs] off; cbn; try done.
  intros [_ H]. f_equal. by eapply IH.
Qed.

Lemma concat_take_drop (bs : list (list Z)) j b :
  bs !! j = Some b ->
  drop (length (concat (take j bs))) (concat bs) = b ++ concat (drop (S j) bs).
Proof.
  intros Hj. rewrite <- (take_drop_middle bs j b Hj) at 2.
  rewrite concat_app. cbn [concat]. by rewrite drop_app_length.
Qed.

Lemma concat_take_le (bs : list (list Z)) j b :
  bs !! j = Some b -> (length (concat (take j bs)) + length b <= length (concat bs))%nat.
Proof.
  intros Hj. rewrite <- (take_drop_middle bs j b Hj) at 2.
  rewrite concat_app. cbn [concat]. rewrite !length_app. lia.
Qed.

Lemma csize_pred n : 1 <= n -> n <> TWO_POW_7 -> n <> TWO_POW_14 -> n < 2 ^ 24 ->
  getCSize (n - 1) true = getCSize n true.
Proof.
  unfold getCSize, TWO_POW_7, TWO_POW_14, TWO_POW_29. intros H1 H7 H14 H24.
  destruct (Z.ltb_spec n 128), (Z.ltb_spec (n - 1) 128), (Z.ltb_spec n 16384),
    (Z.ltb_spec (n - 1) 16384), (Z.ltb_spec n 536870912), (Z.ltb_spec (n - 1) 536870912); lia.
Qed.

(** ** Normal rows *)

Section Normal.
Context (lzf_decompress : list Z -> Z -> list Z).
Context (rflag w zt : Z) (Hf : flags_ok rflag w zt).
Context (cols : list column) (bs : list (list Z)) (Hl : laid 0 cols bs).
Let rc := Z.of_nat (length cols).
Let data := concat bs.
Context (Hne : cols <> []) (Hrc : rc < 2 ^ 24).
Context (Hw : Z.of_nat (length data) < 256 ^ w) (Hlen : Z.of_nat (length data) < 2 ^ 31).

Let offs := (fun c : column => mcofsts c.2) <$> cols.
Let cs := Z.to_nat (getCSize rc true).
Let h := (1 + cs + length cols * Z.to_nat w)%nat.

Definition normal_row : list Z :=
  ((createRowBlob (Z.of_nat (length cols) + 1) rflag (Z.of_nat (length (concat bs)))).1
     ++ concat ((fun c : column => set_col_offst rflag (mcofsts c.2)) <$> cols))
  ++ concat bs.

Lemma normal_row_eq :
  normal_row = rflag :: enc_col rc true ++ concat (le_bytes (Z.to_nat w) <$> offs) ++ data.
Proof.
  unfold normal_row, createRowBlob. cbn [fst]. unfold rawUintWriteToRow.
  replace (Z.of_nat (length cols) + 1 - 1) with rc by (unfold rc; lia).
  change (writeUIntCol _ _) with (enc_col rc true). cbn [app]. rewrite <- app_assoc.
  f_equal. f_equal. f_equal. unfold offs. rewrite <- list_fmap_compose. f_equal. apply list_fmap_ext.
  intros i x _. cbn. by apply (set_col_offst_eq rflag w zt).
Qed.

Lemma offs_length : length offs = length cols.
Proof. unfold offs. by rewrite length_fmap. Qed.

Lemma h_bound : Z.of_nat h < 2 ^ 27 /\ (1 <= length cols)%nat /\ (1 <= cs)%nat.
Proof.
  unfold h, cs. pose proof (getCSize_pos rc true). pose proof (fl_width _ _ _ Hf).
  unfold rc in *. destruct cols; [done|]. cbn [length] in *. nia.
Qed.

Lemma drop_cofst : drop (1 + cs) normal_row = concat (le_bytes (Z.to_nat w) <$> offs) ++ data.
Proof.
  rewrite normal_row_eq. change (1 + cs)%nat with (S cs). cbn [drop].
  unfold cs. by rewrite <- length_enc_col_getCSize, drop_app_length.
Qed.

Lemma drop_data n : drop (h + n) normal_row = drop n data.
Proof.
  unfold h. rewrite <- (drop_drop normal_row), <- (drop_drop normal_row), drop_cofst.
  rewrite <- offs_length, <- length_chunks. by rewrite drop_app_length.
Qed.

(** The offset written for column [j]. *)
Lemma offs_lookup j b : bs !! j = Some b ->
  offs !! j = Some (Z.of_nat (length (concat (take j bs))) + Z.of_nat (length b)).
Proof.
  intros Hj. destruct (laid_lookup cols bs 0 j b Hl Hj) as (t & d & Hc & Hm).
  unfold offs. rewrite list_lookup_fmap, Hc. cbn. f_equal. lia.
Qed.

Lemma read_cofst j b : bs !! j = Some b ->
  get_cofst rflag (drop (1 + cs) normal_row) (Z.of_nat j)
    = Some (Z.of_nat (length (concat (take j bs))) + Z.of_nat (length b)).
Proof.
  intros Hj. rewrite drop_cofst. apply (get_cofst_eq rflag w zt); [done|by apply offs_lookup|].
  pose proof (concat_take_le bs j b Hj) as Hle. fold data in Hle. lia.
Qed.

Lemma last_block : exists b, bs !! (length cols - 1)%nat = Some b /\
  (length (concat (take (length cols - 1) bs)) + length b = length data)%nat.
Proof.
  pose proof (laid_length _ _ _ Hl) as Hlb. destruct h_bound as (_ & Hp & _).
  destruct (lookup_lt_is_Some_2 bs (length cols - 1)) as [b Hb]; [lia|].
  exists b. split; [done|]. unfold data. rewrite <- (take_drop_middle bs _ b Hb) at 2.
  rewrite concat_app. cbn [concat]. rewrite !length_app.
  rewrite (drop_ge bs) by lia. cbn. lia.
Qed.

Lemma normal_ncols : streamIntToUInt (drop 1 normal_row) = Some (rc, getCSize rc true).
Proof.
  rewrite normal_row_eq. cbn [drop]. rewrite drop_0, streamIntToUInt_enc; [done|]. unfold rc in *. lia.
Qed.

Lemma normal_rlen j :
  (j = length cols - 1)%nat ->
  load (Z.to_nat w) (drop (h - Z.to_nat w) normal_row) = Some (Z.of_nat (length data)).
Proof.
  intros ->. destruct last_block as (b & Hb & Hlast). destruct h_bound as (_ & Hp & _).
  replace (h - Z.to_nat w)%nat with ((1 + cs) + (length cols - 1) * Z.to_nat w)%nat
    by (unfold h; nia).
  rewrite <- drop_drop, drop_cofst. apply chunk_load.
  - rewrite (offs_lookup _ b Hb). f_equal. lia.
  - pose proof (fl_width _ _ _ Hf). rewrite Z2Nat.id by lia. lia.
Qed.

Lemma normal_payload :
  getRowPayload normal_row
    = Some (Payload h rflag rc (Z.of_nat (length data) + Z.of_nat h)).
Proof.
  destruct h_bound as (Hh & Hp & Hcs). destruct (no_hash rflag w zt Hf) as (Hnh & _ & _).
  unfold getRowPayload. rewrite normal_row_eq at 1. cbn [lookup list_lookup mbind option_bind].
  rewrite Hnh, normal_ncols. cbn [mbind option_bind]. rewrite (fl_size _ _ _ Hf).
  pose proof (fl_width _ _ _ Hf) as Hww.
  rewrite uwrap_small by (unfold rc in *; nia).
  replace (1 + Z.to_nat (getCSize rc true) + Z.to_nat (rc * w))%nat with h
    by (unfold h, cs, rc; nia).
  rewrite (fl_1 _ _ _ Hf), (fl_2 _ _ _ Hf).
  pose proof (normal_rlen (length cols - 1) eq_refl) as Hr.
  assert (E : (if w =? 1 then load 1 (drop (h - 1) normal_row)
               else if w =? 2 then load 2 (drop (h - 2) normal_row)
               else load 4 (drop (h - 4) normal_row)) = Some (Z.of_nat (length data))).
  { destruct Hww as [E | [E | E]]; rewrite E in Hr |- *; exact Hr. }
  rewrite E. cbn [mbind option_bind]. rewrite uwrap_small by lia. done.
Qed.

(** A column of a normal row, unless the number of columns needs one more byte
    than the number before it. *)
Lemma normal_coldata j b addr :
  bs !! j = Some b -> getCSize (rc - 1) true = getCSize rc true ->
  getColData addr normal_row (Z.of_nat j + 1)
    = Some (ColData (h + length (concat (take j bs))) (Z.of_nat (length b)) rflag normal_row).
Proof.
  intros Hj Hbd. destruct h_bound as (Hh & Hp & Hcs).
  destruct (no_hash rflag w zt Hf) as (_ & Hn32 & Hn16).
  pose proof (laid_length _ _ _ Hl) as Hlb. pose proof (lookup_lt_Some _ _ _ Hj) as Hjl.
  pose proof (concat_take_le bs j b Hj) as Hle. fold data in Hle.
  unfold getColData. rewrite normal_payload. cbn [mbind option_bind p_ncols p_rflag p_row].
  destruct (Z.ltb_spec rc (Z.of_nat j + 1)); [unfold rc in *; lia|].
  rewrite Hn32, Hn16. rewrite (uwrap_small 32 (rc - 1)) by (unfold rc in *; lia). rewrite Hbd.
  replace (Z.to_nat (1 + getCSize rc true)) with (1 + cs)%nat
    by (unfold cs; pose proof (getCSize_pos rc true); lia).
  replace (Z.of_nat j + 1 - 1) with (Z.of_nat j) by lia. rewrite (read_cofst j b Hj).
  assert (Es : (if Z.of_nat j =? 0 then Some 0
                else get_cofst rflag (drop (1 + cs) normal_row) (Z.of_nat j - 1))
               = Some (Z.of_nat (length (concat (take j bs))))).
  { destruct (Z.eqb_spec (Z.of_nat j) 0) as [E|E].
    - assert (j = 0%nat) as -> by lia. done.
    - destruct j as [|j]; [lia|].
      destruct (lookup_lt_is_Some_2 bs j) as [b' Hb']; [lia|].
      replace (Z.of_nat (S j) - 1) with (Z.of_nat j) by lia. rewrite (read_cofst j b' Hb').
      f_equal. rewrite (take_S_r bs j b') by done. rewrite concat_app, length_app. cbn.
      rewrite app_nil_r. lia. }
  rewrite Es. cbn [mbind option_bind]. do 2 f_equal.
  - lia.
  - rewrite uwrap_small by lia. lia.
Qed.

Lemma normal_past i addr :
  (length cols <= i)%nat ->
  getColData addr normal_row (Z.of_nat i + 1) = Some (ColData h 0 rflag normal_row).
Proof.
  intros Hi. unfold getColData. rewrite normal_payload. cbn [mbind option_bind p_ncols p_rflag p_row].
  destruct (Z.ltb_spec rc (Z.of_nat i + 1)); [done|unfold rc in *; lia].
Qed.
End Normal.

(** ** The table of a hash row in memory *)

Definition cfg_ok (c : hcfg) : Prop := c = cfg32 \/ c = cfg16.

Lemma load_drop n a (pre bs rest : list Z) v :
  length pre = a -> load n (bs ++ rest) = Some v -> load n (drop a (pre ++ bs ++ rest)) = Some v.
Proof. intros <- H. by rewrite drop_app_length. Qed.

Lemma ent_bytes_length c e : cfg_ok c -> length (ent_bytes c e) = Z.to_nat (h_esize c).
Proof.
  intros Hc. unfold ent_bytes. rewrite !length_app, !length_le_bytes. by destruct Hc as [-> | ->].
Qed.

Lemma read_entries_ok c es rest :
  cfg_ok c -> Forall (ent_fits c) es ->
  read_entries c (length es) (concat (ent_bytes c <$> es) ++ rest) = Some es.
Proof.
  intros Hc HF. induction HF as [|e es (H1 & H2 & H3) _ IH]; [done|].
  cbn [fmap list_fmap concat length read_entries]. rewrite <- app_assoc.
  set (tl := concat _ ++ rest) in *.
  assert (Hd : drop (Z.to_nat (h_esize c)) (ent_bytes c e ++ tl) = tl)
    by (rewrite <- (ent_bytes_length c e Hc); by rewrite drop_app_length).
  rewrite Hd, IH. unfold ent_bytes. rewrite <- !app_assoc.
  rewrite load_le_bytes by (destruct Hc as [-> | ->]; exact H1). cbn [mbind option_bind].
  rewrite (drop_app_length' (le_bytes _ (n_colijns e)) _ (Z.to_nat (h_nw c / 8)))
    by (by rewrite length_le_bytes).
  rewrite load_le_bytes by (destruct Hc as [-> | ->]; exact H2). cbn [mbind option_bind].
  rewrite app_assoc, drop_app_length' by (by rewrite length_app, !length_le_bytes).
  rewrite load_le_bytes by (destruct Hc as [-> | ->]; exact H3). cbn [mbind option_bind].
  by destruct e.
Qed.

Lemma ht_bytes_length c ht ptr : cfg_ok c ->
  length (ht_bytes c ht ptr) = (24 + nentries ht * Z.to_nat (h_esize c))%nat.
Proof.
  intros Hc. unfold ht_bytes. rewrite !length_app, !length_le_bytes.
  assert (H : length (concat (ent_bytes c <$> entries ht))
              = (nentries ht * Z.to_nat (h_esize c))%nat).
  { unfold nentries. induction (entries ht) as [|e es IH]; [done|].
    cbn [fmap list_fmap concat length]. rewrite length_app, ent_bytes_length, IH by done. lia. }
  lia.
Qed.

(** A fresh or already read table at its address is loaded. *)
Lemma row_table_ok c addr pre ht ptr rest :
  cfg_ok c -> ht_fits c ht -> 0 <= max_colijns ht < 2 ^ 32 -> Z.of_nat (nentries ht) < 2 ^ 32 ->
  let own := addr + Z.of_nat (length pre) + sizeof_ahash in
  ptr = 0 \/ (ptr = own /\ 0 <= own < 2 ^ 64) ->
  row_table c addr (pre ++ ht_bytes c ht ptr ++ rest) (length pre)
    = Some (ht, pre ++ ht_bytes c ht own ++ rest).
Proof.
  intros Hc [Hnv HF] Hmx Hn own Hptr. unfold row_table. rewrite drop_app_length.
  fold own. set (es := concat (ent_bytes c <$> entries ht)).
  assert (Hb : forall p, ht_bytes c ht p ++ rest =
    le_bytes 4 (nvalid ht) ++ le_bytes 4 (Z.of_nat (nentries ht)) ++ le_bytes 4 (max_colijns ht)
      ++ le_bytes 4 0 ++ le_bytes 8 p ++ es ++ rest)
    by (intros p; unfold ht_bytes; by rewrite <- !app_assoc).
  assert (E24 : drop 24 (ht_bytes c ht ptr ++ rest) = es ++ rest) by (rewrite Hb; done).
  rewrite E24, Hb.
  change (drop 4 (le_bytes 4 ?a ++ ?b)) with b.
  change (drop 8 (le_bytes 4 ?a ++ le_bytes 4 ?b ++ ?r)) with r.
  change (drop 16 (le_bytes 4 ?a ++ le_bytes 4 ?b ++ le_bytes 4 ?d ++ le_bytes 4 ?e ++ ?r)) with r.
  rewrite !load_le_bytes by (cbn; first [lia | (destruct Hptr as [-> | [-> H]]; lia)]).
  cbn [mbind option_bind].
  assert (E : (if ptr =? 0 then own else ptr) = own).
  { destruct (Z.eqb_spec ptr 0); [done|]. by destruct Hptr as [|[]]. }
  rewrite E, Z.eqb_refl, Nat2Z.id. unfold es, nentries. rewrite read_entries_ok by done.
  cbn [mbind option_bind]. do 2 f_equal; [by destruct ht|].
  rewrite take_app, firstn_all2 by lia. replace (length pre + 16 - length pre)%nat with 16%nat by lia.
  rewrite <- app_assoc. f_equal.
  rewrite drop_app, (drop_ge pre) by lia.
  replace (length pre + 24 - length pre)%nat with 24%nat by lia. rewrite !Hb. done.
Qed.

(** ** Hash rows *)

(** The two kinds of hash row. *)
Inductive hash_kind (rlen nc : Z) : hcfg -> Z -> Z -> Z -> Prop :=
| kind32 : hash_kind rlen nc cfg32 UINT_MAX 32 RFLAG_HASH32_ROW
| kind16 : rlen < USHRT_MAX -> nc < USHRT_MAX ->
    hash_kind rlen nc cfg16 USHRT_MAX 16 RFLAG_HASH16_ROW.

Lemma hash_flags r flag :
  0 < r < 32 -> flag = RFLAG_HASH32_ROW \/ flag = RFLAG_HASH16_ROW ->
  let r' := Z.lor r flag in
  has r' RFLAG_HASH_ROW = true /\
  has r' RFLAG_HASH32_ROW = (flag =? RFLAG_HASH32_ROW) /\
  has r' RFLAG_HASH16_ROW = (flag =? RFLAG_HASH16_ROW) /\
  has r' RFLAG_6BIT_ZIP = has r RFLAG_6BIT_ZIP /\ has r' RFLAG_LZF_ZIP = has r RFLAG_LZF_ZIP.
Proof.
  intros Hr Hflag.
  assert (Hin : In r (Z.of_nat <$> seq 1 31)).
  { apply list_elem_of_In, list_elem_of_fmap. exists (Z.to_nat r). split; [lia|].
    apply elem_of_seq. lia. }
  destruct Hflag as [-> | ->]; repeat (destruct Hin as [<-|Hin]; [by vm_compute|]); done.
Qed.

(** The insertions [hash_cols] makes. *)
Fixpoint col_kvs (mult i prev : Z) (cols : list column) : list (Z * Z) :=
  match cols with
  | [] => []
  | (_, d) :: cols' =>
      (if empty d then [] else [(i, mcofsts d + prev * mult)]) ++
      col_kvs mult (i + 1) (mcofsts d) cols'
  end.

Lemma hash_cols_inserts c mult fuel : forall cols i prev ht ht',
  insert_all c fuel (col_kvs mult i prev cols) ht = Some ht' ->
  hash_cols c mult fuel cols i prev ht = Some ht'.
Proof.
  induction cols as [|[t d] cols IH]; intros i prev ht ht' H; [exact H|].
  cbn [col_kvs hash_cols] in *. destruct (empty d); cbn [app] in H; [by apply IH|].
  cbn [insert_all] in H. destruct (alc_hash_insert _ _ _ _ _) as [[s h1]|]; [|done].
  cbn [mbind option_bind option_map snd] in *. destruct (s =? 0); [by apply IH|done].
Qed.

Lemma col_kvs_range mult : forall cols i prev k,
  k < i -> last_val (col_kvs mult i prev cols) k = None.
Proof.
  induction cols as [|[t d] cols IH]; intros i prev k Hk; [done|]. cbn [col_kvs].
  destruct (empty d); cbn [app last_val]; rewrite IH by lia; [done|].
  by destruct (decide (i = k)); [lia|].
Qed.

(** The value inserted for column [j]: its own offset and the one before. *)
Lemma col_kvs_value mult : forall cols i prev j t d,
  cols !! j = Some (t, d) ->
  last_val (col_kvs mult i prev cols) (i + Z.of_nat j) =
    if empty d then None
    else Some (mcofsts d +
      (match j with O => prev | S j' => match cols !! j' with Some c => mcofsts c.2 | None => 0 end end)
      * mult).
Proof.
  induction cols as [|[t0 d0] cols IH]; intros i prev [|j] t d Hj; try done; cbn [lookup list_lookup] in Hj.
  - injection Hj as -> ->. cbn [col_kvs]. rewrite Z.add_0_r.
    destruct (empty d); cbn [app last_val]; rewrite col_kvs_range by lia; [done|].
    by destruct (decide (i = i)).
  - cbn [col_kvs].
    replace (i + Z.of_nat (S j)) with (i + 1 + Z.of_nat j) by lia.
    pose proof (IH (i + 1) (mcofsts d0) j t d Hj) as E.
    assert (Hrest : (match j with O => mcofsts d0
              | S j' => match cols !! j' with Some c => mcofsts c.2 | None => 0 end end)
            = match ((t0, d0) :: cols) !! j with Some c => mcofsts c.2 | None => 0 end)
      by (by destruct j).
    rewrite Hrest in E.
    destruct (empty d0); cbn [app last_val]; rewrite E; destruct (empty d); try done.
    by destruct (decide (i = i + 1 + Z.of_nat j)); [lia|].
Qed.

Lemma col_kvs_ok mult vw B : forall cols bs off i prev,
  laid off cols bs -> 0 <= off -> 0 <= prev <= off -> 0 < i ->
  i + Z.of_nat (length cols) <= B + 1 ->
  (forall x y, 0 <= x <= off + Z.of_nat (length (concat bs)) ->
     0 <= y <= off + Z.of_nat (length (concat bs)) -> x + y * mult < vw) -> 0 <= mult ->
  Forall (fun kv => 0 < kv.1 <= B /\ 0 <= kv.2 < vw) (col_kvs mult i prev cols).
Proof.
  induction cols as [|[t d] cols IH]; intros [|b bs] off i prev Hl Ho Hp Hi HB Hv Hm; try done.
  destruct Hl as [Hd Hl]. cbn [col_kvs length concat] in *. rewrite length_app in Hv.
  assert (Hrest : Forall (fun kv => 0 < kv.1 <= B /\ 0 <= kv.2 < vw)
                    (col_kvs mult (i + 1) (mcofsts d) cols)).
  { rewrite Hd. eapply IH; try done; [lia..|]. intros x y Hx Hy. apply Hv; lia. }
  destruct (empty d); [done|]. cbn [app]. constructor; [|done]. cbn [fst snd].
  split; [lia|]. split; [nia|]. apply Hv; lia.
Qed.

Section HashRow.
Context (rflag : Z) (Hrf : 0 < rflag < 32).
Context (cols : list column) (bs : list (list Z)) (n : Z) (Hl : laid 0 cols bs).
Let rc := Z.of_nat (length cols).
Let data := concat bs.
Let L := Z.of_nat (length data).
Let cr := Cr cols L n.
Context (Hrc : rc < 2 ^ 24) (HL : L < 2 ^ 31).
Context (c : hcfg) (mult wd flag : Z) (Hkind : hash_kind L (rc + 1) c mult wd flag).

Lemma kind_cfg : cfg_ok c.
Proof. destruct Hkind; unfold cfg_ok; auto. Qed.

Lemma table_built : exists ht,
  hash_cols c mult (S (Z.to_nat (ncols cr))) cols 1 0 (alc_hash_make 2) = Some ht /\
  ht_fits c ht /\ 0 <= max_colijns ht < 2 ^ 32 /\ Z.of_nat (nentries ht) < 2 ^ 26 /\
  (hash_width c ht -> lookable ht) /\
  forall k, k <> 0 -> ht_get ht k = last_val (col_kvs mult 1 0 cols) k.
Proof.
  destruct (built_ok c rc (S (Z.to_nat (ncols cr))) (col_kvs mult 1 0 cols))
    as (ht & E & Hlk & Hg & Hfit & Hn & Hm).
  - apply kind_cfg.
  - unfold rc in *. lia.
  - destruct Hkind as [|H1 H2]; cbn [h_kw cfg32 cfg16]; unfold USHRT_MAX in *; lia.
  - unfold ncols, cr, rc. cbn [Row.cols]. lia.
  - apply (col_kvs_ok mult _ rc cols bs 0); try done; try lia.
    + intros x y Hx Hy. fold data in Hx, Hy. fold L in Hx, Hy.
      destruct Hkind as [|H1 H2]; cbn [h_vw cfg32 cfg16]; unfold USHRT_MAX, UINT_MAX in *; nia.
    + destruct Hkind; unfold USHRT_MAX, UINT_MAX; lia.
  - exists ht. split; [by apply hash_cols_inserts|]. split_and!; try done; dlia.
Qed.

Context (ht : ahash).
Context (Hht : hash_cols c mult (S (Z.to_nat (ncols cr))) cols 1 0 (alc_hash_make 2) = Some ht).
Context (Hwidth : hash_width c ht).

Let pre := Z.lor rflag flag :: enc_col L true ++ enc_col rc true.
Definition hash_row : list Z := (pre ++ ht_bytes c ht 0) ++ data.
Let own (addr : Z) := addr + Z.of_nat (length pre) + sizeof_ahash.
Let hl := (length pre + (24 + nentries ht * Z.to_nat (h_esize c)))%nat.

Lemma built_facts :
  ht_fits c ht /\ 0 <= max_colijns ht < 2 ^ 32 /\ Z.of_nat (nentries ht) < 2 ^ 26 /\
  lookable ht /\ forall k, k <> 0 -> ht_get ht k = last_val (col_kvs mult 1 0 cols) k.
Proof.
  destruct table_built as (ht' & E & H1 & H2 & H3 & H4 & H5).
  assert (ht' = ht) as -> by congruence. specialize (H4 Hwidth). tauto.
Qed.

Lemma hash_row_eq : hash_row = pre ++ ht_bytes c ht 0 ++ data.
Proof. unfold hash_row. by rewrite <- app_assoc. Qed.

(** The two numbers after the flag. *)
Lemma hash_numbers tl :
  streamIntToUInt (drop 1 (pre ++ tl)) = Some (L, getCSize L true) /\
  streamIntToUInt (drop (1 + Z.to_nat (getCSize L true)) (pre ++ tl)) = Some (rc, getCSize rc true) /\
  (1 + Z.to_nat (getCSize L true) + Z.to_nat (getCSize rc true))%nat = length pre.
Proof.
  unfold pre. rewrite <- app_comm_cons, <- app_assoc.
  change (drop 1 (?a :: ?b)) with b. change (drop (1 + ?m) (?a :: ?b)) with (drop m b).
  split_and!.
  - rewrite streamIntToUInt_enc; [done|]. unfold L in *. lia.
  - rewrite <- length_enc_col_getCSize, drop_app_length, streamIntToUInt_enc; [done|].
    unfold rc in *. lia.
  - cbn [length]. rewrite length_app, !length_enc_col_getCSize. lia.
Qed.

Lemma kind_flag : flag = RFLAG_HASH32_ROW \/ flag = RFLAG_HASH16_ROW.
Proof. destruct Hkind; auto. Qed.

Lemma kind_cases :
  ((flag =? RFLAG_HASH32_ROW) = true /\ 32 = wd /\ cfg32 = c /\ UINT_MAX = mult) \/
  ((flag =? RFLAG_HASH32_ROW) = false /\ (flag =? RFLAG_HASH16_ROW) = true /\
   16 = wd /\ cfg16 = c /\ USHRT_MAX = mult).
Proof. destruct Hkind; auto 6. Qed.

Lemma kind_esize : (if flag =? RFLAG_HASH32_ROW then h_esize cfg32 else h_esize cfg16) = h_esize c.
Proof. by destruct Hkind. Qed.

Lemma hl_bound : Z.of_nat hl < 2 ^ 31.
Proof.
  destruct built_facts as (_ & _ & Hn & _). unfold hl, pre. cbn [length].
  rewrite length_app, !length_enc_col_getCSize.
  pose proof (getCSize_pos L true). pose proof (getCSize_pos rc true).
  destruct kind_cfg as [-> | ->]; cbn; lia.
Qed.

Lemma hash_payload :
  getRowPayload hash_row = Some (Payload hl (Z.lor rflag flag) rc (L + Z.of_nat hl)).
Proof.
  destruct built_facts as (_ & _ & Hn & _). pose proof hl_bound as Hb.
  destruct (hash_flags rflag flag Hrf kind_flag) as (H96 & H64 & _).
  unfold getRowPayload. rewrite hash_row_eq. change ((pre ++ ?t) !! 0%nat) with (Some (Z.lor rflag flag)).
  cbn [mbind option_bind]. rewrite H96.
  destruct (hash_numbers (ht_bytes c ht 0 ++ data)) as (-> & E2 & E3).
  cbn [mbind option_bind]. rewrite E2. cbn [mbind option_bind]. rewrite E3.
  rewrite <- drop_drop, drop_app_length. unfold ht_bytes at 1. rewrite <- !app_assoc.
  change (drop 4 (le_bytes 4 ?a ++ ?b)) with b.
  rewrite load_le_bytes by (cbn; lia). cbn [mbind option_bind]. rewrite H64, kind_esize.
  assert (Es : u32 (Z.of_nat (nentries ht) * h_esize c + sizeof_ahash)
               = Z.of_nat (24 + nentries ht * Z.to_nat (h_esize c))).
  { rewrite uwrap_small; destruct kind_cfg as [-> | ->]; cbn; unfold sizeof_ahash; lia. }
  rewrite Es, Nat2Z.id. fold hl. rewrite uwrap_small by (unfold L in *; lia). done.
Qed.

(** The value fetched for a column splits into its start and its end. *)
Lemma hash_fetch j b t d :
  bs !! j = Some b -> cols !! j = Some (t, d) ->
  exists v, alc_hash_fetch c (Z.of_nat j + 1) ht = Some v /\
    uwrap wd (v / mult) = (if empty d then 0 else Z.of_nat (length (concat (take j bs)))) /\
    u32 (uwrap wd (v mod mult) - uwrap wd (v / mult))
      = if empty d then 0 else Z.of_nat (length b).
Proof.
  intros Hb Hd. destruct built_facts as (_ & _ & _ & Hlk & Hg).
  assert (Hj : (j < length cols)%nat) by (by eapply lookup_lt_Some).
  pose proof (fetch_ok c ht (Z.of_nat j + 1) Hlk) as Hf. cbv zeta in Hf.
  rewrite (uwrap_small (h_kw c)) in Hf.
  2: { destruct Hkind as [|H1 H2]; cbn; unfold USHRT_MAX, rc in *; lia. }
  destruct (Z.eqb_spec (Z.of_nat j + 1) 0); [lia|].
  rewrite Hg in Hf by lia. replace (Z.of_nat j + 1) with (1 + Z.of_nat j) in Hf |- * by lia.
  rewrite (col_kvs_value mult cols 1 0 j t d Hd) in Hf. eexists. split; [exact Hf|].
  destruct (empty d) eqn:Ee.
  { rewrite Z.div_0_l, Z.mod_0_l by (destruct Hkind; done). by destruct Hkind. }
  destruct (laid_lookup cols bs 0 j b Hl Hb) as (t' & d' & Hd' & Hm).
  assert (d' = d) as -> by congruence.
  assert (Hprev : (match j with O => 0 | S j' =>
            match cols !! j' with Some c0 => mcofsts c0.2 | None => 0 end end)
          = Z.of_nat (length (concat (take j bs)))).
  { destruct j as [|j]; [done|].
    destruct (lookup_lt_is_Some_2 bs j) as [b' Hb'];
      [apply lookup_lt_Some in Hb; lia|].
    destruct (laid_lookup cols bs 0 j b' Hl Hb') as (t1 & d1 & -> & Hm1). cbn [snd].
    rewrite Hm1, (take_S_r bs j b') by done. rewrite concat_app, length_app. cbn.
    rewrite app_nil_r. lia. }
  rewrite Hprev. set (st := Z.of_nat (length (concat (take j bs)))) in *.
  pose proof (concat_take_le bs j b Hb) as Hle. fold data in Hle.
  assert (Hbd : 0 <= st /\ mcofsts d <= L /\ mcofsts d = st + Z.of_nat (length b)) by (unfold L; lia).
  assert (Hmult : 0 <= mcofsts d < mult).
  { destruct Hkind as [|H1 H2]; unfold UINT_MAX, USHRT_MAX in *; lia. }
  rewrite Z.div_add, Z.mod_add, Z.div_small, Z.mod_small by lia.
  rewrite !(uwrap_small wd) by (destruct Hkind; unfold UINT_MAX, USHRT_MAX in *; lia).
  split; [lia|]. rewrite uwrap_small; lia.
Qed.

Lemma hash_cell addr j b t d :
  bs !! j = Some b -> cols !! j = Some (t, d) ->
  exists st row', getColData addr hash_row (Z.of_nat j + 1)
      = Some (ColData st (if empty d then 0 else Z.of_nat (length b)) (Z.lor rflag flag) row') /\
    row' = pre ++ ht_bytes c ht (own addr) ++ data /\
    (empty d = false -> drop st row' = b ++ concat (drop (S j) bs)).
Proof.
  intros Hb Hd. destruct built_facts as (Hfit & Hm & Hn & Hlk & Hg).
  assert (Hj : (j < length cols)%nat) by (by eapply lookup_lt_Some).
  destruct (hash_flags rflag flag Hrf kind_flag) as (_ & H64 & H32 & _).
  destruct (hash_fetch j b t d Hb Hd) as (v & Hv & Hst & Hlen).
  assert (Hcd : forall wd' c' mult', wd' = wd -> c' = c -> mult' = mult ->
    hash_coldata c' mult' wd' addr hash_row (Z.of_nat j + 1)
      (Payload hl (Z.lor rflag flag) rc (L + Z.of_nat hl))
    = Some (ColData (hl + Z.to_nat (uwrap wd (v / mult))) (if empty d then 0 else Z.of_nat (length b))
              (Z.lor rflag flag) (pre ++ ht_bytes c ht (own addr) ++ data))).
  { intros wd' c' mult' Ew Ec Em. rewrite Ew, Ec, Em. unfold hash_coldata, getHashFromRow. rewrite hash_row_eq.
    destruct (hash_numbers (ht_bytes c ht 0 ++ data)) as (-> & E2 & E3).
    cbn [mbind option_bind]. rewrite E2. cbn [mbind option_bind]. rewrite E3.
    rewrite row_table_ok by (first [apply kind_cfg | done | lia | by left]).
    cbn [mbind option_bind]. rewrite Hv. cbn [mbind option_bind p_row p_rflag]. by rewrite Hlen. }
  eexists _, _. split; [|split; [reflexivity|]].
  - unfold getColData. rewrite hash_payload. cbn [mbind option_bind p_ncols p_rflag].
    destruct (Z.ltb_spec rc (Z.of_nat j + 1)); [unfold rc in *; lia|]. rewrite H64, H32.
    destruct kind_cases as [(-> & E1 & E2 & E3)|(-> & -> & E1 & E2 & E3)]; by apply Hcd.
  - intros Hne. rewrite Hst, Hne.
    rewrite Nat2Z.id. rewrite <- drop_drop.
    assert (Eh : hl = length (pre ++ ht_bytes c ht (own addr))).
    { rewrite length_app, ht_bytes_length by apply kind_cfg. done. }
    rewrite app_assoc, Eh, drop_app_length. by apply concat_take_drop.
Qed.

Lemma hash_past i addr :
  (length cols <= i)%nat ->
  getColData addr hash_row (Z.of_nat i + 1) = Some (ColData hl 0 (Z.lor rflag flag) hash_row).
Proof.
  intros Hi. unfold getColData. rewrite hash_payload. cbn [mbind option_bind p_ncols p_rflag p_row].
  destruct (Z.ltb_spec rc (Z.of_nat i + 1)); [done|unfold rc in *; lia].
Qed.
End HashRow.

(** ** The round trip *)

Definition types (cols : list column) : list ctype := (fun c => c.1) <$> cols.

(** A column marked empty stands for the empty value. *)
Definition empties_ok (cols : list column) (vs : list colval) : Prop :=
  Forall2 (fun c v => empty c.2 = true -> norm v = V_EMPTY \/ C_IS_O c.1 = true) cols vs.

(** The tables of 16-bit hash rows count their collisions in a byte. *)
Definition collisions_fit (cr : cr_t) : Prop :=
  forall cols' ht, Forall2 same_data (cols cr) cols' ->
    hash_cols cfg16 USHRT_MAX (S (Z.to_nat (ncols cr))) cols' 1 0 (alc_hash_make 2) = Some ht ->
    max_colijns ht <= UCHAR_MAX.

Lemma hash_cols_bound B fuel : 0 <= B < 2 ^ 15 -> B < Z.of_nat fuel -> forall cols i prev ht ht',
  0 < i -> i + Z.of_nat (length cols) <= B + 1 -> ht_inv B ht ->
  hash_cols cfg16 USHRT_MAX fuel cols i prev ht = Some ht' ->
  ht_inv B ht' /\ Z.of_nat (nentries ht') <= Z.max (Z.of_nat (nentries ht)) (B + B / 4 + 2).
Proof.
  intros HB Hf. induction cols as [|[t d] cs IH]; intros i prev ht ht' Hi Hle Hinv H.
  { injection H as <-. split; [done|lia]. }
  cbn [length hash_cols] in *. destruct (empty d).
  { apply IH in H; [done|lia..|done]. }
  unfold alc_hash_insert in H. rewrite (uwrap_small (h_kw cfg16) i) in H by (cbn; lia).
  pose proof (inv_pos _ _ Hinv) as Hpos.
  destruct (hash_insert_ok cfg16 ltac:(cbn; lia) B ltac:(lia) fuel i
              (uwrap (h_vw cfg16) (mcofsts d + prev * USHRT_MAX)) 0 ht Hinv ltac:(lia)
              ltac:(lia) ltac:(lia)) as (h1 & E & [I1 N1 M1 S1 G1 R1]).
  rewrite E in H. cbn [mbind option_bind option_map snd] in H.
  apply IH in H; [|lia|lia|done]. destruct H as [Hx Hy]. split; [done|lia].
Qed.

(** Up to 180 columns cannot collide too often. *)
Lemma collisions_few cr : (length (cols cr) <= 180)%nat -> collisions_fit cr.
Proof.
  intros Hn cols' ht HF H. set (B := Z.of_nat (length (cols cr))).
  assert (El : length cols' = length (cols cr)) by (symmetry; by eapply Forall2_length).
  destruct (make_ok B) as (Hi & _); [lia|].
  apply (hash_cols_bound B) in H; [|lia|unfold ncols; lia|lia|lia|done].
  destruct H as [Hinv Hsz]. pose proof (inv_max _ _ Hinv) as Hm.
  change (nentries (alc_hash_make 2)) with 2%nat in Hsz.
  unfold MAX_COLLISIONS, UCHAR_MAX in *. dlia.
Qed.

(** A row under construction as [createRow] hands it to [writeRow]. *)
Record cr_ok (writeLua : list Z -> bool) (cr : cr_t) (vs : list colval) : Prop := {
  cr_cols : cols_ok writeLua (cols cr) vs;
  cr_empties : empties_ok (cols cr) vs;
  cr_laid : raw_laid 0 (cols cr);
  cr_rlen : rlen cr = total_len (cols cr);
  cr_ne : cols cr <> [];
  cr_size : total_len (cols cr) + 16 * Z.of_nat (length (cols cr)) < 2 ^ 31;
  cr_ncols : Z.of_nat (length (cols cr)) < 2 ^ 24;
}.

Section Trip.
Context (writeLua : list Z -> bool).
Context (lzf_decompress : list Z -> Z -> list Z).

Lemma stored_lookup z : forall cols bs vs k j t d v,
  stored writeLua lzf_decompress z k cols bs vs -> cols !! j = Some (t, d) -> vs !! j = Some v ->
  exists b, bs !! j = Some b /\ reads lzf_decompress (z_type z) t b v.
Proof.
  induction cols as [|[t0 d0] cs IH]; intros [|b bs] [|v0 vs] k [|j] t d v; cbn [stored]; try done;
    cbn [lookup list_lookup]; intros (H1 & H2 & H3 & H4 & Hr) Ht Hv.
  - injection Ht as -> ->. injection Hv as ->. by exists b.
  - by eapply IH.
Qed.

(** Reading the bytes of a column, or no bytes of one marked empty. *)
Lemma cell_reads zt rflag t b v (em : bool) addr mem row j st row' rest :
  reads lzf_decompress zt t b v ->
  has rflag RFLAG_6BIT_ZIP = (zt =? CZIP_SIX) -> has rflag RFLAG_LZF_ZIP = (zt =? CZIP_LZF) ->
  mem_ok mem v -> (em = true -> norm v = V_EMPTY \/ C_IS_O t = true) ->
  (t = C_LUAO -> v = V_LUAO) ->
  getColData addr row j = Some (ColData st (if em then 0 else Z.of_nat (length b)) rflag row') ->
  (em = false -> drop st row' = b ++ rest) ->
  exists v' row2, getRawCol lzf_decompress mem addr row t j = Some (v', row2) /\ norm v' = norm v.
Proof.
  intros Hr H6 Hz Hm He Hlua Hcd Hd. unfold getRawCol. rewrite Hcd.
  cbn [mbind option_bind cd_rflag cd_start cd_row cd_clen]. destruct em.
  - unfold decode_col. cbn [Z.eqb andb]. destruct (C_IS_O t) eqn:Eo.
    + destruct t; try done. cbn. eexists _, _. split; [reflexivity|]. by rewrite Hlua.
    + cbn. eexists _, _. split; [reflexivity|]. destruct (He eq_refl) as [->|]; done.
  - rewrite Hd by done. specialize (Hr rflag mem rest H6 Hz Hm).
    destruct (decode_col _ _ _ _ _ _) as [v'|]; [|done]. cbn in Hr. injection Hr as Hr.
    eexists _, _. by split.
Qed.

Lemma past_reads addr mem row t j st rflag row' :
  C_IS_O t = false -> getColData addr row j = Some (ColData st 0 rflag row') ->
  exists row2, getRawCol lzf_decompress mem addr row t j = Some (V_EMPTY, row2).
Proof.
  intros Ho Hcd. unfold getRawCol. rewrite Hcd. cbn [mbind option_bind cd_clen].
  unfold decode_col. cbn [Z.eqb andb]. rewrite Ho. cbn. by eexists.
Qed.

(** The bytes of every column read as its value. *)
Definition cells_ok (zt : Z) (cols : list column) (bs : list (list Z)) (vs : list colval) : Prop :=
  forall j t v, types cols !! j = Some t -> vs !! j = Some v ->
    exists d b, cols !! j = Some (t, d) /\ bs !! j = Some b /\ reads lzf_decompress zt t b v /\
      (empty d = true -> norm v = V_EMPTY \/ C_IS_O t = true) /\ (t = C_LUAO -> v = V_LUAO).

Lemma normal_reads rflag w zt cols bs vs :
  flags_ok rflag w zt -> laid 0 cols bs -> cols <> [] -> Z.of_nat (length cols) < 2 ^ 24 ->
  Z.of_nat (length cols) <> TWO_POW_7 -> Z.of_nat (length cols) <> TWO_POW_14 ->
  Z.of_nat (length (concat bs)) < 256 ^ w -> Z.of_nat (length (concat bs)) < 2 ^ 31 -> cells_ok zt cols bs vs ->
  reads_back lzf_decompress (normal_row rflag cols bs) (types cols) vs /\
  getRowMallocSize (Some (normal_row rflag cols bs)) = Some (Z.of_nat (length (normal_row rflag cols bs))).
Proof.
  intros Hf Hlb Hne Hnc H7 H14 Hw HL Hcell. split.
  - intros addr mem. split.
    + intros j t v Ht Hv Hm. destruct (Hcell j t v Ht Hv) as (d & b & Hd & Hb & Hrd & He & Hlua).
      eapply (cell_reads zt rflag t b v false addr mem); try done; try apply Hf.
      * apply (normal_coldata rflag w zt); try done. apply csize_pred; try done. destruct cols; [done|cbn; lia].
      * intros _. rewrite (drop_data rflag w zt) by done. by apply concat_take_drop.
    + intros i t Hi Hi32 Ho. eapply past_reads; [done|]. eapply (normal_past rflag w zt); try done.
      unfold types in Hi. by rewrite length_fmap in Hi.
  - unfold getRowMallocSize. rewrite (normal_payload rflag w zt) by done. cbn [mbind option_bind p_rlen]. f_equal.
    rewrite (normal_row_eq rflag w zt) by done. cbn [length].
    rewrite !length_app, length_enc_col_getCSize, length_chunks, length_fmap. lia.
Qed.

Lemma hash_reads rflag zt cols bs n vs c mult wd flag ht :
  0 < rflag < 32 -> has rflag RFLAG_6BIT_ZIP = (zt =? CZIP_SIX) -> has rflag RFLAG_LZF_ZIP = (zt =? CZIP_LZF) ->
  laid 0 cols bs -> Z.of_nat (length cols) < 2 ^ 24 -> Z.of_nat (length (concat bs)) < 2 ^ 31 ->
  hash_kind (Z.of_nat (length (concat bs))) (Z.of_nat (length cols) + 1) c mult wd flag ->
  hash_cols c mult (S (Z.to_nat (ncols (Cr cols (Z.of_nat (length (concat bs))) n)))) cols 1 0 (alc_hash_make 2) = Some ht ->
  hash_width c ht -> cells_ok zt cols bs vs ->
  let row := hash_row rflag cols bs c flag ht in
  reads_back lzf_decompress row (types cols) vs /\ getRowMallocSize (Some row) = Some (Z.of_nat (length row)).
Proof.
  intros Hrf H6 Hz Hlb Hnc HL Hk Eht Hwd Hcell row.
  destruct (hash_flags rflag flag Hrf) as (_ & _ & _ & Hf6 & Hfz); [destruct Hk; auto|]. split.
  - intros addr mem. split.
    + intros j t v Ht Hv Hm. destruct (Hcell j t v Ht Hv) as (d & b & Hd & Hb & Hrd & He & Hlua).
      destruct (hash_cell rflag Hrf cols bs n Hlb Hnc HL c mult wd flag Hk ht Eht Hwd addr j b t d Hb Hd)
        as (st & row' & Hcd & _ & Hdrop).
      eapply (cell_reads zt (Z.lor rflag flag) t b v (empty d) addr mem); try done; by rewrite ?Hf6, ?Hfz.
    + intros i t Hi Hi32 Ho. eapply past_reads; [done|].
      eapply (hash_past rflag Hrf cols bs n Hlb Hnc HL c mult wd flag Hk ht Eht Hwd).
      unfold types in Hi. by rewrite length_fmap in Hi.
  - unfold getRowMallocSize. unfold row.
    rewrite (hash_payload rflag Hrf cols bs n Hlb Hnc HL c mult wd flag Hk ht Eht Hwd).
    cbn [mbind option_bind p_rlen]. f_equal. unfold hash_row.
    rewrite (length_app _ (concat bs)), (length_app _ (ht_bytes c ht 0)), ht_bytes_length
      by (destruct Hk; unfold cfg_ok; auto). lia.
Qed.
End Trip.

Section RowTrip.
Context (writeLua : list Z -> bool).
Context (lzf_compress : list Z -> Z -> option (list Z)).
Context (lzf_decompress : list Z -> Z -> list Z).
Context (lzf_spec : forall s m z, lzf_compress s m = Some z ->
  lzf_decompress z (Z.of_nat (length s)) = s /\ Z.of_nat (length z) <= m).
Context (zs : bool) (cr : cr_t) (vs : list colval) (Hok : cr_ok writeLua cr vs).
Context (Hlz : lzf_complete lzf_compress (cols cr) = true).

(** The compression step, taken or not. *)
Lemma zipped : exists cols' z bs,
  (if contains_text_col (cols cr) && zs then zipCol lzf_compress cr
   else Some (cr, Zip CZIP_NONE [] []))
    = Some (Cr cols' (Z.of_nat (length (concat bs))) (cnt cr), z) /\
  stored writeLua lzf_decompress z 0 cols' bs vs /\ laid 0 cols' bs /\
  Forall2 same_data (cols cr) cols' /\
  (z_type z = CZIP_NONE \/ z_type z = CZIP_SIX \/ z_type z = CZIP_LZF).
Proof.
  destruct Hok as [Hc _ Hl Hr Hne Hsz Hnc]. destruct (contains_text_col (cols cr) && zs).
  - by apply (zipCol_ok writeLua lzf_compress lzf_decompress lzf_spec cr vs).
  - destruct (none_stored writeLua lzf_decompress [] [] (cols cr) vs 0 Hc) as [bs Hbs].
    pose proof (stored_emitted _ _ _ _ _ _ _ Hbs) as He.
    exists (cols cr), (Zip CZIP_NONE [] []), bs. split_and!; try done.
    + do 2 f_equal. destruct cr as [cs rl cn]. cbn in *. f_equal. rewrite Hr.
      by apply (raw_total writeLua (Zip CZIP_NONE [] []) cs bs 0).
    + by apply (laid_raw writeLua (Zip CZIP_NONE [] []) _ _ 0).
    + apply same_data_refl.
    + by left.
Qed.

Lemma same_types cols cols' : Forall2 same_data cols cols' ->
  types cols' = types cols /\ length cols' = length cols /\
  forall j t d', cols' !! j = Some (t, d') ->
    exists d, cols !! j = Some (t, d) /\ empty d = empty d'.
Proof.
  induction 1 as [|[t d] [t' d'] cs cs' [Et Ed] _ (IH1 & IH2 & IH3)]; [done|].
  cbn in Et, Ed. subst t'. split_and!; [cbn; by f_equal|cbn; by f_equal|].
  intros [|j] t0 d0 Hj; cbn in Hj; [|by apply IH3].
  injection Hj as <- <-. exists d. split; [done|]. by rewrite Ed.
Qed.

(** [createHashRow] always decides. *)
Lemma hash_choice cols' bs z rflag w :
  laid 0 cols' bs -> Z.of_nat (length cols') < 2 ^ 24 ->
  let L := Z.of_nat (length (concat bs)) in
  L < 2 ^ 31 -> flags_ok rflag w (z_type z) -> (w = 1 \/ w = 2 -> L < USHRT_MAX) ->
  let cr' := Cr cols' L (cnt cr) in
  createHashRow cr' rflag = Some None \/
  exists c mult wd flag ht,
    hash_kind L (Z.of_nat (length cols') + 1) c mult wd flag /\
    hash_cols c mult (S (Z.to_nat (ncols cr'))) cols' 1 0 (alc_hash_make 2) = Some ht /\
    createHashRow cr' rflag = Some (Some (Z.lor rflag flag :: rawUintWriteToRow L
      ++ rawUintWriteToRow (ncols cr' - 1) ++ ht_bytes c ht 0, Z.lor rflag flag)).
Proof.
  intros Hl Hnc L HL Hf Hw cr'. unfold createHashRow.
  destruct (_ || _); [by left|].
  assert (Hgo : forall c mult wd flag msize,
    hash_kind L (Z.of_nat (length cols') + 1) c mult wd flag ->
    createHashNRow c mult flag cr' rflag msize = Some None \/
    exists ht, hash_cols c mult (S (Z.to_nat (ncols cr'))) cols' 1 0 (alc_hash_make 2) = Some ht /\
      createHashNRow c mult flag cr' rflag msize = Some (Some (Z.lor rflag flag ::
        rawUintWriteToRow L ++ rawUintWriteToRow (ncols cr' - 1) ++ ht_bytes c ht 0, Z.lor rflag flag))).
  { intros c mult wd flag msize Hk.
    destruct (table_built cols' bs (cnt cr) Hl Hnc HL c mult wd flag Hk) as (ht & E & _).
    fold L cr' in E. unfold createHashNRow. change (Row.cols cr') with cols'. rewrite E.
    cbn [mbind option_bind]. destruct (_ <? _); [right; by exists ht|by left]. }
  destruct (negb (has rflag RFLAG_4BYTE_INT) && (ncols cr' <? USHRT_MAX)) eqn:Eu.
  - apply andb_prop in Eu as [E4 En]. apply Z.ltb_lt in En.
    assert (Hk : hash_kind L (Z.of_nat (length cols') + 1) cfg16 USHRT_MAX 16 RFLAG_HASH16_ROW).
    { constructor; [|exact En]. apply Hw. rewrite (fl_4 _ _ _ Hf) in E4.
      destruct (fl_width _ _ _ Hf) as [-> | [-> | ->]]; auto. done. }
    destruct (Hgo _ _ _ _ (u32 (ncols cr' * Z.land rflag RFLAG_SIZE_FLAG)) Hk)
      as [E|(ht & E1 & E2)]; [by left|].
    right. eexists _, _, _, _, ht. by split_and!.
  - pose proof (kind32 L (Z.of_nat (length cols') + 1)) as Hk.
    destruct (Hgo _ _ _ _ (u32 (ncols cr' * Z.land rflag RFLAG_SIZE_FLAG)) Hk)
      as [E|(ht & E1 & E2)]; [by left|].
    right. eexists _, _, _, _, ht. by split_and!.
Qed.

Lemma lua_value t d v : col_ok writeLua t d v -> t = C_LUAO -> v = V_LUAO.
Proof. by destruct 1. Qed.

Lemma stored_cells cols' z bs :
  stored writeLua lzf_decompress z 0 cols' bs vs -> Forall2 same_data (cols cr) cols' ->
  cells_ok lzf_decompress (z_type z) cols' bs vs.
Proof.
  intros Hst HF j t v Ht Hv. destruct Hok as [Hc Hem _ _ _ _ _]. destruct (same_types _ _ HF) as (_ & _ & Hcols).
  unfold types in Ht. rewrite list_lookup_fmap in Ht.
  destruct (cols' !! j) as [[t' d']|] eqn:Ej; [|done]. cbn in Ht. injection Ht as ->.
  destruct (Hcols j t d' Ej) as (d & Ed & Eemp).
  destruct (stored_lookup _ _ _ _ _ _ _ j t d' v Hst Ej Hv) as (b & Hb & Hrd).
  exists d', b. split_and!; try done.
  - rewrite <- Eemp. by apply (Forall2_lookup_lr _ _ _ _ _ _ Hem Ed Hv).
  - apply (lua_value t d). by apply (Forall2_lookup_lr _ _ _ _ _ _ Hc Ed Hv).
Qed.

Lemma same_total cols cols' : Forall2 same_data cols cols' -> total_len cols' = total_len cols.
Proof.
  induction 1 as [|[t d] [t' d'] cs cs' [Et Ed] _ IH]; [done|]. cbn in Et, Ed |- *. subst t'. rewrite IH, Ed. by destruct t.
Qed.

(** What the row is made of: the columns after compression, their bytes, and the
    flag of the row. *)
Lemma row_made : exists cols' z bs w rflag,
  (if contains_text_col (cols cr) && zs then zipCol lzf_compress cr else Some (cr, Zip CZIP_NONE [] []))
    = Some (Cr cols' (Z.of_nat (length (concat bs))) (cnt cr), z) /\
  rflag = assign_rflag (Z.of_nat (length (concat bs))) (z_type z) /\
  writeRow lzf_compress writeLua zs cr = (
    h ← createHashRow (Cr cols' (Z.of_nat (length (concat bs))) (cnt cr)) rflag;
    Some (Some (match h with
                | Some h => h.1 ++ concat bs
                | None => normal_row rflag cols' bs
                end))) /\
  stored writeLua lzf_decompress z 0 cols' bs vs /\ laid 0 cols' bs /\ Forall2 same_data (cols cr) cols' /\
  Z.of_nat (length (concat bs)) < 2 ^ 31 /\ flags_ok rflag w (z_type z) /\
  Z.of_nat (length (concat bs)) < 256 ^ w /\ (w = 1 \/ w = 2 -> Z.of_nat (length (concat bs)) < USHRT_MAX).
Proof.
  destruct Hok as [Hc Hem Hl Hr Hne Hsz Hnc].
  destruct zipped as (cols' & z & bs & Ez & Hst & Hlb & HF & Hzt). destruct (same_types _ _ HF) as (_ & Elen & _).
  pose proof (stored_length _ _ _ _ _ _ _ Hst) as Hbl. rewrite (same_total _ _ HF), Elen in Hbl.
  set (L := Z.of_nat (length (concat bs))) in *.
  destruct (assign_flags L (z_type z)) as (w & Hf & Hw & Hw2); [lia|done|].
  exists cols', z, bs, w, (assign_rflag L (z_type z)). split_and!; try done; [|lia].
  unfold writeRow. rewrite Ez. cbn [mbind option_bind]. unfold row_header. cbn [rlen Row.cols].
  destruct (createHashRow _ _) as [[[h f]|]|]; [..|done]; cbn [mbind option_bind];
    by rewrite (emitted_concat _ _ _ _ _ (stored_emitted _ _ _ _ _ _ _ Hst)).
Qed.

(** The row written reads back, whichever kind it is. *)
Lemma row_ok :
  Z.of_nat (length (cols cr)) <> TWO_POW_7 -> Z.of_nat (length (cols cr)) <> TWO_POW_14 ->
  collisions_fit cr ->
  exists row, writeRow lzf_compress writeLua zs cr = Some (Some row) /\
    reads_back lzf_decompress row (types (cols cr)) vs /\
    getRowMallocSize (Some row) = Some (Z.of_nat (length row)).
Proof.
  intros H7 H14 Hcol. destruct row_made as (cols' & z & bs & w & rflag & _ & _ & E & Hst & Hlb & HF & HL & Hf & Hw & Hw2).
  pose proof (stored_cells cols' z bs Hst HF) as Hcell.
  destruct (same_types _ _ HF) as (Ety & Elen & _). destruct Hok as [_ _ _ _ Hne _ Hnc]. rewrite E, <- Ety.
  pose proof (hash_choice cols' bs z rflag w Hlb ltac:(lia) HL Hf Hw2) as Hch. cbv zeta in Hch.
  destruct Hch as [->|(c & mult & wd & flag & ht & Hk & Eht & ->)]; cbn [mbind option_bind fst];
    eexists; (split; [reflexivity|]).
  - eapply normal_reads; try done; try lia; [|by rewrite Elen..]. intros ->. by destruct (cols cr).
  - unfold ncols. cbn [Row.cols]. replace (Z.of_nat (length cols') + 1 - 1) with (Z.of_nat (length cols')) by lia.
    set (L := Z.of_nat (length (concat bs))) in *.
    assert (Hrow : forall f r m, (f :: rawUintWriteToRow L ++ rawUintWriteToRow r ++ m) ++ concat bs
      = ((f :: enc_col L true ++ enc_col r true) ++ m) ++ concat bs).
    { intros f r m. cbn [app]. do 2 f_equal. by rewrite <- (app_assoc (enc_col L true)). }
    rewrite Hrow. change (_ ++ concat bs) with (hash_row rflag cols' bs c flag ht).
    apply (hash_reads lzf_decompress rflag (z_type z) cols' bs (cnt cr) vs c mult wd flag ht); try done; try apply Hf; [lia|].
    destruct Hk as [|H1 H2]; [by left|]. right. split; [done|]. apply (Hcol cols'); [done|].
    rewrite <- Eht. unfold ncols. cbn [Row.cols]. by rewrite Elen.
Qed.
End RowTrip.

(** ** Properties *)

(** C21: whatever [writeRow] is given by [createRow] (offsets that add up, every
    number, ASCII text and LRU or LFU column encoded as it should, columns of up
    to 2^31 bytes in all), it returns a row, normal or hash, compressed or not,
    from which [getRawCol] reads back every column and reads columns past the
    last as empty, and whose [getRowMallocSize] is its length.  The LZF library
    is assumed to invert itself; excluded are TEXT columns with bytes of 128 or
    more, for which the six-bit packer is undefined, U128 columns that are not
    given ([empty_u128_column]), 128 or 16384 stored columns ([cofsts_misread]), a
    TEXT column LZF gives up on ([lzf_partial]), and 16-bit hash tables with more
    than 255 collisions. *)
Theorem row_roundtrip (writeLua : list Z -> bool)
    (lzf_compress : list Z -> Z -> option (list Z)) (lzf_decompress : list Z -> Z -> list Z)
    (lzf_spec : forall s m z, lzf_compress s m = Some z ->
       lzf_decompress z (Z.of_nat (length s)) = s /\ Z.of_nat (length z) <= m)
    (zs : bool) (cr : cr_t) (vs : list colval) :
  cr_ok writeLua cr vs -> lzf_complete lzf_compress (cols cr) = true -> collisions_fit cr ->
  Z.of_nat (length (cols cr)) <> TWO_POW_7 -> Z.of_nat (length (cols cr)) <> TWO_POW_14 ->
  exists row, writeRow lzf_compress writeLua zs cr = Some (Some row) /\
    reads_back lzf_decompress row (types (cols cr)) vs /\
    getRowMallocSize (Some row) = Some (Z.of_nat (length row)).
Proof. intros. by eapply row_ok. Qed.

(** A library that never compresses, and one that always does (to the text
    itself): two instances of the parameters. *)
Definition no_lzf (s : list Z) (m : Z) : option (list Z) := None.
Definition id_lzf (s : list Z) (m : Z) : option (list Z) :=
  if Z.of_nat (length s) <=? m then Some s else None.
Definition id_unlzf (s : list Z) (len : Z) : list Z := s.
Definition lua_accepts (s : list Z) : bool := true.

Definition int_col (off v : Z) : column :=
  (C_INT, let c := cr8Icol v in Crd [49] (col c) (sflag c) 0 0 false false off).
Definition empty_int_col (off : Z) : column := (C_INT, Crd [] 0 0 0 0 false true off).

(** [n] INT columns holding 1, 2, ..., [n]. *)
Definition int_row (n : nat) : cr_t :=
  Cr ((fun i => int_col (Z.of_nat i) (Z.of_nat i)) <$> seq 1 n) (Z.of_nat n) (Z.of_nat n).

Definition read_col (cr : cr_t) (addr : Z) (t : ctype) (cmatch : Z) : option colval :=
  row ← writeRow no_lzf lua_accepts true cr;
  row ← row;
  fst <$> getRawCol id_unlzf [] addr row t cmatch.

(** with 128 columns after the key (not with 127) every column but the
    first reads as its neighbour: the offsets are looked for as if the number of
    columns were one less and took one byte less. *)
Theorem cofsts_misread :
  read_col (int_row 127) 4096 C_INT 5 = Some (V_INT 5) /\
  read_col (int_row 128) 4096 C_INT 5 = Some (V_INT 4).
Proof. by vm_compute. Qed.

(** A U128 column not given, before an INT column. *)
Definition u128_row : cr_t := Cr [(C_U128, Crd [] 0 0 0 0 false true 0); int_col 1 5] 1 1.

(** an empty U128 column counts for no bytes but is written as sixteen: the
    row overflows its allocation and the next column, [5], reads as [0]. *)
Theorem empty_u128_column :
  writeRow no_lzf lua_accepts true u128_row
    = Some (Some ([1; 5; 0; 1] ++ replicate 16 0 ++ [11])) /\
  (createRowBlob 3 (assign_rflag 1 CZIP_NONE) 1).2 = 6 /\
  read_col u128_row 4096 C_INT 2 = Some (V_INT 0).
Proof. by vm_compute. Qed.

(** When LZF gives up on the row's TEXT column, of more than 20 characters,
    the sums of the columns compressed so far (none) still justify compression:
    the row is laid out as LZF with a compressed form that was never made. *)
Theorem lzf_partial (lzf_compress : list Z -> Z -> option (list Z)) (d : crd_t) (rl cn : Z) :
  20 < slens d < 2 ^ 29 -> lzf_compress (strs d) (slens d + 4) = None ->
  zipCol lzf_compress (Cr [(C_STRING, d)] rl cn) = None.
Proof.
  intros Hd Hz. unfold zipCol. cbn [Row.cols existsb fst snd C_IS_S andb orb lzf_cols].
  destruct (Z.ltb_spec 20 (slens d)) as [_|]; [|lia]. cbn [orb]. unfold lzfZipCol. fold (slens d).
  rewrite uwrap_small, Z.max_r, Hz by lia. cbn [mbind option_bind].
  unfold compression_justified. rewrite uwrap_small by lia.
  destruct (Z.ltb_spec 0 (0 + slens d)); [|lia]. by cbn.
Qed.

(** 200 INT columns, four of them given. *)
Definition sparse_row : cr_t :=
  Cr ((fun i => if (i mod 50 =? 0)%nat then int_col (Z.of_nat (i / 50)) (Z.of_nat (i / 2))
                else empty_int_col (Z.of_nat (i / 50))) <$> seq 1 200) 4 4.

(** Reading a hash row stores the address of its table in the row; read
    again at that address it answers as before, but a copy of it at another
    address is read through the old one. *)
Theorem hash_row_moved :
  (row ← writeRow no_lzf lua_accepts true sparse_row;
   row ← row;
   '(v, row') ← getRawCol id_unlzf [] 4096 row C_INT 100;
   Some (v, fst <$> getRawCol id_unlzf [] 4096 row' C_INT 100,
         getRawCol id_unlzf [] 8192 row' C_INT 100))
  = Some (V_INT 50, Some (V_INT 50), None).
Proof. by vm_compute. Qed.

(** ** Witnesses *)

(** A row with the number 300, the text [Hi] and no third column. *)
Definition sample_row : cr_t :=
  let c := cr8Icol 300 in
  Cr [(C_INT, Crd [51; 48; 48] (col c) (sflag c) 0 0 false false 2);
      (C_STRING, Crd [72; 105] 0 0 0 0 false false 4);
      (C_LONG, Crd [] 0 0 0 0 false true 4)] 4 2.
Definition sample_vals : list colval := [V_INT 300; V_STRING [72; 105]; V_EMPTY].

Lemma sample_row_ok : cr_ok lua_accepts sample_row sample_vals.
Proof.
  split; try done.
  - constructor; [by apply ok_int|]. constructor; [|constructor; [by apply ok_long_empty|constructor]].
    apply (ok_text _ (Crd [72; 105] 0 0 0 0 false false 4));
      [repeat constructor; lia|unfold slens; cbn; lia].
  - repeat constructor; by cbn; auto.
Qed.

Lemma id_lzf_spec : forall s m z, id_lzf s m = Some z ->
  id_unlzf z (Z.of_nat (length s)) = s /\ Z.of_nat (length z) <= m.
Proof.
  unfold id_lzf, id_unlzf. intros s m z. destruct (Z.leb_spec (Z.of_nat (length s)) m); [|done].
  by intros [= <-].
Qed.

Lemma row_roundtrip_witness :
  exists row, writeRow id_lzf lua_accepts true sample_row = Some (Some row) /\
    reads_back id_unlzf row [C_INT; C_STRING; C_LONG] sample_vals /\
    getRowMallocSize (Some row) = Some (Z.of_nat (length row)).
Proof.
  apply (row_roundtrip lua_accepts id_lzf id_unlzf id_lzf_spec true sample_row sample_vals
           sample_row_ok); [reflexivity|apply collisions_few; cbn; lia|cbn; discriminate|cbn; discriminate].
Defined.

Lemma lzf_partial_witness :
  zipCol no_lzf (Cr [(C_STRING, Crd (replicate 30 97) 0 0 0 0 false false 30)] 30 1) = None.
Proof. apply lzf_partial; [unfold slens; cbn; lia|reflexivity]. Defined.
