(* ===== verification/RowInsert.v ===== *)
(** * From the text of an INSERT to a row and back ([DB/row.c])

    [createRow_data] on a list of values written out as SQL text, one column
    after the other, collects exactly those values; the row made from it reads
    back as them. *)

From S2P Require Import Prelude Stream SixBit Hash CStr Row RowLayout RowTrip.

(** ** Values as text *)

(** Decimal numbers, [high|low] for 128 bits, quoted text; an empty value is
    not written at all. *)
Definition render (v : colval) : list Z :=
  match v with
  | V_INT i => print_lu i
  | V_LONG l => print_lu l
  | V_U128 x => print_lu (x / 2 ^ 64) ++ 124 :: print_lu (x mod 2 ^ 64)
  | V_STRING s => 39 :: s ++ [39]
  | _ => []
  end.

(** A value a column of the type can be given. *)
Inductive val_ok : ctype -> colval -> Prop :=
| val_int i : 0 <= i < 2 ^ 32 -> val_ok C_INT (V_INT i)
| val_long l : 0 <= l < 2 ^ 64 -> val_ok C_LONG (V_LONG l)
| val_u128 x : 0 <= x < 2 ^ 128 -> val_ok C_U128 (V_U128 x)
| val_text s : Forall (fun c => 0 <= c < 128) s -> Z.of_nat (length s) < 2 ^ 29 ->
    val_ok C_STRING (V_STRING s).

Lemma render_head t v : val_ok t v -> exists c s, render v = c :: s /\ ISBLANK c = false.
Proof.
  assert (Hp : forall n, 0 <= n < 2 ^ 64 -> exists c s, print_lu n = c :: s /\ ISBLANK c = false).
  { intros n Hn. destruct (print_lu_digits n Hn) as (HF & Hne & _).
    destruct (print_lu n) as [|c s]; [done|]. apply Forall_cons in HF as [Hc _].
    exists c, s. split; [done|]. by apply isdigit_not_blank. }
  destruct 1 as [i Hi|l Hl|x Hx|s _ _]; cbn [render].
  - apply Hp. lia.
  - by apply Hp.
  - destruct (Hp (x / 2 ^ 64)) as (c & s & -> & Hc).
    { split; [apply Z.div_pos; lia|apply Z.div_lt_upper_bound; lia]. }
    by exists c, (s ++ 124 :: print_lu (x mod 2 ^ 64)).
  - by exists 39, (s ++ [39]).
Qed.

(** Nothing to trim around a value followed by a comma or a parenthesis. *)
Lemma col_slice_ok pre s e post :
  (exists c s', s = c :: s' /\ ISBLANK c = false) -> ISBLANK e = false ->
  col_slice (pre ++ s ++ e :: post) (length pre) (length pre + length s)
    = Some (length pre, Z.of_nat (length s)).
Proof.
  intros (c & s' & -> & Hc) He. unfold col_slice.
  rewrite (SKIP_SPACES_at _ _ c); [|cbn [app]; by apply list_lookup_middle|done].
  cbn [mbind option_bind].
  assert (El : (pre ++ (c :: s') ++ e :: post) !! (length pre + length (c :: s'))%nat = Some e).
  { rewrite app_assoc. apply list_lookup_middle. by rewrite length_app. }
  rewrite El. cbn [mbind option_bind]. rewrite He. cbn [mbind option_bind]. do 2 f_equal. lia.
Qed.

Section Fill.
Context (writeLua : list Z -> bool) (atof : list Z -> Z).

Lemma number_string n : 0 <= n < 2 ^ 64 ->
  strtoul (cstring (print_lu n)) = n /\ (length (print_lu n) =? 0)%nat = false /\
  (31 <=? Z.of_nat (length (print_lu n))) = false.
Proof.
  intros Hn. destruct (print_lu_digits n Hn) as (HF & Hne & Hl).
  rewrite cstring_id by (by apply digits_nonzero). split_and!.
  - by apply strtoul_print.
  - apply Nat.eqb_neq. by destruct (print_lu n).
  - apply Z.leb_gt. lia.
Qed.

Lemma parse_number n c r : 0 <= n < 2 ^ 64 -> isdigit c = false -> c <> 0 ->
  strtoul (cstring (print_lu n ++ c :: r)) = n.
Proof.
  intros Hn Hc H0. destruct (print_lu_digits n Hn) as (HF & Hne & Hl).
  rewrite cstring_app by (by apply digits_nonzero). cbn [cstring].
  destruct (Z.eqb_spec c 0); [done|]. rewrite strtoul_prefix by done. by apply strtoul_print.
Qed.

Lemma parse_u128 pre x e post :
  0 <= x < 2 ^ 128 -> isdigit e = false -> e <> 0 ->
  let s := render (V_U128 x) in
  parseU128n (pre ++ s ++ e :: post) (length pre) (length s) = Some (Some x).
Proof.
  intros Hx He He0 s. unfold parseU128n. rewrite slice_mid by done. cbn [mbind option_bind].
  assert (Hh : 0 <= x / 2 ^ 64 < 2 ^ 64)
    by (split; [apply Z.div_pos; lia|apply Z.div_lt_upper_bound; lia]).
  assert (Hlo : 0 <= x mod 2 ^ 64 < 2 ^ 64) by (apply Z.mod_pos_bound; lia).
  destruct (print_lu_digits _ Hh) as (HF & Hne & Hl).
  destruct (print_lu_digits _ Hlo) as (HF2 & Hne2 & Hl2).
  assert (Ef : list_find (fun c => c = 124) s = Some (length (print_lu (x / 2 ^ 64)), 124)).
  { apply list_find_Some. unfold s. cbn [render]. split_and!.
    - by apply list_lookup_middle.
    - done.
    - intros j y Hj Hlt ->. rewrite lookup_app_l in Hj by done.
      apply (Forall_lookup_1 _ _ _ _ HF) in Hj. done. }
  rewrite Ef.
  assert (Es : pre ++ s ++ e :: post = (pre ++ print_lu (x / 2 ^ 64) ++ [124])
                 ++ print_lu (x mod 2 ^ 64) ++ e :: post).
  { unfold s. cbn [render]. by rewrite <- !app_assoc. }
  assert (Ed : drop (length pre + length (print_lu (x / 2 ^ 64)) + 1) (pre ++ s ++ e :: post)
               = print_lu (x mod 2 ^ 64) ++ e :: post).
  { rewrite Es. apply drop_app_length'. rewrite !length_app. cbn. lia. }
  destruct (print_lu (x mod 2 ^ 64)) as [|c0 r0] eqn:E0; [done|].
  assert (Hc0 : (pre ++ s ++ e :: post) !! (length pre + length (print_lu (x / 2 ^ 64)) + 1)%nat = Some c0).
  { rewrite <- (take_drop (length pre + length (print_lu (x / 2 ^ 64)) + 1) (pre ++ s ++ e :: post)), Ed.
    cbn [app]. apply list_lookup_middle. rewrite length_take, Es, !length_app. cbn. lia. }
  rewrite Hc0. cbn [mbind option_bind]. apply Forall_cons in HF2 as [Hd0 _].
  destruct (Z.eqb_spec c0 0) as [->|_]; [done|].
  rewrite Ed, <- E0, parse_number by done.
  rewrite drop_app_length. unfold s. cbn [render]. rewrite <- app_assoc. cbn [app].
  rewrite parse_number by done. do 2 f_equal.
  rewrite Z.add_comm, Z.mul_comm, <- Z.div_mod; [done|lia].
Qed.

Lemma enc_small l isi n : Z.of_nat (length (enc_col l isi)) <= Z.of_nat n + 16.
Proof. rewrite length_enc_col, csize_getCSize. pose proof (getCSize_pos l isi). lia. Qed.

(** Each value given is collected as itself. *)
Lemma fill_col_ok t v pre e post :
  val_ok t v -> ISBLANK e = false -> isdigit e = false -> e <> 0 ->
  exists d, fill_col atof (pre ++ render v ++ e :: post) t
      (Z.of_nat (length pre), Z.of_nat (length pre + length (render v)))
      = Some (Some (d, raw_len t d)) /\ col_ok writeLua t d v /\ empty d = false /\
    raw_len t d <= Z.of_nat (length (render v)) + 16.
Proof.
  intros Hv Hb Hd H0. unfold fill_col. cbn [fst snd].
  destruct (Z.eqb_spec (Z.of_nat (length pre)) (-1)); [lia|]. rewrite !Nat2Z.id.
  rewrite col_slice_ok by (done || by eapply render_head). cbn [mbind option_bind].
  set (s := render v). set (vals := pre ++ s ++ e :: post).
  assert (Hsl : slice vals (length pre) (Z.to_nat (Z.of_nat (length s))) = Some s)
    by (rewrite Nat2Z.id; by apply slice_mid).
  destruct (Z.ltb_spec (Z.of_nat (length s)) 0); [lia|].
  destruct Hv as [i Hi|l Hl|x Hx|str HA HL]; rewrite ?Hsl; cbn [mbind option_bind].
  - destruct (number_string i) as (E1 & E2 & E3); [lia|]. unfold cr8IcolFromStr, strToULong.
    unfold s. cbn [render]. rewrite E2, E3, E1. cbn [mbind option_bind andb].
    unfold TWO_POW_32. destruct (Z.leb_spec 4294967296 i); [lia|]. cbn [mbind option_bind].
    exists (Crd (print_lu i) (col (cr8Icol i)) (sflag (cr8Icol i)) 0 0 false false 0).
    split; [|split; [by apply ok_int|split; [done|apply (enc_small i true)]]].
    do 3 f_equal. cbn [raw_len iflags icols]. change (writeUIntCol _ _) with (enc_col i true).
    by rewrite length_enc_col.
  - destruct (number_string l) as (E1 & E2 & E3); [lia|]. unfold cr8LcolFromStr, strToULong.
    unfold s. cbn [render]. rewrite E2, E3, E1. cbn [mbind option_bind andb].
    exists (Crd (print_lu l) (col (cr8Lcol l)) (sflag (cr8Lcol l)) 0 0 false false 0).
    split; [|split; [by apply ok_long|split; [done|apply (enc_small l false)]]].
    do 3 f_equal. cbn [raw_len iflags icols]. change (writeULongCol _ _) with (enc_col l false).
    by rewrite length_enc_col.
  - assert (Hne : s <> []) by (destruct (render_head C_U128 (V_U128 x)) as (c & s' & E & _);
      [by constructor|]; unfold s; by rewrite E).
    assert (E0 : (length s =? 0)%nat = false) by (apply Nat.eqb_neq; by destruct s).
    rewrite E0. unfold vals, s. rewrite parse_u128 by done. cbn [mbind option_bind].
    fold s. exists (Crd s 0 0 x 0 false false 0). split; [|split; [|split; [done|]]].
    + done.
    + by apply (ok_u128 writeLua (Crd s 0 0 x 0 false false 0)).
    + cbn [raw_len empty]. lia.
  - unfold s in *. cbn [render length] in *. rewrite length_app in *. cbn [length] in *.
    destruct (Z.ltb_spec (Z.of_nat (S (length str + 1))) 2); [lia|].
    assert (Es : slice vals (length pre + 1) (Z.to_nat (Z.of_nat (S (length str + 1)) - 2)) = Some str).
    { unfold vals. cbn [app]. rewrite <- app_assoc.
      change (pre ++ 39 :: ?t) with (pre ++ [39] ++ t). rewrite app_assoc.
      apply slice_mid; [by rewrite length_app|lia]. }
    rewrite Es. cbn [mbind option_bind]. exists (Crd str 0 0 0 0 false false 0).
    split; [|split; [|split; [done|]]].
    + do 3 f_equal. cbn [raw_len]. unfold slens. cbn [strs]. lia.
    + apply (ok_text writeLua (Crd str 0 0 0 0 false false 0)); [done|unfold slens; cbn; lia].
    + cbn [raw_len]. unfold slens. cbn [strs]. lia.
Qed.

(** A column not given is collected as empty. *)
Lemma fill_col_empty t vals :
  t <> C_U128 -> t <> C_LUAO ->
  exists d v, fill_col atof vals t (-1, -1) = Some (Some (d, raw_len t d)) /\
    col_ok writeLua t d v /\ norm v = V_EMPTY /\ empty d = true /\ raw_len t d = 0.
Proof.
  intros HU HO. unfold fill_col. cbn [fst snd Z.eqb Pos.eqb mbind option_bind].
  set (d := Crd [] 0 0 0 0 false true 0).
  destruct t; try done; exists d.
  - exists V_EMPTY. split; [done|]. split; [by apply ok_int_empty|done].
  - exists V_EMPTY. split; [done|]. split; [by apply ok_long_empty|done].
  - exists V_EMPTY. split; [done|]. split; [by apply ok_float_empty|done].
  - exists (V_STRING []). split; [done|]. split; [|done].
    apply (ok_text writeLua d); [constructor|unfold slens; cbn; lia].
Qed.

(** ** The list of values *)

Definition is_empty (v : colval) : bool := match v with V_EMPTY => true | _ => false end.

(** The text of the columns from position [pos] and their slices; a comma
    follows every value, a parenthesis the last one. *)
Fixpoint layout (pos : nat) (vs : list colval) : list Z * list (Z * Z) :=
  match vs with
  | [] => ([], [])
  | v :: vs' =>
      if is_empty v then
        let '(b, o) := layout pos vs' in (b, (-1, -1) :: o)
      else
        let e := if forallb is_empty vs' then 41 else 44 in
        let n := length (render v) in
        let '(b, o) := layout (pos + n + 1) vs' in
        (render v ++ e :: b, (Z.of_nat pos, Z.of_nat (pos + n)) :: o)
  end.

(** The whole buffer: the key, a comma, the columns, the terminator. *)
Definition insert_text (pk : list Z) (vs : list colval) : list Z :=
  pk ++ 44 :: (layout (length pk + 1) vs).1 ++ [0].
Definition insert_cofsts (pk : list Z) (vs : list colval) : list (Z * Z) :=
  (0, Z.of_nat (length pk)) :: (layout (length pk + 1) vs).2.

Section Table.
Context (rt : r_tbl_t) (lru : Z) (Hlru : 0 <= lru < 2 ^ 29).

(** What column [i] of the table may be given, and what it then holds. *)
Definition input_ok (i : nat) (t : ctype) (v : colval) : Prop :=
  if bool_decide (lruc rt = Some i) then t = C_INT /\ v = V_EMPTY
  else if bool_decide (lfuc rt = Some i) then t = C_LONG /\ v = V_EMPTY
  else val_ok t v \/ (v = V_EMPTY /\ t <> C_U128 /\ t <> C_LUAO).
Definition expected (i : nat) (v : colval) : colval :=
  if bool_decide (lruc rt = Some i) then V_INT lru
  else if bool_decide (lfuc rt = Some i) then V_LONG 1
  else v.

Fixpoint inputs_ok (i : nat) (ts : list ctype) (vs : list colval) : Prop :=
  match ts, vs with
  | [], [] => True
  | t :: ts', v :: vs' => input_ok i t v /\ inputs_ok (S i) ts' vs'
  | _, _ => False
  end.

Fixpoint budget (vs : list colval) : Z :=
  match vs with
  | [] => 0
  | v :: vs' => Z.of_nat (length (render v)) + 16 + budget vs'
  end.

Lemma budget_nonneg vs : 0 <= budget vs.
Proof. induction vs as [|v vs IH]; cbn [budget]; lia. Qed.

(** One column of the table, whatever it is given. *)
Lemma step_ok i t v pre post e :
  input_ok i t v -> ISBLANK e = false -> isdigit e = false -> e <> 0 ->
  let o := if is_empty v then (-1, -1)
           else (Z.of_nat (length pre), Z.of_nat (length pre + length (render v))) in
  exists d w,
    (if bool_decide (lruc rt = Some i) then Some (Some (lru_crd lru))
     else if bool_decide (lfuc rt = Some i) then Some (Some lfu_crd)
     else fill_col atof (pre ++ (if is_empty v then [] else render v ++ [e]) ++ post) t o)
      = Some (Some (d, raw_len t d)) /\
    col_ok writeLua t d w /\ norm w = norm (expected i v) /\
    (empty d = true -> norm w = V_EMPTY) /\
    0 <= raw_len t d <= Z.of_nat (length (render v)) + 16.
Proof.
  intros Hi Hb Hd H0 o. unfold input_ok, expected in *.
  destruct (bool_decide (lruc rt = Some i)).
  { destruct Hi as [-> ->]. exists (lru_crd lru).1, (V_INT lru). split_and!; try done.
    - apply (ok_lru writeLua _ lru); done. }
  destruct (bool_decide (lfuc rt = Some i)).
  { destruct Hi as [-> ->]. exists lfu_crd.1, (V_LONG 1). split_and!; try done.
    - apply (ok_lfu writeLua _ 1); done. }
  destruct Hi as [Hv|(-> & HU & HO)].
  - assert (He : is_empty v = false) by (by destruct Hv). unfold o. rewrite He, <- app_assoc.
    destruct (fill_col_ok t v pre e post Hv Hb Hd H0) as (d & E & Hok & Hem & Hle).
    exists d, v. split_and!; try done; [by rewrite Hem|apply raw_len_nonneg].
  - destruct (fill_col_empty t (pre ++ [] ++ post) HU HO) as (d & w & E & Hok & Hn & Hem & H0').
    exists d, w. unfold o. cbn [is_empty render length]. split_and!; try done; lia.
Qed.

Lemma delim_ok vs : let e := if forallb is_empty vs then 41 else 44 in
  ISBLANK e = false /\ isdigit e = false /\ e <> 0.
Proof. by destruct (forallb is_empty vs). Qed.

(** The loop of [createRow] over the first [n] columns. *)
Lemma fill_cols_ok : forall vs ts n i pre post rl cn,
  inputs_ok i ts vs -> 0 <= rl -> rl + budget vs < 2 ^ 31 ->
  exists cs cn' ws,
    fill_cols atof rt lru (pre ++ (layout (length pre) vs).1 ++ post) i
      (take n (zip ts (layout (length pre) vs).2)) rl cn
      = Some (Some (cs, rl + total_len cs, cn')) /\
    cols_ok writeLua cs ws /\ empties_ok cs ws /\ raw_laid rl cs /\ types cs = take n ts /\
    Forall2 (fun w v => norm w = norm v) ws (take n (imap (fun j v => expected (i + j) v) vs)) /\
    rl + total_len cs <= rl + budget vs.
Proof.
  induction vs as [|v vs IH]; intros [|t ts] n i pre post rl cn Hin Hrl Hb; try done.
  { exists ([] : list column), cn, ([] : list colval). cbn [layout fst snd zip zip_with].
    destruct n; cbn; rewrite Z.add_0_r; split_and!; try done; try constructor; lia. }
  destruct Hin as [Hi Hin]. cbn [budget] in Hb. pose proof (budget_nonneg vs).
  destruct n as [|n].
  { exists ([] : list column), cn, ([] : list colval). cbn. rewrite Z.add_0_r. split_and!; try done; try constructor. lia. }
  set (e := if forallb is_empty vs then 41 else 44).
  destruct (delim_ok vs) as (Hbl & Hdg & He0). fold e in Hbl, Hdg, He0.
  set (chunk := if is_empty v then [] else render v ++ [e]).
  assert (Elay : layout (length pre) (v :: vs) =
    (chunk ++ (layout (length (pre ++ chunk)) vs).1,
     (if is_empty v then (-1, -1) else (Z.of_nat (length pre), Z.of_nat (length pre + length (render v))))
       :: (layout (length (pre ++ chunk)) vs).2)).
  { cbn [layout]. unfold chunk. destruct (is_empty v).
    - rewrite app_nil_r. by destruct (layout (length pre) vs).
    - rewrite !length_app. cbn [length]. rewrite Nat.add_assoc.
      destruct (layout _ vs) as [b o]. cbn [fst snd]. by rewrite <- app_assoc. }
  rewrite Elay. cbn [fst snd zip zip_with take fill_cols]. rewrite <- (app_assoc chunk).
  destruct (step_ok i t v pre ((layout (length (pre ++ chunk)) vs).1 ++ post) e Hi Hbl Hdg He0)
    as (d & w & E & Hok & Hnorm & Hem & Hlen). fold chunk in E. rewrite E.
  cbn [mbind option_bind]. rewrite (uwrap_small 32) by lia.
  match goal with |- context [fill_cols _ _ _ _ (S i) _ _ ?x] => set (cn1 := x) end.
  destruct (IH ts n (S i) (pre ++ chunk) post (rl + raw_len t d) cn1 Hin)
    as (cs & cn' & ws & E2 & Hcs & Hes & Hl & Hty & Hws & Htl); [lia|lia|].
  rewrite <- app_assoc in E2. rewrite E2. cbn [mbind option_bind].
  rewrite (swrap_small 32) by lia.
  exists ((t, set_mcofsts d (rl + raw_len t d)) :: cs), cn', (w :: ws).
  assert (Elen : raw_len t (set_mcofsts d (rl + raw_len t d)) = raw_len t d) by (by destruct t).
  cbn [total_len raw_laid types fmap list_fmap take fst snd]. rewrite Elen. split_and!; try done.
  - do 4 f_equal. lia.
  - constructor; [|done]. by apply col_ok_offset.
  - constructor; [|done]. cbn [fst snd]. intros Hd'. left. by apply Hem.
  - f_equal. exact Hty.
  - rewrite imap_cons. cbn [take]. constructor; [by rewrite Nat.add_0_r|].
    rewrite (imap_ext _ (fun j v => expected (S i + j) v)); [done|].
    intros j x _. cbn. f_equal. lia.
  - cbn [budget]. lia.
Qed.

(** ** How many columns are written *)

Lemma filled_le offs : forall i n, (n <= i)%nat -> (n <= filled offs i n)%nat.
Proof.
  induction offs as [|o offs IH]; intros i n H; cbn; [lia|].
  destruct (o.1 =? -1).
  - apply IH. lia.
  - etransitivity; [|apply IH; lia]. lia.
Qed.

(** Columns past the last one written are not given. *)
Lemma filled_spec offs : forall i n p o,
  (n <= i)%nat -> offs !! p = Some o -> o.1 <> -1 -> (i + p < filled offs i n)%nat.
Proof.
  induction offs as [|o0 offs IH]; intros i n [|p] o Hn Hp Ho; try done; cbn in Hp |- *.
  - injection Hp as ->. destruct (Z.eqb_spec o.1 (-1)); [done|].
    pose proof (filled_le offs (S i) (S i)). lia.
  - rewrite <- Nat.add_succ_comm. apply (IH _ _ p o); try done. destruct (o0.1 =? -1); lia.
Qed.

Lemma layout_given : forall vs pos p v o,
  vs !! p = Some v -> (layout pos vs).2 !! p = Some o -> is_empty v = false -> o.1 <> -1.
Proof.
  induction vs as [|v0 vs IH]; intros pos [|p] v o Hv Ho He; try done; cbn [lookup list_lookup] in Hv.
  - injection Hv as ->. cbn [layout] in Ho. rewrite He in Ho.
    destruct (layout _ vs). injection Ho as <-. cbn. lia.
  - cbn [layout] in Ho. destruct (is_empty v0).
    + specialize (IH pos p v o Hv). destruct (layout pos vs). by apply IH.
    + specialize (IH (pos + length (render v0) + 1)%nat p v o Hv).
      destruct (layout _ vs). by apply IH.
Qed.

Lemma layout_length : forall vs pos, length (layout pos vs).2 = length vs.
Proof.
  induction vs as [|v vs IH]; intros pos; [done|]. cbn [layout]. destruct (is_empty v).
  - specialize (IH pos). destruct (layout pos vs). cbn in *. lia.
  - specialize (IH (pos + length (render v) + 1)%nat). destruct (layout _ vs). cbn in *. lia.
Qed.

Lemma row_ncols_spec pk vs p v :
  vs !! p = Some v -> (row_ncols rt (insert_cofsts pk vs) <= S p)%nat ->
  expected (S p) v = V_EMPTY.
Proof.
  intros Hv Hn. unfold row_ncols in Hn. set (n0 := filled _ 0 0) in *.
  set (n1 := match lruc rt with Some c => _ | None => n0 end) in *.
  assert (H01 : (n0 <= n1)%nat) by (unfold n1; destruct (lruc rt) as [c|];
    [destruct (Nat.leb_spec n0 c)|]; lia).
  assert (H1 : (n1 <= S p)%nat) by (destruct (lfuc rt) as [c|];
    [destruct (Nat.leb_spec n1 c)|]; lia).
  unfold expected. destruct (bool_decide_reflect (lruc rt = Some (S p))) as [E|_].
  { exfalso. unfold n1 in H1. rewrite E in H1. destruct (Nat.leb_spec n0 (S p)); lia. }
  destruct (bool_decide_reflect (lfuc rt = Some (S p))) as [E|_].
  { exfalso. rewrite E in Hn. destruct (Nat.leb_spec n1 (S p)); lia. }
  destruct (is_empty v) eqn:Ee; [by destruct v|]. exfalso.
  assert (Hp : (p < length (layout (length pk + 1) vs).2)%nat)
    by (rewrite layout_length; by eapply lookup_lt_Some).
  destruct (lookup_lt_is_Some_2 _ _ Hp) as [o Ho].
  pose proof (layout_given vs _ p v o Hv Ho Ee) as Hne.
  pose proof (filled_spec (insert_cofsts pk vs) 0 0 (S p) o) as Hf.
  specialize (Hf ltac:(lia) Ho Hne). fold n0 in Hf. lia.
Qed.

(** ** [createRow] collects the values *)

Lemma createRow_data_ok pk vs :
  inputs_ok 1 (coltypes rt) vs -> budget vs + 16 * Z.of_nat (length vs) < 2 ^ 31 ->
  Z.of_nat (length vs) < 2 ^ 24 -> vs <> [] ->
  (2 <= row_ncols rt (insert_cofsts pk vs))%nat ->
  exists cr ws,
    createRow_data atof rt lru (insert_text pk vs) (insert_cofsts pk vs) = Some (Some cr) /\
    cr_ok writeLua cr ws /\
    types (cols cr) = take (row_ncols rt (insert_cofsts pk vs) - 1) (coltypes rt) /\
    Forall2 (fun w v => norm w = norm v) ws
      (take (row_ncols rt (insert_cofsts pk vs) - 1) (imap (fun j => expected (S j)) vs)).
Proof.
  intros Hin Hb Hlen Hne Hn. unfold createRow_data.
  destruct (row_ncols rt (insert_cofsts pk vs)) as [|n] eqn:En; [lia|].
  pose proof (fill_cols_ok vs (coltypes rt) n 1 (pk ++ [44]) [0] 0 0 Hin) as H.
  destruct H as (cs & cn' & ws & E & Hcs & Hes & Hl & Hty & Hws & Htl); [lia|lia|].
  rewrite length_app in E. cbn [length] in E.
  assert (Etext : (pk ++ [44]) ++ (layout (length pk + 1) vs).1 ++ [0] = insert_text pk vs)
    by (unfold insert_text; by rewrite <- app_assoc).
  rewrite Etext in E. unfold insert_cofsts. cbn [tail]. rewrite E. cbn [mbind option_bind].
  exists (Cr cs (0 + total_len cs) cn'), ws. split; [done|].
  assert (Hlt : length (coltypes rt) = length vs).
  { clear -Hin. revert Hin. generalize 1%nat. generalize (coltypes rt).
    induction vs as [|v vs IH]; intros [|t ts] i; cbn; try done. intros [_ H]. f_equal. by eapply IH. }
  assert (Hlc : length cs = Nat.min n (length vs)).
  { apply (f_equal length) in Hty. unfold types in Hty. rewrite length_fmap, length_take in Hty. lia. }
  replace (S n - 1)%nat with n by lia. split_and!; try done.
  split; try done; cbn [cols rlen]; try lia.
  intros ->. cbn in Hlc. destruct vs; [done|]. cbn in Hlc. lia.
Qed.
End Table.
End Fill.

Lemma inputs_length rt i ts vs : inputs_ok rt i ts vs -> length ts = length vs.
Proof.
  revert i vs. induction ts as [|t ts IH]; intros i [|v vs]; cbn; try done.
  intros [_ H]. f_equal. by eapply IH.
Qed.

(** The unpacking buffer is as large for what is stored as for what was given. *)
Lemma mem_ok_expected rt lru i mem v w :
  norm w = norm (expected rt lru i v) -> mem_ok mem v -> (2 <= length mem)%nat -> mem_ok mem w.
Proof.
  intros Hn Hm H2. destruct w as [|?|?|?|?|s|]; try done. destruct s as [|c s]; [cbn; lia|].
  unfold expected in Hn. destruct (bool_decide _); [done|]. destruct (bool_decide _); [done|].
  cbn in Hn. destruct v as [|?|?|?|?|[|]|]; cbn in Hn; try done. by injection Hn as <- <-.
Qed.

(** ** Properties *)

(** The text of an INSERT, its slices given, to the columns of the row. *)
Lemma insert_row_ok
    (lzf_compress : list Z -> Z -> option (list Z)) (lzf_decompress : list Z -> Z -> list Z)
    (lzf_spec : forall s m z, lzf_compress s m = Some z ->
       lzf_decompress z (Z.of_nat (length s)) = s /\ Z.of_nat (length z) <= m)
    (writeLua : list Z -> bool) (atof : list Z -> Z) (zs : bool)
    (rt : r_tbl_t) (lru : Z) (pk : list Z) (vs : list colval) :
  let n := row_ncols rt (insert_cofsts pk vs) in
  0 <= lru < 2 ^ 29 -> inputs_ok rt 1 (coltypes rt) vs ->
  budget vs + 16 * Z.of_nat (length vs) < 2 ^ 31 -> Z.of_nat (length vs) < 2 ^ 24 ->
  vs <> [] -> (2 <= n)%nat ->
  Z.of_nat (Nat.min (n - 1) (length vs)) <> TWO_POW_7 ->
  Z.of_nat (Nat.min (n - 1) (length vs)) <> TWO_POW_14 ->
  (forall cr, createRow_data atof rt lru (insert_text pk vs) (insert_cofsts pk vs)
                = Some (Some cr) ->
     lzf_complete lzf_compress (cols cr) = true /\ collisions_fit cr) ->
  exists row,
    createRow lzf_compress writeLua atof zs rt lru (insert_text pk vs) (insert_cofsts pk vs)
      = Some (Some row) /\
    getRowMallocSize (Some row) = Some (Z.of_nat (length row)) /\
    forall addr mem i t v, coltypes rt !! i = Some t -> vs !! i = Some v ->
      C_IS_O t = false -> mem_ok mem v -> (2 <= length mem)%nat ->
      exists v' row', getRawCol lzf_decompress mem addr row t (Z.of_nat i + 1) = Some (v', row') /\
        norm v' = norm (expected rt lru (S i) v).
Proof.
  intros n Hlru Hin Hb Hlen Hne Hn H7 H14 Hcond.
  destruct (createRow_data_ok writeLua atof rt lru Hlru pk vs Hin Hb Hlen Hne Hn)
    as (cr & ws & E & Hcr & Hty & Hws). fold n in Hty, Hws.
  destruct (Hcond cr E) as [Hlz Hcol].
  assert (Hlt : length (coltypes rt) = length vs) by (by eapply inputs_length).
  assert (Hlc : Z.of_nat (length (cols cr)) < 2 ^ 24 /\
                length (cols cr) = Nat.min (n - 1) (length vs)).
  { apply (f_equal length) in Hty. unfold types in Hty. rewrite length_fmap, length_take in Hty. lia. }
  destruct (row_ok writeLua lzf_compress lzf_decompress lzf_spec zs cr ws Hcr Hlz)
    as (row & Ew & Hrb & Hsz); try done; [by rewrite (proj2 Hlc)..|].
  exists row. unfold createRow. rewrite E. cbn [mbind option_bind]. split_and!; try done.
  intros addr mem i t v Ht Hv Ho Hm Hm2.
  destruct (Hrb addr mem) as [Hin' Hpast].
  destruct (decide (i < n - 1)%nat) as [Hlti|Hge].
  - assert (Htc : types (cols cr) !! i = Some t) by (rewrite Hty; by rewrite lookup_take_lt).
    assert (He : take (n - 1) (imap (fun j => expected rt lru (S j)) vs) !! i
                 = Some (expected rt lru (S i) v)).
    { rewrite lookup_take_lt by done. by rewrite list_lookup_imap, Hv. }
    destruct (Forall2_lookup_r _ _ _ _ _ Hws He) as (w & Hw & Hnw).
    destruct (Hin' i t w Htc Hw) as (v' & row' & Hg & Hn').
    + by eapply mem_ok_expected.
    + exists v', row'. split; [done|]. congruence.
  - destruct (Hpast i t) as [row' Hg]; try done.
    + rewrite Hty, length_take. lia.
    + apply lookup_lt_Some in Hv. lia.
    + exists V_EMPTY, row'. split; [done|]. rewrite (row_ncols_spec rt lru pk vs i v Hv); [done|lia].
Qed.

(** A table with an INT, a TEXT and a LONG column. *)
Definition three_cols : r_tbl_t := Tbl [C_INT; C_STRING; C_LONG] None None.
Definition no_atof (s : list Z) : Z := 0.

Definition insert_and_read (vals : list Z) (cofsts : list (Z * Z)) (t : ctype) (cmatch : Z)
    : option colval :=
  row ← createRow no_lzf lua_accepts no_atof false three_cols 0 vals cofsts;
  row ← row;
  fst <$> getRawCol id_unlzf [] 4096 row t cmatch.

(** A blank between a value and what follows it is trimmed one character too
    many after the last value, and not at all before a comma: [1,22,'ab',333 )]
    stores the number 33, and [1,22,'ab' ,333)] the text [ab'], quote included. *)
Theorem trailing_blank :
  insert_and_read [49; 44; 50; 50; 44; 39; 97; 98; 39; 44; 51; 51; 51; 32; 41; 0]
    [(0, 1); (2, 4); (5, 9); (10, 13)] C_LONG 3 = Some (V_LONG 33) /\
  insert_and_read [49; 44; 50; 50; 44; 39; 97; 98; 39; 32; 44; 51; 51; 51; 41; 0]
    [(0, 1); (2, 4); (5, 10); (11, 14)] C_STRING 2 = Some (V_STRING [97; 98; 39]).
Proof. by vm_compute. Qed.

(** A LONG of 31 digits or more is refused with an error, but the row is
    made all the same, its length one short for every such column. *)
Theorem long_parse_error :
  createRow_data no_atof (Tbl [C_LONG; C_INT] None None) 0
    ([49; 44] ++ replicate 31 57 ++ [44; 53; 41; 0]) [(0, 1); (2, 33); (34, 35)]
  = Some (Some (Cr [(C_LONG, Crd (replicate 31 57) 0 0 0 0 false false (-1));
                    (C_INT, Crd [53] 11 1 0 0 false false 0)] 0 2)).
Proof. by vm_compute. Qed.
