(* ===== verification/BtSearch.v ===== *)
(** * Search inside a B-tree node ([DB/bt_code.c], binary search)

    [findkindex] looks for a key in the sorted array of a node by probing the
    slots of a power-of-two grid; the powers come from [real_log2], memoised in
    a table by [_log2].  The order on keys is the interface [KeyOrder] that the
    comparators of the stream component implement. *)

From S2P Require Import Prelude.

(** ** The order the tree is parametrised by ([bt_cmp_t]) *)

Class KeyOrder (K : Type) := cmp : K -> K -> Z.

(** What the tree needs of a comparator: the sign of [cmp] is a total
    preorder. *)
Class KeyOrderLaws (K : Type) `{KeyOrder K} := {
  cmp_refl : forall a : K, cmp a a = 0;
  cmp_antisym : forall a b : K, cmp a b < 0 <-> 0 < cmp b a;
  cmp_trans : forall a b c : K, cmp a b <= 0 -> cmp b c <= 0 -> cmp a c <= 0;
}.

(** ** The logarithm *)

(** The loop of [real_log2]; [None] only when the fuel is exhausted. *)
Fixpoint log2_loop (fuel : nat) (a b i : Z) : option Z :=
  match fuel with
  | O => None
  | S fuel' =>
      if b =? 0 then Some i
      else
        let i := u32 (Z.shiftl i 1) in
        if Z.shiftl 1 b <=? a
        then log2_loop fuel' (a / Z.shiftl 1 b) (b / 2) (Z.lor i 1)
        else log2_loop fuel' (Z.land a (Z.shiftl 1 b - 1)) (b / 2) i
  end.

(** [b] starts at [(nbits + 1) / 2] and halves: seven rounds are enough for
    every [nbits] up to [64]. *)
Definition real_log2 (a nbits : Z) : option Z :=
  log2_loop 7 a ((nbits + 1) / 2) 0.

(** [_log2]: the static table ([-1] marks an entry not computed yet) is grown
    to [a + 1] entries, filled on demand and returned with the value. *)
Definition _log2 (table : list Z) (a nbits : Z) : option (list Z * Z) :=
  let a' := Z.to_nat a in
  let table :=
    if (length table <=? a')%nat
    then table ++ replicate (a' + 1 - length table) (-1) else table in
  e ← table !! a';
  if e =? -1
  then v ← real_log2 a nbits; Some (<[a' := v]> table, v)
  else Some (table, e).

(** ** The search *)

Section Search.
Context {K : Type} `{KeyOrder K}.

(** The probing loop, over the candidates [i .. i + a]. *)
Fixpoint findk_loop (fuel : nat) (nbits : Z) (keys : list K) (k : K) (a i : Z)
  : option Z :=
  match fuel with
  | O => None
  | S fuel' =>
      if 0 <? a then
        b ← real_log2 a nbits;
        let slot := Z.shiftl 1 b + i in
        k2 ← keys !! Z.to_nat slot;
        if cmp k k2 <? 0
        then findk_loop fuel' nbits keys k (Z.shiftl 1 b - 1) i
        else findk_loop fuel' nbits keys k (a - Z.shiftl 1 b) (Z.lor i (Z.shiftl 1 b))
      else Some i
  end.

(** The index returned and the last comparison, [r0] when the node is empty
    (the caller's variable is then left as it was). *)
Definition findkindex (nbits : Z) (keys : list K) (k : K) (r0 : Z) : option (Z * Z) :=
  let n := Z.of_nat (length keys) in
  if n =? 0 then Some (-1, r0)
  else
    i ← findk_loop (length keys) nbits keys k (n - 1) 0;
    ki ← keys !! Z.to_nat i;
    let rr := cmp k ki in
    if rr <? 0 then Some (i - 1, rr) else Some (i, rr).

(** What [findkindex] leaves in the iterator ([ik] and [in]). *)
Definition iter_slot (i : Z) : Z := if 0 <? i then i else 0.

(** The number of keys that do not exceed [k]: the reference for the search
    in a sorted array. *)
Fixpoint rank (k : K) (l : list K) : nat :=
  match l with
  | [] => 0
  | a :: l' => if cmp k a <? 0 then 0 else S (rank k l')
  end.
End Search.

(** Strictly increasing arrays. *)
Definition klt {K} `{KeyOrder K} (a b : K) : Prop := cmp a b < 0.
Abbreviation ksorted := (Sorted.StronglySorted klt).

(** ** Lemmas on the order *)

Section OrderFacts.
Context {K : Type} `{KeyOrderLaws K}.
Implicit Types a b c k : K.

Lemma cmp_eq_sym a b : cmp a b = 0 -> cmp b a = 0.
Proof.
  intros E. pose proof (cmp_antisym a b). pose proof (cmp_antisym b a). lia.
Qed.

Lemma cmp_le_ge a b : cmp a b <= 0 <-> 0 <= cmp b a.
Proof. pose proof (cmp_antisym a b). pose proof (cmp_antisym b a). lia. Qed.

Lemma cmp_lt_le_trans a b c : cmp a b < 0 -> cmp b c <= 0 -> cmp a c < 0.
Proof.
  intros H1 H2. pose proof (cmp_trans a b c).
  destruct (Z.eq_dec (cmp a c) 0) as [E|]; [|lia].
  pose proof (cmp_trans b c a). pose proof (cmp_eq_sym a c E).
  pose proof (cmp_antisym a b). lia.
Qed.

Lemma cmp_le_lt_trans a b c : cmp a b <= 0 -> cmp b c < 0 -> cmp a c < 0.
Proof.
  intros H1 H2. pose proof (cmp_trans a b c).
  destruct (Z.eq_dec (cmp a c) 0) as [E|]; [|lia].
  pose proof (cmp_trans c a b). pose proof (cmp_eq_sym a c E).
  pose proof (cmp_antisym b c). lia.
Qed.

Lemma cmp_eq_l a b c : cmp a b = 0 -> Z.sgn (cmp a c) = Z.sgn (cmp b c).
Proof.
  intros E. pose proof (cmp_eq_sym a b E).
  pose proof (cmp_lt_le_trans b a c). pose proof (cmp_le_lt_trans b a c).
  pose proof (cmp_le_lt_trans a b c).
  pose proof (cmp_lt_le_trans c a b). pose proof (cmp_lt_le_trans c b a).
  pose proof (cmp_antisym c a). pose proof (cmp_antisym c b).
  destruct (Z.compare_spec (cmp a c) 0), (Z.compare_spec (cmp b c) 0); lia.
Qed.

(** In a sorted array the keys up to the rank do not exceed [k] and the
    others do. *)
Lemma rank_le k l : (rank k l <= length l)%nat.
Proof. induction l; simpl; [lia|]. case_match; simpl; lia. Qed.

Lemma rank_below k l j a :
  l !! j = Some a -> (j < rank k l)%nat -> 0 <= cmp k a.
Proof.
  revert j. induction l as [|b l IH]; intros j Hj Hlt; simpl in Hlt; [lia|].
  destruct (Z.ltb_spec (cmp k b) 0); [lia|].
  destruct j as [|j]; simpl in Hj; [by simplify_eq|]. apply (IH j); [done|lia].
Qed.

Lemma rank_above k l j a :
  ksorted l -> l !! j = Some a -> (rank k l <= j)%nat -> cmp k a < 0.
Proof.
  intros Hs. revert j. induction Hs as [|b l Hs IH HF]; intros j Hj Hle; [done|].
  simpl in Hle. destruct (Z.ltb_spec (cmp k b) 0) as [Hb|Hb].
  - destruct j as [|j]; simpl in Hj; [by simplify_eq|].
    rewrite Forall_lookup in HF. apply HF in Hj. unfold klt in Hj.
    apply (cmp_lt_le_trans k b a); lia.
  - destruct j as [|j]; [lia|]. apply (IH j); [done|lia].
Qed.

Lemma ksorted_lookup l i j a b :
  ksorted l -> l !! i = Some a -> l !! j = Some b -> (i < j)%nat -> cmp a b < 0.
Proof.
  intros Hs. revert i j. induction Hs as [|c l Hs IH HF]; intros i j Hi Hj Hlt; [done|].
  destruct j as [|j]; [lia|]. destruct i as [|i]; simpl in *.
  - simplify_eq. rewrite Forall_lookup in HF. by apply HF in Hj.
  - apply (IH i j); [done..|lia].
Qed.

(** The rank is the only index with those two properties. *)
Lemma rank_unique k l i :
  (i <= length l)%nat ->
  (forall j a, l !! j = Some a -> (j < i)%nat -> 0 <= cmp k a) ->
  (forall j a, l !! j = Some a -> (i <= j)%nat -> cmp k a < 0) ->
  rank k l = i.
Proof.
  revert i. induction l as [|b l IH]; intros i Hi Hlo Hhi; simpl in *; [lia|].
  destruct (Z.ltb_spec (cmp k b) 0) as [Hb|Hb].
  - destruct i; [done|]. specialize (Hlo 0%nat b eq_refl). lia.
  - destruct i as [|i]; [specialize (Hhi 0%nat b eq_refl); lia|].
    f_equal. apply IH; [lia| |]; intros j a Hj Hlt.
    + apply (Hlo (S j)); [done|lia].
    + apply (Hhi (S j)); [done|lia].
Qed.

Lemma rank_split k l :
  ksorted l ->
  exists l1 l2, l = l1 ++ l2 /\ length l1 = rank k l /\
    Forall (fun a => 0 <= cmp k a) l1 /\ Forall (fun a => cmp k a < 0) l2.
Proof.
  intros Hs. exists (take (rank k l) l), (drop (rank k l) l).
  rewrite take_drop. split_and!; [done| | |].
  - rewrite length_take_le by apply rank_le. done.
  - apply Forall_lookup. intros j a Hj.
    apply lookup_take_Some in Hj as [Hj Hlt]. eapply rank_below; eauto.
  - apply Forall_lookup. intros j a Hj. rewrite lookup_drop in Hj.
    eapply rank_above; eauto. lia.
Qed.
End OrderFacts.

(** ** Lemmas on the logarithm *)

Lemma shiftl1 b : 0 <= b -> Z.shiftl 1 b = 2 ^ b.
Proof. intros. rewrite Z.shiftl_mul_pow2 by lia. lia. Qed.

Lemma lor_1_even i : Z.lor (i * 2) 1 = i * 2 + 1.
Proof.
  rewrite Z.add_nocarry_lxor.
  - apply Z.bits_inj'. intros n Hn. rewrite Z.lor_spec, Z.lxor_spec.
    destruct (Z.eq_dec n 0) as [->|].
    + replace (i * 2) with (2 * i) by lia. by rewrite Z.testbit_even_0.
    + assert (E : Z.testbit 1 n = false).
      { change 1 with (2 ^ 0). apply Z.pow2_bits_false. lia. }
      rewrite E. by destruct (Z.testbit _ n).
  - apply Z.bits_inj'. intros n Hn. rewrite Z.land_spec, Z.bits_0.
    destruct (Z.eq_dec n 0) as [->|].
    + replace (i * 2) with (2 * i) by lia. by rewrite Z.testbit_even_0.
    + change 1 with (2 ^ 0). rewrite Z.pow2_bits_false by lia. apply andb_false_r.
Qed.

(** One halving round keeps [i * 2^(j+1) + log2 a] fixed. *)
Lemma log2_loop_pow (j : nat) : forall fuel a i,
  (j + 1 < fuel)%nat -> 0 < a < 2 ^ (2 * 2 ^ Z.of_nat j) ->
  0 <= i -> (i + 1) * 2 ^ (Z.of_nat j + 1) <= 2 ^ 32 ->
  log2_loop fuel a (2 ^ Z.of_nat j) i = Some (i * 2 ^ (Z.of_nat j + 1) + Z.log2 a).
Proof.
  induction j as [|j IH]; intros fuel a i Hf Ha Hi Hb.
  - destruct fuel as [|[|fuel]]; [lia|lia|]. 
    change (2 ^ (2 * 2 ^ Z.of_nat 0)) with 4 in Ha.
    change (2 ^ (Z.of_nat 0 + 1)) with 2 in *.
    cbn [log2_loop]. change (2 ^ Z.of_nat 0) with 1. cbn [Z.eqb].
    change (1 / 2) with 0. change (Z.shiftl 1 1) with 2. cbn [Z.eqb].
    rewrite (Z.shiftl_mul_pow2 i), Z.pow_1_r, uwrap_small, lor_1_even by lia.
    assert (a = 1 \/ a = 2 \/ a = 3) as [ -> | [ -> | -> ]] by lia; cbn; f_equal; lia.
  - destruct fuel as [|fuel]; [lia|]. cbn [log2_loop].
    set (b := 2 ^ Z.of_nat (S j)) in *.
    assert (Eb : b = 2 * 2 ^ Z.of_nat j).
    { unfold b. rewrite Nat2Z.inj_succ, Z.pow_succ_r by lia. done. }
    assert (0 < 2 ^ Z.of_nat j) by (apply Z.pow_pos_nonneg; lia).
    assert (Ej : 2 ^ (Z.of_nat (S j) + 1) = 2 * 2 ^ (Z.of_nat j + 1)).
    { rewrite <- Z.pow_succ_r by lia. f_equal. lia. }
    assert (0 < 2 ^ (Z.of_nat j + 1)) by (apply Z.pow_pos_nonneg; lia).
    assert (Hd : b / 2 = 2 ^ Z.of_nat j) by (rewrite Eb, Z.mul_comm; apply Z.div_mul; lia).
    assert (0 < 2 ^ b) by (apply Z.pow_pos_nonneg; lia).
    assert (Hsq : 2 ^ (2 * b) = 2 ^ b * 2 ^ b) by (rewrite <- Z.pow_add_r by lia; f_equal; lia).
    destruct (Z.eqb_spec b 0); [lia|].
    rewrite (Z.shiftl_mul_pow2 i), Z.pow_1_r by lia.
    rewrite uwrap_small by nia.
    rewrite shiftl1, Hd, lor_1_even by lia.
    destruct (Z.leb_spec (2 ^ b) a) as [Hle|Hlt].
    + rewrite IH; [|lia| |lia|nia].
      * f_equal. rewrite Ej.
        rewrite <- Z.shiftr_div_pow2, Z.log2_shiftr by lia.
        assert (b <= Z.log2 a) by (apply (Z.log2_le_pow2 a b); [lia|done]).
        replace (2 ^ (Z.of_nat j + 1)) with b by
          (unfold b; f_equal; lia). rewrite Z.max_r by lia. lia.
      * rewrite <- Eb. split.
        -- apply Z.div_str_pos. lia.
        -- apply Z.div_lt_upper_bound; lia.
    + rewrite Z.sub_1_r, <- Z.ones_equiv, Z.land_ones, Z.mod_small by lia.
      rewrite IH; [|lia| |lia|nia].
      * f_equal. rewrite Ej. lia.
      * rewrite <- Eb. lia.
Qed.

(** The widths [bt_create] computes are powers of two. *)
Definition log_width (nbits : Z) : Prop :=
  nbits = 2 \/ nbits = 4 \/ nbits = 8 \/ nbits = 16 \/ nbits = 32.

Lemma real_log2_log2 a nbits :
  log_width nbits -> 0 < a < 2 ^ nbits -> real_log2 a nbits = Some (Z.log2 a).
Proof.
  intros Hw Ha. unfold real_log2.
  destruct Hw as [ -> | [ -> | [ -> | [ -> | -> ]]]].
  - exact (log2_loop_pow 0 7 a 0 ltac:(lia) Ha ltac:(lia) ltac:(simpl; lia)).
  - exact (log2_loop_pow 1 7 a 0 ltac:(lia) Ha ltac:(lia) ltac:(simpl; lia)).
  - exact (log2_loop_pow 2 7 a 0 ltac:(lia) Ha ltac:(lia) ltac:(simpl; lia)).
  - exact (log2_loop_pow 3 7 a 0 ltac:(lia) Ha ltac:(lia) ltac:(simpl; lia)).
  - exact (log2_loop_pow 4 7 a 0 ltac:(lia) Ha ltac:(lia) ltac:(simpl; lia)).
Qed.

(** The entries of the memo table are unset or right. *)
Definition table_ok (table : list Z) : Prop :=
  forall a e, table !! a = Some e -> e = -1 \/ (0 < a)%nat /\ e = Z.log2 (Z.of_nat a).

(** ** Lemmas on the search *)

Lemma lor_low i m b :
  0 <= b < m -> i mod 2 ^ m = 0 -> Z.lor i (2 ^ b) = i + 2 ^ b.
Proof.
  intros Hb Hi.
  assert (Hz : Z.land i (2 ^ b) = 0).
  { apply Z.bits_inj'. intros n Hn. rewrite Z.land_spec, Z.bits_0, Z.pow2_bits_eqb by lia.
    destruct (Z.eqb_spec b n) as [ <- |]; [|apply andb_false_r].
    rewrite <- (Z.mod_pow2_bits_low i m b) by lia. by rewrite Hi, Z.bits_0. }
  rewrite Z.add_nocarry_lxor by done.
  rewrite <- Z.lxor_lor by done. done.
Qed.

Lemma mod_pow2_weaken i m b : 0 <= b <= m -> i mod 2 ^ m = 0 -> i mod 2 ^ b = 0.
Proof.
  intros Hb Hi. apply Z.mod_divide; [apply Z.pow_nonzero; lia|].
  apply Z.mod_divide in Hi; [|apply Z.pow_nonzero; lia].
  etransitivity; [|exact Hi]. exists (2 ^ (m - b)).
  rewrite <- Z.pow_add_r by lia. f_equal. lia.
Qed.

Section SearchFacts.
Context {K : Type} `{KeyOrderLaws K}.
Context (nbits : Z) (keys : list K) (k : K).
Context (Hw : log_width nbits) (Hn : Z.of_nat (length keys) <= 2 ^ nbits).
Context (Hs : ksorted keys).

(** Between two rounds: the candidates are [i .. i + a], the slots after
    them exceed [k], the slot [i] does not unless it is the first. *)
Definition window (a i : Z) : Prop :=
  0 <= a /\ 0 <= i /\ i + a < Z.of_nat (length keys) /\
  (exists m, 0 <= m /\ a < 2 ^ m /\ i mod 2 ^ m = 0) /\
  (i = 0 \/ forall x, keys !! Z.to_nat i = Some x -> 0 <= cmp k x) /\
  (forall j x, keys !! j = Some x -> i + a < Z.of_nat j -> cmp k x < 0).

Lemma window_start : keys <> [] -> window (Z.of_nat (length keys) - 1) 0.
Proof.
  intros Hne. assert (0 < length keys)%nat by (destruct keys; simpl; [done|lia]).
  unfold window. split_and!; [lia|lia|lia| |by left|].
  - exists (Z.of_nat (length keys)). split_and!; [lia| |apply Zmod_0_l].
    pose proof (Z.pow_gt_lin_r 2 (Z.of_nat (length keys))). lia.
  - intros j x Hj. apply lookup_lt_Some in Hj. lia.
Qed.

Lemma window_step a i :
  0 < a -> window a i ->
  exists b x, real_log2 a nbits = Some b /\
    keys !! Z.to_nat (Z.shiftl 1 b + i) = Some x /\ 0 < Z.shiftl 1 b <= a /\
    (cmp k x < 0 -> window (Z.shiftl 1 b - 1) i) /\
    (0 <= cmp k x -> window (a - Z.shiftl 1 b) (Z.lor i (Z.shiftl 1 b))).
Proof.
  intros Ha (_ & Hi & Hlt & (m & Hm & Ham & Him) & Hlo & Hhi).
  exists (Z.log2 a). set (b := Z.log2 a).
  assert (Hb : 0 <= b) by apply Z.log2_nonneg.
  assert (Hbm : b < m) by (apply Z.log2_lt_pow2; lia).
  destruct (Z.log2_spec a Ha) as [Hb1 Hb2]. fold b in Hb1, Hb2.
  rewrite Z.pow_succ_r in Hb2 by lia.
  rewrite shiftl1, (lor_low i m) by lia.
  destruct (lookup_lt_is_Some_2 keys (Z.to_nat (2 ^ b + i))) as [x Hx]; [lia|].
  exists x. assert (0 < 2 ^ b) by (apply Z.pow_pos_nonneg; lia).
  split_and!; [apply real_log2_log2; [done|lia]|done|lia|lia| |].
  - intros Hc. split_and!; [lia|lia|lia| |done|].
    + exists b. split_and!; [done|lia|]. apply (mod_pow2_weaken i m); [lia|done].
    + intros j y Hj Hgt. destruct (Z.eq_dec (Z.of_nat j) (2 ^ b + i)) as [E|E].
      * replace (Z.to_nat (2 ^ b + i)) with j in Hx by lia. by simplify_eq.
      * apply (cmp_lt_le_trans k x y); [done|].
        pose proof (ksorted_lookup keys (Z.to_nat (2 ^ b + i)) j x y Hs Hx Hj).
        lia.
  - intros Hc. split_and!; [lia|lia|lia| | |].
    + exists b. split_and!; [done|lia|].
      rewrite <- (Z.mul_1_l (2 ^ b)) at 1. rewrite Z_mod_plus_full.
      apply (mod_pow2_weaken i m); [lia|done].
    + right. intros y Hy. rewrite Z.add_comm, Hx in Hy. by simplify_eq.
    + intros j y Hj Hgt. apply (Hhi j); [done|lia].
Qed.

Lemma findk_loop_spec : forall fuel a i,
  (Z.to_nat a < fuel)%nat -> window a i ->
  exists i', findk_loop fuel nbits keys k a i = Some i' /\ window 0 i'.
Proof.
  induction fuel as [|fuel IH]; intros a i Hf HW; [lia|]. cbn [findk_loop].
  destruct (Z.ltb_spec 0 a) as [Ha|Ha].
  - destruct (window_step a i Ha HW) as (b & x & -> & Hx & Hb & H1 & H2).
    cbn [mbind option_bind]. rewrite Hx. cbn [mbind option_bind].
    destruct (Z.ltb_spec (cmp k x) 0); apply IH; auto; lia.
  - exists i. split; [done|]. replace 0 with a; [done|].
    destruct HW; lia.
Qed.

(** The search returns the rank less one, and a comparison that is [0]
    exactly when the key it points to equals [k]. *)
Lemma findkindex_spec r0 :
  exists r, findkindex nbits keys k r0 = Some (Z.of_nat (rank k keys) - 1, r) /\
    (forall x, keys !! (rank k keys - 1)%nat = Some x ->
      (0 < rank k keys)%nat -> r = cmp k x) /\
    (keys <> [] -> rank k keys = 0%nat -> r < 0) /\
    (keys = [] -> r = r0).
Proof.
  unfold findkindex. destruct (Z.eqb_spec (Z.of_nat (length keys)) 0) as [E|E].
  { destruct keys; [|done]. exists r0. split_and!; try done; intros; simpl in *; lia. }
  assert (Hne : keys <> []) by (intros ->; done).
  destruct (findk_loop_spec (length keys) (Z.of_nat (length keys) - 1) 0)
    as (i & -> & _ & Hi & Hlt & _ & Hlo & Hhi); [lia|by apply window_start|].
  cbn [mbind option_bind].
  destruct (lookup_lt_is_Some_2 keys (Z.to_nat i)) as [x Hx]; [lia|]. rewrite Hx.
  cbn [mbind option_bind]. exists (cmp k x).
  destruct (Z.ltb_spec (cmp k x) 0) as [Hc|Hc].
  - destruct Hlo as [->|Hlo]; [|specialize (Hlo x Hx); lia].
    assert (Hr : rank k keys = 0%nat).
    { apply rank_unique; [lia|intros; lia|]. intros j y Hj _.
      destruct j; [change (Z.to_nat 0) with 0%nat in Hx; by simplify_eq|]. apply (Hhi (S j)); [done|lia]. }
    rewrite Hr. split_and!; [done|intros; lia|done|done].
  - assert (Hr : rank k keys = S (Z.to_nat i)).
    { apply rank_unique; [lia| |].
      - intros j y Hj Hl. destruct (decide (j = Z.to_nat i)) as [->|]; [by simplify_eq|].
        pose proof (ksorted_lookup keys j (Z.to_nat i) y x Hs Hj Hx).
        apply cmp_le_ge. apply cmp_le_ge in Hc. pose proof (cmp_trans y x k). lia.
      - intros j y Hj Hl. apply (Hhi j); [done|lia]. }
    rewrite Hr. replace (S (Z.to_nat i) - 1)%nat with (Z.to_nat i) by lia.
    split_and!; [do 2 f_equal; lia| |lia|done].
    intros y Hy _. rewrite Hx in Hy. by simplify_eq.
Qed.
End SearchFacts.

(** ** Properties *)

(** The order of machine integers, as an instance to run the search on. *)
Definition z_order : KeyOrder Z := fun a b => Z.sgn (a - b).
Lemma z_order_laws : @KeyOrderLaws Z z_order.
Proof. split; unfold cmp, z_order; intros; lia. Qed.

(** C24: in a node whose keys are strictly sorted, [findkindex] terminates
    without leaving the key array and returns the number of keys not exceeding
    [k] less one ([-1] when every key exceeds it); the comparison it reports is
    that of the key it points to, so that it is [0] exactly when the node holds
    a key equal to [k]. *)
Theorem findkindex_correct {K : Type} `{KeyOrderLaws K}
    (nbits : Z) (keys : list K) (k : K) (r0 : Z) :
  log_width nbits -> Z.of_nat (length keys) <= 2 ^ nbits -> ksorted keys ->
  r0 <> 0 ->
  exists i r, findkindex nbits keys k r0 = Some (i, r) /\
    -1 <= i < Z.of_nat (length keys) /\
    (forall j x, keys !! j = Some x ->
      (Z.of_nat j <= i -> cmp x k <= 0) /\ (i < Z.of_nat j -> cmp k x < 0)) /\
    (r = 0 <-> exists x, keys !! Z.to_nat i = Some x /\ 0 <= i /\ cmp k x = 0) /\
    (r = 0 <-> exists x, x ∈ keys /\ cmp k x = 0).
Proof.
  intros Hw Hn Hs Hr0.
  destruct (findkindex_spec nbits keys k Hw Hn Hs r0) as (r & -> & Hr & Hr1 & Hr2).
  pose proof (rank_le k keys) as Hle.
  exists (Z.of_nat (rank k keys) - 1), r.
  assert (Hiff : r = 0 <-> exists x, keys !! (rank k keys - 1)%nat = Some x /\
    (0 < rank k keys)%nat /\ cmp k x = 0).
  { split.
    - intros E. destruct (decide (keys = [])) as [->|Hne]; [destruct Hr0; by rewrite <- Hr2|].
      destruct (decide (rank k keys = 0%nat)) as [E0|E0]; [specialize (Hr1 Hne E0); lia|].
      destruct (lookup_lt_is_Some_2 keys (rank k keys - 1)) as [x Hx]; [lia|].
      exists x. rewrite <- (Hr x Hx) by lia. split_and!; [done|lia|done].
    - intros (x & Hx & H1 & <-). by apply Hr. }
  split_and!; [done|lia|lia| | |].
  - intros j x Hj. split; intros Hij.
    + apply cmp_le_ge. eapply rank_below; [done|lia].
    + eapply rank_above; [done..|lia].
  - rewrite Hiff. replace (Z.to_nat _) with (rank k keys - 1)%nat by lia.
    split; intros (x & Hx & H1 & Hc); exists x; (split_and!; [done|lia|done]).
  - rewrite Hiff. split; intros (x & Hx).
    + destruct Hx as (Hx & _ & Hc). exists x. split; [by eapply list_elem_of_lookup_2|done].
    + destruct Hx as [Hin Hc]. apply list_elem_of_lookup in Hin as [j Hj].
      assert (Hlt : (j < rank k keys)%nat).
      { destruct (Nat.lt_ge_cases j (rank k keys)) as [|Hge]; [done|].
        pose proof (rank_above k keys j x Hs Hj Hge). lia. }
      destruct (decide (j = rank k keys - 1)%nat) as [->|Hne].
      { exists x. split_and!; [done|lia|done]. }
      destruct (lookup_lt_is_Some_2 keys (rank k keys - 1)) as [y Hy]; [lia|].
      pose proof (ksorted_lookup keys j _ x y Hs Hj Hy ltac:(lia)).
      pose proof (rank_below k keys _ y Hy ltac:(lia)).
      pose proof (cmp_le_lt_trans k x y). lia.
Qed.

Lemma findkindex_correct_witness :
  exists i r, @findkindex Z z_order 4 [10; 20; 30; 40; 50] 30 (-1) = Some (i, r) /\
    -1 <= i < 5 /\
    (forall j x, [10; 20; 30; 40; 50] !! j = Some x ->
      (Z.of_nat j <= i -> @cmp Z z_order x 30 <= 0) /\
      (i < Z.of_nat j -> @cmp Z z_order 30 x < 0)) /\
    (r = 0 <-> exists x, [10; 20; 30; 40; 50] !! Z.to_nat i = Some x /\ 0 <= i /\
      @cmp Z z_order 30 x = 0) /\
    (r = 0 <-> exists x, x ∈ [10; 20; 30; 40; 50] /\ @cmp Z z_order 30 x = 0).
Proof.
  apply (@findkindex_correct Z z_order z_order_laws 4 [10; 20; 30; 40; 50] 30 (-1)).
  - unfold log_width. lia.
  - simpl. lia.
  - repeat constructor.
  - lia.
Defined.

(** on every width [bt_create] can compute, the logarithm loop stops and
    returns the integer logarithm of every value the width can hold, and the
    memo table is transparent: a lookup through a table whose entries are right
    returns the same value, stays inside the table, and leaves it right. *)
Theorem log2_correct (table : list Z) (a nbits : Z) :
  log_width nbits -> 0 < a < 2 ^ nbits -> table_ok table ->
  real_log2 a nbits = Some (Z.log2 a) /\
  exists table', _log2 table a nbits = Some (table', Z.log2 a) /\ table_ok table' /\
    (Z.to_nat a < length table')%nat.
Proof.
  intros Hw Ha Ht. pose proof (real_log2_log2 a nbits Hw Ha) as E.
  split; [done|]. unfold _log2.
  set (tb := if (length table <=? Z.to_nat a)%nat then _ else _).
  assert (Htb : table_ok tb /\ (Z.to_nat a < length tb)%nat).
  { unfold tb. destruct (Nat.leb_spec (length table) (Z.to_nat a)) as [Hl|Hl]; [|done].
    split; [|rewrite length_app, length_replicate; lia].
    intros j e Hj. apply lookup_app_Some in Hj as [Hj|[_ Hj]]; [by apply Ht|].
    apply lookup_replicate in Hj as [-> _]. by left. }
  destruct Htb as [Hok Hlen].
  destruct (lookup_lt_is_Some_2 tb (Z.to_nat a)) as [e He]; [done|].
  rewrite He. cbn [mbind option_bind]. destruct (Z.eqb_spec e (-1)) as [->|Hne].
  - rewrite E. cbn [mbind option_bind].
    exists (<[Z.to_nat a:=Z.log2 a]> tb). split_and!; [done| |by rewrite length_insert].
    intros j e Hj. apply list_lookup_insert_Some in Hj as [(<- & <- & _)|[_ Hj]].
    + right. split; [lia|]. f_equal. lia.
    + by apply Hok.
  - exists tb. split_and!; [|done|done]. destruct (Hok _ _ He) as [?|[_ ->]]; [done|].
    do 3 f_equal. lia.
Qed.

Lemma log2_correct_witness :
  real_log2 200 16 = Some (Z.log2 200) /\
  exists table', _log2 [-1; 0; 1] 200 16 = Some (table', Z.log2 200) /\ table_ok table' /\
    (Z.to_nat 200 < length table')%nat.
Proof.
  apply (log2_correct [-1; 0; 1] 200 16).
  - unfold log_width. lia.
  - lia.
  - intros [|[|[|j]]] e He; simpl in He; simplify_eq; auto.
Defined.
