(* ===== verification/DirtyStream.v ===== *)
(** * Dirty streams ([DB/bt_code.c], the DS of a B-tree node)

    A node of a table that evicts rows carries, beside its keys, a stream of
    "dirty right" counters: slot [i] counts the rows evicted between key [i]
    and the next key.  The stream is allocated when a first counter is set, is
    widened (one, two, four bytes per slot) when a counter outgrows it, and is
    released when its last counter returns to zero.

    [dirty] is [-1] for a node of a clean tree, [0] for a clean node of a dirty
    tree, and otherwise the width class [1], [2] or [3]; [ndirty] is a byte.
    [None] is a failed assertion or an access outside the stream.  The address
    of the node, which allocation of a stream changes, is not part of this
    file: the tree component models who is told about it. *)

From S2P Require Import Prelude.

Create Rewrite HintDb clean.

Record dstream := DStream { dirty : Z; ndirty : Z; slots : list Z }.

#[export] Instance dstream_eq_dec : EqDecision dstream.
Proof. solve_decision. Defined.

Section DirtyStream.
(** The minimum degree of the tree: a stream has [2 * t] slots. *)
Context (t : nat).

(** Bytes of a stream of the given width class. *)
Definition get_dssize (dirty : Z) : option Z :=
  if dirty <=? 0 then None
  else
    let drsize := if dirty =? 3 then 4 else if dirty =? 2 then 2 else 1 in
    Some (Z.of_nat t * 2 * drsize).

(** The stream of a new node: [alloc_ds] through [allocbtreenode]. *)
Definition alloc_ds (dirty : Z) : dstream :=
  DStream dirty 0 (if 0 <? dirty then replicate (2 * t) 0 else []).

Definition incr_ds (leaf : bool) (d : dstream) : option dstream :=
  if dirty d <=? 0 then None
  else
    let num := if leaf then (t * 2)%nat else t in
    let copied := take num (slots d) ++ replicate (2 * t - num) 0 in
    if (dirty d =? 1) || (dirty d =? 2)
    then Some (DStream (dirty d + 1) (ndirty d) copied)
    else None.

Definition release_dirty_stream (d : dstream) : dstream := DStream 0 0 [].

(** [addDStoBTN]: the stream of the copy that replaces the node. *)
Definition addDS (d : dstream) (dirty : Z) : dstream :=
  DStream dirty (ndirty d) (replicate (2 * t) 0).

Definition getDR (d : dstream) (i : nat) : option Z :=
  if dirty d <=? 0 then Some 0
  else if (dirty d =? 1) || (dirty d =? 2) || (dirty d =? 3)
  then slots d !! i
  else None.

(** The end of [__setDR]: the slot is written, the count of non-zero slots
    adjusted, and an all-zero stream released. *)
Definition store_dr (d : dstream) (i : nat) (dr : Z) : option dstream :=
  odr ← slots d !! i;
  let nd :=
    if (odr =? 0) && negb (dr =? 0) then u8 (ndirty d + 1)
    else if negb (odr =? 0) && (dr =? 0) then u8 (ndirty d - 1)
    else ndirty d in
  let d' := DStream (dirty d) nd (<[i := dr]> (slots d)) in
  Some (if (0 <? dirty d') && (ndirty d' =? 0) then release_dirty_stream d' else d').

(** [INCR_DS_SET_DR] recurses on the widened stream, at most twice. *)
Fixpoint __setDR (fuel : nat) (leaf : bool) (d : dstream) (i : nat) (dr : Z)
  : option dstream :=
  match fuel with
  | O => None
  | S fuel' =>
      if dirty d =? 1 then
        if UCHAR_MAX <? dr
        then d' ← incr_ds leaf d; __setDR fuel' leaf d' i dr
        else store_dr d i dr
      else if dirty d =? 2 then
        if USHRT_MAX <? dr
        then d' ← incr_ds leaf d; __setDR fuel' leaf d' i dr
        else store_dr d i dr
      else if dirty d =? 3 then store_dr d i dr
      else None
  end.

Definition setDR (leaf : bool) (d : dstream) (i : nat) (dr : Z) : option dstream :=
  if dr =? 0 then Some d
  else
    let d := if dirty d <=? 0 then addDS d 1 else d in
    __setDR 3 leaf d i dr.

Definition zeroDR (leaf : bool) (d : dstream) (i : nat) : option dstream :=
  if dirty d <=? 0 then Some d else __setDR 3 leaf d i 0.

Definition incrDR (leaf : bool) (d : dstream) (i : nat) (dr : Z) : option dstream :=
  if dr =? 0 then Some d
  else
    let d := if dirty d <=? 0 then addDS d 1 else d in
    odr ← getDR d i;
    setDR leaf d i (u32 (odr + dr)).

Definition overwriteDR (leaf : bool) (d : dstream) (i : nat) (dr : Z) : option dstream :=
  if dr =? 0 then zeroDR leaf d i else setDR leaf d i dr.

(** [get_scion_range]: the rows under slots [beg .. end), evicted ones
    included. *)
Definition get_scion_range (d : dstream) (beg end_ : nat) : option Z :=
  if dirty d <=? 0 then Some (Z.of_nat end_ - Z.of_nat beg)
  else
    foldl (fun acc i => s ← acc; dr ← getDR d i; Some (s + (1 + dr)))
          (Some 0) (seq beg (end_ - beg)).

(** ** Moving counters with their keys

    The counters' half of [mvXKeys] when source and destination are the same
    node: slots [si .. si + num) go to [di ..], from the far end when they
    move up. *)
Definition mv_one (leaf : bool) (di si : nat) (acc : option dstream) (i : nat)
  : option dstream :=
  d ← acc;
  drs ← getDR d (si + i);
  drd ← getDR d (di + i);
  if negb (drs =? 0) then d1 ← setDR leaf d (di + i) drs; zeroDR leaf d1 (si + i)
  else if negb (drd =? 0) then zeroDR leaf d (di + i)
  else Some d.

Definition mvDR (leaf : bool) (d : dstream) (di si num : nat) : option dstream :=
  foldl (mv_one leaf di si) (Some d)
        (if (si <=? di)%nat then reverse (seq 0 num) else seq 0 num).

(** ... and when they are two nodes: the pair is (destination, source). *)
Definition mv_two (dleaf sleaf : bool) (di si : nat)
    (acc : option (dstream * dstream)) (i : nat) : option (dstream * dstream) :=
  '(dx, sx) ← acc;
  drs ← getDR sx (si + i);
  drd ← getDR dx (di + i);
  if negb (drs =? 0) then
    dx' ← setDR dleaf dx (di + i) drs; sx' ← zeroDR sleaf sx (si + i); Some (dx', sx')
  else if negb (drd =? 0) then dx' ← zeroDR dleaf dx (di + i); Some (dx', sx)
  else Some (dx, sx).

Definition mvDR2 (dleaf sleaf : bool) (dx sx : dstream) (di si num : nat)
  : option (dstream * dstream) :=
  foldl (mv_two dleaf sleaf di si) (Some (dx, sx))
        (if (si <=? di)%nat then reverse (seq 0 num) else seq 0 num).

(** [setBTKey]'s treatment of the counters: [drt] moves the counter with the
    key, otherwise the source's counter is dropped. *)
Definition mv_key_dr (drt dleaf sleaf : bool) (dx : dstream) (di : nat)
    (sx : dstream) (si : nat) : option (dstream * dstream) :=
  if drt then
    dr ← getDR sx si;
    dx' ← overwriteDR dleaf dx di dr;
    sx' ← zeroDR sleaf sx si;
    Some (dx', sx')
  else
    sx' ← zeroDR sleaf sx si;
    Some (dx, sx').

(** [setBTKey] with [drt] inside one node. *)
Definition mv_key_dr_self (leaf : bool) (d : dstream) (di si : nat) : option dstream :=
  dr ← getDR d si;
  d1 ← overwriteDR leaf d di dr;
  zeroDR leaf d1 si.

(** [trimBTN] *)
Definition trim_dr (drt leaf : bool) (d : dstream) (n : nat) : option dstream :=
  if drt then zeroDR leaf d n else Some d.

(** ** Clean streams: every operation that moves no counter is the identity *)

Definition clean (d : dstream) : Prop := dirty d <= 0.

Section Clean.
Context (d : dstream) (Hd : clean d).

Lemma getDR_clean i : getDR d i = Some 0.
Proof. unfold getDR. unfold clean in Hd. destruct (Z.leb_spec (dirty d) 0); [done|lia]. Qed.

Lemma zeroDR_clean leaf i : zeroDR leaf d i = Some d.
Proof. unfold zeroDR. unfold clean in Hd. destruct (Z.leb_spec (dirty d) 0); [done|lia]. Qed.

Lemma overwriteDR_clean leaf i : overwriteDR leaf d i 0 = Some d.
Proof. apply zeroDR_clean. Qed.

Lemma get_scion_range_clean b e : get_scion_range d b e = Some (Z.of_nat e - Z.of_nat b).
Proof. unfold get_scion_range. unfold clean in Hd. destruct (Z.leb_spec (dirty d) 0); [done|lia]. Qed.

Lemma mvDR_clean leaf di si num : mvDR leaf d di si num = Some d.
Proof.
  unfold mvDR. generalize (if (si <=? di)%nat then reverse (seq 0 num) else seq 0 num).
  induction l as [|i l IH]; [done|]. cbn [foldl].
  unfold mv_one at 2. cbn [mbind option_bind]. rewrite !getDR_clean. cbn. exact IH.
Qed.

Lemma mv_key_dr_self_clean leaf di si : mv_key_dr_self leaf d di si = Some d.
Proof.
  unfold mv_key_dr_self. rewrite getDR_clean. cbn [mbind option_bind].
  rewrite overwriteDR_clean. cbn [mbind option_bind]. apply zeroDR_clean.
Qed.

Lemma trim_dr_clean drt leaf n : trim_dr drt leaf d n = Some d.
Proof. destruct drt; [apply zeroDR_clean|done]. Qed.
End Clean.

Lemma mvDR2_clean dl sl dx sx di si num :
  clean dx -> clean sx -> mvDR2 dl sl dx sx di si num = Some (dx, sx).
Proof.
  intros Hd Hs. unfold mvDR2.
  generalize (if (si <=? di)%nat then reverse (seq 0 num) else seq 0 num).
  induction l as [|i l IH]; [done|]. cbn [foldl].
  unfold mv_two at 2. cbn [mbind option_bind]. rewrite !getDR_clean by done. exact IH.
Qed.

Lemma mv_key_dr_clean drt dl sl dx di sx si :
  clean dx -> clean sx -> mv_key_dr drt dl sl dx di sx si = Some (dx, sx).
Proof.
  intros Hd Hs. unfold mv_key_dr.
  rewrite (zeroDR_clean sx), (getDR_clean sx) by done. cbn [mbind option_bind].
  rewrite overwriteDR_clean by done. by destruct drt.
Qed.
End DirtyStream.

#[export] Hint Rewrite getDR_clean zeroDR_clean overwriteDR_clean get_scion_range_clean
  mvDR_clean mv_key_dr_self_clean trim_dr_clean mvDR2_clean mv_key_dr_clean
  using done : clean.

(** ** The counters as a function of the slot *)

(** The number of non-zero slots. *)
Fixpoint nz (l : list Z) : Z :=
  match l with
  | [] => 0
  | v :: l' => (if v =? 0 then 0 else 1) + nz l'
  end.

Lemma nz_nonneg l : 0 <= nz l.
Proof. induction l; simpl; [lia|]. case_match; lia. Qed.

Lemma nz_app l1 l2 : nz (l1 ++ l2) = nz l1 + nz l2.
Proof. induction l1; simpl; [done|]. lia. Qed.

Lemma nz_replicate n : nz (replicate n 0) = 0.
Proof. by induction n. Qed.

Lemma nz_insert l i v o :
  l !! i = Some o ->
  nz (<[i := v]> l) = nz l - (if o =? 0 then 0 else 1) + (if v =? 0 then 0 else 1).
Proof.
  intros H. destruct (lookup_split l i o H) as (l1 & l2 & -> & <-).
  rewrite insert_app_mid by done. rewrite !nz_app. simpl. lia.
Qed.

Lemma nz_zero l i v : nz l = 0 -> l !! i = Some v -> v = 0.
Proof.
  revert i. induction l as [|x l IH]; intros i Hz Hi; [done|]. simpl in Hz.
  pose proof (nz_nonneg l). destruct (Z.eqb_spec x 0); [|lia].
  destruct i; simpl in Hi; [by simplify_eq|]. apply (IH i); [lia|done].
Qed.

(** The largest counter of a width class. *)
Definition dr_max (dirty : Z) : Z :=
  if dirty =? 1 then UCHAR_MAX else if dirty =? 2 then USHRT_MAX else UINT_MAX.

Section DirtyFacts.
Context (t : nat).

(** A well-formed stream: allocated streams have [2t] slots that fit their
    width, and [ndirty] counts the non-zero ones. *)
Definition ds_ok (d : dstream) : Prop :=
  -1 <= dirty d <= 3 /\
  (dirty d <= 0 -> ndirty d = 0) /\
  (0 < dirty d ->
    length (slots d) = (2 * t)%nat /\
    Forall (fun v => 0 <= v <= dr_max (dirty d)) (slots d) /\
    ndirty d = nz (slots d) /\ ndirty d <= 255).

(** The counter of slot [i], [0] where there is none. *)
Definition dr_at (d : dstream) (i : nat) : Z :=
  if dirty d <=? 0 then 0 else slots d !!! i.

(** Room for one more non-zero slot in the byte [ndirty]. *)
Definition roomy (d : dstream) : Prop := ndirty d < 255.

Lemma getDR_at d i : ds_ok d -> (i < 2 * t)%nat -> getDR d i = Some (dr_at d i).
Proof.
  intros (Hr & _ & Hd) Hi. unfold getDR, dr_at.
  destruct (Z.leb_spec (dirty d) 0); [done|]. destruct Hd as (Hl & _); [done|].
  replace ((dirty d =? 1) || (dirty d =? 2) || (dirty d =? 3)) with true
    by (symmetry; destruct (Z.eqb_spec (dirty d) 1), (Z.eqb_spec (dirty d) 2),
          (Z.eqb_spec (dirty d) 3); simpl; try done; lia).
  apply list_lookup_lookup_total_lt. lia.
Qed.

Lemma store_dr_spec d i dr :
  ds_ok d -> dr = 0 \/ roomy d -> 0 < dirty d -> (i < 2 * t)%nat ->
  0 <= dr <= dr_max (dirty d) ->
  exists d', store_dr d i dr = Some d' /\ ds_ok d' /\
    (forall j, (j < 2 * t)%nat -> dr_at d' j = if decide (j = i) then dr else dr_at d j).
Proof.
  intros (Hr & _ & Hok) Hroom Hd Hi Hdr. destruct Hok as (Hl & Hf & Hn & Hb); [done|].
  unfold store_dr. destruct (lookup_lt_is_Some_2 (slots d) i) as [o Ho]; [lia|].
  rewrite Ho. cbn [mbind option_bind].
  pose proof (nz_insert (slots d) i dr o Ho) as Hnz.
  pose proof (nz_nonneg (<[i:=dr]> (slots d))) as Hnn.
  unfold roomy in Hroom.
  match goal with |- context [DStream (dirty d) ?nd _] => assert (End : nd = nz (<[i:=dr]> (slots d))) end.
  { unfold uwrap. destruct (Z.eqb_spec o 0), (Z.eqb_spec dr 0); cbn [andb negb];
      rewrite ?Z.mod_small by lia; lia. }
  rewrite End. cbn [dirty ndirty].
  assert (Hat : forall j, (j < 2 * t)%nat ->
    <[i:=dr]> (slots d) !!! j = if decide (j = i) then dr else dr_at d j).
  { intros j Hj. unfold dr_at. destruct (Z.leb_spec (dirty d) 0); [lia|].
    destruct (decide (j = i)) as [->|Hne].
    - apply list_lookup_total_insert_eq. lia.
    - by apply list_lookup_total_insert_ne. }
  destruct (Z.ltb_spec 0 (dirty d)) as [_|]; [|lia]. cbn [andb].
  destruct (Z.eqb_spec (nz (<[i:=dr]> (slots d))) 0) as [Ez|Ez].
  - eexists. split; [done|]. split; [unfold ds_ok; simpl; lia|].
    intros j Hj. rewrite <- Hat by done. unfold dr_at. cbn.
    symmetry. apply (nz_zero (<[i:=dr]> (slots d)) j); [done|].
    apply list_lookup_lookup_total_lt. rewrite length_insert. lia.
  - eexists. split; [done|]. split.
    + unfold ds_ok. cbn [dirty ndirty slots]. split_and!; [lia..|]. intros _.
      rewrite length_insert. split_and!; [done| |done|].
      * by apply Forall_insert.
      * rewrite Hnz. repeat case_match; lia.
    + intros j Hj. rewrite <- Hat by done. unfold dr_at. cbn [dirty slots].
      destruct (Z.leb_spec (dirty d) 0); [lia|done].
Qed.

(** Widening keeps the counters of the slots it copies: all of them in a
    leaf, the first [t] in an internal node. *)
Definition copied (leaf : bool) : nat := if leaf then (2 * t)%nat else t.

Lemma nz_take_le l n : nz (take n l) <= nz l.
Proof.
  rewrite <- (take_drop n l) at 2. rewrite nz_app. pose proof (nz_nonneg (drop n l)). lia.
Qed.

(** The internal case needs the dropped slots to be empty. *)
Lemma incr_ds_spec leaf d :
  ds_ok d -> (dirty d = 1 \/ dirty d = 2) ->
  (forall j, (copied leaf <= j < 2 * t)%nat -> dr_at d j = 0) ->
  exists d', incr_ds t leaf d = Some d' /\ ds_ok d' /\ dirty d' = dirty d + 1 /\
    ndirty d' = ndirty d /\ (forall j, (j < 2 * t)%nat -> dr_at d' j = dr_at d j).
Proof.
  intros (Hr & _ & Hok) Hd Hz. destruct Hok as (Hl & Hf & Hn & Hb); [lia|].
  unfold incr_ds. destruct (Z.leb_spec (dirty d) 0); [lia|].
  replace ((dirty d =? 1) || (dirty d =? 2)) with true
    by (destruct Hd as [-> | ->]; done).
  replace (take _ (slots d) ++ _) with (slots d).
  - eexists. split; [done|]. cbn [dirty ndirty slots]. split_and!; [|done|done|].
    + unfold ds_ok. cbn [dirty ndirty slots]. split_and!; [lia..|]. intros _.
      split_and!; [done| |done|done]. eapply Forall_impl; [exact Hf|].
      intros v Hv. cbn in Hv. unfold dr_max, UCHAR_MAX, USHRT_MAX, UINT_MAX in *.
      destruct Hd as [E | E]; rewrite E; rewrite E in Hv; cbn in Hv; zcases; lia.
    + intros j Hj. unfold dr_at. cbn [dirty slots].
      destruct (Z.leb_spec (dirty d) 0), (Z.leb_spec (dirty d + 1) 0); lia || done.
  - apply list_eq. intros j.
    destruct (decide (j < 2 * t)%nat) as [Hj|Hj].
    2:{ rewrite !lookup_ge_None_2; [done|..];
          rewrite ?length_app, ?length_take, ?length_replicate; destruct leaf; lia. }
    assert (Hc : (if leaf then (t * 2)%nat else t) = copied leaf)
      by (unfold copied; destruct leaf; lia). rewrite Hc.
    destruct (decide (j < copied leaf)%nat) as [Hjc|Hjc].
    + rewrite lookup_app_l by (rewrite length_take; lia). by rewrite lookup_take_lt.
    + assert (copied leaf <= 2 * t)%nat by (unfold copied; destruct leaf; lia).
      rewrite lookup_app_r; rewrite length_take_le by lia; [|lia].
      rewrite lookup_replicate_2 by lia.
      specialize (Hz j ltac:(lia)). unfold dr_at in Hz.
      destruct (Z.leb_spec (dirty d) 0); [lia|].
      rewrite <- Hz. apply list_lookup_lookup_total_lt. lia.
Qed.

(** [d'] is [d] with the counter of slot [i] replaced. *)
Definition dr_set (d d' : dstream) (i : nat) (dr : Z) : Prop :=
  ds_ok d' /\
  forall j, (j < 2 * t)%nat -> dr_at d' j = if decide (j = i) then dr else dr_at d j.

(** The write needs no widening, or widening loses nothing. *)
Definition widens_safely (leaf : bool) (d : dstream) (dr : Z) : Prop :=
  dr <= dr_max (dirty d) \/ forall j, (copied leaf <= j < 2 * t)%nat -> dr_at d j = 0.

Lemma __setDR_spec leaf i dr : (i < 2 * t)%nat -> 0 <= dr <= UINT_MAX ->
  forall fuel d, ds_ok d -> dr = 0 \/ roomy d -> 0 < dirty d -> (3 - dirty d < Z.of_nat fuel) ->
  widens_safely leaf d dr ->
  exists d', __setDR t fuel leaf d i dr = Some d' /\ dr_set d d' i dr.
Proof.
  intros Hi Hdr. induction fuel as [|fuel IH]; intros d Hok Hroom Hd Hf Hw.
  { destruct Hok as [? _]. lia. }
  cbn [__setDR].
  assert (Hstore : dr <= dr_max (dirty d) ->
    exists d', store_dr d i dr = Some d' /\ dr_set d d' i dr).
  { intros Hm. destruct (store_dr_spec d i dr) as (d' & -> & ? & ?); try done; [lia|].
    exists d'. done. }
  assert (Hwide : dr_max (dirty d) < dr -> dirty d = 1 \/ dirty d = 2 ->
    exists d', (d1 ← incr_ds t leaf d; __setDR t fuel leaf d1 i dr) = Some d' /\
      dr_set d d' i dr).
  { intros Hm Hd12. destruct Hw as [?|Hw]; [lia|].
    destruct (incr_ds_spec leaf d Hok Hd12 Hw) as (d1 & -> & Hok1 & Hd1 & Hn1 & Heq).
    cbn [mbind option_bind].
    destruct (IH d1) as (d' & -> & Hok' & Hset); [done|unfold roomy in *; lia|lia|lia| |].
    - right. intros j Hj. rewrite Heq by lia. by apply Hw.
    - exists d'. split; [done|]. split; [done|]. intros j Hj.
      rewrite Hset, Heq by done. done. }
  destruct Hok as [Hr _]. unfold dr_max in Hstore, Hwide.
  destruct (Z.eqb_spec (dirty d) 1) as [E1|E1].
  { destruct (Z.ltb_spec UCHAR_MAX dr); auto. }
  destruct (Z.eqb_spec (dirty d) 2) as [E2|E2].
  { destruct (Z.ltb_spec USHRT_MAX dr); auto. }
  destruct (Z.eqb_spec (dirty d) 3) as [E3|E3]; [|lia]. apply Hstore. lia.
Qed.

(** A fresh stream for a clean node. *)
Lemma addDS_spec d :
  ds_ok d -> dirty d <= 0 ->
  ds_ok (addDS t d 1) /\ roomy (addDS t d 1) /\
  forall j, (j < 2 * t)%nat -> dr_at (addDS t d 1) j = 0.
Proof.
  intros (_ & Hn & _) Hd. specialize (Hn Hd). unfold ds_ok, roomy, addDS, dr_at. cbn.
  split; [split; [lia|split; [lia|]]|split; [lia|]].
  - intros _. rewrite length_replicate. split_and!; [lia| |by rewrite nz_replicate|lia].
    apply Forall_replicate. unfold dr_max, UCHAR_MAX. cbn. lia.
  - intros j Hj. by apply lookup_total_replicate_2.
Qed.

Lemma dr_at_clean d j : dirty d <= 0 -> dr_at d j = 0.
Proof. intros. unfold dr_at. by destruct (Z.leb_spec (dirty d) 0); [|lia]. Qed.

Lemma setDR_spec leaf d i dr :
  ds_ok d -> roomy d -> (i < 2 * t)%nat -> 0 < dr <= UINT_MAX ->
  (0 < dirty d -> widens_safely leaf d dr) ->
  exists d', setDR t leaf d i dr = Some d' /\ dr_set d d' i dr.
Proof.
  intros Hok Hroom Hi Hdr Hw. unfold setDR. destruct (Z.eqb_spec dr 0); [lia|].
  destruct (Z.leb_spec (dirty d) 0) as [Hd|Hd].
  - destruct (addDS_spec d Hok Hd) as (H1 & H2 & H3).
    destruct (__setDR_spec leaf i dr Hi) with (fuel := 3%nat) (d := addDS t d 1)
      as (d' & -> & Ho & Hs); [lia|done|by right|cbn; lia|cbn; lia| |].
    { right. intros j Hj. apply H3. lia. }
    exists d'. split; [done|]. split; [done|]. intros j Hj.
    rewrite Hs, H3, (dr_at_clean d) by done. done.
  - pose proof (proj1 Hok) as Hr. apply __setDR_spec; auto; lia.
Qed.

Lemma zeroDR_spec leaf d i :
  ds_ok d -> (i < 2 * t)%nat ->
  exists d', zeroDR t leaf d i = Some d' /\ dr_set d d' i 0.
Proof.
  intros Hok Hi. unfold zeroDR. destruct (Z.leb_spec (dirty d) 0) as [Hd|Hd].
  - exists d. split; [done|]. split; [done|]. intros j Hj.
    rewrite !dr_at_clean by done. by case_decide.
  - pose proof (proj1 Hok) as Hr.
    apply __setDR_spec; try done; try (unfold UINT_MAX; lia); try by left.
    left. unfold dr_max, UCHAR_MAX, USHRT_MAX, UINT_MAX. repeat case_match; lia.
Qed.

(** ** The stream as the list of its counters *)

Definition drs (d : dstream) : list Z := dr_at d <$> seq 0 (2 * t).

Lemma length_drs d : length (drs d) = (2 * t)%nat.
Proof. unfold drs. by rewrite length_fmap, length_seq. Qed.

Lemma drs_lookup d j : (j < 2 * t)%nat -> drs d !! j = Some (dr_at d j).
Proof. intros. unfold drs. by rewrite list_lookup_fmap, lookup_seq_lt. Qed.

Lemma dr_set_drs d d' i dr : dr_set d d' i dr -> drs d' = <[i := dr]> (drs d).
Proof.
  intros [_ Hs]. apply list_eq. intros j.
  destruct (decide (j < 2 * t)%nat) as [Hj|Hj].
  2:{ rewrite !lookup_ge_None_2; [done|..]; rewrite ?length_insert, length_drs; lia. }
  rewrite drs_lookup, Hs by done. case_decide as E.
  - subst. rewrite list_lookup_insert_eq by (rewrite length_drs; lia). done.
  - rewrite list_lookup_insert_ne, drs_lookup by done. done.
Qed.

Lemma ds_ok_ndirty d : ds_ok d -> ndirty d = nz (drs d).
Proof.
  intros (Hr & Hn & Hok). destruct (Z_le_gt_dec (dirty d) 0) as [Hd|Hd].
  - rewrite Hn by done. unfold drs.
    rewrite (Forall_fmap_ext_1 _ (fun _ => 0)).
    + generalize (seq 0 (2 * t)). intros l. by induction l.
    + apply Forall_forall. intros. by apply dr_at_clean.
  - destruct Hok as (Hl & _ & -> & _); [lia|]. f_equal. apply list_eq. intros j.
    destruct (decide (j < 2 * t)%nat) as [Hj|Hj].
    + rewrite drs_lookup by done. unfold dr_at.
      destruct (Z.leb_spec (dirty d) 0); [lia|]. apply list_lookup_lookup_total_lt. lia.
    + rewrite !lookup_ge_None_2; [done|..]; rewrite ?length_drs; lia.
Qed.

Lemma dr_at_le d i : ds_ok d -> (i < 2 * t)%nat ->
  0 <= dr_at d i /\ (0 < dirty d -> dr_at d i <= dr_max (dirty d)).
Proof.
  intros (_ & _ & Hok) Hi. unfold dr_at.
  destruct (Z.leb_spec (dirty d) 0) as [Hd|Hd]; [lia|].
  destruct Hok as (Hl & Hf & _); [done|]. rewrite Forall_lookup in Hf.
  destruct (Hf i (slots d !!! i)); [apply list_lookup_lookup_total_lt; lia|]. auto.
Qed.

Lemma dr_max_le w : dr_max w <= UINT_MAX.
Proof. unfold dr_max, UCHAR_MAX, USHRT_MAX, UINT_MAX. repeat case_match; lia. Qed.

(** One round of the move, seen on the counters. *)
Lemma mv_one_spec leaf d di si i :
  ds_ok d -> roomy d -> (si + i < 2 * t)%nat -> (di + i < 2 * t)%nat -> di <> si ->
  exists d', mv_one t leaf di si (Some d) i = Some d' /\ ds_ok d' /\ roomy d' /\
    drs d' = <[(si + i)%nat := 0]> (<[(di + i)%nat := dr_at d (si + i)]> (drs d)).
Proof.
  intros Hok Hroom Hs Hd Hne. unfold mv_one. cbn [mbind option_bind].
  rewrite !(getDR_at d) by done. cbn [mbind option_bind].
  pose proof (dr_at_le d _ Hok Hs) as [Hs0 Hsm].
  destruct (Z.eqb_spec (dr_at d (si + i)) 0) as [Es|Es]; cbn [negb].
  - assert (Hnop : forall l : list Z, l !! (si + i)%nat = Some 0 ->
      l = <[(si + i)%nat := 0]> l) by (intros l Hl; by rewrite list_insert_id).
    destruct (Z.eqb_spec (dr_at d (di + i)) 0) as [Ed|Ed]; cbn [negb].
    + exists d. split_and!; [done..|]. rewrite Es.
      rewrite (list_insert_id (drs d)) by (rewrite drs_lookup, Ed by done; done).
      apply Hnop. rewrite drs_lookup, Es by done. done.
    + destruct (zeroDR_spec leaf d (di + i)) as (d' & -> & Hset); [done..|].
      exists d'. pose proof (dr_set_drs _ _ _ _ Hset) as Ev. destruct Hset as [Hok' _].
      split_and!; [done|done| |].
      * unfold roomy in *. rewrite ds_ok_ndirty in * by done. rewrite Ev.
        rewrite (nz_insert _ _ _ (dr_at d (di + i))) by by apply drs_lookup.
        repeat case_match; lia.
      * rewrite Ev, Es. apply Hnop.
        rewrite list_lookup_insert_ne, drs_lookup, Es by lia. done.
  - assert (Hd0 : 0 < dirty d).
    { destruct (Z_le_gt_dec (dirty d) 0); [|lia]. rewrite dr_at_clean in Es; lia. }
    destruct (setDR_spec leaf d (di + i) (dr_at d (si + i))) as (d1 & -> & Hset1); try done.
    { pose proof (dr_max_le (dirty d)). lia. }
    { intros _. left. by apply Hsm. }
    cbn [mbind option_bind].
    pose proof (dr_set_drs _ _ _ _ Hset1) as Ev1. destruct Hset1 as [Hok1 _].
    destruct (zeroDR_spec leaf d1 (si + i)) as (d' & -> & Hset); [done..|].
    exists d'. pose proof (dr_set_drs _ _ _ _ Hset) as Ev. destruct Hset as [Hok' _].
    split_and!; [done|done| |by rewrite Ev, Ev1].
    unfold roomy in *. rewrite ds_ok_ndirty in * by done. rewrite Ev, Ev1.
    rewrite (nz_insert _ _ _ (dr_at d (si + i))).
    2:{ rewrite list_lookup_insert_ne, drs_lookup by lia. done. }
    rewrite (nz_insert _ _ _ (dr_at d (di + i))) by by apply drs_lookup.
    repeat case_match; lia.
Qed.

(** The move as a function of the list of counters. *)
Definition mv_view (di si : nat) (l : list Z) (i : nat) : list Z :=
  <[(si + i)%nat := 0]> (<[(di + i)%nat := l !!! (si + i)%nat]> l).

Lemma mv_fold_spec leaf di si js : forall d,
  ds_ok d -> roomy d -> di <> si ->
  Forall (fun i => (si + i < 2 * t)%nat /\ (di + i < 2 * t)%nat) js ->
  exists d', foldl (mv_one t leaf di si) (Some d) js = Some d' /\ ds_ok d' /\ roomy d' /\
    drs d' = foldl (mv_view di si) (drs d) js.
Proof.
  induction js as [|i js IH]; intros d Hok Hroom Hne HF; [by exists d|].
  apply Forall_cons in HF as [[Hs Hd] HF]. cbn [foldl].
  destruct (mv_one_spec leaf d di si i) as (d1 & -> & Hok1 & Hroom1 & Ev); try done.
  destruct (IH d1) as (d' & -> & ? & ? & Ev'); [done..|].
  exists d'. split_and!; [done..|]. rewrite Ev', Ev. f_equal. unfold mv_view.
  do 2 f_equal. symmetry. apply list_lookup_total_correct, drs_lookup. done.
Qed.
End DirtyFacts.

Lemma mv_view_at di si l i v :
  l !! (si + i)%nat = Some v ->
  mv_view di si l i = <[(si + i)%nat := 0]> (<[(di + i)%nat := v]> l).
Proof. intros H. unfold mv_view. by rewrite (list_lookup_total_correct l _ v). Qed.

Lemma shift_up_fold b : forall a c,
  foldl (mv_view (S (length a)) (length a)) (a ++ b ++ 0 :: c) (reverse (seq 0 (length b)))
  = a ++ 0 :: b ++ c.
Proof.
  induction b as [|y b IH] using rev_ind; intros a c; [done|].
  rewrite length_app, Nat.add_1_r, seq_S, reverse_snoc. cbn [foldl Nat.add].
  rewrite (mv_view_at _ _ _ _ y).
  2:{ rewrite lookup_app_r, Nat.add_comm, Nat.add_sub by lia.
      rewrite <- app_assoc. by apply list_lookup_middle. }
  replace (a ++ (b ++ [y]) ++ 0 :: c) with ((a ++ b ++ [y]) ++ 0 :: c)
    by by rewrite <- !app_assoc.
  rewrite insert_app_mid by (rewrite !length_app; simpl; lia).
  replace ((a ++ b ++ [y]) ++ y :: c) with ((a ++ b) ++ y :: y :: c)
    by by rewrite <- !app_assoc.
  rewrite insert_app_mid by (rewrite !length_app; lia).
  rewrite <- app_assoc, IH, <- app_assoc. done.
Qed.

Lemma shift_up_view a b x c :
  b <> [] ->
  foldl (mv_view (S (length a)) (length a)) (a ++ b ++ x :: c) (reverse (seq 0 (length b)))
  = a ++ 0 :: b ++ c.
Proof.
  destruct b as [|y b _] using rev_ind; [done|]. intros _.
  rewrite length_app, Nat.add_1_r, seq_S, reverse_snoc. cbn [foldl Nat.add].
  rewrite (mv_view_at _ _ _ _ y).
  2:{ rewrite lookup_app_r, Nat.add_comm, Nat.add_sub by lia.
      rewrite <- app_assoc. by apply list_lookup_middle. }
  replace (a ++ (b ++ [y]) ++ x :: c) with ((a ++ b ++ [y]) ++ x :: c)
    by by rewrite <- !app_assoc.
  rewrite insert_app_mid by (rewrite !length_app; simpl; lia).
  replace ((a ++ b ++ [y]) ++ y :: c) with ((a ++ b) ++ y :: y :: c)
    by by rewrite <- !app_assoc.
  rewrite insert_app_mid by (rewrite !length_app; lia).
  rewrite <- app_assoc, shift_up_fold, <- app_assoc. done.
Qed.

Lemma mv_view_shift di si js : forall l,
  foldl (mv_view di si) l (S <$> js) = foldl (mv_view (S di) (S si)) l js.
Proof.
  induction js as [|i js IH]; intros l; [done|]. cbn [fmap list_fmap foldl].
  rewrite IH. f_equal. unfold mv_view. by rewrite !Nat.add_succ_r.
Qed.

Lemma shift_down_view b : forall a x c,
  b <> [] ->
  foldl (mv_view (length a) (S (length a))) (a ++ x :: b ++ c) (seq 0 (length b))
  = a ++ b ++ 0 :: c.
Proof.
  induction b as [|y b IH]; intros a x c Hne; [done|].
  cbn [length seq foldl]. rewrite <- fmap_S_seq, mv_view_shift.
  rewrite (mv_view_at _ _ _ _ y).
  2:{ rewrite lookup_app_r by lia.
      replace (S (length a) + 0 - length a)%nat with 1%nat by lia. done. }
  rewrite Nat.add_0_r, insert_app_mid by done.
  cbn [app].
  replace (a ++ y :: y :: b ++ c) with ((a ++ [y]) ++ y :: b ++ c) by by rewrite <- app_assoc.
  rewrite insert_app_mid by (rewrite length_app; simpl; lia).
  replace (S (length a)) with (length (a ++ [y])) by (rewrite length_app; simpl; lia).
  destruct b as [|y' b]; [cbn; by rewrite <- app_assoc|].
  rewrite IH by done. by rewrite <- app_assoc.
Qed.

(** ** Properties *)

(** on a well-formed stream, overwriting a counter with any 32-bit value
    (zero included) and adding to a counter both succeed, change that counter
    only, and leave the stream well formed, whatever allocation, widening or
    release they need; clearing the last non-zero counter releases the stream.
    Widening an internal node is covered when its upper half is empty. *)
Theorem dirty_counter_update (t : nat) (leaf : bool) (d : dstream) (i : nat) (dr : Z) :
  ds_ok t d -> roomy d -> (i < 2 * t)%nat -> 0 <= dr <= UINT_MAX ->
  dr_at d i + dr <= UINT_MAX ->
  (leaf = true \/ forall j, (t <= j < 2 * t)%nat -> dr_at d j = 0) ->
  (exists d', overwriteDR t leaf d i dr = Some d' /\ ds_ok t d' /\
     getDR d' i = Some dr /\ drs t d' = <[i := dr]> (drs t d)) /\
  (exists d', incrDR t leaf d i dr = Some d' /\ ds_ok t d' /\
     getDR d' i = Some (dr_at d i + dr) /\ drs t d' = <[i := dr_at d i + dr]> (drs t d)) /\
  (nz (<[i := 0]> (drs t d)) = 0 -> 0 < dirty d -> exists d',
     zeroDR t leaf d i = Some d' /\ dirty d' = 0).
Proof.
  intros Hok Hroom Hi Hdr Hsum Hw.
  assert (Hsafe : forall v, widens_safely t leaf d v).
  { intros v. right. unfold copied. destruct Hw as [->|Hw]; [lia|].
    intros j Hj. destruct leaf; [lia|]. apply Hw. lia. }
  assert (Hset : forall d' v, dr_set t d d' i v ->
    ds_ok t d' /\ getDR d' i = Some v /\ drs t d' = <[i := v]> (drs t d)).
  { intros d' v Hset. pose proof (dr_set_drs t _ _ _ _ Hset). destruct Hset as [Hok' Hs].
    split_and!; [done| |done]. rewrite (getDR_at t), Hs by done. by rewrite decide_True. }
  split_and!.
  - unfold overwriteDR. destruct (Z.eqb_spec dr 0) as [->|Hne].
    + destruct (zeroDR_spec t leaf d i) as (d' & -> & H); [done..|]. exists d'. auto.
    + destruct (setDR_spec t leaf d i dr) as (d' & -> & H); auto; [lia|]. exists d'. auto.
  - unfold incrDR. destruct (Z.eqb_spec dr 0) as [->|Hne].
    { exists d. rewrite Z.add_0_r. split_and!; [done|done|by apply (getDR_at t)|].
      by rewrite list_insert_id by by apply drs_lookup. }
    pose proof (dr_at_le t d i Hok Hi) as [H0 _].
    destruct (Z.leb_spec (dirty d) 0) as [Hd|Hd].
    + destruct (addDS_spec t d Hok Hd) as (H1 & H2 & H3).
      rewrite (getDR_at t), H3 by done. cbn [mbind option_bind].
      rewrite (dr_at_clean d) by done. rewrite uwrap_small by (unfold UINT_MAX in *; lia).
      destruct (setDR_spec t leaf (addDS t d 1) i (0 + dr)) as (d' & -> & H); auto; [lia| |].
      * intros _. right. intros j Hj. apply H3. lia.
      * exists d'. split; [done|]. apply Hset. destruct H as [H4 H5]. split; [done|].
        intros j Hj. rewrite H5, H3, (dr_at_clean d) by done. done.
    + rewrite (getDR_at t) by done. cbn [mbind option_bind].
      rewrite uwrap_small by (unfold UINT_MAX in *; lia).
      destruct (setDR_spec t leaf d i (dr_at d i + dr)) as (d' & -> & H); auto; [lia|].
      exists d'. auto.
  - intros Hnz Hd. destruct (zeroDR_spec t leaf d i Hok Hi) as (d' & E & H).
    exists d'. split; [done|]. pose proof (dr_set_drs t _ _ _ _ H) as Ev.
    destruct H as [Hok' _]. pose proof (ds_ok_ndirty t d' Hok') as En.
    rewrite Ev, Hnz in En. revert E. unfold zeroDR.
    destruct (Z.leb_spec (dirty d) 0); [lia|]. cbn [__setDR].
    assert (Hm : 0 <= dr_max (dirty d)).
    { unfold dr_max, UCHAR_MAX, USHRT_MAX, UINT_MAX. repeat case_match; lia. }
    assert (Hst : store_dr d i 0 = Some d' -> dirty d' = 0).
    { unfold store_dr. destruct (slots d !! i); [|done]. cbn [mbind option_bind].
      case_match eqn:C; intros [= <-]; [done|].
      cbn [dirty ndirty] in En, C. apply andb_false_iff in C as [C|C];
        [apply Z.ltb_ge in C; lia|by apply Z.eqb_neq in C]. }
    destruct Hok as [Hr _]. unfold UCHAR_MAX, USHRT_MAX.
    destruct (Z.eqb_spec (dirty d) 1); [exact Hst|].
    destruct (Z.eqb_spec (dirty d) 2); [exact Hst|].
    destruct (Z.eqb_spec (dirty d) 3); [exact Hst|done].
Qed.

Lemma dirty_counter_update_witness :
  let d := DStream 1 1 [0; 7; 0; 0; 0; 0; 0; 0] in
  exists d', overwriteDR 4 true d 2 70000 = Some d' /\ ds_ok 4 d' /\
    getDR d' 2 = Some 70000 /\ drs 4 d' = <[2%nat := 70000]> (drs 4 d).
Proof.
  apply (dirty_counter_update 4 true (DStream 1 1 [0; 7; 0; 0; 0; 0; 0; 0]) 2 70000).
  - unfold ds_ok. cbn. split_and!; [lia..|]. intros _. split_and!; [done| |done|lia].
    repeat constructor; unfold dr_max, UCHAR_MAX; cbn; lia.
  - unfold roomy. cbn. lia.
  - lia.
  - unfold UINT_MAX. lia.
  - unfold UINT_MAX. cbn. lia.
  - by left.
Defined.

(** C33: the counters follow their keys when [mvXKeys] opens or closes a gap in
    a node: moving the [num] counters from slot [s] up by one leaves a zero
    counter at [s], moving them down by one leaves it behind them, no counter
    is lost or duplicated, and the others do not change.  The overlapping move
    is done from the right end in both directions. *)
Theorem dirty_counters_shift (t : nat) (leaf : bool) (d : dstream) (a b c : list Z) (x : Z) :
  ds_ok t d -> roomy d -> b <> [] ->
  (drs t d = a ++ b ++ x :: c -> exists d',
     mvDR t leaf d (S (length a)) (length a) (length b) = Some d' /\
     ds_ok t d' /\ drs t d' = a ++ 0 :: b ++ c) /\
  (drs t d = a ++ x :: b ++ c -> exists d',
     mvDR t leaf d (length a) (S (length a)) (length b) = Some d' /\
     ds_ok t d' /\ drs t d' = a ++ b ++ 0 :: c).
Proof.
  intros Hok Hroom Hne. unfold mvDR. pose proof (length_drs t d) as Hl.
  split; intros E; rewrite E in Hl; rewrite !length_app in Hl; simpl in Hl;
    rewrite ?length_app in Hl; simpl in Hl.
  - destruct (Nat.leb_spec (length a) (S (length a))); [|lia].
    destruct (mv_fold_spec t leaf (S (length a)) (length a) (reverse (seq 0 (length b))) d)
      as (d' & -> & ? & _ & Ev); [done|done|lia| |].
    { apply Forall_forall. intros i Hi. apply elem_of_reverse, elem_of_seq in Hi. lia. }
    exists d'. split_and!; [done..|]. by rewrite Ev, E, shift_up_view.
  - destruct (Nat.leb_spec (S (length a)) (length a)); [lia|].
    destruct (mv_fold_spec t leaf (length a) (S (length a)) (seq 0 (length b)) d)
      as (d' & -> & ? & _ & Ev); [done|done|lia| |].
    { apply Forall_forall. intros i Hi. apply elem_of_seq in Hi. lia. }
    exists d'. split_and!; [done..|]. by rewrite Ev, E, shift_down_view.
Qed.

Lemma dirty_counters_shift_witness :
  let d := DStream 1 2 [5; 6; 0; 0] in
  exists d', mvDR 2 true d 1 0 2 = Some d' /\ ds_ok 2 d' /\ drs 2 d' = [] ++ 0 :: [5; 6] ++ [0].
Proof.
  apply (dirty_counters_shift 2 true (DStream 1 2 [5; 6; 0; 0]) [] [5; 6] [0] 0).
  - unfold ds_ok. cbn. split_and!; [lia..|]. intros _. split_and!; [done| |done|lia].
    repeat constructor; unfold dr_max, UCHAR_MAX; cbn; lia.
  - unfold roomy. cbn. lia.
  - done.
  - reflexivity.
Defined.

(** widening the one-byte stream of an internal node copies only its first
    [t] slots, so every counter of its upper half other than the one being
    written becomes zero. *)
Theorem internal_widening_drops (t : nat) (d : dstream) (i j : nat) (dr : Z) :
  ds_ok t d -> dirty d = 1 -> (i < 2 * t)%nat -> (t <= j < 2 * t)%nat -> i <> j ->
  UCHAR_MAX < dr <= USHRT_MAX ->
  exists d', setDR t false d i dr = Some d' /\ getDR d' j = Some 0.
Proof.
  intros (_ & _ & Hok) Hd Hi Hj Hne Hdr. destruct Hok as (Hl & _); [lia|].
  unfold setDR. unfold UCHAR_MAX, USHRT_MAX in Hdr.
  destruct (Z.eqb_spec dr 0); [lia|]. rewrite Hd. cbn [Z.leb Z.compare __setDR].
  rewrite Hd. cbn [Z.eqb Pos.eqb]. unfold UCHAR_MAX, USHRT_MAX.
  destruct (Z.ltb_spec 255 dr); [|lia].
  unfold incr_ds. rewrite Hd. cbn [Z.leb Z.compare Z.eqb Pos.eqb orb mbind option_bind dirty].
  change (1 + 1) with 2. cbn [Z.eqb Pos.eqb]. destruct (Z.ltb_spec 65535 dr); [lia|].
  unfold store_dr. cbn [slots dirty ndirty].
  set (l := take t (slots d) ++ replicate (2 * t - t) 0).
  assert (Hll : length l = (2 * t)%nat).
  { unfold l. rewrite length_app, length_take, length_replicate. lia. }
  assert (Hlj : l !! j = Some 0).
  { unfold l. rewrite lookup_app_r by (rewrite length_take; lia).
    apply lookup_replicate_2. rewrite length_take. lia. }
  destruct (lookup_lt_is_Some_2 l i) as [o Ho]; [lia|]. rewrite Ho.
  cbn [mbind option_bind].
  eexists. split; [reflexivity|]. case_match; [done|].
  unfold getDR. cbn [dirty slots Z.leb Z.compare Z.eqb Pos.eqb orb].
  by rewrite list_lookup_insert_ne.
Qed.

Lemma internal_widening_drops_witness :
  exists d', setDR 2 false (DStream 1 2 [1; 0; 0; 9]) 0 300 = Some d' /\ getDR d' 3 = Some 0.
Proof.
  apply (internal_widening_drops 2 (DStream 1 2 [1; 0; 0; 9]) 0 3 300).
  - unfold ds_ok. cbn. split_and!; [lia..|]. intros _. split_and!; [done| |done|lia].
    repeat constructor; unfold dr_max, UCHAR_MAX; cbn; lia.
  - done.
  - lia.
  - lia.
  - done.
  - unfold UCHAR_MAX, USHRT_MAX. lia.
Defined.
