(* ===== verification/Btree.v ===== *)
(** * B-tree nodes, well-formedness and queries ([DB/bt_code.c], [DB/btreepriv.h])

    A node is its header ([leaf], [scion]), its dirty stream, the live prefix
    [0 .. n) of its key array and the live prefix of its child array; [n] is the
    length of the key list.  An access outside the live prefix is [None].  The
    loops that descend the tree take the height as fuel. *)

From S2P Require Import Prelude BtSearch DirtyStream.

(** What a [bt_data_t] taken from a slot by [KEYS] is.  A slot of four or eight
    bytes gives its contents; a wider one gives its own address, so that the key
    changes when the slot is written.  [CREATE_RETURN_DELETED_KEY] copies a
    deleted key to a buffer when the flags of the tree say that its keys are wide
    ([BIG_BT]), whatever they are:
    - [REP_WORD]: the contents of the slot, not copied;
    - [REP_COPIED]: an address, copied to the buffer on deletion;
    - [REP_SLOT]: an address that is not copied;
    - [REP_BAD]: the contents of the slot, which the copy dereferences. *)
Inductive key_rep_t := REP_WORD | REP_COPIED | REP_SLOT | REP_BAD.

(** The key is the address of its slot. *)
Definition by_address (r : key_rep_t) : bool :=
  match r with REP_COPIED | REP_SLOT => true | _ => false end.

(** A deleted key outlives its slot. *)
Definition rep_kept (r : key_rep_t) : bool :=
  match r with REP_WORD | REP_COPIED => true | _ => false end.

(** What the tree uses of its keys beside their order: the number a key is
    stored under ([getNumKey]), the ghost that replaces a deleted row with
    evicted successors ([replaceKeyWithGhost]), the kind of tree, and what its
    functions pass around as a key. *)
Class KeyOps (K : Type) := {
  num_key : K -> Z;
  ghost_key : K -> K;
  key_is_num : bool;
  is_inode : bool;
  key_rep : key_rep_t;
}.

#[local] Set Warnings "-register-all".

Inductive bt_n (K : Type) :=
| Node (leaf : bool) (scion : Z) (ds : dstream) (keys : list K) (nodes : list (bt_n K)).
Arguments Node {K} _ _ _ _ _.

Section NodeAccess.
Context {K : Type}.

Definition leaf (x : bt_n K) : bool := let 'Node l _ _ _ _ := x in l.
Definition scion (x : bt_n K) : Z := let 'Node _ s _ _ _ := x in s.
Definition ds (x : bt_n K) : dstream := let 'Node _ _ d _ _ := x in d.
Definition keys (x : bt_n K) : list K := let 'Node _ _ _ ks _ := x in ks.
Definition nodes (x : bt_n K) : list (bt_n K) := let 'Node _ _ _ _ ns := x in ns.
Definition n_keys (x : bt_n K) : nat := length (keys x).

Definition incr_scion (x : bt_n K) (v : Z) : bt_n K :=
  let 'Node l s d ks ns := x in Node l (u32 (s + v)) d ks ns.
Definition decr_scion (x : bt_n K) (v : Z) : bt_n K :=
  let 'Node l s d ks ns := x in Node l (u32 (s - v)) d ks ns.
Definition set_ds (x : bt_n K) (d : dstream) : bt_n K :=
  let 'Node l s _ ks ns := x in Node l s d ks ns.
Definition set_keys (x : bt_n K) (ks : list K) : bt_n K :=
  let 'Node l s d _ ns := x in Node l s d ks ns.
Definition set_nodes (x : bt_n K) (ns : list (bt_n K)) : bt_n K :=
  let 'Node l s d ks _ := x in Node l s d ks ns.

(** [setBTKeyRaw] on a live slot. *)
Definition setBTKeyRaw (x : bt_n K) (i : nat) (k : K) : bt_n K :=
  set_keys x (<[i := k]> (keys x)).

Fixpoint height (x : bt_n K) : nat :=
  match x with
  | Node _ _ _ _ [] => 0
  | Node _ _ _ _ (c :: _) => S (height c)
  end.

(** The keys of a list of subtrees with separators between them. *)
Definition zipl (ls : list (list K)) (ks : list K) : list K :=
  concat (zip_with (fun l k => l ++ [k]) ls ks).
Definition zipr (ks : list K) (ls : list (list K)) : list K :=
  concat (zip_with cons ks ls).
Definition flat (ls : list (list K)) (ks : list K) : list K :=
  match ls with
  | [] => ks
  | l :: ls' => l ++ zipr ks ls'
  end.

(** The abstraction of a tree: its keys in order. *)
Fixpoint inorder (x : bt_n K) : list K :=
  match x with Node _ _ _ ks ns => flat (map inorder ns) ks end.
End NodeAccess.

(** The tree's own header. *)
Record bt (K : Type) := Bt {
  root : bt_n K;
  numkeys : Z;
  dirty_left : Z;
  bdirty : bool;
}.
Arguments Bt {K} _ _ _ _.
Arguments root {K} _.
Arguments numkeys {K} _.
Arguments dirty_left {K} _.
Arguments bdirty {K} _.

(** [t] and [nbits] as [bt_create] computes them: [TRANS_ONE] trees have 7 keys
    per node, the others 255. *)
Definition max_keys (trans_one : bool) : Z := if trans_one then 7 else 255.
Definition bt_t (trans_one : bool) : Z := u8 ((max_keys trans_one + 1) / 2).
Definition bt_nbits (trans_one : bool) : option Z :=
  nb ← real_log2 (max_keys trans_one) 32;
  lb ← real_log2 (nb + 1) 32;
  Some (u8 (Z.shiftl 1 (lb + 1))).

Definition bt_create {K} (dirty : bool) : bt K :=
  Bt (Node true 0 (DStream (if dirty then 0 else -1) 0 []) [] []) 0 0 dirty.

(** ** Queries *)

(** The result of [findnodekey]. *)
Record dwm_t (K : Type) := Dwm {
  dwm_k : option K;
  dwm_miss : bool;
  dwm_x : bt_n K;
  dwm_i : Z;
  dwm_p : bt_n K;
  dwm_pi : Z;
}.
Arguments Dwm {K} _ _ _ _ _ _.
Arguments dwm_k {K} _.
Arguments dwm_miss {K} _.
Arguments dwm_x {K} _.
Arguments dwm_i {K} _.
Arguments dwm_p {K} _.
Arguments dwm_pi {K} _.

Section Queries.
Context {K : Type} `{KeyOrder K} `{KeyOps K} (nbits : Z).

Definition getNumKey (x : bt_n K) (i : Z) : Z :=
  if (i <? 0) || (Z.of_nat (n_keys x) <=? i) then 0
  else match keys x !! Z.to_nat i with Some k => num_key k | None => 0 end.

(** [qkey] is the number in the [aobj] that is looked for. *)
Definition key_covers_miss (x : bt_n K) (i : Z) (qkey : Z) : option bool :=
  if negb key_is_num then Some false
  else
    let i := if i <? 0 then 0 else i in
    let mkey := getNumKey x i in
    dr ← getDR (ds x) (Z.to_nat i);
    Some (negb (mkey =? 0) && negb (dr =? 0) &&
          ((mkey <=? qkey) && (qkey <=? u64 (mkey + dr)))).

Fixpoint findnodekey_loop (fuel : nat) (x : bt_n K) (k : K) (qkey r : Z)
    (p : bt_n K) (pi : Z) (dwm : dwm_t K) : option (dwm_t K) :=
  match fuel with
  | O => None
  | S fuel' =>
      '(i, r) ← findkindex nbits (keys x) k r;
      if (0 <=? i) && (r =? 0) then
        ki ← keys x !! Z.to_nat i;
        Some (Dwm (Some ki) (dwm_miss dwm) x i p pi)
      else
        miss ← key_covers_miss x i qkey;
        let dwm := if (miss : bool) then Dwm (dwm_k dwm) true x i p pi else dwm in
        if leaf x then
          Some (Dwm None (dwm_miss dwm) (dwm_x dwm) (dwm_i dwm) (dwm_p dwm) (dwm_pi dwm))
        else
          c ← nodes x !! Z.to_nat (i + 1);
          findnodekey_loop fuel' c k qkey r x (i + 1) dwm
  end.

Definition findnodekey (btr : bt K) (k : K) (qkey : Z) : option (dwm_t K) :=
  let x := root btr in
  findnodekey_loop (S (height x)) x k qkey (-1) x 0 (Dwm None false x 0 x 0).

Definition bt_find (btr : bt K) (k : K) (qkey : Z) : option (option K) :=
  dwm ← findnodekey btr k qkey; Some (dwm_k dwm).

Definition bt_get_dr (btr : bt K) (k : K) (qkey : Z) : option Z :=
  dwm ← findnodekey btr k qkey;
  if dwm_i dwm <? 0 then None else getDR (ds (dwm_x dwm)) (Z.to_nat (dwm_i dwm)).

Fixpoint bt_exist_loop (fuel : nat) (x : bt_n K) (k : K) (qkey r : Z) : option bool :=
  match fuel with
  | O => None
  | S fuel' =>
      '(i, r) ← findkindex nbits (keys x) k r;
      if (0 <=? i) && (r =? 0) then Some true
      else
        miss ← key_covers_miss x i qkey;
        if (miss : bool) then Some true
        else if leaf x then Some false
        else c ← nodes x !! Z.to_nat (i + 1); bt_exist_loop fuel' c k qkey r
  end.

Definition bt_exist (btr : bt K) (k : K) (qkey : Z) : option bool :=
  bt_exist_loop (S (height (root btr))) (root btr) k qkey (-1).

(** [findnodekeyreplace]: the subtree with the key overwritten, and what a read
    of the returned key gives: the key that was there, or, when the key is the
    address of the slot, the one that has just been written.  The inner [None] is
    the NULL return. *)
Fixpoint findnodekeyreplace (fuel : nat) (x : bt_n K) (k val : K) (r : Z)
  : option (bt_n K * option K) :=
  match fuel with
  | O => None
  | S fuel' =>
      '(i, r) ← findkindex nbits (keys x) k r;
      if (0 <=? i) && (r =? 0) then
        b ← keys x !! Z.to_nat i;
        Some (setBTKeyRaw x (Z.to_nat i) val, Some (if by_address key_rep then val else b))
      else if leaf x then Some (x, None)
      else
        c ← nodes x !! Z.to_nat (i + 1);
        '(c', b) ← findnodekeyreplace fuel' c k val r;
        Some (set_nodes x (<[Z.to_nat (i + 1) := c']> (nodes x)), b)
  end.

(** What is read through the key returned, for the key that was there. *)
Definition replaced (val : K) (found : option K) : option K :=
  if by_address key_rep then option_map (fun _ => val) found else found.

Definition bt_replace (btr : bt K) (k val : K) : option (bt K * option K) :=
  '(x, b) ← findnodekeyreplace (S (height (root btr))) (root btr) k val (-1);
  Some (Bt x (numkeys btr) (dirty_left btr) (bdirty btr), b).

(** [bt_find_loc]: the location is the path of child slots and the slot. *)
Fixpoint find_loc_loop (fuel : nat) (x : bt_n K) (k : K) (r : Z)
  : option (option (list nat * nat)) :=
  match fuel with
  | O => None
  | S fuel' =>
      '(i, r) ← findkindex nbits (keys x) k r;
      if (0 <=? i) && (r =? 0) then Some (Some ([], Z.to_nat i))
      else if leaf x then Some None
      else
        c ← nodes x !! Z.to_nat (i + 1);
        l ← find_loc_loop fuel' c k r;
        Some (match l with
              | Some (p, j) => Some (Z.to_nat (i + 1) :: p, j)
              | None => None
              end)
  end.

Definition bt_find_loc (btr : bt K) (k : K) : option (option (list nat * nat)) :=
  find_loc_loop (S (height (root btr))) (root btr) k (-1).

(** The key stored at a location. *)
Fixpoint key_at (x : bt_n K) (p : list nat) (j : nat) : option K :=
  match p with
  | [] => keys x !! j
  | i :: p' => c ← nodes x !! i; key_at c p' j
  end.

Fixpoint findminnode (fuel : nat) (x : bt_n K) : option (bt_n K) :=
  match fuel with
  | O => None
  | S fuel' => if leaf x then Some x else c ← nodes x !! 0%nat; findminnode fuel' c
  end.

Fixpoint findminkey (fuel : nat) (x : bt_n K) : option K :=
  match fuel with
  | O => None
  | S fuel' =>
      if leaf x then keys x !! 0%nat else c ← nodes x !! 0%nat; findminkey fuel' c
  end.

Fixpoint findmaxkey (fuel : nat) (x : bt_n K) : option K :=
  match fuel with
  | O => None
  | S fuel' =>
      if leaf x then keys x !! (n_keys x - 1)%nat
      else c ← nodes x !! n_keys x; findmaxkey fuel' c
  end.

Definition bt_min (btr : bt K) : option (option K) :=
  if numkeys btr =? 0 then Some None
  else k ← findminkey (S (height (root btr))) (root btr); Some (Some k).

Definition bt_max (btr : bt K) : option (option K) :=
  if numkeys btr =? 0 then Some None
  else k ← findmaxkey (S (height (root btr))) (root btr); Some (Some k).

(** [add_to_cipos]: the position counter gains the rows left of slot [i]. *)
Definition add_to_cipos (x : bt_n K) (i : Z) (cipos : Z) : option Z :=
  if i =? -1 then Some cipos
  else
    c ← (if leaf x then Some cipos
         else foldl (fun acc j => a ← acc; xp ← nodes x !! j; Some (u32 (a + scion xp)))
                    (Some cipos) (seq 0 (Z.to_nat i + 1)));
    Some (u32 (c + (i + 1))).
End Queries.

(** ** Lemmas on [inorder] *)

Section Flat.
Context {K : Type}.
Implicit Types (ls : list (list K)) (ks : list K).

Lemma zipr_app (k1 k2 : list K) l1 l2 :
  length k1 = length l1 -> zipr (k1 ++ k2) (l1 ++ l2) = zipr k1 l1 ++ zipr k2 l2.
Proof. intros. unfold zipr. by rewrite zip_with_app, concat_app by done. Qed.

Lemma zipr_cons k ks (l : list K) ls : zipr (k :: ks) (l :: ls) = k :: l ++ zipr ks ls.
Proof. done. Qed.

Lemma zipl_cons (l : list K) ls k ks : zipl (l :: ls) (k :: ks) = l ++ k :: zipl ls ks.
Proof. unfold zipl. cbn. by rewrite <- app_assoc. Qed.

(** The keys around the child at position [length l1]. *)
Lemma flat_split (l1 : list (list K)) m l2 k1 k2 :
  length l1 = length k1 ->
  flat (l1 ++ m :: l2) (k1 ++ k2) = zipl l1 k1 ++ m ++ zipr k2 l2.
Proof.
  revert k1. induction l1 as [|a l1 IH]; intros [|k k1] Hl; try done.
  rewrite zipl_cons. simpl in Hl. specialize (IH k1 ltac:(lia)).
  rewrite <- app_assoc. cbn [app]. rewrite <- IH.
  cbn [app flat]. destruct l1 as [|b l1]; cbn [app flat]; by rewrite zipr_cons.
Qed.

(** The keys around the separator at position [length ks]. *)
Lemma flat_cut (l1 l2 : list (list K)) k1 k k2 :
  length l1 = S (length k1) -> l2 <> [] ->
  flat (l1 ++ l2) (k1 ++ k :: k2) = flat l1 k1 ++ k :: flat l2 k2.
Proof.
  intros Hl Hne. destruct l1 as [|a l1]; [done|]. simpl in Hl.
  destruct l2 as [|b l2]; [done|]. cbn [app flat].
  rewrite zipr_app by lia. rewrite zipr_cons. by rewrite <- app_assoc.
Qed.

Lemma length_zipr ks ls :
  length ks = length ls -> length (zipr ks ls) = (length ks + sum_list_with length ls)%nat.
Proof.
  revert ls. induction ks as [|k ks IH]; intros [|l ls] Hl; try done.
  simpl in Hl. rewrite zipr_cons. cbn. rewrite length_app, IH by lia. lia.
Qed.

Lemma length_flat ls ks :
  length ls = S (length ks) \/ ls = [] ->
  length (flat ls ks) = (length ks + sum_list_with length ls)%nat.
Proof.
  intros [Hl | ->]; [|cbn; lia]. destruct ls as [|l ls]; [done|]. simpl in Hl.
  cbn [flat]. rewrite length_app, length_zipr by lia. cbn. lia.
Qed.

Lemma zipl_last (l1 : list (list K)) k1 :
  length l1 = length k1 -> k1 <> [] ->
  exists l k, last k1 = Some k /\ zipl l1 k1 = l ++ [k].
Proof.
  revert k1. induction l1 as [|l l1 IH]; intros [|k k1] Hl Hne; try done.
  rewrite zipl_cons. simpl in Hl. destruct k1 as [|k' k1].
  - exists l, k. destruct l1; [|done]. done.
  - destruct (IH (k' :: k1)) as (l' & k'' & Hk & E); [lia|done|].
    exists (l ++ k :: l'), k''. split; [done|]. rewrite E. by rewrite <- app_assoc.
Qed.

Lemma elem_of_keys_flat ls ks k :
  (length ls = S (length ks) \/ ls = []) -> k ∈ ks -> k ∈ flat ls ks.
Proof.
  intros Hl Hin. apply list_elem_of_lookup in Hin as [i Hi].
  destruct (lookup_split ks i k Hi) as (k1 & k2 & -> & <-).
  destruct Hl as [Hl | ->]; [|cbn; set_solver].
  rewrite length_app in Hl. simpl in Hl.
  destruct (take_drop_split ls (S (length k1))) as (l1 & l2 & -> & Hl1); [lia|].
  rewrite flat_cut; [set_solver|done|]. intros ->.
  rewrite length_app in Hl. simpl in Hl. lia.
Qed.
End Flat.

(** ** Sorted lists of keys *)

Section SortedKeys.
Context {K : Type} `{KeyOrderLaws K}.

Lemma ksorted_app (l1 l2 : list K) :
  ksorted (l1 ++ l2) <->
  ksorted l1 /\ ksorted l2 /\ forall a b, a ∈ l1 -> b ∈ l2 -> klt a b.
Proof.
  induction l1 as [|x l1 IH]; simpl.
  - split; [intros Hs; split_and!; [constructor|done|set_solver]|tauto].
  - split.
    + intros Hs. apply Sorted.StronglySorted_inv in Hs as [Hs HF]. apply IH in Hs as (H1 & H2 & H3).
      apply Forall_app in HF as [F1 F2]. rewrite Forall_forall in F2.
      split_and!; [by constructor|done|]. intros a b Ha Hb.
      apply elem_of_cons in Ha as [->|Ha]; auto.
    + intros (Hs & H2 & H3). apply Sorted.StronglySorted_inv in Hs as [Hs HF]. constructor.
      * apply IH. split_and!; [done..|]. intros a b Ha Hb. apply H3; [by right|done].
      * apply Forall_app. split; [done|]. apply Forall_forall. intros b Hb.
        apply H3; [by left|done].
Qed.

Lemma ksorted_zipr (k2 : list K) l2 k :
  ksorted (zipr k2 l2) -> length k2 = length l2 -> Forall (fun a => cmp k a < 0) k2 ->
  Forall (fun a => cmp k a < 0) (zipr k2 l2).
Proof.
  intros Hs Hl HF. destruct k2 as [|a k2], l2 as [|l l2]; try done.
  rewrite zipr_cons in *. apply Sorted.StronglySorted_inv in Hs as [_ HF'].
  apply Forall_cons in HF as [Ha _]. constructor; [done|].
  eapply Forall_impl; [exact HF'|]. intros b Hb. unfold klt in Hb.
  apply (cmp_lt_le_trans k a b); lia.
Qed.

Lemma ksorted_zipl l1 (k1 : list K) k :
  ksorted (zipl l1 k1) -> length l1 = length k1 -> Forall (fun a => 0 <= cmp k a) k1 ->
  Forall (fun a => 0 <= cmp k a) (zipl l1 k1) /\
  ((forall a, last k1 = Some a -> cmp k a <> 0) -> Forall (fun a => 0 < cmp k a) (zipl l1 k1)).
Proof.
  intros Hs Hl HF. destruct k1 as [|k0 k1]; [destruct l1; done|].
  destruct (zipl_last l1 (k0 :: k1)) as (l & kl & Hk & E); [done..|].
  rewrite E in *. apply ksorted_app in Hs as (_ & _ & Hs).
  assert (Hkl : 0 <= cmp k kl).
  { rewrite Forall_forall in HF. apply HF. by apply last_Some_elem_of. }
  assert (Hlt : forall a, a ∈ l -> 0 < cmp k a).
  { intros a Ha. assert (Hak : klt a kl) by (apply Hs; set_solver). unfold klt in Hak.
    apply cmp_antisym. apply (cmp_lt_le_trans a kl k); [done|]. by apply cmp_le_ge. }
  split.
  - apply Forall_app. split; [|by apply Forall_singleton].
    apply Forall_forall. intros a Ha. specialize (Hlt a Ha). lia.
  - intros Hne. specialize (Hne kl Hk). apply Forall_app. split.
    + by apply Forall_forall.
    + apply Forall_singleton. lia.
Qed.
End SortedKeys.

(** ** The reference: sorted lists of keys *)

Section Reference.
Context {K : Type} `{KeyOrder K}.

Fixpoint assoc (k : K) (l : list K) : option K :=
  match l with
  | [] => None
  | a :: l' => if cmp k a =? 0 then Some a else assoc k l'
  end.

Fixpoint ins (k : K) (l : list K) : list K :=
  match l with
  | [] => [k]
  | a :: l' => if cmp k a <? 0 then k :: a :: l' else a :: ins k l'
  end.

Fixpoint del (k : K) (l : list K) : list K :=
  match l with
  | [] => []
  | a :: l' => if cmp k a =? 0 then l' else a :: del k l'
  end.

Fixpoint repl (k val : K) (l : list K) : list K :=
  match l with
  | [] => []
  | a :: l' => if cmp k a =? 0 then val :: l' else a :: repl k val l'
  end.

Definition differs (k : K) (l : list K) : Prop := Forall (fun a => cmp k a <> 0) l.
End Reference.

Section ReferenceFacts.
Context {K : Type} `{KeyOrderLaws K}.
Implicit Types (k a val : K).

Lemma assoc_app k (l1 l2 : list K) : differs k l1 -> assoc k (l1 ++ l2) = assoc k l2.
Proof. induction 1 as [|a l Ha _ IH]; cbn; [done|]. by rewrite (proj2 (Z.eqb_neq _ _) Ha). Qed.

Lemma assoc_app_l k (l1 l2 : list K) : differs k l2 -> assoc k (l1 ++ l2) = assoc k l1.
Proof.
  intros Hd. induction l1 as [|a l1 IH]; cbn; [|by rewrite IH].
  rewrite <- (app_nil_r l2). by rewrite assoc_app.
Qed.

Lemma assoc_differs k (l : list K) : assoc k l = None <-> differs k l.
Proof.
  induction l as [|a l IH]; cbn; [split; [constructor|done]|].
  destruct (Z.eqb_spec (cmp k a) 0) as [E|E].
  - split; [done|]. intros Hd. by apply Forall_cons in Hd as [? _].
  - rewrite IH. split; [by constructor|]. intros Hd. by apply Forall_cons in Hd as [_ ?].
Qed.

Lemma assoc_Some k (l : list K) a : assoc k l = Some a -> a ∈ l /\ cmp k a = 0.
Proof.
  induction l as [|b l IH]; cbn; [done|].
  destruct (Z.eqb_spec (cmp k b) 0) as [E|E].
  - intros [= ->]. split; [by left|done].
  - intros Ha. destruct (IH Ha). split; [by right|done].
Qed.

Lemma eq_lt_differs k a b : cmp k a = 0 -> cmp a b < 0 -> cmp k b <> 0.
Proof. intros E Hlt. pose proof (cmp_le_lt_trans k a b). lia. Qed.

Lemma eq_gt_differs k a b : cmp k a = 0 -> cmp b a < 0 -> cmp k b <> 0.
Proof.
  intros E Hlt. pose proof (cmp_eq_sym k a E). pose proof (cmp_lt_le_trans b a k).
  pose proof (cmp_antisym b k). lia.
Qed.

(** In a sorted list the keys around the one equal to [k] differ from it. *)
Lemma sorted_around (l1 l2 : list K) k a :
  ksorted (l1 ++ a :: l2) -> cmp k a = 0 -> differs k l1 /\ differs k l2.
Proof.
  intros Hs E. apply ksorted_app in Hs as (_ & Hs & H1).
  apply Sorted.StronglySorted_inv in Hs as [_ HF]. split; apply Forall_forall; intros b Hb.
  - apply (eq_gt_differs k a b); [done|]. apply H1; [done|by left].
  - rewrite Forall_forall in HF. apply (eq_lt_differs k a b); [done|]. by apply HF.
Qed.

Lemma assoc_unique (l : list K) k a :
  ksorted l -> a ∈ l -> cmp k a = 0 -> assoc k l = Some a.
Proof.
  intros Hs Hin E. apply list_elem_of_split in Hin as (l1 & l2 & ->).
  destruct (sorted_around l1 l2 k a Hs E) as [H1 _].
  rewrite assoc_app by done. cbn. by rewrite E.
Qed.

Lemma differs_lt k (l : list K) : Forall (fun a => cmp k a < 0) l -> differs k l.
Proof. intros HF. eapply Forall_impl; [exact HF|]. intros a Ha. cbn in Ha. lia. Qed.
Lemma differs_gt k (l : list K) : Forall (fun a => 0 < cmp k a) l -> differs k l.
Proof. intros HF. eapply Forall_impl; [exact HF|]. intros a Ha. cbn in Ha. lia. Qed.

Lemma ins_app k (l1 l2 : list K) :
  Forall (fun a => 0 <= cmp k a) l1 -> ins k (l1 ++ l2) = l1 ++ ins k l2.
Proof.
  induction 1 as [|a l Ha _ IH]; cbn; [done|].
  destruct (Z.ltb_spec (cmp k a) 0); [lia|]. by rewrite IH.
Qed.

Lemma ins_app_l k (l1 l2 : list K) :
  Forall (fun a => cmp k a < 0) l2 -> ins k (l1 ++ l2) = ins k l1 ++ l2.
Proof.
  intros HF. induction l1 as [|a l1 IH]; cbn.
  - destruct HF as [|b l2 Hb _]; [done|]. cbn. by destruct (Z.ltb_spec (cmp k b) 0); [|lia].
  - destruct (cmp k a <? 0); [done|]. by rewrite IH.
Qed.

Lemma length_ins k (l : list K) : length (ins k l) = S (length l).
Proof. induction l; cbn; [done|]. case_match; cbn; by rewrite ?IHl. Qed.

Lemma elem_of_ins k (l : list K) b : b ∈ ins k l <-> b = k \/ b ∈ l.
Proof.
  induction l as [|a l IH]; cbn; [set_solver|].
  case_match; rewrite !elem_of_cons; [done|]. rewrite IH. tauto.
Qed.

Lemma ins_sorted k (l : list K) : ksorted l -> differs k l -> ksorted (ins k l).
Proof.
  intros Hs. induction Hs as [|a l Hs IH HF]; intros Hd; cbn; [by repeat constructor|].
  apply Forall_cons in Hd as [Ha Hd].
  destruct (Z.ltb_spec (cmp k a) 0) as [Hlt|Hge].
  - constructor; [by constructor|]. constructor; [done|].
    eapply Forall_impl; [exact HF|]. intros b Hb. unfold klt in *.
    apply (cmp_lt_le_trans k a b); lia.
  - constructor; [by apply IH|]. apply Forall_forall. intros b Hb.
    apply elem_of_ins in Hb as [->|Hb].
    + unfold klt. apply cmp_antisym. lia.
    + rewrite Forall_forall in HF. by apply HF.
Qed.

Lemma del_app k (l1 l2 : list K) : differs k l1 -> del k (l1 ++ l2) = l1 ++ del k l2.
Proof.
  induction 1 as [|a l Ha _ IH]; cbn; [done|].
  destruct (Z.eqb_spec (cmp k a) 0); [done|]. by rewrite IH.
Qed.

Lemma del_app_l k (l1 l2 : list K) a :
  assoc k l1 = Some a -> del k (l1 ++ l2) = del k l1 ++ l2.
Proof.
  induction l1 as [|b l1 IH]; cbn; [done|].
  destruct (cmp k b =? 0); [done|]. intros Ha. by rewrite IH.
Qed.

Lemma del_mid k (l1 l2 : list K) a :
  differs k l1 -> cmp k a = 0 -> del k (l1 ++ a :: l2) = l1 ++ l2.
Proof. intros Hd E. rewrite del_app by done. cbn. by rewrite E. Qed.

Lemma del_split k (l : list K) a :
  assoc k l = Some a -> exists l1 l2, l = l1 ++ a :: l2 /\ del k l = l1 ++ l2.
Proof.
  induction l as [|b l IH]; cbn; [done|].
  destruct (Z.eqb_spec (cmp k b) 0).
  - intros [= ->]. by exists [], l.
  - intros Ha. destruct (IH Ha) as (l1 & l2 & -> & ->). by exists (b :: l1), l2.
Qed.

Lemma ksorted_del_mid (l1 l2 : list K) a : ksorted (l1 ++ a :: l2) -> ksorted (l1 ++ l2).
Proof.
  intros Hs. apply ksorted_app in Hs as (H1 & H2 & H3).
  apply Sorted.StronglySorted_inv in H2 as [H2 _].
  apply ksorted_app. split_and!; [done..|]. intros x y Hx Hy. apply H3; [done|by right].
Qed.

Lemma repl_app k val (l1 l2 : list K) :
  differs k l1 -> repl k val (l1 ++ l2) = l1 ++ repl k val l2.
Proof.
  induction 1 as [|a l Ha _ IH]; cbn; [done|].
  destruct (Z.eqb_spec (cmp k a) 0); [done|]. by rewrite IH.
Qed.

Lemma repl_app_l k val (l1 l2 : list K) :
  differs k l2 -> repl k val (l1 ++ l2) = repl k val l1 ++ l2.
Proof.
  intros Hd. induction l1 as [|b l1 IH]; cbn.
  - rewrite <- (app_nil_r l2) at 1. rewrite repl_app by done. apply app_nil_r.
  - destruct (cmp k b =? 0); [done|]. by rewrite IH.
Qed.
End ReferenceFacts.

(** ** Well-formed trees *)

Section WellFormed.
Context {K : Type} (t : nat).

(** A node of height [h] with at least [lo] keys: occupancy, uniform depth,
    no evicted rows, and [scion] counting the keys below. *)
Fixpoint wf (lo h : nat) (x : bt_n K) : Prop :=
  (lo <= n_keys x <= 2 * t - 1)%nat /\ clean (ds x) /\
  scion x = u32 (Z.of_nat (length (inorder x))) /\
  match h with
  | O => leaf x = true /\ nodes x = []
  | S h' => leaf x = false /\ length (nodes x) = S (n_keys x) /\
            Forall (wf (t - 1) h') (nodes x)
  end.

Lemma wf_unfold lo h x : wf lo h x <->
  (lo <= n_keys x <= 2 * t - 1)%nat /\ clean (ds x) /\
  scion x = u32 (Z.of_nat (length (inorder x))) /\
  match h with
  | O => leaf x = true /\ nodes x = []
  | S h' => leaf x = false /\ length (nodes x) = S (n_keys x) /\
            Forall (wf (t - 1) h') (nodes x)
  end.
Proof. by destruct h. Qed.

Lemma wf_keys lo h x : wf lo h x -> (lo <= n_keys x <= 2 * t - 1)%nat.
Proof. rewrite wf_unfold. tauto. Qed.
Lemma wf_clean lo h x : wf lo h x -> clean (ds x).
Proof. rewrite wf_unfold. tauto. Qed.
Lemma wf_scion lo h x : wf lo h x -> scion x = u32 (Z.of_nat (length (inorder x))).
Proof. rewrite wf_unfold. tauto. Qed.
Lemma wf_leaf lo h x : wf lo h x -> leaf x = match h with O => true | S _ => false end.
Proof. rewrite wf_unfold. destruct h; tauto. Qed.

Lemma wf_shape lo h x :
  wf lo h x -> length (map inorder (nodes x)) = S (length (keys x)) \/
               map inorder (nodes x) = [].
Proof.
  rewrite wf_unfold. intros (_ & _ & _ & Hh). rewrite length_map.
  destruct h; [right; by destruct Hh as [_ ->]|left; tauto].
Qed.

Lemma wf_height lo h x : wf lo h x -> height x = h.
Proof.
  revert lo x. induction h as [|h IH]; intros lo [l s d ks ns];
    rewrite wf_unfold; intros (_ & _ & _ & Hh); cbn in Hh.
  - destruct Hh as [_ ->]. done.
  - destruct Hh as (_ & Hl & HF). destruct ns as [|c ns]; [done|].
    apply Forall_cons in HF as [Hc _]. cbn [height]. f_equal. by apply (IH (t - 1)%nat).
Qed.

Lemma wf_weaken lo lo' h x : wf lo h x -> (lo' <= n_keys x)%nat -> wf lo' h x.
Proof. rewrite !wf_unfold. intuition lia. Qed.

Lemma inorder_Node (l : bool) s d (ks : list K) ns :
  inorder (Node l s d ks ns) = flat (map inorder ns) ks.
Proof. done. Qed.

Lemma inorder_flat (x : bt_n K) : inorder x = flat (map inorder (nodes x)) (keys x).
Proof. by destruct x. Qed.
End WellFormed.

#[export] Hint Resolve wf_clean : adb.

(** Reduce the accessors and updates of explicit nodes. *)
Ltac nsimpl :=
  cbn [set_nodes set_keys set_ds incr_scion decr_scion n_keys keys ds scion leaf nodes] in *;
  unfold n_keys in *;
  cbn [set_nodes set_keys set_ds incr_scion decr_scion keys ds scion leaf nodes] in *.

Section Locate.
Context {K : Type} `{KeyOrderLaws K} (t : nat).

Lemma zipr_keys_sorted : forall (ks : list K) ls, length ks = length ls ->
  ksorted (zipr ks ls) -> ksorted ks.
Proof.
  induction ks as [|k ks IH]; intros [|l ls] Hl Hs; try done.
  simpl in Hl. rewrite zipr_cons in Hs. apply Sorted.StronglySorted_inv in Hs as [Hs HF].
  apply ksorted_app in Hs as (_ & Hs & _). apply Forall_app in HF as [_ HF].
  constructor; [eapply IH; [|done]; lia|].
  apply Forall_forall. intros a Ha. rewrite Forall_forall in HF. apply HF.
  apply (elem_of_keys_flat ([] :: ls) ks); [left; simpl; lia|done].
Qed.

Lemma keys_sorted lo h (x : bt_n K) : wf t lo h x -> ksorted (inorder x) -> ksorted (keys x).
Proof.
  intros Hx Hs. pose proof (wf_shape t lo h x Hx) as Hsh. rewrite inorder_flat in Hs.
  destruct (map inorder (nodes x)) as [|l ls]; [done|]. destruct Hsh as [Hsh|]; [|done].
  cbn in Hs. apply ksorted_app in Hs as (_ & Hs & _).
  eapply zipr_keys_sorted; [|done]. simpl in Hsh. lia.
Qed.

(** The child the search descends to, and the keys on both sides of it. *)
Lemma locate lo h (x : bt_n K) k :
  wf t lo (S h) x -> ksorted (inorder x) ->
  exists n1 c n2 k1 k2,
    nodes x = n1 ++ c :: n2 /\ keys x = k1 ++ k2 /\
    length n1 = rank k (keys x) /\ length k1 = length n1 /\ length k2 = length n2 /\
    inorder x = zipl (map inorder n1) k1 ++ inorder c ++ zipr k2 (map inorder n2) /\
    wf t (t - 1) h c /\ ksorted (inorder c) /\
    Forall (fun a => 0 <= cmp k a) (zipl (map inorder n1) k1) /\
    Forall (fun a => cmp k a < 0) (zipr k2 (map inorder n2)) /\
    (differs k (keys x) -> Forall (fun a => 0 < cmp k a) (zipl (map inorder n1) k1)).
Proof.
  intros Hx Hs. pose proof (keys_sorted lo _ x Hx Hs) as Hks.
  apply wf_unfold in Hx as (_ & _ & _ & _ & Hl & HF). unfold n_keys in Hl.
  destruct (rank_split k (keys x) Hks) as (k1 & k2 & Ek & Hk1 & F1 & F2).
  destruct (lookup_lt_is_Some_2 (nodes x) (length k1)) as [c Hc].
  { rewrite Hl, Ek, length_app. lia. }
  destruct (lookup_split _ _ _ Hc) as (n1 & n2 & En & Hn1).
  exists n1, c, n2, k1, k2.
  assert (Hin : inorder x = zipl (map inorder n1) k1 ++ inorder c ++ zipr k2 (map inorder n2)).
  { rewrite inorder_flat, En, Ek, map_app. cbn [map]. apply flat_split.
    by rewrite length_map. }
  assert (Hk2 : length k2 = length n2).
  { rewrite En, Ek, !length_app in Hl. simpl in Hl. lia. }
  rewrite Hin in Hs. pose proof Hs as Hs'.
  apply ksorted_app in Hs as (Hs1 & Hs2 & _). apply ksorted_app in Hs2 as (Hs2 & Hs3 & _).
  rewrite En in HF. apply Forall_app in HF as [_ HF]. apply Forall_cons in HF as [Hwc _].
  destruct (ksorted_zipl (map inorder n1) k1 k Hs1) as [G1 G2]; [by rewrite length_map|done|].
  split_and!; try done; [lia| |].
  - apply ksorted_zipr; [done|by rewrite length_map|done].
  - intros Hd. apply G2. intros a Ha. rewrite Ek in Hd. apply Forall_app in Hd as [Hd _].
    unfold differs in Hd. rewrite Forall_forall in Hd. apply Hd. by apply last_Some_elem_of.
Qed.

(** The descent of a search that did not find its key in the node. *)
Lemma find_descend lo h (x : bt_n K) k :
  wf t lo (S h) x -> ksorted (inorder x) -> differs k (keys x) ->
  exists n1 c n2 k1 k2,
    nodes x = n1 ++ c :: n2 /\ length n1 = rank k (keys x) /\
    keys x = k1 ++ k2 /\ length k1 = length n1 /\
    nodes x !! rank k (keys x) = Some c /\
    wf t (t - 1) h c /\ ksorted (inorder c) /\
    inorder x = zipl (map inorder n1) k1 ++ inorder c ++ zipr k2 (map inorder n2) /\
    differs k (zipl (map inorder n1) k1) /\ differs k (zipr k2 (map inorder n2)).
Proof.
  intros Hx Hs Hd. destruct (locate lo h x k Hx Hs)
    as (n1 & c & n2 & k1 & k2 & En & Ek & Hn1 & Hk1 & Hk2 & Hin & Hwc & Hsc & _ & F2 & F1).
  exists n1, c, n2, k1, k2. split_and!; try done.
  - rewrite En, <- Hn1. by apply list_lookup_middle.
  - by apply differs_gt, F1.
  - by apply differs_lt.
Qed.
End Locate.

Section FindStep.
Context {K : Type} `{KeyOrderLaws K} (t : nat) (nbits : Z).
Context (Hw : log_width nbits) (Hcap : Z.of_nat (2 * t - 1) <= 2 ^ nbits).

(** One search inside a node: it finds the key equal to [k], or none of the
    node's keys equals it and the index is that of the child to visit. *)
Lemma find_step lo h (x : bt_n K) k r0 :
  wf t lo h x -> ksorted (inorder x) -> r0 <> 0 ->
  exists i r, findkindex nbits (keys x) k r0 = Some (i, r) /\
    i = Z.of_nat (rank k (keys x)) - 1 /\
    ((0 <=? i) && (r =? 0) = true /\ r = 0 /\
       (exists a k1 k2, keys x = k1 ++ a :: k2 /\ Z.to_nat i = length k1 /\
        i = Z.of_nat (length k1) /\ cmp k a = 0)
     \/ (0 <=? i) && (r =? 0) = false /\ r <> 0 /\ differs k (keys x)).
Proof.
  intros Hx Hs Hr0. pose proof (keys_sorted t lo h x Hx Hs) as Hks.
  pose proof (wf_keys t lo h x Hx) as Hn. unfold n_keys in Hn.
  destruct (findkindex_spec nbits (keys x) k Hw ltac:(lia) Hks r0)
    as (r & -> & Hr1 & Hr2 & Hr3).
  exists (Z.of_nat (rank k (keys x)) - 1), r. split; [done|]. split; [done|].
  pose proof (rank_le k (keys x)) as Hle.
  destruct (decide (keys x = [])) as [E|Hne].
  { right. rewrite E in *. cbn. rewrite Hr3 by done. split_and!; [done..|constructor]. }
  destruct (decide (rank k (keys x) = 0%nat)) as [Er|Er].
  { right. specialize (Hr2 Hne Er). rewrite Er. cbn. split_and!; [done|lia|].
    apply differs_lt. apply Forall_lookup. intros j a Hj.
    eapply rank_above; [done..|lia]. }
  destruct (lookup_lt_is_Some_2 (keys x) (rank k (keys x) - 1)) as [a Ha]; [lia|].
  specialize (Hr1 a Ha ltac:(lia)).
  destruct (lookup_split _ _ _ Ha) as (k1 & k2 & E & Hl).
  destruct (Z.leb_spec 0 (Z.of_nat (rank k (keys x)) - 1)); [|lia]. cbn [andb].
  destruct (Z.eqb_spec r 0) as [Ez|Ez].
  - left. split_and!; [done..|]. exists a, k1, k2. split_and!; [done|lia|lia|lia].
  - right. split_and!; [done..|]. apply Forall_lookup. intros j b Hj.
    destruct (Nat.lt_total j (rank k (keys x) - 1)) as [Hlt|[->|Hgt]].
    + pose proof (ksorted_lookup (keys x) j _ b a Hks Hj Ha Hlt).
      pose proof (rank_below k (keys x) _ a Ha ltac:(lia)) as Hka.
      apply cmp_le_ge in Hka. pose proof (cmp_lt_le_trans b a k).
      pose proof (cmp_antisym b k). lia.
    + simplify_eq. lia.
    + pose proof (rank_above k (keys x) j b Hks Hj ltac:(lia)). lia.
Qed.
End FindStep.

(** A well-formed tree: the root may have fewer keys than the other nodes, but
    an internal root has one. *)
Definition bt_wf {K} `{KeyOrder K} (t : nat) (btr : bt K) : Prop :=
  (exists h, wf t (if (h =? 0)%nat then 0 else 1) h (root btr)) /\
  ksorted (inorder (root btr)) /\
  numkeys btr = u32 (Z.of_nat (length (inorder (root btr)))).

(** The parameters of a tree: [2t - 1] keys fit the width of the search. *)
Record bt_params (t : nat) (nbits : Z) : Prop := {
  params_t : (2 <= t)%nat;
  params_width : log_width nbits;
  params_cap : Z.of_nat (2 * t - 1) <= 2 ^ nbits;
}.

Section QueryFacts.
Context {K : Type} `{KeyOrderLaws K} `{KeyOps K} (t : nat) (nbits : Z).
Context (Hp : bt_params t nbits).

#[local] Definition Hpw := params_width t nbits Hp.
#[local] Definition Hpc := params_cap t nbits Hp.

Lemma covers_miss_clean (x : bt_n K) i q : clean (ds x) -> key_covers_miss x i q = Some false.
Proof.
  intros Hc. unfold key_covers_miss. destruct key_is_num; [|done]. cbn [negb].
  rewrite getDR_clean by done. cbn [mbind option_bind]. f_equal.
  by rewrite andb_false_r.
Qed.

(** A key found in the node is the tree's own. *)
Lemma found_assoc lo h (x : bt_n K) k a k1 k2 :
  wf t lo h x -> ksorted (inorder x) -> keys x = k1 ++ a :: k2 -> cmp k a = 0 ->
  assoc k (inorder x) = Some a.
Proof.
  intros Hx Hs E Ha. apply assoc_unique; [done| |done]. rewrite inorder_flat.
  apply elem_of_keys_flat; [by eapply wf_shape|]. rewrite E. set_solver.
Qed.

(** The same case analysis drives every search loop: the key is in the node,
    or in no key of a leaf, or in the child [c]. *)
Ltac search_node lo h x k r Hx Hs Hr :=
  destruct (find_step t nbits Hpw Hpc lo h x k r Hx Hs Hr)
    as (i & r' & Ef & Ei & [(Eb & Er & a & k1 & k2 & Ek & Eti & Eil & Ha)|(Eb & Er & Hd)]);
  rewrite Ef; cbn [mbind option_bind]; rewrite Eb; clear Ef Eb.

Ltac descend lo h x k Hx Hs Hd Ei :=
  destruct (find_descend t lo h x k Hx Hs Hd)
    as (n1 & c & n2 & k1 & k2 & En & Hn1 & Ek & Hk1 & Hc & Hwc & Hsc & Hin & D1 & D2);
  replace (Z.to_nat (_ + 1)) with (rank k (keys x)) by (rewrite Ei; lia);
  rewrite Hc; cbn [mbind option_bind].

Lemma leaf_assoc lo (x : bt_n K) k : wf t lo 0 x -> differs k (keys x) -> assoc k (inorder x) = None.
Proof.
  intros Hx Hd. apply wf_unfold in Hx as (_ & _ & _ & _ & E).
  rewrite inorder_flat, E. by apply assoc_differs.
Qed.

Lemma findnodekey_spec k q : forall fuel lo h (x : bt_n K) r p pi dwm,
  wf t lo h x -> ksorted (inorder x) -> r <> 0 -> (h < fuel)%nat ->
  exists dwm', findnodekey_loop nbits fuel x k q r p pi dwm = Some dwm' /\
    dwm_k dwm' = assoc k (inorder x) /\ dwm_miss dwm' = dwm_miss dwm /\
    (dwm_k dwm' <> None -> clean (ds (dwm_x dwm')) /\ 0 <= dwm_i dwm').
Proof.
  induction fuel as [|fuel IH]; intros lo h x r p pi dwm Hx Hs Hr Hf; [lia|].
  cbn [findnodekey_loop]. search_node lo h x k r Hx Hs Hr.
  - rewrite Eti, Ek, list_lookup_middle by done. cbn [mbind option_bind].
    eexists. split_and!; [done| |done|cbn; split; [by eapply wf_clean|lia]]. symmetry. by eapply found_assoc.
  - rewrite covers_miss_clean by eauto with adb. cbn [mbind option_bind].
    rewrite (wf_leaf t lo h x Hx). destruct h as [|h].
    + eexists. split_and!; [done| |done|done]. symmetry. by eapply leaf_assoc.
    + descend lo h x k Hx Hs Hd Ei.
      destruct (IH (t - 1)%nat h c r' x (i + 1) dwm) as (dwm' & -> & E1 & E2 & E3); try done; [lia|].
      exists dwm'. split_and!; [done| |done|done].
      by rewrite E1, Hin, assoc_app, assoc_app_l.
Qed.

Lemma bt_exist_spec k q : forall fuel lo h (x : bt_n K) r,
  wf t lo h x -> ksorted (inorder x) -> r <> 0 -> (h < fuel)%nat ->
  bt_exist_loop nbits fuel x k q r = Some (bool_decide (is_Some (assoc k (inorder x)))).
Proof.
  induction fuel as [|fuel IH]; intros lo h x r Hx Hs Hr Hf; [lia|].
  cbn [bt_exist_loop]. search_node lo h x k r Hx Hs Hr.
  - by erewrite found_assoc by done.
  - rewrite covers_miss_clean by eauto with adb. cbn [mbind option_bind].
    rewrite (wf_leaf t lo h x Hx). destruct h as [|h].
    + by erewrite leaf_assoc by done.
    + descend lo h x k Hx Hs Hd Ei.
      rewrite (IH (t - 1)%nat h) by (done || lia).
      by rewrite Hin, assoc_app, assoc_app_l.
Qed.

Lemma find_loc_spec k : forall fuel lo h (x : bt_n K) r,
  wf t lo h x -> ksorted (inorder x) -> r <> 0 -> (h < fuel)%nat ->
  exists loc, find_loc_loop nbits fuel x k r = Some loc /\
    (p ← loc; key_at x p.1 p.2) = assoc k (inorder x) /\
    (loc = None -> assoc k (inorder x) = None).
Proof.
  induction fuel as [|fuel IH]; intros lo h x r Hx Hs Hr Hf; [lia|].
  cbn [find_loc_loop]. search_node lo h x k r Hx Hs Hr.
  - eexists. split; [done|]. cbn [mbind option_bind fst snd key_at].
    erewrite found_assoc by done. split; [|done].
    by rewrite Eti, Ek, list_lookup_middle.
  - rewrite (wf_leaf t lo h x Hx). destruct h as [|h].
    + eexists. split; [done|]. by erewrite leaf_assoc by done.
    + descend lo h x k Hx Hs Hd Ei.
      destruct (IH (t - 1)%nat h c r') as (loc & -> & E1 & E2); try done; [lia|].
      cbn [mbind option_bind]. rewrite Hin, assoc_app, assoc_app_l by done.
      eexists. split; [done|]. destruct loc as [[p j]|]; [|auto].
      cbn [mbind option_bind fst snd key_at]. rewrite Hc.
      by split.
Qed.

(** Overwriting one key of a node. *)
Lemma inorder_set_key lo h (x : bt_n K) k1 a k2 b :
  wf t lo h x -> keys x = k1 ++ a :: k2 ->
  exists p q, inorder x = p ++ a :: q /\ inorder (set_keys x (k1 ++ b :: k2)) = p ++ b :: q.
Proof.
  intros Hx Ek. pose proof (wf_shape t lo h x Hx) as Hsh.
  destruct x as [l s d ks ns]. cbn in Ek, Hsh. subst ks. cbn [set_keys]. rewrite !inorder_Node.
  destruct Hsh as [Hsh | ->]; [|by exists k1, k2].
  rewrite length_app in Hsh. simpl in Hsh.
  destruct (take_drop_split (map inorder ns) (S (length k1))) as (l1 & l2 & E & Hl); [lia|].
  rewrite E in *. assert (l2 <> []) by (intros ->; rewrite length_app in Hsh; simpl in Hsh; lia).
  exists (flat l1 k1), (flat l2 k2). by rewrite !flat_cut.
Qed.

(** Replacing a child by one with as many keys keeps the node well formed. *)
Lemma wf_set_child lo h (x : bt_n K) n1 c n2 c' :
  wf t lo (S h) x -> nodes x = n1 ++ c :: n2 -> wf t (t - 1) h c' ->
  length (inorder c') = length (inorder c) ->
  wf t lo (S h) (set_nodes x (n1 ++ c' :: n2)).
Proof.
  intros Hx En Hc' Hlen. pose proof (wf_shape t lo _ x Hx) as Hsh.
  destruct x as [l s d ks ns]. apply wf_unfold in Hx as (Hn & Hcl & Hsc & Hl & Hln & HF).
  nsimpl. subst ns. apply wf_unfold. nsimpl.
  split_and!; try done; [lia..| | |].
  - rewrite Hsc. do 2 f_equal. rewrite !inorder_Node, !length_flat; try done.
    + rewrite !map_app, !sum_list_with_app. cbn. lia.
    + left. rewrite length_map, length_app in *. simpl in *. lia.
  - rewrite length_app in *. done.
  - apply Forall_app in HF as [F1 F2]. apply Forall_cons in F2 as [_ F2].
    apply Forall_app. split; [done|]. by constructor.
Qed.

Lemma length_repl k val (l : list K) : length (repl k val l) = length l.
Proof. induction l as [|a l IH]; cbn; [done|]. case_match; cbn; by rewrite ?IH. Qed.

Lemma replace_spec k val : forall fuel lo h (x : bt_n K) r,
  wf t lo h x -> ksorted (inorder x) -> r <> 0 -> (h < fuel)%nat ->
  exists x', findnodekeyreplace nbits fuel x k val r =
      Some (x', replaced val (assoc k (inorder x))) /\
    wf t lo h x' /\ inorder x' = repl k val (inorder x).
Proof.
  induction fuel as [|fuel IH]; intros lo h x r Hx Hs Hr Hf; [lia|].
  cbn [findnodekeyreplace]. search_node lo h x k r Hx Hs Hr.
  - rewrite Eti, Ek, list_lookup_middle by done. cbn [mbind option_bind].
    erewrite found_assoc by done. eexists.
    split; [unfold replaced; by destruct (by_address key_rep)|]. unfold setBTKeyRaw.
    rewrite Ek, insert_app_mid by done.
    destruct (inorder_set_key lo h x k1 a k2 val Hx Ek) as (p & q & E1 & E2).
    rewrite E2, E1. rewrite E1 in Hs. split.
    + destruct x as [l s d ks ns]. cbn in Ek. subst ks. cbn [set_keys] in *.
      apply wf_unfold in Hx. apply wf_unfold.
      nsimpl. rewrite E2. rewrite E1 in Hx.
      rewrite !length_app in *. cbn [length] in *. done.
    + destruct (sorted_around p q k a Hs Ha) as [D1 _].
      rewrite repl_app by done. cbn. by rewrite Ha.
  - rewrite (wf_leaf t lo h x Hx). destruct h as [|h].
    + eexists. erewrite leaf_assoc by done.
      split_and!; [unfold replaced; by destruct (by_address key_rep)|done|].
      apply wf_unfold in Hx as (_ & _ & _ & _ & E). rewrite inorder_flat, E. cbn.
      rewrite <- (app_nil_r (keys x)) at 2. rewrite repl_app by done.
      cbn. by rewrite app_nil_r.
    + descend lo h x k Hx Hs Hd Ei.
      destruct (IH (t - 1)%nat h c r') as (c' & -> & Hc' & Ein); try done; [lia|].
      cbn [mbind option_bind]. rewrite Hin, assoc_app, assoc_app_l by done.
      eexists. split; [done|]. rewrite <- Hn1, En, insert_app_mid by done. split.
      * apply wf_set_child with (c := c); try done. by rewrite Ein, length_repl.
      * rewrite repl_app, repl_app_l by done. destruct x as [l s d ks ns].
        cbn in Ek, En. subst ks ns. cbn [set_nodes]. rewrite inorder_Node, map_app.
        cbn [map]. rewrite flat_split by (by rewrite length_map). by rewrite Ein.
Qed.

Lemma inorder_nonempty lo h (x : bt_n K) : (0 < lo)%nat -> wf t lo h x -> inorder x <> [].
Proof.
  intros Hlo Hx E. pose proof (wf_keys t lo h x Hx) as Hn.
  pose proof (wf_shape t lo h x Hx) as Hsh. rewrite inorder_flat in E.
  apply (f_equal length) in E. rewrite length_flat in E by done. unfold n_keys in Hn.
  simpl in E. lia.
Qed.

Lemma findmin_spec : forall fuel lo h (x : bt_n K),
  wf t lo h x -> (h < fuel)%nat -> findminkey fuel x = head (inorder x).
Proof.
  pose proof (params_t t nbits Hp) as Ht.
  induction fuel as [|fuel IH]; intros lo h x Hx Hf; [lia|]. cbn [findminkey].
  rewrite (wf_leaf t lo h x Hx). apply wf_unfold in Hx as (_ & _ & _ & Hh).
  rewrite inorder_flat. destruct h as [|h].
  - destruct Hh as [_ ->]. cbn. by destruct (keys x).
  - destruct Hh as (_ & Hl & HF). destruct (nodes x) as [|c ns]; [done|].
    apply Forall_cons in HF as [Hc _]. cbn [lookup list_lookup mbind option_bind map flat].
    rewrite (IH (t - 1)%nat h) by (done || lia).
    pose proof (inorder_nonempty (t - 1) h c ltac:(lia) Hc).
    by destruct (inorder c).
Qed.

Lemma findmax_spec : forall fuel lo h (x : bt_n K),
  wf t lo h x -> (h < fuel)%nat -> findmaxkey fuel x = last (inorder x).
Proof.
  pose proof (params_t t nbits Hp) as Ht.
  induction fuel as [|fuel IH]; intros lo h x Hx Hf; [lia|]. cbn [findmaxkey].
  rewrite (wf_leaf t lo h x Hx). apply wf_unfold in Hx as (_ & _ & _ & Hh).
  rewrite inorder_flat. destruct h as [|h].
  - destruct Hh as [_ ->]. cbn. by rewrite last_lookup, Nat.sub_1_r.
  - destruct Hh as (_ & Hl & HF). unfold n_keys in *.
    destruct (nodes x) as [|c ns _] using rev_ind; [done|].
    rewrite length_app in Hl. simpl in Hl.
    apply Forall_app in HF as [_ HF]. apply Forall_cons in HF as [HF _].
    rewrite list_lookup_middle by lia. cbn [mbind option_bind].
    rewrite (IH (t - 1)%nat h) by (done || lia).
    pose proof (inorder_nonempty (t - 1) h c ltac:(lia) HF).
    rewrite map_app. cbn [map].
    rewrite <- (app_nil_r (keys x)), flat_split by (rewrite length_map; lia).
    cbn [zipr zip_with concat]. change (zipr [] []) with (@nil K). rewrite app_nil_r, last_app.
    destruct (last (inorder c)) eqn:E; [done|]. by apply last_None in E.
Qed.
End QueryFacts.

(** ** Lookup and replacement on whole trees *)

Lemma find_ok {K} `{KeyOrderLaws K} `{KeyOps K}
    (t : nat) (nbits : Z) (Hp : bt_params t nbits) (btr : bt K) (k : K) (qkey : Z) :
  bt_wf t btr -> bt_find nbits btr k qkey = Some (assoc k (inorder (root btr))).
Proof.
  intros ((h & Hwf) & Hs & _). set (lo := if (h =? 0)%nat then _ else _) in Hwf.
  unfold bt_find, findnodekey. rewrite (wf_height t _ h _ Hwf).
  destruct (findnodekey_spec t nbits Hp k qkey (S h) lo h (root btr) (-1) (root btr) 0
    (Dwm None false (root btr) 0 (root btr) 0)) as (dwm & -> & E & _); try done; [lia|].
  cbn. by rewrite E.
Qed.

Lemma replace_ok {K} `{KeyOrderLaws K} `{KeyOps K}
    (t : nat) (nbits : Z) (Hp : bt_params t nbits) (btr : bt K) (k val : K) :
  bt_wf t btr -> cmp val k = 0 ->
  exists btr', bt_replace nbits btr k val =
      Some (btr', replaced val (assoc k (inorder (root btr)))) /\
    bt_wf t btr' /\ inorder (root btr') = repl k val (inorder (root btr)).
Proof.
  intros ((h & Hwf) & Hs & Hn) Hval. unfold bt_replace.
  rewrite (wf_height t _ h _ Hwf).
  destruct (replace_spec t nbits Hp k val (S h) _ h (root btr) (-1) Hwf Hs)
    as (x' & -> & Hx' & E); [lia..|]. cbn.
  eexists. split; [done|]. cbn. split_and!; [|done].
  split; [by exists h|]. cbn. rewrite E, length_repl. split; [|done].
  destruct (assoc k (inorder (root btr))) as [a|] eqn:Ea.
  - apply assoc_Some in Ea as [Hin Ea]. apply list_elem_of_split in Hin as (l1 & l2 & El).
    rewrite El in *. destruct (sorted_around l1 l2 k a Hs Ea) as [D1 _].
    rewrite repl_app by done. cbn. rewrite Ea. cbn.
    apply ksorted_app in Hs as (S1 & S2 & S3).
    apply Sorted.StronglySorted_inv in S2 as [S2 F2]. rewrite Forall_forall in F2.
    assert (Hva : cmp val a = 0).
    { pose proof (cmp_eq_l val k a Hval). pose proof (Z.sgn_null_iff (cmp val a)).
      pose proof (Z.sgn_null_iff (cmp k a)). lia. }
    apply ksorted_app. split_and!; [done| |].
    + constructor; [done|]. apply Forall_forall. intros b Hb. unfold klt.
      apply (cmp_le_lt_trans val a b); [lia|]. by apply F2.
    + intros b c Hb Hc. apply elem_of_cons in Hc as [->|Hc].
      * unfold klt. apply (cmp_lt_le_trans b a val); [apply S3; [done|by left]|].
        apply cmp_eq_sym in Hva. lia.
      * apply S3; [done|by right].
  - apply assoc_differs in Ea. rewrite <- (app_nil_r (inorder _)), repl_app by done.
    cbn. by rewrite app_nil_r.
Qed.

(** ** Properties *)

(** C25: on every well-formed tree without evicted rows, lookups agree with the
    sorted list of the tree's keys: [bt_find] returns the stored key equal to
    the argument (NULL when there is none), [bt_exist] tells whether there is
    one, [bt_find_loc] returns the location of that key, and the descents stop
    within the height of the tree. *)
Theorem lookup_correct {K} `{KeyOrderLaws K} `{KeyOps K}
    (t : nat) (nbits : Z) (btr : bt K) (k : K) (qkey : Z) :
  bt_params t nbits -> bt_wf t btr ->
  let found := assoc k (inorder (root btr)) in
  bt_find nbits btr k qkey = Some found /\
  bt_exist nbits btr k qkey = Some (bool_decide (is_Some found)) /\
  exists loc, bt_find_loc nbits btr k = Some loc /\
    (p ← loc; key_at (root btr) p.1 p.2) = found /\ (loc = None -> found = None).
Proof.
  intros Hp Hwf found. split_and!; [by apply (find_ok t nbits Hp)| |];
    destruct Hwf as ((h & Hwf) & Hs & _); unfold bt_exist, bt_find_loc;
    rewrite (wf_height t _ h _ Hwf).
  - eapply bt_exist_spec; eauto; lia.
  - eapply find_loc_spec; eauto; lia.
Qed.

(** [bt_replace] overwrites the stored key equal to its argument and
    returns what was there, or in a tree that passes addresses what is there
    now; a replacement equal to the key keeps the tree well
    formed, and an absent key leaves the contents alone. *)
Theorem replace_correct {K} `{KeyOrderLaws K} `{KeyOps K}
    (t : nat) (nbits : Z) (btr : bt K) (k val : K) :
  bt_params t nbits -> bt_wf t btr -> cmp val k = 0 ->
  exists btr', bt_replace nbits btr k val =
      Some (btr', replaced val (assoc k (inorder (root btr)))) /\
    bt_wf t btr' /\ inorder (root btr') = repl k val (inorder (root btr)).
Proof. intros Hp. by apply replace_ok. Qed.

Lemma min_max_ok {K} `{KeyOrderLaws K} `{KeyOps K}
    (t : nat) (nbits : Z) (btr : bt K) :
  bt_params t nbits -> bt_wf t btr -> Z.of_nat (length (inorder (root btr))) < 2 ^ 32 ->
  bt_min btr = Some (head (inorder (root btr))) /\
  bt_max btr = Some (last (inorder (root btr))).
Proof.
  intros Hp ((h & Hwf) & _ & Hn) Hlt. unfold bt_min, bt_max.
  rewrite (findmin_spec t nbits Hp _ _ h), (findmax_spec t nbits Hp _ _ h)
    by (try rewrite (wf_height t _ h _ Hwf); eauto).
  rewrite uwrap_small in Hn by lia. rewrite Hn.
  destruct (inorder (root btr)) as [|a l]; [done|].
  destruct (Z.eqb_spec (Z.of_nat (length (a :: l))) 0) as [E|_]; [done|]. cbn [head mbind option_bind].
  split; [done|]. destruct (last (a :: l)) eqn:E; [done|]. by apply last_None in E.
Qed.

(** [bt_min] and [bt_max] return the first and the last key of the tree,
    and NULL on the empty tree. *)
Theorem min_max_correct {K} `{KeyOrderLaws K} `{KeyOps K}
    (t : nat) (nbits : Z) (btr : bt K) :
  bt_params t nbits -> bt_wf t btr -> Z.of_nat (length (inorder (root btr))) < 2 ^ 32 ->
  bt_min btr = Some (head (inorder (root btr))) /\
  bt_max btr = Some (last (inorder (root btr))).
Proof. apply min_max_ok. Qed.

(** ** A concrete tree *)

Definition z_ops : KeyOps Z :=
  {| num_key := fun k => k; ghost_key := fun k => k; key_is_num := true; is_inode := true;
     key_rep := REP_WORD |}.
#[local] Existing Instances z_order z_order_laws z_ops.

Definition clean_ds : dstream := DStream (-1) 0 [].
Definition sample_leaf (ks : list Z) : bt_n Z :=
  Node true (Z.of_nat (length ks)) clean_ds ks [].
Definition sample_root : bt_n Z :=
  Node false 6 clean_ds [30] [sample_leaf [10; 20]; sample_leaf [40; 50; 60]].
Definition sample : bt Z := Bt sample_root 6 0 false.

Lemma sample_params : bt_params 2 4.
Proof. split; [lia|unfold log_width; lia|simpl; lia]. Qed.

Lemma sample_wf : bt_wf 2 sample.
Proof.
  split; [|split; [repeat constructor|reflexivity]].
  exists 1%nat. cbn [Nat.eqb]. apply wf_unfold. unfold clean.
  split_and!; try (cbn; lia); try done.
  repeat constructor; unfold clean; cbn; try done; lia.
Qed.

Lemma bt_create_wf {K} `{KeyOrder K} t dirty : bt_wf t (bt_create dirty : bt K).
Proof.
  split; [|split; [constructor|done]].
  exists 0%nat. apply wf_unfold. cbn. split_and!; try done; try lia.
  unfold clean. by destruct dirty.
Qed.

Lemma lookup_correct_witness :
  let found := assoc 50 (inorder (root sample)) in
  bt_find 4 sample 50 50 = Some found /\
  bt_exist 4 sample 50 50 = Some (bool_decide (is_Some found)) /\
  exists loc, bt_find_loc 4 sample 50 = Some loc /\
    (p ← loc; key_at (root sample) p.1 p.2) = found /\ (loc = None -> found = None).
Proof. apply (lookup_correct 2 4 sample 50 50 sample_params sample_wf). Defined.

Lemma replace_correct_witness :
  exists btr', bt_replace 4 sample 20 20 = Some (btr', replaced 20 (assoc 20 (inorder (root sample)))) /\
    bt_wf 2 btr' /\ inorder (root btr') = repl 20 20 (inorder (root sample)).
Proof. apply (replace_correct 2 4 sample 20 20 sample_params sample_wf). reflexivity. Defined.

Lemma min_max_correct_witness :
  bt_min sample = Some (Some 10) /\ bt_max sample = Some (Some 60).
Proof. apply (min_max_correct 2 4 sample sample_params sample_wf). cbn. lia. Defined.
