(* ===== verification/BtInsert.v ===== *)
(** * B-tree insertion ([DB/bt_code.c], INSERT)

    [btreesplitchild], [bt_insertnonfull] and [bt_insert].  The moves of keys
    between arrays are written as surgery on the live prefixes; the counters of
    the dirty streams move through the loops of the source.  [None] is a
    corrupted tree: [setDR] reallocates the node it writes to, and where the
    source hands it the wrong parent ([btreesplitchild] passes [p, pi] for [z]
    and for [x]) the reallocation leaves a dangling pointer. *)

From S2P Require Import Prelude BtSearch DirtyStream Btree.

Section Insert.
Context {K : Type} `{KeyOrder K} (t : nat) (nbits : Z).

(** The nodes' scions added to, or taken from, another node's. *)
Definition move_scion (y : bt_n K) (ns : list (bt_n K)) : bt_n K :=
  foldl (fun y c => incr_scion y (scion c)) y ns.
Definition unmove_scion (y : bt_n K) (ns : list (bt_n K)) : bt_n K :=
  foldl (fun y c => decr_scion y (scion c)) y ns.

(** One round of the loop that fills [z]: [setBTKey(z, j, y, j + t, 1)]. *)
Definition split_dr (lf : bool) (acc : option (dstream * dstream)) (j : nat)
  : option (dstream * dstream) :=
  '(dz, dy) ← acc;
  dr ← getDR dy (j + t);
  if negb (dr =? 0) && (dirty dz <=? 0) then None
  else mv_key_dr t true lf lf dz j dy (j + t).

(** [GETN]: the keys of a full node. *)
Definition GETN : nat := (2 * t - 1)%nat.

(** Split the full child [y] at slot [i] of [x]; the result is [x]. *)
Definition btreesplitchild (x : bt_n K) (i : nat) : option (bt_n K) :=
  y ← nodes x !! i;
  if negb (n_keys y =? GETN)%nat then None
  else
    let lf := leaf y in
    '(dz, dy) ← foldl (split_dr lf) (Some (alloc_ds t (dirty (ds y)), ds y)) (seq 0 (t - 1));
    zs ← get_scion_range dz 0 (t - 1);
    let z := Node lf (u32 zs) dz (drop t (keys y)) [] in
    let y1 := decr_scion (Node lf (scion y) dy (take t (keys y)) (nodes y)) (scion z) in
    let moved := if lf then [] else drop t (nodes y) in
    let z := set_nodes (move_scion z moved) moved in
    let y2 := unmove_scion y1 moved in
    let y2 := set_nodes y2 (if lf then nodes y else take t (nodes y)) in
    dx ← foldl (fun acc j => d ← acc; mv_key_dr_self t (leaf x) d (j + 1) j)
               (Some (ds x)) (reverse (seq i (n_keys x - i)));
    drm ← getDR (ds y2) (t - 1);
    let y3 := decr_scion y2 (1 + drm) in
    m ← keys y3 !! (t - 1)%nat;
    if negb (drm =? 0) && (dirty dx <=? 0) then None
    else
      '(dx, dy) ← mv_key_dr t true (leaf x) lf dx i (ds y3) (t - 1);
      let y4 := set_keys (set_ds y3 dy) (take (t - 1) (keys y3)) in
      Some (set_nodes (set_keys (set_ds x dx) (ins_at i m (keys x)))
                      (ins_at (i + 1) z (<[i := y4]> (nodes x)))).

Fixpoint bt_insertnonfull (fuel : nat) (x : bt_n K) (k : K) (dr : Z) : option (bt_n K) :=
  match fuel with
  | O => None
  | S fuel' =>
      '(i, _) ← findkindex nbits (keys x) k (-1);
      if leaf x then
        let i1 := Z.to_nat (i + 1) in
        d1 ← (if i =? Z.of_nat (n_keys x) - 1 then Some (ds x)
              else mvDR t true (ds x) (i1 + 1) i1 (n_keys x - i1));
        d2 ← overwriteDR t true d1 i1 dr;
        Some (incr_scion (set_keys (set_ds x d2) (ins_at i1 k (keys x))) 1)
      else
        let i := Z.to_nat (i + 1) in
        c ← nodes x !! i;
        '(x, i) ← (if (n_keys c =? GETN)%nat then
                     x' ← btreesplitchild x i;
                     ki ← keys x' !! i;
                     Some (x', if 0 <? cmp k ki then (i + 1)%nat else i)
                   else Some (x, i));
        c ← nodes x !! i;
        c' ← bt_insertnonfull fuel' c k dr;
        Some (incr_scion (set_nodes x (<[i := c']> (nodes x))) 1)
  end.

(** [btr->dirty] is set by [addDStoBTN], which a non-zero counter reaches
    through [overwriteDR] unless the tree is dirty already. *)
Definition bt_insert (btr : bt K) (k : K) (dr : Z) : option (bt K) :=
  let r := root btr in
  r ← (if (n_keys r =? GETN)%nat then
         let s := Node false 0 (alloc_ds t (dirty (ds r))) [] [] in
         let s := set_nodes (incr_scion s (scion r)) [r] in
         btreesplitchild s 0
       else Some r);
  x ← bt_insertnonfull (S (height r)) r k dr;
  Some (Bt x (u32 (numkeys btr + 1)) (dirty_left btr) (bdirty btr || negb (dr =? 0))).
End Insert.

(** ** Lemmas *)

Section Scions.
Context {K : Type}.

Fixpoint scions (ns : list (bt_n K)) : Z :=
  match ns with [] => 0 | c :: ns' => scion c + scions ns' end.

Lemma move_scion_eq ns : forall (l : bool) a d (ks : list K) cs,
  move_scion (Node l (u32 a) d ks cs) ns = Node l (u32 (a + scions ns)) d ks cs.
Proof.
  induction ns as [|c ns IH]; intros; cbn; [by rewrite Z.add_0_r|].
  unfold move_scion in IH. rewrite uwrap_add_l, IH. do 2 f_equal. lia.
Qed.

Lemma unmove_scion_eq ns : forall (l : bool) a d (ks : list K) cs,
  unmove_scion (Node l (u32 a) d ks cs) ns = Node l (u32 (a - scions ns)) d ks cs.
Proof.
  induction ns as [|c ns IH]; intros; cbn; [by rewrite Z.sub_0_r|].
  unfold unmove_scion in IH. rewrite uwrap_sub_l, IH. do 2 f_equal. lia.
Qed.

(** The number of keys in a list of subtrees. *)
Definition total (ns : list (bt_n K)) : Z :=
  Z.of_nat (sum_list_with length (map inorder ns)).

Lemma total_app n1 n2 : total (n1 ++ n2) = total n1 + total n2.
Proof. unfold total. rewrite map_app, sum_list_with_app. lia. Qed.

Lemma scions_total t lo h ns :
  Forall (wf t lo h) ns -> exists q, scions ns = total ns + q * 2 ^ 32.
Proof.
  induction 1 as [|c ns Hc _ [q IH]]; [by exists 0|].
  cbn [scions]. rewrite (wf_scion _ _ _ _ Hc), IH. unfold uwrap, total. cbn [map sum_list_with].
  exists (q - Z.of_nat (length (inorder c)) / 2 ^ 32).
  rewrite Z.mod_eq by done. lia.
Qed.

Lemma length_inorder t lo h (x : bt_n K) :
  wf t lo h x -> Z.of_nat (length (inorder x)) = Z.of_nat (n_keys x) + total (nodes x).
Proof.
  intros Hx. rewrite inorder_flat, length_flat by by eapply wf_shape.
  unfold total, n_keys. lia.
Qed.
End Scions.

(** Equalities of wrapped sums, by linear arithmetic on the quotients. *)
Ltac u32_lia := unfold uwrap in *; change (2 ^ 32) with 4294967296 in *; dlia.

Section WfBuild.
Context {K : Type} `{KeyOrderLaws K} (t : nat).

(** Assembling a leaf and an internal node. *)
Lemma wf_leaf_build lo s d (ks : list K) :
  (lo <= length ks <= 2 * t - 1)%nat -> clean d -> s = u32 (Z.of_nat (length ks)) ->
  wf t lo 0 (Node true s d ks []).
Proof. intros. apply wf_unfold. nsimpl. done. Qed.

Lemma wf_node_build lo h s d (ks : list K) ns :
  (lo <= length ks <= 2 * t - 1)%nat -> clean d ->
  s = u32 (Z.of_nat (length ks) + total ns) ->
  length ns = S (length ks) -> Forall (wf t (t - 1) h) ns ->
  wf t lo (S h) (Node false s d ks ns).
Proof.
  intros Hn Hc Hs Hl HF. apply wf_unfold. nsimpl. split_and!; try done; [lia..|].
  rewrite Hs, inorder_Node, length_flat by (left; rewrite length_map; lia).
  unfold total. f_equal. lia.
Qed.

Lemma alloc_clean w : w <= 0 -> clean (alloc_ds t w).
Proof. intros. unfold clean. done. Qed.

(** On a clean tree the loops that move counters change nothing. *)
Lemma split_drs_clean lf dz dy js :
  clean dz -> clean dy -> foldl (split_dr t lf) (Some (dz, dy)) js = Some (dz, dy).
Proof.
  intros Hz Hy. induction js as [|j js IH]; [done|]. cbn [foldl].
  unfold split_dr at 2. cbn [mbind option_bind]. rewrite getDR_clean by done.
  cbn [mbind option_bind Z.eqb negb andb]. rewrite mv_key_dr_clean by done. exact IH.
Qed.

Lemma shift_drs_clean lf d js :
  clean d ->
  foldl (fun acc j => d ← acc; mv_key_dr_self t lf d (j + 1) j) (Some d) js = Some d.
Proof.
  intros Hd. induction js as [|j js IH]; [done|]. cbn [foldl mbind option_bind].
  rewrite mv_key_dr_self_clean by done. exact IH.
Qed.
End WfBuild.

Section SplitFacts.
Context {K : Type} `{KeyOrderLaws K} (t : nat) (Ht : (2 <= t)%nat).

(** The two halves of a full node. *)
Lemma split_halves h (y : bt_n K) dz dy sz sy m k1 k2 :
  wf t (t - 1) h y -> keys y = k1 ++ m :: k2 ->
  length k1 = (t - 1)%nat -> length k2 = (t - 1)%nat -> clean dz -> clean dy ->
  let lf := leaf y in
  let n1 := if lf then nodes y else take t (nodes y) in
  let n2 := if lf then [] else drop t (nodes y) in
  sz = u32 (Z.of_nat (t - 1) + total n2) ->
  sy = u32 (Z.of_nat (t - 1) + total n1) ->
  let y' := Node lf sy dy k1 n1 in
  let z := Node lf sz dz k2 n2 in
  wf t (t - 1) h y' /\ wf t (t - 1) h z /\ inorder y = inorder y' ++ m :: inorder z.
Proof.
  intros Hy Ek Hk1 Hk2 Hdz Hdy. rewrite (wf_leaf t _ h y Hy).
  apply wf_unfold in Hy as (Hn & _ & _ & Hh). cbv zeta. rewrite (inorder_flat y), Ek.
  destruct h as [|h].
  - destruct Hh as [_ ->]. intros Hsz Hsy. rewrite Z.add_0_r in Hsz, Hsy.
    split; [apply wf_leaf_build; [lia|done|by rewrite Hk1]|].
    split; [apply wf_leaf_build; [lia|done|by rewrite Hk2]|done].
  - destruct Hh as (_ & Hl & HF). unfold n_keys in *. rewrite Ek, length_app in Hl.
    simpl in Hl. intros Hsz Hsy.
    rewrite <- (take_drop t (nodes y)) in HF. apply Forall_app in HF as [F1 F2].
    assert (length (take t (nodes y)) = t) by (rewrite length_take; lia).
    assert (length (drop t (nodes y)) = t) by (rewrite length_drop; lia).
    split; [apply wf_node_build; try done; [lia|by rewrite Hk1|lia]|].
    split; [apply wf_node_build; try done; [lia|by rewrite Hk2|lia]|].
    rewrite !inorder_Node. rewrite <- (take_drop t (nodes y)) at 1. rewrite map_app.
    apply flat_cut; [rewrite length_map; lia|].
    intros E. apply (f_equal length) in E. rewrite length_map in E. simpl in E. lia.
Qed.

(** Splitting a full child: the median goes up, the halves are well formed,
    and the keys in order do not change. *)
Lemma splitchild_spec lo h (x y : bt_n K) n1 n2 k1 k2 :
  wf t lo (S h) x -> nodes x = n1 ++ y :: n2 -> keys x = k1 ++ k2 ->
  length n1 = length k1 -> n_keys y = (2 * t - 1)%nat ->
  exists y' z m,
    btreesplitchild t x (length k1) =
      Some (Node false (scion x) (ds x) (k1 ++ m :: k2) (n1 ++ y' :: z :: n2)) /\
    wf t (t - 1) h y' /\ wf t (t - 1) h z /\
    n_keys y' = (t - 1)%nat /\ n_keys z = (t - 1)%nat /\
    inorder y = inorder y' ++ m :: inorder z.
Proof.
  intros Hx En Ek Hl Hfull.
  destruct x as [lx sx dx kx nx]. nsimpl. subst kx nx.
  pose proof (wf_clean t _ _ _ Hx) as Hdx. pose proof (wf_leaf t _ _ _ Hx) as Hlx. nsimpl. subst lx.
  apply wf_unfold in Hx as (_ & _ & _ & _ & _ & HF). nsimpl.
  apply Forall_app in HF as [_ HF]. apply Forall_cons in HF as [Hy _].
  pose proof (wf_clean t _ _ _ Hy) as Hdy.
  unfold btreesplitchild. nsimpl. rewrite list_lookup_middle by done.
  cbn [mbind option_bind]. unfold GETN. rewrite Hfull, Nat.eqb_refl. cbn [negb].
  set (dz := alloc_ds t (dirty (ds y))).
  assert (Hdz : clean dz) by (apply alloc_clean, Hdy).
  rewrite split_drs_clean by done. cbn [mbind option_bind].
  rewrite get_scion_range_clean by done. cbn [mbind option_bind].
  destruct (lookup_lt_is_Some_2 (keys y) (t - 1)) as [m Hm]; [unfold n_keys in *; lia|].
  destruct (lookup_split _ _ _ Hm) as (ky1 & ky2 & Eky & Hky1).
  assert (Hky2 : length ky2 = (t - 1)%nat).
  { unfold n_keys in Hfull. rewrite Eky, length_app in Hfull. simpl in Hfull. lia. }
  assert (Etake : take t (keys y) = ky1 ++ [m]).
  { rewrite Eky. replace (ky1 ++ m :: ky2) with ((ky1 ++ [m]) ++ ky2) by by rewrite <- app_assoc.
    apply take_app_length'. len_lia. }
  assert (Edrop : drop t (keys y) = ky2).
  { rewrite Eky. replace (ky1 ++ m :: ky2) with ((ky1 ++ [m]) ++ ky2) by by rewrite <- app_assoc.
    apply drop_app_length'. len_lia. }
  rewrite Etake, Edrop.
  set (moved := if leaf y then [] else drop t (nodes y)).
  set (kept := if leaf y then nodes y else take t (nodes y)).
  assert (Hmk : total (nodes y) = total kept + total moved /\
    exists q, scions moved = total moved + q * 2 ^ 32).
  { pose proof (wf_leaf t _ _ _ Hy) as Hly. apply wf_unfold in Hy as (_ & _ & _ & Hh).
    unfold kept, moved. rewrite Hly. destruct h as [|h].
    - destruct Hh as [_ ->]. split; [done|]. by exists 0.
    - destruct Hh as (_ & _ & HF').
      rewrite <- total_app, take_drop. split; [done|].
      apply (scions_total t (t - 1) h), Forall_drop. done. }
  destruct Hmk as [Htot [q Hq]].
  pose proof (length_inorder t _ _ _ Hy) as Hlen. unfold n_keys in Hlen. rewrite Hfull in Hlen.
  pose proof (wf_scion t _ _ _ Hy) as Hsy.
  rewrite move_scion_eq. nsimpl. rewrite uwrap_sub_r, unmove_scion_eq. nsimpl.
  rewrite shift_drs_clean by done. cbn [mbind option_bind].
  rewrite getDR_clean by done. cbn [mbind option_bind].
  rewrite list_lookup_middle by done. cbn [mbind option_bind Z.eqb negb andb].
  rewrite mv_key_dr_clean by done. cbn [mbind option_bind].
  rewrite take_app_length' by done. rewrite ins_at_app by done.
  rewrite insert_app_mid by done.
  set (sy' := u32 (_ - (1 + 0))). set (sz' := u32 (_ + scions moved)).
  exists (Node (leaf y) sy' (ds y) ky1 kept), (Node (leaf y) sz' dz ky2 moved), m.
  destruct (split_halves h y dz (ds y) sz' sy' m ky1 ky2) as (W1 & W2 & W3); try done.
  { unfold sz'. fold moved. clear -Hq Ht. u32_lia. }
  { unfold sy'. fold kept. clear -Hlen Hq Htot Hsy Ht. u32_lia. }
  split_and!; try done.
  replace (n1 ++ Node (leaf y) sy' (ds y) ky1 kept :: n2)
    with ((n1 ++ [Node (leaf y) sy' (ds y) ky1 kept]) ++ n2) by by rewrite <- app_assoc.
  rewrite ins_at_app by len_lia. by rewrite <- app_assoc.
Qed.
End SplitFacts.

Lemma zipl_app {K} (l1 l2 : list (list K)) k1 k2 :
  length l1 = length k1 -> zipl (l1 ++ l2) (k1 ++ k2) = zipl l1 k1 ++ zipl l2 k2.
Proof. intros. unfold zipl. by rewrite zip_with_app, concat_app by done. Qed.

Section InsertFacts.
Context {K : Type} `{KeyOrderLaws K} (t : nat) (nbits : Z).
Context (Hp : bt_params t nbits).

(** Storing the updated child and counting the new key. *)
Lemma insert_child lo h s d a c b ka kb c' (k : K) :
  (lo <= length (ka ++ kb) <= 2 * t - 1)%nat -> clean d ->
  s = u32 (Z.of_nat (length (flat (map inorder (a ++ c :: b)) (ka ++ kb)))) ->
  length a = length ka -> length kb = length b ->
  Forall (wf t (t - 1) h) a -> Forall (wf t (t - 1) h) b -> wf t (t - 1) h c' ->
  inorder c' = ins k (inorder c) ->
  Forall (fun e => 0 <= cmp k e) (zipl (map inorder a) ka) ->
  Forall (fun e => cmp k e < 0) (zipr kb (map inorder b)) ->
  let x' := Node false (u32 (s + 1)) d (ka ++ kb) (a ++ c' :: b) in
  wf t lo (S h) x' /\ inorder x' = ins k (flat (map inorder (a ++ c :: b)) (ka ++ kb)).
Proof.
  intros Hn Hd Hs Ha Hb Fa Fb Hc' Hin Hpre Hpost x'.
  assert (Hino : inorder x' = ins k (flat (map inorder (a ++ c :: b)) (ka ++ kb))).
  { unfold x'. rewrite inorder_Node, !map_app. cbn [map].
    rewrite !flat_split by (by rewrite length_map).
    rewrite ins_app, ins_app_l by done. by rewrite Hin. }
  split; [|done].
  apply wf_node_build; try done.
  - rewrite Hs. autorewrite with uwrap. f_equal.
    pose proof (f_equal length Hino) as Hl. unfold x' in Hl.
    rewrite inorder_Node, length_ins, length_flat in Hl
      by (left; rewrite length_map, !length_app; simpl; lia).
    unfold total. lia.
  - rewrite !length_app. simpl. lia.
  - apply Forall_app. split; [done|]. by constructor.
Qed.

(** The leaf case. *)
Lemma insert_leaf lo (x : bt_n K) k :
  wf t lo 0 x -> ksorted (inorder x) -> (n_keys x < 2 * t - 1)%nat ->
  let i := rank k (keys x) in
  let x' := incr_scion (set_keys x (ins_at i k (keys x))) 1 in
  wf t lo 0 x' /\ inorder x' = ins k (inorder x).
Proof.
  intros Hx Hs Hnf i x'. subst i x'. pose proof (keys_sorted t lo 0 x Hx Hs) as Hks.
  destruct (rank_split k (keys x) Hks) as (k1 & k2 & Ek & Hk1 & F1 & F2).
  rewrite Ek, ins_at_app by (by rewrite <- Ek).
  pose proof (wf_scion t lo _ x Hx) as Hsx. pose proof (wf_clean t lo _ x Hx) as Hdx.
  pose proof (wf_keys t lo _ x Hx) as Hnx.
  apply wf_unfold in Hx as (_ & _ & _ & Hlx & Hns).
  destruct x as [l s d ks ns]. nsimpl. subst ks ns l. rewrite !inorder_Node in *.
  cbn [map flat] in *. split.
  - apply wf_leaf_build; [rewrite !length_app in *; simpl; lia|done|].
    rewrite Hsx. autorewrite with uwrap. f_equal. rewrite !length_app. simpl. lia.
  - rewrite ins_app, <- (app_nil_l k2) by done. by rewrite ins_app_l.
Qed.

(** What a split parent offers: the two children and the keys around each. *)
Lemma split_around (pre y' z post : list K) m k :
  ksorted (pre ++ (y' ++ m :: z) ++ post) -> cmp k m <> 0 ->
  Forall (fun e => 0 <= cmp k e) pre -> Forall (fun e => cmp k e < 0) post ->
  (0 < cmp k m -> Forall (fun e => 0 <= cmp k e) (pre ++ y' ++ [m])) /\
  (cmp k m < 0 -> Forall (fun e => cmp k e < 0) (m :: z ++ post)).
Proof.
  intros Hs Hm Hpre Hpost. apply ksorted_app in Hs as (_ & Hs & _).
  apply ksorted_app in Hs as (Hs & _ & _). apply ksorted_app in Hs as (_ & Hs & Hy).
  apply Sorted.StronglySorted_inv in Hs as [_ Hz]. split; intros Hc.
  - apply Forall_app. split; [done|]. apply Forall_app. split; [|constructor; [lia|done]].
    apply Forall_forall. intros e He. assert (Hem : klt e m) by (apply Hy; [done|by left]).
    unfold klt in Hem. apply cmp_le_ge. apply cmp_antisym in Hc.
    pose proof (cmp_lt_le_trans e m k). lia.
  - constructor; [done|]. apply Forall_app. split; [|done].
    eapply Forall_impl; [exact Hz|]. intros e He. unfold klt in He.
    apply (cmp_lt_le_trans k m e); lia.
Qed.

Lemma insertnonfull_spec k : forall fuel lo h (x : bt_n K),
  wf t lo h x -> ksorted (inorder x) -> differs k (inorder x) ->
  (n_keys x < 2 * t - 1)%nat -> (h < fuel)%nat ->
  exists x', bt_insertnonfull t nbits fuel x k 0 = Some x' /\ wf t lo h x' /\
    inorder x' = ins k (inorder x).
Proof.
  destruct Hp as [Ht Hw Hcap].
  induction fuel as [|fuel IH]; intros lo h x Hx Hs Hd Hnf Hf; [lia|].
  cbn [bt_insertnonfull].
  destruct (find_step t nbits Hw Hcap lo h x k (-1) Hx Hs) as (i & r & -> & Ei & _); [lia|].
  cbn [mbind option_bind]. rewrite (wf_leaf t lo h x Hx).
  replace (Z.to_nat (i + 1)) with (rank k (keys x)) by lia.
  pose proof (wf_clean t lo _ x Hx) as Hdx.
  destruct h as [|h].
  { replace (if i =? _ then _ else _) with (Some (ds x))
      by (case_match; [done|by rewrite mvDR_clean]).
    cbn [mbind option_bind]. rewrite overwriteDR_clean by done. cbn [mbind option_bind].
    eexists. split; [done|]. replace (set_ds x (ds x)) with x by by destruct x.
    by apply insert_leaf. }
  destruct (locate t lo h x k Hx Hs)
    as (n1 & c & n2 & k1 & k2 & En & Ek & Hn1 & Hk1 & Hk2 & Hin & Hwc & Hsc & Fpre & Fpost & _).
  assert (Hc : nodes x !! rank k (keys x) = Some c)
    by (rewrite En; by apply list_lookup_middle).
  assert (Hdc : differs k (inorder c)).
  { rewrite Hin in Hd. apply Forall_app in Hd as [_ Hd]. by apply Forall_app in Hd as [? _]. }
  pose proof (wf_scion t lo _ x Hx) as Hsx. pose proof (wf_keys t lo _ x Hx) as Hnx.
  assert (HF : Forall (wf t (t - 1) h) n1 /\ Forall (wf t (t - 1) h) n2).
  { apply wf_unfold in Hx as (_ & _ & _ & _ & _ & HF). rewrite En in HF.
    apply Forall_app in HF as [F1 F2]. by apply Forall_cons in F2 as [_ F2]. }
  destruct HF as [F1 F2].
  rewrite Hc. cbn [mbind option_bind]. unfold GETN.
  destruct (Nat.eqb_spec (n_keys c) (2 * t - 1)) as [Efull|Enf].
  - destruct (splitchild_spec t Ht lo h x c n1 n2 k1 k2 Hx En Ek (eq_sym Hk1) Efull)
      as (y' & z & m & Esp & Wy & Wz & Ny & Nz & Ec).
    rewrite <- Hn1, <- Hk1, Esp. cbn [mbind option_bind keys].
    rewrite list_lookup_middle by done. cbn [mbind option_bind nodes].
    rewrite Hin, Ec in Hs, Hd. rewrite Ec in Hdc, Hsc.
    apply Forall_app in Hdc as [Dy Dz]. apply Forall_cons in Dz as [Dm Dz].
    destruct (split_around _ _ _ _ m k Hs Dm Fpre Fpost) as [Hgt Hlt].
    apply ksorted_app in Hsc as (Sy & Sz & _). apply Sorted.StronglySorted_inv in Sz as [Sz _].
    assert (Eino : inorder x = flat (map inorder (n1 ++ y' :: z :: n2)) (k1 ++ m :: k2)).
    { rewrite Hin, Ec, map_app. cbn [map]. rewrite flat_split by (rewrite length_map; lia).
      rewrite zipr_cons. by rewrite <- app_assoc. }
    assert (Hlen : length (keys x) = (length k1 + length k2)%nat) by (rewrite Ek; len_lia).
    unfold n_keys in *.
    destruct (Z.ltb_spec 0 (cmp k m)) as [Hc0|Hc0].
    + replace (n1 ++ y' :: z :: n2) with ((n1 ++ [y']) ++ z :: n2) in * by by rewrite <- app_assoc.
      replace (k1 ++ m :: k2) with ((k1 ++ [m]) ++ k2) in * by by rewrite <- app_assoc.
      rewrite list_lookup_middle by len_lia. cbn [mbind option_bind].
      destruct (IH (t - 1)%nat h z) as (z' & -> & Wz' & Ez'); try done; [lia..|].
      cbn [mbind option_bind]. eexists. split; [done|].
      rewrite insert_app_mid by len_lia. nsimpl. rewrite Eino.
      apply insert_child; try done; try len_lia; [by rewrite Hsx, Eino| |].
      * apply Forall_app. split; [done|]. by constructor.
      * rewrite map_app, zipl_app by (rewrite length_map; lia).
        unfold zipl at 2. cbn [map zip_with concat]. rewrite app_nil_r. by apply Hgt.
    + rewrite list_lookup_middle by done. cbn [mbind option_bind].
      destruct (IH (t - 1)%nat h y') as (y'' & -> & Wy' & Ey'); try done; [lia..|].
      cbn [mbind option_bind]. eexists. split; [done|].
      rewrite insert_app_mid by done. nsimpl. rewrite Eino.
      apply insert_child; try done; try len_lia; [by rewrite Hsx, Eino| |].
      * by constructor.
      * cbn [map]. rewrite zipr_cons. apply Hlt. lia.
  - cbn [mbind option_bind]. rewrite Hc. cbn [mbind option_bind].
    destruct (IH (t - 1)%nat h c) as (c' & -> & Hc' & Ec'); try done; [|lia|].
    { apply wf_keys in Hwc. lia. }
    cbn [mbind option_bind]. eexists. split; [done|].
    rewrite En, insert_app_mid by done.
    pose proof (wf_leaf t lo _ x Hx) as Hlx.
    destruct x as [l s d ks ns]. nsimpl. subst ks ns l. rewrite inorder_Node in *.
    apply insert_child; done.
Qed.

(** Splitting a full root makes the tree one level higher. *)
Lemma root_split_spec lo h (r : bt_n K) :
  wf t lo h r -> n_keys r = (2 * t - 1)%nat ->
  exists s', btreesplitchild t
      (set_nodes (incr_scion (Node false 0 (alloc_ds t (dirty (ds r))) [] []) (scion r)) [r]) 0
      = Some s' /\ wf t 1 (S h) s' /\ inorder s' = inorder r /\ n_keys s' = 1%nat.
Proof.
  intros Hr Hfull. pose proof (params_t t nbits Hp) as Ht. nsimpl.
  set (s := Node false _ _ _ _).
  assert (Hwr : wf t (t - 1) h r) by (eapply wf_weaken; [done|unfold n_keys; lia]).
  assert (Hcl : clean (alloc_ds t (dirty (ds r)))) by (apply alloc_clean; eapply wf_clean, Hr).
  assert (Hs : wf t 0 (S h) s).
  { apply wf_node_build; try done; [simpl; lia| |by constructor].
    rewrite (wf_scion t _ _ _ Hr). autorewrite with uwrap. f_equal.
    unfold total. cbn. lia. }
  destruct (splitchild_spec t Ht 0 h s r [] [] [] []) as (y' & z & m & E & Wy & Wz & _ & _ & Ein);
    try done.
  cbn [length app] in E. rewrite E. eexists. split; [done|]. subst s. nsimpl.
  assert (Eino : inorder (Node false (u32 (0 + scion r)) (alloc_ds t (dirty (ds r))) [m] [y'; z])
    = inorder r).
  { rewrite inorder_Node, Ein. cbn. by rewrite app_nil_r. }
  split_and!; [|done|done].
  apply wf_node_build; try done; [simpl; lia| |by repeat constructor].
  rewrite (wf_scion t _ _ _ Hr), Ein. autorewrite with uwrap. f_equal.
  unfold total. cbn. rewrite length_app. simpl. lia.
Qed.
End InsertFacts.

(** ** Insertion refines the sorted list *)

Lemma insert_ok {K} `{KeyOrderLaws K} (t : nat) (nbits : Z) (Hp : bt_params t nbits)
    (btr : bt K) (k : K) :
  bt_wf t btr -> differs k (inorder (root btr)) ->
  exists btr', bt_insert t nbits btr k 0 = Some btr' /\ bt_wf t btr' /\
    inorder (root btr') = ins k (inorder (root btr)) /\
    (height (root btr) <= height (root btr') <= S (height (root btr)))%nat /\
    dirty_left btr' = dirty_left btr /\ bdirty btr' = bdirty btr.
Proof.
  intros ((h & Hwf) & Hs & Hn) Hd. unfold bt_insert, GETN.
  pose proof (params_t t nbits Hp) as Ht.
  set (lo := if (h =? 0)%nat then 0%nat else 1%nat) in Hwf.
  assert (Hpick : exists r lo' h', (if (n_keys (root btr) =? 2 * t - 1)%nat then
      btreesplitchild t (set_nodes (incr_scion (Node false 0
        (alloc_ds t (dirty (ds (root btr)))) [] []) (scion (root btr))) [root btr]) 0
      else Some (root btr)) = Some r /\ wf t lo' h' r /\
      lo' = (if (h' =? 0)%nat then 0 else 1)%nat /\ (n_keys r < 2 * t - 1)%nat /\
      inorder r = inorder (root btr) /\ (h <= h' <= S h)%nat).
  { destruct (Nat.eqb_spec (n_keys (root btr)) (2 * t - 1)) as [E|E].
    - destruct (root_split_spec t nbits Hp lo h (root btr) Hwf E) as (s' & -> & W & I & N).
      exists s', 1%nat, (S h). split_and!; try done; lia.
    - exists (root btr), lo, h. pose proof (wf_keys t _ _ _ Hwf).
      split_and!; try done; lia. }
  destruct Hpick as (r & lo' & h' & -> & Hr & Hlo & Hnf & Hin & Hh).
  cbn [mbind option_bind]. rewrite <- Hin in Hs, Hd.
  destruct (insertnonfull_spec t nbits Hp k (S (height r)) lo' h' r) as (x' & -> & Wx & Ix);
    try done.
  { rewrite (wf_height t _ _ _ Hr). lia. }
  cbn [mbind option_bind]. eexists. split; [done|]. cbn [root numkeys dirty_left bdirty].
  rewrite Ix, Hin. rewrite (wf_height t _ _ _ Wx), (wf_height t _ _ _ Hwf).
  split_and!; [|done|lia|lia|done|by rewrite orb_false_r].
  split; [|split]; cbn [root numkeys].
  - exists h'. by rewrite <- Hlo.
  - rewrite Ix. by apply ins_sorted.
  - rewrite Hn, Ix, Hin, length_ins. autorewrite with uwrap. f_equal. lia.
Qed.

(** ** Properties *)

(** C3: inserting a key that the tree does not hold never fails, terminates
    within the height, and yields a well-formed tree (sorted, uniform depth,
    node occupancy between [t - 1] and [2t - 1], exact subtree counts) whose keys
    are the old ones with the new key at its place; the height grows by at most
    one. *)
Theorem insert_refines {K} `{KeyOrderLaws K} (t : nat) (nbits : Z) (btr : bt K) (k : K) :
  bt_params t nbits -> bt_wf t btr -> differs k (inorder (root btr)) ->
  exists btr', bt_insert t nbits btr k 0 = Some btr' /\ bt_wf t btr' /\
    inorder (root btr') = ins k (inorder (root btr)) /\
    (height (root btr) <= height (root btr') <= S (height (root btr)))%nat /\
    dirty_left btr' = dirty_left btr /\ bdirty btr' = bdirty btr.
Proof. intros Hp. by apply insert_ok. Qed.

(** [bt_insert] counts the key but not the counter inserted with it: after
    inserting a key with [dr] evicted successors into a new tree, [scion] of the
    root is [1], where [get_scion_range] counts [1 + dr] rows. *)
Theorem insert_counter_uncounted {K} `{KeyOrder K} (t : nat) (nbits : Z) (k : K) (dr : Z) :
  (2 <= t)%nat -> 0 < dr <= UCHAR_MAX ->
  exists b, bt_insert t nbits (bt_create false) k dr = Some b /\
    inorder (root b) = [k] /\ scion (root b) = 1 /\
    get_scion_range (ds (root b)) 0 1 = Some (1 + dr).
Proof.
  intros Ht Hdr. unfold bt_insert, bt_create, GETN, n_keys. cbn [root keys length].
  destruct (Nat.eqb_spec 0 (2 * t - 1)); [lia|]. cbn [mbind option_bind height].
  cbn [bt_insertnonfull keys leaf ds]. unfold findkindex, n_keys.
  cbn [length keys Z.of_nat Z.eqb mbind option_bind Z.sub Z.add Z.opp Pos.eqb].
  change (Z.to_nat (-1 + 1)) with 0%nat.
  unfold overwriteDR, setDR, addDS. unfold UCHAR_MAX in *.
  destruct (Z.eqb_spec dr 0); [lia|]. cbn [dirty ndirty Z.leb Z.compare __setDR Z.eqb Pos.eqb].
  unfold UCHAR_MAX. destruct (Z.ltb_spec 255 dr); [lia|].
  unfold store_dr. cbn [slots dirty ndirty].
  destruct t as [|t]; [lia|]. cbn [Nat.mul Nat.add replicate lookup list_lookup mbind option_bind].
  destruct (Z.eqb_spec dr 0); [lia|]. cbn [Z.eqb negb andb insert list_insert Z.ltb Z.compare].
  change (u8 (0 + 1)) with 1. cbn [Z.eqb].
  eexists. split; [reflexivity|]. split; [done|]. split; [done|].
  cbn. by f_equal.
Qed.

#[local] Existing Instances z_order z_order_laws.

Lemma insert_refines_witness :
  exists btr', bt_insert 2 4 sample 55 0 = Some btr' /\ bt_wf 2 btr' /\
    inorder (root btr') = ins 55 (inorder (root sample)) /\
    (height (root sample) <= height (root btr') <= S (height (root sample)))%nat /\
    dirty_left btr' = dirty_left sample /\ bdirty btr' = bdirty sample.
Proof.
  apply (insert_refines 2 4 sample 55 sample_params sample_wf).
  repeat constructor; done.
Defined.

Lemma insert_counter_uncounted_witness :
  exists b, bt_insert 4 4 (bt_create false) 10 3 = Some b /\
    inorder (root b) = [10] /\ scion (root b) = 1 /\
    get_scion_range (ds (root b)) 0 1 = Some (1 + 3).
Proof.
  apply (insert_counter_uncounted 4 4 10 3); [lia|unfold UCHAR_MAX; lia].
Defined.
