(* ===== verification/BtDelete.v ===== *)
(** * B-tree deletion and eviction ([DB/bt_code.c], DELETE)

    [deletekey] removes a key on one descent, topping up every node it enters.
    The modes are the source's [s] argument; [drt] distinguishes an eviction
    (the key's place is remembered in the dirty counter of its predecessor)
    from a deletion.  [case_2c_ptr], a global of the source, is threaded
    through the recursion.

    The predecessor of a leaf's first key is a key of an ancestor; the source
    finds it by walking the recorded path back from the leaf.  Here the pending
    amount is returned and absorbed by the nearest ancestor entered through a
    child other than its first, or by [dirty_left] when there is none.  On a
    plain deletion no path is recorded, and absorbing in an ancestor is the
    undefined outcome [None].

    The keys that the functions return and keep are the source's [bt_data_t]:
    the contents of a slot in a tree of words, else the address of the slot, and
    then what is read there later depends on what has been written to the slot in
    between ([key_rep]).  [dwd_k] and [dwd_2c] are what such a read gives at the
    point where the source makes it, [None] when the slot has been freed. *)

From S2P Require Import Prelude BtSearch DirtyStream Btree BtInsert.

(** The [s] argument: delete a given key, the largest, the smallest. *)
Inductive dk (K : Type) :=
| DK_NONE (k : K)
| DK_2A
| DK_2B.
Arguments DK_NONE {K} _.
Arguments DK_2A {K}.
Arguments DK_2B {K}.

Definition is_none {K} (s : dk K) : bool := match s with DK_NONE _ => true | _ => false end.

(** The node after the call, [dwd_t] ([k] and [dr]), the amount an ancestor has
    to absorb, and [case_2c_ptr], NULL as [None]. *)
Record dwd_t (K : Type) := Dwd {
  dwd_x : bt_n K;
  dwd_k : option K;
  dwd_dr : Z;
  dwd_pend : Z;
  dwd_2c : option (option K);
}.
Arguments Dwd {K} _ _ _ _ _.
Arguments dwd_x {K} _.
Arguments dwd_k {K} _.
Arguments dwd_dr {K} _.
Arguments dwd_pend {K} _.
Arguments dwd_2c {K} _.

Section Delete.
Context {K : Type} `{KeyOrder K} `{KeyOps K} (t : nat) (nbits : Z).

(** [incrPrevDR]: the counter of the previous slot, or a pending amount. *)
Definition incrPrevDR (x : bt_n K) (i : nat) (dr : Z) : option (bt_n K * Z) :=
  if dr =? 0 then Some (x, 0)
  else match i with
       | S j => d ← incrDR t (leaf x) (ds x) j dr; Some (set_ds x d, 0)
       | O => Some (x, dr)
       end.

(** [get_prev_child_recurse] and [incrCase2B]: the last slot of the rightmost
    leaf under [c], whose [scion] grows too. *)
Fixpoint incrCase2B (fuel : nat) (c : bt_n K) (dr : Z) : option (bt_n K) :=
  match fuel with
  | O => None
  | S fuel' =>
      if leaf c then
        d ← incrDR t true (ds c) (n_keys c - 1) dr;
        Some (incr_scion (set_ds c d) dr)
      else
        c1 ← nodes c !! n_keys c;
        c1' ← incrCase2B fuel' c1 dr;
        Some (set_nodes c (<[n_keys c := c1']> (nodes c)))
  end.

Definition replaceKeyWithGhost (x : bt_n K) (i : nat) (k : K) (dr : Z) : option (bt_n K) :=
  d ← overwriteDR t (leaf x) (ds x) i dr;
  Some (setBTKeyRaw (set_ds x d) i (ghost_key k)).

(** [addDStoBTN] has replaced the node: its old slots are freed. *)
Definition reallocated (x x' : bt_n K) : bool := (dirty (ds x) <=? 0) && (0 <? dirty (ds x')).

(** Slot [i] once [mvXKeys] has closed the gap: the next key, or, for the last
    slot, which is not written, the same one. *)
Definition slot_after (ks : list K) (i : nat) : option K :=
  match ks !! S i with Some k => Some k | None => ks !! i end.

(** [CREATE_RETURN_DELETED_KEY] for the key [kp] of a slot: the copy holds what
    the slot contains now, an address gives what it will contain. *)
Definition return_deleted_key (kp : K) (now later : option K) : option (option K) :=
  match key_rep with
  | REP_WORD => Some (Some kp)
  | REP_COPIED => Some now
  | REP_SLOT => Some later
  | REP_BAD => None
  end.

(** [dwd.k = kp]: [kp] was taken from slot [i] of [x], which now holds [k2]. *)
Definition swap_back (kp : K) (x x' : bt_n K) (k2 : K) : option K :=
  if by_address key_rep then if reallocated x x' then None else Some k2 else Some kp.

(** [case_2c_ptr = KEYS(btr, x, i)], read when the deletion is over: slot [i] has
    been closed, and a root left without keys has been freed (only the root can
    have had one key). *)
Definition key_2c (x : bt_n K) (i : nat) : option K :=
  if by_address key_rep then
    if (n_keys x =? 1)%nat then None else slot_after (keys x) i
  else keys x !! i.

(** Case 1: [x] is a leaf. *)
Definition delete_leaf (x : bt_n K) (s : dk K) (i : Z) (drt : bool) (c2 : option (option K))
  : option (dwd_t K) :=
  let i := match s with DK_2B => i + 1 | _ => i end in
  if i <? 0 then None
  else
    let i := Z.to_nat i in
    kp ← keys x !! i;
    dr ← getDR (ds x) i;
    '(x1, pend, rgst) ←
      (if drt then
         if is_none s then '(x1, p) ← incrPrevDR x i (dr + 1); Some (x1, p, false)
         else Some (decr_scion x (1 + dr), 0, false)
       else if is_none s then
         if dr =? 0 then Some (x, 0, false)
         else if is_inode then '(x1, p) ← incrPrevDR x i dr; Some (x1, p, false)
         else x1 ← replaceKeyWithGhost x i kp dr; Some (x1, 0, true)
       else Some (if dr =? 0 then x else decr_scion x dr, 0, false));
    kd ← return_deleted_key kp (Some kp)
           (if reallocated x x1 then None
            else if (rgst : bool) then keys x1 !! i else slot_after (keys x1) i);
    if (rgst : bool) then Some (Dwd x1 kd dr pend c2)
    else
      d ← mvDR t true (ds x1) i (i + 1) (n_keys x1 - i - 1);
      d ← trim_dr t drt true d (n_keys x1);
      Some (Dwd (set_keys (set_ds x1 d) (del_at i (keys x1))) kd dr pend c2).

(** Case 3a1: a key from the left sibling [y] of the child [xp] at slot [i]. *)
Definition case_3a1 (drt : bool) (x : bt_n K) (i : nat) (y xp : bt_n K) : option (bt_n K) :=
  let ny := n_keys y in
  dxp ← mvDR t (leaf xp) (ds xp) 1 0 (n_keys xp);
  drx ← getDR (ds x) (i - 1);
  let xp := incr_scion xp (1 + drx) in
  '(dxp, dx) ← mv_key_dr t drt (leaf xp) false dxp 0 (ds x) (i - 1);
  kx ← keys x !! (i - 1)%nat;
  dry ← getDR (ds y) (ny - 1);
  let y := decr_scion y (1 + dry) in
  '(dx, dy) ← mv_key_dr t drt false (leaf y) dx (i - 1) (ds y) (ny - 1);
  ky ← keys y !! (ny - 1)%nat;
  '(xp, y) ←
    (if leaf xp then Some (xp, y)
     else
       c ← nodes y !! ny;
       Some (set_nodes (incr_scion xp (scion c)) (c :: nodes xp),
             set_nodes (decr_scion y (scion c)) (take ny (nodes y))));
  dy ← trim_dr t drt (leaf y) dy ny;
  let xp := set_keys (set_ds xp dxp) (kx :: keys xp) in
  let y := set_keys (set_ds y dy) (take (ny - 1) (keys y)) in
  Some (set_nodes (setBTKeyRaw (set_ds x dx) (i - 1) ky)
                  (<[(i - 1)%nat := y]> (<[i := xp]> (nodes x)))).

(** Case 3a2: a key from the right sibling [y]. *)
Definition case_3a2 (drt : bool) (x : bt_n K) (i : nat) (xp y : bt_n K) : option (bt_n K) :=
  let ny := n_keys y in
  drx ← getDR (ds x) i;
  let xp := incr_scion xp (1 + drx) in
  '(dxp, dx) ← mv_key_dr t drt (leaf xp) false (ds xp) (n_keys xp) (ds x) i;
  kx ← keys x !! i;
  dry ← getDR (ds y) 0;
  let y := decr_scion y (1 + dry) in
  '(dx, dy) ← mv_key_dr t drt false (leaf y) dx i (ds y) 0;
  ky ← keys y !! 0%nat;
  '(xp, y) ←
    (if leaf xp then Some (xp, y)
     else
       c ← nodes y !! 0%nat;
       Some (set_nodes (incr_scion xp (scion c)) (nodes xp ++ [c]),
             set_nodes (decr_scion y (scion c)) (tail (nodes y))));
  dy ← mvDR t (leaf y) dy 0 1 (ny - 1);
  dy ← trim_dr t drt (leaf y) dy ny;
  let xp := set_keys (set_ds xp dxp) (keys xp ++ [kx]) in
  let y := set_keys (set_ds y dy) (tail (keys y)) in
  Some (set_nodes (setBTKeyRaw (set_ds x dx) i ky)
                  (<[(i + 1)%nat := y]> (<[i := xp]> (nodes x)))).

(** The end of every merge: [z] appended to [y] behind the separator, and the
    separator and [z] removed from [x]. *)
Definition append_node (drt : bool) (x : bt_n K) (dx : dstream) (j : nat)
    (y : bt_n K) (dy : dstream) (sep : K) (z : bt_n K) : option (bt_n K) :=
  zr ← get_scion_range (ds z) 0 (n_keys z);
  let y := incr_scion y zr in
  '(dy, _) ← mvDR2 t (leaf y) (leaf z) dy (ds z) (n_keys y + 1) 0 (n_keys z);
  let y := if leaf y then y else set_nodes (move_scion y (nodes z)) (nodes y ++ nodes z) in
  let y := set_keys (set_ds y dy) (keys y ++ sep :: keys z) in
  dx ← mvDR t false dx j (j + 1) (n_keys x - j - 1);
  dx ← trim_dr t drt false dx (n_keys x);
  Some (set_nodes (set_keys (set_ds x dx) (del_at j (keys x)))
                  (del_at (j + 1) (<[j := y]> (nodes x)))).

(** Cases 3b1 and 3b2: merge the children [y] and [z] around key [j]. *)
Definition case_3b (drt : bool) (x : bt_n K) (j : nat) (y z : bt_n K) : option (bt_n K) :=
  drx ← getDR (ds x) j;
  let y := incr_scion y (1 + drx) in
  '(dy, dx) ← mv_key_dr t drt (leaf y) false (ds y) (n_keys y) (ds x) j;
  kx ← keys x !! j;
  append_node drt x dx j y dy kx z.

(** Case 2c: the key sought goes down in place of the key found. *)
Definition case_2c (drt : bool) (x : bt_n K) (i : nat) (k : K) (y z : bt_n K)
  : option (bt_n K) :=
  drx ← getDR (ds x) i;
  let y := incr_scion y (1 + drx) in
  dy ← setDR t (leaf y) (ds y) (n_keys y) drx;
  append_node drt x (ds x) i y dy k z.

(** Case 3 up to the recursive call: [x] and the slot of the child to enter. *)
Definition case_3 (drt : bool) (x : bt_n K) (i : nat) : option (bt_n K * nat) :=
  xp ← nodes x !! i;
  if negb (n_keys xp =? t - 1)%nat then Some (x, i)
  else
    let left := if (0 <? i)%nat then nodes x !! (i - 1)%nat else None in
    let right := if (i <? n_keys x)%nat then nodes x !! (i + 1)%nat else None in
    let has (o : option (bt_n K)) (p : nat -> bool) : option (bt_n K) :=
      y ← o; if p (n_keys y) then Some y else None in
    match has left (Nat.leb t), has right (Nat.leb t),
          has left (Nat.eqb (t - 1)), has right (Nat.eqb (t - 1)) with
    | Some y, _, _, _ => x' ← case_3a1 drt x i y xp; Some (x', i)
    | None, Some y, _, _ => x' ← case_3a2 drt x i xp y; Some (x', i)
    | None, None, Some y, _ => x' ← case_3b drt x (i - 1) y xp; Some (x', (i - 1)%nat)
    | None, None, None, Some y => x' ← case_3b drt x i xp y; Some (x', i)
    | None, None, None, None => Some (x, i)
    end.

(** Store the child back and absorb a pending counter. *)
Definition return_child (drt : bool) (x : bt_n K) (i : nat) (res : dwd_t K)
  : option (dwd_t K) :=
  let x := set_nodes x (<[i := dwd_x res]> (nodes x)) in
  if dwd_pend res =? 0 then Some (Dwd x (dwd_k res) (dwd_dr res) 0 (dwd_2c res))
  else match i with
       | O => Some (Dwd x (dwd_k res) (dwd_dr res) (dwd_pend res) (dwd_2c res))
       | S j =>
           if drt then
             d ← incrDR t false (ds x) j (dwd_pend res);
             Some (Dwd (set_ds x d) (dwd_k res) (dwd_dr res) 0 (dwd_2c res))
           else None
       end.

(** A [case_2c_ptr] set in this call points into [x]. *)
Definition keep_2c (c2 : option (option K)) (x : bt_n K) (r : dwd_t K) : dwd_t K :=
  match c2 with
  | None =>
      if by_address key_rep && reallocated x (dwd_x r)
      then Dwd (dwd_x r) (dwd_k r) (dwd_dr r) (dwd_pend r) (Some None) else r
  | Some _ => r
  end.

Fixpoint deletekey (fuel : nat) (x : bt_n K) (s : dk K) (drt : bool)
    (c2 : option (option K))
  : option (dwd_t K) :=
  match fuel with
  | O => None
  | S fuel' =>
      '(i, r) ←
        match s with
        | DK_NONE k => findkindex nbits (keys x) k (-1)
        | DK_2A => Some (Z.of_nat (n_keys x) - 1, if leaf x then 0 else 1)
        | DK_2B => Some (-1, if leaf x then 0 else -1)
        end;
      let x := if drt then x else decr_scion x 1 in
      if leaf x then delete_leaf x s i drt c2
      else match s, r =? 0 with
      | DK_NONE k, true =>
          let i := Z.to_nat i in
          kp ← keys x !! i;
          dri ← getDR (ds x) i;
          if negb drt && negb (dri =? 0) then
            x' ← replaceKeyWithGhost x i kp dri;
            kd ← return_deleted_key kp (keys x' !! i) (keys x' !! i);
            Some (Dwd x' kd dri 0 c2)
          else
            y ← nodes x !! i;
            z ← nodes x !! (i + 1)%nat;
            if (t <=? n_keys y)%nat then (* 2a *)
              res ← deletekey fuel' y DK_2A drt c2;
              let x := set_nodes x (<[i := dwd_x res]> (nodes x)) in
              let dr := if drt then dwd_dr res + 1 else dwd_dr res in
              d ← (if drt then incrDR t false (ds x) i dr else setDR t false (ds x) i dr);
              k2 ← dwd_k res;
              let x' := setBTKeyRaw (set_ds x d) i k2 in
              Some (Dwd x' (swap_back kp x x' k2) dr 0 (dwd_2c res))
            else if (t <=? n_keys z)%nat then (* 2b *)
              res ← deletekey fuel' z DK_2B drt c2;
              let x := set_nodes x (<[(i + 1)%nat := dwd_x res]> (nodes x)) in
              x ← (if drt then
                     y' ← incrCase2B (S (height y)) y (dri + 1);
                     Some (set_nodes x (<[i := y']> (nodes x)))
                   else Some x);
              d ← overwriteDR t false (ds x) i (dwd_dr res);
              k2 ← dwd_k res;
              let x' := setBTKeyRaw (set_ds x d) i k2 in
              Some (Dwd x' (swap_back kp x x' k2) (dwd_dr res) 0 (dwd_2c res))
            else if (n_keys y =? t - 1)%nat && (n_keys z =? t - 1)%nat then (* 2c *)
              let c2' := match c2 with Some q => Some q | None => Some (key_2c x i) end in
              x ← case_2c drt x i k y z;
              c ← nodes x !! i;
              res ← deletekey fuel' c s drt c2';
              r ← return_child drt x i res;
              Some (keep_2c c2 x r)
            else None
      | _, _ =>
          '(x, i) ← case_3 drt x (Z.to_nat (i + 1));
          c ← nodes x !! i;
          res ← deletekey fuel' c s drt c2;
          let x := if is_none s then x
                   else decr_scion x (if drt then 1 + dwd_dr res else dwd_dr res) in
          return_child drt x i res
      end
  end.

Definition remove_key (btr : bt K) (k : K) (drt : bool) : option (bt K * option K * Z) :=
  res ← deletekey (S (height (root btr))) (root btr) (DK_NONE k) drt None;
  let x := dwd_x res in
  x ← (if (n_keys x =? 0)%nat && negb (leaf x) then nodes x !! 0%nat else Some x);
  let k' := match dwd_2c res with Some q => q | None => dwd_k res end in
  Some (Bt x (u32 (numkeys btr - 1)) (u32 (dirty_left btr + dwd_pend res))
           (bdirty btr || drt || negb (dwd_pend res =? 0)),
        k', dwd_dr res).

(** [bt_delete] returns a key and its counter, [bt_evict] a key: the removed one
    in a tree of words, else whatever the address returned gives. *)
Definition bt_delete (btr : bt K) (k : K) : option (bt K * option K * Z) := remove_key btr k false.
Definition bt_evict (btr : bt K) (k : K) : option (bt K * option K) :=
  '(btr', k', _) ← remove_key btr k true; Some (btr', k').
End Delete.

(** ** Lemmas: the helpers on trees without evicted rows *)

(** Run a chain of stream operations on clean streams. *)
Ltac run_clean :=
  repeat (first
    [ rewrite mvDR_clean by done | rewrite getDR_clean by done
    | rewrite mv_key_dr_clean by done | rewrite trim_dr_clean by done
    | rewrite mvDR2_clean by done | rewrite get_scion_range_clean by done
    | rewrite overwriteDR_clean by done ]; cbn [mbind option_bind]).

Section DeleteHelpers.
Context {K : Type} `{KeyOrderLaws K} (t : nat) (Ht : (2 <= t)%nat).

Lemma wf_explicit lo h (x : bt_n K) :
  wf t lo h x -> exists s d ks ns,
    x = Node (match h with O => true | S _ => false end) s d ks ns /\ clean d /\
    s = u32 (Z.of_nat (length ks) + total ns) /\ (lo <= length ks <= 2 * t - 1)%nat /\
    match h with
    | O => ns = []
    | S h' => length ns = S (length ks) /\ Forall (wf t (t - 1) h') ns
    end.
Proof.
  intros Hx. pose proof (wf_leaf t _ _ _ Hx) as Hl. pose proof (wf_scion t _ _ _ Hx) as Hs.
  rewrite (length_inorder t _ _ _ Hx) in Hs.
  apply wf_unfold in Hx as (Hn & Hd & _ & Hh).
  destruct x as [l s d ks ns]. nsimpl. exists s, d, ks, ns. subst l.
  split_and!; try done; [lia..|]. destruct h; tauto.
Qed.

(** Assembling a node of any height. *)
Lemma wf_build lo h s d (ks : list K) ns :
  (lo <= length ks <= 2 * t - 1)%nat -> clean d -> s = u32 (Z.of_nat (length ks) + total ns) ->
  match h with
  | O => ns = []
  | S h' => length ns = S (length ks) /\ Forall (wf t (t - 1) h') ns
  end ->
  wf t lo h (Node (match h with O => true | S _ => false end) s d ks ns).
Proof.
  intros Hn Hd Hs Hh. destruct h as [|h].
  - subst ns. apply wf_leaf_build; try done. rewrite Hs. f_equal. unfold total. cbn. lia.
  - destruct Hh. by apply wf_node_build.
Qed.

Lemma total_cons (c : bt_n K) ns : total (c :: ns) = Z.of_nat (length (inorder c)) + total ns.
Proof. unfold total. cbn. lia. Qed.

(** A merge: the left node with the separator and the right node behind it. *)
Lemma append_node_spec h sx dx (k1 k2 : list K) (a sep : K) n1 n2 y z :
  clean dx -> length n1 = length k1 ->
  wf t (t - 1) h y -> wf t (t - 1) h z ->
  n_keys y = (t - 1)%nat -> n_keys z = (t - 1)%nat ->
  exists c,
    append_node t false (Node false sx dx (k1 ++ a :: k2) (n1 ++ y :: z :: n2)) dx (length k1)
      (incr_scion y (1 + 0)) (ds y) sep z
    = Some (Node false sx dx (k1 ++ k2) (n1 ++ c :: n2)) /\
    wf t (t - 1) h c /\ n_keys c = (2 * t - 1)%nat /\
    inorder c = inorder y ++ sep :: inorder z.
Proof.
  intros Hdx Hl Hy Hz Ny Nz.
  destruct (wf_explicit _ _ _ Hy) as (sy & dy & ky & ny & Ey & Hdy & Esy & _ & Hhy).
  destruct (wf_explicit _ _ _ Hz) as (sz & dz & kz & nz & Ez & Hdz & Esz & _ & Hhz).
  subst y z. nsimpl.
  assert (Hq : exists q, scions nz = total nz + q * 2 ^ 32).
  { destruct h; [subst nz; by exists 0|]. by eapply scions_total, Hhz. }
  destruct Hq as [q Hq].
  assert (Hsurg : forall c y0 z0, del_at (length k1 + 1)
    (<[length k1 := c]> (n1 ++ y0 :: z0 :: n2)) = n1 ++ c :: n2).
  { intros c y0 z0. rewrite insert_app_mid by done.
    replace (n1 ++ c :: z0 :: n2) with ((n1 ++ [c]) ++ z0 :: n2) by by rewrite <- app_assoc.
    rewrite del_at_app by len_lia. by rewrite <- app_assoc. }
  unfold append_node. nsimpl. run_clean.
  rewrite del_at_app by done. rewrite Hsurg.
  eexists. split; [done|]. clear Hsurg Hy Hz.
  destruct h as [|h].
  - subst ny nz. nsimpl. split_and!; [|len_lia|done].
    apply wf_leaf_build; [len_lia|done|].
    rewrite Nz, length_app. simpl. rewrite Ny, Nz. unfold total in Esy. cbn in Esy.
    clear -Esy Ny Ht. u32_lia.
  - destruct Hhy as [Ly Fy], Hhz as [Lz Fz]. rewrite move_scion_eq. nsimpl.
    split_and!; [|len_lia|].
    + apply wf_node_build; [len_lia|done| |len_lia|by apply Forall_app].
      rewrite total_app, length_app. cbn [length]. rewrite Ny, Nz.
      clear -Esy Ny Ht Hq. u32_lia.
    + rewrite !inorder_Node, map_app. apply flat_cut; [rewrite length_map; lia|].
      by destruct nz.
Qed.

(** A key through the parent from the left sibling. *)
Lemma case_3a1_spec h sx dx (k1 k2 : list K) kx n1 n2 y xp :
  clean dx -> length n1 = length k1 ->
  wf t (t - 1) h y -> wf t (t - 1) h xp ->
  (t <= n_keys y)%nat -> n_keys xp = (t - 1)%nat ->
  exists y' xp' ky sub,
    case_3a1 t false (Node false sx dx (k1 ++ kx :: k2) (n1 ++ y :: xp :: n2))
      (S (length k1)) y xp
    = Some (Node false sx dx (k1 ++ ky :: k2) (n1 ++ y' :: xp' :: n2)) /\
    wf t (t - 1) h y' /\ wf t (t - 1) h xp' /\ n_keys xp' = t /\
    inorder y = inorder y' ++ ky :: sub /\ inorder xp' = sub ++ kx :: inorder xp.
Proof.
  intros Hdx Hl Hy Hxp Ny Nxp.
  destruct (wf_explicit _ _ _ Hy) as (sy & dy & ky & ny & -> & Hdy & Esy & Ly & Hhy).
  destruct (wf_explicit _ _ _ Hxp) as (sp & dp & kp & np & -> & Hdp & Esp & _ & Hhp).
  nsimpl. clear Hy Hxp.
  destruct ky as [|kl ky _] using rev_ind; [simpl in *; lia|].
  rewrite length_app in *. simpl in Ny, Ly, Esy, Hhy.
  unfold case_3a1. nsimpl. run_clean. rewrite length_app. cbn [length].
  replace (S (length k1) - 1)%nat with (length k1) by lia.
  replace (length ky + 1 - 1)%nat with (length ky) by lia.
  rewrite list_lookup_middle by done. cbn [mbind option_bind]. run_clean.
  rewrite list_lookup_middle by done. cbn [mbind option_bind].
  assert (Hsurg : forall y0 x0 y' x' : bt_n K, <[length k1 := y']> (<[S (length k1) := x']>
    (n1 ++ y0 :: x0 :: n2)) = n1 ++ y' :: x' :: n2).
  { intros y0 x0 y' x'.
    replace (n1 ++ y0 :: x0 :: n2) with ((n1 ++ [y0]) ++ x0 :: n2) by by rewrite <- app_assoc.
    rewrite insert_app_mid by len_lia. rewrite <- app_assoc. cbn [app].
    by rewrite insert_app_mid. }
  unfold setBTKeyRaw. nsimpl.
  destruct h as [|h].
  - subst ny np. nsimpl. cbn [mbind option_bind]. run_clean. nsimpl.
    rewrite Hsurg, insert_app_mid, take_app_length by done.
    do 3 eexists. exists []. split; [done|]. unfold total in *. cbn in Esy, Esp.
    split_and!; [| |simpl; lia|done|done]; apply wf_leaf_build; try done; try (simpl; lia).
    + clear -Esy. u32_lia.
    + simpl. clear -Esp. u32_lia.
  - destruct Hhy as [Lny Fy], Hhp as [Lnp Fp].
    destruct ny as [|c ny _] using rev_ind; [done|].
    rewrite length_app in *. simpl in Lny. nsimpl.
    rewrite list_lookup_middle by lia. cbn [mbind option_bind]. nsimpl. run_clean. nsimpl.
    rewrite Hsurg, insert_app_mid, take_app_length, take_app_length' by lia.
    apply Forall_app in Fy as [Fy Fc]. apply Forall_cons in Fc as [Fc _].
    pose proof (wf_scion t _ _ _ Fc) as Ec. rewrite total_app in Esy. unfold total at 2 in Esy.
    cbn in Esy.
    do 3 eexists. exists (inorder c). split; [done|].
    split_and!; [| |simpl; lia| |].
    + apply wf_node_build; try done; [lia| |lia]. clear -Esy Ec. u32_lia.
    + apply wf_node_build; try done; [simpl; lia| |simpl; lia|by constructor].
      rewrite total_cons. simpl. clear -Esp Ec. u32_lia.
    + rewrite !inorder_Node, map_app. rewrite flat_cut; [|rewrite length_map; lia|done].
      cbn. by rewrite app_nil_r.
    + rewrite !inorder_Node. cbn [map]. destruct np as [|c0 np]; [done|].
      cbn [map flat]. by rewrite zipr_cons.
Qed.

(** ... and from the right sibling. *)
Lemma case_3a2_spec h sx dx (k1 k2 : list K) kx n1 n2 xp y :
  clean dx -> length n1 = length k1 ->
  wf t (t - 1) h xp -> wf t (t - 1) h y ->
  (t <= n_keys y)%nat -> n_keys xp = (t - 1)%nat ->
  exists xp' y' ky sub,
    case_3a2 t false (Node false sx dx (k1 ++ kx :: k2) (n1 ++ xp :: y :: n2)) (length k1) xp y
    = Some (Node false sx dx (k1 ++ ky :: k2) (n1 ++ xp' :: y' :: n2)) /\
    wf t (t - 1) h y' /\ wf t (t - 1) h xp' /\ n_keys xp' = t /\
    inorder y = sub ++ ky :: inorder y' /\ inorder xp' = inorder xp ++ kx :: sub.
Proof.
  intros Hdx Hl Hxp Hy Ny Nxp.
  destruct (wf_explicit _ _ _ Hy) as (sy & dy & ky & ny & -> & Hdy & Esy & Ly & Hhy).
  destruct (wf_explicit _ _ _ Hxp) as (sp & dp & kp & np & -> & Hdp & Esp & _ & Hhp).
  nsimpl. clear Hy Hxp.
  destruct ky as [|kf ky]; [simpl in *; lia|]. simpl in Ny, Ly, Esy, Hhy.
  unfold case_3a2. nsimpl. run_clean.
  rewrite list_lookup_middle by done. cbn [mbind option_bind]. run_clean.
  cbn [lookup list_lookup mbind option_bind tail].
  assert (Hsurg : forall y0 x0 y' x' : bt_n K, <[(length k1 + 1)%nat := y']>
    (<[length k1 := x']> (n1 ++ x0 :: y0 :: n2)) = n1 ++ x' :: y' :: n2).
  { intros y0 x0 y' x'. rewrite insert_app_mid by done.
    replace (n1 ++ x' :: y0 :: n2) with ((n1 ++ [x']) ++ y0 :: n2) by by rewrite <- app_assoc.
    rewrite insert_app_mid by len_lia. by rewrite <- app_assoc. }
  unfold setBTKeyRaw. nsimpl.
  destruct h as [|h].
  - subst ny np. nsimpl. cbn [mbind option_bind]. run_clean. nsimpl.
    rewrite Hsurg, insert_app_mid by done.
    do 3 eexists. exists []. split; [done|]. unfold total in *. cbn in Esy, Esp.
    split_and!; [| |nsimpl; len_lia|done|done]; apply wf_leaf_build; try done; try len_lia.
    + cbn [tail]. clear -Esy. u32_lia.
    + rewrite length_app. simpl. clear -Esp. u32_lia.
  - destruct Hhy as [Lny Fy], Hhp as [Lnp Fp].
    destruct ny as [|c ny]; [done|]. simpl in Lny. nsimpl.
    cbn [lookup list_lookup mbind option_bind tail]. nsimpl. run_clean. nsimpl.
    rewrite Hsurg, insert_app_mid by done. cbn [tail].
    apply Forall_cons in Fy as [Fc Fy].
    pose proof (wf_scion t _ _ _ Fc) as Ec. rewrite total_cons in Esy.
    do 3 eexists. exists (inorder c). split; [done|].
    split_and!; [| |nsimpl; len_lia| |].
    + apply wf_node_build; try done; [lia| |lia]. clear -Esy Ec. u32_lia.
    + apply wf_node_build; try done; [len_lia| |len_lia|].
      * rewrite total_app, total_cons, length_app. unfold total at 2. simpl.
        clear -Esp Ec. u32_lia.
      * apply Forall_app. split; [done|]. by constructor.
    + rewrite !inorder_Node. cbn [map]. destruct ny as [|c0 ny]; [done|].
      cbn [map flat]. by rewrite zipr_cons.
    + rewrite !inorder_Node, map_app. rewrite flat_cut; [|rewrite length_map; lia|done].
      cbn. by rewrite app_nil_r.
Qed.

Lemma case_3b_spec h sx dx (k1 k2 : list K) a n1 n2 y z :
  clean dx -> length n1 = length k1 ->
  wf t (t - 1) h y -> wf t (t - 1) h z ->
  n_keys y = (t - 1)%nat -> n_keys z = (t - 1)%nat ->
  exists c,
    case_3b t false (Node false sx dx (k1 ++ a :: k2) (n1 ++ y :: z :: n2)) (length k1) y z
    = Some (Node false sx dx (k1 ++ k2) (n1 ++ c :: n2)) /\
    wf t (t - 1) h c /\ n_keys c = (2 * t - 1)%nat /\
    inorder c = inorder y ++ a :: inorder z.
Proof.
  intros Hdx Hl Hy Hz Ny Nz. unfold case_3b.
  assert (clean (ds y)) by by eapply wf_clean. nsimpl. run_clean.
  replace (ds (incr_scion y (1 + 0))) with (ds y) by by destruct y. run_clean.
  rewrite list_lookup_middle by done. cbn [mbind option_bind].
  eapply append_node_spec; eauto.
Qed.

Lemma case_2c_spec h sx dx (k1 k2 : list K) a k n1 n2 y z :
  clean dx -> length n1 = length k1 ->
  wf t (t - 1) h y -> wf t (t - 1) h z ->
  n_keys y = (t - 1)%nat -> n_keys z = (t - 1)%nat ->
  exists c,
    case_2c t false (Node false sx dx (k1 ++ a :: k2) (n1 ++ y :: z :: n2)) (length k1) k y z
    = Some (Node false sx dx (k1 ++ k2) (n1 ++ c :: n2)) /\
    wf t (t - 1) h c /\ n_keys c = (2 * t - 1)%nat /\
    inorder c = inorder y ++ k :: inorder z.
Proof.
  intros Hdx Hl Hy Hz Ny Nz. unfold case_2c. nsimpl. run_clean.
  replace (ds (incr_scion y (1 + 0))) with (ds y) by by destruct y.
  unfold setDR. cbn [Z.eqb mbind option_bind].
  eapply append_node_spec; eauto.
Qed.

(** What case 3 leaves: a child [c] to enter with at least [t] keys that holds
    the keys of [xp] and those moved in around them. *)
Definition topped_up (h : nat) (x : bt_n K) (ka kb : list K) (na nb : list (bt_n K))
    (xp : bt_n K) (res : option (bt_n K * nat)) : Prop :=
  exists ka' kb' na' c nb' u v,
    res = Some (Node false (scion x) (ds x) (ka' ++ kb') (na' ++ c :: nb'), length na') /\
    length na' = length ka' /\ length kb' = length nb' /\
    Forall (wf t (t - 1) h) na' /\ Forall (wf t (t - 1) h) nb' /\ wf t (t - 1) h c /\
    (t <= n_keys c)%nat /\
    (length ka + length kb - 1 <= length ka' + length kb' <= length ka + length kb)%nat /\
    zipl (map inorder na) ka = zipl (map inorder na') ka' ++ u /\
    zipr kb (map inorder nb) = v ++ zipr kb' (map inorder nb') /\
    inorder c = u ++ inorder xp ++ v.

Lemma zipl_snoc (n : list (bt_n K)) ks y k :
  length n = length ks ->
  zipl (map inorder (n ++ [y])) (ks ++ [k]) = zipl (map inorder n) ks ++ inorder y ++ [k].
Proof.
  intros Hl. rewrite map_app, zipl_app by (rewrite length_map; lia). f_equal.
  unfold zipl. cbn. by rewrite app_nil_r.
Qed.

(** With the left sibling [y]: rotate when it has a key to spare, or merge. *)
Lemma topped_left_rot h sx dx ka kx kb na y nb xp :
  clean dx -> length na = length ka -> length kb = length nb ->
  Forall (wf t (t - 1) h) na -> Forall (wf t (t - 1) h) nb ->
  wf t (t - 1) h y -> wf t (t - 1) h xp -> n_keys xp = (t - 1)%nat -> (t <= n_keys y)%nat ->
  let x := Node false sx dx ((ka ++ [kx]) ++ kb) ((na ++ [y]) ++ xp :: nb) in
  topped_up h x (ka ++ [kx]) kb (na ++ [y]) nb xp
    (x' ← case_3a1 t false x (S (length ka)) y xp; Some (x', S (length ka))).
Proof.
  intros Hdx Hla Hlb Fa Fb Hy Hxp Nxp Ny x.
  destruct (case_3a1_spec h sx dx ka kb kx na nb y xp) as (y' & xp' & ky & sub & E & W1 & W2 & N & I1 & I2);
    try done.
  unfold x. rewrite <- !app_assoc. cbn [app]. rewrite E. cbn [mbind option_bind].
  exists (ka ++ [ky]), kb, (na ++ [y']), xp', nb, (sub ++ [kx]), [].
  rewrite !zipl_snoc, I1, I2, !length_app by lia. rewrite <- !app_assoc. cbn [app].
  split_and!; try done; try (cbn; lia).
  - do 2 f_equal. cbn. lia.
  - apply Forall_app. split; [done|]. by constructor.
  - by rewrite app_nil_r.
Qed.

Lemma topped_left_merge h sx dx ka kx kb na y nb xp :
  clean dx -> length na = length ka -> length kb = length nb ->
  Forall (wf t (t - 1) h) na -> Forall (wf t (t - 1) h) nb ->
  wf t (t - 1) h y -> wf t (t - 1) h xp -> n_keys xp = (t - 1)%nat -> n_keys y = (t - 1)%nat ->
  let x := Node false sx dx ((ka ++ [kx]) ++ kb) ((na ++ [y]) ++ xp :: nb) in
  topped_up h x (ka ++ [kx]) kb (na ++ [y]) nb xp
    (x' ← case_3b t false x (length ka) y xp; Some (x', length ka)).
Proof.
  intros Hdx Hla Hlb Fa Fb Hy Hxp Nxp Ny x.
  destruct (case_3b_spec h sx dx ka kb kx na nb y xp) as (c & E & W & N & I); try done.
  unfold x. rewrite <- !app_assoc. cbn [app]. rewrite E. cbn [mbind option_bind].
  exists ka, kb, na, c, nb, (inorder y ++ [kx]), [].
  rewrite !zipl_snoc, I, !length_app by lia. rewrite <- !app_assoc. cbn [app].
  split_and!; try done; try (cbn; lia); by rewrite ?app_nil_r, ?Hla.
Qed.

Lemma topped_right_rot h sx dx ka kx kb na y nb xp :
  clean dx -> length na = length ka -> length kb = length nb ->
  Forall (wf t (t - 1) h) na -> Forall (wf t (t - 1) h) nb ->
  wf t (t - 1) h y -> wf t (t - 1) h xp -> n_keys xp = (t - 1)%nat -> (t <= n_keys y)%nat ->
  let x := Node false sx dx (ka ++ kx :: kb) (na ++ xp :: y :: nb) in
  topped_up h x ka (kx :: kb) na (y :: nb) xp
    (x' ← case_3a2 t false x (length ka) xp y; Some (x', length ka)).
Proof.
  intros Hdx Hla Hlb Fa Fb Hy Hxp Nxp Ny x.
  destruct (case_3a2_spec h sx dx ka kb kx na nb xp y) as (xp' & y' & ky & sub & E & W1 & W2 & N & I1 & I2);
    try done.
  unfold x. rewrite E. cbn [mbind option_bind].
  exists ka, (ky :: kb), na, xp', (y' :: nb), [], (kx :: sub).
  cbn [map]. rewrite !zipr_cons, I1, I2. cbn [app length]. rewrite <- !app_assoc.
  split_and!; try done; try lia; rewrite ?app_nil_r, ?Hla; try done; by constructor.
Qed.

Lemma topped_right_merge h sx dx ka kx kb na y nb xp :
  clean dx -> length na = length ka -> length kb = length nb ->
  Forall (wf t (t - 1) h) na -> Forall (wf t (t - 1) h) nb ->
  wf t (t - 1) h y -> wf t (t - 1) h xp -> n_keys xp = (t - 1)%nat -> n_keys y = (t - 1)%nat ->
  let x := Node false sx dx (ka ++ kx :: kb) (na ++ xp :: y :: nb) in
  topped_up h x ka (kx :: kb) na (y :: nb) xp
    (x' ← case_3b t false x (length ka) xp y; Some (x', length ka)).
Proof.
  intros Hdx Hla Hlb Fa Fb Hy Hxp Nxp Ny x.
  destruct (case_3b_spec h sx dx ka kb kx na nb xp y) as (c & E & W & N & I); try done.
  unfold x. rewrite E. cbn [mbind option_bind].
  exists ka, kb, na, c, nb, [], (kx :: inorder y).
  cbn [map]. rewrite !zipr_cons, I. cbn [app length].
  split_and!; try done; try lia; by rewrite ?app_nil_r, ?Hla.
Qed.

Lemma case_3_spec h sx dx ka kb na nb xp :
  clean dx -> length na = length ka -> length kb = length nb -> (1 <= length (ka ++ kb))%nat ->
  Forall (wf t (t - 1) h) na -> Forall (wf t (t - 1) h) nb -> wf t (t - 1) h xp ->
  let x := Node false sx dx (ka ++ kb) (na ++ xp :: nb) in
  topped_up h x ka kb na nb xp (case_3 t false x (length ka)).
Proof.
  intros Hdx Hla Hlb Hn Fa Fb Hxp x. unfold case_3. subst x. nsimpl.
  rewrite (list_lookup_middle na nb xp (length ka)) by done. cbn [mbind option_bind].
  destruct (Nat.eqb_spec (length (keys xp)) (t - 1)) as [Nxp|Nxp]; cbn [negb].
  2:{ exists ka, kb, na, xp, nb, [], []. apply wf_keys in Hxp as Hk. unfold n_keys in *.
      split_and!; try done; try lia; by rewrite ?app_nil_r, ?Hla. }
  set (left := if (0 <? length ka)%nat then _ else _).
  set (right := if (length ka <? _)%nat then _ else _).
  assert (Hleft : (ka = [] /\ left = None) \/ exists ka0 kx na0 y, ka = ka0 ++ [kx] /\
    na = na0 ++ [y] /\ length na0 = length ka0 /\ left = Some y).
  { destruct ka as [|kx ka0 _] using rev_ind; [by left|]. right.
    destruct na as [|y na0 _] using rev_ind; [rewrite length_app in Hla; simpl in Hla; lia|].
    exists ka0, kx, na0, y. rewrite !length_app in Hla. simpl in Hla.
    split_and!; try done; [lia|]. unfold left. rewrite length_app. cbn [length].
    destruct (Nat.ltb_spec 0 (length ka0 + 1)); [|lia].
    replace (length ka0 + 1 - 1)%nat with (length na0) by lia.
    rewrite <- app_assoc. by apply list_lookup_middle. }
  assert (Hright : (kb = [] /\ right = None) \/ exists kx kb0 y nb0, kb = kx :: kb0 /\
    nb = y :: nb0 /\ right = Some y).
  { destruct kb as [|kx kb0], nb as [|y nb0]; try done.
    - left. split; [done|]. unfold right. rewrite app_nil_r.
      destruct (Nat.ltb_spec (length ka) (length ka)); [lia|done].
    - right. exists kx, kb0, y, nb0. split_and!; try done. unfold right.
      rewrite length_app. cbn [length].
      destruct (Nat.ltb_spec (length ka) (length ka + S (length kb0))); [|lia].
      replace (na ++ xp :: y :: nb0) with ((na ++ [xp]) ++ y :: nb0) by by rewrite <- app_assoc.
      apply list_lookup_middle. len_lia. }
  clearbody left right.
  assert (Hsib : forall y : bt_n K, wf t (t - 1) h y -> (t <=? length (keys y))%nat = true \/
    (t <=? length (keys y))%nat = false /\ (t - 1 =? length (keys y))%nat = true /\
    length (keys y) = (t - 1)%nat).
  { intros y Hy. apply wf_keys in Hy. unfold n_keys in Hy.
    destruct (Nat.leb_spec t (length (keys y))); [by left|right].
    destruct (Nat.eqb_spec (t - 1) (length (keys y))); [split_and!; auto; lia|lia]. }
  destruct Hleft as [[-> ->]|(ka0 & kx & na0 & y & -> & -> & Hl0 & ->)].
  - destruct na; [|done].
    destruct Hright as [[-> ->]|(kx & kb0 & y & nb0 & -> & -> & ->)]; [simpl in Hn; lia|].
    apply Forall_cons in Fb as [Fy Fb]. simpl in Hlb. cbn [mbind option_bind].
    destruct (Hsib y Fy) as [E|(E & E' & N)]; rewrite E; try rewrite E'; cbn [mbind option_bind].
    + apply (topped_right_rot h sx dx [] kx kb0 [] y nb0 xp); try done; [lia|].
      by apply Nat.leb_le.
    + apply (topped_right_merge h sx dx [] kx kb0 [] y nb0 xp); try done. lia.
  - apply Forall_app in Fa as [Fa Fy]. apply Forall_cons in Fy as [Fy _].
    rewrite length_app, Nat.add_1_r. cbn [mbind option_bind].
    replace (S (length ka0) - 1)%nat with (length ka0) by lia.
    destruct (Hsib y Fy) as [E|(E & E' & N)]; rewrite E; try rewrite E'; cbn [mbind option_bind].
    { apply topped_left_rot; try done. by apply Nat.leb_le. }
    destruct Hright as [[-> ->]|(kx' & kb0 & y' & nb0 & -> & -> & ->)]; cbn [mbind option_bind].
    { by apply topped_left_merge. }
    apply Forall_cons in Fb as [Fy' Fb].
    destruct (Hsib y' Fy') as [E2|(E2 & E2' & N2)]; rewrite E2; try rewrite E2'; cbn [mbind option_bind].
    + rewrite <- Nat.add_1_r. replace (length ka0 + 1)%nat with (length (ka0 ++ [kx])) by len_lia.
      simpl in Hlb. apply topped_right_rot; try done; [lia| |].
      * apply Forall_app. split; [done|]. by constructor.
      * by apply Nat.leb_le.
    + apply topped_left_merge; try done. by constructor.
Qed.
End DeleteHelpers.

(** ** Lemmas: [deletekey] *)

Section DeleteKey.
Context {K : Type} `{KeyOrderLaws K} `{KeyOps K} (t : nat) (nbits : Z).
Context (Hp : bt_params t nbits).

Definition the {A} (o : option A) (d : A) : A := match o with Some q => q | None => d end.

(** What a mode may assume of the keys below the node. *)
Definition deletable (s : dk K) (l : list K) : Prop :=
  match s with DK_NONE k => is_Some (assoc k l) | _ => l <> [] end.

(** What it does to them; the key returned to the caller, known in a tree of
    words, is [case_2c_ptr] when set and [kd] otherwise. *)
Definition removed (s : dk K) (l l' : list K) (kd : option K) (c2 c2' : option (option K)) : Prop :=
  match s with
  | DK_NONE k => exists a, assoc k l = Some a /\ l' = del k l /\
      (key_rep = REP_WORD -> the c2' kd = the c2 (Some a))
  | DK_2A => exists b, kd = Some b /\ l = l' ++ [b] /\ c2' = c2
  | DK_2B => exists b, kd = Some b /\ l = b :: l' /\ c2' = c2
  end.

(** The keys around the child entered. *)
Definition around (s : dk K) (pre post : list K) : Prop :=
  match s with
  | DK_NONE k => differs k pre /\ differs k post
  | DK_2A => post = []
  | DK_2B => pre = []
  end.

Lemma removed_around s pre post l l' kd c2 c2' :
  around s pre post -> removed s l l' kd c2 c2' ->
  removed s (pre ++ l ++ post) (pre ++ l' ++ post) kd c2 c2'.
Proof.
  destruct s as [k| |]; cbn.
  - intros [D1 D2] (a & Ha & -> & E). exists a.
    rewrite assoc_app, assoc_app_l, del_app by done. split_and!; try done.
    f_equal. by erewrite del_app_l.
  - intros -> (b & -> & -> & ->). exists b. rewrite !app_nil_r. by rewrite app_assoc.
  - intros -> (b & -> & -> & ->). by exists b.
Qed.

Lemma deletable_around s pre post l :
  around s pre post -> l <> [] -> deletable s (pre ++ l ++ post) -> deletable s l.
Proof.
  destruct s as [k| |]; cbn; [|done..].
  intros [D1 D2] _. by rewrite assoc_app, assoc_app_l.
Qed.

Lemma around_narrow s pre u v post :
  around s (pre ++ u) (v ++ post) -> around s pre post.
Proof.
  destruct s as [k| |]; cbn.
  - intros [D1 D2]. apply Forall_app in D1 as [? _]. by apply Forall_app in D2 as [_ ?].
  - intros E. by apply app_eq_nil in E as [_ ?].
  - intros E. by apply app_eq_nil in E as [? _].
Qed.

Lemma removed_length s l l' kd c2 c2' :
  removed s l l' kd c2 c2' -> length l = S (length l').
Proof.
  destruct s as [k| |]; cbn.
  - intros (a & Ha & -> & _). destruct (del_split k l a Ha) as (l1 & l2 & -> & ->).
    rewrite !length_app. simpl. lia.
  - intros (b & _ & -> & _). rewrite length_app. simpl. lia.
  - by intros (b & _ & -> & _).
Qed.

(** The node after a key has left the subtree of one of its children. *)
Lemma wf_after lo h sx dx (ks : list K) ns (l : list K) :
  sx = u32 (Z.of_nat (length l)) -> length l = S (length (flat (map inorder ns) ks)) ->
  (lo <= length ks <= 2 * t - 1)%nat -> clean dx -> length ns = S (length ks) ->
  Forall (wf t (t - 1) h) ns ->
  wf t lo (S h) (Node false (u32 (sx - 1)) dx ks ns).
Proof.
  intros -> Hl Hn Hd Hln HF. apply wf_node_build; try done.
  rewrite length_flat in Hl by (left; rewrite length_map; lia).
  rewrite Hl. autorewrite with uwrap. f_equal. unfold total. lia.
Qed.

(** Case 1 on a node without counters: the key is simply removed. *)
Lemma delete_leaf_spec s i sx d (k1 k2 : list K) a c2 kd :
  clean d -> (match s with DK_2B => i + 1 | _ => i end) = Z.of_nat (length k1) ->
  return_deleted_key a (Some a) (slot_after (k1 ++ a :: k2) (length k1)) = Some kd ->
  delete_leaf t (Node true sx d (k1 ++ a :: k2) []) s i false c2
  = Some (Dwd (Node true sx d (k1 ++ k2) []) kd 0 0 c2).
Proof.
  intros Hd Hi Hkd. unfold delete_leaf. rewrite Hi.
  destruct (Z.ltb_spec (Z.of_nat (length k1)) 0); [lia|]. rewrite Nat2Z.id. nsimpl.
  rewrite list_lookup_middle by done. cbn [mbind option_bind]. run_clean.
  cbn [Z.eqb].
  assert (Hre : forall x : bt_n K, reallocated x x = false).
  { intros x. unfold reallocated. destruct (Z.leb_spec (dirty (ds x)) 0), (Z.ltb_spec 0 (dirty (ds x))); try done; lia. }
  destruct s; cbn [is_none mbind option_bind]; rewrite Hre; nsimpl; rewrite Hkd; cbn [mbind option_bind];
    nsimpl; rewrite mvDR_clean by done; cbn [mbind option_bind trim_dr]; by rewrite del_at_app.
Qed.

(** Keys held by value, or copied when they are deleted. *)
Context (Hrep : rep_kept key_rep = true).

Lemma return_kept kp later : return_deleted_key kp (Some kp) later = Some (Some kp).
Proof. unfold return_deleted_key. by destruct key_rep. Qed.

Lemma deletekey_leaf fuel lo (x : bt_n K) s c2 :
  wf t lo 0 x -> ksorted (inorder x) -> deletable s (inorder x) ->
  exists x' kd c2',
    deletekey t nbits (S fuel) x s false c2 = Some (Dwd x' kd 0 0 c2') /\
    wf t (n_keys x - 1) 0 x' /\ removed s (inorder x) (inorder x') kd c2 c2'.
Proof.
  intros Hx Hs Hdel. destruct Hp as [Ht Hw Hcap].
  assert (Hsplit : exists k1 a k2 i r,
    keys x = k1 ++ a :: k2 /\
    match s with
    | DK_NONE k => findkindex nbits (keys x) k (-1)
    | DK_2A => Some (Z.of_nat (n_keys x) - 1, if leaf x then 0 else 1)
    | DK_2B => Some (-1, if leaf x then 0 else -1)
    end = Some (i, r) /\
    (match s with DK_2B => i + 1 | _ => i end) = Z.of_nat (length k1) /\
    removed s (keys x) (k1 ++ k2) (Some a) c2 c2).
  { pose proof Hx as Hx'. apply wf_unfold in Hx' as (_ & _ & _ & _ & Hns).
    rewrite inorder_flat, Hns in Hs, Hdel. cbn [map flat] in Hs, Hdel. destruct s as [k| |].
    - destruct Hdel as [a0 Ha0].
      destruct (find_step t nbits Hw Hcap lo 0 x k (-1) Hx) as
        (i & r & E & Ei & [(_ & _ & a & k1 & k2 & Ek & _ & Eil & Ha)|(_ & _ & Hd)]);
        [by rewrite inorder_flat, Hns|lia| |].
      + exists k1, a, k2, i, r. split_and!; try done. rewrite Ek in *. cbn.
        destruct (sorted_around k1 k2 k a Hs Ha) as [D1 D2].
        exists a. rewrite del_mid by done. split_and!; try done.
        rewrite assoc_app by done. cbn. by rewrite Ha.
      + apply assoc_differs in Hd. congruence.
    - cbn in Hdel. destruct (keys x) as [|a l _] eqn:Ek using rev_ind; [done|].
      eexists l, a, [], _, _. split_and!; try done.
      + unfold n_keys. rewrite Ek, length_app. simpl. lia.
      + cbn. exists a. by rewrite app_nil_r.
    - cbn in Hdel. destruct (keys x) as [|a l] eqn:Ek; [done|].
      eexists [], a, l, _, _. split_and!; try done. by exists a. }
  destruct Hsplit as (k1 & a & k2 & i & r & Ek & E & Hi & Hrem).
  destruct (wf_explicit t Ht _ _ _ Hx) as (sx & dx & kx & nx & -> & Hdx & Esx & Hn & ->).
  cbn [deletekey]. rewrite E. nsimpl. cbn [mbind option_bind]. subst kx.
  rewrite (delete_leaf_spec _ _ _ _ k1 k2 a _ (Some a)) by (done || apply return_kept). do 3 eexists. split; [done|].
  rewrite !inorder_Node. cbn [map flat]. split; [|done].
  rewrite length_app in *. simpl in *.
  apply wf_leaf_build; [rewrite length_app; lia|done|].
  rewrite Esx. autorewrite with uwrap. f_equal. rewrite length_app. unfold total. cbn. lia.
Qed.

(** The statement proved by induction, for the children of a node. *)
Definition deletekey_ok (fuel h : nat) : Prop :=
  forall lo (x : bt_n K) s c2,
    wf t lo h x -> ksorted (inorder x) -> deletable s (inorder x) -> (1 <= n_keys x)%nat ->
    exists x' kd c2',
      deletekey t nbits fuel x s false c2 = Some (Dwd x' kd 0 0 c2') /\
      wf t (n_keys x - 1) h x' /\ removed s (inorder x) (inorder x') kd c2 c2'.

Lemma inorder_around lf sx dx (ka kb : list K) (na nb : list (bt_n K)) c :
  length na = length ka ->
  inorder (Node lf sx dx (ka ++ kb) (na ++ c :: nb)) =
  zipl (map inorder na) ka ++ inorder c ++ zipr kb (map inorder nb).
Proof.
  intros Hl. rewrite inorder_Node, map_app. cbn [map].
  apply flat_split. by rewrite length_map.
Qed.

(** Entering a child with at least [t] keys and storing it back. *)
Lemma enter_child fuel h s c2 sx dx (ka kb : list K) na nb c (l : list K) n :
  deletekey_ok fuel h ->
  sx = u32 (Z.of_nat (length l)) ->
  l = zipl (map inorder na) ka ++ inorder c ++ zipr kb (map inorder nb) ->
  ksorted l -> clean dx -> length na = length ka -> length kb = length nb ->
  (n <= length ka + length kb <= 2 * t - 1)%nat ->
  Forall (wf t (t - 1) h) na -> Forall (wf t (t - 1) h) nb -> wf t (t - 1) h c ->
  (t <= n_keys c)%nat ->
  around s (zipl (map inorder na) ka) (zipr kb (map inorder nb)) -> deletable s l ->
  exists c' kd c2',
    deletekey t nbits fuel c s false c2 = Some (Dwd c' kd 0 0 c2') /\
    wf t (t - 1) h c' /\
    let x' := Node false (u32 (sx - 1)) dx (ka ++ kb) (na ++ c' :: nb) in
    wf t n (S h) x' /\ removed s l (inorder x') kd c2 c2'.
Proof.
  intros IH Hsx El Hs Hdx Hla Hlb Hn Fa Fb Hc Nc Har Hdel. pose proof (params_t t nbits Hp) as Ht.
  assert (Hsc : ksorted (inorder c)).
  { rewrite El in Hs. apply ksorted_app in Hs as (_ & Hs & _). by apply ksorted_app in Hs as (? & _). }
  assert (Hne : inorder c <> []) by (eapply (inorder_nonempty t (t - 1)); [lia|done]).
  rewrite El in Hdel.
  destruct (IH (t - 1)%nat c s c2 Hc Hsc (deletable_around _ _ _ _ Har Hne Hdel))
    as (c' & kd & c2' & E & Wc & Hrem); [lia|].
  exists c', kd, c2'. split; [done|].
  assert (Wc' : wf t (t - 1) h c') by (eapply wf_weaken; [done|]; apply wf_keys in Wc; lia).
  split; [done|]. intros x'.
  assert (Hrem' : removed s l (inorder x') kd c2 c2').
  { unfold x'. rewrite inorder_around, El by done. by apply removed_around. }
  split; [|done].
  apply (wf_after n h sx dx (ka ++ kb) (na ++ c' :: nb) l Hsx); try done.
  - apply removed_length in Hrem'. by rewrite Hrem'.
  - rewrite length_app. lia.
  - rewrite !length_app. simpl. lia.
  - apply Forall_app. split; [done|]. by constructor.
Qed.

(** The descent: case 3, the recursive call, and the child stored back. *)
Lemma descend_spec fuel h s c2 sx dx (ka kb : list K) na nb xp (l : list K) :
  deletekey_ok fuel h ->
  sx = u32 (Z.of_nat (length l)) ->
  l = zipl (map inorder na) ka ++ inorder xp ++ zipr kb (map inorder nb) ->
  ksorted l -> clean dx -> length na = length ka -> length kb = length nb ->
  (1 <= length ka + length kb <= 2 * t - 1)%nat ->
  Forall (wf t (t - 1) h) na -> Forall (wf t (t - 1) h) nb -> wf t (t - 1) h xp ->
  around s (zipl (map inorder na) ka) (zipr kb (map inorder nb)) -> deletable s l ->
  exists x' kd c2',
    ('(x, i) ← case_3 t false (Node false (u32 (sx - 1)) dx (ka ++ kb) (na ++ xp :: nb)) (length ka);
     c ← nodes x !! i;
     res ← deletekey t nbits fuel c s false c2;
     let x := if is_none s then x else decr_scion x (dwd_dr res) in
     return_child t false x i res) = Some (Dwd x' kd 0 0 c2') /\
    wf t (length ka + length kb - 1) (S h) x' /\ removed s l (inorder x') kd c2 c2'.
Proof.
  intros IH Hsx El Hs Hdx Hla Hlb Hn Fa Fb Hxp Har Hdel. pose proof (params_t t nbits Hp) as Ht.
  destruct (case_3_spec t Ht h (u32 (sx - 1)) dx ka kb na nb xp)
    as (ka' & kb' & na' & c & nb' & u & v & -> & Hla' & Hlb' & Fa' & Fb' & Hc & Nc & Hk & Epre & Epost & Ec);
    try done; [rewrite length_app; lia|].
  cbn [mbind option_bind]. nsimpl. rewrite list_lookup_middle by done. cbn [mbind option_bind].
  assert (El' : l = zipl (map inorder na') ka' ++ inorder c ++ zipr kb' (map inorder nb')).
  { rewrite El, Epre, Epost, Ec. by rewrite <- !app_assoc. }
  rewrite Epre, Epost in Har. apply around_narrow in Har.
  destruct (enter_child fuel h s c2 sx dx ka' kb' na' nb' c l (length ka + length kb - 1))
    as (c' & kd & c2' & -> & Wc & Wx & Hrem); try done; [lia|].
  cbn [mbind option_bind dwd_dr]. exists (Node false (u32 (sx - 1)) dx (ka' ++ kb') (na' ++ c' :: nb')), kd, c2'.
  split; [|done]. unfold return_child. cbn [dwd_x dwd_pend dwd_k dwd_dr dwd_2c Z.eqb].
  do 2 f_equal. destruct (is_none s); nsimpl; rewrite insert_app_mid by done; [done|].
  by rewrite Z.sub_0_r, uwrap_idem.
Qed.

Lemma ksorted_swap (p q : list K) a k :
  ksorted (p ++ a :: q) -> cmp k a = 0 -> ksorted (p ++ k :: q).
Proof.
  intros Hs E. apply ksorted_app in Hs as (S1 & S2 & S3).
  apply Sorted.StronglySorted_inv in S2 as [S2 F2]. rewrite Forall_forall in F2.
  apply ksorted_app. split_and!; [done| |].
  - constructor; [done|]. apply Forall_forall. intros b Hb. unfold klt.
    apply (cmp_le_lt_trans k a b); [lia|]. by apply F2.
  - intros b c Hb Hc. apply elem_of_cons in Hc as [->|Hc].
    + unfold klt. apply (cmp_lt_le_trans b a k); [apply S3; [done|by left]|].
      apply cmp_eq_sym in E. lia.
    + apply S3; [done|by right].
Qed.

(** The node and the keys around a key found in it. *)
Context (sx : Z) (dx : dstream) (k1 k2 : list K) (a k : K) (n1 n2 : list (bt_n K)) (y z : bt_n K).
Context (h : nat) (l : list K).
Context (Hsx : sx = u32 (Z.of_nat (length l))).
Context (El : l = zipl (map inorder n1) k1 ++ inorder y ++ a :: inorder z ++ zipr k2 (map inorder n2)).
Context (Hs : ksorted l) (Ha : cmp k a = 0) (Hdx : clean dx).
Context (Hl1 : length n1 = length k1) (Hl2 : length k2 = length n2).
Context (Hn : (length k1 + length k2 + 1 <= 2 * t - 1)%nat).
Context (Fn1 : Forall (wf t (t - 1) h) n1) (Fn2 : Forall (wf t (t - 1) h) n2).
Context (Hy : wf t (t - 1) h y) (Hz : wf t (t - 1) h z).

Lemma sorted_yz : ksorted (inorder y) /\ ksorted (inorder z).
Proof.
  pose proof Hs as Hs'. rewrite El in Hs'. apply ksorted_app in Hs' as (_ & Hs' & _).
  apply ksorted_app in Hs' as (S1 & S2 & _). apply Sorted.StronglySorted_inv in S2 as [S2 _].
  by apply ksorted_app in S2 as (S2 & _).
Qed.

Lemma found_removed c2 kd c2' l' :
  l' = zipl (map inorder n1) k1 ++ inorder y ++ inorder z ++ zipr k2 (map inorder n2) ->
  (key_rep = REP_WORD -> the c2' kd = the c2 (Some a)) ->
  removed (DK_NONE k) l l' kd c2 c2'.
Proof.
  intros -> E. exists a. pose proof Hs as Hs'. rewrite El in Hs'.
  rewrite app_assoc in Hs'. destruct (sorted_around _ _ k a Hs' Ha) as [D1 D2].
  rewrite El, app_assoc, assoc_app, del_mid by done.
  cbn. rewrite Ha. split_and!; try done. by rewrite app_assoc.
Qed.

Lemma found_wf lo ks ns (x' := Node false (u32 (sx - 1)) dx ks ns) kd c2 c2' :
  removed (DK_NONE k) l (inorder x') kd c2 c2' ->
  (lo <= length ks <= 2 * t - 1)%nat -> length ns = S (length ks) ->
  Forall (wf t (t - 1) h) ns -> wf t lo (S h) x'.
Proof.
  intros Hrem Hk Hln HF. apply (wf_after lo h sx dx ks ns l); try done.
  by apply removed_length in Hrem.
Qed.

(** Case 2a: the predecessor takes the key's place. *)
Lemma case_2a_spec fuel c2 :
  deletekey_ok fuel h -> (t <= n_keys y)%nat ->
  exists y' b, deletekey t nbits fuel y DK_2A false c2 = Some (Dwd y' (Some b) 0 0 c2) /\
    let x' := Node false (u32 (sx - 1)) dx (k1 ++ b :: k2) (n1 ++ y' :: z :: n2) in
    wf t (length k1 + length k2) (S h) x' /\
    forall kd, (key_rep = REP_WORD -> kd = Some a) -> removed (DK_NONE k) l (inorder x') kd c2 c2.
Proof.
  intros IH Ny. pose proof (params_t t nbits Hp) as Ht. destruct sorted_yz as [Sy Sz].
  destruct (IH (t - 1)%nat y DK_2A c2 Hy Sy) as (y' & kd & c2' & E & Wy & (b & -> & Ey & ->)); [|lia|].
  { eapply (inorder_nonempty t (t - 1)); [lia|done]. }
  exists y', b. split; [done|]. intros x'.
  assert (Hrem : forall kd, (key_rep = REP_WORD -> kd = Some a) -> removed (DK_NONE k) l (inorder x') kd c2 c2).
  { intros kd Hkd. apply found_removed; [|by intros ->%Hkd]. unfold x'. rewrite inorder_around by done.
    cbn [map]. rewrite zipr_cons, Ey. by rewrite <- !app_assoc. }
  split; [|done]. eapply found_wf; [by apply (Hrem (Some a))| | |].
  - rewrite length_app. simpl. lia.
  - rewrite !length_app. simpl. lia.
  - apply Forall_app. split; [done|]. constructor; [|by constructor].
    eapply wf_weaken; [done|]. apply wf_keys in Wy. lia.
Qed.

(** Case 2b: the successor does. *)
Lemma case_2b_spec fuel c2 :
  deletekey_ok fuel h -> (t <= n_keys z)%nat ->
  exists z' b, deletekey t nbits fuel z DK_2B false c2 = Some (Dwd z' (Some b) 0 0 c2) /\
    let x' := Node false (u32 (sx - 1)) dx (k1 ++ b :: k2) (n1 ++ y :: z' :: n2) in
    wf t (length k1 + length k2) (S h) x' /\
    forall kd, (key_rep = REP_WORD -> kd = Some a) -> removed (DK_NONE k) l (inorder x') kd c2 c2.
Proof.
  intros IH Nz. pose proof (params_t t nbits Hp) as Ht. destruct sorted_yz as [Sy Sz].
  destruct (IH (t - 1)%nat z DK_2B c2 Hz Sz) as (z' & kd & c2' & E & Wz & (b & -> & Ez & ->)); [|lia|].
  { eapply (inorder_nonempty t (t - 1)); [lia|done]. }
  exists z', b. split; [done|]. intros x'.
  assert (Hrem : forall kd, (key_rep = REP_WORD -> kd = Some a) -> removed (DK_NONE k) l (inorder x') kd c2 c2).
  { intros kd Hkd. apply found_removed; [|by intros ->%Hkd]. unfold x'. rewrite inorder_around by done.
    cbn [map]. rewrite zipr_cons, Ez. done. }
  split; [|done]. eapply found_wf; [by apply (Hrem (Some a))| | |].
  - rewrite length_app. simpl. lia.
  - rewrite !length_app. simpl. lia.
  - apply Forall_app. split; [done|]. constructor; [done|constructor; [|done]].
    eapply wf_weaken; [done|]. apply wf_keys in Wz. lia.
Qed.

(** Case 2c: the key sought replaces the key found in the merged child, and is
    deleted from there; the key found is kept in [case_2c_ptr]. *)
Lemma case_2c_enter fuel c2 q :
  (key_rep = REP_WORD -> q = the c2 (Some a)) ->
  deletekey_ok fuel h -> n_keys y = (t - 1)%nat -> n_keys z = (t - 1)%nat ->
  exists c c' kd c2',
    case_2c t false (Node false (u32 (sx - 1)) dx (k1 ++ a :: k2) (n1 ++ y :: z :: n2))
      (length k1) k y z = Some (Node false (u32 (sx - 1)) dx (k1 ++ k2) (n1 ++ c :: n2)) /\
    deletekey t nbits fuel c (DK_NONE k) false (Some q) = Some (Dwd c' kd 0 0 c2') /\
    let x' := Node false (u32 (sx - 1)) dx (k1 ++ k2) (n1 ++ c' :: n2) in
    wf t (length k1 + length k2) (S h) x' /\ removed (DK_NONE k) l (inorder x') kd c2 c2'.
Proof.
  intros Hq IH Ny Nz. pose proof (params_t t nbits Hp) as Ht.
  destruct (case_2c_spec t Ht h (u32 (sx - 1)) dx k1 k2 a k n1 n2 y z) as (c & E & Wc & Nc & Ic);
    try done.
  set (pre := zipl (map inorder n1) k1) in *. set (post := zipr k2 (map inorder n2)) in *.
  set (l2 := pre ++ inorder c ++ post).
  assert (El2 : l2 = (pre ++ inorder y) ++ k :: inorder z ++ post).
  { unfold l2. rewrite Ic, <- !app_assoc. done. }
  assert (Hs2 : ksorted l2).
  { rewrite El2. apply ksorted_swap with (a := a); [|done]. rewrite <- app_assoc. by rewrite <- El. }
  pose proof Hs2 as Hs2'. rewrite El2 in Hs2'.
  destruct (sorted_around _ _ k k Hs2' (cmp_refl k)) as [D1 D2].
  assert (Har : around (DK_NONE k) pre post).
  { apply Forall_app in D1 as [? _]. by apply Forall_app in D2 as [_ ?]. }
  destruct (enter_child fuel h (DK_NONE k) (Some q) sx dx k1 k2 n1 n2 c l2
    (length k1 + length k2)) as (c' & kd & c2' & E' & _ & Wx & (a' & _ & Edel & Ekd)); try done.
  - rewrite Hsx, El, El2. do 2 f_equal. rewrite !length_app. simpl. rewrite !length_app. lia.
  - lia.
  - lia.
  - cbn. exists k. rewrite El2, assoc_app by done. cbn. by rewrite cmp_refl.
  - exists c, c', kd, c2'. split; [done|]. split; [done|]. split; [done|].
    apply found_removed; [|intros Hw; by rewrite (Ekd Hw), <- (Hq Hw)]. rewrite Edel, El2, del_mid by (done || apply cmp_refl).
    by rewrite <- app_assoc.
Qed.
End DeleteKey.

Section DeleteMain.
Context {K : Type} `{KeyOrderLaws K} `{KeyOps K} (t : nat) (nbits : Z).
Context (Hp : bt_params t nbits) (Hrep : rep_kept key_rep = true).

(** A key found in an internal node: cases 2a, 2b and 2c. *)
Lemma deletekey_found fuel h lo (x : bt_n K) k a k1 k2 c2 :
  deletekey_ok t nbits fuel h -> wf t lo (S h) x -> ksorted (inorder x) ->
  findkindex nbits (keys x) k (-1) = Some (Z.of_nat (length k1), 0) ->
  keys x = k1 ++ a :: k2 -> cmp k a = 0 ->
  exists x' kd c2',
    deletekey t nbits (S fuel) x (DK_NONE k) false c2 = Some (Dwd x' kd 0 0 c2') /\
    wf t (n_keys x - 1) (S h) x' /\ removed (DK_NONE k) (inorder x) (inorder x') kd c2 c2'.
Proof.
  intros IH Hx Hs Hfk Ek Ha. pose proof (params_t t nbits Hp) as Ht.
  cbn [deletekey]. rewrite Hfk. cbn [mbind option_bind]. clear Hfk.
  assert (Hnodes : exists n1 y z n2, nodes x = n1 ++ y :: z :: n2 /\ length n1 = length k1).
  { apply wf_unfold in Hx as (_ & _ & _ & _ & Hl & _). unfold n_keys in Hl.
    rewrite Ek, length_app in Hl. simpl in Hl.
    destruct (take_drop_split (nodes x) (length k1)) as (n1 & [|y [|z n2]] & E & L); [lia| | |];
      rewrite E, length_app in Hl; simpl in Hl; [lia|lia|]. by exists n1, y, z, n2. }
  destruct Hnodes as (n1 & y & z & n2 & En & Hl1).
  pose proof (wf_scion t _ _ _ Hx) as Hsx.
  destruct (wf_explicit t Ht _ _ _ Hx) as (sx & dx & kx & nx & -> & Hdx & _ & Hk & Hln & HF).
  nsimpl. subst kx nx. rewrite Nat2Z.id.
  rewrite (list_lookup_middle k1) by done. cbn [mbind option_bind]. run_clean.
  cbn [Z.eqb negb andb].
  rewrite (list_lookup_middle n1 (z :: n2) y (length k1)) by done. cbn [mbind option_bind].
  replace ((n1 ++ y :: z :: n2) !! (length k1 + 1)%nat) with (Some z).
  2:{ replace (n1 ++ y :: z :: n2) with ((n1 ++ [y]) ++ z :: n2) by by rewrite <- app_assoc.
      symmetry. apply list_lookup_middle. len_lia. }
  cbn [mbind option_bind].
  apply Forall_app in HF as [Fn1 HF]. apply Forall_cons in HF as [Hy HF].
  apply Forall_cons in HF as [Hz Fn2].
  rewrite !length_app in Hln. simpl in Hln.
  assert (El : inorder (Node false sx dx (k1 ++ a :: k2) (n1 ++ y :: z :: n2)) =
    zipl (map inorder n1) k1 ++ inorder y ++ a :: inorder z ++ zipr k2 (map inorder n2)).
  { rewrite inorder_around by done. cbn [map]. by rewrite zipr_cons. }
  set (l := inorder _) in *. clearbody l.
  rewrite length_app in Hk |- *. cbn [length] in *.
  replace (length k1 + S (length k2) - 1)%nat with (length k1 + length k2)%nat by lia.
  destruct (Nat.leb_spec t (length (keys y))) as [Ny|Ny].
  { destruct (case_2a_spec t nbits Hp sx dx k1 k2 a k n1 n2 y z h l) with (fuel := fuel) (c2 := c2)
      as (y' & b & E & W & R); try done; [lia|lia|].
    rewrite E. cbn [mbind option_bind dwd_dr]. unfold setDR. cbn [Z.eqb mbind option_bind].
    unfold setBTKeyRaw. nsimpl. cbn [dwd_x dwd_k dwd_2c mbind option_bind]. nsimpl. rewrite !insert_app_mid by done.
    do 3 eexists. split; [done|]. split; [done|]. apply R. unfold swap_back. by intros ->. }
  destruct (Nat.leb_spec t (length (keys z))) as [Nz|Nz].
  { destruct (case_2b_spec t nbits Hp sx dx k1 k2 a k n1 n2 y z h l) with (fuel := fuel) (c2 := c2)
      as (z' & b & E & W & R); try done; [lia|lia|].
    rewrite E. cbn [mbind option_bind dwd_dr]. nsimpl. run_clean.
    unfold setBTKeyRaw. nsimpl. cbn [dwd_x dwd_k dwd_2c mbind option_bind]. nsimpl. rewrite insert_app_mid by done.
    replace (n1 ++ y :: z :: n2) with ((n1 ++ [y]) ++ z :: n2) by by rewrite <- app_assoc.
    rewrite insert_app_mid by len_lia. rewrite <- app_assoc.
    do 3 eexists. split; [done|]. split; [done|]. apply R. unfold swap_back. by intros ->. }
  pose proof (wf_keys t _ _ _ Hy). pose proof (wf_keys t _ _ _ Hz). unfold n_keys in *.
  destruct (Nat.eqb_spec (length (keys y)) (t - 1)); [|lia].
  destruct (Nat.eqb_spec (length (keys z)) (t - 1)); [|lia]. cbn [andb].
  set (q := the c2 (key_2c (Node false (u32 (sx - 1)) dx (k1 ++ a :: k2) (n1 ++ y :: z :: n2)) (length k1))).
  destruct (case_2c_enter t nbits Hp sx dx k1 k2 a k n1 n2 y z h l) with (fuel := fuel) (c2 := c2) (q := q)
    as (c & c' & kd & c2' & E1 & E2 & W & R); try done.
  1, 2: lia. 1: { intros Hw. unfold q, key_2c. rewrite Hw. nsimpl. by rewrite list_lookup_middle. }
  replace (match c2 with Some q => Some q | None => Some (key_2c _ _) end) with (Some q)
    by by destruct c2.
  rewrite E1. cbn [mbind option_bind]. nsimpl. rewrite list_lookup_middle by done.
  cbn [mbind option_bind].
  rewrite E2. cbn [mbind option_bind]. unfold return_child.
  cbn [dwd_x dwd_k dwd_2c dwd_pend dwd_dr Z.eqb mbind option_bind]. nsimpl. rewrite insert_app_mid by done.
  unfold keep_2c, reallocated. cbn [dwd_x]. nsimpl.
  assert (Hre : (dirty dx <=? 0) && (0 <? dirty dx) = false) by lia.
  rewrite Hre, andb_false_r. do 3 eexists. split; [by destruct c2|done].
Qed.

(** A node of which the child at slot [length ka] is entered. *)
Lemma deletekey_enter fuel h lo (x : bt_n K) s i r (ka kb : list K) na xp nb c2 :
  deletekey_ok t nbits fuel h -> wf t lo (S h) x -> ksorted (inorder x) ->
  deletable s (inorder x) -> (1 <= n_keys x)%nat ->
  match s with
  | DK_NONE k => findkindex nbits (keys x) k (-1)
  | DK_2A => Some (Z.of_nat (n_keys x) - 1, if leaf x then 0 else 1)
  | DK_2B => Some (-1, if leaf x then 0 else -1)
  end = Some (i, r) -> r <> 0 -> i + 1 = Z.of_nat (length ka) ->
  keys x = ka ++ kb -> nodes x = na ++ xp :: nb -> length na = length ka ->
  around s (zipl (map inorder na) ka) (zipr kb (map inorder nb)) ->
  exists x' kd c2',
    deletekey t nbits (S fuel) x s false c2 = Some (Dwd x' kd 0 0 c2') /\
    wf t (n_keys x - 1) (S h) x' /\ removed s (inorder x) (inorder x') kd c2 c2'.
Proof.
  intros IH Hx Hs Hdel Hn1 Hfk Hr Hi Ek En Hla Har. pose proof (params_t t nbits Hp) as Ht.
  cbn [deletekey]. rewrite Hfk. cbn [mbind option_bind]. clear Hfk.
  pose proof (wf_scion t _ _ _ Hx) as Hsx.
  destruct (wf_explicit t Ht _ _ _ Hx) as (sx & dx & kx & nx & -> & Hdx & _ & Hk & Hln & HF).
  nsimpl. subst kx nx. rewrite Hi, Nat2Z.id.
  apply Forall_app in HF as [Fa HF]. apply Forall_cons in HF as [Hxp Fb].
  rewrite !length_app in Hln. simpl in Hln. rewrite length_app in Hk, Hn1 |- *.
  replace (match s with DK_NONE k => _ | _ => _ end) with
    ('(x, i0) ← case_3 t false (Node false (u32 (sx - 1)) dx (ka ++ kb) (na ++ xp :: nb)) (length ka);
     c ← nodes x !! i0;
     res ← deletekey t nbits fuel c s false c2;
     let x := if is_none s then x else decr_scion x (dwd_dr res) in
     return_child t false x i0 res).
  2:{ destruct s; try done. by destruct (Z.eqb_spec r 0). }
  eapply descend_spec; try done; [by apply inorder_around|lia|lia].
Qed.

Lemma deletekey_spec : forall fuel h, (h < fuel)%nat -> deletekey_ok t nbits fuel h.
Proof.
  destruct Hp as [Ht Hw Hcap].
  induction fuel as [|fuel IH]; intros h Hf lo x s c2 Hx Hs Hdel Hn1; [lia|].
  destruct h as [|h]; [by eapply deletekey_leaf|].
  specialize (IH h ltac:(lia)). pose proof (wf_unfold t lo (S h) x) as U.
  apply U in Hx as U'. destruct U' as (_ & _ & _ & Hlf & Hln & _). clear U. unfold n_keys in *.
  destruct s as [k| |].
  - destruct (find_step t nbits Hw Hcap lo (S h) x k (-1) Hx Hs)
      as (i & r & E & Ei & [(_ & -> & a & k1 & k2 & Ek & _ & -> & Ha)|(_ & Hr & Hd)]); [lia| |].
    + eapply deletekey_found; eauto.
    + destruct (find_descend t lo h x k Hx Hs Hd)
        as (n1 & c & n2 & k1 & k2 & En & Hn & Ek & Hk & _ & _ & _ & _ & D1 & D2).
      apply (deletekey_enter fuel h lo x (DK_NONE k) i r k1 k2 n1 c n2); try done; lia.
  - destruct (nodes x) as [|c n1 _] eqn:En using rev_ind; [done|].
    rewrite length_app in Hln. simpl in Hln.
    eapply (deletekey_enter fuel h lo x DK_2A _ 1 (keys x) [] n1 c []); try done.
    + by rewrite Hlf.
    + unfold n_keys. lia.
    + by rewrite app_nil_r.
    + lia.
  - destruct (nodes x) as [|c n2] eqn:En; [done|].
    eapply (deletekey_enter fuel h lo x DK_2B (-1) (-1) [] (keys x) [] c n2); try done.
    by rewrite Hlf.
Qed.
End DeleteMain.

(** ** Deletion refines the sorted list *)

Lemma delete_ok {K} `{KeyOrderLaws K} `{KeyOps K}
    (t : nat) (nbits : Z) (Hp : bt_params t nbits) (Hrep : rep_kept key_rep = true)
    (btr : bt K) (k a : K) :
  bt_wf t btr -> assoc k (inorder (root btr)) = Some a ->
  exists btr' kd, bt_delete t nbits btr k = Some (btr', kd, 0) /\
    (key_rep = REP_WORD -> kd = Some a) /\ bt_wf t btr' /\
    inorder (root btr') = del k (inorder (root btr)) /\
    (height (root btr') <= height (root btr) <= S (height (root btr')))%nat /\
    dirty_left btr' = u32 (dirty_left btr) /\ bdirty btr' = bdirty btr.
Proof.
  intros ((h & Hwf) & Hs & Hn) Ha. pose proof (params_t t nbits Hp) as Ht.
  unfold bt_delete, remove_key. rewrite (wf_height t _ _ _ Hwf).
  assert (Hn1 : (1 <= n_keys (root btr))%nat).
  { pose proof (wf_keys t _ _ _ Hwf). destruct h; [|cbn in *; lia].
    apply wf_unfold in Hwf as (_ & _ & _ & _ & E). rewrite inorder_flat, E in Ha.
    unfold n_keys. destruct (keys (root btr)); [done|simpl; lia]. }
  destruct (deletekey_spec t nbits Hp Hrep (S h) h ltac:(lia) _ (root btr) (DK_NONE k) None Hwf Hs)
    as (x' & kd & c2' & -> & Wx & (a' & Ha' & Edel & Ekd)); [by exists a|done|].
  simplify_eq. cbn [mbind option_bind dwd_x dwd_2c dwd_k dwd_dr dwd_pend].
  change (match c2' with Some q => q | None => kd end) with (the c2' kd).
  assert (Hpick : exists r h', (if (n_keys x' =? 0)%nat && negb (leaf x') then nodes x' !! 0%nat
      else Some x') = Some r /\ wf t (if (h' =? 0)%nat then 0 else 1)%nat h' r /\
      inorder r = inorder x' /\ (h' <= h <= S h')%nat).
  { destruct (Nat.eqb_spec (n_keys x') 0) as [E|E]; cbn [andb].
    2:{ exists x', h. split_and!; try done; [|lia]. eapply wf_weaken; [done|]. case_match; lia. }
    rewrite (wf_leaf t _ _ _ Wx). destruct h as [|h]; cbn [negb].
    { exists x', 0%nat. split_and!; try done; [|lia]. eapply wf_weaken; [done|]. cbn. lia. }
    pose proof Wx as Wx'. apply wf_unfold in Wx' as (_ & _ & _ & _ & Hl & HF). rewrite E in Hl.
    rewrite inorder_flat. unfold n_keys in E. apply nil_length_inv in E. rewrite E.
    destruct (nodes x') as [|c [|c2 ns]]; try done. apply Forall_cons in HF as [Hc _].
    exists c, h. split_and!; try done; try lia; [|by cbn; rewrite app_nil_r].
    eapply wf_weaken; [done|]. apply wf_keys in Hc. destruct (h =? 0)%nat; lia. }
  destruct Hpick as (r & h' & -> & Wr & Er & Hh). cbn [mbind option_bind].
  eexists _, _. split; [done|]. split; [exact Ekd|]. cbn [root dirty_left bdirty]. rewrite (wf_height t _ _ _ Wr), Er.
  split_and!; try lia; try done.
  - split; [by exists h'|]. cbn [root numkeys]. rewrite Er, Edel.
    destruct (del_split k _ a Ha) as (l1 & l2 & El & ->). rewrite El in Hs, Hn.
    split; [by eapply ksorted_del_mid|]. rewrite Hn, !length_app.
    autorewrite with uwrap. f_equal. simpl. lia.
  - by rewrite Z.add_0_r.
  - by rewrite !orb_false_r.
Qed.

(** ** Trees of sixteen-byte keys that are not copied *)

Section Slots.
Context {K : Type} `{KeyOrderLaws K} `{KeyOps K} (t : nat) (nbits : Z).
Context (Hp : bt_params t nbits) (Hrep : key_rep = REP_SLOT).

(** The search stops at the key it is given. *)
Lemma find_at lo h (x : bt_n K) k a k1 k2 :
  wf t lo h x -> ksorted (inorder x) -> keys x = k1 ++ a :: k2 -> cmp k a = 0 ->
  findkindex nbits (keys x) k (-1) = Some (Z.of_nat (length k1), 0).
Proof.
  destruct Hp as [Ht Hw Hcap]. intros Hx Hs Ek Ha.
  pose proof (keys_sorted t lo h x Hx Hs) as Hks. rewrite Ek in Hks.
  destruct (sorted_around k1 k2 k a Hks Ha) as [D1 D2]. unfold differs in D1, D2. rewrite Forall_forall in D1, D2.
  destruct (find_step t nbits Hw Hcap lo h x k (-1) Hx Hs)
    as (i & r & -> & _ & [(_ & -> & b & l1 & l2 & El & _ & -> & Hb)|(_ & _ & Hd)]); [lia| |].
  - do 3 f_equal. rewrite Ek in El.
    assert (E : (k1 ++ a :: k2) !! length l1 = Some b) by (rewrite El; by apply list_lookup_middle).
    destruct (Nat.lt_trichotomy (length l1) (length k1)) as [Hlt|[?|Hlt]]; [|done|]; exfalso.
    + rewrite lookup_app_l in E by done. by apply (D1 b (list_elem_of_lookup_2 _ _ _ E)).
    + rewrite lookup_app_r in E by lia. apply (D2 b); [|done].
      destruct (length l1 - length k1)%nat eqn:El2; [lia|]. by apply (list_elem_of_lookup_2 _ n).
  - unfold differs in Hd. rewrite Forall_forall in Hd. exfalso. apply (Hd a); [|done].
    rewrite Ek, elem_of_app, elem_of_cons. auto.
Qed.

(** Case 2b above a leaf [z]: the key returned by the leaf is the address of its
    first slot, into which the second key has been moved. *)
Lemma slot_case_2b lo (x : bt_n K) k a k1 k2 n1 n2 y z b b' l :
  wf t lo 1 x -> ksorted (inorder x) -> cmp k a = 0 -> keys x = k1 ++ a :: k2 ->
  nodes x = n1 ++ y :: z :: n2 -> length n1 = length k1 ->
  n_keys y = (t - 1)%nat -> (t <= n_keys z)%nat -> keys z = b :: b' :: l ->
  exists x' kd, deletekey t nbits 2 x (DK_NONE k) false None = Some (Dwd x' kd 0 0 None) /\
    n_keys x' = n_keys x /\ leaf x' = false /\
    inorder x = zipl (map inorder n1) k1 ++ inorder y ++ a :: b :: b' :: l ++ zipr k2 (map inorder n2) /\
    inorder x' = zipl (map inorder n1) k1 ++ inorder y ++ b' :: b' :: l ++ zipr k2 (map inorder n2).
Proof.
  intros Hx Hs Ha Ek En Hl1 Ny Nz Ez. pose proof (params_t t nbits Hp) as Ht.
  pose proof (find_at lo 1 x k a k1 k2 Hx Hs Ek Ha) as Hfk.
  cbn [deletekey]. rewrite Hfk. cbn [mbind option_bind]. clear Hfk.
  destruct (wf_explicit t Ht _ _ _ Hx) as (sx & dx & kx & nx & -> & Hdx & _ & Hk & Hln & HF).
  nsimpl. subst kx nx. rewrite Nat2Z.id.
  rewrite (list_lookup_middle k1) by done. cbn [mbind option_bind]. run_clean.
  cbn [Z.eqb negb andb].
  rewrite (list_lookup_middle n1 (z :: n2) y (length k1)) by done. cbn [mbind option_bind].
  replace ((n1 ++ y :: z :: n2) !! (length k1 + 1)%nat) with (Some z).
  2:{ replace (n1 ++ y :: z :: n2) with ((n1 ++ [y]) ++ z :: n2) by by rewrite <- app_assoc.
      symmetry. apply list_lookup_middle. len_lia. }
  cbn [mbind option_bind].
  apply Forall_app in HF as [_ HF]. apply Forall_cons in HF as [_ HF]. apply Forall_cons in HF as [Hz _].
  unfold n_keys in Ny, Nz. destruct (Nat.leb_spec t (length (keys y))); [lia|].
  destruct (Nat.leb_spec t (length (keys z))); [|lia].
  destruct (wf_explicit t Ht _ _ _ Hz) as (sz & dz & kz & nz & -> & Hdz & _ & _ & ->). nsimpl. subst kz.
  rewrite (delete_leaf_spec t DK_2B (-1) _ dz [] (b' :: l) b None (Some b'))
    by (done || (unfold return_deleted_key; by rewrite Hrep)).
  cbn [mbind option_bind dwd_x dwd_k dwd_dr dwd_2c]. nsimpl. run_clean. cbn [mbind option_bind].
  unfold setBTKeyRaw. nsimpl. rewrite insert_app_mid by done.
  replace (n1 ++ y :: Node true sz dz (b :: b' :: l) [] :: n2)
    with ((n1 ++ [y]) ++ Node true sz dz (b :: b' :: l) [] :: n2) by by rewrite <- app_assoc.
  rewrite insert_app_mid by len_lia. do 2 eexists. split; [done|].
  cbn [keys leaf]. split; [rewrite !length_app; done|]. split; [done|].
  rewrite <- !app_assoc. cbn [app]. rewrite !inorder_around by done. cbn [map].
  rewrite !zipr_cons, !inorder_Node. by cbn [map flat].
Qed.
End Slots.

(** Every deletion ends by returning a key, and a word that is dereferenced has no
    meaning. *)
Lemma bad_delete_undefined {K} `{KeyOrder K} `{KeyOps K} (t : nat) (nbits : Z) :
  key_rep = REP_BAD -> forall fuel (x : bt_n K) s drt c2, deletekey t nbits fuel x s drt c2 = None.
Proof.
  intros Hbad fuel. induction fuel as [|fuel IH]; intros x s drt c2; [done|].
  assert (Hret : forall kp now later, return_deleted_key kp now later = None)
    by (intros kp now later; unfold return_deleted_key; by rewrite Hbad).
  assert (Hb : forall A B (o : option A), o ≫= (fun _ => None) = None :> option B) by by intros ? ? [].
  cbn [deletekey].
  destruct (match s with DK_NONE k => _ | DK_2A => _ | DK_2B => _ end) as [[i r]|]; [|done].
  cbn [mbind option_bind]. set (x1 := if drt then x else _).
  assert (Hrec : forall (o : option (bt_n K * nat)) (f : bt_n K -> nat -> dwd_t K -> option (dwd_t K)),
    ('(x, i) ← o; c ← nodes x !! i; res ← deletekey t nbits fuel c s drt c2; f x i res) = None).
  { intros [[x2 i2]|] f; [|done]. cbn [mbind option_bind]. destruct (nodes x2 !! i2); [|done].
    cbn [mbind option_bind]. by rewrite IH. }
  destruct (leaf x1).
  { unfold delete_leaf. case_match; [done|].
    destruct (keys x1 !! _); [|done]. cbn [mbind option_bind]. destruct (getDR _ _); [|done]. cbn [mbind option_bind].
    match goal with |- ?o ≫= _ = None => destruct o as [[[? ?] ?]|]; [|done] end.
    cbn [mbind option_bind]. by rewrite Hret. }
  destruct s as [k| |]; [destruct (r =? 0)| |]; try apply Hrec.
  destruct (keys x1 !! _); [|done]. cbn [mbind option_bind]. destruct (getDR _ _) as [dr|]; [|done]. cbn [mbind option_bind].
  case_match. { destruct (replaceKeyWithGhost _ _ _ _ _); [|done]. cbn [mbind option_bind]. by rewrite Hret. }
  destruct (nodes x1 !! _) as [y|]; [|done]. cbn [mbind option_bind].
  destruct (nodes x1 !! _) as [z|]; [|done]. cbn [mbind option_bind].
  case_match; [by rewrite IH|]. case_match; [by rewrite IH|]. case_match; [|done].
  destruct (case_2c _ _ _ _ _ _ _) as [x2|]; [|done]. cbn [mbind option_bind].
  destruct (nodes x2 !! _); [|done]. cbn [mbind option_bind]. by rewrite IH.
Qed.

(** ** Properties *)

(** C4: in a tree that holds its keys by value (words of four or eight bytes) or
    copies out the one it deletes (every packed tree but the INT/INT node of an
    order-by index), deleting a key that the tree holds never fails, whichever of
    the cases (leaf, 2a, 2b, 2c, 3a, 3b) the descent meets; it yields a
    well-formed tree (sorted, uniform depth, occupancy, exact subtree counts) with
    exactly that key removed and no counter, the height shrinks by at most one,
    and in a tree of words the key returned is the stored one, equal to the
    argument. *)
Theorem delete_refines {K} `{KeyOrderLaws K} `{KeyOps K}
    (t : nat) (nbits : Z) (btr : bt K) (k a : K) :
  bt_params t nbits -> rep_kept key_rep = true ->
  bt_wf t btr -> assoc k (inorder (root btr)) = Some a ->
  exists btr' kd, bt_delete t nbits btr k = Some (btr', kd, 0) /\
    (key_rep = REP_WORD -> kd = Some a) /\ bt_wf t btr' /\
    inorder (root btr') = del k (inorder (root btr)) /\
    (height (root btr') <= height (root btr) <= S (height (root btr')))%nat /\
    dirty_left btr' = u32 (dirty_left btr) /\ bdirty btr' = bdirty btr.
Proof. intros Hp Hrep. by apply delete_ok. Qed.

(** C37: in a tree of sixteen-byte keys that are neither words nor copied on
    deletion (the node of an index for a U128 primary key) deletion is wrong.  When
    the key is a separator above leaves, its left child is minimal and its right
    child, which starts with [b] and [b'], is not, the separator is replaced by
    [b'] instead of its successor [b]: [b], which nobody deleted, can no longer be
    found, [b'] is there twice, and the tree is no longer sorted. *)
Theorem slot_delete_wrong_key {K} `{KeyOrderLaws K} `{KeyOps K}
    (t : nat) (nbits : Z) (btr : bt K) (k a b b' : K) k1 k2 n1 n2 y z l :
  bt_params t nbits -> key_rep = REP_SLOT -> bt_wf t btr ->
  keys (root btr) = k1 ++ a :: k2 -> cmp k a = 0 ->
  nodes (root btr) = n1 ++ y :: z :: n2 -> length n1 = length k1 ->
  n_keys y = (t - 1)%nat -> leaf z = true -> (t <= n_keys z)%nat -> keys z = b :: b' :: l ->
  exists btr' kd p q, bt_delete t nbits btr k = Some (btr', kd, 0) /\
    inorder (root btr) = p ++ a :: b :: b' :: q /\
    inorder (root btr') = p ++ b' :: b' :: q /\
    assoc b (inorder (root btr)) = Some b /\ assoc b (inorder (root btr')) = None /\
    ~ ksorted (inorder (root btr')).
Proof.
  intros Hp Hrep ((h & Hwf) & Hs & _) Ek Ha En Hl1 Ny Lz Nz Ez.
  assert (h = 1%nat) as ->.
  { pose proof Hwf as Hw. apply wf_unfold in Hw as (_ & _ & _ & Hh). rewrite En in Hh.
    destruct h as [|h]; [destruct Hh; by destruct n1|]. destruct Hh as (_ & _ & HF).
    apply Forall_app in HF as [_ HF]. apply Forall_cons in HF as [_ HF]. apply Forall_cons in HF as [Hz _].
    pose proof (wf_leaf t _ _ _ Hz) as E. rewrite Lz in E. by destruct h. }
  cbn [Nat.eqb] in Hwf.
  destruct (slot_case_2b t nbits Hp Hrep 1 (root btr) k a k1 k2 n1 n2 y z b b' l Hwf Hs Ha Ek En Hl1 Ny Nz Ez)
    as (x' & kd & E & Nx & Lx & I & I').
  unfold bt_delete, remove_key. rewrite (wf_height t _ _ _ Hwf), E. cbn [mbind option_bind dwd_x dwd_k dwd_dr dwd_2c dwd_pend].
  assert (Hn : n_keys (root btr) <> 0%nat) by (unfold n_keys; rewrite Ek, length_app; cbn; lia).
  rewrite Nx. destruct (Nat.eqb_spec (n_keys (root btr)) 0) as [?|_]; [done|]. cbn [andb mbind option_bind].
  set (q := l ++ zipr k2 (map inorder n2)) in *. set (p := zipl (map inorder n1) k1 ++ inorder y).
  rewrite app_assoc in I, I'. fold p in I, I'.
  eexists _, kd, p, q. split; [done|]. cbn [root]. split; [done|]. split; [done|].
  rewrite I in Hs. rewrite I, I'.
  assert (Hs' : ksorted ((p ++ [a]) ++ b :: b' :: q)) by by rewrite <- app_assoc.
  destruct (sorted_around (p ++ [a]) (b' :: q) b b Hs' (cmp_refl b)) as [D1 D2].
  apply Forall_app in D1 as [D1 _]. split_and!.
  - change (p ++ a :: b :: b' :: q) with (p ++ [a] ++ b :: b' :: q). rewrite app_assoc.
    rewrite assoc_app by (by destruct (sorted_around (p ++ [a]) (b' :: q) b b Hs' (cmp_refl b))).
    cbn. by rewrite cmp_refl.
  - apply assoc_differs, Forall_app. split; [done|]. constructor; [|done]. by apply (Forall_inv D2).
  - intros Hs2. apply ksorted_app in Hs2 as (_ & Hs2 & _). apply Sorted.StronglySorted_inv in Hs2 as [_ HF].
    apply Forall_cons in HF as [HF _]. unfold klt in HF. rewrite cmp_refl in HF. lia.
Qed.

#[local] Existing Instances z_order z_order_laws z_ops.

(** The same keys in a tree that passes the addresses of its slots. *)
Definition slot_ops : KeyOps Z :=
  {| num_key := fun k => k; ghost_key := fun k => k; key_is_num := true; is_inode := true;
     key_rep := REP_SLOT |}.
Definition slot_sample : bt Z :=
  Bt (Node false 5 clean_ds [30] [sample_leaf [10]; sample_leaf [40; 50; 60]]) 5 0 false.

Lemma slot_sample_wf : bt_wf 2 slot_sample.
Proof.
  split; [|split; [|reflexivity]].
  - exists 1%nat. unfold slot_sample, sample_leaf. cbn [root]. apply wf_unfold. cbn.
    split_and!; try done; try lia. repeat constructor; unfold clean; cbn; try done; lia.
  - cbn. repeat constructor; unfold klt, cmp, z_order; lia.
Qed.

Lemma slot_delete_wrong_key_witness :
  exists btr' kd p q, @bt_delete Z z_order slot_ops 2 4 slot_sample 30 = Some (btr', kd, 0) /\
    inorder (root slot_sample) = p ++ 30 :: 40 :: 50 :: q /\
    inorder (root btr') = p ++ 50 :: 50 :: q /\
    assoc 40 (inorder (root slot_sample)) = Some 40 /\ assoc 40 (inorder (root btr')) = None /\
    ~ ksorted (inorder (root btr')).
Proof.
  apply (@slot_delete_wrong_key Z z_order z_order_laws slot_ops 2 4 slot_sample 30 30 40 50
    [] [] [] [] (sample_leaf [10]) (sample_leaf [40; 50; 60]) [60]); try reflexivity.
  - apply sample_params.
  - apply slot_sample_wf.
  - cbn. lia.
Defined.

(** A tree that passes addresses and copies them: the separator 30 is deleted, and
    the key returned is its predecessor, which has taken its slot. *)
Definition copied_ops : KeyOps Z :=
  {| num_key := fun k => k; ghost_key := fun k => k; key_is_num := true; is_inode := false;
     key_rep := REP_COPIED |}.
Example copied_returns_replacement :
  exists btr', @bt_delete Z z_order copied_ops 2 4 sample 30 = Some (btr', Some 20, 0) /\
    inorder (root btr') = [10; 20; 40; 50; 60].
Proof. eexists. split; reflexivity. Qed.

Lemma delete_refines_witness :
  exists btr' kd, bt_delete 2 4 sample 30 = Some (btr', kd, 0) /\
    (@key_rep Z z_ops = REP_WORD -> kd = Some 30) /\ bt_wf 2 btr' /\
    inorder (root btr') = del 30 (inorder (root sample)) /\
    (height (root btr') <= height (root sample) <= S (height (root btr')))%nat /\
    dirty_left btr' = u32 (dirty_left sample) /\ bdirty btr' = bdirty sample.
Proof.
  apply (delete_refines 2 4 sample 30 30 sample_params (eq_refl : rep_kept (@key_rep Z z_ops) = true) sample_wf). reflexivity.
Defined.
