(* ===== verification/BtOps.v ===== *)
(** * Whole trees: creation, histories of operations, cloning
    ([DB/bt_code.c], [DB/bt.c])

    The promise of the B-tree to its clients, [OrderedStore], is a sorted set of
    keys with lookup, insertion of an absent key, removal of a present one and
    replacement; the tree implements it.  [abt_resize] clones a tree into one
    of another node size; its only call is compiled out
    ([TEST_WITH_TRANS_ONE_ONLY] in [DB/bt.h]). *)

From S2P Require Import Prelude BtSearch DirtyStream Btree BtInsert BtDelete.

(** ** The interface of the tree *)

(** [store_inv] is what every operation preserves, [store_keys] the abstract
    contents. *)
Class OrderedStore (K S : Type) `{KeyOrder K} := {
  store_inv : S -> Prop;
  store_keys : S -> list K;
  store_find : S -> K -> option (option K);
  store_insert : S -> K -> option S;
  store_delete : S -> K -> option S;
  store_replace : S -> K -> K -> option S;
  store_sorted : forall s, store_inv s -> ksorted (store_keys s);
  store_find_ok : forall s k, store_inv s -> store_find s k = Some (assoc k (store_keys s));
  store_insert_ok : forall s k, store_inv s -> differs k (store_keys s) ->
    exists s', store_insert s k = Some s' /\ store_inv s' /\
      store_keys s' = ins k (store_keys s);
  store_delete_ok : forall s k a, store_inv s -> assoc k (store_keys s) = Some a ->
    exists s', store_delete s k = Some s' /\ store_inv s' /\
      store_keys s' = del k (store_keys s);
  store_replace_ok : forall s k v, store_inv s -> cmp v k = 0 ->
    exists s', store_replace s k v = Some s' /\ store_inv s' /\
      store_keys s' = repl k v (store_keys s);
}.

(** ** Histories of operations against the interface *)

Inductive op (K : Type) :=
| OpInsert (k : K)
| OpDelete (k : K)
| OpReplace (k v : K).
Arguments OpInsert {K} _.
Arguments OpDelete {K} _.
Arguments OpReplace {K} _ _.

Section Histories.
Context {K S : Type} `{KeyOrder K} `{!OrderedStore K S}.

(** One operation on the store. *)
Definition run_op (s : S) (o : op K) : option S :=
  match o with
  | OpInsert k => store_insert s k
  | OpDelete k => store_delete s k
  | OpReplace k v => store_replace s k v
  end.

Fixpoint run_ops (s : S) (os : list (op K)) : option S :=
  match os with
  | [] => Some s
  | o :: os' => s' ← run_op s o; run_ops s' os'
  end.

(** What the callers guarantee of each operation, and its effect on the
    abstract contents. *)
Inductive ref_step (l : list K) : op K -> list K -> Prop :=
| ref_insert k : differs k l -> ref_step l (OpInsert k) (ins k l)
| ref_delete k a : assoc k l = Some a -> ref_step l (OpDelete k) (del k l)
| ref_replace k v : cmp v k = 0 -> ref_step l (OpReplace k v) (repl k v l).

Inductive ref_run : list K -> list (op K) -> list K -> Prop :=
| ref_nil l : ref_run l [] l
| ref_cons l o l' os l'' : ref_step l o l' -> ref_run l' os l'' -> ref_run l (o :: os) l''.

Lemma run_op_ok s o l' :
  store_inv s -> ref_step (store_keys s) o l' ->
  exists s', run_op s o = Some s' /\ store_inv s' /\ store_keys s' = l'.
Proof.
  intros Hs Hstep. inversion Hstep; subst; cbn.
  - by apply store_insert_ok.
  - by apply (store_delete_ok s k a).
  - by apply store_replace_ok.
Qed.

Lemma run_ops_ok os : forall s l',
  store_inv s -> ref_run (store_keys s) os l' ->
  exists s', run_ops s os = Some s' /\ store_inv s' /\ store_keys s' = l'.
Proof.
  induction os as [|o os IH]; intros s l' Hs Hrun; inversion Hrun; subst; cbn; [by exists s|].
  destruct (run_op_ok s o l'0) as (s1 & -> & Hs1 & E); [done..|]. cbn.
  apply IH; [done|by rewrite E].
Qed.
End Histories.

(** ** The B-tree implements it *)

(** A tree between operations, with the number a key is looked up by.  A deleted
    key must outlive its slot: without that the deletion is not the one of the
    list (see [slot_delete_wrong_key] and [bad_delete_undefined]). *)
Definition bt_store {K} `{KeyOrderLaws K} `{KeyOps K} (t : nat) (nbits : Z)
    (Hp : bt_params t nbits) (Hrep : rep_kept key_rep = true) : OrderedStore K (bt K).
Proof.
  refine {|
    store_inv := bt_wf t;
    store_keys := fun b => inorder (root b);
    store_find := fun b k => bt_find nbits b k (num_key k);
    store_insert := fun b k => bt_insert t nbits b k 0;
    store_delete := fun b k => '(b', _, _) ← bt_delete t nbits b k; Some b';
    store_replace := fun b k v => '(b', _) ← bt_replace nbits b k v; Some b';
  |}.
  - intros b Hb. apply Hb.
  - intros b k Hb. by apply (find_ok t nbits Hp).
  - intros b k Hb Hd. destruct (insert_ok t nbits Hp b k Hb Hd) as (b' & E & W & I & _).
    by exists b'.
  - intros b k a Hb Ha. destruct (delete_ok t nbits Hp Hrep b k a Hb Ha) as (b' & kd & E & _ & W & I & _).
    exists b'. by rewrite E.
  - intros b k v Hb Hv. destruct (replace_ok t nbits Hp b k v Hb Hv) as (b' & E & W & I).
    exists b'. by rewrite E.
Defined.

(** ** Cloning into another node size *)

Section Clone.
Context {K : Type} `{KeyOrder K} (t : nat) (nbits : Z).

(** Every key of [x] with its counter, then the subtrees. *)
Fixpoint bt_to_bt_insert (fuel : nat) (nbtr : bt K) (x : bt_n K) : option (bt K) :=
  match fuel with
  | O => None
  | S fuel' =>
      b ← foldl (fun acc i =>
                   b ← acc; be ← keys x !! i; odr ← getDR (ds x) i;
                   bt_insert t nbits b be odr)
                (Some nbtr) (seq 0 (n_keys x));
      if leaf x then Some b
      else foldl (fun acc c => b ← acc; bt_to_bt_insert fuel' b c) (Some b)
                 (take (n_keys x + 1) (nodes x))
  end.

(** [abt_resize]: [t] and [nbits] are those of the new tree, [dirty] is the
    [dirty] byte of the old one; the new header replaces the old. *)
Definition abt_resize (obtr : bt K) : option (bt K) :=
  bt_to_bt_insert (S (height (root obtr))) (bt_create (bdirty obtr)) (root obtr).
End Clone.

(** ** Lemmas *)

Section CloneFacts.
Context {K : Type} `{KeyOrderLaws K} (t' : nat) (nbits' : Z) (Hp : bt_params t' nbits').

Lemma ins_perm k (l : list K) : ins k l ≡ₚ k :: l.
Proof.
  induction l as [|a l IH]; cbn; [done|]. case_match; [done|].
  rewrite IH. constructor.
Qed.

(** Elements of a sorted list differ from one another. *)
Lemma sorted_perm_differs (m l : list K) a :
  ksorted m -> m ≡ₚ a :: l -> differs a l.
Proof.
  intros Hs Hperm. assert (Hin : a ∈ m) by (rewrite Hperm; by left).
  apply list_elem_of_split in Hin as (m1 & m2 & ->).
  destruct (sorted_around m1 m2 a a Hs (cmp_refl a)) as [D1 D2].
  rewrite <- Permutation_middle in Hperm. apply Permutation.Permutation_cons_inv in Hperm.
  unfold differs. rewrite <- Hperm. by apply Forall_app.
Qed.

Lemma ksorted_unique (l1 l2 : list K) : ksorted l1 -> ksorted l2 -> l1 ≡ₚ l2 -> l1 = l2.
Proof.
  apply StronglySorted_unique_strong. intros x1 x2 _ _ H1 H2. unfold klt in *.
  apply cmp_antisym in H1. lia.
Qed.

(** [b] holds the keys [l] and can receive the keys [r]. *)
Definition receives (b : bt K) (l r : list K) : Prop :=
  bt_wf t' b /\ inorder (root b) ≡ₚ l /\ exists m, ksorted m /\ m ≡ₚ l ++ r.

Lemma receive_one b l a r :
  receives b l (a :: r) ->
  exists b', bt_insert t' nbits' b a 0 = Some b' /\ receives b' (a :: l) r /\
    dirty_left b' = dirty_left b /\ bdirty b' = bdirty b.
Proof.
  intros (Hb & Hl & m & Hm & Hperm).
  assert (Hd : differs a (inorder (root b))).
  { rewrite <- Permutation_middle in Hperm.
    pose proof (sorted_perm_differs m (l ++ r) a Hm Hperm) as Hd.
    unfold differs. rewrite Hl. by apply Forall_app in Hd as [? _]. }
  destruct (insert_ok t' nbits' Hp b a Hb Hd) as (b' & -> & Hb' & I & _ & ? & ?).
  exists b'. split_and!; try done. split_and!; [done| |].
  - by rewrite I, ins_perm, Hl.
  - exists m. split; [done|]. rewrite Hperm. by rewrite <- Permutation_middle.
Qed.

Lemma receive_keys (x : bt_n K) (js : list nat) : forall b l r ks,
  clean (ds x) -> Forall2 (fun j k => keys x !! j = Some k) js ks ->
  receives b l (ks ++ r) ->
  exists b', foldl (fun acc i => b ← acc; be ← keys x !! i; odr ← getDR (ds x) i;
                      bt_insert t' nbits' b be odr) (Some b) js = Some b' /\
    receives b' (reverse ks ++ l) r /\
    dirty_left b' = dirty_left b /\ bdirty b' = bdirty b.
Proof.
  induction js as [|j js IH]; intros b l r ks Hc HF Hr; inversion HF; subst; [by exists b|].
  cbn [foldl mbind option_bind]. rewrite H3. cbn [mbind option_bind].
  rewrite getDR_clean by done. cbn [mbind option_bind app] in *.
  destruct (receive_one b l y _ Hr) as (b1 & -> & Hr1 & E1 & E2).
  destruct (IH b1 (y :: l) r l') as (b' & E & Hr' & E3 & E4); [done..|].
  exists b'. rewrite E. split_and!; [done| |congruence|congruence].
  by rewrite reverse_cons, <- app_assoc.
Qed.

Lemma receives_perm b l l' r r' :
  l ≡ₚ l' -> r ≡ₚ r' -> receives b l r -> receives b l' r'.
Proof.
  intros Hl Hr (Hb & Hi & m & Hm & Hperm). split_and!; [done|by rewrite Hi|].
  exists m. split; [done|]. by rewrite Hperm, Hl, Hr.
Qed.

Lemma zipr_perm (ks : list K) : forall ls, length ks = length ls ->
  zipr ks ls ≡ₚ ks ++ concat ls.
Proof.
  induction ks as [|k ks IH]; intros [|l ls] Hl; try done. simpl in Hl.
  rewrite zipr_cons. cbn. constructor. rewrite IH by lia.
  by rewrite !app_assoc, (Permutation_app_comm l).
Qed.

Lemma flat_perm (ls : list (list K)) ks :
  length ls = S (length ks) \/ ls = [] -> flat ls ks ≡ₚ ks ++ concat ls.
Proof.
  intros [Hl | ->]; [|by rewrite app_nil_r]. destruct ls as [|l ls]; [done|].
  simpl in Hl. cbn. rewrite zipr_perm by lia. by rewrite !app_assoc, (Permutation_app_comm l).
Qed.

(** The part of the statement that does not depend on the node. *)
Definition cloned (res : option (bt K)) (b : bt K) (l r : list K) : Prop :=
  exists b', res = Some b' /\ receives b' l r /\
    dirty_left b' = dirty_left b /\ bdirty b' = bdirty b.

Lemma clone_nodes fuel (ns : list (bt_n K)) :
  Forall (fun c => forall b l r, receives b l (inorder c ++ r) ->
    cloned (bt_to_bt_insert t' nbits' fuel b c) b (inorder c ++ l) r) ns ->
  forall b l r, receives b l (concat (map inorder ns) ++ r) ->
  cloned (foldl (fun acc c => b ← acc; bt_to_bt_insert t' nbits' fuel b c) (Some b) ns)
    b (concat (map inorder ns) ++ l) r.
Proof.
  induction 1 as [|c ns Hc _ IH]; intros b l r Hr; [by exists b|].
  cbn [map concat] in *. rewrite <- app_assoc in Hr.
  destruct (Hc b l _ Hr) as (b1 & E & Hr1 & E1 & E2).
  destruct (IH b1 _ r Hr1) as (b' & E' & Hr' & E3 & E4).
  exists b'. cbn [foldl mbind option_bind]. rewrite E, E'. split_and!; [done| |congruence..].
  eapply receives_perm; [|done|exact Hr'].
  by rewrite !app_assoc, (Permutation_app_comm (inorder c)).
Qed.

Lemma clone_node t : forall fuel lo h (x : bt_n K) b l r,
  wf t lo h x -> (h < fuel)%nat -> receives b l (inorder x ++ r) ->
  cloned (bt_to_bt_insert t' nbits' fuel b x) b (inorder x ++ l) r.
Proof.
  induction fuel as [|fuel IH]; intros lo h x b l r Hx Hf Hr; [lia|].
  cbn [bt_to_bt_insert].
  pose proof (flat_perm _ _ (wf_shape t lo h x Hx)) as Hperm. rewrite <- inorder_flat in Hperm.
  assert (Hr0 : receives b l (keys x ++ concat (map inorder (nodes x)) ++ r)).
  { eapply receives_perm; [done| |exact Hr]. by rewrite Hperm, <- app_assoc. }
  destruct (receive_keys x (seq 0 (n_keys x)) b l
    (concat (map inorder (nodes x)) ++ r) (keys x)) as (b1 & -> & Hr1 & E1 & E2);
    [by eapply wf_clean| |exact Hr0|].
  { apply Forall2_same_length_lookup_2; [by rewrite length_seq|].
    intros i j k Hj Hk. apply lookup_seq in Hj as [-> _]. done. }
  cbn [mbind option_bind]. rewrite (wf_leaf t lo h x Hx). apply wf_unfold in Hx as (_ & _ & _ & Hh).
  destruct h as [|h].
  - destruct Hh as [_ Hns]. rewrite Hns in *. exists b1. split_and!; try done.
    eapply receives_perm; [|done|exact Hr1]. rewrite Hperm. cbn.
    by rewrite app_nil_r, reverse_Permutation.
  - destruct Hh as (_ & Hl & HF). rewrite take_ge by (unfold n_keys in *; lia).
    destruct (clone_nodes fuel (nodes x)) with (b := b1) (l := reverse (keys x) ++ l) (r := r)
      as (b' & E & Hr' & E3 & E4); [|exact Hr1|].
    { eapply Forall_impl; [exact HF|]. intros c Hc b0 l0 r0 Hr2. by apply (IH (t - 1)%nat h); [|lia|]. }
    exists b'. rewrite E. split_and!; [done| |congruence..].
    eapply receives_perm; [|done|exact Hr']. rewrite Hperm, reverse_Permutation, app_assoc.
    by rewrite (Permutation_app_comm (keys x)).
Qed.
End CloneFacts.

(** The clone holds the keys of the original. *)
Lemma resize_ok {K} `{KeyOrderLaws K}
    (t : nat) (t' : nat) (nbits' : Z) (obtr : bt K) :
  bt_params t' nbits' -> bt_wf t obtr ->
  exists nbtr, abt_resize t' nbits' obtr = Some nbtr /\ bt_wf t' nbtr /\
    inorder (root nbtr) = inorder (root obtr) /\ bdirty nbtr = bdirty obtr /\
    dirty_left nbtr = 0.
Proof.
  intros Hp ((h & Hwf) & Hs & Hn). unfold abt_resize. rewrite (wf_height t _ _ _ Hwf).
  destruct (clone_node t' nbits' Hp t (S h) _ h (root obtr) (bt_create (bdirty obtr)) [] [] Hwf)
    as (b' & -> & (Hb & Hi & _) & E1 & E2).
  - lia.
  - split_and!; [apply bt_create_wf|done|]. exists (inorder (root obtr)).
    by rewrite app_nil_r.
  - exists b'. split_and!; try done. rewrite app_nil_r in Hi.
    apply ksorted_unique; [apply Hb|done|done].
Qed.

(** ** Properties *)

(** C2: in a tree that holds its keys by value or copies out the one it deletes,
    every history of operations in which inserted keys are absent, deleted keys
    present and replacements equal to their key runs to completion from a new
    tree, and ends in a well-formed tree whose keys are those of the reference: a
    sorted list driven through the same history. *)
Theorem history_refines {K} `{KeyOrderLaws K} `{KeyOps K}
    (t : nat) (nbits : Z) (Hp : bt_params t nbits) (Hrep : rep_kept key_rep = true)
    (dirty : bool) (os : list (op K)) (l : list K) :
  ref_run [] os l ->
  exists b, @run_ops K (bt K) _ (bt_store t nbits Hp Hrep) (bt_create dirty) os = Some b /\
    bt_wf t b /\ ksorted (inorder (root b)) /\ inorder (root b) = l.
Proof.
  intros Hrun.
  destruct (@run_ops_ok K (bt K) _ (bt_store t nbits Hp Hrep) os (bt_create dirty) l)
    as (b & E & W & I); [apply bt_create_wf|exact Hrun|].
  exists b. split_and!; [done|done|apply W|done].
Qed.

(** [abt_resize] on a well-formed tree without evicted rows succeeds: the
    clone, built by inserting every key into a new tree of the other node size,
    is well formed and holds the same keys. *)
Theorem resize_same_keys {K} `{KeyOrderLaws K}
    (t : nat) (t' : nat) (nbits' : Z) (obtr : bt K) :
  bt_params t' nbits' -> bt_wf t obtr ->
  exists nbtr, abt_resize t' nbits' obtr = Some nbtr /\ bt_wf t' nbtr /\
    inorder (root nbtr) = inorder (root obtr) /\ bdirty nbtr = bdirty obtr /\
    dirty_left nbtr = 0.
Proof. apply resize_ok. Qed.

(** ** Witnesses *)

#[local] Existing Instances z_order z_order_laws z_ops.

Lemma params_4 : bt_params 4 4.
Proof. split; [lia|unfold log_width; lia|cbn; lia]. Qed.

(** Twenty insertions, enough to split the root twice over, then deletions and a
    replacement. *)
Definition sample_ops : list (op Z) :=
  (OpInsert <$> [50; 20; 90; 10; 70; 30; 80; 40; 60; 100; 15; 25; 35; 45; 55; 65; 75; 85; 95; 5])
  ++ [OpDelete 40; OpDelete 50; OpReplace 60 60; OpDelete 5].

Lemma sample_run :
  ref_run [] sample_ops [10; 15; 20; 25; 30; 35; 45; 55; 60; 65; 70; 75; 80; 85; 90; 95; 100].
Proof.
  unfold sample_ops. cbn [fmap list_fmap app].
  repeat (eapply ref_cons;
    [first [ apply ref_insert; repeat constructor; cbn; done
           | eapply ref_delete; reflexivity
           | apply ref_replace; reflexivity ]|];
    match goal with |- ref_run ?l ?os ?r =>
      let l' := eval vm_compute in l in change (ref_run l' os r) end).
  constructor.
Qed.

Lemma z_kept : rep_kept (@key_rep Z z_ops) = true.
Proof. reflexivity. Qed.

Lemma history_refines_witness :
  exists b, @run_ops Z (bt Z) _ (bt_store 4 4 params_4 z_kept) (bt_create true) sample_ops = Some b /\
    bt_wf 4 b /\ ksorted (inorder (root b)) /\
    inorder (root b) = [10; 15; 20; 25; 30; 35; 45; 55; 60; 65; 70; 75; 80; 85; 90; 95; 100].
Proof. apply (history_refines 4 4 params_4 z_kept true sample_ops). apply sample_run. Defined.

Lemma resize_same_keys_witness :
  exists nbtr, abt_resize 128 16 sample = Some nbtr /\ bt_wf 128 nbtr /\
    inorder (root nbtr) = inorder (root sample) /\ bdirty nbtr = bdirty sample /\
    dirty_left nbtr = 0.
Proof.
  apply (resize_same_keys 2 128 16 sample); [|apply sample_wf].
  split; [lia|unfold log_width; lia|cbn; lia].
Defined.

