(* ===== verification/BtIter.v ===== *)
(** * Iterators ([DB/bt_iterator.c], [DB/bt_code.c])

    An iterator is a path of frames from the current node up to the root, each
    with a key index [ik] and a child index [in]; [btNext] returns the key under
    it and moves to the next one, up or down.  The frames live in an array of
    [MAX_BTREE_DEPTH] and the iterators in an array of [MAX_NUM_ITERS], so a
    tree too deep or a leaked iterator is an assertion failure, [None].

    What an iterator needs of the keys beyond their order is the interface
    [KeyStream]: the conversions between the stored key and the [aobj], and the
    ghost test. *)

From S2P Require Import Prelude CStr Aobj BtSearch DirtyStream Btree.

(** The interface to the key encoding: [btr->s.ktype], [convertStream2Key],
    [createBTKey] ([None] is its NULL) and [isGhostRow]. *)
Class KeyStream (K : Type) := {
  kt : Z;
  conv : K -> aobj;
  mk : aobj -> option K;
  is_ghost : K -> bool;
}.

Definition MAX_BTREE_DEPTH : nat := 16.
Definition MAX_NUM_ITERS : Z := 64.

(** Results of [bt_init_iterator]. *)
Inductive ii := II_FAIL | II_OK | II_LEAF_EXIT | II_ONLY_RIGHT | II_MISS | II_L_MISS.

(** [iter_single]: the functions an iterator steps with. *)
Inductive iter_fn :=
| iter_leaf | iter_leaf_rev | iter_node | iter_node_rev
| iter_leaf_scion | iter_leaf_scion_rev | iter_node_scion | iter_node_scion_rev
| iter_leaf_dirty_scion | iter_leaf_dirty_scion_rev.

(** The state of an OFFSET. *)
Record fol_t := Fol { fl_cnt : Z; fl_ofst : Z; fl_diff : Z; fl_over : Z }.

Record bt_ll_n (K : Type) := Ln { self : bt_n K; ik : Z; in_ : Z }.
Arguments Ln {K} _ _ _.
Arguments self {K} _.
Arguments ik {K} _.
Arguments in_ {K} _.

(** [bln] is the head of [frames]; [num_nodes] frames have been allocated, and
    the frame under [bln] is one of them unless [bln] is the last. *)
Record btIterator (K : Type) := It {
  frames : list (bt_ll_n K); num_nodes : nat; finished : bool;
  iLeaf : iter_fn; iNode : iter_fn; data : fol_t;
}.
Arguments It {K} _ _ _ _ _ _.
Arguments frames {K} _.
Arguments num_nodes {K} _.
Arguments finished {K} _.
Arguments iLeaf {K} _.
Arguments iNode {K} _.
Arguments data {K} _.

(** [be.key] and [be.val] are functions of [be.stream]. *)
Record btEntry (K : Type) := Be {
  be_stream : K; be_x : option (bt_n K); be_i : Z; be_dr : Z;
}.
Arguments Be {K} _ _ _ _.
Arguments be_stream {K} _.
Arguments be_x {K} _.
Arguments be_i {K} _.
Arguments be_dr {K} _.

(** The bound the iteration runs to, by the type of the key. *)
Record highs_t := Highs { high : Z; highx : Z; highf : Z; highs : option (list Z) }.

Record btSIter (K : Type) := Si {
  it : btIterator K; si_high : highs_t;
  missed : bool; nim : bool; empty : bool; scan : bool;
  be : option (btEntry K);
}.
Arguments Si {K} _ _ _ _ _ _ _.
Arguments it {K} _.
Arguments si_high {K} _.
Arguments missed {K} _.
Arguments nim {K} _.
Arguments empty {K} _.
Arguments scan {K} _.
Arguments be {K} _.

Section Records.
Context {K : Type}.
Implicit Types (i : btIterator K) (s : btSIter K).

Definition set_frames i fs : btIterator K :=
  It fs (num_nodes i) (finished i) (iLeaf i) (iNode i) (data i).
Definition set_num_nodes i n : btIterator K :=
  It (frames i) n (finished i) (iLeaf i) (iNode i) (data i).
Definition set_finished i : btIterator K :=
  It (frames i) (num_nodes i) true (iLeaf i) (iNode i) (data i).
Definition set_fns i l n : btIterator K :=
  It (frames i) (num_nodes i) (finished i) l n (data i).
Definition set_data i d : btIterator K :=
  It (frames i) (num_nodes i) (finished i) (iLeaf i) (iNode i) d.

Definition set_it s i : btSIter K :=
  Si i (si_high s) (missed s) (nim s) (empty s) (scan s) (be s).
Definition set_missed s m : btSIter K :=
  Si (it s) (si_high s) m (nim s) (empty s) (scan s) (be s).
Definition set_nim s m : btSIter K :=
  Si (it s) (si_high s) (missed s) m (empty s) (scan s) (be s).
Definition set_empty s e : btSIter K :=
  Si (it s) (si_high s) (missed s) (nim s) e (scan s) (be s).
Definition set_scan s e : btSIter K :=
  Si (it s) (si_high s) (missed s) (nim s) (empty s) e (be s).
Definition set_be s e : btSIter K :=
  Si (it s) (si_high s) (missed s) (nim s) (empty s) (scan s) e.

(** [KEYS] and [NODES] at an [int] index. *)
Definition KEYS (x : bt_n K) (i : Z) : option K :=
  if i <? 0 then None else keys x !! Z.to_nat i.
Definition NODES (x : bt_n K) (i : Z) : option (bt_n K) :=
  if i <? 0 then None else nodes x !! Z.to_nat i.
Definition n_of (x : bt_n K) : Z := Z.of_nat (n_keys x).
Definition drAt (x : bt_n K) (i : Z) : option Z :=
  if i <? 0 then None else getDR (ds x) (Z.to_nat i).

(** ** Moving along the path *)

Definition get_new_iter_child i : option (btIterator K) :=
  if (num_nodes i <? MAX_BTREE_DEPTH)%nat then Some (set_num_nodes i (S (num_nodes i))) else None.

(** [bln->child] is set exactly when a frame below [bln] has been allocated. *)
Definition GET_NEW_CHILD i : option (btIterator K) :=
  if (num_nodes i <=? length (frames i))%nat then get_new_iter_child i else Some i.

Definition to_child i (x : bt_n K) : option (btIterator K) :=
  if (length (frames i) <? num_nodes i)%nat
  then Some (set_frames i (Ln x 0 0 :: frames i)) else None.

Definition to_child_rev i (x : bt_n K) : option (btIterator K) :=
  if (length (frames i) <? num_nodes i)%nat
  then Some (set_frames i (Ln x (n_of x - 1) (n_of x) :: frames i)) else None.

Fixpoint tochildrecurse (fuel : nat) i (x : bt_n K) : option (btIterator K) :=
  match fuel with
  | O => None
  | S fuel' =>
      i ← to_child i x;
      if leaf x then Some i
      else
        i ← GET_NEW_CHILD i;
        c ← NODES x 0;
        tochildrecurse fuel' i c
  end.

Fixpoint tochildrecurserev (fuel : nat) i (x : bt_n K) : option (btIterator K) :=
  match fuel with
  | O => None
  | S fuel' =>
      i ← to_child_rev i x;
      if leaf x then Some i
      else
        i ← GET_NEW_CHILD i;
        c ← NODES x (n_of x);
        tochildrecurserev fuel' i c
  end.
End Records.

Section Iterators.
Context {K : Type} `{KeyOrder K} `{KeyOps K} `{KeyStream K} (nbits : Z).

(** From the frame [f] to its ancestors; the flag is [finished]. *)
Fixpoint up (f : bt_ll_n K) (fs : list (bt_ll_n K)) : option (list (bt_ll_n K) * bool) :=
  match fs with
  | [] => Some ([f], true)
  | p :: rest =>
      child ← KEYS (self f) (ik f);
      parent ← KEYS (self p) (ik p);
      let n := n_of (self p) in
      if 0 <? cmp child parent then
        let ik' := if ik p + 1 <? n then ik p + 1 else ik p in
        if in_ p + 1 <? n then Some (Ln (self p) ik' (in_ p + 1) :: rest, false)
        else up (Ln (self p) ik' (in_ p)) rest
      else Some (p :: rest, false)
  end.

Fixpoint up_rev (f : bt_ll_n K) (fs : list (bt_ll_n K)) : option (list (bt_ll_n K) * bool) :=
  match fs with
  | [] => Some ([f], true)
  | p :: rest =>
      child ← KEYS (self f) (ik f);
      parent ← KEYS (self p) (ik p);
      let n := n_of (self p) in
      let last fs := match fs with
                     | (p :: rest, b) =>
                         (Ln (self p) (ik p) (if in_ p =? n_of (self p) then in_ p - 1 else in_ p)
                            :: rest, b)
                     | r => r
                     end in
      if cmp child parent <? 0 then
        let ik' := if ik p =? 0 then ik p else ik p - 1 in
        if in_ p =? 0 then option_map last (up_rev (Ln (self p) ik' (in_ p)) rest)
        else Some (last (Ln (self p) ik' (in_ p - 1) :: rest, false))
      else Some (last (p :: rest, false))
  end.

Definition with_up (r : option (list (bt_ll_n K) * bool)) (i : btIterator K)
  : option (btIterator K) :=
  '(fs, fin) ← r;
  let i := set_frames i fs in Some (if fin : bool then set_finished i else i).

Definition toparentrecurse (i : btIterator K) : option (btIterator K) :=
  match frames i with f :: fs => with_up (up f fs) i | [] => None end.
Definition toparentrecurserev (i : btIterator K) : option (btIterator K) :=
  match frames i with f :: fs => with_up (up_rev f fs) i | [] => None end.

(** ** The steps *)

Definition set_top (i : btIterator K) (f : bt_ll_n K) : btIterator K :=
  set_frames i (f :: tail (frames i)).
Definition top (i : btIterator K) : option (bt_ll_n K) := head (frames i).

(** The child [in] of the current node, entered. *)
Definition enter (i : btIterator K) : option (btIterator K) :=
  i ← GET_NEW_CHILD i;
  f ← top i;
  c ← NODES (self f) (in_ f);
  tochildrecurse (S (height c)) i c.
Definition enter_rev (i : btIterator K) : option (btIterator K) :=
  i ← GET_NEW_CHILD i;
  f ← top i;
  c ← NODES (self f) (in_ f);
  tochildrecurserev (S (height c)) i c.

Definition step_leaf (i : btIterator K) : option (btIterator K) :=
  f ← top i;
  if ik f + 1 <? n_of (self f) then Some (set_top i (Ln (self f) (ik f + 1) (in_ f)))
  else toparentrecurse i.

Definition step_node (i : btIterator K) : option (btIterator K) :=
  f ← top i;
  let n := n_of (self f) in
  let ik' := if ik f + 1 <? n then ik f + 1 else ik f in
  let in' := if in_ f + 1 <=? n then in_ f + 1 else in_ f in
  enter (set_top i (Ln (self f) ik' in')).

Definition step_leaf_rev (i : btIterator K) : option (btIterator K) :=
  f ← top i;
  if ik f =? 0 then toparentrecurserev i
  else Some (set_top i (Ln (self f) (ik f - 1) (in_ f))).

Definition step_node_rev (i : btIterator K) : option (btIterator K) := enter_rev i.

(** The steps of an OFFSET: whole leaves and subtrees are skipped by their
    counts until [ofst] falls inside the one at hand. *)
Definition step_leaf_scion (i : btIterator K) : option (btIterator K) :=
  f ← top i;
  let fl := data i in
  let cnt := n_of (self f) - ik f in
  if fl_ofst fl <=? fl_cnt fl + cnt then
    Some (set_data i (Fol (fl_cnt fl) (fl_ofst fl) (fl_diff fl) (fl_ofst fl - fl_cnt fl)))
  else
    let c := fl_cnt fl + cnt in
    let i := set_data i (Fol c (fl_ofst fl) (fl_ofst fl - c) (fl_over fl)) in
    toparentrecurse (set_top i (Ln (self f) (n_of (self f) - 1) (n_of (self f)))).

(** [fl->cnt += n; fl->diff = fl->ofst - fl->cnt] *)
Definition fl_add (fl : fol_t) (n : Z) : fol_t :=
  Fol (fl_cnt fl + n) (fl_ofst fl) (fl_ofst fl - (fl_cnt fl + n)) (fl_over fl).
Definition set_over (i : btIterator K) (o : Z) : btIterator K :=
  set_data i (Fol (fl_cnt (data i)) (fl_ofst (data i)) (fl_diff (data i)) o).
Definition stop_at_zero (i : btIterator K) : btIterator K :=
  if fl_diff (data i) =? 0 then set_over i 0 else i.

Definition step_node_scion (dirty : bool) (i : btIterator K) : option (btIterator K) :=
  f ← top i;
  let n := n_of (self f) in
  let kid_in := u8 (if in_ f =? n then in_ f else in_ f + 1) in
  kid ← NODES (self f) kid_in;
  dr ← (if dirty then drAt (self f) (ik f) else Some 0);
  if scion kid <? fl_diff (data i) then
    let i := set_data i (fl_add (data i) (scion kid + 1 + dr)) in
    if fl_diff (data i) <? 0 then Some (set_over i 0)
    else
      let ik' := if ik f + 1 <? n then ik f + 1 else ik f in
      i ← (if in_ f + 1 <? n then Some (set_top i (Ln (self f) ik' (in_ f + 1)))
           else toparentrecurse (set_top i (Ln (self f) ik' (in_ f))));
      Some (stop_at_zero i)
  else
    let i := set_data i (fl_add (data i) (1 + dr)) in
    if fl_diff (data i) <? 0 then Some (set_over i 0)
    else
      let ik' := if ik f + 1 <? n then ik f + 1 else ik f in
      i ← enter (set_top i (Ln (self f) ik' (in_ f + 1)));
      Some (stop_at_zero i).

(** The loop of [iter_leaf_dirty_scion] over the keys from [ik] on. *)
Fixpoint dirty_scion_loop (fuel : nat) (i : btIterator K) (f : bt_ll_n K) (cnt : Z)
  : option (btIterator K) :=
  match fuel with
  | O => None
  | S fuel' =>
      let fl := data i in
      if ik f <? n_of (self f) then
        k ← KEYS (self f) (ik f);
        dr ← drAt (self f) (ik f);
        let cnt := cnt + (if is_ghost k then 0 else 1) + dr in
        let fcnt := fl_cnt fl + cnt in
        let next := Ln (self f) (ik f + 1) (in_ f) in
        if fcnt =? fl_ofst fl then Some (set_over (set_top i next) 0)
        else if fl_ofst fl <? fcnt then Some (set_over (set_top i f) (fcnt - fl_ofst fl))
        else dirty_scion_loop fuel' i next cnt
      else
        (* past the end: [toparentrecurse] reads the key at [ik == n] *)
        toparentrecurse (set_top (set_data i (fl_add fl cnt)) (Ln (self f) (ik f) (n_of (self f))))
  end.
Definition step_leaf_dirty_scion (i : btIterator K) : option (btIterator K) :=
  f ← top i; dirty_scion_loop (S (n_keys (self f))) i f 0.

Definition step_leaf_scion_rev (i : btIterator K) : option (btIterator K) :=
  f ← top i;
  let fl := data i in
  let cnt := ik f + 1 in
  if fl_ofst fl <=? fl_cnt fl + cnt then Some (set_over i (fl_ofst fl - fl_cnt fl))
  else
    toparentrecurserev (set_top (set_data i (fl_add fl cnt)) (Ln (self f) 0 0)).

Definition step_node_scion_rev (dirty : bool) (i : btIterator K) : option (btIterator K) :=
  f ← top i;
  kid ← NODES (self f) (in_ f);
  dr ← (if dirty then drAt (self f) (ik f) else Some 0);
  if scion kid <? fl_diff (data i) then
    let i := set_data i (fl_add (data i) (scion kid + 1 + dr)) in
    if fl_diff (data i) <? 0 then Some (set_over i 0)
    else
      let ik' := if ik f =? 0 then ik f else ik f - 1 in
      i ← (if in_ f =? 0 then toparentrecurserev (set_top i (Ln (self f) ik' (in_ f)))
           else Some (set_top i (Ln (self f) ik' (in_ f - 1))));
      Some (stop_at_zero i)
  else
    let i := set_data i (fl_add (data i) (1 + dr)) in
    if fl_diff (data i) <? 0 then Some (set_over i 0)
    else i ← enter_rev i; Some (stop_at_zero i).

Fixpoint dirty_scion_rev_loop (fuel : nat) (i : btIterator K) (f : bt_ll_n K) (cnt : Z)
  : option (btIterator K) :=
  match fuel with
  | O => None
  | S fuel' =>
      let fl := data i in
      if 0 <=? ik f then
        k ← KEYS (self f) (ik f);
        dr ← drAt (self f) (ik f);
        let cnt := cnt + dr in
        let fcnt := fl_cnt fl + cnt in
        if fl_ofst fl <=? fcnt then Some (set_over (set_top i f) (fcnt - fl_ofst fl))
        else dirty_scion_rev_loop fuel' i (Ln (self f) (ik f - 1) (in_ f))
               (if is_ghost k then cnt else cnt + 1)
      else
        toparentrecurserev (set_top (set_data i (fl_add fl cnt)) (Ln (self f) 0 0))
  end.
Definition step_leaf_dirty_scion_rev (i : btIterator K) : option (btIterator K) :=
  f ← top i; dirty_scion_rev_loop (S (n_keys (self f))) i f 0.

(** The call through the function pointer. *)
Definition iter_call (dirty : bool) (fn : iter_fn) (i : btIterator K) : option (btIterator K) :=
  match fn with
  | iter_leaf => step_leaf i
  | iter_leaf_rev => step_leaf_rev i
  | iter_node => step_node i
  | iter_node_rev => step_node_rev i
  | iter_leaf_scion => step_leaf_scion i
  | iter_leaf_scion_rev => step_leaf_scion_rev i
  | iter_node_scion => step_node_scion dirty i
  | iter_node_scion_rev => step_node_scion_rev dirty i
  | iter_leaf_dirty_scion => step_leaf_dirty_scion i
  | iter_leaf_dirty_scion_rev => step_leaf_dirty_scion_rev i
  end.

(** The key returned with its node and index, [None] for NULL. *)
Definition btNext (dirty : bool) (s : btSIter K) (asc : bool)
  : option (btSIter K * option (K * bt_n K * Z)) :=
  if finished (it s) then
    Some (if scan s then set_missed s (nim s) else s, None)
  else
    let s := if asc then set_missed s (nim s) else s in
    f ← top (it s);
    curr ← KEYS (self f) (ik f);
    dr ← drAt (self f) (ik f);
    let s := set_nim s (negb (dr =? 0)) in
    i ← iter_call dirty (if leaf (self f) then iLeaf (it s) else iNode (it s)) (it s);
    Some (set_it s i, Some (curr, self f, ik f)).

(** ** Initialisation *)

(** The number [key_covers_miss] takes from the [aobj]. *)
Definition qkey_of (a : aobj) : Z := if C_IS_I kt then ao_i a else ao_l a.

(** [findkindex] with the iterator's frame. *)
Definition findkindex_it (i : btIterator K) (x : bt_n K) (k : K) (r0 : Z)
  : option (btIterator K * Z * Z) :=
  '(j, r) ← findkindex nbits (keys x) k r0;
  if (n_keys x =? 0)%nat then Some (i, j, r)
  else
    f ← top i;
    Some (set_top i (Ln (self f) (iter_slot j) (iter_slot j)), j, r).

Fixpoint init_loop (fuel : nat) (i : btIterator K) (x : bt_n K) (k : K) (qkey r : Z)
    (lmiss only_right : bool) : option (btIterator K * ii) :=
  match fuel with
  | O => None
  | S fuel' =>
      '(i, j, r) ← findkindex_it i x k r;
      if (0 <=? j) && (r =? 0) then Some (i, if lmiss then II_L_MISS else II_OK)
      else
        miss ← key_covers_miss x j qkey;
        if miss : bool then Some (i, II_MISS)
        else
          let only_right := only_right && negb ((r <? 0) || negb (j =? n_of x - 1)) in
          if leaf x then
            Some (i, if only_right && (j =? n_of x - 1) then II_ONLY_RIGHT else II_LEAF_EXIT)
          else
            i ← get_new_iter_child i;
            c ← NODES x (j + 1);
            i ← to_child i c;
            init_loop fuel' i c k qkey r lmiss only_right
  end.

Definition check_min_miss (btr : bt K) (alow : aobj) : option bool :=
  if dirty_left btr =? 0 then Some false
  else
    m ← bt_min btr;
    m ← m;
    aobjEQ alow (conv m).

Definition bt_init_iterator (btr : bt K) (k : K) (i : btIterator K) (alow : aobj)
  : option (btIterator K * ii) :=
  lmiss ← check_min_miss btr alow;
  init_loop (S (height (root btr))) i (root btr) k (qkey_of alow) (-1) lmiss true.

(** The stream found, with its node and index; [None] for NULL. *)
Definition setIter (btr : bt K) (bkey : K) (s : btSIter K) (alow : aobj) (asc : bool)
  : option (btSIter K * option (K * bt_n K * Z)) :=
  '(i, ret) ← bt_init_iterator btr bkey (it s) alow;
  let s := set_it s i in
  f ← top i;
  let here s := k ← KEYS (self f) (ik f); Some (s, Some (k, self f, ik f)) in
  match ret with
  | II_FAIL => Some (s, None)
  | II_L_MISS => Some (set_missed (set_nim (set_empty s false) true) true, None)
  | II_MISS => here (set_missed (set_nim (set_empty s false) true) true)
  | II_OK => here (set_empty s false)
  | II_ONLY_RIGHT | II_LEAF_EXIT =>
      k ← KEYS (self f) (ik f);
      if 0 <? cmp bkey k then
        match ret with
        | II_ONLY_RIGHT => Some (set_empty s true, None)
        | _ => btNext (bdirty btr) (set_empty s false) asc
        end
      else here (set_empty s false)
  end.

(** [FLT_MIN] *)
Definition init_highs : highs_t := Highs 0 0 8388608 None.

Definition init_iter (btr : bt K) (itl itn : iter_fn) : btIterator K :=
  It [Ln (root btr) 0 0] 1 false itl itn (Fol 0 0 0 0).

(** [WhichIter] is the state of the iterator array. *)
Definition createIterator (which : Z) (btr : bt K) (itl itn : iter_fn)
  : option (Z * btSIter K) :=
  if (0 <=? which) && (which <? MAX_NUM_ITERS) then
    Some (which + 1, Si (init_iter btr itl itn) init_highs false false true false None)
  else None.
Definition CR8ITER8R (which : Z) (btr : bt K) (asc : bool) : option (Z * btSIter K) :=
  createIterator which btr (if asc then iter_leaf else iter_leaf_rev)
    (if asc then iter_node else iter_node_rev).

Definition btReleaseRangeIterator (which : Z) (s : option (btSIter K)) : Z :=
  match s with None => which | Some _ => which - 1 end.

Definition setHigh (s : btSIter K) (h : aobj) : option (btSIter K) :=
  let with_high hs := Some (Si (it s) hs (missed s) (nim s) (empty s) (scan s) (be s)) in
  let h0 := si_high s in
  if C_IS_S kt then str ← ao_str h; with_high (Highs (high h0) (highx h0) (highf h0) (Some (str ++ [0])))
  else if C_IS_I kt then with_high (Highs (ao_i h) (highx h0) (highf h0) (highs h0))
  else if C_IS_L kt then with_high (Highs (ao_l h) (highx h0) (highf h0) (highs h0))
  else if C_IS_X kt then with_high (Highs (high h0) (ao_x h) (highf h0) (highs h0))
  else if C_IS_F kt then with_high (Highs (high h0) (highx h0) (ao_f h) (highs h0))
  else Some s.

(** ** Entries *)

(** The entry for a stream; [false] when there is none. *)
Definition streamToBTEntry (s : btSIter K) (e : option (K * bt_n K * Z))
  : option (btSIter K * bool) :=
  match e with
  | None => Some (s, false)
  | Some (k, x, i) =>
      let i := if i <? 0 then 0 else i in
      let s := if is_ghost k then set_nim (set_missed s true) false else s in
      dr ← drAt x i;
      Some (set_be s (Some (Be k (Some x) i dr)), true)
  end.

Definition btGetRangeIter (which : Z) (btr : bt K) (alow ahigh : aobj) (asc : bool)
  : option (Z * option (btSIter K)) :=
  if numkeys btr =? 0 then Some (which, None)
  else
    '(which, s) ← CR8ITER8R which btr asc;
    s ← setHigh s (if asc then ahigh else alow);
    match mk (if asc then alow else ahigh) with
    | None => Some (which, None)
    | Some bkey =>
        '(s, e) ← setIter btr bkey s (if asc then alow else ahigh) asc;
        '(s, ok) ← streamToBTEntry s e;
        Some (which, if ok : bool then Some s else None)
    end.

Definition stop_if (b : bool) (s : btSIter K) : btSIter K :=
  if b then set_it s (set_finished (it s)) else s.

Definition sf_cmp (a b : Z) : option comparison :=
  SpecFloat.SFcompare (f32_of_bits a) (f32_of_bits b).

(** The next entry, [None] when the range is exhausted. *)
Definition btRangeNext (dirty : bool) (s : btSIter K) (asc : bool)
  : option (btSIter K * option (btEntry K)) :=
  if empty s then Some (s, None)
  else
    '(s, e) ← btNext dirty s asc;
    '(s, ok) ← streamToBTEntry s e;
    match be s, e with
    | Some b, Some (k, x, i) =>
        let key := conv k in
        let hs := si_high s in
        if C_IS_I kt || C_IS_L kt then
          let l := if C_IS_I kt then ao_i key else ao_l key in
          let s := stop_if (l =? high hs) s in
          dr ← drAt x i;
          let l := if asc then l else u64 (l + dr) in
          let over := if asc then high hs <? l else l <? high hs in
          let s := if over && nim s then set_missed s true else s in
          Some (s, if over then None else Some b)
        else if C_IS_X kt then
          let xx := ao_x key in
          let s := stop_if (xx =? highx hs) s in
          dr ← drAt x i;
          let xx := if asc then xx else u128 (xx + dr) in
          let over := if asc then highx hs <? xx else xx <? highx hs in
          Some (s, if over then None else Some b)
        else if C_IS_F kt then
          let c := sf_cmp (ao_f key) (highf hs) in
          let s := stop_if (match c with Some Eq => true | _ => false end) s in
          let ok := match c with
                    | Some Eq => true
                    | Some Lt => asc
                    | Some Gt => negb asc
                    | None => false
                    end in
          Some (s, if ok : bool then Some b else None)
        else
          ks ← deref (ao_s key);
          hstr ← highs hs;
          r ← strncmp ks hstr (Z.to_nat (ao_len key));
          let s := stop_if (r =? 0) s in
          Some (s, if (if asc then r <=? 0 else 0 <=? r) then Some b else None)
    | _, _ => Some (s, None)
    end.

Definition assignMinKey (btr : bt K) : option (option aobj) :=
  m ← bt_min btr; Some (option_map conv m).
Definition assignMaxKey (btr : bt K) : option (option aobj) :=
  m ← bt_max btr; Some (option_map conv m).

Definition btGetFullRangeIter (which : Z) (btr : bt K) (asc : bool)
  : option (Z * option (btSIter K)) :=
  if numkeys btr =? 0 then Some (which, None)
  else
    aL ← assignMinKey btr; aH ← assignMaxKey btr;
    match aL, aH with
    | Some aL, Some aH =>
        '(which, s) ← CR8ITER8R which btr asc;
        let s := set_scan s true in
        s ← setHigh s (if asc then aH else aL);
        match mk (if asc then aL else aH) with
        | None => Some (which, None)
        | Some bkey =>
            '(s, e) ← setIter btr bkey s (if asc then aL else aH) asc;
            match e with
            | None => if missed s then Some (which, Some s) else Some (which, None)
            | Some _ =>
                '(s, ok) ← streamToBTEntry s e;
                Some (which, Some (if dirty_left btr =? 0 then s else set_missed s true))
            end
        end
    | _, _ => Some (which, None)
    end.

(** ** OFFSET *)

(** What [XthIterFind] does once the offset falls inside a node. *)
Definition xth_land (dirty asc : bool) (i : btIterator K) : option (btIterator K) :=
  f ← top i;
  let over := fl_over (data i) in
  if asc then
    let f := if dirty then f else Ln (self f) (ik f + over) (in_ f) in
    if ik f =? n_of (self f)
    then toparentrecurse (set_top i (Ln (self f) (ik f - 1) (in_ f)))
    else Some (set_top i f)
  else
    let f := if dirty then f else Ln (self f) (ik f - over) (in_ f) in
    if ik f <? 0 then toparentrecurserev (set_top i (Ln (self f) 0 0))
    else Some (set_top i f).

Fixpoint xth_loop (fuel : nat) (dirty : bool) (s : btSIter K) (asc : bool) : option (btSIter K) :=
  match fuel with
  | O => None
  | S fuel' =>
      '(s, e) ← btNext dirty s asc;
      match e with
      | None => Some s
      | Some _ =>
          if fl_over (data (it s)) =? -1 then xth_loop fuel' dirty s asc
          else i ← xth_land dirty asc (it s); Some (set_it s i)
      end
  end.

Definition scion_fns (dirty asc : bool) : iter_fn * iter_fn :=
  (if asc then if dirty then iter_leaf_dirty_scion else iter_leaf_scion
   else if dirty then iter_leaf_dirty_scion_rev else iter_leaf_scion_rev,
   if asc then iter_node_scion else iter_node_scion_rev).

(** [INIT_ITER_BEENTRY] *)
Definition INIT_ITER_BEENTRY (s : btSIter K) (x : bt_n K) (i : Z) : option (btSIter K) :=
  k ← KEYS x i; '(s, _) ← streamToBTEntry s (Some (k, x, i)); Some s.

Definition XthIterFind (s : btSIter K) (alow ahigh : aobj) (ofst : Z) (asc : bool) (btr : bt K)
  : option (btSIter K * bool) :=
  match mk (if asc then alow else ahigh) with
  | None => Some (s, false)
  | Some bkey =>
      '(s, e) ← setIter btr bkey s (if asc then alow else ahigh) asc;
      '(s, ok) ← streamToBTEntry s e;
      if negb ok then Some (s, false)
      else
        let d := bdirty btr in
        let '(fl, fn) := scion_fns d asc in
        let s := set_it s (set_data (set_fns (it s) fl fn) (Fol 0 ofst 0 (-1))) in
        s ← xth_loop (S (length (inorder (root btr)))) d s asc;
        f ← top (it s);
        s ← INIT_ITER_BEENTRY s (self f) (ik f);
        dr ← drAt (self f) (ik f);
        let s := set_nim (set_missed s (d && (0 <? fl_over (data (it s))) && negb (dr =? 0))) false in
        Some (set_it s (set_fns (it s) (if asc then iter_leaf else iter_leaf_rev)
                          (if asc then iter_node else iter_node_rev)), true)
  end.

Definition btGetXthIter (which : Z) (btr : bt K) (alow ahigh : aobj) (oofst : Z) (asc : bool)
  : option (Z * option (btSIter K)) :=
  if numkeys btr =? 0 then Some (which, None)
  else
    '(which, s) ← CR8ITER8R which btr asc;
    s ← setHigh s (if asc then ahigh else alow);
    '(s, found) ← XthIterFind s alow ahigh (s64 oofst) asc btr;
    Some (which, Some (if found : bool then set_empty s false else s)).

(** The child of [x] the offset falls in: the position reached with the offset
    that is left, and whether it is the separator before the child. *)
Fixpoint scion_child (fuel : nat) (x : bt_n K) (i ofst : Z) (asc : bool) : option (option (Z * Z * bool)) :=
  match fuel with
  | O => Some None
  | S fuel' =>
      c ← NODES x i;
      if ofst <=? scion c then Some (Some (i, ofst, scion c =? ofst))
      else
        scion_child fuel' x (if asc then i + 1 else i - 1) (u64 (ofst - u32 (scion c + 1))) asc
  end.
(** The offset left when no child holds it. *)
Fixpoint scion_rest (fuel : nat) (x : bt_n K) (i ofst : Z) (asc : bool) : option Z :=
  match fuel with
  | O => Some ofst
  | S fuel' =>
      c ← NODES x i;
      scion_rest fuel' x (if asc then i + 1 else i - 1) (u64 (ofst - u32 (scion c + 1))) asc
  end.

(** The walk over the keys of the node, from [i]: the index, the count and the
    last counter read. *)
Fixpoint scion_keys (fuel : nat) (x : bt_n K) (minx : bool) (btdl ofst i fin cnt dr : Z) (asc : bool)
  : option (Z * Z * Z) :=
  match fuel with
  | O => None
  | S fuel' =>
      if i =? fin then Some (i, cnt, dr)
      else
        dr ← drAt x i;
        let cnt := cnt + dr in
        let cnt := if (i =? 0) && minx then cnt + btdl else cnt in
        if ofst <=? cnt then Some (i, cnt, dr)
        else scion_keys fuel' x minx btdl ofst (if asc then i + 1 else i - 1) fin (cnt + 1) dr asc
  end.

(** The second half of [btScionFind], in the node [x]; [fin] of a descending
    walk is [MAX(-1, n - ofst)] in unsigned arithmetic, always [-1]. *)
Definition scion_in_node (s : btSIter K) (x : bt_n K) (minx : bool) (ofst : Z) (btdl : Z) (asc : bool)
  : option (btSIter K * bool) :=
  let n := n_of x in
  let i0 := if asc then 0 else n - 1 in
  let fin := if asc then Z.min ofst n else -1 in
  let last := if asc then n - 1 else 0 in
  '(i, cnt, dr) ← scion_keys (S (n_keys x)) x minx btdl ofst i0 fin 0 0 asc;
  if (i =? fin) && (i =? last) && (scion x <=? cnt) then Some (s, false)
  else if negb ((i =? fin) && (i =? last)) && (cnt <? ofst) then Some (s, false)
  else
    f ← top (it s);
    let s := set_it s (set_top (it s) (Ln (self f) i (in_ f))) in
    s ← INIT_ITER_BEENTRY s x i;
    let miss := if asc then negb (ofst + dr =? cnt)
                else if (i =? 0) && minx then negb (ofst =? cnt - btdl)
                else negb (ofst =? cnt) in
    Some (if miss : bool then set_missed s true else s, true).

Fixpoint btScionFind (fuel : nat) (s : btSIter K) (x : bt_n K) (minx : bool) (ofst btdl : Z) (asc : bool)
  : option (btSIter K * bool) :=
  match fuel with
  | O => None
  | S fuel' =>
      if leaf x then scion_in_node s x minx ofst btdl asc
      else
        let i0 := if asc then 0 else n_of x in
        r ← scion_child (S (n_keys x)) x i0 ofst asc;
        match r with
        | None =>
            ofst ← scion_rest (S (n_keys x)) x i0 ofst asc;
            scion_in_node s x false ofst btdl asc
        | Some (i, ofst, hit) =>
            f ← top (it s);
            let ik' := if i =? n_of (self f) then i - 1 else i in
            let s := set_it s (set_top (it s) (Ln (self f) ik' i)) in
            if hit : bool then
              Some (if asc then s
                    else set_it s (set_top (it s) (Ln (self f) (i - 1) (i - 1))), true)
            else
              c ← NODES x i;
              it' ← get_new_iter_child (it s);
              it' ← to_child it' c;
              let s := set_it s it' in
              let minc := minx && (i =? 0) in
              if leaf c then scion_in_node s c minc ofst btdl asc
              else '(s, _) ← btScionFind fuel' s c minc ofst btdl asc; Some (s, true)
        end
  end.

Definition btGetFullXthIter (which : Z) (btr : bt K) (oofst : Z) (asc : bool)
  : option (Z * option (btSIter K)) :=
  if numkeys btr =? 0 then Some (which, None)
  else
    aL ← assignMinKey btr; aH ← assignMaxKey btr;
    match aL, aH with
    | Some aL, Some aH =>
        '(which, s) ← CR8ITER8R which btr asc;
        s ← setHigh s (if asc then aH else aL);
        '(s, found) ← btScionFind (S (height (root btr))) s (root btr) true (u64 oofst)
            (dirty_left btr) asc;
        Some (which, Some (if found : bool then set_empty s false else s))
    | _, _ => Some (which, None)
    end.
End Iterators.
