(* ===== verification/BtScan.v ===== *)
(** * Range scans ([DB/bt_iterator.c])

    The position of an iterator on a tree without evicted rows cuts the sorted
    list of keys in three: the keys before it, the key it is at, the keys after
    it.  A step up moves it by one key to the right, a step down by one to the
    left, and the iterator is finished at the end of the list; so a range scan
    reports exactly the keys of the range. *)

From S2P Require Import Prelude CStr Aobj BtSearch DirtyStream Btree BtIter.

(** Membership in concatenated lists. *)
Ltac in_list := repeat rewrite ?elem_of_app, ?elem_of_cons in *; tauto.

Lemma KEYS_at {K} (x : bt_n K) k1 k k2 i : keys x = k1 ++ k :: k2 -> i = Z.of_nat (length k1) -> KEYS x i = Some k.
Proof.
  intros E ->. unfold KEYS. destruct (Z.ltb_spec (Z.of_nat (length k1)) 0); [lia|].
  rewrite Nat2Z.id, E. by apply list_lookup_middle.
Qed.

Lemma NODES_at {K} (x : bt_n K) n1 c n2 i : nodes x = n1 ++ c :: n2 -> i = Z.of_nat (length n1) -> NODES x i = Some c.
Proof.
  intros E ->. unfold NODES. destruct (Z.ltb_spec (Z.of_nat (length n1)) 0); [lia|].
  rewrite Nat2Z.id, E. by apply list_lookup_middle.
Qed.

Section Path.
Context {K : Type} `{KeyOrderLaws K} (t : nat) (Ht : (2 <= t)%nat).
Implicit Types (x c p : bt_n K) (fs rest : list (bt_ll_n K)) (bef aft : list K).

(** A node that has a key. *)
Definition node_ok (h : nat) x : Prop := wf t 1 h x.

(** [ik] and [in] of a node whose child [j] is being visited: the key after the
    child, the last key when there is none, or, where the search left them, the
    key before the child. *)
Definition slot (j n i d : Z) : Prop :=
  (i = j /\ d = j /\ j < n) \/ (j = n /\ d = n /\ i = n - 1) \/ (i = j - 1 /\ d = j - 1 /\ 1 <= j).

(** [rest] leads from the subtree [c] to the root; [bef] and [aft] are the keys
    of the tree before and after those of [c]. *)
Inductive anc : nat -> bt_n K -> list (bt_ll_n K) -> list K -> list K -> Prop :=
| anc_root h c : anc h c [] [] []
| anc_node h c p n1 n2 k1 k2 i d rest bef aft :
    node_ok (S h) p -> nodes p = n1 ++ c :: n2 -> keys p = k1 ++ k2 ->
    length k1 = length n1 -> length k2 = length n2 ->
    slot (Z.of_nat (length n1)) (n_of p) i d ->
    anc (S h) p rest bef aft ->
    anc h c (Ln p i d :: rest) (bef ++ zipl (map inorder n1) k1)
      (zipr k2 (map inorder n2) ++ aft).

(** The iterator is at [k]; [D] is the height of the tree. *)
Definition at_key (D : nat) fs (k : K) (B A : list K) : Prop :=
  exists f rest h bef aft k1 k2 n1 n2,
    fs = f :: rest /\ node_ok h (self f) /\ anc h (self f) rest bef aft /\
    (length rest + h = D)%nat /\
    keys (self f) = k1 ++ k :: k2 /\ ik f = Z.of_nat (length k1) /\
    nodes (self f) = n1 ++ n2 /\
    match h with
    | O => n1 = [] /\ n2 = []
    | S _ => in_ f = ik f /\ length n1 = S (length k1) /\ n2 <> []
    end /\
    B = bef ++ flat (map inorder n1) k1 /\ A = flat (map inorder n2) k2 ++ aft.

Lemma elem_zipl (k : K) : forall k1 ls, length k1 = length ls -> k ∈ k1 -> k ∈ zipl ls k1.
Proof.
  induction k1 as [|a k1 IH]; intros [|l ls] Hl Hk; try done; try by apply elem_of_nil in Hk.
  rewrite zipl_cons. simpl in Hl. apply elem_of_cons in Hk as [->|Hk]; [in_list|].
  specialize (IH ls ltac:(lia) Hk). in_list.
Qed.

Lemma elem_zipr (k : K) : forall k2 ls, length k2 = length ls -> k ∈ k2 -> k ∈ zipr k2 ls.
Proof.
  induction k2 as [|a k2 IH]; intros [|l ls] Hl Hk; try done; try by apply elem_of_nil in Hk.
  rewrite zipr_cons. simpl in Hl. apply elem_of_cons in Hk as [->|Hk]; [in_list|].
  specialize (IH ls ltac:(lia) Hk). in_list.
Qed.

Lemma zipl_end (l1 : list (list K)) k1 k :
  length l1 = S (length k1) -> zipl l1 (k1 ++ [k]) = flat l1 k1 ++ [k].
Proof.
  intros Hl. pose proof (flat_split l1 [] [] (k1 ++ [k]) []) as F.
  pose proof (flat_cut l1 [[]] k1 k [] Hl ltac:(done)) as G. cbn in G.
  rewrite app_nil_r in F. rewrite F in G by (rewrite length_app; simpl; lia).
  unfold zipr in G. cbn in G. by rewrite app_nil_r in G.
Qed.

Lemma inorder_child p n1 c n2 k1 k2 :
  nodes p = n1 ++ c :: n2 -> keys p = k1 ++ k2 -> length k1 = length n1 ->
  inorder p = zipl (map inorder n1) k1 ++ inorder c ++ zipr k2 (map inorder n2).
Proof.
  intros En Ek Hl. rewrite inorder_flat, En, Ek, map_app. cbn [map]. apply flat_split.
  by rewrite length_map.
Qed.

Lemma inorder_key lo h x k1 k k2 n1 n2 :
  wf t lo h x -> keys x = k1 ++ k :: k2 -> nodes x = n1 ++ n2 ->
  match h with O => n1 = [] /\ n2 = [] | S _ => length n1 = S (length k1) /\ n2 <> [] end ->
  inorder x = flat (map inorder n1) k1 ++ k :: flat (map inorder n2) k2.
Proof.
  intros _ Ek En Hh. rewrite inorder_flat, En, Ek, map_app. destruct h.
  - destruct Hh as [-> ->]. done.
  - destruct Hh as [Hl Hne]. apply flat_cut; [by rewrite length_map|]. by destruct n2.
Qed.

(** The keys of a subtree are above the keys to its left and below those to its
    right. *)
Lemma child_between n1 n2 (k1 k2 lc bef aft : list K) :
  ksorted (bef ++ (zipl n1 k1 ++ lc ++ zipr k2 n2) ++ aft) ->
  length k1 = length n1 -> length k2 = length n2 ->
  (forall a b, a ∈ k1 -> b ∈ lc -> 0 < cmp b a) /\
  (forall a b, a ∈ k2 -> b ∈ lc -> cmp b a < 0).
Proof.
  intros Hs H1 H2. apply ksorted_app in Hs as (_ & Hs & _). apply ksorted_app in Hs as (Hs & _ & _).
  apply ksorted_app in Hs as (_ & Hs & Hl). apply ksorted_app in Hs as (_ & _ & Hr).
  split; intros a b Ha Hb.
  - apply cmp_antisym. apply Hl; [by apply elem_zipl|in_list].
  - apply Hr; [done|by apply elem_zipr].
Qed.

Lemma KEYS_in lo h x i k : wf t lo h x -> KEYS x i = Some k -> k ∈ inorder x.
Proof.
  intros Hx. unfold KEYS. case_match; [done|]. intros Hk.
  rewrite inorder_flat. apply elem_of_keys_flat; [by eapply wf_shape|].
  by eapply list_elem_of_lookup_2.
Qed.

Lemma child_ok h p n1 c n2 : node_ok (S h) p -> nodes p = n1 ++ c :: n2 -> node_ok h c.
Proof.
  intros Hp En. apply wf_unfold in Hp as (_ & _ & _ & _ & _ & HF).
  rewrite En in HF. apply Forall_app in HF as [_ HF]. apply Forall_cons in HF as [Hc _].
  apply (wf_weaken t (t - 1)); [done|]. pose proof (wf_keys t _ _ _ Hc). lia.
Qed.

(** A node [p] whose child [c] has been left for the key to its right. *)
Lemma at_key_right D h p n1 c n2 k1 k k2 rest bef aft :
  node_ok (S h) p -> anc (S h) p rest bef aft -> (length rest + S h = D)%nat ->
  nodes p = n1 ++ c :: n2 -> keys p = k1 ++ k :: k2 ->
  length k1 = length n1 -> S (length k2) = length n2 ->
  exists A', zipr (k :: k2) (map inorder n2) ++ aft = k :: A' /\
    at_key D (Ln p (Z.of_nat (length n1)) (Z.of_nat (length n1)) :: rest) k
      ((bef ++ zipl (map inorder n1) k1) ++ inorder c) A'.
Proof.
  intros Hp Hanc HD En Ek H1 H2. destruct n2 as [|c2 n2]; [done|]. simpl in H2.
  exists (flat (map inorder (c2 :: n2)) k2 ++ aft). split.
  { cbn [map flat]. by rewrite zipr_cons. }
  eexists _, rest, (S h), bef, aft, k1, k2, (n1 ++ [c]), (c2 :: n2).
  split_and!; try done.
  - cbn. lia.
  - cbn [self]. by rewrite En, <- app_assoc.
  - rewrite length_app. simpl. lia.
  - rewrite map_app. cbn [map]. pose proof (flat_split (map inorder n1) (inorder c) [] k1 []) as E.
    rewrite app_nil_r in E. rewrite E by (by rewrite length_map). unfold zipr. cbn.
    by rewrite !app_nil_r, app_assoc.
Qed.

Lemma up_ok D : forall rest f h c bef aft kc,
  anc h c rest bef aft -> self f = c -> node_ok h c -> KEYS c (ik f) = Some kc ->
  (length rest + h = D)%nat -> ksorted (bef ++ inorder c ++ aft) ->
  exists fs fin, up f rest = Some (fs, fin) /\ (length fs <= S (length rest))%nat /\
    match aft with
    | [] => fin = true /\ fs <> []
    | k' :: A' => fin = false /\ at_key D fs k' (bef ++ inorder c) A'
    end.
Proof.
  induction rest as [|p rest IH]; intros f h c bef aft kc Hanc Hf Hc Hk HD Hs.
  - inversion Hanc. exists [f], true. cbn. auto.
  - revert HD. inversion Hanc as [|? ? ? n1 n2 k1 k2 i d ? bef0 aft0 Hp En Ek H1 H2 Hsl Hanc0].
    subst. intros HD.
    cbn [up self ik in_]. rewrite Hk. cbn [mbind option_bind].
    rewrite <- app_assoc in Hs. rewrite (app_assoc (inorder (self f))) in Hs.
    rewrite (app_assoc (zipl _ _)) in Hs. 
    rewrite <- (inorder_child p0 n1 (self f) n2 k1 k2 En Ek H1) in Hs.
    pose proof (KEYS_in _ _ _ _ _ Hc Hk) as Hkc.
    destruct (child_between (map inorder n1) (map inorder n2) k1 k2 (inorder (self f)) bef0 aft0)
      as [Hl Hr]; [by rewrite <- (inorder_child p0 n1 _ n2 k1 k2 En Ek H1)|by rewrite length_map..|].
    assert (Hn : n_of p0 = Z.of_nat (length k1) + Z.of_nat (length k2)).
    { unfold n_of, n_keys. rewrite Ek, length_app. lia. }
    simpl in HD.
    (* the key to the right of the child *)
    assert (Hright : forall k k2', k2 = k :: k2' -> exists A', zipr k2 (map inorder n2) ++ aft0 = k :: A' /\
      at_key D (Ln p0 (Z.of_nat (length n1)) (Z.of_nat (length n1)) :: rest) k
        ((bef0 ++ zipl (map inorder n1) k1) ++ inorder (self f)) A').
    { intros k k2' ->. simpl in H2. apply (at_key_right D h); (done || lia). }
    (* no key to the right: on with the parent *)
    assert (Hup : k2 = [] -> forall d', exists fs fin,
      up (Ln p0 (n_of p0 - 1) d') rest = Some (fs, fin) /\ (length fs <= S (S (length rest)))%nat /\
      match zipr k2 (map inorder n2) ++ aft0 with
      | [] => fin = true /\ fs <> []
      | k' :: A' => fin = false /\ at_key D fs k' ((bef0 ++ zipl (map inorder n1) k1) ++ inorder (self f)) A'
      end).
    { intros -> d'. destruct n2; [|done].
      assert (Hne : keys p0 <> []).
      { pose proof (wf_keys t _ _ _ Hp) as W. unfold n_keys in W. intros E. rewrite E in W. simpl in W. lia. }
      rewrite app_nil_r in Ek. destruct (exists_last Hne) as (k0 & kl & Ekl).
      destruct (IH (Ln p0 (n_of p0 - 1) d') (S h) p0 bef0 aft0 kl) as (fs & fin & -> & Hlen & Hres);
        [done|done|done| |lia|done|].
      { cbn [ik]. apply (KEYS_at p0 k0 kl []); [done|]. rewrite Hn. simpl.
        rewrite <- Ek, Ekl, length_app. simpl. lia. }
      exists fs, fin. split; [done|]. split; [lia|].
      pose proof (inorder_child p0 n1 (self f) [] k1 [] En ltac:(by rewrite app_nil_r) H1) as E.
      cbn in E |- *. rewrite app_nil_r in E. rewrite E in Hres. by rewrite <- app_assoc. }
    destruct Hsl as [(-> & -> & Hj)|[(Ej & -> & ->)|(-> & -> & Hj)]].
    + destruct k2 as [|k k2]; [simpl in *; lia|].
      rewrite (KEYS_at p0 k1 k k2) by (done || lia). cbn [mbind option_bind].
      specialize (Hr k kc ltac:(in_list) Hkc). destruct (Z.ltb_spec 0 (cmp kc k)); [lia|].
      destruct (Hright k k2 eq_refl) as (A' & -> & HA).
      eexists _, _. split; [done|]. split; [simpl; lia|]. done.
    + destruct k2 as [|? ?]; [|simpl in *; lia]. rewrite app_nil_r in Ek. 
      assert (Hne : k1 <> []).
      { intros ->. pose proof (wf_keys t _ _ _ Hp) as W. unfold n_keys in W. rewrite Ek in W. simpl in W. lia. }
      destruct (exists_last Hne) as (k0 & kl & ->).
      rewrite length_app in *. simpl length in *.
      rewrite (KEYS_at p0 k0 kl []) by (done || lia). cbn [mbind option_bind].
      specialize (Hl kl kc ltac:(in_list) Hkc). destruct (Z.ltb_spec 0 (cmp kc kl)); [|lia].
      destruct (Z.ltb_spec (n_of p0 - 1 + 1) (n_of p0)); [lia|].
      destruct (Z.ltb_spec (n_of p0 + 1) (n_of p0)); [lia|]. by apply Hup.
    + assert (Hne : k1 <> []) by (intros ->; simpl in *; lia).
      destruct (exists_last Hne) as (k0 & kl & ->). rewrite length_app in *. simpl length in *.
      rewrite (KEYS_at p0 k0 kl k2) by (rewrite <- ?app_assoc in *; done || lia). cbn [mbind option_bind].
      specialize (Hl kl kc ltac:(in_list) Hkc). destruct (Z.ltb_spec 0 (cmp kc kl)); [|lia].
      replace (Z.of_nat (length n1) - 1 + 1) with (Z.of_nat (length n1)) by lia.
      destruct k2 as [|k k2].
      * destruct (Z.ltb_spec (Z.of_nat (length n1)) (n_of p0)); [simpl in *; lia|].
        replace (Z.of_nat (length n1) - 1) with (n_of p0 - 1) by (simpl in *; lia). by apply Hup.
      * destruct (Z.ltb_spec (Z.of_nat (length n1)) (n_of p0)); [|simpl in *; lia].
        destruct (Hright k k2 eq_refl) as (A' & -> & HA).
        eexists _, _. split; [done|]. split; [simpl; lia|]. done.
Qed.

(** The same to the left. *)
Lemma at_key_left D h p n1 c n2 k1 k k2 rest bef aft :
  node_ok (S h) p -> anc (S h) p rest bef aft -> (length rest + S h = D)%nat ->
  nodes p = n1 ++ c :: n2 -> keys p = k1 ++ k :: k2 ->
  S (length k1) = length n1 -> length k2 = length n2 ->
  bef ++ zipl (map inorder n1) (k1 ++ [k]) = (bef ++ flat (map inorder n1) k1) ++ [k] /\
  at_key D (Ln p (Z.of_nat (length k1)) (Z.of_nat (length k1)) :: rest) k
    (bef ++ flat (map inorder n1) k1) (inorder c ++ zipr k2 (map inorder n2) ++ aft).
Proof.
  intros Hp Hanc HD En Ek H1 H2. split.
  { rewrite zipl_end by (by rewrite length_map). by rewrite app_assoc. }
  eexists _, rest, (S h), bef, aft, k1, k2, n1, (c :: n2). split_and!; try done.
  cbn [map flat]. by rewrite app_assoc.
Qed.

Lemma up_rev_ok D : forall rest f h c bef aft kc,
  anc h c rest bef aft -> self f = c -> node_ok h c -> KEYS c (ik f) = Some kc ->
  (length rest + h = D)%nat -> ksorted (bef ++ inorder c ++ aft) ->
  exists fs fin, up_rev f rest = Some (fs, fin) /\ (length fs <= S (length rest))%nat /\
    (bef = [] -> fin = true /\ fs <> []) /\
    (forall B k', bef = B ++ [k'] -> fin = false /\ at_key D fs k' B (inorder c ++ aft) /\
       exists q qs, fs = q :: qs /\ in_ q <> n_of (self q)).
Proof.
  induction rest as [|p rest IH]; intros f h c bef aft kc Hanc Hf Hc Hk HD Hs.
  - inversion Hanc. exists [f], true. cbn. split_and!; try done; try lia. by intros [|? ?] ? ?.
  - revert HD. inversion Hanc as [|? ? ? n1 n2 k1 k2 i d ? bef0 aft0 Hp En Ek H1 H2 Hsl Hanc0].
    subst. intros HD.
    cbn [up_rev self ik in_]. rewrite Hk. cbn [mbind option_bind].
    rewrite <- app_assoc in Hs. rewrite (app_assoc (inorder (self f))) in Hs.
    rewrite (app_assoc (zipl _ _)) in Hs.
    rewrite <- (inorder_child p0 n1 (self f) n2 k1 k2 En Ek H1) in Hs.
    pose proof (KEYS_in _ _ _ _ _ Hc Hk) as Hkc.
    destruct (child_between (map inorder n1) (map inorder n2) k1 k2 (inorder (self f)) bef0 aft0)
      as [Hl Hr]; [by rewrite <- (inorder_child p0 n1 _ n2 k1 k2 En Ek H1)|by rewrite length_map..|].
    assert (Hn : n_of p0 = Z.of_nat (length k1) + Z.of_nat (length k2)).
    { unfold n_of, n_keys. rewrite Ek, length_app. lia. }
    simpl in HD.
    (* the key to the left of the child *)
    assert (Hleft : forall k0 kl d', k1 = k0 ++ [kl] -> d' = Z.of_nat (length k0) ->
      (bef0 ++ zipl (map inorder n1) k1 = [] -> False) /\
      forall B k', bef0 ++ zipl (map inorder n1) k1 = B ++ [k'] ->
      at_key D (Ln p0 d' d' :: rest) k' B
        (inorder (self f) ++ zipr k2 (map inorder n2) ++ aft0)).
    { intros k0 kl d' -> ->. rewrite length_app in *. simpl in *.
      destruct (at_key_left D h p0 n1 (self f) n2 k0 kl k2 rest bef0 aft0) as [E Hat];
        [done|done|lia|done|by rewrite Ek, <- app_assoc|lia|done|].
      rewrite E. split; [intros [_ ?]%app_eq_nil; done|]. intros B k' [<- <-]%app_inj_tail. done. }
    destruct Hsl as [(-> & -> & Hj)|[(Ej & -> & ->)|(-> & -> & Hj)]].
    + destruct k2 as [|k k2]; [simpl in *; lia|].
      rewrite (KEYS_at p0 k1 k k2) by (done || lia). cbn [mbind option_bind].
      specialize (Hr k kc ltac:(in_list) Hkc). destruct (Z.ltb_spec (cmp kc k) 0); [|lia].
      destruct k1 as [|k0 k1'] eqn:Ek1.
      * destruct n1; [|done]. change (Z.of_nat (length (@nil (bt_n K)))) with 0. cbn [Z.eqb].
        change (zipl (map inorder []) (@nil K)) with (@nil K). rewrite app_nil_r.
        assert (HK0 : exists k0, KEYS p0 0 = Some k0) by (exists k; by apply (KEYS_at p0 [] k k2)).
        destruct HK0 as [k0 HK0].
        destruct (IH (Ln p0 0 0) (S h) p0 bef0 aft0 k0) as (fs & fin & -> & Hlen & R1 & R2);
          [done|done|done|done|lia|done|].
        destruct fs as [|q fs]; [destruct fin; [|destruct (decide (bef0 = [])) as [->|Hb]]|].
        -- exfalso. destruct (decide (bef0 = [])) as [->|Hb]; [by destruct R1|].
           destruct (exists_last Hb) as (B & kb & ->). by destruct (R2 B kb eq_refl).
        -- by destruct R1.
        -- destruct (exists_last Hb) as (B & kb & ->). destruct (R2 B kb eq_refl) as (_ & _ & ? & ? & ? & _). done.
        -- eexists _, fin. cbn [option_map]. split; [done|]. split; [simpl in *; lia|]. split.
           ++ intros Hb. by destruct (R1 Hb).
           ++ intros B k' Hb. destruct (R2 B k' Hb) as (-> & Hat & q' & rest' & [= <- <-] & Hne).
              destruct (Z.eqb_spec (in_ q) (n_of (self q))) as [?|_]; [done|].
              assert (Eq : Ln (self q) (ik q) (in_ q) = q) by (by destruct q). rewrite Eq.
              split; [done|]. split; [|by exists q, fs].
              rewrite (inorder_child p0 [] (self f) n2 [] (k :: k2) En Ek eq_refl) in Hat.
              cbn [map] in Hat. unfold zipl in Hat. cbn [zip_with concat app] in Hat.
              by rewrite <- app_assoc in Hat.
      * assert (Hne : k1 <> []) by (by subst). rewrite <- Ek1 in *. clear Ek1 k0 k1'.
        destruct (exists_last Hne) as (k0 & kl & Ek1).
        assert (Hlk : length k1 = S (length k0)) by (rewrite Ek1, length_app; simpl; lia).
        destruct (Z.eqb_spec (Z.of_nat (length n1)) 0); [lia|].
        destruct (Hleft k0 kl (Z.of_nat (length n1) - 1) Ek1 ltac:(lia)) as [F1 F2].
        cbn [self ik in_]. destruct (Z.eqb_spec (Z.of_nat (length n1) - 1) (n_of p0)); [lia|].
        eexists _, _. split; [done|]. split; [simpl; lia|]. split; [by intros ?%F1|].
        intros B k' Hb. split; [done|]. split; [by apply F2|]. eexists _, _. split; [done|]. cbn. lia.
    + destruct k2 as [|? ?]; [|simpl in *; lia].
      assert (Hne : k1 <> []).
      { intros ->. pose proof (wf_keys t _ _ _ Hp) as W. unfold n_keys in W. rewrite Ek in W. simpl in W. lia. }
      destruct (exists_last Hne) as (k0 & kl & Ek1).
      assert (Hlk : length k1 = S (length k0)) by (rewrite Ek1, length_app; simpl; lia).
      rewrite (KEYS_at p0 k0 kl []) by (try (rewrite Ek, Ek1; by rewrite <- app_assoc); simpl in *; lia).
      cbn [mbind option_bind].
      specialize (Hl kl kc ltac:(rewrite Ek1; in_list) Hkc). destruct (Z.ltb_spec (cmp kc kl) 0); [lia|].
      cbn [self ik in_]. rewrite Z.eqb_refl.
      destruct (Hleft k0 kl (n_of p0 - 1) Ek1 ltac:(simpl in *; lia)) as [F1 F2].
      eexists _, _. split; [done|]. split; [simpl; lia|]. split; [by intros ?%F1|].
      intros B k' Hb. split; [done|]. split; [by apply F2|]. eexists _, _. split; [done|]. cbn. lia.
    + assert (Hne : k1 <> []) by (intros ->; simpl in *; lia).
      destruct (exists_last Hne) as (k0 & kl & Ek1).
      assert (Hlk : length k1 = S (length k0)) by (rewrite Ek1, length_app; simpl; lia).
      rewrite (KEYS_at p0 k0 kl k2) by (try (rewrite Ek, Ek1; by rewrite <- app_assoc); simpl in *; lia).
      cbn [mbind option_bind].
      specialize (Hl kl kc ltac:(rewrite Ek1; in_list) Hkc). destruct (Z.ltb_spec (cmp kc kl) 0); [lia|].
      cbn [self ik in_]. destruct (Z.eqb_spec (Z.of_nat (length n1) - 1) (n_of p0)); [lia|].
      destruct (Hleft k0 kl (Z.of_nat (length n1) - 1) Ek1 ltac:(lia)) as [F1 F2].
      eexists _, _. split; [done|]. split; [simpl; lia|]. split; [by intros ?%F1|].
      intros B k' Hb. split; [done|]. split; [by apply F2|]. eexists _, _. split; [done|]. cbn. lia.
Qed.

(** A frame whose slots are at one of the keys of its node. *)
Lemma at_key_here D h x rest bef aft k1 a k2 d :
  node_ok h x -> anc h x rest bef aft -> (length rest + h = D)%nat ->
  keys x = k1 ++ a :: k2 -> (h <> 0%nat -> d = Z.of_nat (length k1)) ->
  exists B A, at_key D (Ln x (Z.of_nat (length k1)) d :: rest) a B A /\
    B ++ a :: A = bef ++ inorder x ++ aft /\ (h = 0%nat -> B = bef ++ k1 /\ A = k2 ++ aft).
Proof.
  intros Hx Hanc Hl Ek Hd.
  assert (exists n1 n2, nodes x = n1 ++ n2 /\
    match h with O => n1 = [] /\ n2 = [] | S _ => length n1 = S (length k1) /\ n2 <> [] end)
    as (n1 & n2 & En & Hh).
  { apply wf_unfold in Hx as (_ & _ & _ & Hh). destruct h as [|h].
    - destruct Hh as [_ ->]. by exists [], [].
    - destruct Hh as (_ & Hn & _). unfold n_keys in Hn. rewrite Ek, length_app in Hn. simpl in Hn.
      exists (take (S (length k1)) (nodes x)), (drop (S (length k1)) (nodes x)).
      rewrite take_drop, length_take. split_and!; [done|lia|].
      intros E%(f_equal length). rewrite length_drop in E. simpl in E. lia. }
  exists (bef ++ flat (map inorder n1) k1), (flat (map inorder n2) k2 ++ aft). split_and!.
  - eexists _, rest, h, bef, aft, k1, k2, n1, n2. split_and!; try done.
    destruct h; [done|]. cbn [in_ ik]. rewrite Hd by done. done.
  - rewrite (inorder_key 1 h x k1 a k2 n1 n2) by done. by rewrite <- !app_assoc.
  - intros ->. destruct Hh as [-> ->]. done.
Qed.

(** ** Frames and their allocation *)

(** Every frame of the path is allocated, and the array is not overrun. *)
Definition alloc (i : btIterator K) : Prop :=
  (length (frames i) <= num_nodes i <= MAX_BTREE_DEPTH)%nat.

(** A step keeps the functions and the offset of the iterator. *)
Definition same_cfg (i i' : btIterator K) : Prop :=
  iLeaf i' = iLeaf i /\ iNode i' = iNode i /\ data i' = data i.

Lemma get_child_ok (i : btIterator K) :
  alloc i -> (length (frames i) < MAX_BTREE_DEPTH)%nat ->
  exists i', GET_NEW_CHILD i = Some i' /\ frames i' = frames i /\ finished i' = finished i /\
    same_cfg i i' /\ (length (frames i) < num_nodes i' <= MAX_BTREE_DEPTH)%nat.
Proof.
  unfold alloc, GET_NEW_CHILD, get_new_iter_child, MAX_BTREE_DEPTH. intros Ha Hl.
  destruct (Nat.leb_spec (num_nodes i) (length (frames i))).
  - destruct (Nat.ltb_spec (num_nodes i) 16); [|lia]. eexists. split; [done|].
    cbn. unfold same_cfg. cbn. split_and!; (done || lia).
  - exists i. unfold same_cfg. split_and!; (done || lia).
Qed.

Section Depth.
Context (D : nat) (HD : (D < MAX_BTREE_DEPTH)%nat).

(** What entering a subtree yields: an iterator at the key [k]. *)
Definition moved (i : btIterator K) (r : option (btIterator K)) (k : K) (B A : list K) : Prop :=
  exists i', r = Some i' /\ at_key D (frames i') k B A /\ finished i' = finished i /\
    same_cfg i i' /\ alloc i'.

Lemma moved_cfg (i i0 : btIterator K) r k B A :
  moved i0 r k B A -> finished i0 = finished i -> same_cfg i i0 -> moved i r k B A.
Proof.
  intros (i' & -> & Hk & Hf & (C1 & C2 & C3) & Ha) Hf0 (C4 & C5 & C6).
  exists i'. unfold same_cfg. split_and!; congruence || done.
Qed.

Lemma down_ok : forall h c i rest fuel bef aft,
  node_ok h c -> anc h c rest bef aft -> (length rest + h = D)%nat -> frames i = rest ->
  (length rest < num_nodes i <= MAX_BTREE_DEPTH)%nat -> (h < fuel)%nat ->
  exists k A, inorder c = k :: A /\ moved i (tochildrecurse fuel i c) k bef (A ++ aft).
Proof.
  induction h as [|h IH]; intros c i rest [|fuel] bef aft Hc Hanc Hl Hi Hn Hf; try lia;
    cbn [tochildrecurse]; unfold to_child; rewrite Hi;
    (destruct (Nat.ltb_spec (length rest) (num_nodes i)); [|lia]); cbn [mbind option_bind];
    pose proof (wf_leaf t _ _ _ Hc) as ->; pose proof (wf_keys t _ _ _ Hc) as Hk; unfold n_keys in Hk.
  - destruct (keys c) as [|k k2] eqn:Ek; [simpl in Hk; lia|].
    assert (Hns : nodes c = []) by (apply wf_unfold in Hc as (_ & _ & _ & _ & E); exact E).
    exists k, k2. split; [by rewrite inorder_flat, Hns, Ek|].
    eexists. split; [done|]. cbn. unfold same_cfg, alloc. cbn. split_and!; try done; try (simpl; lia).
    eexists _, rest, 0%nat, bef, aft, [], k2, [], []. cbn [self ik length]. split_and!; try done.
    by rewrite app_nil_r.
  - destruct (nodes c) as [|c0 n2] eqn:En.
    { apply wf_unfold in Hc as (_ & _ & _ & _ & Hl2 & _). by rewrite En in Hl2. }
    destruct (get_child_ok (set_frames i (Ln c 0 0 :: rest))) as (i' & -> & Hfr & Hfin & Hcfg & Ha);
      [unfold alloc; cbn; lia|cbn; lia|].
    cbn [mbind option_bind]. rewrite (NODES_at c [] c0 n2) by done. cbn [mbind option_bind].
    assert (Hl2 : length (keys c) = length n2).
    { apply wf_unfold in Hc as (_ & _ & _ & _ & Hl2 & _). rewrite En in Hl2. unfold n_keys in Hl2.
      simpl in Hl2. lia. }
    assert (E : inorder c = inorder c0 ++ zipr (keys c) (map inorder n2)).
    { by apply (inorder_child c [] c0 n2 []). }
    destruct (IH c0 i' (Ln c 0 0 :: rest) fuel bef (zipr (keys c) (map inorder n2) ++ aft))
      as (k & A & E0 & Hm).
    + by apply (child_ok h c [] c0 n2).
    + pose proof (anc_node h c0 c [] n2 [] (keys c) 0 0 rest bef aft) as P. cbn in P.
      rewrite app_nil_r in P. apply P; try done. left. unfold n_of, n_keys. lia.
    + simpl. lia.
    + done.
    + cbn in Ha. simpl. lia.
    + lia.
    + exists k, (A ++ zipr (keys c) (map inorder n2)). rewrite E, E0. split; [done|].
      rewrite <- app_assoc. eapply moved_cfg; [exact Hm|by rewrite Hfin|exact Hcfg].
Qed.

(** Where a step from [k] leads: to the next key of [next], or to the end. *)
Definition stepped (i : btIterator K) (r : option (btIterator K)) (next : list K)
    (cut : K -> list K -> list K * list K) : Prop :=
  exists i', r = Some i' /\ same_cfg i i' /\ alloc i' /\
    match next with
    | [] => finished i' = true
    | k' :: l => finished i' = finished i /\
                 at_key D (frames i') k' (cut k' l).1 (cut k' l).2
    end.

Lemma with_up_ok i fs fin : (length fs <= length (frames i))%nat -> alloc i ->
  exists i', with_up (Some (fs, fin)) i = Some i' /\ frames i' = fs /\
    finished i' = (if fin : bool then true else finished i) /\ same_cfg i i' /\ alloc i'.
Proof.
  unfold alloc, same_cfg. intros Hl Ha. eexists. split; [done|].
  destruct fin; cbn; split_and!; (done || lia).
Qed.

(** The two halves of the keys of the tree around the current one. *)
Lemma at_key_inorder fs k B A :
  at_key D fs k B A -> ksorted (B ++ k :: A) ->
  exists f rest h bef aft, fs = f :: rest /\ node_ok h (self f) /\ anc h (self f) rest bef aft /\
    KEYS (self f) (ik f) = Some k /\ (length rest + h = D)%nat /\
    ksorted (bef ++ inorder (self f) ++ aft).
Proof.
  intros (f & rest & h & bef & aft & k1 & k2 & n1 & n2 & -> & Hok & Hanc & Hl & Ek & Hik & En & Hh & -> & ->) Hs.
  exists f, rest, h, bef, aft. split_and!; try done; [by eapply KEYS_at|].
  rewrite (inorder_key 1 h (self f) k1 k k2 n1 n2) by (try done; destruct h; tauto).
  by rewrite <- !app_assoc in *.
Qed.

Lemma step_leaf_ok i k B A : at_key D (frames i) k B A -> alloc i -> ksorted (B ++ k :: A) ->
  (forall f, top i = Some f -> leaf (self f) = true) ->
  stepped i (step_leaf i) A (fun _ A' => (B ++ [k], A')).
Proof.
  intros Hat Ha Hs Hleaf.
  destruct (at_key_inorder _ _ _ _ Hat Hs) as (f & rest & h & bef & aft & Efs & Hok & Hanc & HK & Hl & Hs').
  destruct Hat as (f' & rest' & h' & bef' & aft' & k1 & k2 & n1 & n2 & Efs' & Hok' & Hanc' & Hl' & Ek & Hik & En & Hh & -> & ->).
  unfold step_leaf, top in *. rewrite Efs in *. cbn [head mbind option_bind] in *. simplify_eq.
  specialize (Hleaf f' eq_refl). rewrite (wf_leaf t _ _ _ Hok') in Hleaf.
  assert (h' = 0%nat) as -> by (destruct h'; done). destruct Hh as [-> ->]. cbn [map flat] in *.
  destruct k2 as [|k' k2].
  - assert (Ho : inorder (self f') = k1 ++ [k]) by (rewrite inorder_flat, En, Ek; done).
    destruct (Z.ltb_spec (ik f' + 1) (n_of (self f'))).
    { exfalso. unfold n_of, n_keys in *. rewrite Ek, length_app in *. simpl in *. lia. }
    unfold toparentrecurse. rewrite Efs.
    assert (Hs2 : ksorted (bef' ++ inorder (self f') ++ aft')) by (rewrite Ho; by rewrite <- !app_assoc in *).
    destruct (up_ok D rest' f' 0 (self f') bef' aft' k Hanc' eq_refl Hok' HK Hl' Hs2)
      as (fs & fin & -> & Hlen & Hres).
    destruct (with_up_ok i fs fin) as (i' & -> & Hfr & Hfin & Hcfg & Ha'); [by rewrite Efs|done|].
    exists i'. split_and!; try done. cbn [app]. destruct aft' as [|a aft'].
    + destruct Hres as [-> _]. done.
    + destruct Hres as [-> Hat]. rewrite Hfin, Hfr. split; [done|]. cbn. by rewrite Ho, app_assoc in Hat.
  - destruct (Z.ltb_spec (ik f' + 1) (n_of (self f'))).
    2:{ exfalso. unfold n_of, n_keys in *. rewrite Ek, length_app in *. simpl in *. lia. }
    eexists. split; [done|]. unfold same_cfg, alloc in *. cbn. rewrite Efs in *. cbn in *.
    split_and!; try done; try lia.
    eexists _, rest', 0%nat, bef', aft', (k1 ++ [k]), k2, [], []. cbn [self ik map flat]. split_and!; try done.
    + cbn [self]. by rewrite Ek, <- app_assoc.
    + cbn [ik]. rewrite length_app. simpl. lia.
    + by rewrite <- app_assoc.
Qed.

Lemma step_node_ok i k B A : at_key D (frames i) k B A -> alloc i ->
  (forall f, top i = Some f -> leaf (self f) = false) ->
  stepped i (step_node i) A (fun _ A' => (B ++ [k], A')).
Proof.
  intros (f & rest & h & bef & aft & k1 & k2 & n1 & n2 & Efs & Hok & Hanc & Hl & Ek & Hik & En & Hh & -> & ->) Ha Hleaf.
  unfold step_node, top in *. rewrite Efs in *. cbn [head mbind option_bind] in *.
  specialize (Hleaf f eq_refl). rewrite (wf_leaf t _ _ _ Hok) in Hleaf.
  destruct h as [|h]; [done|]. destruct Hh as (Hin & Hn1 & Hn2).
  destruct n2 as [|c n2]; [done|].
  assert (Hlen : length (nodes (self f)) = S (length (keys (self f)))).
  { apply wf_unfold in Hok as (_ & _ & _ & _ & E & _). exact E. }
  rewrite En, Ek, !length_app in Hlen. simpl in Hlen.
  assert (Hn : n_of (self f) = Z.of_nat (length k1) + 1 + Z.of_nat (length k2)).
  { unfold n_of, n_keys. rewrite Ek, length_app. simpl. lia. }
  rewrite Hin, Hik. destruct (Z.leb_spec (Z.of_nat (length k1) + 1) (n_of (self f))); [|lia].
  set (ik' := if _ <? _ then _ else _).
  unfold enter. set (i0 := set_top i _).
  assert (Hi0 : frames i0 = Ln (self f) ik' (Z.of_nat (length k1) + 1) :: rest).
  { unfold i0. cbn. by rewrite Efs. }
  assert (Ha0 : alloc i0) by (unfold alloc in *; rewrite Hi0; rewrite Efs in Ha; done).
  destruct (get_child_ok i0 Ha0) as (i1 & -> & Hfr & Hfin & Hcfg & Ha1).
  { rewrite Hi0. simpl. lia. }
  cbn [mbind option_bind]. unfold top. rewrite Hfr, Hi0. cbn [head mbind option_bind self in_].
  rewrite (NODES_at (self f) n1 c n2) by (done || lia). cbn [mbind option_bind].
  pose proof (child_ok h (self f) n1 c n2 Hok En) as Hc.
  assert (Hslot : slot (Z.of_nat (length n1)) (n_of (self f)) ik' (Z.of_nat (length k1) + 1)).
  { unfold ik', slot. zcases; lia. }
  destruct (down_ok h c i1 (frames i1) (S (height c)) ((bef ++ zipl (map inorder n1) (k1 ++ [k])))
    (zipr k2 (map inorder n2) ++ aft)) as (k' & A' & E & Hm); try done.
  - rewrite Hfr, Hi0. apply (anc_node h c (self f) n1 n2); try done; rewrite ?length_app; simpl; try lia.
    by rewrite Ek, <- app_assoc.
  - rewrite Hfr, Hi0. simpl. lia.
  - rewrite Hfr. lia.
  - rewrite (wf_height t _ _ _ Hc). lia.
  - destruct Hm as (i' & -> & Hat & Hf' & Hcfg' & Ha').
    destruct Hcfg as (? & ? & ?), Hcfg' as (? & ? & ?).
    exists i'. split; [done|]. unfold same_cfg.
    assert (EA : flat (map inorder (c :: n2)) k2 ++ aft = k' :: (A' ++ zipr k2 (map inorder n2) ++ aft)).
    { cbn [map flat]. rewrite E. by rewrite <- app_assoc. }
    rewrite EA. unfold i0 in *. cbn in *. split_and!; try congruence; try done.
    cbn. by rewrite <- app_assoc, <- zipl_end by (by rewrite length_map).
Qed.

(** ** Steps to the left *)

Lemma down_rev_ok : forall h c i rest fuel bef aft,
  node_ok h c -> anc h c rest bef aft -> (length rest + h = D)%nat -> frames i = rest ->
  (length rest < num_nodes i <= MAX_BTREE_DEPTH)%nat -> (h < fuel)%nat ->
  exists k B, inorder c = B ++ [k] /\ moved i (tochildrecurserev fuel i c) k (bef ++ B) aft.
Proof.
  induction h as [|h IH]; intros c i rest [|fuel] bef aft Hc Hanc Hl Hi Hn Hf; try lia;
    cbn [tochildrecurserev]; unfold to_child_rev; rewrite Hi;
    (destruct (Nat.ltb_spec (length rest) (num_nodes i)); [|lia]); cbn [mbind option_bind];
    pose proof (wf_leaf t _ _ _ Hc) as ->; pose proof (wf_keys t _ _ _ Hc) as Hk; unfold n_keys in Hk;
    (assert (Hne : keys c <> []) by (intros E; rewrite E in Hk; simpl in Hk; lia));
    destruct (exists_last Hne) as (k1 & k & Ek);
    (assert (En : n_of c = Z.of_nat (length k1) + 1)
      by (unfold n_of, n_keys; rewrite Ek, length_app; simpl; lia)).
  - assert (Hns : nodes c = []) by (apply wf_unfold in Hc as (_ & _ & _ & _ & E); exact E).
    exists k, k1. split; [by rewrite inorder_flat, Hns, Ek|].
    eexists. split; [done|]. cbn. unfold same_cfg, alloc. cbn. split_and!; try done; try (simpl; lia).
    eexists _, rest, 0%nat, bef, aft, k1, [], [], []. cbn [self ik length]. split_and!; try done; cbn [ik]; lia.
  - assert (Hl2 : length (nodes c) = S (S (length k1))).
    { apply wf_unfold in Hc as (_ & _ & _ & _ & Hl2 & _). unfold n_keys in Hl2.
      rewrite Hl2, Ek, length_app. simpl. lia. }
    assert (Hns : nodes c <> []) by (intros E; by rewrite E in Hl2).
    destruct (exists_last Hns) as (n1 & c0 & Enn). rewrite Enn, length_app in Hl2. simpl in Hl2.
    destruct (get_child_ok (set_frames i (Ln c (n_of c - 1) (n_of c) :: rest)))
      as (i' & -> & Hfr & Hfin & Hcfg & Ha); [unfold alloc; cbn; lia|cbn; lia|].
    cbn [mbind option_bind]. rewrite (NODES_at c n1 c0 []) by (done || lia). cbn [mbind option_bind].
    assert (E : inorder c = zipl (map inorder n1) (k1 ++ [k]) ++ inorder c0).
    { rewrite (inorder_child c n1 c0 [] (k1 ++ [k]) []);
        [by rewrite app_nil_r|done|by rewrite app_nil_r|rewrite length_app; simpl; lia]. }
    destruct (IH c0 i' (Ln c (n_of c - 1) (n_of c) :: rest) fuel
      (bef ++ zipl (map inorder n1) (k1 ++ [k])) aft) as (k' & B & E0 & Hm).
    + by apply (child_ok h c n1 c0 []).
    + pose proof (anc_node h c0 c n1 [] (k1 ++ [k]) [] (n_of c - 1) (n_of c) rest bef aft) as P.
      cbn in P. rewrite !app_nil_r in P. apply P; try done; [rewrite length_app; simpl; lia|].
      right. left. lia.
    + simpl. lia.
    + done.
    + cbn in Ha. simpl. lia.
    + lia.
    + exists k', (zipl (map inorder n1) (k1 ++ [k]) ++ B). rewrite E, E0, app_assoc. split; [done|].
      rewrite app_assoc. eapply moved_cfg; [exact Hm|by rewrite Hfin|exact Hcfg].
Qed.

Definition stepped_rev (i : btIterator K) (r : option (btIterator K)) (k : K) (B A : list K) : Prop :=
  exists i', r = Some i' /\ same_cfg i i' /\ alloc i' /\
    (B = [] -> finished i' = true) /\
    (forall B' k', B = B' ++ [k'] -> finished i' = finished i /\ at_key D (frames i') k' B' (k :: A)).

Lemma step_leaf_rev_ok i k B A : at_key D (frames i) k B A -> alloc i -> ksorted (B ++ k :: A) ->
  (forall f, top i = Some f -> leaf (self f) = true) ->
  stepped_rev i (step_leaf_rev i) k B A.
Proof.
  intros Hat Ha Hs Hleaf.
  destruct (at_key_inorder _ _ _ _ Hat Hs) as (f & rest & h & bef & aft & Efs & Hok & Hanc & HK & Hl & Hs').
  destruct Hat as (f' & rest' & h' & bef' & aft' & k1 & k2 & n1 & n2 & Efs' & Hok' & Hanc' & Hl' & Ek & Hik & En & Hh & -> & ->).
  unfold step_leaf_rev, top in *. rewrite Efs in *. cbn [head mbind option_bind] in *. simplify_eq.
  specialize (Hleaf f' eq_refl). rewrite (wf_leaf t _ _ _ Hok') in Hleaf.
  assert (h' = 0%nat) as -> by (destruct h'; done). destruct Hh as [-> ->]. cbn [map flat] in *.
  destruct (decide (k1 = [])) as [->|Hne].
  - assert (Ho : inorder (self f') = k :: k2) by (rewrite inorder_flat, En, Ek; done).
    rewrite Hik. cbn [length Z.of_nat Z.eqb].
    unfold toparentrecurserev. rewrite Efs.
    assert (Hs2 : ksorted (bef' ++ inorder (self f') ++ aft')) by (rewrite Ho; by rewrite app_nil_r in Hs).
    destruct (up_rev_ok D rest' f' 0 (self f') bef' aft' k Hanc' eq_refl Hok' HK Hl' Hs2)
      as (fs & fin & -> & Hlen & R1 & R2).
    destruct (with_up_ok i fs fin) as (i' & -> & Hfr & Hfin & Hcfg & Ha'); [by rewrite Efs|done|].
    exists i'. rewrite app_nil_r. split_and!; try done.
    + intros Hb. destruct (R1 Hb) as [-> _]. done.
    + intros B' k' Hb. destruct (R2 B' k' Hb) as (-> & Hat & _). rewrite Hfin, Hfr. split; [done|].
      by rewrite Ho in Hat.
  - destruct (exists_last Hne) as (k0 & kl & ->). rewrite length_app in Hik. simpl in Hik.
    destruct (Z.eqb_spec (ik f') 0); [lia|].
    eexists. split; [done|]. unfold same_cfg, alloc in *. cbn. rewrite Efs in *. cbn in *.
    split_and!; try done; try lia; [by intros [_ [_ ?]%app_eq_nil]%app_eq_nil|].
    intros B' k' Hb. rewrite app_assoc in Hb. apply app_inj_tail in Hb as [<- <-]. split; [done|].
    eexists _, rest', 0%nat, bef', aft', k0, (k :: k2), [], []. split_and!; try done.
    + cbn [self]. by rewrite Ek, <- app_assoc.
    + cbn [ik]. lia.
Qed.

Lemma step_node_rev_ok i k B A : at_key D (frames i) k B A -> alloc i ->
  (forall f, top i = Some f -> leaf (self f) = false) ->
  stepped_rev i (step_node_rev i) k B A.
Proof.
  intros (f & rest & h & bef & aft & k1 & k2 & n1 & n2 & Efs & Hok & Hanc & Hl & Ek & Hik & En & Hh & -> & ->) Ha Hleaf.
  unfold step_node_rev, enter_rev, top in *. 
  specialize (Hleaf f). rewrite Efs in Hleaf. specialize (Hleaf eq_refl). rewrite (wf_leaf t _ _ _ Hok) in Hleaf.
  destruct h as [|h]; [done|]. destruct Hh as (Hin & Hn1 & Hn2).
  assert (Hne : n1 <> []) by (by destruct n1). destruct (exists_last Hne) as (n0 & c & ->).
  rewrite length_app in Hn1. simpl in Hn1. rewrite <- app_assoc in En. cbn [app] in En.
  assert (Hlen : length (nodes (self f)) = S (length (keys (self f)))).
  { apply wf_unfold in Hok as (_ & _ & _ & _ & E & _). exact E. }
  rewrite En, Ek, !length_app in Hlen. simpl in Hlen.
  assert (Hn : n_of (self f) = Z.of_nat (length k1) + 1 + Z.of_nat (length k2)).
  { unfold n_of, n_keys. rewrite Ek, length_app. simpl. lia. }
  destruct (get_child_ok i Ha) as (i1 & -> & Hfr & Hfin & Hcfg & Ha1).
  { rewrite Efs. simpl. lia. }
  cbn [mbind option_bind]. rewrite Hfr, Efs. cbn [head mbind option_bind].
  rewrite (NODES_at (self f) n0 c n2) by (done || lia). cbn [mbind option_bind].
  pose proof (child_ok h (self f) n0 c n2 Hok En) as Hc.
  assert (Ef : f = Ln (self f) (ik f) (in_ f)) by (by destruct f).
  destruct (down_rev_ok h c i1 (frames i1) (S (height c)) (bef ++ zipl (map inorder n0) k1)
    (zipr (k :: k2) (map inorder n2) ++ aft)) as (k' & B & E & Hm); try done.
  - rewrite Hfr, Efs, Ef. apply (anc_node h c (self f) n0 n2); try done; try (simpl; lia).
    left. lia.
  - rewrite Hfr, Efs. simpl. lia.
  - rewrite Hfr. lia.
  - rewrite (wf_height t _ _ _ Hc). lia.
  - destruct Hm as (i' & -> & Hat & Hf' & Hcfg' & Ha').
    destruct Hcfg as (? & ? & ?), Hcfg' as (? & ? & ?).
    exists i'. split; [done|]. unfold same_cfg.
    assert (EB : bef ++ flat (map inorder (n0 ++ [c])) k1 = ((bef ++ zipl (map inorder n0) k1) ++ B) ++ [k']).
    { rewrite map_app. cbn [map]. pose proof (flat_split (map inorder n0) (inorder c) [] k1 []) as F.
      rewrite app_nil_r in F. rewrite F by (rewrite length_map; lia). unfold zipr. cbn.
      by rewrite app_nil_r, E, <- !app_assoc. }
    split_and!; try congruence; try done.
    + rewrite EB. by intros [_ ?]%app_eq_nil.
    + rewrite EB. intros B' k'' [<- <-]%app_inj_tail. split; [congruence|].
      destruct n2 as [|c2 n2]; [done|]. cbn [map] in Hat. rewrite zipr_cons in Hat.
      cbn [map flat]. by rewrite <- app_assoc in Hat |- *.
Qed.
End Depth.
End Path.

(** ** Where the search leaves the iterator *)

Section Init.
Context {K : Type} `{KeyOrderLaws K} `{KeyOps K} `{KeyStream K} (t : nat) (nbits : Z).
Context (Hp : bt_params t nbits) (D : nat) (HD : (D < MAX_BTREE_DEPTH)%nat).
Context (k : K) (qkey : Z).

(** The position found for [k]: at the key equal to it; or else at the last key
    below it, or at the first one above it. *)
Definition landed (lmiss : bool) (ret : ii) (k' : K) (B A : list K) : Prop :=
  (ret = (if lmiss then II_L_MISS else II_OK) /\ cmp k k' = 0) \/
  ((ret = II_LEAF_EXIT \/ ret = II_ONLY_RIGHT /\ A = [] /\ 0 < cmp k k') /\
   ((0 < cmp k k' /\ Forall (fun a => cmp k a < 0) A) \/
    (cmp k k' < 0 /\ Forall (fun a => 0 < cmp k a) B))).

Lemma init_leaf lmiss x f rest bef aft r onlyr i fuel :
  node_ok t 0 x -> anc t 0 x rest bef aft -> frames i = f :: rest -> self f = x ->
  (length rest + 0 = D)%nat -> num_nodes i = S (length rest) ->
  ksorted (bef ++ inorder x ++ aft) ->
  Forall (fun a => 0 < cmp k a) bef -> Forall (fun a => cmp k a < 0) aft ->
  r <> 0 -> (onlyr = true -> aft = []) ->
  exists i' ret k' B A, init_loop nbits (S fuel) i x k qkey r lmiss onlyr = Some (i', ret) /\
    at_key t D (frames i') k' B A /\ B ++ k' :: A = bef ++ inorder x ++ aft /\
    same_cfg i i' /\ alloc i' /\ finished i' = finished i /\ landed lmiss ret k' B A.
Proof.
  intros Hx Hanc Hi Hf Hl Hn Hs Hbef Haft Hr Honly.
  pose proof Hs as Hsx. apply ksorted_app in Hsx as (_ & Hsx & _). apply ksorted_app in Hsx as (Hsx & _ & _).
  destruct (find_step t nbits (params_width t nbits Hp) (params_cap t nbits Hp) 1 _ x k r Hx Hsx Hr)
    as (j & r' & Efk & Hj & Hcase).
  pose proof (wf_keys t _ _ _ Hx) as Hk. pose proof (wf_leaf t _ _ _ Hx) as Hleaf.
  pose proof (keys_sorted t _ _ _ Hx Hsx) as Hks.
  cbn [init_loop]. unfold findkindex_it. rewrite Efk. cbn [mbind option_bind].
  destruct (Nat.eqb_spec (n_keys x) 0); [lia|]. unfold top. rewrite Hi. cbn [head mbind option_bind].
  set (i1 := set_top i _).
  assert (Hfr : frames i1 = Ln x (iter_slot j) (iter_slot j) :: rest) by (unfold i1; cbn; by rewrite Hi, Hf).
  assert (Ha1 : alloc i1) by (unfold alloc; rewrite Hfr; unfold i1; cbn; lia).
  assert (Hgo : forall k1 a k2 ret, keys x = k1 ++ a :: k2 -> iter_slot j = Z.of_nat (length k1) ->
    landed lmiss ret a (bef ++ k1) (k2 ++ aft) ->
    exists i' ret' k' B A, Some (i1, ret) = Some (i', ret') /\ at_key t D (frames i') k' B A /\
      B ++ k' :: A = bef ++ inorder x ++ aft /\ same_cfg i i' /\ alloc i' /\
      finished i' = finished i /\ landed lmiss ret' k' B A).
  { intros k1 a k2 ret Ek Hsl Hland.
    destruct (at_key_here t (params_t t nbits Hp) D 0 x rest bef aft k1 a k2 (iter_slot j) Hx Hanc Hl Ek ltac:(done))
      as (B & A & Hat & HB & HBA). destruct (HBA eq_refl) as [-> ->].
    exists i1, ret, a, (bef ++ k1), (k2 ++ aft). rewrite Hfr. rewrite Hsl at 1.
    split_and!; try done. }
  destruct Hcase as [(-> & -> & a & k1 & k2 & Ek & _ & -> & Hc)|(-> & Hr' & Hdiff)].
  { apply (Hgo k1 a k2 _ Ek); [unfold iter_slot; zcases; lia|]. left. auto. }
  rewrite covers_miss_clean by (by eapply wf_clean). cbn [mbind option_bind]. rewrite Hleaf.
  set (only := onlyr && negb ((r' <? 0) || negb (j =? n_of x - 1)) && (j =? n_of x - 1)).
  set (ret := if only then II_ONLY_RIGHT else II_LEAF_EXIT).
  destruct (rank_split k (keys x) Hks) as (k1 & k2 & Ek & Hk1 & F1 & F2).
  rewrite Ek in Hdiff. apply Forall_app in Hdiff as [Hd1 _]. rewrite <- Hk1 in Hj.
  destruct (decide (k1 = [])) as [->|Hne].
  - simpl in Hj. destruct k2 as [|a k2]; [exfalso; unfold n_keys in Hk; rewrite Ek in Hk; simpl in Hk; lia|].
    apply Forall_cons in F2 as [Ha F2].
    apply (Hgo [] a k2 ret Ek); [by subst j|]. right. split.
    + left. unfold ret, only. unfold n_of. rewrite Hj. destruct (Z.eqb_spec (Z.of_nat 0 - 1) (Z.of_nat (n_keys x) - 1)); [lia|].
      by rewrite andb_false_r.
    + right. split; [done|]. by rewrite app_nil_r.
  - destruct (exists_last Hne) as (k0 & a & ->). apply Forall_app in F1 as [_ F1].
    apply Forall_app in Hd1 as [_ Hd1]. apply Forall_cons in F1 as [F1 _]. apply Forall_cons in Hd1 as [Hd1 _].
    rewrite length_app in Hj. simpl in Hj.
    apply (Hgo k0 a k2 ret); [by rewrite Ek, <- app_assoc|unfold iter_slot; zcases; lia|].
    right. split; [|left; split; [lia|by apply Forall_app]].
    unfold ret. destruct only eqn:E1; [|by left]. unfold only in E1.
    right. apply andb_true_iff in E1 as [[-> _]%andb_true_iff E2]. rewrite (Honly eq_refl), app_nil_r.
    apply Z.eqb_eq in E2. unfold n_of, n_keys in E2. rewrite Ek, !length_app in E2. simpl in E2.
    destruct k2; [|simpl in *; lia]. split_and!; (done || lia).
Qed.

Lemma rank_all (l : list K) : Forall (fun a => 0 <= cmp k a) l -> rank k l = length l.
Proof.
  induction 1 as [|a l Ha _ IH]; [done|]. cbn. destruct (Z.ltb_spec (cmp k a) 0); [lia|]. by rewrite IH.
Qed.

(** Beyond the last key the search ends with [II_ONLY_RIGHT]. *)
Lemma init_off_end : forall h x i fuel r lmiss i' ret,
  node_ok t h x -> ksorted (inorder x) -> Forall (fun a => 0 < cmp k a) (inorder x) ->
  init_loop nbits fuel i x k qkey r lmiss true = Some (i', ret) -> ret = II_ONLY_RIGHT.
Proof.
  induction h as [|h IH]; intros x i [|fuel] r lmiss i' ret Hx Hs Hall E; try done;
    cbn [init_loop] in E; unfold findkindex_it in E;
    pose proof (wf_keys t _ _ _ Hx) as Hn; unfold n_keys in Hn;
    pose proof (keys_sorted t _ _ _ Hx Hs) as Hks;
    destruct (findkindex_spec nbits (keys x) k (params_width t nbits Hp)
      ltac:(pose proof (params_cap t nbits Hp); lia) Hks r) as (r' & Ef & Hr1 & _ & _);
    (assert (Hkall : Forall (fun a => 0 < cmp k a) (keys x))
      by (apply Forall_forall; intros a Ha; rewrite Forall_forall in Hall; apply Hall;
          rewrite inorder_flat; apply elem_of_keys_flat; [by eapply wf_shape|done]));
    rewrite rank_all in Ef, Hr1 by (eapply Forall_impl; [exact Hkall|cbn; lia]);
    (destruct (lookup_lt_is_Some_2 (keys x) (length (keys x) - 1)) as [a Ha]; [lia|]);
    specialize (Hr1 a Ha ltac:(lia)); pose proof (Forall_lookup_1 _ _ _ _ Hkall Ha) as Hak; cbn in Hak;
    rewrite Ef in E; cbn [mbind option_bind] in E; unfold n_keys in E;
    (destruct (Nat.eqb_spec (length (keys x)) 0); [lia|]);
    (destruct (top i) as [f|]; [|done]); cbn [mbind option_bind] in E;
    (destruct (Z.eqb_spec r' 0); [lia|]); rewrite andb_false_r in E;
    rewrite covers_miss_clean in E by (by eapply wf_clean); cbn [mbind option_bind] in E;
    unfold n_of, n_keys in E; rewrite Z.eqb_refl in E; (destruct (Z.ltb_spec r' 0); [lia|]);
    rewrite (wf_leaf t _ _ _ Hx) in E; cbn [negb orb andb] in E.
  - by injection E.
  - destruct (get_new_iter_child _) as [i1|]; [|done]. cbn [mbind option_bind] in E.
    destruct (NODES x _) as [c|] eqn:Ec; [|done]. cbn [mbind option_bind] in E.
    destruct (to_child i1 c) as [i2|]; [|done]. cbn [mbind option_bind] in E.
    unfold NODES in Ec. case_match; [done|]. destruct (lookup_split _ _ _ Ec) as (n1 & n2 & En & Hn1).
    pose proof (inorder_child x n1 c n2 (take (length n1) (keys x)) (drop (length n1) (keys x)) En
      ltac:(by rewrite take_drop)) as Ein.
    rewrite length_take in Ein. specialize (Ein ltac:(lia)).
    rewrite Ein in Hs, Hall. apply ksorted_app in Hs as (_ & Hs & _). apply ksorted_app in Hs as (Hs & _ & _).
    apply Forall_app in Hall as [_ Hall]. apply Forall_app in Hall as [Hall _].
    eapply IH; [|exact Hs|exact Hall|exact E].
    eapply child_ok; [apply (params_t t nbits Hp)|exact Hx|exact En].
Qed.

Lemma init_ok : forall h x i f rest bef aft fuel r lmiss onlyr,
  node_ok t h x -> anc t h x rest bef aft -> frames i = f :: rest -> self f = x ->
  (length rest + h = D)%nat -> num_nodes i = S (length rest) ->
  ksorted (bef ++ inorder x ++ aft) ->
  Forall (fun a => 0 < cmp k a) bef -> Forall (fun a => cmp k a < 0) aft ->
  r <> 0 -> (h < fuel)%nat -> (onlyr = true -> aft = []) ->
  exists i' ret k' B A, init_loop nbits fuel i x k qkey r lmiss onlyr = Some (i', ret) /\
    at_key t D (frames i') k' B A /\ B ++ k' :: A = bef ++ inorder x ++ aft /\
    same_cfg i i' /\ alloc i' /\ finished i' = finished i /\ landed lmiss ret k' B A.
Proof.
  induction h as [|h IH]; intros x i f rest bef aft [|fuel] r lmiss onlyr Hx Hanc Hi Hf Hl Hn Hs
    Hbef Haft Hr Hfu Honly; try lia; [by eapply init_leaf|].
  pose proof Hs as Hsx. apply ksorted_app in Hsx as (_ & Hsx & _). apply ksorted_app in Hsx as (Hsx & _ & _).
  destruct (find_step t nbits (params_width t nbits Hp) (params_cap t nbits Hp) 1 _ x k r Hx Hsx Hr)
    as (j & r' & Efk & Hj & Hcase).
  pose proof (wf_keys t _ _ _ Hx) as Hk. pose proof (wf_leaf t _ _ _ Hx) as Hleaf.
  cbn [init_loop]. unfold findkindex_it. rewrite Efk. cbn [mbind option_bind].
  destruct (Nat.eqb_spec (n_keys x) 0); [lia|]. unfold top. rewrite Hi. cbn [head mbind option_bind].
  set (i1 := set_top i _).
  assert (Hfr : frames i1 = Ln x (iter_slot j) (iter_slot j) :: rest) by (unfold i1; cbn; by rewrite Hi, Hf).
  assert (Hn1 : num_nodes i1 = S (length rest)) by done.
  destruct Hcase as [(-> & -> & a & k1 & k2 & Ek & _ & -> & Hc)|(-> & Hr' & Hdiff)].
  { assert (Hsl : iter_slot (Z.of_nat (length k1)) = Z.of_nat (length k1)) by (unfold iter_slot; zcases; lia).
    destruct (at_key_here t (params_t t nbits Hp) D (S h) x rest bef aft k1 a k2 (Z.of_nat (length k1))
      Hx Hanc Hl Ek ltac:(done)) as (B & A & Hat & HB & _).
    exists i1, (if lmiss then II_L_MISS else II_OK), a, B, A. rewrite Hfr, Hsl.
    split_and!; try done; [unfold alloc; rewrite Hfr; simpl; unfold MAX_BTREE_DEPTH in *; lia|left; auto]. }
  rewrite covers_miss_clean by (by eapply wf_clean). cbn [mbind option_bind]. rewrite Hleaf.
  set (only := onlyr && _).
  destruct (locate t 1 h x k Hx Hsx)
    as (n1 & c & n2 & k1 & k2 & En & Ek & Hn1' & Hk1 & Hk2 & Hin & Hwc & Hsc & _ & F2 & F1).
  specialize (F1 Hdiff). rewrite <- Hn1' in Hj.
  unfold get_new_iter_child. rewrite Hn1. unfold MAX_BTREE_DEPTH in *.
  destruct (Nat.ltb_spec (S (length rest)) 16); [|lia]. cbn [mbind option_bind].
  rewrite (NODES_at x n1 c n2) by (done || lia). cbn [mbind option_bind].
  unfold to_child. cbn [set_num_nodes frames num_nodes]. rewrite Hfr. cbn [length].
  destruct (Nat.ltb_spec (S (length rest)) (S (S (length rest)))); [|lia]. cbn [mbind option_bind].
  assert (Hnx : n_of x = Z.of_nat (length k1) + Z.of_nat (length k2)).
  { unfold n_of, n_keys. rewrite Ek, length_app. lia. }
  unfold n_keys in Hk. rewrite Ek, length_app in Hk.
  assert (Hslot : slot (Z.of_nat (length n1)) (n_of x) (iter_slot j) (iter_slot j)).
  { unfold iter_slot, slot. zcases; lia. }
  set (i2 := set_frames _ _).
  destruct (IH c i2 (Ln c 0 0) (Ln x (iter_slot j) (iter_slot j) :: rest)
    (bef ++ zipl (map inorder n1) k1) (zipr k2 (map inorder n2) ++ aft) fuel r' lmiss only)
    as (i' & ret & k' & B & A & -> & Hat & HB & Hcfg & Ha & Hfin & Hland); try done.
  - apply (wf_weaken t (t - 1)); [done|]. pose proof (wf_keys t _ _ _ Hwc). pose proof (params_t t nbits Hp). lia.
  - by apply (anc_node t h c x n1 n2 k1 k2).
  - simpl. lia.
  - rewrite Hin in Hs. by rewrite <- !app_assoc in *.
  - by apply Forall_app.
  - by apply Forall_app.
  - lia.
  - intros Ho. unfold only in Ho. apply andb_true_iff in Ho as [Ho1 Ho].
    apply negb_true_iff, orb_false_iff in Ho as [_ Ho]. apply negb_false_iff, Z.eqb_eq in Ho.
    rewrite (Honly Ho1). destruct k2; [|simpl in *; lia]. by destruct n2.
  - exists i', ret, k', B, A. split_and!; try done. rewrite HB, Hin. by rewrite <- !app_assoc.
Qed.
End Init.

(** ** Scans *)

(** The number of an [aobj] of the key's type. *)
Definition key_num {K} `{KeyStream K} (a : aobj) : Z :=
  if C_IS_I kt then ao_i a else if C_IS_L kt then ao_l a else ao_x a.
Definition kv {K} `{KeyStream K} (k : K) : Z := key_num (conv k).

(** Numeric keys: the comparator orders them by their numbers, and the key made
    for an [aobj] has its number. *)
Class NumKeyLaws (K : Type) `{KeyOrder K} `{KeyStream K} := {
  kt_num : C_IS_NUM kt = true;
  cmp_kv : forall a b : K, Z.sgn (cmp a b) = Z.sgn (kv a - kv b);
  conv_ok : forall k : K, ao_ok (conv k);
  mk_kv : forall (a : aobj) (k : K), ao_ok a -> mk a = Some k -> kv k = key_num a;
}.

Lemma kv_range {K} `{NumKeyLaws K} (k : K) : 0 <= kv k < (if C_IS_X kt then 2 ^ 128 else 2 ^ 64).
Proof.
  pose proof kt_num as E. destruct (conv_ok k) as (? & ? & ?). unfold kv, key_num, C_IS_NUM in *. ctypes.
  destruct (Z.eqb_spec kt 1) as [->|]; [cbn; lia|]. destruct (Z.eqb_spec kt 2) as [->|]; [cbn; lia|].
  destruct (kt =? 5); [done|lia].
Qed.

(** The bound of a scan over numeric keys. *)
Definition high_num {K} `{KeyStream K} (hs : highs_t) : Z :=
  if C_IS_X kt then highx hs else high hs.

(** The keys a scan reports, in order, until it is exhausted. *)
Fixpoint drain {K} `{KeyOrder K} `{KeyOps K} `{KeyStream K} (fuel : nat) (dirty : bool)
    (s : btSIter K) (asc : bool) : option (list K) :=
  match fuel with
  | O => None
  | S fuel' =>
      '(s, e) ← btRangeNext dirty s asc;
      match e with
      | None => Some []
      | Some b => l ← drain fuel' dirty s asc; Some (be_stream b :: l)
      end
  end.

Lemma drain_done {K} `{KeyOrder K} `{KeyOps K} `{KeyStream K} dirty (s : btSIter K) asc fuel :
  finished (it s) = true -> empty s = false -> (0 < fuel)%nat ->
  drain fuel dirty s asc = Some [].
Proof.
  intros Hf He Hfu. destruct fuel; [lia|]. cbn [drain]. unfold btRangeNext, btNext. rewrite He, Hf.
  cbn [mbind option_bind streamToBTEntry]. by destruct (be _).
Qed.

Section Scan.
Context {K : Type} `{KeyOrderLaws K} `{KeyOps K} `{KeyStream K} `{!NumKeyLaws K}.
Context (t : nat) (Ht : (2 <= t)%nat) (D : nat) (HD : (D < MAX_BTREE_DEPTH)%nat).
Implicit Types (s : btSIter K) (k : K) (B A : list K).

Definition fns (asc : bool) : iter_fn * iter_fn :=
  if asc then (iter_leaf, iter_node) else (iter_leaf_rev, iter_node_rev).

(** The state of a scan that has not ended. *)
Definition running (asc : bool) s k B A : Prop :=
  at_key t D (frames (it s)) k B A /\ finished (it s) = false /\ alloc (it s) /\
  (iLeaf (it s), iNode (it s)) = fns asc /\ empty s = false.

(** What a scan keeps. *)
Definition same_scan s s' : Prop := si_high s' = si_high s /\ empty s' = empty s.

(** The keys still to come, in the order of the scan. *)
Definition to_come (asc : bool) B A : list K := if asc then A else reverse B.
Definition move (asc : bool) B k A (k' : K) : list K * list K :=
  if asc then (B ++ [k], tail A) else (take (length B - 1) B, k :: A).

Lemma at_key_dr fs k B A f : at_key t D fs k B A -> head fs = Some f ->
  KEYS (self f) (ik f) = Some k /\ drAt (self f) (ik f) = Some 0.
Proof.
  intros (f' & rest & h & bef & aft & k1 & k2 & n1 & n2 & -> & Hok & _ & _ & Ek & Hik & _) [= <-].
  split; [by eapply KEYS_at|]. unfold drAt. destruct (Z.ltb_spec (ik f') 0); [lia|].
  by rewrite getDR_clean by (by eapply wf_clean).
Qed.

Lemma btNext_ok asc dirty s k B A : running asc s k B A -> ksorted (B ++ k :: A) ->
  exists s' x i, btNext dirty s asc = Some (s', Some (k, x, i)) /\ drAt x i = Some 0 /\
    nim s' = false /\ same_scan s s' /\
    match to_come asc B A with
    | [] => finished (it s') = true
    | k' :: _ => running asc s' k' (move asc B k A k').1 (move asc B k A k').2
    end.
Proof.
  intros (Hat & Hfin & Ha & Hfn & He) Hs. unfold btNext. rewrite Hfin.
  destruct (frames (it s)) as [|f fs] eqn:Efs.
  { destruct Hat as (f & rest & ? & ? & ? & ? & ? & ? & ? & [=] & _). }
  destruct (at_key_dr _ _ _ _ f Hat eq_refl) as [HK Hdr].
  assert (Hit : it (if asc then set_missed s (nim s) else s) = it s) by (by destruct asc).
  rewrite Hit. unfold top. rewrite Efs. cbn [head mbind option_bind]. rewrite HK, Hdr.
  cbn [mbind option_bind Z.eqb negb].
  assert (Hleaf : forall b, leaf (self f) = b -> forall f', top (it s) = Some f' -> leaf (self f') = b).
  { intros b Hb f'. unfold top. rewrite Efs. cbn. by intros [= <-]. }
  rewrite <- Efs in Hat.
  assert (Hcfg : forall i', same_cfg (it s) i' -> (iLeaf i', iNode i') = fns asc).
  { intros i' (-> & -> & _). done. }
  destruct asc; cbn [fns] in Hfn; injection Hfn as Hfl Hfno.
  - assert (Hst : stepped t D (it s)
      (iter_call dirty (if leaf (self f) then iLeaf (it s) else iNode (it s)) (it s)) A
      (fun _ A' => (B ++ [k], A'))).
    { destruct (leaf (self f)) eqn:Hl; rewrite ?Hfl, ?Hfno; cbn [iter_call].
      - apply (step_leaf_ok t Ht D HD); try done. by apply Hleaf.
      - apply (step_node_ok t Ht D HD); try done. by apply Hleaf. }
    cbn [it set_nim set_missed]. destruct Hst as (i' & -> & Hc & Ha' & Hm). eexists _, _, _. split; [done|].
    split_and!; try done. cbn [to_come]. destruct A as [|k' A]; [done|].
    destruct Hm as [Hf' Hm]. unfold running. cbn. split_and!; try done; [by rewrite Hf'|by apply Hcfg].
  - assert (Hst : stepped_rev t D (it s)
      (iter_call dirty (if leaf (self f) then iLeaf (it s) else iNode (it s)) (it s)) k B A).
    { destruct (leaf (self f)) eqn:Hl; rewrite ?Hfl, ?Hfno; cbn [iter_call].
      - apply (step_leaf_rev_ok t Ht D HD); try done. by apply Hleaf.
      - apply (step_node_rev_ok t Ht D HD); try done. by apply Hleaf. }
    cbn [it set_nim set_missed]. destruct Hst as (i' & -> & Hc & Ha' & Hm1 & Hm2). eexists _, _, _. split; [done|].
    split_and!; try done. cbn [to_come move fst snd].
    destruct (decide (B = [])) as [->|Hne]; [by apply Hm1|].
    destruct (exists_last Hne) as (B' & k' & ->). rewrite reverse_snoc.
    destruct (Hm2 B' k' eq_refl) as [Hf' Hm]. unfold running.
    rewrite length_app. cbn [length]. replace (length B' + 1 - 1)%nat with (length B') by lia.
    rewrite take_app_length. split_and!; try done; [by cbn; rewrite Hf'|by apply Hcfg].
Qed.

Lemma kt_cases :
  ((C_IS_I kt || C_IS_L kt) = true /\ C_IS_X kt = false) \/
  ((C_IS_I kt || C_IS_L kt) = false /\ C_IS_X kt = true /\ C_IS_I kt = false /\ C_IS_L kt = false).
Proof.
  pose proof kt_num as E. unfold C_IS_NUM in E. ctypes.
  destruct (Z.eqb_spec kt 1), (Z.eqb_spec kt 2), (Z.eqb_spec kt 5); try lia; auto.
Qed.

(** Within the bound of the scan. *)
Definition inb (asc : bool) (hs : highs_t) (k : K) : bool :=
  if asc then kv k <=? high_num hs else high_num hs <=? kv k.

Lemma btRangeNext_ok asc dirty s k B A : running asc s k B A -> ksorted (B ++ k :: A) ->
  is_ghost k = false ->
  exists s' b, btRangeNext dirty s asc =
      Some (s', if inb asc (si_high s) k then Some b else None) /\
    be_stream b = k /\ same_scan s s' /\
    if kv k =? high_num (si_high s) then finished (it s') = true
    else match to_come asc B A with
    | [] => finished (it s') = true
    | k' :: _ => running asc s' k' (move asc B k A k').1 (move asc B k A k').2
    end.
Proof.
  intros Hrun Hs Hg. pose proof Hrun as (_ & _ & _ & _ & He).
  destruct (btNext_ok asc dirty s k B A Hrun Hs) as (s1 & x & i & E & Hdr & Hnim & [Hh1 Hh2] & Hst).
  unfold btRangeNext. rewrite He, E. cbn [mbind option_bind streamToBTEntry]. rewrite Hg.
  assert (Hdr' : drAt x (if i <? 0 then 0 else i) = Some 0).
  { destruct (i <? 0) eqn:Ei; [|done]. unfold drAt in Hdr. by rewrite Ei in Hdr. }
  rewrite Hdr'. cbn [mbind option_bind be set_be]. set (b := Be k _ _ _).
  assert (Hdec : forall v h, v = kv k -> h = high_num (si_high s) ->
    exists s' b0,
      Some (if (if asc then h <? v else v <? h) && nim (stop_if (v =? h) (set_be s1 (Some b)))
            then set_missed (stop_if (v =? h) (set_be s1 (Some b))) true
            else stop_if (v =? h) (set_be s1 (Some b)),
            if (if asc then h <? v else v <? h) then None else Some b) =
      Some (s', if inb asc (si_high s) k then Some b0 else None) /\
      be_stream b0 = k /\ same_scan s s' /\
      if kv k =? high_num (si_high s) then finished (it s') = true
      else match to_come asc B A with
      | [] => finished (it s') = true
      | k' :: _ => running asc s' k' (move asc B k A k').1 (move asc B k A k').2
      end).
  { intros v h -> ->. eexists _, b. split.
    - f_equal. f_equal. unfold inb. destruct asc; zcases; (done || lia).
    - assert (Hn : nim (stop_if (kv k =? high_num (si_high s)) (set_be s1 (Some b))) = false)
        by (by destruct (kv k =? high_num (si_high s))).
      rewrite Hn, andb_false_r. split; [done|]. unfold same_scan.
      destruct (kv k =? high_num (si_high s)); cbn; auto. }
  pose proof (kv_range k) as Hr.
  destruct kt_cases as [[C1 C2]|(C1 & C2 & C3 & C4)]; rewrite ?C1, ?C2 in *.
  - assert (El : (if C_IS_I kt then ao_i (conv k) else ao_l (conv k)) = kv k).
    { unfold kv, key_num. destruct (C_IS_I kt); [done|]. by destruct (C_IS_L kt). }
    rewrite El, Hdr. cbn [mbind option_bind]. rewrite Z.add_0_r, uwrap_small by lia.
    rewrite Tauto.if_same. apply Hdec; [done|]. cbn [si_high set_be]. rewrite Hh1. unfold high_num. by rewrite C2.
  - assert (El : ao_x (conv k) = kv k) by (unfold kv, key_num; by rewrite C3, C4).
    rewrite El, Hdr. cbn [mbind option_bind]. rewrite Z.add_0_r, uwrap_small by lia.
    rewrite Tauto.if_same.
    assert (Eh : highx (si_high (set_be s1 (Some b))) = high_num (si_high s)).
    { cbn. rewrite Hh1. unfold high_num. by rewrite C2. }
    rewrite Eh. destruct (Hdec (kv k) (high_num (si_high s)) eq_refl eq_refl) as (s' & b0 & E0 & R).
    exists (stop_if (kv k =? high_num (si_high s)) (set_be s1 (Some b))), b0.
    assert (Hn : nim (stop_if (kv k =? high_num (si_high s)) (set_be s1 (Some b))) = false)
        by (by destruct (kv k =? high_num (si_high s))).
    rewrite Hn, andb_false_r in E0. injection E0 as <- E0. split; [by rewrite E0|done].
Qed.

(** The keys from the current one on that are within the bound. *)
Lemma drain_ok asc dirty hs : forall l s k B A fuel,
  running asc s k B A -> to_come asc B A = l -> ksorted (B ++ k :: A) ->
  Forall (fun k => is_ghost k = false) (B ++ k :: A) -> si_high s = hs ->
  (S (length l) < fuel)%nat ->
  drain fuel dirty s asc = Some (filter (fun a => inb asc hs a = true) (k :: l)).
Proof.
  induction l as [|k' l IH]; intros s k B A fuel Hrun Hl Hs Hg Hh Hfu;
    (destruct fuel as [|fuel]; [lia|]); cbn [drain];
    pose proof Hrun as (_ & _ & _ & _ & He);
    (assert (Hgk : is_ghost k = false) by (apply Forall_app in Hg as [_ Hg]; by inversion Hg));
    destruct (btRangeNext_ok asc dirty s k B A Hrun Hs Hgk) as (s' & b & -> & Hb & [Hh1 Hh2] & Hst);
    cbn [mbind option_bind]; rewrite Hh in *; rewrite Hl in Hst.
  - assert (Hfin : finished (it s') = true) by (by destruct (kv k =? high_num hs)).
    rewrite filter_cons. destruct (inb asc hs k).
    + rewrite drain_done by (try done; simpl in *; try lia; congruence). cbn. by rewrite Hb.
    + done.
  - simpl in Hfu.
    (* the keys after [k] are beyond it *)
    assert (Hbeyond : Forall (fun a => if asc then kv k < kv a else kv a < kv k) (k' :: l)).
    { apply Forall_forall. intros a Ha. apply ksorted_app in Hs as (_ & Hs1 & Hs2).
      assert (Hkv : forall a b : K, klt a b -> kv a < kv b).
      { intros x y Hxy. unfold klt in Hxy. pose proof (cmp_kv x y). lia. }
      destruct asc; cbn [to_come] in Hl.
      - subst A. apply Hkv. apply Sorted.StronglySorted_inv in Hs1 as [_ HF].
        rewrite Forall_forall in HF. by apply HF.
      - apply Hkv. apply Hs2; [|by left]. rewrite <- Hl in Ha. by rewrite reverse_Permutation in Ha. }
    assert (Hnil : kv k = high_num hs \/ inb asc hs k = false ->
      filter (fun a => inb asc hs a = true) (k' :: l) = []).
    { clear -Hbeyond. intros Hk. induction Hbeyond as [|a l0 Ha _ IHl]; [done|]. rewrite filter_cons.
      destruct (decide (inb asc hs a = true)) as [Hina|]; [|done].
      exfalso. unfold inb in *. destruct asc; rewrite Z.leb_gt in Hk; apply Z.leb_le in Hina; lia. }
    rewrite filter_cons. destruct (Z.eqb_spec (kv k) (high_num hs)) as [Ek|Ek].
    + rewrite Hnil by auto. assert (Hin : inb asc hs k = true) by (unfold inb; destruct asc; apply Z.leb_le; lia).
      rewrite Hin. rewrite drain_done by (done || lia || congruence). cbn. by rewrite Hb.
    + destruct (inb asc hs k) eqn:Hin.
      * assert (Hmv : to_come asc (move asc B k A k').1 (move asc B k A k').2 = l /\
          (move asc B k A k').1 ++ k' :: (move asc B k A k').2 = B ++ k :: A).
        { destruct asc; cbn [to_come move fst snd] in *.
          - subst A. split; [done|]. cbn. by rewrite <- app_assoc.
          - destruct (decide (B = [])) as [->|Hne]; [done|].
            destruct (exists_last Hne) as (B' & kl & ->). rewrite reverse_snoc in Hl. injection Hl as -> Hl.
            rewrite length_app. cbn [length]. replace (length B' + 1 - 1)%nat with (length B') by lia.
            rewrite take_app_length. split; [done|]. by rewrite <- app_assoc. }
        destruct Hmv as [Hl' Hall].
        rewrite (IH s' k' _ _ fuel Hst Hl') by (rewrite ?Hall; done || lia || congruence).
        cbn [mbind option_bind]. rewrite Hb. done.
      * by rewrite Hnil by auto.
Qed.
End Scan.

(** ** Whole scans *)

Section Whole.
Context {K : Type} `{KeyOrderLaws K} `{KeyOps K} `{KeyStream K} `{!NumKeyLaws K}.
Context (t : nat) (nbits : Z) (Hp : bt_params t nbits) (btr : bt K) (Hb : bt_wf t btr).
Context (Hdl : dirty_left btr = 0) (Hd : (height (root btr) < MAX_BTREE_DEPTH)%nat).
Context (Hg : Forall (fun k : K => is_ghost k = false) (inorder (root btr))).
Context (Hne : inorder (root btr) <> []).

#[local] Abbreviation D := (height (root btr)).
#[local] Abbreviation keysof := (inorder (root btr)).

Lemma root_ok : node_ok t D (root btr).
Proof.
  destruct Hb as ((h & Hwf) & _ & _). pose proof (wf_height t _ _ _ Hwf) as Hh.
  unfold node_ok. rewrite Hh. destruct h as [|h]; [|exact Hwf].
  apply (wf_weaken t 0); [exact Hwf|]. unfold n_keys.
  apply wf_unfold in Hwf as (_ & _ & _ & _ & Hn). rewrite inorder_flat, Hn in Hne.
  destruct (keys (root btr)); [done|]. simpl. lia.
Qed.

(** A new iterator, before the search. *)
Definition fresh (asc : bool) (s : btSIter K) : Prop :=
  frames (it s) = [Ln (root btr) 0 0] /\ num_nodes (it s) = 1%nat /\ finished (it s) = false /\
  (iLeaf (it s), iNode (it s)) = fns asc.

(** The entry has no evicted successors. *)
Definition entry_ok (e : option (K * bt_n K * Z)) : Prop :=
  match e with Some (k, x, i) => drAt x i = Some 0 /\ is_ghost k = false | None => True end.

Lemma setIter_ok asc s bkey alow : fresh asc s ->
  exists s' e B k A, setIter nbits btr bkey s alow asc = Some (s', e) /\
    keysof = B ++ k :: A /\ si_high s' = si_high s /\ entry_ok e /\
    ((e <> None /\ running t D asc s' k B A /\
      (cmp bkey k = 0 \/ cmp bkey k < 0 /\ Forall (fun a => 0 < cmp bkey a) B)) \/
     (0 < cmp bkey k /\ Forall (fun a => cmp bkey a < 0) A /\
      (A = [] /\ e = None \/
       e <> None /\ empty s' = false /\
       (exists i', bt_init_iterator nbits btr bkey (it s) alow = Some (i', II_LEAF_EXIT)) /\
       match to_come asc B A with
       | [] => finished (it s') = true
       | k' :: _ => running t D asc s' k' (move asc B k A k').1 (move asc B k A k').2
       end))).
Proof.
  intros (Hfr & Hnn & Hfin & Hfns). pose proof Hb as (_ & Hs & _).
  destruct (init_ok t nbits Hp D Hd bkey (qkey_of alow) D (root btr) (it s) (Ln (root btr) 0 0) [] [] []
    (S D) (-1) false true) as (i' & ret & k & B & A & Ei & Hat & HB & Hcfg & Ha & Hf & Hland);
    try done; try lia; [apply root_ok|constructor|by rewrite app_nil_r|].
  assert (Einit : bt_init_iterator nbits btr bkey (it s) alow = Some (i', ret)).
  { unfold bt_init_iterator, check_min_miss. by rewrite Hdl. }
  clear Ei. unfold setIter. rewrite Einit.
  cbn [app] in HB. rewrite app_nil_r in HB.
  assert (Hat' := Hat). destruct Hat' as (f & rest & h & ? & ? & ? & ? & ? & ? & Efs & _).
  destruct (at_key_dr t (params_t t nbits Hp) D Hd (frames i') k B A f Hat ltac:(by rewrite Efs)) as [HK Hdr].
  cbn [mbind option_bind]. unfold top. cbn [it set_it]. rewrite Efs. cbn [head mbind option_bind].
  rewrite HK. cbn [mbind option_bind].
  assert (Hgk : is_ghost k = false).
  { rewrite <- HB in Hg. apply Forall_app in Hg as [_ Hg']. by inversion Hg'. }
  assert (Hrun : forall s', it s' = i' -> empty s' = false -> running t D asc s' k B A).
  { intros s' Hi He. unfold running. rewrite Hi. split_and!; try done; [congruence|].
    destruct Hcfg as (-> & -> & _). done. }
  destruct Hland as [[-> Hc]|[Hret Hpos]].
  - eexists _, _, B, k, A. split; [done|]. split_and!; try done. left.
    split_and!; [done|by apply Hrun|by left].
  - assert (Hret' : ret <> II_L_MISS /\ ret <> II_MISS /\ ret <> II_OK /\ ret <> II_FAIL).
    { destruct Hret as [->|[-> _]]; done. }
    destruct Hpos as [[Hc HA]|[Hc HB']].
    + destruct (Z.ltb_spec 0 (cmp bkey k)); [|lia].
      destruct Hret as [->|(-> & -> & _)].
      * destruct (btNext_ok t (params_t t nbits Hp) D Hd asc (bdirty btr) (set_empty (set_it s i') false) k B A)
          as (s' & xx & ii' & -> & Hdr' & _ & [Hh He] & Hst); [by apply Hrun|by rewrite HB|].
        eexists _, _, B, k, A. split; [done|]. split_and!; try done. right. split_and!; try done. right.
        split_and!; try done. by exists i'.
      * eexists _, _, B, k, []. split; [done|]. split_and!; try done. right. split_and!; try done. by left.
    + destruct (Z.ltb_spec 0 (cmp bkey k)); [lia|].
      exists (set_empty (set_it s i') false), (Some (k, self f, ik f)), B, k, A.
      split; [by destruct Hret as [->|[-> _]]|]. split_and!; try done. left.
      split_and!; [done|by apply Hrun|by right].
Qed.

Lemma entry_stream (s : btSIter K) e : entry_ok e -> e <> None ->
  exists s', streamToBTEntry s e = Some (s', true) /\ it s' = it s /\ si_high s' = si_high s /\
    empty s' = empty s.
Proof.
  destruct e as [[[k x] i]|]; [|done]. cbn. intros [Hdr ->] _.
  assert (Hdr' : drAt x (if i <? 0 then 0 else i) = Some 0).
  { destruct (i <? 0) eqn:Ei; [|done]. unfold drAt in Hdr. by rewrite Ei in Hdr. }
  rewrite Hdr'. cbn [mbind option_bind]. eexists. by split_and!.
Qed.

Lemma running_eq asc (s s' : btSIter K) (k : K) (B A : list K) : running t D asc s k B A -> it s' = it s -> empty s' = empty s ->
  running t D asc s' k B A.
Proof. unfold running. intros Hr -> ->. exact Hr. Qed.

Lemma setHigh_ok asc which a : 0 <= which < MAX_NUM_ITERS ->
  exists s, (r ← CR8ITER8R which btr asc; let '(w, s) := r in s ← setHigh s a; Some (w, s)) = Some (which + 1, s) /\
    fresh asc s /\ high_num (si_high s) = key_num a.
Proof.
  intros Hw. unfold CR8ITER8R, createIterator.
  destruct (Z.leb_spec 0 which), (Z.ltb_spec which MAX_NUM_ITERS); try lia. cbn [andb mbind option_bind].
  pose proof kt_num as E. unfold setHigh, high_num, key_num, fresh, fns. unfold C_IS_NUM in E. ctypes.
  destruct (Z.eqb_spec kt 3) as [E3|]; [by rewrite E3 in E|].
  destruct (Z.eqb_spec kt 1) as [E1|].
  { rewrite E1. eexists. split; [done|]. cbn. destruct asc; by split_and!. }
  destruct (Z.eqb_spec kt 2) as [E2|].
  { rewrite E2. eexists. split; [done|]. cbn. destruct asc; by split_and!. }
  destruct (Z.eqb_spec kt 5) as [E5|]; [|done].
  eexists. split; [done|]. cbn. destruct asc; by split_and!.
Qed.

Lemma numkeys_pos : Z.of_nat (length keysof) < 2 ^ 32 -> (numkeys btr =? 0) = false.
Proof.
  intros Hlt. destruct Hb as (_ & _ & ->). rewrite uwrap_small by lia.
  destruct keysof; [done|]. simpl. lia.
Qed.

(** The iterator of a range, by where its first bound falls. *)
Lemma range_iter_ok (asc : bool) which alow ahigh (bkey : K) :
  0 <= which < MAX_NUM_ITERS -> Z.of_nat (length keysof) < 2 ^ 32 ->
  mk (if asc then alow else ahigh) = Some bkey ->
  exists (r : option (btSIter K)) (B : list K) (k : K) (A : list K),
    btGetRangeIter nbits which btr alow ahigh asc = Some (which + 1, r) /\
    keysof = B ++ k :: A /\
    match r with
    | None => A = [] /\ 0 < cmp bkey k
    | Some s =>
        high_num (si_high s) = key_num (if asc then ahigh else alow) /\
        ((running t D asc s k B A /\
          (cmp bkey k = 0 \/ cmp bkey k < 0 /\ Forall (fun a => 0 < cmp bkey a) B)) \/
         (0 < cmp bkey k /\ Forall (fun a => cmp bkey a < 0) A /\ empty s = false /\
          match to_come asc B A with
          | [] => finished (it s) = true
          | k' :: _ => running t D asc s k' (move asc B k A k').1 (move asc B k A k').2
          end))
    end.
Proof.
  intros Hw Hlt Hmk. unfold btGetRangeIter. rewrite numkeys_pos by done.
  destruct (setHigh_ok asc which (if asc then ahigh else alow) Hw) as (s & E & Hfresh & Hhigh).
  destruct (CR8ITER8R which btr asc) as [[w s0]|]; [|done]. cbn [mbind option_bind] in E |- *.
  destruct (setHigh s0 _) as [s1|]; [|done]. cbn [mbind option_bind] in E |- *. injection E as -> ->.
  rewrite Hmk.
  destruct (setIter_ok asc s bkey (if asc then alow else ahigh) Hfresh)
    as (s' & e & B & k & A & -> & HB & Hh & Hent & Hcase). cbn [mbind option_bind].
  destruct (decide (e = None)) as [->|Hsome].
  - cbn [streamToBTEntry mbind option_bind]. exists None, B, k, A. split_and!; try done;
      by destruct Hcase as [[? _]|(? & _ & [[? _]|[? _]])].
  - destruct (entry_stream s' e Hent Hsome) as (s2 & -> & Ei & Es & Ee). cbn [mbind option_bind].
    exists (Some s2), B, k, A. split_and!; try done; [by rewrite Es, Hh|].
    destruct Hcase as [(_ & Hrun & Hc)|(Hc & HA & [[_ ?]|(_ & He & _ & Hm)])]; [|done|].
    + left. split; [by apply (running_eq asc s')|done].
    + right. rewrite Ee, Ei. split_and!; try done.
      destruct (to_come asc B A); [done|]. by apply (running_eq asc s').
Qed.
End Whole.

(** The keys of a range, and those a scan reports. *)
Definition in_range {K} `{KeyStream K} (lo hi : Z) (k : K) : bool := (lo <=? kv k) && (kv k <=? hi).
Definition range_keys {K} `{KeyStream K} (lo hi : Z) (l : list K) : list K :=
  filter (fun k => in_range lo hi k = true) l.

Definition range_scan {K} `{KeyOrder K} `{KeyOps K} `{KeyStream K} (nbits which : Z) (btr : bt K)
    (alow ahigh : aobj) (asc : bool) : option (list K) :=
  '(_, r) ← btGetRangeIter nbits which btr alow ahigh asc;
  match r with
  | None => Some []
  | Some s => drain (S (S (length (inorder (root btr))))) (bdirty btr) s asc
  end.

(** A tree without evicted rows that an iterator can walk. *)
Record scannable {K} `{KeyOrder K} `{KeyStream K} (t : nat) (btr : bt K) : Prop := {
  sc_wf : bt_wf t btr;
  sc_dirty : dirty_left btr = 0;
  sc_depth : (height (root btr) < MAX_BTREE_DEPTH)%nat;
  sc_live : Forall (fun k : K => is_ghost k = false) (inorder (root btr));
  sc_count : Z.of_nat (length (inorder (root btr))) < 2 ^ 32;
}.

Section RangeFacts.
Context {K : Type} `{KeyOrderLaws K} `{KeyOps K} `{KeyStream K} `{!NumKeyLaws K}.
Context (t : nat) (nbits : Z) (Hp : bt_params t nbits) (btr : bt K) (Hsc : scannable t btr).
#[local] Abbreviation keysof := (inorder (root btr)).

Lemma range_keys_app lo hi (l1 l2 : list K) :
  range_keys lo hi (l1 ++ l2) = range_keys lo hi l1 ++ range_keys lo hi l2.
Proof. apply filter_app. Qed.

Lemma range_keys_nil lo hi (l : list K) :
  Forall (fun a => kv a < lo \/ hi < kv a) l -> range_keys lo hi l = [].
Proof.
  induction 1 as [|a l Ha _ IH]; [done|]. unfold range_keys in *. rewrite filter_cons, IH.
  unfold in_range. zcases; (done || lia).
Qed.

Lemma range_keys_reverse lo hi (l : list K) :
  range_keys lo hi (reverse l) = reverse (range_keys lo hi l).
Proof.
  induction l as [|a l IH]; [done|]. rewrite reverse_cons, range_keys_app, IH.
  unfold range_keys. rewrite !filter_cons, filter_nil. case_decide; [by rewrite reverse_cons|].
  by rewrite app_nil_r.
Qed.

(** A scan that starts inside the range reports what is within its last bound. *)
Lemma inb_range (asc : bool) hs lo hi (l : list K) :
  high_num hs = (if asc then hi else lo) ->
  Forall (fun a => if asc then lo <= kv a else kv a <= hi) l ->
  filter (fun a => inb asc hs a = true) l = range_keys lo hi l.
Proof.
  intros Hh. induction 1 as [|a l Ha _ IH]; [done|]. unfold range_keys in *. rewrite !filter_cons, IH.
  unfold inb, in_range. rewrite Hh. destruct asc; zcases; (done || lia).
Qed.

Lemma cmp_lt_kv (a b : K) : cmp a b < 0 <-> kv a < kv b.
Proof. pose proof (cmp_kv a b). lia. Qed.
Lemma cmp_gt_kv (a b : K) : 0 < cmp a b <-> kv b < kv a.
Proof. pose proof (cmp_kv a b). lia. Qed.
Lemma cmp_eq_kv (a b : K) : cmp a b = 0 <-> kv a = kv b.
Proof. pose proof (cmp_kv a b). lia. Qed.

(** The keys around a position, by number. *)
Lemma around (B A : list K) k : ksorted (B ++ k :: A) ->
  Forall (fun a => kv a < kv k) B /\ Forall (fun a => kv k < kv a) A.
Proof.
  intros Hs. apply ksorted_app in Hs as (_ & Hs1 & Hs2). split.
  - apply Forall_forall. intros a Ha. apply cmp_lt_kv. apply Hs2; [done|by left].
  - apply Sorted.StronglySorted_inv in Hs1 as [_ HF]. eapply Forall_impl; [exact HF|].
    intros a. apply cmp_lt_kv.
Qed.

Lemma drain_running (asc : bool) s (k : K) B A lo hi : running t (height (root btr)) asc s k B A ->
  keysof = B ++ k :: A -> high_num (si_high s) = (if asc then hi else lo) ->
  Forall (fun a => if asc then lo <= kv a else kv a <= hi) (k :: to_come asc B A) ->
  drain (S (S (length keysof))) (bdirty btr) s asc = Some (range_keys lo hi (k :: to_come asc B A)).
Proof.
  intros Hrun E Hh HF. destruct Hsc as [Hb Hdl Hd Hg Hc].
  rewrite (drain_ok t (params_t t nbits Hp) (height (root btr)) Hd asc (bdirty btr) (si_high s) (to_come asc B A)
    s k B A); rewrite <- ?E; try done.
  - f_equal. by apply inb_range.
  - apply Hb.
  - rewrite E, length_app. simpl. destruct asc; cbn [to_come]; rewrite ?length_reverse; lia.
Qed.
End RangeFacts.

(** An ascending scan reports the keys of its range. *)
Lemma range_asc_ok {K} `{KeyOrderLaws K} `{KeyOps K} `{KeyStream K} `{!NumKeyLaws K}
    (t : nat) (nbits which : Z) (btr : bt K) (alow ahigh : aobj) (bkey : K) :
  bt_params t nbits -> scannable t btr -> 0 <= which < MAX_NUM_ITERS -> ao_ok alow -> mk alow = Some bkey ->
  range_scan nbits which btr alow ahigh true =
  Some (range_keys (key_num alow) (key_num ahigh) (inorder (root btr))).
Proof.
  intros Hp Hsc Hw Hok Hmk. pose proof Hsc as [Hb Hdl Hd Hg Hlt]. pose proof (mk_kv _ _ Hok Hmk) as Hkv.
  unfold range_scan. destruct (decide (inorder (root btr) = [])) as [E|Hne].
  { destruct Hb as (_ & _ & Hn). unfold btGetRangeIter. rewrite Hn, E. done. }
  destruct (range_iter_ok t nbits Hp btr Hb Hdl Hd Hg Hne true which alow ahigh bkey Hw Hlt Hmk)
    as (r & B & k & A & -> & HB & Hr). cbn [mbind option_bind].
  assert (Hs : ksorted (B ++ k :: A)) by (rewrite <- HB; apply Hb).
  destruct (around B A k Hs) as [FB FA].
  assert (HR : forall lo hi, range_keys lo hi (inorder (root btr)) =
    range_keys lo hi B ++ range_keys lo hi (k :: A)) by (intros; rewrite HB; apply range_keys_app).
  rewrite HR.
  destruct r as [s|].
  - destruct Hr as (Hh & [(Hrun & Hc)|(Hc & HA & He & Hm)]).
    + rewrite (drain_running t nbits Hp btr Hsc true s k B A (key_num alow) (key_num ahigh)); try done.
      * cbn [to_come]. rewrite (range_keys_nil _ _ B); [done|].
        destruct Hc as [Hc%cmp_eq_kv|[_ Hc]]; [eapply Forall_impl; [exact FB|]; cbn; intros a ?; lia|].
        eapply Forall_impl; [exact Hc|]. cbn. intros a Ha%cmp_gt_kv. lia.
      * rewrite <- Hkv. assert (kv bkey <= kv k) by (destruct Hc as [Hc%cmp_eq_kv|[Hc%cmp_lt_kv _]]; lia).
        constructor; [done|]. eapply Forall_impl; [exact FA|]. cbn. intros a ?. lia.
    + apply cmp_gt_kv in Hc. rewrite (range_keys_nil _ _ B) by (eapply Forall_impl; [exact FB|]; cbn; intros a ?; lia).
      change (k :: A) with ([k] ++ A). rewrite range_keys_app, (range_keys_nil _ _ [k]) by (constructor; [lia|constructor]).
      cbn [app to_come move fst snd] in *. destruct A as [|k' A].
      * apply drain_done; [done|done|lia].
      * rewrite (drain_running t nbits Hp btr Hsc true s k' (B ++ [k]) A (key_num alow) (key_num ahigh)); try done.
        -- by rewrite <- app_assoc.
        -- rewrite <- Hkv. eapply Forall_impl; [exact HA|]. cbn. intros a Ha%cmp_lt_kv. lia.
  - destruct Hr as [-> Hc%cmp_gt_kv]. rewrite !range_keys_nil; [done|constructor; [lia|constructor]|].
    eapply Forall_impl; [exact FB|]. cbn. intros a ?. lia.
Qed.

(** ** Properties *)

(** C13: an ascending range scan of a tree without evicted rows, of either node
    size, terminates and reports exactly the keys between the two bounds, in
    order, whether or not the bounds are keys of the tree. *)
Theorem range_asc_correct {K} `{KeyOrderLaws K} `{KeyOps K} `{KeyStream K} `{!NumKeyLaws K}
    (t : nat) (nbits which : Z) (btr : bt K) (alow ahigh : aobj) (bkey : K) :
  bt_params t nbits -> scannable t btr -> 0 <= which < MAX_NUM_ITERS -> ao_ok alow -> mk alow = Some bkey ->
  range_scan nbits which btr alow ahigh true =
  Some (range_keys (key_num alow) (key_num ahigh) (inorder (root btr))).
Proof. apply range_asc_ok. Qed.

(** C15: a descending range scan whose upper bound is a key of the tree reports
    exactly the keys between the two bounds, in descending order. *)
Theorem range_desc_correct {K} `{KeyOrderLaws K} `{KeyOps K} `{KeyStream K} `{!NumKeyLaws K}
    (t : nat) (nbits which : Z) (btr : bt K) (alow ahigh : aobj) (bkey khigh : K) :
  bt_params t nbits -> scannable t btr -> 0 <= which < MAX_NUM_ITERS -> ao_ok ahigh -> mk ahigh = Some bkey ->
  khigh ∈ inorder (root btr) -> kv khigh = key_num ahigh ->
  range_scan nbits which btr alow ahigh false =
  Some (reverse (range_keys (key_num alow) (key_num ahigh) (inorder (root btr)))).
Proof.
  intros Hp Hsc Hw Hok Hmk Hin Hkh. pose proof Hsc as [Hb Hdl Hd Hg Hlt]. pose proof (mk_kv _ _ Hok Hmk) as Hkv.
  unfold range_scan. destruct (decide (inorder (root btr) = [])) as [E|Hne].
  { rewrite E in Hin. by apply elem_of_nil in Hin. }
  destruct (range_iter_ok t nbits Hp btr Hb Hdl Hd Hg Hne false which alow ahigh bkey Hw Hlt Hmk)
    as (r & B & k & A & -> & HB & Hr). cbn [mbind option_bind].
  assert (Hs : ksorted (B ++ k :: A)) by (rewrite <- HB; apply Hb).
  destruct (around B A k Hs) as [FB FA].
  assert (Heq : kv k = kv bkey /\ exists s, r = Some s /\ high_num (si_high s) = key_num alow /\
    running t (height (root btr)) false s k B A).
  { rewrite HB, elem_of_app, elem_of_cons in Hin. rewrite !Forall_forall in *.
    destruct r as [s|].
    - destruct Hr as (Hh & [(Hrun & [Hc%cmp_eq_kv|[Hc%cmp_lt_kv HB']])|(Hc%cmp_gt_kv & HA & _)]).
      + split; [done|]. by exists s.
      + exfalso. destruct Hin as [Hin|[->|Hin]].
        * specialize (proj1 (Forall_forall _ _) HB' _ Hin) as Hx. apply cmp_gt_kv in Hx. lia.
        * lia.
        * specialize (FA _ Hin). lia.
      + exfalso. destruct Hin as [Hin|[->|Hin]].
        * specialize (FB _ Hin). lia.
        * lia.
        * specialize (proj1 (Forall_forall _ _) HA _ Hin) as Hx. apply cmp_lt_kv in Hx. lia.
    - exfalso. destruct Hr as [-> Hc%cmp_gt_kv]. destruct Hin as [Hin|[->|Hin]]; [|lia|by apply elem_of_nil in Hin].
      specialize (FB _ Hin). lia. }
  destruct Heq as (Hk & s & -> & Hh & Hrun).
  rewrite (drain_running t nbits Hp btr Hsc false s k B A (key_num alow) (key_num ahigh)); try done.
  - rewrite HB. change (k :: A) with ([k] ++ A). rewrite app_assoc, range_keys_app.
    rewrite (range_keys_nil _ _ A) by (eapply Forall_impl; [exact FA|]; cbn; intros a ?; lia).
    by rewrite app_nil_r, <- range_keys_reverse, reverse_snoc.
  - cbn [to_come]. constructor; [lia|]. rewrite reverse_Permutation.
    eapply Forall_impl; [exact FB|]. cbn. intros a ?. lia.
Qed.

Lemma elem_range_keys {K} `{KeyStream K} lo hi (l : list K) a : a ∈ range_keys lo hi l <-> lo <= kv a <= hi /\ a ∈ l.
Proof.
  unfold range_keys. rewrite list_elem_of_filter. unfold in_range. rewrite andb_true_iff, !Z.leb_le. tauto.
Qed.

(** Descending scans that start at a key: it is reported ... *)
Lemma desc_reports {K} `{KeyOrderLaws K} `{KeyOps K} `{KeyStream K} `{!NumKeyLaws K} (t : nat) (nbits : Z) (btr : bt K) s k B A :
  bt_params t nbits -> scannable t btr -> inorder (root btr) = B ++ k :: A ->
  running t (height (root btr)) false s k B A -> high_num (si_high s) <= kv k ->
  exists l, drain (S (S (length (inorder (root btr))))) (bdirty btr) s false = Some l /\ k ∈ l.
Proof.
  intros Hp [Hb Hdl Hd Hg Hlt] HB Hrun Hk. eexists. split.
  - apply (drain_ok t (params_t t nbits Hp) (height (root btr)) Hd false (bdirty btr) (si_high s) (to_come false B A) s k B A);
      [done|done| |by rewrite <- HB|done|].
    + rewrite <- HB. apply Hb.
    + rewrite HB, length_app. cbn. rewrite length_reverse. lia.
  - rewrite list_elem_of_filter. split; [|by left]. unfold inb. apply Z.leb_le. lia.
Qed.

(** ... or left out, when the scan moves on before it reports. *)
Lemma desc_leaves_out {K} `{KeyOrderLaws K} `{KeyOps K} `{KeyStream K} `{!NumKeyLaws K} (t : nat) (nbits : Z) (btr : bt K) s k B A :
  bt_params t nbits -> scannable t btr -> inorder (root btr) = B ++ k :: A -> empty s = false ->
  match to_come false B A with
  | [] => finished (it s) = true
  | k' :: _ => running t (height (root btr)) false s k' (move false B k A k').1 (move false B k A k').2
  end ->
  exists l, drain (S (S (length (inorder (root btr))))) (bdirty btr) s false = Some l /\ forall a, a ∈ l -> a ∈ B.
Proof.
  intros Hp [Hb Hdl Hd Hg Hlt] HB He Hm. assert (Hs : ksorted (B ++ k :: A)) by (rewrite <- HB; apply Hb).
  cbn [to_come move fst snd] in Hm. destruct (decide (B = [])) as [->|HneB].
  { exists []. split; [by apply drain_done; [| |lia]|]. intros a Ha. by apply elem_of_nil in Ha. }
  destruct (exists_last HneB) as (B' & k' & ->). rewrite reverse_snoc in Hm.
  rewrite length_app in Hm. cbn [length] in Hm.
  replace (length B' + 1 - 1)%nat with (length B') in Hm by lia. rewrite take_app_length in Hm.
  eexists. split.
  - apply (drain_ok t (params_t t nbits Hp) (height (root btr)) Hd false (bdirty btr) (si_high s)
      (reverse B') s k' B' (k :: A)); try done.
    + by rewrite <- app_assoc in Hs.
    + rewrite HB in Hg. by rewrite <- app_assoc in Hg.
    + rewrite HB, !length_app, length_reverse. simpl. lia.
  - intros a Ha. apply list_elem_of_filter in Ha as [_ Ha]. rewrite elem_of_cons, reverse_Permutation in Ha. in_list.
Qed.

(** C35: when its upper bound is not a key of the tree, a descending scan is wrong
    whenever there is something to report: it starts one key too low, or one key
    too high, or, beyond the last key, reports nothing. *)
Theorem range_desc_absent_high {K} `{KeyOrderLaws K} `{KeyOps K} `{KeyStream K} `{!NumKeyLaws K}
    (t : nat) (nbits which : Z) (btr : bt K) (alow ahigh : aobj) (bkey : K) :
  bt_params t nbits -> scannable t btr -> 0 <= which < MAX_NUM_ITERS -> ao_ok ahigh -> mk ahigh = Some bkey ->
  Forall (fun k => kv k <> key_num ahigh) (inorder (root btr)) ->
  range_keys (key_num alow) (key_num ahigh) (inorder (root btr)) <> [] ->
  exists l, range_scan nbits which btr alow ahigh false = Some l /\
    l <> reverse (range_keys (key_num alow) (key_num ahigh) (inorder (root btr))).
Proof.
  intros Hp Hsc Hw Hok Hmk Habs Hsome. pose proof Hsc as [Hb Hdl Hd Hg Hlt]. pose proof (mk_kv _ _ Hok Hmk) as Hkv.
  unfold range_scan. destruct (decide (inorder (root btr) = [])) as [E|Hne].
  { by rewrite E in Hsome. }
  destruct (range_iter_ok t nbits Hp btr Hb Hdl Hd Hg Hne false which alow ahigh bkey Hw Hlt Hmk)
    as (r & B & k & A & -> & HB & Hr). cbn [mbind option_bind].
  assert (Hs : ksorted (B ++ k :: A)) by (rewrite <- HB; apply Hb).
  destruct (around B A k Hs) as [FB FA].
  assert (exists a0, a0 ∈ range_keys (key_num alow) (key_num ahigh) (inorder (root btr))) as [a0 [Ha0 Hina0]%elem_range_keys].
  { destruct (range_keys _ _ _) as [|a0 L']; [done|]. exists a0. by left. }
  rewrite HB, elem_of_app, elem_of_cons in Hina0.
  assert (Hdrop : forall l, (forall a, a ∈ l -> a ∈ B) -> kv k < key_num ahigh -> Forall (fun a => cmp bkey a < 0) A ->
    l <> reverse (range_keys (key_num alow) (key_num ahigh) (inorder (root btr)))).
  { intros l Hl Hk HA El. rewrite !Forall_forall in *. assert (HkL : k ∈ l).
    - rewrite El, reverse_Permutation, elem_range_keys. split; [|rewrite HB; in_list]. split; [|lia].
      destruct Hina0 as [Hx|[->|Hx]]; [specialize (FB _ Hx); lia|lia|].
      specialize (HA _ Hx). apply cmp_lt_kv in HA. lia.
    - specialize (FB _ (Hl _ HkL)). lia. }
  destruct r as [s|].
  - destruct Hr as (Hh & [(Hrun & [Hc%cmp_eq_kv|[Hc%cmp_lt_kv HB']])|(Hc%cmp_gt_kv & HA & He & Hm)]).
    + exfalso. rewrite HB in Habs. apply Forall_app in Habs as [_ Habs]. apply Forall_cons in Habs as [Habs _]. lia.
    + destruct (desc_reports t nbits btr s k B A Hp Hsc HB Hrun) as (l & El & Hkl); [rewrite Hh; lia|].
      exists l. split; [done|]. intros ->. rewrite reverse_Permutation, elem_range_keys in Hkl. lia.
    + destruct (desc_leaves_out t nbits btr s k B A Hp Hsc HB He Hm) as (l & El & Hl).
      exists l. split; [done|]. apply Hdrop; [done|lia|done].
  - destruct Hr as [-> Hc%cmp_gt_kv]. exists []. split; [done|].
    apply Hdrop; [intros a Ha; by apply elem_of_nil in Ha|lia|constructor].
Qed.

(** a range query that starts beyond the last key gets no iterator, but the
    slot taken for it is not given back: after enough of them [createIterator]
    fails its assertion. *)
Theorem iterator_slot_leak {K} `{KeyOrderLaws K} `{KeyOps K} `{KeyStream K} `{!NumKeyLaws K}
    (t : nat) (nbits : Z) (btr : bt K) (alow ahigh : aobj) (bkey : K) :
  bt_params t nbits -> scannable t btr -> inorder (root btr) <> [] -> ao_ok alow -> mk alow = Some bkey ->
  Forall (fun k => kv k < key_num alow) (inorder (root btr)) ->
  (forall which, 0 <= which < MAX_NUM_ITERS ->
    btGetRangeIter nbits which btr alow ahigh true = Some (which + 1, None) /\
    btReleaseRangeIterator (which + 1) (None : option (btSIter K)) = which + 1) /\
  btGetRangeIter nbits MAX_NUM_ITERS btr alow ahigh true = None.
Proof.
  intros Hp Hsc Hne Hok Hmk Hlast. pose proof Hsc as [Hb Hdl Hd Hg Hlt]. pose proof (mk_kv _ _ Hok Hmk) as Hkv. split.
  - intros which Hw. split; [|done]. unfold btGetRangeIter.
    rewrite (numkeys_pos t btr Hb Hd Hg Hne Hlt).
    destruct (setHigh_ok btr Hd true which ahigh Hw) as (s & E & Hfresh & _).
    destruct (CR8ITER8R which btr true) as [[w s0]|]; [|done]. cbn [mbind option_bind] in E |- *.
    destruct (setHigh s0 _) as [s1|]; [|done]. cbn [mbind option_bind] in E |- *. injection E as -> ->.
    rewrite Hmk.
    destruct (setIter_ok t nbits Hp btr Hb Hdl Hd Hg Hne true s bkey alow Hfresh)
      as (s' & e & B & k & A & Eset & HB & _ & _ & Hcase).
    assert (He : e = None); [|rewrite Eset, He; done].
    assert (Hoff : Forall (fun a => 0 < cmp bkey a) (inorder (root btr))).
    { eapply Forall_impl; [exact Hlast|]. cbn. intros a Ha. apply cmp_gt_kv. lia. }
    assert (Hkoff : 0 < cmp bkey k).
    { rewrite HB in Hoff. apply Forall_app in Hoff as [_ Hoff]. by inversion Hoff. }
    destruct Hcase as [(_ & _ & [?|[? _]])|(_ & _ & [[_ ?]|(_ & _ & (i' & Ei) & _)])]; [lia|lia|done|].
    exfalso. unfold bt_init_iterator, check_min_miss in Ei. rewrite Hdl in Ei. cbn [Z.eqb mbind option_bind] in Ei.
    eapply (init_off_end t nbits Hp (height (root btr)) Hd bkey (qkey_of alow)) in Ei;
      [done|apply (root_ok t btr Hb Hd Hne)|apply Hb|exact Hoff].
  - unfold btGetRangeIter. by rewrite (numkeys_pos t btr Hb Hd Hg Hne Hlt).
Qed.

Definition full_scan {K} `{KeyOrder K} `{KeyOps K} `{KeyStream K} (nbits which : Z) (btr : bt K)
    (asc : bool) : option (list K) :=
  '(_, r) ← btGetFullRangeIter nbits which btr asc;
  match r with
  | None => Some []
  | Some s => drain (S (S (length (inorder (root btr))))) (bdirty btr) s asc
  end.

Section FullFacts.
Context {K : Type} `{KeyOrderLaws K} `{KeyOps K} `{KeyStream K} `{!NumKeyLaws K}.

(** A key has one position in a sorted list. *)
Lemma split_unique (B A : list K) k B0 A0 b0 : ksorted (B ++ k :: A) ->
  B ++ k :: A = B0 ++ b0 :: A0 -> kv k = kv b0 -> B = B0 /\ A = A0.
Proof.
  revert B0. induction B as [|b B IH]; intros B0 Hs E Hk; destruct B0 as [|c B0]; injection E as -> E.
  - done.
  - exfalso. destruct (around [] A c Hs) as [_ FA]. rewrite E in FA.
    apply Forall_app in FA as [_ FA]. inversion FA; subst. lia.
  - exfalso. destruct (around (b0 :: B) A k Hs) as [FB _]. inversion FB; subst. lia.
  - destruct (IH B0) as [-> ->]; [|done|done|done]. by apply Sorted.StronglySorted_inv in Hs as [? _].
Qed.

Lemma range_keys_all lo hi (l : list K) : Forall (fun a => lo <= kv a <= hi) l -> range_keys lo hi l = l.
Proof.
  induction 1 as [|a l Ha _ IH]; [done|]. unfold range_keys in *. rewrite filter_cons, IH.
  unfold in_range. zcases; (done || lia).
Qed.

(** The first and the last key bound the others. *)
Lemma ends_bound (l : list K) lo hi : ksorted l -> head l = Some lo -> last l = Some hi ->
  Forall (fun a => kv lo <= kv a <= kv hi) l.
Proof.
  intros Hs Hlo Hhi. assert (Hl : Forall (fun a => kv lo <= kv a) l).
  { destruct l as [|a l]; [done|]. injection Hlo as ->. destruct (around [] l lo Hs) as [_ FA].
    constructor; [lia|]. eapply Forall_impl; [exact FA|]. cbn. intros a ?. lia. }
  assert (Hh : Forall (fun a => kv a <= kv hi) l).
  { apply last_Some in Hhi as [l' ->]. destruct (around l' [] hi Hs) as [FB _].
    apply Forall_app. split; [|constructor; [lia|constructor]].
    eapply Forall_impl; [exact FB|]. cbn. intros a ?. lia. }
  rewrite !Forall_forall in *. intros a Ha. split; auto.
Qed.

(** A search for a key of the tree starts the scan at that key. *)
Lemma setIter_at (t : nat) (nbits : Z) (Hp : bt_params t nbits) (btr : bt K) (Hsc : scannable t btr)
    asc s bkey a b0 B0 A0 :
  fresh btr asc s -> inorder (root btr) = B0 ++ b0 :: A0 -> kv bkey = kv b0 ->
  exists s' e, setIter nbits btr bkey s a asc = Some (s', Some e) /\ si_high s' = si_high s /\
    entry_ok (Some e) /\ running t (height (root btr)) asc s' b0 B0 A0.
Proof.
  intros Hfresh E0 Hkv. pose proof Hsc as [Hb Hdl Hd Hg Hlt].
  assert (Hne : inorder (root btr) <> []) by (rewrite E0; by destruct B0).
  destruct (setIter_ok t nbits Hp btr Hb Hdl Hd Hg Hne asc s bkey a Hfresh)
    as (s' & e & B & k & A & -> & HB & Hh & Hent & Hcase).
  assert (Hin : b0 ∈ B ++ k :: A) by (rewrite <- HB, E0; in_list).
  rewrite elem_of_app, elem_of_cons in Hin.
  assert (Hs : ksorted (B ++ k :: A)) by (rewrite <- HB; apply Hb).
  destruct (around B A k Hs) as [FB1 FA1].
  assert (Hat : kv k = kv b0 /\ running t (height (root btr)) asc s' k B A /\ e <> None).
  { rewrite Forall_forall in FB1, FA1.
    destruct Hcase as [(? & Hrun & [Hc%cmp_eq_kv|[Hc%cmp_lt_kv HF]])|(Hc%cmp_gt_kv & HF & _)];
      [split_and!; [lia|done|done]| |]; exfalso; rewrite Forall_forall in HF;
      destruct Hin as [Hx|[Hx|Hx]]; try (subst k; lia).
    - specialize (HF _ Hx). apply cmp_gt_kv in HF. lia.
    - specialize (FA1 _ Hx). lia.
    - specialize (FB1 _ Hx). lia.
    - specialize (HF _ Hx). apply cmp_lt_kv in HF. lia. }
  destruct Hat as (Hk & Hrun & Hsome). destruct e as [e|]; [|done].
  assert (E1 := HB). rewrite E0 in E1. symmetry in E1.
  destruct (split_unique B A k B0 A0 b0 Hs E1 Hk) as [-> ->].
  apply app_inv_head in E1. injection E1 as ->. by exists s', e.
Qed.
End FullFacts.

Lemma setHigh_scan {K} `{KeyOrder K} `{KeyStream K} (s : btSIter K) e h :
  setHigh (set_scan s e) h = option_map (fun s => set_scan s e) (setHigh s h).
Proof.
  unfold setHigh. cbn zeta. destruct (C_IS_S kt); [by destruct (ao_str h)|].
  destruct (C_IS_I kt); [reflexivity|]. destruct (C_IS_L kt); [reflexivity|].
  destruct (C_IS_X kt); [reflexivity|]. destruct (C_IS_F kt); reflexivity.
Qed.

(** The iterator of a whole tree starts at its first or its last key. *)
Lemma full_start {K} `{KeyOrderLaws K} `{KeyOps K} `{KeyStream K} `{!NumKeyLaws K}
    (t : nat) (nbits which : Z) (btr : bt K) (asc : bool) :
  bt_params t nbits -> scannable t btr -> 0 <= which < MAX_NUM_ITERS -> inorder (root btr) <> [] ->
  Forall (fun k => mk (conv k) <> None) (inorder (root btr)) ->
  exists w (s : btSIter K) (lo hi : K) (B A : list K), btGetFullRangeIter nbits which btr asc = Some (w, Some s) /\
    head (inorder (root btr)) = Some lo /\ last (inorder (root btr)) = Some hi /\
    inorder (root btr) = B ++ (if asc then lo else hi) :: A /\ to_come asc A B = [] /\
    running t (height (root btr)) asc s (if asc then lo else hi) B A /\
    high_num (si_high s) = kv (if asc then hi else lo).
Proof.
  intros Hp Hsc Hw Hne Hmk. pose proof Hsc as [Hb Hdl Hd Hg Hlt]. unfold btGetFullRangeIter.
  rewrite (numkeys_pos t btr Hb Hd Hg Hne Hlt). unfold assignMinKey, assignMaxKey.
  destruct (min_max_ok t nbits btr Hp Hb Hlt) as [-> ->]. cbn [mbind option_bind].
  assert (Hends : exists lo hi, head (inorder (root btr)) = Some lo /\ last (inorder (root btr)) = Some hi).
  { destruct (inorder (root btr)) as [|a l]; [done|]. exists a. cbn [head].
    destruct (last (a :: l)) as [hi|] eqn:El; [by exists hi|]. by apply last_None in El. }
  destruct Hends as (lo & hi & Elo & Ehi). rewrite Elo, Ehi. cbn [option_map mbind option_bind].
  destruct (setHigh_ok btr Hd asc which (conv (if asc then hi else lo)) Hw) as (s & E & Hfresh & Hhigh).
  destruct (CR8ITER8R which btr asc) as [[w s0]|]; [|done]. cbn [mbind option_bind] in E |- *.
  rewrite setHigh_scan.
  replace (if asc then conv hi else conv lo) with (conv (if asc then hi else lo)) by (by destruct asc).
  replace (if asc then conv lo else conv hi) with (conv (if asc then lo else hi)) by (by destruct asc).
  destruct (setHigh s0 _) as [s1|]; [|done]. cbn [option_map mbind option_bind] in E |- *. injection E as -> ->.
  set (b0 := if asc then lo else hi) in *.
  assert (Hb0 : exists B A, inorder (root btr) = B ++ b0 :: A /\ to_come asc A B = []).
  { unfold b0. destruct asc; cbn [to_come].
    - destruct (inorder (root btr)) as [|a l]; [done|]. injection Elo as ->. by exists [], l.
    - apply last_Some in Ehi as [l ->]. by exists l, []. }
  destruct Hb0 as (B0 & A0 & E0 & Hend). destruct (mk (conv b0)) as [bkey|] eqn:Emk.
  2: { rewrite Forall_forall in Hmk. by destruct (Hmk b0); [rewrite E0; in_list|]. }
  pose proof (mk_kv _ _ (conv_ok b0) Emk) as Hkv. change (key_num (conv b0)) with (kv b0) in Hkv.
  destruct (setIter_at t nbits Hp btr Hsc asc (set_scan s true) bkey (conv b0) b0 B0 A0 Hfresh E0 Hkv)
    as (s' & e & -> & Hh & Hent & Hrun). cbn [mbind option_bind].
  destruct (entry_stream s' (Some e) Hent ltac:(done)) as (s2 & Est & Ei & Eh & Ee).
  rewrite Est. cbn [mbind option_bind]. rewrite Hdl. cbn [Z.eqb].
  eexists _, s2, lo, hi, B0, A0. split_and!; try done; [by apply (running_eq t btr asc s')|].
  rewrite Eh, Hh. cbn. rewrite Hhigh. done.
Qed.

Lemma full_scan_ok {K} `{KeyOrderLaws K} `{KeyOps K} `{KeyStream K} `{!NumKeyLaws K}
    (t : nat) (nbits which : Z) (btr : bt K) (asc : bool) :
  bt_params t nbits -> scannable t btr -> 0 <= which < MAX_NUM_ITERS ->
  Forall (fun k => mk (conv k) <> None) (inorder (root btr)) ->
  full_scan nbits which btr asc =
  Some (if asc then inorder (root btr) else reverse (inorder (root btr))).
Proof.
  intros Hp Hsc Hw Hmk. pose proof Hsc as [Hb Hdl Hd Hg Hlt].
  unfold full_scan. destruct (decide (inorder (root btr) = [])) as [E|Hne].
  { pose proof Hb as (_ & _ & Hn). unfold btGetFullRangeIter. rewrite Hn, E. by destruct asc. }
  destruct (full_start t nbits which btr asc Hp Hsc Hw Hne Hmk)
    as (w & s & lo & hi & B0 & A0 & -> & Elo & Ehi & E0 & Hend & Hrun & Hh). cbn [mbind option_bind].
  set (b0 := if asc then lo else hi) in *.
  assert (Hs0 : ksorted (B0 ++ b0 :: A0)) by (rewrite <- E0; apply Hb).
  destruct (around B0 A0 b0 Hs0) as [FB FA].
  assert (Hall : Forall (fun a => kv lo <= kv a <= kv hi) (B0 ++ b0 :: A0))
    by (rewrite <- E0; apply ends_bound; [apply Hb|done|done]).
  apply Forall_app in Hall as [H1' [H2' H3']%Forall_cons].
  rewrite (drain_running t nbits Hp btr Hsc asc s b0 B0 A0 (kv lo) (kv hi)); [|done|done|by rewrite Hh; destruct asc|].
  - f_equal. rewrite range_keys_all.
    + rewrite E0. clear - Hend. destruct asc; cbn [to_come] in *; [by rewrite Hend|].
      apply (f_equal reverse) in Hend. rewrite reverse_involutive in Hend.
      rewrite Hend. change (reverse []) with (@nil K). by rewrite reverse_snoc.
    + constructor; [done|]. destruct asc; cbn [to_come]; [done|]. by rewrite reverse_Permutation.
  - constructor; [destruct asc; lia|]. destruct asc; cbn [to_come].
    + eapply Forall_impl; [exact H3'|]. cbn. intros a ?. lia.
    + rewrite reverse_Permutation. eapply Forall_impl; [exact H1'|]. cbn. intros a ?. lia.
Qed.

(** C14: a scan of a whole tree without evicted rows, whose first and last keys the
    code can rebuild from an [aobj], terminates and reports every key once, in
    order, or, descending, in the reverse order. *)
Theorem full_scan_correct {K} `{KeyOrderLaws K} `{KeyOps K} `{KeyStream K} `{!NumKeyLaws K}
    (t : nat) (nbits which : Z) (btr : bt K) (asc : bool) :
  bt_params t nbits -> scannable t btr -> 0 <= which < MAX_NUM_ITERS ->
  Forall (fun k => mk (conv k) <> None) (inorder (root btr)) ->
  full_scan nbits which btr asc =
  Some (if asc then inorder (root btr) else reverse (inorder (root btr))).
Proof. apply full_scan_ok. Qed.

(** ** The depth of a tree *)

Lemma wf_count {K} `{KeyOrder K} (t : nat) (Ht : (1 <= t)%nat) : forall h lo (x : bt_n K), wf t lo h x ->
  ((lo + 1) * t ^ h <= length (inorder x) + 1)%nat.
Proof.
  induction h as [|h IH]; intros lo x Hx; pose proof (wf_shape t lo _ x Hx) as Hsh;
    rewrite inorder_flat, length_flat by done; apply wf_unfold in Hx as (Hn & _ & _ & Hh);
    unfold n_keys in *.
  - cbn. lia.
  - destruct Hh as (_ & Hl & HF).
    assert (Hsum : (length (nodes x) * (t ^ S h) <= sum_list_with length (map inorder (nodes x)) + length (nodes x))%nat).
    { clear Hl Hsh. induction HF as [|c cs Hc _ IHc]; [cbn; lia|].
      apply IH in Hc. rewrite Nat.sub_add in Hc by lia. cbn [map sum_list_with length].
      rewrite Nat.pow_succ_r' in *. nia. }
    rewrite Hl in Hsum. nia.
Qed.

Lemma depth_ok {K} `{KeyOrder K} (t : nat) (btr : bt K) :
  (4 <= t)%nat -> bt_wf t btr -> Z.of_nat (length (inorder (root btr))) < 2 ^ 32 ->
  (height (root btr) < MAX_BTREE_DEPTH)%nat.
Proof.
  intros Ht ((h & Hwf) & _ & _) Hlt. rewrite (wf_height t _ _ _ Hwf).
  apply (wf_count t ltac:(lia)) in Hwf. unfold MAX_BTREE_DEPTH.
  destruct (Nat.lt_ge_cases h 16) as [|Hge]; [done|exfalso].
  assert (Hpow : (4 ^ 16 <= t ^ h)%nat).
  { etrans; [apply Nat.pow_le_mono_l, Ht|]. apply Nat.pow_le_mono_r; lia. }
  apply Nat2Z.inj_le in Hpow. rewrite Nat2Z.inj_pow in Hpow.
  change (Z.of_nat 4 ^ Z.of_nat 16) with (2 ^ 32) in Hpow.
  destruct (Nat.eqb_spec h 0); [lia|]. lia.
Qed.

(** C16: an iterator's array of [MAX_BTREE_DEPTH] nodes is deep enough for every
    tree of either node size: a tree whose keys a 32-bit counter can count is
    less than 16 levels high. *)
Theorem iter_depth_bound {K} `{KeyOrder K} (t : nat) (btr : bt K) :
  (4 <= t)%nat -> bt_wf t btr -> Z.of_nat (length (inorder (root btr))) < 2 ^ 32 ->
  (height (root btr) < MAX_BTREE_DEPTH)%nat.
Proof. apply depth_ok. Qed.

(** ** A concrete tree of unsigned numbers *)

Definition z_stream : KeyStream Z :=
  {| kt := COL_TYPE_INT; conv := initAobjInt; 
     mk := fun a => Some (ao_i a); is_ghost := fun _ => false |}.
Definition u32_order : KeyOrder Z := fun a b => Z.sgn (u32 a - u32 b).
Lemma u32_order_laws : @KeyOrderLaws Z u32_order.
Proof. split; unfold cmp, u32_order; intros; lia. Qed.
#[local] Existing Instances u32_order u32_order_laws z_stream.
#[local] Existing Instance z_ops.

Lemma z_key_laws : NumKeyLaws Z.
Proof.
  split.
  - done.
  - intros a b. unfold cmp, u32_order, kv, key_num. cbn. lia.
  - intros k. apply int_obj_ok.
  - intros a k (Hi & _ & _) [= <-]. unfold kv, key_num. cbn. by apply uwrap_small.
Qed.
#[local] Existing Instance z_key_laws.

Lemma scan_sample : scannable 2 sample.
Proof.
  split; try done; [|cbn; unfold MAX_BTREE_DEPTH; lia|repeat constructor].
  split; [|split; [repeat constructor|reflexivity]].
  exists 1%nat. cbn [Nat.eqb]. apply wf_unfold. unfold clean.
  split_and!; try (cbn; lia); try done.
  repeat constructor; unfold clean; cbn; try done; lia.
Qed.

Lemma range_asc_correct_witness :
  range_scan 4 0 sample (initAobjInt 15) (initAobjInt 45) true = Some [20; 30; 40].
Proof.
  change [20; 30; 40] with (range_keys 15 45 (inorder (root sample))).
  apply (range_asc_correct 2 4 0 sample (initAobjInt 15) (initAobjInt 45) 15 sample_params scan_sample); [unfold MAX_NUM_ITERS; lia|apply int_obj_ok|done].
Defined.

Lemma range_desc_correct_witness :
  range_scan 4 0 sample (initAobjInt 15) (initAobjInt 50) false = Some [50; 40; 30; 20].
Proof.
  change [50; 40; 30; 20] with (reverse (range_keys 15 50 (inorder (root sample)))).
  apply (range_desc_correct 2 4 0 sample (initAobjInt 15) (initAobjInt 50) 50 50 sample_params scan_sample);
    [unfold MAX_NUM_ITERS; lia|apply int_obj_ok|done|cbn; in_list|done].
Defined.

Lemma range_desc_absent_high_witness :
  range_scan 4 0 sample (initAobjInt 15) (initAobjInt 45) false <> Some [40; 30; 20].
Proof.
  intros E. destruct (range_desc_absent_high 2 4 0 sample (initAobjInt 15) (initAobjInt 45) 45
    sample_params scan_sample) as (l & El & Hl); [unfold MAX_NUM_ITERS; lia|apply int_obj_ok|done| |by vm_compute|].
  - repeat constructor; by vm_compute.
  - rewrite E in El. injection El as <-. apply Hl. reflexivity.
Defined.

Lemma iterator_slot_leak_witness :
  btGetRangeIter 4 MAX_NUM_ITERS sample (initAobjInt 70) (initAobjInt 80) true = None.
Proof.
  apply (iterator_slot_leak 2 4 sample (initAobjInt 70) (initAobjInt 80) 70 sample_params scan_sample);
    [done|apply int_obj_ok|done|repeat constructor; by vm_compute].
Defined.

Lemma full_scan_correct_witness : full_scan 4 0 sample false = Some [60; 50; 40; 30; 20; 10].
Proof.
  change [60; 50; 40; 30; 20; 10] with (reverse (inorder (root sample))).
  apply (full_scan_correct 2 4 0 sample false sample_params scan_sample); [unfold MAX_NUM_ITERS; lia|].
  repeat constructor; by vm_compute.
Defined.

Definition small4 : bt Z :=
  Bt (Node false 7 clean_ds [30] [sample_leaf [10; 20; 25]; sample_leaf [40; 50; 60]]) 7 0 false.
Lemma small4_wf : bt_wf 4 small4.
Proof.
  split; [|split; [repeat constructor|reflexivity]].
  exists 1%nat. cbn [Nat.eqb]. apply wf_unfold. unfold clean.
  split_and!; try (cbn; lia); try done.
  repeat constructor; unfold clean; cbn; try done; lia.
Qed.

Lemma iter_depth_bound_witness : (1 < MAX_BTREE_DEPTH)%nat.
Proof. change 1%nat with (height (root small4)). apply (iter_depth_bound 4); [lia|apply small4_wf|cbn; lia]. Defined.
