(* ===== verification/BtLoop.v ===== *)
(** * Loops over an iterator ([DB/range.c])

    The loops of the queries are [while ((be = btRangeNext(bi, asc)))] with a body
    that may stop them: [iter_while].  Over a tree without evicted rows the loop
    runs its body on the keys of the scan, and no entry is reported missed. *)

From S2P Require Import Prelude Stream CStr Row Aobj BtSearch DirtyStream Btree BtOps BtIter BtScan.

(** The body gets the key and whether the iterator has missed evicted rows, and
    says whether to stop. *)
Fixpoint iter_while {K} `{KeyOrder K} `{KeyOps K} `{KeyStream K} {X} (fuel : nat) (dirty : bool) (s : btSIter K) (asc : bool)
    (body : X -> K -> bool -> option (X * bool)) (x : X) : option (X * btSIter K) :=
  match fuel with
  | O => None
  | S fuel' =>
      '(s, e) ← btRangeNext dirty s asc;
      match e with
      | None => Some (x, s)
      | Some b =>
          '(x, stop) ← body x (be_stream b) (missed s);
          if (stop : bool) then Some (x, s) else iter_while fuel' dirty s asc body x
      end
  end.

(** The body on a list of keys, none missed. *)
Fixpoint each {K X} (body : X -> K -> bool -> option (X * bool)) (l : list K) (x : X) : option X :=
  match l with
  | [] => Some x
  | k :: l => '(x, stop) ← body x k false; if (stop : bool) then Some x else each body l x
  end.

(** [nbi->be.dr] after the loop. *)
Definition last_dr {K} (s : btSIter K) : Z := match be s with Some b => be_dr b | None => 0 end.
(** An iterator that has missed nothing. *)
Definition unmissed {K} (s : btSIter K) : Prop := missed s = false /\ nim s = false /\ last_dr s = 0.

Lemma btNext_missed {K} `{KeyOrder K} `{KeyOps K} `{KeyStream K} dirty (s : btSIter K) asc s1 e :
  btNext dirty s asc = Some (s1, Some e) -> missed s1 = (if asc then nim s else missed s) /\ be s1 = be s.
Proof.
  unfold btNext. destruct (finished (it s)); [by destruct (scan s)|]. intros E.
  apply bind_Some in E as (f & Ef & E). apply bind_Some in E as (c & Ec & E). apply bind_Some in E as (dr & Edr & E).
  apply bind_Some in E as (i & Ei & E). injection E as <- <-. by destruct asc.
Qed.

(** Bodies that do the same. *)
Lemma iter_while_ext {K} `{KeyOrder K} `{KeyOps K} `{KeyStream K} {X} (body1 body2 : X -> K -> bool -> option (X * bool)) dirty asc :
  (forall x k m, body1 x k m = body2 x k m) -> forall fuel (s : btSIter K) x,
  iter_while fuel dirty s asc body1 x = iter_while fuel dirty s asc body2 x.
Proof.
  intros Hb. induction fuel as [|fuel IH]; intros s x; [done|]. cbn [iter_while].
  destruct (btRangeNext dirty s asc) as [[s' [b|]]|]; [|done..]. cbn [mbind option_bind]. rewrite Hb.
  destruct (body2 _ _ _) as [[x' []]|]; [done| |done]. apply IH.
Qed.

Section Loop.
Context {K : Type} `{KeyOrderLaws K} `{KeyOps K} `{KeyStream K} `{!NumKeyLaws K}.
Context (t : nat) (Ht : (2 <= t)%nat) (D : nat) (HD : (D < MAX_BTREE_DEPTH)%nat).

Lemma stop_unmissed b (s : btSIter K) : unmissed s -> unmissed (stop_if b s).
Proof. by destruct b. Qed.

Lemma next_unmissed asc dirty s (k : K) B A s' e : running t D asc s k B A -> ksorted (B ++ k :: A) -> is_ghost k = false ->
  unmissed s -> btRangeNext dirty s asc = Some (s', e) -> unmissed s'.
Proof.
  intros Hrun Hs Hg (Hm & Hn & Hd). pose proof Hrun as (_ & _ & _ & _ & He).
  destruct (btNext_ok t Ht D HD asc dirty s k B A Hrun Hs) as (s1 & x & i & E & Hdr & Hnim & _ & _).
  destruct (btNext_missed _ _ _ _ _ E) as [Hm1 _]. unfold btRangeNext. rewrite He, E.
  cbn [mbind option_bind streamToBTEntry]. rewrite Hg.
  assert (Hdr' : drAt x (if i <? 0 then 0 else i) = Some 0).
  { destruct (i <? 0) eqn:Ei; [|done]. unfold drAt in Hdr. by rewrite Ei in Hdr. }
  rewrite Hdr'. cbn [mbind option_bind be set_be]. set (b := Be k _ _ _).
  assert (Hb : unmissed (set_be s1 (Some b))) by (split_and!; [cbn; by destruct asc; rewrite Hm1|done|done]).
  assert (Hc : forall c d, unmissed (if (c : bool) && nim (stop_if d (set_be s1 (Some b)))
    then set_missed (stop_if d (set_be s1 (Some b))) true else stop_if d (set_be s1 (Some b)))).
  { intros c d. pose proof (stop_unmissed d _ Hb) as Hd'. destruct Hd' as (_ & -> & _). rewrite andb_false_r.
    by apply stop_unmissed. }
  destruct (kt_cases t Ht D HD) as [[C1 C2]|(C1 & C2 & C3 & C4)]; rewrite ?C1, ?C2.
  - rewrite Hdr. cbn [mbind option_bind]. intros [= <- _]. apply Hc.
  - rewrite Hdr. cbn [mbind option_bind]. intros [= <- _]. by apply stop_unmissed.
Qed.

(** A scan that has not stopped early: it has ended, or is at a key of the tree. *)
Definition tidy (asc : bool) s (l : list K) : Prop :=
  unmissed s /\ empty s = false /\
  (finished (it s) = true \/ exists k B A, running t D asc s k B A /\ B ++ k :: A = l).

Lemma done_unmissed asc dirty s s' (e : option (btEntry K)) : finished (it s) = true -> empty s = false -> unmissed s ->
  btRangeNext dirty s asc = Some (s', e) -> e = None /\ unmissed s'.
Proof.
  intros Hf He (Hm & Hn & Hd). unfold btRangeNext, btNext. rewrite He, Hf. cbn [mbind option_bind streamToBTEntry].
  destruct (scan s); cbn [be set_missed]; destruct (be s) eqn:Eb; intros [= <- <-]; split; try done;
    split_and!; try done; unfold last_dr in *; cbn; by rewrite Eb in *.
Qed.

Lemma tidy_next asc dirty s l s' e : tidy asc s l -> ksorted l -> Forall (fun k => is_ghost k = false) l ->
  btRangeNext dirty s asc = Some (s', e) -> unmissed s' /\ (e <> None -> tidy asc s' l).
Proof.
  intros (Hu & He & [Hfin|(k & B & A & Hrun & <-)]) Hs Hg E.
  { destruct (done_unmissed asc dirty s s' e Hfin He Hu E) as [-> ?]. done. }
  assert (Hgk : is_ghost k = false) by (apply Forall_app in Hg as [_ Hg]; by inversion Hg).
  pose proof (next_unmissed asc dirty s k B A s' e Hrun Hs Hgk Hu E) as Hu'. split; [done|]. intros _.
  destruct (btRangeNext_ok t Ht D HD asc dirty s k B A Hrun Hs Hgk) as (s2 & b & E2 & _ & [Hh2 He2] & Hst).
  rewrite E in E2. injection E2 as <- _. split; [done|]. split; [by rewrite He2|].
  destruct (kv k =? high_num (si_high s)); [by left|]. destruct (to_come asc B A) as [|k' l] eqn:Hl; [by left|]. right.
  eexists k', _, _. split; [done|]. destruct asc; cbn [to_come move fst snd] in *.
  - subst A. cbn. by rewrite <- app_assoc.
  - destruct (decide (B = [])) as [->|Hne]; [done|]. destruct (exists_last Hne) as (B' & kl & ->).
    rewrite reverse_snoc in Hl. injection Hl as -> Hl. rewrite length_app. cbn [length].
    replace (length B' + 1 - 1)%nat with (length B') by lia. rewrite take_app_length. by rewrite <- app_assoc.
Qed.

(** The loop runs its body on the keys of the scan. *)
Lemma iter_while_ok {X} (body : X -> K -> bool -> option (X * bool)) asc dirty l : ksorted l ->
  Forall (fun k => is_ghost k = false) l -> forall fuel s x ks, tidy asc s l -> drain fuel dirty s asc = Some ks ->
  match each body ks x with
  | None => iter_while fuel dirty s asc body x = None
  | Some x' => exists s', iter_while fuel dirty s asc body x = Some (x', s') /\ unmissed s'
  end.
Proof.
  intros Hs Hg. induction fuel as [|fuel IH]; intros s x ks Ht' Hd; [done|]. cbn [drain iter_while] in *.
  apply bind_Some in Hd as ([s' e] & E & Hd). rewrite E. cbn [mbind option_bind].
  destruct (tidy_next asc dirty s l s' e Ht' Hs Hg E) as [Hu Ht2]. destruct e as [b|].
  - apply bind_Some in Hd as (ks' & Hd & [= <-]). cbn [each].
    destruct Hu as (Hm & Hu). rewrite Hm. destruct (body x (be_stream b) false) as [[x' stop]|]; [|done].
    cbn [mbind option_bind]. destruct stop; [by exists s'|]. apply IH; [by apply Ht2|done].
  - injection Hd as <-. cbn [each]. by exists s'.
Qed.
End Loop.

Section Start.
Context {K : Type} `{KeyOrderLaws K} `{KeyOps K} `{KeyStream K} `{!NumKeyLaws K}.
Context (t : nat) (nbits : Z) (Hp : bt_params t nbits) (btr : bt K) (Hsc : scannable t btr).
#[local] Abbreviation keysof := (inorder (root btr)).

Lemma setIter_unmissed asc s bkey alow s' e : keysof <> [] -> fresh btr asc s -> unmissed s ->
  setIter nbits btr bkey s alow asc = Some (s', e) -> unmissed s'.
Proof.
  intros Hne (Hfr & Hnn & Hfin & Hfns) (Hm & Hn & Hd). pose proof Hsc as [Hb Hdl Hdp Hg Hlt].
  pose proof Hb as (_ & Hs & _).
  destruct (init_ok t nbits Hp (height (root btr)) Hdp bkey (qkey_of alow) (height (root btr)) (root btr) (it s)
      (Ln (root btr) 0 0) [] [] [] (S (height (root btr))) (-1) false true) as (i' & ret & k & B & A & Ei & Hat & HB & Hcfg & Ha & Hf & Hland);
    try done; try lia; [by apply (root_ok t btr)|constructor|by rewrite app_nil_r|].
  assert (Einit : bt_init_iterator nbits btr bkey (it s) alow = Some (i', ret)).
  { unfold bt_init_iterator, check_min_miss. by rewrite Hdl. }
  clear Ei. unfold setIter. rewrite Einit. cbn [app] in HB. rewrite app_nil_r in HB.
  assert (Hat' := Hat). destruct Hat' as (f & rest & h & ? & ? & ? & ? & ? & ? & Efs & _).
  cbn [mbind option_bind]. unfold top. cbn [it set_it]. rewrite Efs. cbn [head mbind option_bind].
  assert (Hu : forall i b, unmissed (set_empty (set_it s i) b)) by done.
  destruct Hland as [[-> _]|[Hret _]].
  { intros E. apply bind_Some in E as (k' & _ & [= <- _]). apply Hu. }
  assert (Hrun : running t (height (root btr)) asc (set_empty (set_it s i') false) k B A).
  { unfold running. cbn. split_and!; try done; [congruence|]. by destruct Hcfg as (-> & -> & _). }
  destruct Hret as [->|[-> _]]; intros E; apply bind_Some in E as (k' & _ & E); destruct (0 <? cmp bkey k');
    try (apply bind_Some in E as (k'' & _ & [= <- _]); apply Hu); try (injection E as <- _; apply Hu).
  destruct (btNext_ok t (params_t t nbits Hp) _ Hdp asc (bdirty btr) _ k B A Hrun) as (sn & xn & jn & E1 & _ & Hnim & _);
    [by rewrite HB|].
  rewrite E1 in E. injection E as <- <-. destruct (btNext_missed _ _ _ _ _ E1) as [Hm1 Hbe1].
  split_and!; [rewrite Hm1; by destruct asc|done|]. unfold last_dr. rewrite Hbe1. exact Hd.
Qed.

Lemma entry_unmissed (s s' : btSIter K) e ok : entry_ok e -> unmissed s -> streamToBTEntry s e = Some (s', ok) -> unmissed s'.
Proof.
  intros He (Hm & Hn & Hd). destruct e as [[[k x] i]|]; [|by intros [= <- _]]. destruct He as [Hdr Hg]. cbn. rewrite Hg.
  intros E. apply bind_Some in E as (dr & Edr & [= <- _]). split_and!; [done|done|]. cbn.
  destruct (i <? 0) eqn:Ei; [|congruence]. unfold drAt in Hdr. by rewrite Ei in Hdr.
Qed.

Lemma CR8_unmissed which asc w (s : btSIter K) : CR8ITER8R which btr asc = Some (w, s) -> unmissed s.
Proof. unfold CR8ITER8R, createIterator. case_match; [|done]. by intros [= _ <-]. Qed.
Lemma setHigh_unmissed (s s' : btSIter K) h : setHigh s h = Some s' -> unmissed s -> unmissed s'.
Proof.
  unfold setHigh. intros E. repeat case_match; try (apply bind_Some in E as (? & _ & E)); injection E as <-; done.
Qed.

(** The iterator of a range, when its scan reports [ks]. *)
Lemma range_tidy (asc : bool) which alow ahigh (bkey : K) (s : btSIter K) w :
  0 <= which < MAX_NUM_ITERS -> mk (if asc then alow else ahigh) = Some bkey ->
  btGetRangeIter nbits which btr alow ahigh asc = Some (w, Some s) ->
  w = which + 1 /\ tidy t (height (root btr)) asc s keysof.
Proof.
  intros Hw Hmk E. pose proof Hsc as [Hb Hdl Hdp Hg Hlt].
  assert (Hne : keysof <> []).
  { intros Hnil. unfold btGetRangeIter in E. destruct Hb as (_ & _ & Hn). by rewrite Hn, Hnil in E. }
  destruct (range_iter_ok t nbits Hp btr Hb Hdl Hdp Hg Hne asc which alow ahigh bkey Hw Hlt Hmk)
    as (r & B & k & A & E' & HB & Hr). rewrite E in E'. injection E' as <- <-. split; [done|].
  unfold btGetRangeIter in E. rewrite (numkeys_pos t btr Hb Hdp Hg Hne Hlt) in E.
  apply bind_Some in E as ([w1 s1] & E1 & E). apply bind_Some in E as (s2 & E2 & E).
  rewrite Hmk in E. apply bind_Some in E as ([s3 e] & E3 & E). apply bind_Some in E as ([s4 ok] & E4 & E).
  assert (s4 = s) as -> by (destruct ok; [by injection E|done]).
  destruct (setHigh_ok btr Hdp asc which (if asc then ahigh else alow) Hw) as (s2' & E2' & Hfresh & _).
  rewrite E1 in E2'. cbn [mbind option_bind] in E2'. rewrite E2 in E2'. injection E2' as -> <-.
  pose proof (setHigh_unmissed _ _ _ E2 (CR8_unmissed _ _ _ _ E1)) as Hu2.
  pose proof (setIter_unmissed asc s2 bkey _ s3 e Hne Hfresh Hu2 E3) as Hu3.
  destruct (setIter_ok t nbits Hp btr Hb Hdl Hdp Hg Hne asc s2 bkey (if asc then alow else ahigh) Hfresh)
    as (s3' & e' & B' & k' & A' & E3' & _ & _ & Hent & _). rewrite E3 in E3'. injection E3' as <- <-.
  split; [by apply (entry_unmissed s3 s e ok)|]. destruct Hr as (_ & [(Hrun & _)|(_ & _ & He & Hm)]).
  - split; [apply Hrun|]. right. by exists k, B, A.
  - split; [done|]. destruct (to_come asc B A) as [|k1 l] eqn:Hl; [by left|]. right. eexists k1, _, _. split; [done|].
    rewrite HB. destruct asc; cbn [to_come move fst snd] in *.
    + subst A. cbn. by rewrite <- app_assoc.
    + destruct (decide (B = [])) as [->|Hnb]; [done|]. destruct (exists_last Hnb) as (B1 & kl & ->).
      rewrite reverse_snoc in Hl. injection Hl as -> Hl. rewrite length_app. cbn [length].
      replace (length B1 + 1 - 1)%nat with (length B1) by lia. rewrite take_app_length. by rewrite <- app_assoc.
Qed.

(** The iterator of a whole tree. *)
Lemma full_tidy (asc : bool) which (s : btSIter K) w :
  0 <= which < MAX_NUM_ITERS -> Forall (fun k => mk (conv k) <> None) keysof ->
  btGetFullRangeIter nbits which btr asc = Some (w, Some s) ->
  w = which + 1 /\ tidy t (height (root btr)) asc s keysof.
Proof.
  intros Hw Hmk E. pose proof Hsc as [Hb Hdl Hdp Hg Hlt].
  assert (Hne : keysof <> []).
  { intros Hnil. unfold btGetFullRangeIter in E. destruct Hb as (_ & _ & Hn). by rewrite Hn, Hnil in E. }
  unfold btGetFullRangeIter in E. rewrite (numkeys_pos t btr Hb Hdp Hg Hne Hlt) in E.
  unfold assignMinKey, assignMaxKey in E. destruct (min_max_ok t nbits btr Hp Hb Hlt) as [Emin Emax]. rewrite Emin, Emax in E.
  cbn [mbind option_bind] in E.
  destruct (head keysof) as [lo|] eqn:Elo; [|by destruct keysof]. destruct (last keysof) as [hi|] eqn:Ehi; [|by apply last_None in Ehi].
  cbn [option_map] in E. set (b0 := if asc then lo else hi).
  replace (if asc then conv hi else conv lo) with (conv (if asc then hi else lo)) in E by (by destruct asc).
  replace (if asc then conv lo else conv hi) with (conv b0) in E by (by destruct asc).
  assert (Hin : b0 ∈ keysof).
  { unfold b0. destruct asc; [by apply head_Some_elem_of|by apply last_Some_elem_of]. }
  apply bind_Some in E as ([w1 s1] & E1 & E). apply bind_Some in E as (s2 & E2 & E).
  destruct (mk (conv b0)) as [bkey|] eqn:Em; [|by rewrite Forall_forall in Hmk; destruct (Hmk b0 Hin)].
  apply bind_Some in E as ([s3 e] & E3 & E).
  destruct (setHigh_ok btr Hdp asc which (conv (if asc then hi else lo)) Hw) as (s2' & E2' & Hfresh & _).
  rewrite E1 in E2'. cbn [mbind option_bind] in E2'. rewrite setHigh_scan in E2.
  destruct (setHigh s1 (conv (if asc then hi else lo))) as [s4|] eqn:E4; [|done]. injection E2 as <-.
  cbn [mbind option_bind] in E2'. injection E2' as -> ->.
  apply list_elem_of_split in Hin as (B & A & HB).
  pose proof (mk_kv _ _ (conv_ok b0) Em) as Hkv. change (key_num (conv b0)) with (kv b0) in Hkv.
  destruct (setIter_at t nbits Hp btr Hsc asc (set_scan s2' true) bkey (conv b0) b0 B A Hfresh HB Hkv)
    as (s3' & e' & E3' & _ & Hent & Hrun). rewrite E3 in E3'. injection E3' as <- ->.
  assert (Hu : unmissed (set_scan s2' true)).
  { pose proof (setHigh_unmissed _ _ _ E4 (CR8_unmissed _ _ _ _ E1)) as (? & ? & ?). done. }
  pose proof (setIter_unmissed asc (set_scan s2' true) bkey _ s3 (Some e') Hne Hfresh Hu E3) as Hu3.
  destruct (entry_stream s3 (Some e') Hent ltac:(done)) as (s5 & E5 & Hi5 & _ & He5). rewrite E5 in E.
  cbn [mbind option_bind] in E. rewrite Hdl in E. injection E as <- <-. split; [done|].
  split; [by apply (entry_unmissed s3 s5 (Some e') true)|]. split; [rewrite He5; apply Hrun|]. right.
  exists b0, B, A. split; [|done]. by apply (running_eq t btr asc s3).
Qed.
End Start.
