(* ===== verification/BtKey.v ===== *)
(** * Keys and streams of the B-trees ([DB/stream.c], [DB/bt.h], [DB/bt.c])

    A tree stores [void *] values: a number for the trees of primary keys of an
    index and for INT/INT tables, else memory: a packed struct, or a stream, the
    encoded key followed by the row, or by the address of the tree of an index
    entry.  This file models the kinds of tree ([bts_t] and the constructors),
    their comparators, the keys made for a search ([createBTKey]), the streams
    ([createStream], [parseStream], [convertStream2Key]) and their sizes.

    [NULL] is the number 0.  A number used as an address of memory the model
    does not hold, or memory read past its end, is undefined in C: the
    comparators and the key conversions read zeros there. *)

From S2P Require Import Prelude Stream CStr Row Aobj BtSearch DirtyStream Btree BtIter.

(** ** Pointers *)

Inductive cptr :=
| PNum (z : Z)
| PMem (m : list Z).

Definition NULL : cptr := PNum 0.
Definition is_null (p : cptr) : bool := match p with PNum z => u64 z =? 0 | PMem _ => false end.

(** The pointer as a number, and the memory it points to. *)
Definition num (p : cptr) : Z := match p with PNum z => u64 z | PMem _ => 0 end.
Definition mem (p : cptr) : list Z := match p with PMem m => m | PNum _ => [] end.

(** The [n]-byte unsigned integer at an offset of the memory. *)
Definition ld (n off : nat) (p : cptr) : Z :=
  uwrap (8 * Z.of_nat n) (le_num (take n (drop off (mem p)))).

(** ** Kinds of trees *)

Definition UINTSIZE : Z := 4.
Definition VOIDSIZE : Z := 8.
Definition ULONGSIZE : Z := 8.
Definition U128SIZE : Z := 16.

Record bts_t := Bts { ktype : Z; btype : Z; ksize : Z; bflag : Z; num_t : Z }.

Definition BTREE_TABLE : Z := 0.
Definition BTREE_INDEX : Z := 1.
Definition BTREE_INODE : Z := 2.
Definition BTREE_MCI : Z := 3.
Definition BTREE_MCI_MID : Z := 4.
Definition BT_MCI_UNIQ : Z := 5.
Definition BT_SIMP_UNIQ : Z := 6.

Definition BTFLAG_NONE : Z := 0.
Definition BTFLAG_UINT_INDEX : Z := 1.
Definition BTFLAG_ULONG_INDEX : Z := 2.
Definition BTFLAG_U128_INDEX : Z := 4.
Definition BTFLAG_OBC : Z := 8.
Definition BTFLAG_UINT_UINT : Z := 16.
Definition BTFLAG_UINT_ULONG : Z := 32.
Definition BTFLAG_ULONG_UINT : Z := 64.
Definition BTFLAG_ULONG_ULONG : Z := 128.
Definition BTFLAG_UINT_U128 : Z := 256.
Definition BTFLAG_U128_UINT : Z := 512.
Definition BTFLAG_ULONG_U128 : Z := 1024.
Definition BTFLAG_U128_ULONG : Z := 2048.
Definition BTFLAG_U128_U128 : Z := 4096.

Section Kinds.
Context (s : bts_t).

Definition OBYI : bool := has (bflag s) BTFLAG_OBC.
Definition INODE_I : bool := (btype s =? BTREE_INODE) && C_IS_I (ktype s) && negb OBYI.
Definition INODE_L : bool := (btype s =? BTREE_INODE) && C_IS_L (ktype s) && negb OBYI.
Definition INODE_X : bool := (btype s =? BTREE_INODE) && C_IS_X (ktype s) && negb OBYI.
Definition INODE : bool := INODE_I || INODE_L || INODE_X.

Definition SIMP_UNIQ : bool := btype s =? BT_SIMP_UNIQ.
Definition MCI_UNIQ : bool := btype s =? BT_MCI_UNIQ.

Definition UU : bool := has (bflag s) BTFLAG_UINT_UINT.
Definition UL : bool := has (bflag s) BTFLAG_UINT_ULONG.
Definition LU : bool := has (bflag s) BTFLAG_ULONG_UINT.
Definition LL : bool := has (bflag s) BTFLAG_ULONG_ULONG.
Definition UX : bool := has (bflag s) BTFLAG_UINT_U128.
Definition XU : bool := has (bflag s) BTFLAG_U128_UINT.
Definition LX : bool := has (bflag s) BTFLAG_ULONG_U128.
Definition XL : bool := has (bflag s) BTFLAG_U128_ULONG.
Definition XX : bool := has (bflag s) BTFLAG_U128_U128.

Definition UP : bool := has (bflag s) BTFLAG_UINT_INDEX.
Definition LUP : bool := has (bflag s) BTFLAG_ULONG_INDEX && has (bflag s) BTFLAG_ULONG_UINT.
Definition LLP : bool := has (bflag s) BTFLAG_ULONG_INDEX && has (bflag s) BTFLAG_ULONG_ULONG.
Definition XUP : bool := has (bflag s) BTFLAG_UINT_INDEX && has (bflag s) BTFLAG_U128_UINT.
Definition XLP : bool := has (bflag s) BTFLAG_ULONG_INDEX && has (bflag s) BTFLAG_U128_ULONG.
Definition XXP : bool := has (bflag s) BTFLAG_U128_INDEX && has (bflag s) BTFLAG_U128_ULONG.

Definition OTHER_BT : bool := BTFLAG_UINT_UINT <=? bflag s.
Definition BIG_BT : bool := BTFLAG_UINT_UINT <? bflag s.
Definition NORM_BT : bool := bflag s =? BTFLAG_NONE.

(** The widths in bytes of the key and the value of the packed struct, tried in
    the order of the code. *)
Definition struct_of : option (nat * nat) :=
  if UL then Some (4, 8)%nat
  else if LU then Some (8, 4)%nat
  else if LL then Some (8, 8)%nat
  else if UX then Some (4, 16)%nat
  else if XU then Some (16, 4)%nat
  else if LX then Some (8, 16)%nat
  else if XL then Some (16, 8)%nat
  else if XX then Some (16, 16)%nat
  else None.
End Kinds.

Definition UU_SIZE : Z := 8.

(** A struct: [ptr->key], [ptr->val] and the struct with both. *)
Definition st_key (kw : nat) (p : cptr) : Z := ld kw 0 p.
Definition st_val (kw vw : nat) (p : cptr) : Z := ld vw kw p.
Definition st_make (kw vw : nat) (k v : Z) : cptr := PMem (le_bytes kw k ++ le_bytes vw v).

(** ** Comparators *)

(** [x == y ? 0 : (x > y) ? 1 : -1] *)
Definition cmp3 (x y : Z) : Z := if x =? y then 0 else if y <? x then 1 else -1.

Definition ulongCmp (a b : cptr) : Z := cmp3 (num a) (num b).
Definition uintCmp (a b : cptr) : Z := ulongCmp a b.
Definition u128Cmp (a b : cptr) : Z := cmp3 (ld 16 0 a) (ld 16 0 b).

Definition uuCmp (a b : cptr) : Z :=
  s32 (Z.quot (s64 (num a)) UINT_MAX - Z.quot (s64 (num b)) UINT_MAX).
Definition UCmp (a b : cptr) : Z := cmp3 (st_key 4 a) (st_key 4 b).
Definition LCmp (a b : cptr) : Z := cmp3 (st_key 8 a) (st_key 8 b).
Definition XCmp (a b : cptr) : Z := cmp3 (st_key 16 a) (st_key 16 b).

Definition getSflag (b1 : Z) : bool := has b1 1.
(** The text of a key and its length: a length below 128 takes one odd byte,
    any other takes four bytes. *)
Definition getTString (m : list Z) : list Z * Z := (drop 1 m, u8 (default 0 (head m)) / 2).
Definition getString (m : list Z) : list Z * Z := (drop 4 m, u32 (le_num (take 4 m)) / 2).
Definition text_at (p : cptr) : list Z * Z :=
  if getSflag (default 0 (head (mem p))) then getTString (mem p) else getString (mem p).

Definition intkey (p : cptr) : Z := default 0 (option_map fst (streamIntToUInt (mem p))).
Definition longkey (p : cptr) : Z := u64 (default 0 (option_map fst (streamLongToULong (mem p)))).

Definition btIntCmp (a b : cptr) : Z := cmp3 (intkey a) (intkey b).
Definition btLongCmp (a b : cptr) : Z := cmp3 (longkey a) (longkey b).
Definition btU128Cmp (a b : cptr) : Z := cmp3 (ld 16 0 a) (ld 16 0 b).
Definition btFloatCmp (a b : cptr) : Z := f32_sign (f32_sub (ld 4 0 a) (ld 4 0 b)).

(** [strncmp] over memory that goes on with zeros. *)
Definition strncmp0 (s1 s2 : list Z) (n : Z) : Z :=
  let pad s := s ++ replicate (Z.to_nat n) 0 in
  default 0 (strncmp (pad s1) (pad s2) (Z.to_nat n)).

Definition btTextCmp (a b : cptr) : Z :=
  let '(s1, slen1) := text_at a in
  let '(s2, slen2) := text_at b in
  if slen1 =? slen2 then strncmp0 s1 s2 slen1
  else
    let i := if slen1 <? slen2 then slen1 else slen2 in
    let ret := strncmp0 s1 s2 i in
    if ret =? 0 then (if slen1 <? slen2 then -1 else 1) else ret.

(** ** Constructors

    What they pass to [bt_create]: the comparator, the specification and whether
    the tree is dirty. *)

Record bt_args := BtArgs { a_cmp : cptr -> cptr -> Z; a_spec : bts_t; a_dirty : bool }.

(** A key as the nodes hold it and [KEYS] gives it back: a tree of 4-byte keys
    keeps the low half of the number and reads it as a signed [int]. *)
Definition stored (s : bts_t) (p : cptr) : cptr :=
  if ksize s =? UINTSIZE then PNum (u64 (s32 (num p))) else p.

Definition CREATE_OBT (kt ks bf : Z) (cmp : cptr -> cptr -> Z) (num btype : Z) : bt_args :=
  BtArgs cmp (Bts kt btype ks bf num) false.

Definition createUUBT := CREATE_OBT COL_TYPE_INT UU_SIZE BTFLAG_UINT_UINT uuCmp.
Definition createULBT := CREATE_OBT COL_TYPE_INT 12 BTFLAG_UINT_ULONG UCmp.
Definition createLUBT := CREATE_OBT COL_TYPE_LONG 12 BTFLAG_ULONG_UINT LCmp.
Definition createLLBT := CREATE_OBT COL_TYPE_LONG 16 BTFLAG_ULONG_ULONG LCmp.
Definition createUXBT := CREATE_OBT COL_TYPE_INT 20 BTFLAG_UINT_U128 UCmp.
Definition createXUBT := CREATE_OBT COL_TYPE_U128 20 BTFLAG_U128_UINT XCmp.
Definition createLXBT := CREATE_OBT COL_TYPE_LONG 24 BTFLAG_ULONG_U128 LCmp.
Definition createXLBT := CREATE_OBT COL_TYPE_U128 24 BTFLAG_U128_ULONG XCmp.
Definition createXXBT := CREATE_OBT COL_TYPE_U128 32 BTFLAG_U128_U128 XCmp.

Definition createOBT (kt vtype tmatch bt : Z) : option bt_args :=
  if C_IS_I kt then
    if C_IS_I vtype then Some (createUUBT tmatch bt)
    else if C_IS_L vtype then Some (createULBT tmatch bt)
    else if C_IS_X vtype then Some (createUXBT tmatch bt) else None
  else if C_IS_L kt then
    if C_IS_I vtype then Some (createLUBT tmatch bt)
    else if C_IS_L vtype then Some (createLLBT tmatch bt)
    else if C_IS_X vtype then Some (createLXBT tmatch bt) else None
  else if C_IS_X kt then
    if C_IS_I vtype then Some (createXUBT tmatch bt)
    else if C_IS_L vtype then Some (createXLBT tmatch bt)
    else if C_IS_X vtype then Some (createXXBT tmatch bt) else None
  else None.

Definition ASSIGN_CMP (kt : Z) : cptr -> cptr -> Z :=
  if C_IS_I kt then btIntCmp else if C_IS_L kt then btLongCmp
  else if C_IS_X kt then btU128Cmp else if C_IS_F kt then btFloatCmp else btTextCmp.

(** The table: its number of columns, the type of the second and whether rows of
    it are evicted. *)
Definition createDBT (kt tmatch col_count col1_type : Z) (dirty : bool) : bt_args :=
  let norm := BtArgs (ASSIGN_CMP kt) (Bts kt BTREE_TABLE VOIDSIZE BTFLAG_NONE tmatch) dirty in
  if col_count =? 2 then default norm (createOBT kt col1_type tmatch BTREE_TABLE) else norm.

Definition createIBT (kt imatch bt : Z) : bt_args :=
  if C_IS_I kt then BtArgs UCmp (Bts kt bt 12 (BTFLAG_UINT_ULONG + BTFLAG_UINT_INDEX) imatch) false
  else if C_IS_L kt then
    BtArgs LCmp (Bts kt bt 16 (BTFLAG_ULONG_ULONG + BTFLAG_ULONG_INDEX) imatch) false
  else if C_IS_X kt then
    BtArgs XCmp (Bts kt bt 24 (BTFLAG_U128_ULONG + BTFLAG_U128_INDEX) imatch) false
  else BtArgs (ASSIGN_CMP kt) (Bts kt bt VOIDSIZE BTFLAG_NONE imatch) false.

(** [None] is the failed assertion. *)
Definition _createUIBT (kt imatch pktyp bt : Z) : option bt_args :=
  if C_IS_I kt then
    Some (if C_IS_I pktyp then createUUBT imatch bt
          else if C_IS_L pktyp then createULBT imatch bt else createUXBT imatch bt)
  else if C_IS_L kt then
    Some (if C_IS_I pktyp then createLUBT imatch bt
          else if C_IS_L pktyp then createLLBT imatch bt else createLXBT imatch bt)
  else if C_IS_X kt then
    Some (if C_IS_I pktyp then createXUBT imatch bt
          else if C_IS_L pktyp then createXLBT imatch bt else createXXBT imatch bt)
  else None.
Definition createU_S_IBT (kt imatch pktyp : Z) := _createUIBT kt imatch pktyp BT_SIMP_UNIQ.
Definition createU_MCI_IBT (kt imatch pktyp : Z) := _createUIBT kt imatch pktyp BT_MCI_UNIQ.
Definition createMCI_MIDBT (kt imatch : Z) := createIBT kt imatch BTREE_MCI_MID.
(** [kt] is the type of the first column of the index. *)
Definition createMCI_IBT (kt imatch dtype : Z) :=
  createIBT (if C_IS_O kt then dtype else kt) imatch BTREE_MCI.
Definition createIndexBT (kt imatch : Z) := createIBT kt imatch BTREE_INDEX.

(** The node of an index; [num] is -1 as an unsigned short.  [None] is the NULL
    that [createOBT] may return, then dereferenced. *)
Definition createIndexNode (kt obctype : Z) : option bt_args :=
  if negb (obctype =? COL_TYPE_NONE) then
    a ← createOBT obctype kt 65535 BTREE_INODE;
    let s := a_spec a in
    Some (BtArgs (a_cmp a) (Bts (ktype s) (btype s) (ksize s) (Z.lor (bflag s) BTFLAG_OBC) (num_t s)) false)
  else
    let mk_node cmp ks := Some (BtArgs cmp (Bts kt BTREE_INODE ks BTFLAG_NONE 65535) false) in
    if C_IS_I kt then mk_node uintCmp UINTSIZE
    else if C_IS_L kt then mk_node ulongCmp ULONGSIZE
    else if C_IS_X kt then mk_node u128Cmp U128SIZE
    else mk_node (ASSIGN_CMP kt) VOIDSIZE.

(** ** Keys for a search *)

(** The encoded INT; [None] when it does not fit ([return 0]). *)
Definition cr8BTKInt (a : aobj) : option (list Z * Z) :=
  let c := cr8Icol (ao_i a) in
  if TWO_POW_32 <=? col c then None else Some (writeUIntCol (sflag c) (col c), csize c).
Definition cr8BTKLong (a : aobj) : list Z * Z :=
  let c := cr8Lcol (ao_l a) in (writeULongCol (sflag c) (col c), csize c).
Definition cr8BTKU128 (a : aobj) : list Z * Z :=
  let '(x, ks) := cr8Xcol (ao_x a) in (writeU128Col x, ks).
Definition cr8BTKFloat (a : aobj) : list Z * Z := (writeFloatCol true (ao_f a), 4).

Definition cr8BTKText (a : aobj) : option (list Z * Z) :=
  s ← ao_str a;
  Some (if ao_len a <? TWO_POW_7 then (u8 (ao_len a * 2 + 1) :: s, u32 (ao_len a + 1))
        else (le_bytes 4 (u32 (ao_len a * 2)) ++ s, u32 (ao_len a + 4))).

(** The key part of a struct that starts with a [kw]-byte key, from the field of
    the [aobj] of that width. *)
Definition obt_part (kw : nat) (a : aobj) : Z :=
  match kw with 4%nat => ao_i a | 8%nat => ao_l a | _ => ao_x a end.

(** The key and its size; [None] is a read through a bad string pointer.  The
    static structs of the code keep a zero [val]. *)
Definition createBTKey (s : bts_t) (a : aobj) : option (cptr * Z) :=
  if INODE_I s then Some (PNum (ao_i a), VOIDSIZE)
  else if INODE_L s then Some (PNum (ao_l a), VOIDSIZE)
  else if INODE_X s then Some (PMem (le_bytes 16 (ao_x a)), VOIDSIZE)
  else if UU s then Some (PNum (u64 (ao_i a * UINT_MAX)), VOIDSIZE)
  else
    match struct_of s with
    | Some (kw, vw) => Some (st_make kw vw (obt_part kw a) 0, VOIDSIZE)
    | None =>
        let ptr r := Some (PMem r.1, r.2) in
        if C_IS_S (ktype s) then r ← cr8BTKText a; ptr r
        else if C_IS_L (ktype s) then ptr (cr8BTKLong a)
        else if C_IS_X (ktype s) then ptr (cr8BTKU128 a)
        else if C_IS_F (ktype s) then ptr (cr8BTKFloat a)
        else if C_IS_I (ktype s) then
          match cr8BTKInt a with Some r => ptr r | None => Some (NULL, VOIDSIZE) end
        else Some (PMem [], VOIDSIZE)
    end.

(** ** Streams *)

(** The length of the key at the head of a stream. *)
Definition skipToVal (m : list Z) (kt : Z) : option Z :=
  if C_IS_I kt then option_map snd (streamIntToUInt m)
  else if C_IS_L kt then option_map snd (streamLongToULong m)
  else if C_IS_X kt then option_map snd (streamToU128 m)
  else if C_IS_F kt then option_map snd (streamFloatToFloat m)
  else
    b ← head m;
    if getSflag b then Some (snd (getTString m) + 1) else Some (snd (getString m) + 4).

(** The value of a stream: the row, the address of the tree of an index entry, a
    number, the stream itself for the other packed trees. *)
Definition parseStream (s : bts_t) (p : cptr) : option cptr :=
  if is_null p || INODE s then Some NULL
  else if UU s then Some (PNum (u64 (Z.rem (s64 (num p)) UINT_MAX)))
  else if UP s then Some (PNum (st_val 4 8 p))
  else if LUP s then Some (PNum (st_val 8 4 p))
  else if LLP s then Some (PNum (st_val 8 8 p))
  else if XUP s then Some (PNum (st_val 16 4 p))
  else if XLP s then Some (PNum (st_val 16 8 p))
  else if XXP s then Some (PNum (u64 (st_val 16 16 p)))
  else if OTHER_BT s then Some p
  else
    klen ← skipToVal (mem p) (ktype s);
    let rest := drop (Z.to_nat klen) (mem p) in
    if btype s =? BTREE_TABLE then Some (PMem rest)
    else if btype s =? BTREE_INODE then Some NULL
    else v ← load 8 rest; Some (PNum v).

Definition key_i (v : Z) : aobj := Aobj S_NULL 0 (u32 v) 0 0 0 false COL_TYPE_INT COL_TYPE_INT false false.
Definition key_l (v : Z) : aobj := Aobj S_NULL 0 0 (u64 v) 0 0 false COL_TYPE_LONG COL_TYPE_LONG false false.
Definition key_x (v : Z) : aobj := Aobj S_NULL 0 0 0 (u128 v) 0 false COL_TYPE_U128 COL_TYPE_U128 false false.
Definition key_f (v : Z) : aobj := Aobj S_NULL 0 0 0 0 v false COL_TYPE_FLOAT COL_TYPE_FLOAT false false.
Definition key_s (p : sptr) (len : Z) : aobj :=
  Aobj p len 0 0 0 0 false COL_TYPE_STRING COL_TYPE_STRING false false.

Definition obt_key (kw : nat) (v : Z) : aobj :=
  match kw with 4%nat => key_i v | 8%nat => key_l v | _ => key_x v end.

Definition convertStream2Key (s : bts_t) (p : cptr) : aobj :=
  if INODE_I s then key_i (num p)
  else if INODE_L s then key_l (num p)
  else if INODE_X s then key_x (ld 16 0 p)
  else if UU s then key_i (Z.quot (s64 (num p)) UINT_MAX)
  else
    match struct_of s with
    | Some (kw, _) => obt_key kw (st_key kw p)
    | None =>
        if C_IS_I (ktype s) then key_i (intkey p)
        else if C_IS_L (ktype s) then key_l (longkey p)
        else if C_IS_X (ktype s) then key_x (ld 16 0 p)
        else if C_IS_F (ktype s) then key_f (ld 4 0 p)
        else let '(str, len) := text_at p in key_s (S_MEM str) len
    end.

Definition getStreamVlen (s : bts_t) (val : cptr) : option Z :=
  if btype s =? BTREE_TABLE then getRowMallocSize (if is_null val then None else Some (mem val))
  else if btype s =? BTREE_INODE then Some 0
  else Some 8.

Definition getStreamMallocSize (s : bts_t) (p : cptr) : option Z :=
  if INODE s || OTHER_BT s then Some 0
  else
    klen ← skipToVal (mem p) (ktype s);
    vlen ← getStreamVlen s (PMem (drop (Z.to_nat klen) (mem p)));
    Some (Z.quot (s32 (klen + vlen) + 7) 8 * 8).

Definition getStreamRowSize (s : bts_t) (p : cptr) : option Z :=
  if NORM_BT s then
    klen ← skipToVal (mem p) (ktype s);
    vlen ← getStreamVlen s (PMem (drop (Z.to_nat klen) (mem p)));
    Some (u32 (klen + vlen))
  else if INODE s then Some 0
  else if UU s then Some UU_SIZE
  else '(kw, vw) ← struct_of s; Some (Z.of_nat (kw + vw)).

(** [XOBT_CR8_STRM] and [OBT_CR8_STRM]. *)
Definition xobt_stream (kv : nat * nat) (btkey val : cptr) : option cptr :=
  match val with
  | PMem _ => Some (st_make kv.1 kv.2 (st_key kv.1 btkey) (st_val kv.1 kv.2 val))
  | PNum _ => None
  end.
Definition obt_stream (kv : nat * nat) (btkey val : cptr) : cptr :=
  st_make kv.1 kv.2 (st_key kv.1 btkey) (num val).

Definition OBT_createStream (s : bts_t) (val btkey : cptr) : option cptr :=
  let merge := Some (PNum (u64 (num btkey + num val))) in
  if OBYI s || MCI_UNIQ s then
    if UU s then merge else kv ← struct_of s; xobt_stream kv btkey val
  else if UP s then Some (obt_stream (4, 8)%nat btkey val)
  else if LUP s then Some (obt_stream (8, 4)%nat btkey val)
  else if LLP s then Some (obt_stream (8, 8)%nat btkey val)
  else if UU s then merge
  else
    kv ← struct_of s;
    if XL s && negb (UL s || LU s || LL s || UX s || XU s || LX s) && XXP s
    then Some (obt_stream kv btkey val) else xobt_stream kv btkey val.

(** The stream and its size; [None] is a read outside [val], or the failed
    assertion of [OBT_createStream]. *)
Definition createStream (s : bts_t) (val btkey : cptr) (klen : Z) : option (cptr * Z) :=
  if INODE s then Some (btkey, 0)
  else if OTHER_BT s then option_map (fun p => (p, 0)) (OBT_createStream s val btkey)
  else
    vlen ← getStreamVlen s val;
    key ← slice (mem btkey) 0 (Z.to_nat klen);
    let size := u32 (klen + vlen) in
    if btype s =? BTREE_TABLE then
      if is_null val then Some (PMem (key ++ replicate 8 0), size)
      else row ← slice (mem val) 0 (Z.to_nat vlen); Some (PMem (key ++ row), size)
    else if btype s =? BTREE_INODE then Some (PMem key, size)
    else Some (PMem (key ++ le_bytes 8 (num val)), size).

(** Whether memory was freed, and how much. *)
Definition destroyStream (s : bts_t) (p : cptr) : option (bool * Z) :=
  if is_null p || INODE s || OTHER_BT s then Some (false, 0)
  else size ← getStreamMallocSize s p; Some (true, size).

(** [isGhostRow]: the first byte of the value is 0.  The value of an index entry
    is an address; [byte_at] is the memory there. *)
Definition isGhostRow (byte_at : Z -> Z) (s : bts_t) (p : cptr) : bool :=
  NORM_BT s &&
  match parseStream s p with
  | Some (PMem m) => default 1 (head m) =? 0
  | Some (PNum z) => negb (u64 z =? 0) && (byte_at (u64 z) =? 0)
  | None => false
  end.

Definition getNumKey_of (s : bts_t) (p : cptr) : Z :=
  let a := convertStream2Key s p in if C_IS_I (ktype s) then ao_i a else ao_l a.

(** The ghost [replaceKeyWithGhost] stores. *)
Definition ghost_stream (s : bts_t) (k : cptr) : option cptr :=
  '(btkey, ks) ← createBTKey s (convertStream2Key s k);
  if is_null btkey then None else option_map fst (createStream s NULL btkey ks).

(** ** The interfaces of the trees

    The comparators of two kinds of tree are orders on a part of the numbers
    only: INT primary keys in an index node, below [2^31] because the node reads
    them back as signed, and the numbers of an INT/INT table, whose key must be
    below [2^31] for the product not to overflow.  A tree of the model holds keys
    of that domain; the memory of a TEXT key holds bytes. *)

Definition key_ok (s : bts_t) (p : cptr) : bool :=
  if ksize s =? UINTSIZE then num p <? 2 ^ 31
  else if UU s then num p <? 2 ^ 31 * UINT_MAX
  else if C_IS_S (ktype s) then forallb (fun b => (0 <=? b) && (b <? 256)) (mem p)
  else true.

Definition key_t (s : bts_t) : Type := { p : cptr | key_ok s p = true }.
Definition ptr {s} (k : key_t s) : cptr := proj1_sig k.

(** A key of the domain. *)
Definition key_of (s : bts_t) (p : cptr) : option (key_t s) :=
  match bool_dec (key_ok s p) true with left H => Some (exist _ p H) | right _ => None end.

Definition key_order (a : bt_args) : KeyOrder (key_t (a_spec a)) := fun x y => a_cmp a (ptr x) (ptr y).

(** [KEYS] reads a slot of eight bytes as a pointer and one of four as an [int],
    and gives the address of any other; the copy of a deleted key depends on the
    flags alone. *)
Definition key_rep_of (s : bts_t) : key_rep_t :=
  if (ksize s =? VOIDSIZE) || (ksize s =? UINTSIZE)
  then if BIG_BT s then REP_BAD else REP_WORD
  else if BIG_BT s then REP_COPIED else REP_SLOT.

Definition key_ops (s : bts_t) : KeyOps (key_t s) :=
  {| num_key := fun k => getNumKey_of s (ptr k);
     ghost_key := fun k => default k (ghost_stream s (ptr k) ≫= key_of s);
     key_is_num := C_IS_NUM (ktype s);
     is_inode := INODE s;
     key_rep := key_rep_of s |}.

Definition key_stream (byte_at : Z -> Z) (s : bts_t) : KeyStream (key_t s) :=
  {| kt := ktype s;
     conv := fun k => convertStream2Key s (ptr k);
     mk := fun a => '(k, _) ← createBTKey s a; if is_null k then None else key_of s k;
     is_ghost := fun k => isGhostRow byte_at s (ptr k) |}.
