(* ===== verification/BtKeyLaws.v ===== *)
(** * The keys of the trees satisfy what the trees need

    The comparator of every kind of tree but two (INT/INT tables and FLOAT keys)
    is a total order on the keys, and, for numeric keys, the order of their
    numbers; a key made for a value carries that value; a stream carries its key
    and its value.  So the theorems about trees and iterators, stated against
    the interfaces, hold of the trees the program creates. *)

From S2P Require Import Prelude Stream CStr Row Aobj BtSearch DirtyStream Btree BtIter BtScan BtKey.

(** ** Orders by a number *)

Lemma cmp3_sgn x y : Z.sgn (cmp3 x y) = Z.sgn (x - y).
Proof. unfold cmp3. zcases; lia. Qed.

Lemma cmp3_lt x y : cmp3 x y < 0 <-> x < y.
Proof. unfold cmp3. zcases; lia. Qed.
Lemma cmp3_eq x y : cmp3 x y = 0 <-> x = y.
Proof. unfold cmp3. zcases; lia. Qed.

Lemma sgn_laws {A} (p : A -> Z) (c : KeyOrder A) :
  (forall a b, Z.sgn (cmp a b) = Z.sgn (p a - p b)) -> KeyOrderLaws A.
Proof.
  intros E. split.
  - intros a. pose proof (E a a). lia.
  - intros a b. pose proof (E a b). pose proof (E b a). lia.
  - intros a b d. pose proof (E a b). pose proof (E b d). pose proof (E a d). lia.
Qed.

(** ** Bounds of the numbers read *)

Lemma ld_bound n off p : 0 <= ld n off p < 2 ^ (8 * Z.of_nat n).
Proof. apply uwrap_bound. lia. Qed.

Lemma intkey_bound p : 0 <= intkey p < 2 ^ 32.
Proof.
  unfold intkey, streamIntToUInt. destruct (sI2I _ _) as [[v n]|]; cbn; [|lia].
  apply uwrap_bound. lia.
Qed.
Lemma longkey_bound p : 0 <= longkey p < 2 ^ 64.
Proof. apply uwrap_bound. lia. Qed.
Lemma num_bound p : 0 <= num p < 2 ^ 64.
Proof. destruct p; cbn; [apply uwrap_bound; lia|lia]. Qed.

(** ** What makes the keys of a numeric tree lawful *)

Definition key_value (s : bts_t) (k : cptr) : Z :=
  let a := convertStream2Key s k in
  if C_IS_I (ktype s) then ao_i a else if C_IS_L (ktype s) then ao_l a else ao_x a.
Definition obj_value (s : bts_t) (a : aobj) : Z :=
  if C_IS_I (ktype s) then ao_i a else if C_IS_L (ktype s) then ao_l a else ao_x a.

Record lawful (a : bt_args) : Prop := {
  lw_num : C_IS_NUM (ktype (a_spec a)) = true;
  lw_cmp : forall x y, key_ok (a_spec a) x = true -> key_ok (a_spec a) y = true ->
    Z.sgn (a_cmp a x y) = Z.sgn (key_value (a_spec a) x - key_value (a_spec a) y);
  lw_mk : forall v k ks, ao_ok v -> createBTKey (a_spec a) v = Some (k, ks) ->
    key_ok (a_spec a) k = true -> key_value (a_spec a) k = obj_value (a_spec a) v;
}.

Lemma conv_stream_ok s k : ao_ok (convertStream2Key s k).
Proof.
  assert (Hi : forall v, ao_ok (key_i v)).
  { intros v. unfold ao_ok, key_i. cbn [ao_i ao_l ao_x]. pose proof (uwrap_bound 32 v). lia. }
  assert (Hl : forall v, ao_ok (key_l v)).
  { intros v. unfold ao_ok, key_l. cbn [ao_i ao_l ao_x]. pose proof (uwrap_bound 64 v). lia. }
  assert (Hx : forall v, ao_ok (key_x v)).
  { intros v. unfold ao_ok, key_x. cbn [ao_i ao_l ao_x]. pose proof (uwrap_bound 128 v). lia. }
  unfold convertStream2Key, obt_key.
  repeat (case_match; try apply Hi; try apply Hl; try apply Hx);
    unfold ao_ok; cbn [key_f key_s ao_i ao_l ao_x]; lia.
Qed.

Section Interfaces.
Context (a : bt_args) (byte_at : Z -> Z) (Ha : lawful a).

#[local] Instance ord : KeyOrder (key_t (a_spec a)) := key_order a.
#[local] Instance str : KeyStream (key_t (a_spec a)) := key_stream byte_at (a_spec a).

Lemma kv_value (k : key_t (a_spec a)) : kv k = key_value (a_spec a) (ptr k).
Proof. done. Qed.

Lemma lawful_order : KeyOrderLaws (key_t (a_spec a)).
Proof.
  apply (sgn_laws (fun k => key_value (a_spec a) (ptr k))). intros [x Hx] [y Hy]. by apply (lw_cmp a Ha).
Qed.

Lemma key_of_ptr s p k : key_of s p = Some k -> ptr k = p.
Proof. unfold key_of. by destruct (bool_dec _ _); intros [= <-]. Qed.
Lemma key_of_ok s p : key_ok s p = true -> exists k, key_of s p = Some k /\ ptr k = p.
Proof. intros H. unfold key_of. destruct (bool_dec _ _); [by eexists|done]. Qed.

Lemma lawful_keys : NumKeyLaws (key_t (a_spec a)).
Proof.
  split.
  - apply (lw_num a Ha).
  - intros [x Hx] [y Hy]. rewrite !kv_value. by apply (lw_cmp a Ha).
  - intros k. apply conv_stream_ok.
  - intros v k Hv. cbn [mk str key_stream]. destruct (createBTKey _ _) as [[p ks]|] eqn:E; [|done].
    cbn [mbind option_bind]. destruct (is_null p); [done|]. intros Hk.
    rewrite kv_value. pose proof (proj2_sig k) as Hok. change (proj1_sig k) with (ptr k) in Hok.
    rewrite (key_of_ptr _ _ _ Hk) in *. by apply (lw_mk a Ha v p ks).
Qed.
End Interfaces.

(** A key of the width of its type. *)
Definition width_of (t : Z) : nat := if C_IS_I t then 4 else if C_IS_L t then 8 else 16.

Lemma take_st_make kw vw k v : take kw (mem (st_make kw vw k v)) = le_bytes kw k.
Proof. cbn. rewrite take_app_length'; [done|by rewrite length_le_bytes]. Qed.

Lemma st_key_make kw vw k v : 0 <= k < 2 ^ (8 * Z.of_nat kw) -> st_key kw (st_make kw vw k v) = k.
Proof.
  intros Hk. unfold st_key, ld. rewrite drop_0, take_st_make, le_num_bytes.
  replace (256 ^ Z.of_nat kw) with (2 ^ (8 * Z.of_nat kw)) by (by rewrite Z.pow_mul_r by lia).
  rewrite Z.mod_small by done. by apply uwrap_small.
Qed.

Lemma st_val_make kw vw k v :
  0 <= v < 2 ^ (8 * Z.of_nat vw) -> st_val kw vw (st_make kw vw k v) = v.
Proof.
  intros Hv. unfold st_val, ld. cbn [mem st_make].
  rewrite drop_app_length' by (by rewrite length_le_bytes).
  rewrite take_ge by (by rewrite length_le_bytes). rewrite le_num_bytes.
  replace (256 ^ Z.of_nat vw) with (2 ^ (8 * Z.of_nat vw)) by (by rewrite Z.pow_mul_r by lia).
  rewrite Z.mod_small by done. by apply uwrap_small.
Qed.

Lemma obt_part_num v t : C_IS_NUM t = true -> obt_part (width_of t) v =
  (if C_IS_I t then ao_i v else if C_IS_L t then ao_l v else ao_x v).
Proof. intros. unfold width_of. destruct (C_IS_I t); [done|]. by destruct (C_IS_L t). Qed.

Ltac bcases :=
  repeat match goal with
  | H : (_ || _) = false |- _ => apply orb_false_iff in H as [? ?]
  end.

(** Trees of packed structs. *)
Lemma lawful_struct c s d vw :
  C_IS_NUM (ktype s) = true -> INODE s = false -> UU s = false ->
  struct_of s = Some (width_of (ktype s), vw) ->
  (forall x y, c x y = cmp3 (st_key (width_of (ktype s)) x) (st_key (width_of (ktype s)) y)) ->
  lawful (BtArgs c s d).
Proof.
  intros Hn Hi Hu Hs Hc. unfold INODE in Hi. bcases.
  assert (Hkv : forall k, key_value s k = st_key (width_of (ktype s)) k).
  { intros k. pose proof (ld_bound (width_of (ktype s)) 0 k) as Hb. unfold key_value, convertStream2Key.
    repeat match goal with E : _ = false |- _ => rewrite E; clear E end. rewrite Hs.
    unfold width_of, obt_key, st_key in *.
    destruct (C_IS_I (ktype s)); [by apply uwrap_small|].
    destruct (C_IS_L (ktype s)); by apply uwrap_small. }
  split; cbn [a_cmp a_spec]; [done|intros; by rewrite Hc, !Hkv, cmp3_sgn|].
  intros v k ks (Hvi & Hvl & Hvx) E _. rewrite Hkv. revert E. unfold createBTKey.
  repeat match goal with E : _ = false |- _ => rewrite E; clear E end. rewrite Hs.
  intros [= <- <-]. unfold obj_value.
  rewrite obt_part_num by done. apply st_key_make. unfold width_of, C_IS_NUM in *.
  destruct (C_IS_I (ktype s)); [done|]. destruct (C_IS_L (ktype s)); [done|exact Hvx].
Qed.

(** Trees of plain numbers: the nodes of an index. *)
Lemma lawful_inode_i c s d : INODE_I s = true -> ksize s = UINTSIZE ->
  (forall x y, c x y = cmp3 (num x) (num y)) -> lawful (BtArgs c s d).
Proof.
  intros Hi Hk Hc. assert (Ht : C_IS_I (ktype s) = true).
  { unfold INODE_I in Hi. by apply andb_true_iff in Hi as [[_ ?]%andb_true_iff _]. }
  assert (Hkv : forall k, key_value s k = u32 (num k)).
  { intros k. unfold key_value, convertStream2Key. by rewrite Hi, Ht. }
  assert (Hok : forall k, key_ok s k = true -> 0 <= num k < 2 ^ 31).
  { intros k. unfold key_ok. rewrite Hk. cbn [Z.eqb UINTSIZE Pos.eqb]. pose proof (num_bound k).
    destruct (Z.ltb_spec (num k) (2 ^ 31)); [lia|done]. }
  split; cbn [a_cmp a_spec].
  - unfold C_IS_NUM. by rewrite Ht.
  - intros x y Hx%Hok Hy%Hok. by rewrite Hc, !Hkv, cmp3_sgn, !uwrap_small by lia.
  - intros v k ks (Hvi & _ & _) E _. rewrite Hkv. revert E. unfold createBTKey, obj_value. rewrite Hi, Ht.
    intros [= <- <-]. cbn [num]. by rewrite !uwrap_small by (rewrite ?uwrap_small; lia).
Qed.

Lemma lawful_inode_l c s d : INODE_L s = true -> ksize s <> UINTSIZE -> UU s = false ->
  (forall x y, c x y = cmp3 (num x) (num y)) -> lawful (BtArgs c s d).
Proof.
  intros Hi Hk Hu Hc. assert (Ht : C_IS_I (ktype s) = false /\ C_IS_L (ktype s) = true).
  { unfold INODE_L in Hi. apply andb_true_iff in Hi as [[_ E]%andb_true_iff _]. split; [|done].
    ctypes. lia. }
  destruct Ht as [Ht1 Ht2].
  assert (Hno : INODE_I s = false) by (unfold INODE_I; by rewrite Ht1, andb_false_r).
  assert (Hkv : forall k, key_value s k = num k).
  { intros k. unfold key_value, convertStream2Key. rewrite Hno, Hi, Ht1, Ht2. cbn [key_l ao_l].
    apply uwrap_small, num_bound. }
  split; cbn [a_cmp a_spec].
  - unfold C_IS_NUM. by rewrite Ht2, orb_true_r.
  - intros x y _ _. by rewrite Hc, !Hkv, cmp3_sgn.
  - intros v k ks (_ & Hvl & _) E _. rewrite Hkv. revert E. unfold createBTKey, obj_value.
    rewrite Hno, Hi, Ht1, Ht2. intros [= <- <-]. by apply uwrap_small.
Qed.

Lemma ld_le_bytes n v rest : 0 <= v < 2 ^ (8 * Z.of_nat n) -> ld n 0 (PMem (le_bytes n v ++ rest)) = v.
Proof.
  intros Hv. unfold ld. cbn [mem]. rewrite drop_0, take_app_length' by (by rewrite length_le_bytes).
  rewrite le_num_bytes. replace (256 ^ Z.of_nat n) with (2 ^ (8 * Z.of_nat n)) by (by rewrite Z.pow_mul_r by lia).
  rewrite Z.mod_small by done. by apply uwrap_small.
Qed.

(** Trees of U128 keys held as memory, encoded or not. *)
Lemma lawful_u128 c s d : C_IS_X (ktype s) = true -> UU s = false -> struct_of s = None ->
  (forall x y, c x y = cmp3 (ld 16 0 x) (ld 16 0 y)) -> lawful (BtArgs c s d).
Proof.
  intros Ht Hu Hs Hc.
  assert (Ht' : C_IS_I (ktype s) = false /\ C_IS_L (ktype s) = false /\ C_IS_S (ktype s) = false).
  { ctypes. lia. }
  destruct Ht' as (Ht1 & Ht2 & Ht3).
  assert (Hno : INODE_I s = false /\ INODE_L s = false).
  { unfold INODE_I, INODE_L. by rewrite Ht1, Ht2, !andb_false_r. }
  destruct Hno as [Hn1 Hn2].
  assert (Hkv : forall k, key_value s k = ld 16 0 k).
  { intros k. unfold key_value, convertStream2Key. rewrite Hn1, Hn2, Ht1, Ht2, Ht, Hu, Hs.
    pose proof (ld_bound 16 0 k). destruct (INODE_X s); cbn [key_x ao_x]; by apply uwrap_small. }
  split; cbn [a_cmp a_spec].
  - unfold C_IS_NUM. by rewrite Ht, orb_true_r.
  - intros x y _ _. by rewrite Hc, !Hkv, cmp3_sgn.
  - intros v k ks (_ & _ & Hvx) E _. rewrite Hkv. revert E. unfold createBTKey, obj_value.
    rewrite Hn1, Hn2, Ht1, Ht2, Ht3, Ht, Hu, Hs. unfold cr8BTKU128, cr8Xcol, writeU128Col. cbn [fst snd].
    pose proof (ld_le_bytes 16 (ao_x v) [] Hvx) as E. rewrite app_nil_r in E.
    by destruct (INODE_X s); intros [= <- <-].
Qed.

(** Trees of encoded INT and LONG keys. *)
Lemma intkey_enc v rest : 0 <= v < 2 ^ 32 -> intkey (PMem (enc_col v true ++ rest)) = v.
Proof. intros Hv. unfold intkey. cbn [mem]. by rewrite streamIntToUInt_enc. Qed.
Lemma longkey_enc v rest : 0 <= v < 2 ^ 64 -> longkey (PMem (enc_col v false ++ rest)) = v.
Proof.
  intros Hv. unfold longkey. cbn [mem]. rewrite streamLongToULong_enc by done. by apply uwrap_small.
Qed.

(** An INT always fits: the code for the failure is dead. *)
Lemma cr8BTKInt_fits a : 0 <= ao_i a < 2 ^ 32 ->
  cr8BTKInt a = Some (enc_col (ao_i a) true, getCSize (ao_i a) true).
Proof.
  intros Ha. unfold cr8BTKInt, cr8Icol, enc_col. rewrite <- csize_getCSize.
  destruct (Z.leb_spec TWO_POW_32 (col (cIcol (ao_i a) true))) as [Hge|]; [exfalso|done].
  revert Hge. unfold cIcol, TWO_POW_32, TWO_POW_7, TWO_POW_14, TWO_POW_29. zcases; cbn [col]; lia.
Qed.

Lemma norm_kinds s : btype s <> BTREE_INODE -> bflag s = BTFLAG_NONE ->
  INODE s = false /\ INODE_I s = false /\ INODE_L s = false /\ INODE_X s = false /\
  UU s = false /\ struct_of s = None /\ OTHER_BT s = false /\ NORM_BT s = true.
Proof.
  intros Hb Hf. unfold INODE, INODE_I, INODE_L, INODE_X, UU, struct_of, UL, LU, LL, UX, XU, LX, XL, XX,
    OTHER_BT, NORM_BT. rewrite Hf. destruct (Z.eqb_spec (btype s) BTREE_INODE); [done|]. by cbn.
Qed.

Lemma lawful_int c s d : C_IS_I (ktype s) = true -> btype s <> BTREE_INODE -> bflag s = BTFLAG_NONE ->
  (forall x y, c x y = btIntCmp x y) -> lawful (BtArgs c s d).
Proof.
  intros Ht Hb Hf Hc. destruct (norm_kinds s Hb Hf) as (_ & H1 & H2 & H3 & H4 & H5 & _ & _).
  assert (Ht' : C_IS_L (ktype s) = false /\ C_IS_S (ktype s) = false /\ C_IS_X (ktype s) = false /\
    C_IS_F (ktype s) = false) by (ctypes; lia).
  destruct Ht' as (Ht1 & Ht2 & Ht3 & Ht4).
  assert (Hkv : forall k, key_value s k = intkey k).
  { intros k. unfold key_value, convertStream2Key. rewrite H1, H2, H3, H4, H5, Ht.
    apply uwrap_small, intkey_bound. }
  split; cbn [a_cmp a_spec].
  - unfold C_IS_NUM. by rewrite Ht.
  - intros x y _ _. unfold btIntCmp in Hc. by rewrite Hc, !Hkv, cmp3_sgn.
  - intros v k ks (Hvi & _ & _) E _. rewrite Hkv. revert E. unfold createBTKey, obj_value.
    rewrite H1, H2, H3, H4, H5, Ht, Ht1, Ht2, Ht3, Ht4, cr8BTKInt_fits by done. cbn [fst snd].
    intros [= <- <-]. rewrite <- (app_nil_r (enc_col _ _)). by apply intkey_enc.
Qed.

Lemma lawful_long c s d : C_IS_L (ktype s) = true -> btype s <> BTREE_INODE -> bflag s = BTFLAG_NONE ->
  (forall x y, c x y = btLongCmp x y) -> lawful (BtArgs c s d).
Proof.
  intros Ht Hb Hf Hc. destruct (norm_kinds s Hb Hf) as (_ & H1 & H2 & H3 & H4 & H5 & _ & _).
  assert (Ht' : C_IS_I (ktype s) = false /\ C_IS_S (ktype s) = false) by (ctypes; lia).
  destruct Ht' as (Ht1 & Ht2).
  assert (Hkv : forall k, key_value s k = longkey k).
  { intros k. unfold key_value, convertStream2Key. rewrite H1, H2, H3, H4, H5, Ht1, Ht.
    apply uwrap_small, longkey_bound. }
  split; cbn [a_cmp a_spec].
  - unfold C_IS_NUM. by rewrite Ht, orb_true_r.
  - intros x y _ _. unfold btLongCmp in Hc. by rewrite Hc, !Hkv, cmp3_sgn.
  - intros v k ks (_ & Hvl & _) E _. rewrite Hkv. revert E. unfold createBTKey, obj_value.
    rewrite H1, H2, H3, H4, H5, Ht, Ht1, Ht2. cbn [cr8BTKLong fst snd].
    intros [= <- <-]. change (longkey (PMem (enc_col (ao_l v) false)) = ao_l v).
    rewrite <- (app_nil_r (enc_col _ _)). by apply longkey_enc.
Qed.

(** INT/INT tables. *)
Lemma lawful_uu c s d : C_IS_I (ktype s) = true -> INODE s = false -> ksize s <> UINTSIZE -> UU s = true ->
  (forall x y, c x y = uuCmp x y) -> lawful (BtArgs c s d).
Proof.
  intros Ht Hi Hk Hu Hc. unfold INODE in Hi. bcases.
  assert (Hkv : forall k, key_value s k = u32 (Z.quot (s64 (num k)) UINT_MAX)).
  { intros k. unfold key_value, convertStream2Key.
    repeat match goal with E : _ = false |- _ => rewrite E; clear E end. by rewrite Hu, Ht. }
  assert (Hlt : forall k, key_ok s k = true -> 0 <= num k < 2 ^ 31 * UINT_MAX).
  { intros k. unfold key_ok. rewrite Hu. destruct (Z.eqb_spec (ksize s) UINTSIZE); [done|].
    pose proof (num_bound k). destruct (Z.ltb_spec (num k) (2 ^ 31 * UINT_MAX)); [lia|done]. }
  assert (Hok : forall k, key_ok s k = true -> 0 <= Z.quot (s64 (num k)) UINT_MAX < 2 ^ 31).
  { intros k Hk'%Hlt. unfold UINT_MAX in *. rewrite swrap_small by lia. rewrite Z.quot_div_nonneg by lia.
    split; [apply Z.div_pos; lia|apply Z.div_lt_upper_bound; lia]. }
  split; cbn [a_cmp a_spec].
  - unfold C_IS_NUM. by rewrite Ht.
  - intros x y Hx%Hok Hy%Hok. rewrite Hc, !Hkv, !uwrap_small by lia. unfold uuCmp.
    rewrite swrap_small by lia. done.
  - intros v k ks (Hvi & _ & _) E Hk'%Hlt. rewrite Hkv. revert E. unfold createBTKey, obj_value.
    repeat match goal with E : _ = false |- _ => rewrite E; clear E end. rewrite Hu, Ht.
    intros [= <- <-]. cbn [num] in *. rewrite uwrap_idem in *.
    assert (E : u64 (ao_i v * UINT_MAX) = ao_i v * UINT_MAX) by (apply uwrap_small; unfold UINT_MAX; lia).
    rewrite E in *. rewrite swrap_small by (unfold UINT_MAX in *; lia).
    rewrite Z.quot_mul by done. by apply uwrap_small.
Qed.

(** ** The trees the program creates *)

(** The specifications with numeric keys, by their constructors. *)
Inductive created : bt_args -> Prop :=
| created_table kt tmatch ncols ct dirty : C_IS_NUM kt = true ->
    created (createDBT kt tmatch ncols ct dirty)
| created_index kt imatch : C_IS_NUM kt = true -> created (createIndexBT kt imatch)
| created_mci kt imatch dtype : C_IS_NUM (if C_IS_O kt then dtype else kt) = true ->
    created (createMCI_IBT kt imatch dtype)
| created_mci_mid kt imatch : C_IS_NUM kt = true -> created (createMCI_MIDBT kt imatch)
| created_uniq kt imatch pktyp a : createU_S_IBT kt imatch pktyp = Some a -> created a
| created_uniq_mci kt imatch pktyp a : createU_MCI_IBT kt imatch pktyp = Some a -> created a
| created_node kt obctype a : C_IS_NUM (if obctype =? COL_TYPE_NONE then kt else obctype) = true ->
    createIndexNode kt obctype = Some a -> created a.

Lemma not_inode_b s : (btype s =? BTREE_INODE) = false -> INODE s = false.
Proof. intros E. unfold INODE, INODE_I, INODE_L, INODE_X. by rewrite E. Qed.
Lemma not_inode_o s : OBYI s = true -> INODE s = false.
Proof. intros E. unfold INODE, INODE_I, INODE_L, INODE_X. by rewrite E, !andb_false_r. Qed.

(** A tree of packed structs with closed flags, outside the nodes of indexes or
    ordered by another column. *)
Ltac packed :=
  first [ apply lawful_uu; [reflexivity| |done|reflexivity|done]
        | eapply lawful_struct; [reflexivity| |reflexivity|reflexivity|done] ];
  first [ by apply not_inode_b | by apply not_inode_o ].

Lemma lawful_obt kt vtype tm bt a : createOBT kt vtype tm bt = Some a ->
  (bt =? BTREE_INODE) = false -> lawful a.
Proof.
  intros E Hbt. unfold createOBT in E.
  repeat case_match; try done; injection E as <-; packed.
Qed.

Lemma lawful_uibt kt im pk bt a : _createUIBT kt im pk bt = Some a ->
  (bt =? BTREE_INODE) = false -> lawful a.
Proof.
  intros E Hbt. unfold _createUIBT in E.
  repeat case_match; try done; injection E as <-; packed.
Qed.

Lemma lawful_ibt kt im bt : C_IS_NUM kt = true -> (bt =? BTREE_INODE) = false -> lawful (createIBT kt im bt).
Proof.
  intros [-> | [-> | ->]]%num_cases Hbt; unfold createIBT; cbn [C_IS_I C_IS_L C_IS_X];
    packed.
Qed.

Lemma lawful_obc kt obctype a : createIndexNode kt obctype = Some a -> obctype <> COL_TYPE_NONE -> lawful a.
Proof.
  intros E Ho. unfold createIndexNode in E. destruct (Z.eqb_spec obctype COL_TYPE_NONE); [done|].
  cbn [negb] in E. unfold createOBT in E.
  repeat case_match; try done; cbn in E; injection E as <-; packed.
Qed.

(** Every tree with numeric keys that the program creates has lawful keys. *)
Lemma created_lawful a : created a -> lawful a.
Proof.
  intros [kt tm nc ct dirty Hn|kt im Hn|kt im dt Hn|kt im Hn|kt im pk a' E|kt im pk a' E|kt ob a' Hn E].
  - unfold createDBT. assert (Hnorm : lawful (BtArgs (ASSIGN_CMP kt) (Bts kt BTREE_TABLE VOIDSIZE BTFLAG_NONE tm) dirty)).
    { destruct (num_cases kt Hn) as [->|[->| ->]];
        [by apply lawful_int|by apply lawful_long|by apply lawful_u128]. }
    destruct (nc =? 2); [|done]. destruct (createOBT kt ct tm BTREE_TABLE) as [a'|] eqn:E; [|done].
    by apply (lawful_obt _ _ _ _ _ E).
  - by apply lawful_ibt.
  - by apply lawful_ibt.
  - by apply lawful_ibt.
  - by apply (lawful_uibt _ _ _ _ _ E).
  - by apply (lawful_uibt _ _ _ _ _ E).
  - destruct (Z.eqb_spec ob COL_TYPE_NONE) as [->|Ho]; [|by apply (lawful_obc kt ob)].
    destruct (num_cases kt Hn) as [->|[->| ->]]; injection E as <-;
      [by apply lawful_inode_i|by apply lawful_inode_l|by apply lawful_u128].
Qed.
