(* ===== verification/BtStream.v ===== *)
(** * TEXT keys and streams

    The order of TEXT keys is the order of their strings, byte by byte, and the
    streams of every kind of tree give back the key and the value they were
    made from. *)

From S2P Require Import Prelude Stream CStr Row Aobj BtSearch DirtyStream Btree BtIter BtScan BtKey BtKeyLaws.

(** ** Lexicographic order *)

Fixpoint lex (a b : list Z) : Z :=
  match a, b with
  | [], [] => 0
  | [], _ => -1
  | _, [] => 1
  | x :: a', y :: b' => if x <? y then -1 else if y <? x then 1 else lex a' b'
  end.

Lemma lex_range a : forall b, -1 <= lex a b <= 1.
Proof. induction a as [|x a IH]; intros [|y b]; cbn; try lia. zcases; try lia. apply IH. Qed.

Lemma lex_eq a : forall b, lex a b = 0 <-> a = b.
Proof.
  induction a as [|x a IH]; intros [|y b]; cbn; try done.
  zcases; [split; [done|intros [=]; lia]..|]. rewrite IH. split; [|by intros [=]].
  intros ->. f_equal. lia.
Qed.

Lemma lex_sym a : forall b, lex a b = - lex b a.
Proof. induction a as [|x a IH]; intros [|y b]; cbn; try done. zcases; try lia. apply IH. Qed.

Lemma lex_trans a : forall b c, lex a b <= 0 -> lex b c <= 0 -> lex a c <= 0.
Proof.
  induction a as [|x a IH]; intros [|y b] [|z c]; cbn; try lia.
  intros H1 H2. zcases; try lia. by apply (IH b c).
Qed.

(** [strncmp] compares the strings up to the terminator. *)
Lemma strncmp_lex s1 : forall s2 n, Forall is_byte s1 -> Forall is_byte s2 ->
  (n <= length s1)%nat -> (n <= length s2)%nat ->
  exists r, strncmp s1 s2 n = Some r /\ Z.sgn r = lex (cstring (take n s1)) (cstring (take n s2)).
Proof.
  induction s1 as [|c1 s1 IH]; intros [|c2 s2] [|n] F1 F2 H1 H2; cbn in H1, H2; try lia; try (by exists 0).
  apply Forall_cons in F1 as [B1 F1], F2 as [B2 F2]. unfold is_byte in B1, B2.
  cbn [strncmp take cstring]. destruct (Z.eqb_spec c1 c2) as [->|Hne].
  - destruct (Z.eqb_spec c2 0); [by exists 0|]. destruct (IH s2 n) as (r & E & Hr); [done|done|lia..|].
    exists r. split; [done|]. rewrite Hr. cbn. rewrite Z.ltb_irrefl. done.
  - exists (c1 - c2). split; [done|].
    destruct (Z.eqb_spec c1 0), (Z.eqb_spec c2 0); cbn [lex]; zcases; lia.
Qed.

(** Comparing with a part of the longer string. *)
Lemma lex_take i : forall t s j, (length t <= i <= j)%nat -> (i <= length s)%nat ->
  let u := cstring (take i s) in let v := cstring (take j s) in
  (lex t u <> 0 -> lex t v = lex t u) /\ (lex t u = 0 -> lex t v <= 0).
Proof.
  induction i as [|i IH]; intros t s j Ht Hs.
  - destruct t; [|simpl in Ht; lia]. rewrite take_0. cbn. split; [done|]. by destruct (cstring (take j s)).
  - destruct j as [|j]; [lia|]. destruct s as [|c s]; [simpl in Hs; lia|]. cbn [take cstring].
    destruct (c =? 0); [cbn; split; [done|lia]|]. destruct t as [|x t]; [cbn; split; [done|lia]|].
    cbv zeta. cbn [lex]. specialize (IH t s j). simpl in Ht, Hs.
    destruct (x <? c); [split; [done|lia]|]. destruct (c <? x); [split; [done|lia]|]. apply IH; lia.
Qed.

Lemma cstring_length s : (length (cstring s) <= length s)%nat.
Proof. induction s as [|c s IH]; cbn; [lia|]. destruct (c =? 0); cbn; lia. Qed.

(** ** The order of TEXT keys *)

(** The string of a key, up to a terminator inside it, and its length. *)
Definition txt (p : cptr) : list Z :=
  let '(s, n) := text_at p in cstring (take (Z.to_nat n) (s ++ replicate (Z.to_nat n) 0)).
Definition txt_len (p : cptr) : Z := (text_at p).2.

Definition text_cmp (x y : cptr) : Z :=
  let r := lex (txt x) (txt y) in if r =? 0 then Z.sgn (txt_len x - txt_len y) else r.

Lemma text_len_bound p : 0 <= txt_len p < 2 ^ 31.
Proof.
  unfold txt_len, text_at, getTString, getString.
  destruct (getSflag _); cbn [snd].
  - pose proof (uwrap_bound 8 (default 0 (head (mem p)))). split; [apply Z.div_pos; lia|].
    apply Z.div_lt_upper_bound; lia.
  - pose proof (uwrap_bound 32 (le_num (take 4 (mem p)))). split; [apply Z.div_pos; lia|].
    apply Z.div_lt_upper_bound; lia.
Qed.

Lemma strncmp0_lex s1 s2 n m1 m2 : Forall is_byte s1 -> Forall is_byte s2 -> 0 <= n <= m1 -> n <= m2 ->
  let p1 := s1 ++ replicate (Z.to_nat m1) 0 in
  let p2 := s2 ++ replicate (Z.to_nat m2) 0 in
  Z.sgn (strncmp0 s1 s2 n) = lex (cstring (take (Z.to_nat n) p1)) (cstring (take (Z.to_nat n) p2)).
Proof.
  intros F1 F2 H1 H2. unfold strncmp0.
  assert (Hpad : forall s m, n <= m -> take (Z.to_nat n) (s ++ replicate (Z.to_nat n) 0) =
    take (Z.to_nat n) (s ++ replicate (Z.to_nat m) 0)).
  { intros s m Hm. rewrite !take_app. f_equal. rewrite !take_replicate. f_equal. lia. }
  assert (Hb : forall s, Forall is_byte s -> Forall is_byte (s ++ replicate (Z.to_nat n) 0)).
  { intros s F. apply Forall_app. split; [done|]. apply Forall_replicate. unfold is_byte. lia. }
  destruct (strncmp_lex (s1 ++ replicate (Z.to_nat n) 0) (s2 ++ replicate (Z.to_nat n) 0) (Z.to_nat n))
    as (r & -> & Hr); [auto|auto|rewrite length_app, length_replicate; lia..|].
  rewrite (Hpad s1 m1), (Hpad s2 m2) in Hr by lia. exact Hr.
Qed.

Lemma text_bytes p : Forall is_byte (mem p) -> Forall is_byte (text_at p).1.
Proof.
  intros F. unfold text_at, getTString, getString. destruct (getSflag _); cbn [fst]; by apply Forall_drop.
Qed.

Lemma btTextCmp_sgn x y : Forall is_byte (mem x) -> Forall is_byte (mem y) ->
  Z.sgn (btTextCmp x y) = text_cmp x y.
Proof.
  intros Fx%text_bytes Fy%text_bytes. pose proof (text_len_bound x). pose proof (text_len_bound y).
  unfold btTextCmp, text_cmp, txt, txt_len in *.
  destruct (text_at x) as [s1 n1], (text_at y) as [s2 n2]. cbn [fst snd] in *.
  set (p1 := s1 ++ replicate (Z.to_nat n1) 0). set (p2 := s2 ++ replicate (Z.to_nat n2) 0).
  assert (L1 : (Z.to_nat n1 <= length p1)%nat) by (unfold p1; rewrite length_app, length_replicate; lia).
  assert (L2 : (Z.to_nat n2 <= length p2)%nat) by (unfold p2; rewrite length_app, length_replicate; lia).
  pose proof (cstring_length (take (Z.to_nat n1) p1)) as C1. rewrite length_take_le in C1 by done.
  pose proof (cstring_length (take (Z.to_nat n2) p2)) as C2. rewrite length_take_le in C2 by done.
  set (t1 := cstring (take (Z.to_nat n1) p1)) in *. set (t2 := cstring (take (Z.to_nat n2) p2)) in *.
  destruct (Z.eqb_spec n1 n2) as [<-|Hne].
  { rewrite (strncmp0_lex s1 s2 n1 n1 n1) by (done || lia). fold p1 p2 t1 t2. rewrite Z.sub_diag.
    by destruct (Z.eqb_spec (lex t1 t2) 0). }
  destruct (Z.ltb_spec n1 n2).
  - pose proof (strncmp0_lex s1 s2 n1 n1 n2 Fx Fy ltac:(lia) ltac:(lia)) as E. cbn zeta in E.
    fold p1 p2 t1 in E. set (r := strncmp0 s1 s2 n1) in *.
    destruct (lex_take (Z.to_nat n1) t1 p2 (Z.to_nat n2)) as [D1 D2]; [lia|lia|]. fold t2 in D1, D2.
    pose proof (lex_range t1 t2). zcases; lia.
  - pose proof (strncmp0_lex s1 s2 n2 n1 n2 Fx Fy ltac:(lia) ltac:(lia)) as E. cbn zeta in E.
    fold p1 p2 t2 in E. set (r := strncmp0 s1 s2 n2) in *.
    destruct (lex_take (Z.to_nat n2) t2 p1 (Z.to_nat n1)) as [D1 D2]; [lia|lia|]. fold t1 in D1, D2.
    pose proof (lex_range t1 t2). rewrite (lex_sym t2), (lex_sym t2 t1) in D1. rewrite (lex_sym t2), (lex_sym t2 t1) in D2.
    zcases; lia.
Qed.

Lemma text_cmp_laws : @KeyOrderLaws cptr text_cmp.
Proof.
  split; unfold cmp, text_cmp.
  - intros x. rewrite (proj2 (lex_eq _ _) eq_refl). cbn. lia.
  - intros x y. rewrite (lex_sym (txt y)). zcases; lia.
  - intros x y z. pose proof (lex_trans (txt x) (txt y) (txt z)).
    pose proof (lex_eq (txt x) (txt y)). pose proof (lex_eq (txt y) (txt z)). pose proof (lex_eq (txt x) (txt z)).
    pose proof (lex_sym (txt x) (txt y)). pose proof (lex_sym (txt y) (txt z)).
    pose proof (lex_sym (txt x) (txt z)).
    destruct (Z.eqb_spec (lex (txt x) (txt y)) 0) as [E1|N1], (Z.eqb_spec (lex (txt y) (txt z)) 0) as [E2|N2].
    + apply lex_eq in E1. rewrite E1. apply lex_eq in E2. rewrite E2. rewrite (proj2 (lex_eq _ _) eq_refl). cbn. lia.
    + apply lex_eq in E1. rewrite E1. zcases; lia.
    + apply lex_eq in E2. rewrite <- E2. zcases; lia.
    + intros G1 G2. destruct (Z.eqb_spec (lex (txt x) (txt z)) 0) as [E|N]; [|lia]. exfalso.
      apply lex_eq in E. rewrite <- E in *. lia.
Qed.

(** The trees of TEXT keys: tables and indexes. *)
Inductive created_text : bt_args -> Prop :=
| created_text_table tmatch ncols ct dirty : created_text (createDBT COL_TYPE_STRING tmatch ncols ct dirty)
| created_text_index imatch : created_text (createIndexBT COL_TYPE_STRING imatch).

Lemma created_text_spec a : created_text a ->
  a_cmp a = btTextCmp /\ ktype (a_spec a) = COL_TYPE_STRING /\ bflag (a_spec a) = BTFLAG_NONE /\
  ksize (a_spec a) = VOIDSIZE /\ btype (a_spec a) <> BTREE_INODE.
Proof.
  intros [tm nc ct d|im]; [|done]. unfold createDBT. by destruct (nc =? 2).
Qed.

Lemma key_bytes (s : bts_t) (k : key_t s) : ktype s = COL_TYPE_STRING -> bflag s = BTFLAG_NONE ->
  ksize s = VOIDSIZE -> Forall is_byte (mem (ptr k)).
Proof.
  intros Ht Hf Hs. destruct k as [p Hp]. cbn [ptr proj1_sig]. revert Hp.
  unfold key_ok, UU. rewrite Ht, Hf, Hs. cbn. change (has BTFLAG_NONE BTFLAG_UINT_UINT) with false. cbv iota.
  rewrite forallb_forall, Forall_forall. intros Hp b Hb%list_elem_of_In%Hp.
  apply andb_true_iff in Hb. unfold is_byte. lia.
Qed.

Lemma text_laws a : created_text a -> @KeyOrderLaws (key_t (a_spec a)) (key_order a).
Proof.
  intros (Hc & Ht & Hf & Hs & _)%created_text_spec. pose proof text_cmp_laws as [R A T].
  assert (E : forall x y : key_t (a_spec a), Z.sgn (key_order a x y) = text_cmp (ptr x) (ptr y)).
  { intros x y. unfold key_order. rewrite Hc. apply btTextCmp_sgn; by apply key_bytes. }
  unfold cmp in R, A, T.
  split; unfold cmp.
  - intros x. pose proof (E x x). specialize (R (ptr x)). lia.
  - intros x y. pose proof (E x y). pose proof (E y x). specialize (A (ptr x) (ptr y)). lia.
  - intros x y z. pose proof (E x y). pose proof (E y z). pose proof (E x z).
    specialize (T (ptr x) (ptr y) (ptr z)). lia.
Qed.

(** ** The encoding of a key of a normal tree *)

(** A value of the type of the tree's keys. *)
Definition val_ok (s : bts_t) (a : aobj) : Prop :=
  ao_ok a /\ 0 <= ao_f a < 2 ^ 32 /\ In (ktype s) [1; 2; 3; 4; 5] /\
  (ktype s = COL_TYPE_STRING -> exists str, ao_str a = Some str /\
     ao_len a = Z.of_nat (length str) /\ ao_len a < 2 ^ 31 /\ Forall is_byte str).

(** Two values of type [t] are the same. *)
Definition same_val (t : Z) (a b : aobj) : Prop :=
  ao_type a = t /\
  if C_IS_I t then ao_i a = ao_i b
  else if C_IS_L t then ao_l a = ao_l b
  else if C_IS_X t then ao_x a = ao_x b
  else if C_IS_F t then ao_f a = ao_f b
  else ao_str a = ao_str b.

Lemma odd_flag n : getSflag (u8 (n * 2 + 1)) = true.
Proof. unfold getSflag. apply (tag_2_1 n). Qed.
Lemma even_flag n : getSflag (u32 (n * 2) mod 256) = false.
Proof.
  unfold getSflag, has. rewrite (Z.land_ones _ 1) by lia.
  apply negb_false_iff, Z.eqb_eq. unfold uwrap. dlia.
Qed.

(** The text a key holds, whatever follows it. *)
Definition text_hdr (n : Z) : list Z := if n <? TWO_POW_7 then [u8 (n * 2 + 1)] else le_bytes 4 (u32 (n * 2)).

Lemma text_skip n str rest : n = Z.of_nat (length str) -> n < 2 ^ 31 -> let m := text_hdr n ++ str ++ rest in
  (b ← head m; if getSflag b then Some (snd (getTString m) + 1) else Some (snd (getString m) + 4)) =
  Some (Z.of_nat (length (text_hdr n ++ str))).
Proof.
  intros Hn Hlt. unfold text_hdr. rewrite length_app. destruct (Z.ltb_spec n TWO_POW_7) as [H7|H7].
  - cbn. rewrite odd_flag. unfold id, TWO_POW_7 in *. f_equal. unfold uwrap. dlia.
  - cbn [le_bytes app head mbind option_bind]. rewrite even_flag. unfold getString. cbn [take snd].
    change (u32 (n * 2) mod 256 :: _) with (le_bytes 4 (u32 (n * 2))).
    rewrite le_num_bytes, length_le_bytes. change (256 ^ Z.of_nat 4) with (2 ^ 32). cbn [length]. f_equal. unfold uwrap. dlia.
Qed.


Lemma text_enc n str rest : n = Z.of_nat (length str) -> n < 2 ^ 31 ->
  text_at (PMem (text_hdr n ++ str ++ rest))
  = (str ++ rest, n).
Proof.
  intros Hn Hlt. unfold text_at, text_hdr. cbn [mem]. destruct (Z.ltb_spec n TWO_POW_7) as [H7|H7].
  - cbn [app head default]. unfold id. rewrite odd_flag. unfold getTString. cbn [drop head default]. unfold id.
    rewrite drop_0. f_equal. unfold TWO_POW_7 in H7. unfold uwrap. dlia.
  - assert (Hh : default 0 (head (le_bytes 4 (u32 (n * 2)) ++ str ++ rest)) = u32 (n * 2) mod 256) by done.
    rewrite Hh, even_flag. unfold getString.
    rewrite drop_app_length' by (by rewrite length_le_bytes). rewrite take_app_length' by (by rewrite length_le_bytes).
    f_equal. rewrite le_num_bytes. change (256 ^ Z.of_nat 4) with (2 ^ 32). unfold uwrap. dlia.
Qed.

Lemma cr8BTKText_enc a str : ao_str a = Some str -> ao_len a = Z.of_nat (length str) -> ao_len a < 2 ^ 31 ->
  let m := text_hdr (ao_len a) ++ str in cr8BTKText a = Some (m, Z.of_nat (length m)).
Proof.
  intros Es El Hlt. unfold cr8BTKText, text_hdr. rewrite Es. cbn [mbind option_bind].
  destruct (Z.ltb_spec (ao_len a) TWO_POW_7); do 2 f_equal; rewrite length_app, ?length_le_bytes; cbn [length];
    rewrite uwrap_small; lia.
Qed.

Lemma text_hdr_bytes n : Forall is_byte (text_hdr n).
Proof.
  unfold text_hdr. case_match; [|apply le_bytes_byte]. constructor; [|constructor].
  pose proof (uwrap_bound 8 (n * 2 + 1)). unfold is_byte. lia.
Qed.

Lemma slice_all m n s : slice m 0 n = Some s -> length s = n.
Proof.
  unfold slice. case_match eqn:E; [|done]. intros [= <-]. apply Nat.leb_le in E.
  rewrite drop_0, length_take. lia.
Qed.

(** The encoded key of a normal tree: what follows it does not matter. *)
Lemma norm_key_enc s v : btype s <> BTREE_INODE -> bflag s = BTFLAG_NONE -> val_ok s v ->
  exists m, createBTKey s v = Some (PMem m, Z.of_nat (length m)) /\ Forall is_byte m /\ m <> [] /\
    forall rest, skipToVal (m ++ rest) (ktype s) = Some (Z.of_nat (length m)) /\
      same_val (ktype s) (convertStream2Key s (PMem (m ++ rest))) v.
Proof.
  intros Hb Hf ((Hi & Hl & Hx) & Hfl & Hin & Hstr).
  destruct (norm_kinds s Hb Hf) as (_ & H1 & H2 & H3 & H4 & H5 & _ & _).
  assert (E : forall p, convertStream2Key s p =
    if C_IS_I (ktype s) then key_i (intkey p) else if C_IS_L (ktype s) then key_l (longkey p)
    else if C_IS_X (ktype s) then key_x (ld 16 0 p) else if C_IS_F (ktype s) then key_f (ld 4 0 p)
    else let '(str, len) := text_at p in key_s (S_MEM str) len).
  { intros p. unfold convertStream2Key. by rewrite H1, H2, H3, H4, H5. }
  unfold createBTKey. rewrite H1, H2, H3, H4, H5. setoid_rewrite E. unfold same_val.
  assert (Hne : forall isi n, enc_col n isi <> []).
  { intros isi n En. apply (f_equal length) in En. pose proof (length_enc_col n isi) as Hlen.
    rewrite En, csize_getCSize in Hlen. pose proof (getCSize_pos n isi). simpl in Hlen. lia. }
  assert (Hsz : forall isi n, csize (cIcol n isi) = Z.of_nat (length (enc_col n isi)))
    by (intros; by rewrite length_enc_col).
  destruct Hin as [Ht|[Ht|[Ht|[Ht|[Ht|[]]]]]]; rewrite <- Ht in *; unfold skipToVal; ctypes; cbn [Z.eqb Pos.eqb].
  - rewrite cr8BTKInt_fits by done. exists (enc_col (ao_i v) true). cbn [fst snd]. rewrite <- csize_getCSize, Hsz.
    split_and!; [done|apply enc_col_byte|apply Hne|]. intros rest.
    rewrite streamIntToUInt_enc, intkey_enc by done. cbn. rewrite <- csize_getCSize, Hsz.
    split_and!; [done|done|by apply uwrap_small].
  - unfold cr8BTKLong, cr8Lcol. cbn [fst snd]. exists (enc_col (ao_l v) false). rewrite Hsz.
    split_and!; [done|apply enc_col_byte|apply Hne|]. intros rest.
    rewrite streamLongToULong_enc, longkey_enc by done. cbn. rewrite <- csize_getCSize, Hsz.
    split_and!; [done|done|by apply uwrap_small].
  - destruct (Hstr eq_refl) as (str & Es & Elen & Hlt & Fs). rewrite (cr8BTKText_enc v str) by done.
    cbn [mbind option_bind fst snd]. eexists. split; [done|]. split.
    { apply Forall_app. split; [apply text_hdr_bytes|done]. }
    split. { unfold text_hdr. destruct (ao_len v <? TWO_POW_7); by cbn. }
    intros rest. rewrite <- app_assoc. rewrite (text_enc (ao_len v) str rest) by done.
    split; [by apply text_skip|]. split; [done|]. unfold ao_str at 1. cbn [key_s ao_s ao_len deref mbind option_bind].
    rewrite Elen, Nat2Z.id. unfold slice. rewrite drop_0, take_app_length, length_app.
    by destruct (Nat.leb_spec (0 + length str) (length str + length rest)); [|lia].
  - exists (le_bytes 4 (ao_f v)). unfold cr8BTKFloat. cbn [fst snd writeFloatCol].
    split; [done|]. split; [apply le_bytes_byte|]. split; [done|]. intros rest.
    unfold streamFloatToFloat. rewrite load_le_bytes by done. split; [done|]. split; [done|]. cbn [key_f ao_f].
    by apply ld_le_bytes.
  - exists (le_bytes 16 (ao_x v)). unfold cr8BTKU128, cr8Xcol, writeU128Col. cbn [fst snd].
    split; [done|]. split; [apply le_bytes_byte|]. split; [done|]. intros rest.
    unfold streamToU128. rewrite load_le_bytes by done. split; [done|]. split; [done|]. cbn [key_x ao_x].
    rewrite ld_le_bytes by done. by apply uwrap_small.
Qed.

(** ** Streams *)

(** A row as [writeRow] lays it out: its header gives its length. *)
Definition row_ok (row : list Z) : Prop :=
  getRowMallocSize (Some row) = Some (Z.of_nat (length row)) /\ Forall is_byte row.

(** A stream of a normal tree: the key, then the value. *)
Lemma norm_stream s v m tail : btype s <> BTREE_INODE -> bflag s = BTFLAG_NONE -> m <> [] ->
  (forall rest, skipToVal (m ++ rest) (ktype s) = Some (Z.of_nat (length m)) /\
      same_val (ktype s) (convertStream2Key s (PMem (m ++ rest))) v) ->
  same_val (ktype s) (convertStream2Key s (PMem (m ++ tail))) v /\
  parseStream s (PMem (m ++ tail)) =
    (if btype s =? BTREE_TABLE then Some (PMem tail) else v ← load 8 tail; Some (PNum v)) /\
  getStreamRowSize s (PMem (m ++ tail)) =
    (vlen ← getStreamVlen s (PMem tail); Some (u32 (Z.of_nat (length m) + vlen))).
Proof.
  intros Hb Hf Hm Hk. destruct (norm_kinds s Hb Hf) as (H1 & _ & _ & _ & H4 & _ & H6 & H7).
  destruct (Hk tail) as [Hskip Hsame]. split; [done|].
  assert (Hup : UP s = false /\ LUP s = false /\ LLP s = false /\ XUP s = false /\ XLP s = false /\ XXP s = false).
  { unfold UP, LUP, LLP, XUP, XLP, XXP. rewrite Hf. by cbn. }
  destruct Hup as (U1 & U2 & U3 & U4 & U5 & U6).
  unfold parseStream, getStreamRowSize. cbn [is_null mem]. rewrite H1, H4, H6, H7, U1, U2, U3, U4, U5, U6.
  rewrite Hskip. cbn [orb mbind option_bind]. rewrite Nat2Z.id, drop_app_length.
  split; [|done]. destruct (btype s =? BTREE_TABLE); [done|].
  by destruct (Z.eqb_spec (btype s) BTREE_INODE).
Qed.

Lemma length_slice_all m : slice m 0 (length m) = Some m.
Proof. unfold slice. cbn [Nat.add]. by rewrite Nat.leb_refl, drop_0, take_ge. Qed.

(** C27: in a normal tree (without flags: not packed, and not the node of an
    index) the stream of a row of a table gives back the key, of any type, and the
    row, and its size is its length; that of an entry of a TEXT or FLOAT index
    gives back the key and the address of the entry's tree. *)
Theorem stream_roundtrip (s : bts_t) (v : aobj) :
  bflag s = BTFLAG_NONE -> btype s <> BTREE_INODE -> val_ok s v ->
  exists btkey ks, createBTKey s v = Some (btkey, ks) /\
    (btype s = BTREE_TABLE ->
     forall row, row_ok row -> ks + Z.of_nat (length row) < 2 ^ 32 ->
     exists st, createStream s (PMem row) btkey ks = Some (st, Z.of_nat (length (mem st))) /\
       parseStream s st = Some (PMem row) /\ same_val (ktype s) (convertStream2Key s st) v /\
       getStreamRowSize s st = Some (Z.of_nat (length (mem st)))) /\
    (btype s <> BTREE_TABLE ->
     forall addr, 0 <= addr < 2 ^ 64 -> ks + 8 < 2 ^ 32 ->
     exists st, createStream s (PNum addr) btkey ks = Some (st, Z.of_nat (length (mem st))) /\
       parseStream s st = Some (PNum addr) /\ same_val (ktype s) (convertStream2Key s st) v).
Proof.
  intros Hf Hb Hv. destruct (norm_key_enc s v Hb Hf Hv) as (m & Ek & _ & Hm & Hk).
  destruct (norm_kinds s Hb Hf) as (H1 & _ & _ & _ & _ & _ & H6 & _).
  exists (PMem m), (Z.of_nat (length m)). split; [done|].
  unfold createStream. rewrite H1, H6. cbn [mem]. rewrite Nat2Z.id, length_slice_all. split.
  - intros Ht row [Hrow Hbytes] Hlt. unfold getStreamVlen at 1. rewrite Ht. cbn [Z.eqb BTREE_TABLE is_null mem].
    rewrite Hrow. cbn [mbind option_bind]. rewrite Nat2Z.id, length_slice_all. cbn [mbind option_bind].
    exists (PMem (m ++ row)). destruct (norm_stream s v m row Hb Hf Hm Hk) as (S1 & S2 & S3).
    rewrite S2, S3, Ht. cbn [mem Z.eqb BTREE_TABLE]. unfold getStreamVlen. rewrite Ht. cbn [Z.eqb BTREE_TABLE is_null mem].
    rewrite Hrow. cbn [mbind option_bind]. rewrite length_app, Nat2Z.inj_add, uwrap_small by lia. done.
  - intros Ht addr Ha Hlt. unfold getStreamVlen. destruct (Z.eqb_spec (btype s) BTREE_TABLE) as [|_]; [done|].
    destruct (Z.eqb_spec (btype s) BTREE_INODE) as [|_]; [done|]. cbn [mbind option_bind].
    exists (PMem (m ++ le_bytes 8 (num (PNum addr)))).
    destruct (norm_stream s v m (le_bytes 8 (num (PNum addr))) Hb Hf Hm Hk) as (S1 & S2 & _).
    rewrite S2. destruct (Z.eqb_spec (btype s) BTREE_TABLE) as [|_]; [done|].
    cbn [mem num]. rewrite length_app, length_le_bytes, Nat2Z.inj_add, (uwrap_small 32) by lia.
    split; [done|]. split; [|done]. rewrite <- (app_nil_r (le_bytes 8 _)).
    by rewrite load_le_bytes, uwrap_small by (rewrite ?uwrap_small; lia).
Qed.

(** ** Packed trees *)

Lemma struct_value s vw p : C_IS_NUM (ktype s) = true -> INODE s = false -> UU s = false ->
  struct_of s = Some (width_of (ktype s), vw) -> key_value s p = st_key (width_of (ktype s)) p.
Proof.
  intros Hn Hi Hu Hs. unfold INODE in Hi. bcases.
  pose proof (ld_bound (width_of (ktype s)) 0 p) as Hb. unfold key_value, convertStream2Key.
  repeat match goal with E : _ = false |- _ => rewrite E; clear E end. rewrite Hs.
  unfold width_of, obt_key, st_key in *.
  destruct (C_IS_I (ktype s)); [by apply uwrap_small|].
  destruct (C_IS_L (ktype s)); by apply uwrap_small.
Qed.

Lemma obj_value_bound s v : ao_ok v -> C_IS_NUM (ktype s) = true ->
  0 <= obj_value s v < 2 ^ (8 * Z.of_nat (width_of (ktype s))).
Proof.
  intros (Hi & Hl & Hx) Hn. unfold obj_value, width_of. destruct (C_IS_I (ktype s)); [done|].
  by destruct (C_IS_L (ktype s)).
Qed.

(** The key of a struct, and the struct made from it. *)
Lemma packed_key s v vw : C_IS_NUM (ktype s) = true -> INODE s = false -> UU s = false ->
  struct_of s = Some (width_of (ktype s), vw) -> ao_ok v ->
  createBTKey s v = Some (st_make (width_of (ktype s)) vw (obj_value s v) 0, VOIDSIZE) /\
  forall x, key_value s (st_make (width_of (ktype s)) vw (st_key (width_of (ktype s))
    (st_make (width_of (ktype s)) vw (obj_value s v) 0)) x) = obj_value s v.
Proof.
  intros Hn Hi Hu Hs Hv. pose proof (obj_value_bound s v Hv Hn) as Hb. split.
  - unfold createBTKey. pose proof Hi as Hi'. unfold INODE in Hi'. bcases.
    repeat match goal with E : _ = false |- _ => rewrite E; clear E end. rewrite Hs.
    by rewrite obt_part_num.
  - intros x. rewrite (struct_value s vw) by done. rewrite !st_key_make; [done|done|].
    by rewrite st_key_make.
Qed.

(** A 16-byte read of the 8-byte value at the end of a struct. *)
Lemma st_val_short kw k v : 0 <= v < 2 ^ 64 -> u64 (st_val kw 16 (st_make kw 8 k v)) = v.
Proof.
  intros Hv. unfold st_val, ld. cbn [mem st_make]. rewrite drop_app_length' by (by rewrite length_le_bytes).
  rewrite take_ge by (rewrite length_le_bytes; lia). rewrite le_num_bytes_small by done.
  rewrite (uwrap_small (8 * Z.of_nat 16)) by lia. by apply uwrap_small.
Qed.

Lemma index_packed kt im bt addr v : C_IS_NUM kt = true -> In bt [BTREE_INDEX; BTREE_MCI; BTREE_MCI_MID] ->
  ao_ok v -> 0 <= addr < 2 ^ 64 ->
  let s := a_spec (createIBT kt im bt) in
  exists k st, createBTKey s v = Some (k, VOIDSIZE) /\
    createStream s (PNum addr) k VOIDSIZE = Some (st, 0) /\
    parseStream s st = Some (PNum addr) /\ key_value s st = obj_value s v.
Proof.
  intros Hn Hbt Hv Ha s.
  assert (Hb : (bt =? BTREE_INODE) = false /\ (bt =? BT_MCI_UNIQ) = false) by
    (destruct Hbt as [<-|[<-|[<-|[]]]]; done).
  destruct Hb as [Hb1 Hb2].
  assert (Hs : C_IS_NUM (ktype s) = true /\ INODE s = false /\ UU s = false /\
    struct_of s = Some (width_of (ktype s), 8%nat) /\ OBYI s || MCI_UNIQ s = false).
  { subst s. destruct (num_cases kt Hn) as [->|[->| ->]]; unfold MCI_UNIQ; cbn [createIBT a_spec];
      (split_and!; [done|by apply not_inode_b|done|done|cbn; by rewrite Hb2]). }
  destruct Hs as (Hsn & Hi & Hu & Hst & Hom).
  destruct (packed_key s v 8 Hsn Hi Hu Hst Hv) as [E1 E2]. eexists _, _. split; [exact E1|].
  assert (E : createStream s (PNum addr) (st_make (width_of (ktype s)) 8 (obj_value s v) 0) VOIDSIZE =
    Some (obt_stream (width_of (ktype s), 8%nat) (st_make (width_of (ktype s)) 8 (obj_value s v) 0) (PNum addr), 0)).
  { unfold createStream, OBT_createStream. rewrite Hi, Hom. subst s.
    destruct (num_cases kt Hn) as [->|[->| ->]]; reflexivity. }
  split; [exact E|]. split; [|apply E2]. unfold parseStream. rewrite Hi, Hu. unfold obt_stream. cbn [is_null orb st_make fst snd].
  assert (Hadr : num (PNum addr) = addr) by (by apply uwrap_small). rewrite Hadr.
  subst s. destruct (num_cases kt Hn) as [->|[->| ->]]; cbn [createIBT a_spec].
  - transitivity (Some (PNum (st_val 4 8 (st_make 4 8 (st_key 4 (st_make 4 8 (ao_i v) 0)) addr)))); [reflexivity|].
    by rewrite st_val_make.
  - transitivity (Some (PNum (st_val 8 8 (st_make 8 8 (st_key 8 (st_make 8 8 (ao_l v) 0)) addr)))); [reflexivity|].
    by rewrite st_val_make.
  - transitivity (Some (PNum (u64 (st_val 16 16 (st_make 16 8 (st_key 16 (st_make 16 8 (ao_x v) 0)) addr)))));
      [reflexivity|]. by rewrite st_val_short.
Qed.

Lemma uu_packed num bt z v : bt <> BTREE_INODE -> ao_ok v -> ao_i v < 2 ^ 31 -> 0 <= z < UINT_MAX ->
  let s := a_spec (createUUBT num bt) in
  exists k st, createBTKey s v = Some (k, VOIDSIZE) /\
    createStream s (PNum z) k VOIDSIZE = Some (st, 0) /\
    parseStream s st = Some (PNum z) /\ key_value s st = obj_value s v /\ key_ok s st = true.
Proof.
  intros Hb (Hi & _ & _) Hlt Hz s.
  assert (HI : INODE s = false) by (apply not_inode_b; cbn; lia).
  pose proof HI as HI'. unfold INODE in HI'. bcases.
  assert (Hk : u64 (ao_i v * UINT_MAX) = ao_i v * UINT_MAX) by (apply uwrap_small; unfold UINT_MAX; lia).
  assert (Hnum : BtKey.num (PNum (u64 (u64 (u64 (ao_i v * UINT_MAX)) + u64 z))) = ao_i v * UINT_MAX + z).
  { cbn [BtKey.num]. rewrite !uwrap_idem, Hk, (uwrap_small 64 z) by (unfold UINT_MAX in *; lia).
    apply uwrap_small. unfold UINT_MAX in *; lia. }
  exists (PNum (u64 (ao_i v * UINT_MAX))), (PNum (u64 (u64 (u64 (ao_i v * UINT_MAX)) + u64 z))).
  assert (Hs64 : s64 (ao_i v * UINT_MAX + z) = ao_i v * UINT_MAX + z) by (apply swrap_small; unfold UINT_MAX in *; lia).
  split. { unfold createBTKey. rewrite H, H0, H1. done. }
  split. { unfold createStream, OBT_createStream. rewrite HI. cbn [OTHER_BT].
    unfold OBYI, MCI_UNIQ. by destruct (btype s =? BT_MCI_UNIQ). }
  split.
  { unfold parseStream. rewrite HI. change (UU s) with true. cbv iota. rewrite Hnum, Hs64.
    destruct (is_null _) eqn:En; cbn [orb].
    - unfold is_null in En. fold (BtKey.num (PNum (u64 (u64 (u64 (ao_i v * UINT_MAX)) + u64 z)))) in En.
      change (u64 (u64 (u64 (u64 (ao_i v * UINT_MAX)) + u64 z))) with
        (BtKey.num (PNum (u64 (u64 (u64 (ao_i v * UINT_MAX)) + u64 z)))) in En.
      rewrite Hnum in En. assert (z = 0) by (unfold UINT_MAX in *; lia). subst z. done.
    - do 2 f_equal. rewrite Z.rem_mod_nonneg by (unfold UINT_MAX in *; lia).
      rewrite Z.add_comm, Z_mod_plus_full, Z.mod_small by done. apply uwrap_small. unfold UINT_MAX in *; lia. }
  split.
  - unfold key_value, obj_value, convertStream2Key. rewrite H, H0, H1. change (UU s) with true. cbv iota.
    cbn [ktype s a_spec createUUBT CREATE_OBT]. change (C_IS_I COL_TYPE_INT) with true. cbv iota. cbn [key_i ao_i].
    rewrite Hnum, Hs64, Z.quot_div_nonneg, Z.div_add_l, Z.div_small by (unfold UINT_MAX in *; lia).
    rewrite Z.add_0_r. by apply uwrap_small.
  - unfold key_ok. rewrite Hnum. change (UU s) with true. change (ksize s =? UINTSIZE) with false. cbv iota.
    apply Z.ltb_lt. unfold UINT_MAX in *; nia.
Qed.

Lemma obt_packed kt vt tm bt a m v : createOBT kt vt tm bt = Some a -> bt <> BTREE_INODE ->
  C_IS_I kt && C_IS_I vt = false -> ao_ok v ->
  let s := a_spec a in
  exists k st kw vw, struct_of s = Some (kw, vw) /\ createBTKey s v = Some (k, VOIDSIZE) /\
    createStream s (PMem m) k VOIDSIZE = Some (st, 0) /\
    parseStream s st = Some st /\ key_value s st = obj_value s v /\
    st_val kw vw st = st_val kw vw (PMem m) /\ is_null st = false.
Proof.
  intros E Hb Hii Hv s.
  assert (Hs : exists vw, C_IS_NUM (ktype s) = true /\ INODE s = false /\ UU s = false /\
    struct_of s = Some (width_of (ktype s), vw) /\ OTHER_BT s = true /\
    UP s = false /\ LUP s = false /\ LLP s = false /\ XUP s = false /\ XLP s = false /\ XXP s = false).
  { subst s. unfold createOBT in E. repeat case_match; try done; injection E as <-;
      (eexists; split_and!; [reflexivity|apply not_inode_b; cbn; lia|reflexivity..]). }
  destruct Hs as (vw & Hn & Hi & Hu & Hst & Ho & U1 & U2 & U3 & U4 & U5 & U6).
  destruct (packed_key s v vw Hn Hi Hu Hst Hv) as [E1 E2].
  eexists _, _, (width_of (ktype s)), vw. split; [done|]. split; [exact E1|].
  assert (Ec : createStream s (PMem m) (st_make (width_of (ktype s)) vw (obj_value s v) 0) VOIDSIZE =
    Some (st_make (width_of (ktype s)) vw (st_key (width_of (ktype s)) (st_make (width_of (ktype s)) vw (obj_value s v) 0))
      (st_val (width_of (ktype s)) vw (PMem m)), 0)).
  { unfold createStream, OBT_createStream. rewrite Hi, Ho, Hst, Hu, U1, U2, U3, U6. cbn [mbind option_bind].
    rewrite andb_false_r. by destruct (OBYI s || MCI_UNIQ s). }
  split; [exact Ec|]. split.
  { unfold parseStream. rewrite Hi, Hu, U1, U2, U3, U4, U5, U6, Ho. done. }
  split; [apply E2|]. split; [|done]. apply st_val_make. apply ld_bound.
Qed.

(** the packed streams give back what they were made from: an index of
    numbers the value and the address of the entry's tree, an INT/INT table both
    numbers when the key is below [2^31] and the value below [2^32 - 1], the other
    two-column tables both values. *)
Theorem packed_roundtrip (v : aobj) : ao_ok v ->
  (forall kt im bt addr, C_IS_NUM kt = true -> In bt [BTREE_INDEX; BTREE_MCI; BTREE_MCI_MID] ->
     0 <= addr < 2 ^ 64 ->
     let s := a_spec (createIBT kt im bt) in
     exists k st, createBTKey s v = Some (k, VOIDSIZE) /\
       createStream s (PNum addr) k VOIDSIZE = Some (st, 0) /\
       parseStream s st = Some (PNum addr) /\ key_value s st = obj_value s v) /\
  (forall num bt z, bt <> BTREE_INODE -> ao_i v < 2 ^ 31 -> 0 <= z < UINT_MAX ->
     let s := a_spec (createUUBT num bt) in
     exists k st, createBTKey s v = Some (k, VOIDSIZE) /\
       createStream s (PNum z) k VOIDSIZE = Some (st, 0) /\
       parseStream s st = Some (PNum z) /\ key_value s st = obj_value s v) /\
  (forall kt vt tm bt a m, createOBT kt vt tm bt = Some a -> bt <> BTREE_INODE ->
     C_IS_I kt && C_IS_I vt = false ->
     let s := a_spec a in
     exists k st kw vw, struct_of s = Some (kw, vw) /\ createBTKey s v = Some (k, VOIDSIZE) /\
       createStream s (PMem m) k VOIDSIZE = Some (st, 0) /\
       parseStream s st = Some st /\ key_value s st = obj_value s v /\
       st_val kw vw st = st_val kw vw (PMem m)).
Proof.
  intros Hv. split; [|split].
  - intros. by apply index_packed.
  - intros num bt z Hb Hlt Hz s. destruct (uu_packed num bt z v Hb Hv Hlt Hz) as (k & st & E1 & E2 & E3 & E4 & _).
    by exists k, st.
  - intros kt vt tm bt a m E Hb Hii s.
    destruct (obt_packed kt vt tm bt a m v E Hb Hii Hv) as (k & st & kw & vw & ? & ? & ? & ? & ? & ? & _).
    by exists k, st, kw, vw.
Qed.

(** ** The order of TEXT keys *)

(** The key of a text, in a search or at the head of a stream. *)
Lemma text_key s v str rest : ktype s = COL_TYPE_STRING -> btype s <> BTREE_INODE -> bflag s = BTFLAG_NONE ->
  ao_str v = Some str -> ao_len v = Z.of_nat (length str) -> ao_len v < 2 ^ 31 ->
  exists m ks, createBTKey s v = Some (PMem m, ks) /\ m = text_hdr (ao_len v) ++ str /\
    (Forall (fun c => c <> 0) str -> txt (PMem (m ++ rest)) = str) /\ txt_len (PMem (m ++ rest)) = ao_len v.
Proof.
  intros Ht Hb Hf Es El Hlt. destruct (norm_kinds s Hb Hf) as (_ & H1 & H2 & H3 & H4 & H5 & _ & _).
  exists (text_hdr (ao_len v) ++ str). eexists. split; [|split; [done|]].
  - unfold createBTKey. rewrite H1, H2, H3, H4, H5, Ht. change (C_IS_S COL_TYPE_STRING) with true. cbv iota.
    rewrite (cr8BTKText_enc v str) by done. done.
  - unfold txt, txt_len. rewrite <- app_assoc, (text_enc _ str rest) by done. cbn [snd]. split; [|done].
    intros Hz. rewrite El, Nat2Z.id, <- app_assoc, take_app_length. by apply cstring_id.
Qed.

(** the comparator of TEXT keys is a total order on the keys of a tree, and on
    the keys, and on the streams, of texts without a NUL it is the lexicographic
    order of their bytes: equal only for equal texts, a prefix before what it
    starts. *)
Theorem text_key_order (a : bt_args) : created_text a ->
  @KeyOrderLaws (key_t (a_spec a)) (key_order a) /\
  forall v1 v2 s1 s2 rest1 rest2,
    ao_str v1 = Some s1 -> ao_len v1 = Z.of_nat (length s1) -> ao_len v1 < 2 ^ 31 ->
    ao_str v2 = Some s2 -> ao_len v2 = Z.of_nat (length s2) -> ao_len v2 < 2 ^ 31 ->
    Forall is_byte (s1 ++ rest1) -> Forall is_byte (s2 ++ rest2) ->
    Forall (fun c => c <> 0) s1 -> Forall (fun c => c <> 0) s2 ->
    exists m1 m2 ks1 ks2, createBTKey (a_spec a) v1 = Some (PMem m1, ks1) /\
      createBTKey (a_spec a) v2 = Some (PMem m2, ks2) /\
      Z.sgn (a_cmp a (PMem (m1 ++ rest1)) (PMem (m2 ++ rest2))) = lex s1 s2.
Proof.
  intros Hc. split; [by apply text_laws|]. intros v1 v2 s1 s2 r1 r2 E1 L1 B1 E2 L2 B2 F1 F2 N1 N2.
  destruct (created_text_spec a Hc) as (Hcmp & Ht & Hf & _ & Hb).
  destruct (text_key (a_spec a) v1 s1 r1 Ht Hb Hf E1 L1 B1) as (m1 & ks1 & K1 & M1 & T1 & TL1).
  destruct (text_key (a_spec a) v2 s2 r2 Ht Hb Hf E2 L2 B2) as (m2 & ks2 & K2 & M2 & T2 & TL2).
  exists m1, m2, ks1, ks2. split; [done|]. split; [done|]. rewrite Hcmp, btTextCmp_sgn.
  - unfold text_cmp. rewrite T1, T2, TL1, TL2 by done. destruct (Z.eqb_spec (lex s1 s2) 0) as [E|]; [|done].
    rewrite E. apply lex_eq in E. subst s2. lia.
  - cbn [mem]. rewrite M1, <- app_assoc. apply Forall_app. split; [apply text_hdr_bytes|done].
  - cbn [mem]. rewrite M2, <- app_assoc. apply Forall_app. split; [apply text_hdr_bytes|done].
Qed.

(** ** The domain of the numeric keys *)

(** An INT key in the node of an index, compared with itself as stored there. *)
Lemma node_key_cmp z : 0 <= z < 2 ^ 32 ->
  let node := Bts COL_TYPE_INT BTREE_INODE UINTSIZE BTFLAG_NONE 65535 in
  if z <? 2 ^ 31 then uintCmp (PNum z) (stored node (PNum z)) = 0 else uintCmp (PNum z) (stored node (PNum z)) < 0.
Proof.
  intros Hz node.
  assert (Hst : stored node (PNum z) = PNum (u64 (s32 z))).
  { unfold stored, node. cbn [ksize]. change (UINTSIZE =? UINTSIZE) with true. cbv iota. cbn [BtKey.num].
    by rewrite (uwrap_small 64 z) by lia. }
  assert (Hs : s32 z = if z <? 2 ^ 31 then z else z - 2 ^ 32).
  { unfold swrap. rewrite uwrap_small by lia. done. }
  rewrite Hst, Hs. destruct (Z.ltb_spec z (2 ^ 31)); unfold uintCmp, ulongCmp; cbn [BtKey.num].
  - apply cmp3_eq. by rewrite uwrap_idem.
  - apply cmp3_lt. rewrite uwrap_idem. rewrite (uwrap_small 64 z) by lia. unfold uwrap. dlia.
Qed.

(** An INT/INT table: the key of a search, what a stream gives back as its key,
    and the stream of the largest value. *)
Lemma uu_key num bt v : bt <> BTREE_INODE -> let uu := a_spec (createUUBT num bt) in
  createBTKey uu v = Some (PNum (u64 (ao_i v * UINT_MAX)), VOIDSIZE) /\
  (forall p, ao_i (convertStream2Key uu p) = u32 (Z.quot (s64 (BtKey.num p)) UINT_MAX)).
Proof.
  intros Hb uu. assert (HI : INODE uu = false) by (apply not_inode_b; cbn; lia).
  unfold INODE in HI. bcases. split; [|intros p]; unfold createBTKey, convertStream2Key; by rewrite H, H0, H1.
Qed.
Lemma uu_max_value num bt v : bt <> BTREE_INODE -> 0 < ao_i v < 2 ^ 31 - 1 -> let uu := a_spec (createUUBT num bt) in
  let k := PNum (u64 (ao_i v * UINT_MAX)) in
  exists st, createStream uu (PNum UINT_MAX) k VOIDSIZE = Some (st, 0) /\ BtKey.num st = (ao_i v + 1) * UINT_MAX /\
    parseStream uu st = Some (PNum 0).
Proof.
  intros Hb Hlt uu k. set (st := PNum (u64 (u64 (u64 (ao_i v * UINT_MAX)) + u64 UINT_MAX))). exists st.
  assert (HI : INODE uu = false) by (apply not_inode_b; cbn; lia).
  assert (Hn : BtKey.num st = (ao_i v + 1) * UINT_MAX).
  { unfold st. cbn [BtKey.num]. rewrite !uwrap_idem, (uwrap_small 64 (ao_i v * UINT_MAX)), (uwrap_small 64 UINT_MAX)
      by (unfold UINT_MAX; lia). rewrite uwrap_small by (unfold UINT_MAX; lia). lia. }
  split. { unfold createStream, OBT_createStream. rewrite HI. unfold OBYI, MCI_UNIQ. by destruct (btype uu =? BT_MCI_UNIQ). }
  split; [done|]. unfold parseStream. rewrite HI. change (UU uu) with true. cbv iota.
  assert (E : s64 ((ao_i v + 1) * UINT_MAX) = (ao_i v + 1) * UINT_MAX) by (apply swrap_small; unfold UINT_MAX; lia).
  rewrite Hn, E. destruct (is_null st) eqn:En; cbn [orb].
  - exfalso. unfold is_null, st in En. apply Z.eqb_eq in En. change (BtKey.num st = 0) in En.
    rewrite Hn in En. unfold UINT_MAX in En. lia.
  - by rewrite Z.rem_mul by done.
Qed.

(** C36: outside their domain numeric keys go wrong.  An INT of [2^31] or more in
    the node of an index is stored sign-extended and never compares equal to the
    key of a search for it.  In an INT/INT table a key above [2^31] reads back one
    too low, and the value [2^32 - 1] reads back as 0 under the next key. *)
Theorem numeric_key_domain (num bt : Z) (v : aobj) : ao_ok v -> bt <> BTREE_INODE ->
  let node := Bts COL_TYPE_INT BTREE_INODE UINTSIZE BTFLAG_NONE 65535 in
  let uu := a_spec (createUUBT num bt) in
  createIndexNode COL_TYPE_INT COL_TYPE_NONE = Some (BtArgs uintCmp node false) /\
  (2 ^ 31 <= ao_i v -> exists k ks, createBTKey node v = Some (k, ks) /\ uintCmp k (stored node k) < 0) /\
  (ao_i v < 2 ^ 31 -> exists k ks, createBTKey node v = Some (k, ks) /\ uintCmp k (stored node k) = 0) /\
  (2 ^ 31 < ao_i v -> exists k ks, createBTKey uu v = Some (k, ks) /\
     ao_i (convertStream2Key uu k) = ao_i v - 1) /\
  (0 < ao_i v < 2 ^ 31 - 1 -> exists k ks st sz, createBTKey uu v = Some (k, ks) /\
     createStream uu (PNum UINT_MAX) k ks = Some (st, sz) /\
     parseStream uu st = Some (PNum 0) /\ ao_i (convertStream2Key uu st) = ao_i v + 1).
Proof.
  intros (Hi & _ & _) Hb node uu. destruct (uu_key num bt v Hb) as [Huu Hconv]. fold uu in Huu, Hconv.
  pose proof (node_key_cmp (ao_i v) Hi) as Hn. split; [done|]. split_and!.
  - intros Hge. exists (PNum (ao_i v)), VOIDSIZE. split; [done|]. by destruct (Z.ltb_spec (ao_i v) (2 ^ 31)); [lia|].
  - intros Hlt. exists (PNum (ao_i v)), VOIDSIZE. split; [done|]. by destruct (Z.ltb_spec (ao_i v) (2 ^ 31)); [|lia].
  - intros Hgt. eexists _, _. split; [exact Huu|]. rewrite Hconv. cbn [BtKey.num]. rewrite uwrap_idem.
    rewrite (uwrap_small 64) by (unfold UINT_MAX; lia).
    assert (E : s64 (ao_i v * UINT_MAX) = ao_i v * UINT_MAX - 2 ^ 64).
    { unfold swrap. rewrite uwrap_small by (unfold UINT_MAX; lia). unfold UINT_MAX. zcases; lia. }
    rewrite E. assert (Q : Z.quot (ao_i v * UINT_MAX - 2 ^ 64) UINT_MAX = ao_i v - 1 - 2 ^ 32) by (unfold UINT_MAX; dlia).
    rewrite Q. unfold uwrap. dlia.
  - intros Hlt. destruct (uu_max_value num bt v Hb Hlt) as (st & E1 & E2 & E3). eexists _, _, st, 0.
    split; [exact Huu|]. split; [exact E1|]. split; [exact E3|].
    assert (E : s64 ((ao_i v + 1) * UINT_MAX) = (ao_i v + 1) * UINT_MAX) by (apply swrap_small; unfold UINT_MAX; lia).
    rewrite Hconv, E2, E, Z.quot_mul by done. apply uwrap_small; lia.
Qed.

(** ** Witnesses *)

(** A table with TEXT keys, the key "ab" and a row of one column. *)
Definition text_table : bt_args := createDBT COL_TYPE_STRING 0 3 COL_TYPE_INT false.
Definition text_obj (str : list Z) : aobj := initAobjString (S_MEM str) (Z.of_nat (length str)).

Lemma stream_roundtrip_witness :
  exists btkey ks st, createBTKey (a_spec text_table) (text_obj [97; 98]) = Some (btkey, ks) /\
    createStream (a_spec text_table) (PMem [1; 3; 1; 65]) btkey ks = Some (st, Z.of_nat (length (mem st))) /\
    parseStream (a_spec text_table) st = Some (PMem [1; 3; 1; 65]) /\
    ao_str (convertStream2Key (a_spec text_table) st) = Some [97; 98].
Proof.
  destruct (stream_roundtrip (a_spec text_table) (text_obj [97; 98])) as (btkey & ks & E & Ht & _).
  - reflexivity.
  - discriminate.
  - split; [unfold ao_ok; cbn; lia|]. split; [cbn; lia|]. split; [right; right; by left|]. intros _. exists [97; 98].
    split_and!; [reflexivity|reflexivity|vm_compute; reflexivity|repeat constructor; unfold is_byte; lia].
  - destruct (Ht eq_refl [1; 3; 1; 65]) as (st & E1 & E2 & [_ E3] & _).
    + split; [reflexivity|repeat constructor; unfold is_byte; lia].
    + vm_compute in E. injection E as <- <-. cbn. lia.
    + exists btkey, ks, st. split_and!; [exact E|exact E1|exact E2|exact E3].
Defined.

Lemma packed_roundtrip_witness :
  exists k st, createBTKey (a_spec (createUUBT 0 BTREE_TABLE)) (initAobjInt 7) = Some (k, VOIDSIZE) /\
    createStream (a_spec (createUUBT 0 BTREE_TABLE)) (PNum 5) k VOIDSIZE = Some (st, 0) /\
    parseStream (a_spec (createUUBT 0 BTREE_TABLE)) st = Some (PNum 5) /\
    key_value (a_spec (createUUBT 0 BTREE_TABLE)) st = 7.
Proof.
  destruct (packed_roundtrip (initAobjInt 7) (int_obj_ok 7)) as (_ & H & _).
  apply (H 0 BTREE_TABLE 5); [discriminate|vm_compute; reflexivity|unfold UINT_MAX; lia].
Defined.

Lemma text_key_order_witness :
  exists m1 m2 ks1 ks2, createBTKey (a_spec text_table) (text_obj [97; 98]) = Some (PMem m1, ks1) /\
    createBTKey (a_spec text_table) (text_obj [97]) = Some (PMem m2, ks2) /\
    Z.sgn (a_cmp text_table (PMem (m1 ++ [1])) (PMem (m2 ++ [98]))) = 1.
Proof.
  destruct (text_key_order text_table (created_text_table 0 3 COL_TYPE_INT false)) as [_ H].
  apply (H (text_obj [97; 98]) (text_obj [97]) [97; 98] [97] [1] [98]);
    first [reflexivity | repeat constructor; unfold is_byte; lia].
Defined.

Lemma numeric_key_domain_witness :
  exists k ks, createBTKey (Bts COL_TYPE_INT BTREE_INODE UINTSIZE BTFLAG_NONE 65535) (initAobjInt 3000000000)
      = Some (k, ks) /\
    uintCmp k (stored (Bts COL_TYPE_INT BTREE_INODE UINTSIZE BTFLAG_NONE 65535) k) < 0.
Proof.
  destruct (numeric_key_domain 0 BTREE_TABLE (initAobjInt 3000000000)) as (_ & H & _);
    [apply int_obj_ok|discriminate|]. apply H. vm_compute. discriminate.
Defined.
