(* ===== verification/Abt.v ===== *)
(** * Trees of rows and of index entries ([DB/bt.c])

    The operations the rest of the program calls: a key is made from an [aobj],
    a stream from the key and the value, and the tree searches, inserts, replaces
    or deletes it.  A tree has the small node size: [DB/bt.h] defines
    [TEST_WITH_TRANS_ONE_ONLY], which compiles out the only call of [abt_resize].
    On a tree with lawful keys and without evicted rows these operations are those
    of a finite map from the numbers of the keys to the values; for deletion the
    tree must keep the key it deletes ([kept]), for replacement in a normal tree
    its slots must be pointers ([located]). *)

From stdpp Require Import gmap.
From S2P Require Import Prelude Stream CStr Row Aobj BtSearch DirtyStream Btree BtInsert BtDelete BtOps BtIter BtScan BtKey BtKeyLaws BtStream.

Section Abt.
Context (a : bt_args).
#[local] Abbreviation s := (a_spec a).
#[local] Instance abt_order : KeyOrder (key_t (a_spec a)) := key_order a.
#[local] Instance abt_ops : KeyOps (key_t (a_spec a)) := key_ops (a_spec a).

(** A tree and its node size: [TRANS_ONE] or [TRANS_TWO]. *)
Record abt := Abt { tree : bt (key_t (a_spec a)); trans_one : bool }.

Definition tt (x : abt) : nat := Z.to_nat (bt_t (trans_one x)).
Definition nb (x : abt) : Z := default 0 (bt_nbits (trans_one x)).

Definition abt_create : abt := Abt (bt_create (a_dirty a)) true.

(** The body of an operation after [DECLARE_BT_KEY]: a NULL key returns [ret]. *)
Definition with_key {A} (akey : aobj) (ret : A) (f : key_t s -> Z -> option A) : option A :=
  '(btkey, ks) ← createBTKey s akey;
  if is_null btkey then Some ret else k ← key_of s btkey; f k ks.

(** The number [key_covers_miss] looks for. *)
Definition qkey (akey : aobj) : Z := if C_IS_I (ktype s) then ao_i akey else ao_l akey.

Definition abt_find (x : abt) (akey : aobj) : option cptr :=
  with_key akey NULL (fun k _ =>
    r ← bt_find (nb x) (tree x) k (qkey akey);
    parseStream s (match r with Some st => ptr st | None => NULL end)).

Definition abt_exist (x : abt) (akey : aobj) : option bool :=
  with_key akey false (fun k _ => bt_exist (nb x) (tree x) k (qkey akey)).

(** The value and whether the key is among evicted rows. *)
Definition abt_find_d (x : abt) (akey : aobj) : option (cptr * bool) :=
  with_key akey (NULL, false) (fun k _ =>
    dwm ← findnodekey (nb x) (tree x) k (qkey akey);
    v ← parseStream s (match dwm_k dwm with Some st => ptr st | None => NULL end);
    Some (v, dwm_miss dwm)).

(** [destroyStream] of a returned key.  Memory that has been freed cannot be read,
    but nothing is read where the streams are not allocated. *)
Definition destroy_returned (st : option (key_t s)) : option (bool * Z) :=
  match st with
  | Some st => destroyStream s (ptr st)
  | None => if INODE s || OTHER_BT s then Some (false, 0) else None
  end.

(** The tree afterwards and whether a stream was freed. *)
Definition abt_del (x : abt) (akey : aobj) : option (abt * bool) :=
  with_key akey (x, false) (fun k _ =>
    '(b, st, _) ← bt_delete (tt x) (nb x) (tree x) k;
    '(freed, _) ← destroy_returned st;
    Some (Abt b (trans_one x), freed)).

Definition abt_evict (x : abt) (akey : aobj) : option (abt * bool) :=
  with_key akey (x, false) (fun k _ =>
    '(b, st) ← bt_evict (tt x) (nb x) (tree x) k;
    '(freed, _) ← destroy_returned st;
    Some (Abt b (trans_one x), freed)).

Definition abt_get_dr (x : abt) (akey : aobj) : option Z :=
  with_key akey 0 (fun k _ => bt_get_dr (nb x) (tree x) k (qkey akey)).

(** The tree afterwards and the size of the stream. *)
Definition abt_insert (x : abt) (akey : aobj) (val : cptr) : option (abt * Z) :=
  with_key akey (x, 0) (fun k ks =>
    '(st, ssize) ← createStream s val (ptr k) ks;
    st ← key_of s st;
    b ← bt_insert (tt x) (nb x) (tree x) st 0;
    Some (Abt b (trans_one x), ssize)).

(** In a normal tree the new stream takes the place of the old one, copied over
    it or instead of its pointer; the old one is read without a test for NULL.
    [bt_find_loc] addresses the slots as pointers: they are in the tables and the
    indexes the program calls it on, and not in the nodes of INT and U128 keys
    ([located]). *)
Definition abt_replace (x : abt) (akey : aobj) (val : cptr) : option (abt * Z) :=
  with_key akey (x, 0) (fun k ks =>
    '(nst, ssize) ← createStream s val (ptr k) ks;
    nstream ← key_of s nst;
    if NORM_BT s then
      loc ← bt_find_loc (nb x) (tree x) k;
      p ← loc;
      ostream ← key_at (root (tree x)) p.1 p.2;
      osize ← getStreamMallocSize s (ptr ostream);
      nsize ← getStreamMallocSize s (ptr nstream);
      '(b, _) ← bt_replace (nb x) (tree x) k nstream;
      Some (Abt b (trans_one x), ssize)
    else
      '(b, dstream) ← bt_replace (nb x) (tree x) k nstream;
      '(_, _) ← destroyStream s (match dstream with Some st => ptr st | None => NULL end);
      Some (Abt b (trans_one x), ssize)).

(** ** The public operations *)

Definition btAdd := abt_insert.
Definition btReplace := abt_replace.
Definition btFind := abt_find.
Definition btDelete := abt_del.
Definition btFindD := abt_find_d.
Definition btEvict := abt_evict.
Definition btGetDR := abt_get_dr.

(** The value of an index entry is the address of its tree. *)
Definition btIndAdd (x : abt) (ikey : aobj) (nbtr : Z) : option abt :=
  '(x, _) ← abt_insert x ikey (PNum nbtr); Some x.
Definition btIndFind := abt_find.
Definition btIndExist := abt_exist.
Definition btIndDelete (x : abt) (ikey : aobj) : option (abt * Z) :=
  '(x, _) ← abt_del x ikey; Some (x, numkeys (tree x)).
Definition btIndNull (x : abt) (ikey : aobj) : option (abt * Z) :=
  '(x, _) ← abt_replace x ikey NULL; Some (x, numkeys (tree x)).

Definition btIndNodeExist := abt_exist.

(** What [iAddUniq] passes to [btAdd] for the value [apk]: the number itself for
    an INT/INT tree, else a static struct of the tree's kind with that [val]. *)
Definition uniq_val (pktyp : Z) (apk : aobj) : option cptr :=
  if C_IS_I pktyp && UU s then Some (PNum (ao_i apk))
  else
    kv ← (if C_IS_I pktyp then Some (if LU s then (8, 4) else (16, 4))
          else if C_IS_L pktyp then Some (if UL s then (4, 8) else if LL s then (8, 8) else (16, 8))
          else Some (if UX s then (4, 16) else if LX s then (8, 16) else (16, 16)))%nat;
    Some (st_make kv.1 kv.2 0 (obt_part kv.2 apk)).
Definition iAddUniq (x : abt) (pktyp : Z) (apk acol : aobj) : option abt :=
  v ← uniq_val pktyp apk; '(x, _) ← btAdd x acol v; Some x.

(** [false] is the violation of the order-by index. *)
Definition btIndNodeAdd (x : abt) (apk : aobj) (ocol : option aobj) : option (abt * bool) :=
  match ocol with
  | Some ocol =>
      found ← abt_find x ocol;
      if negb (is_null found) then Some (x, false)
      else x ← iAddUniq x (ao_type apk) apk ocol; Some (x, true)
  | None => '(x, _) ← abt_insert x apk NULL; Some (x, true)
  end.
Definition btIndNodeDelete (x : abt) (apk : aobj) (ocol : option aobj) : option (abt * Z) :=
  '(x, _) ← abt_del x (default apk ocol); Some (x, numkeys (tree x)).
Definition btIndNodeEvict (x : abt) (apk : aobj) (ocol : option aobj) : option (abt * Z) :=
  '(x, _) ← abt_evict x (default apk ocol); Some (x, numkeys (tree x)).
End Abt.

(** ** A tree refines a finite map *)

Section Refine.
Context (a : bt_args) (Ha : lawful a).
#[local] Abbreviation s := (a_spec a).
#[local] Existing Instance abt_order.
#[local] Existing Instance abt_ops.
#[local] Instance abt_laws : KeyOrderLaws (key_t (a_spec a)) := lawful_order a Ha.

Lemma abt_params (x : abt a) : bt_params (tt a x) (nb a x).
Proof.
  unfold tt, nb. destruct x as [b []]; cbn [trans_one];
    (split; [vm_compute; lia|vm_compute; by auto|vm_compute; discriminate]).
Qed.
Lemma abt_params2 : bt_params (Z.to_nat (bt_t false)) (default 0 (bt_nbits false)).
Proof. apply (abt_params (Abt a (bt_create false) false)). Qed.

(** The number a key is stored under. *)
Definition kn (k : key_t s) : Z := key_value s (ptr k).

(** A key the tree can search for. *)
Definition searchable (v : aobj) : Prop :=
  ao_ok v /\ exists (k : key_t s) ks, createBTKey s v = Some (ptr k, ks) /\ is_null (ptr k) = false.

Lemma searchable_key v : searchable v ->
  exists k ks, kn k = obj_value s v /\ createBTKey s v = Some (ptr k, ks) /\
    forall A ret (f : key_t s -> Z -> option A), with_key a v ret f = f k ks.
Proof.
  intros [Hv (k & ks & E & Hn)]. exists k, ks. split_and!; [|done|].
  - unfold kn. apply (lw_mk a Ha v (ptr k) ks Hv E). apply (proj2_sig k).
  - intros A ret f. unfold with_key. rewrite E. cbn [mbind option_bind]. rewrite Hn.
    destruct (key_of_ok s (ptr k) (proj2_sig k)) as (k' & -> & Hp). cbn [mbind option_bind].
    destruct k as [p H], k' as [p' H']. cbn in Hp. subst p'.
    by rewrite (Eqdep_dec.UIP_dec bool_dec H H').
Qed.

Lemma cmp_kn (k1 k2 : key_t s) : cmp k1 k2 = 0 <-> kn k1 = kn k2.
Proof.
  destruct k1 as [p1 H1], k2 as [p2 H2]. pose proof (lw_cmp a Ha p1 p2 H1 H2) as E.
  unfold kn. cbn [ptr proj1_sig]. unfold cmp, abt_order, key_order. cbn [ptr proj1_sig]. lia.
Qed.

(** A deleted key outlives its slot. *)
Definition kept : bool := rep_kept (key_rep_of s).

(** A slot of a normal tree is a pointer to a stream. *)
Definition located : bool := negb (NORM_BT s) || (ksize s =? VOIDSIZE).

(** A value that can be stored under a key and reads back as [r]. *)
Definition stores (v : aobj) (val r : cptr) : Prop :=
  searchable v /\ forall k ks, createBTKey s v = Some (k, ks) ->
    exists (st : key_t s) sz, createStream s val k ks = Some (ptr st, sz) /\ parseStream s (ptr st) = Some r /\
      kn st = obj_value s v /\ getStreamMallocSize s (ptr st) <> None.

(** The tree holds the map: every entry is a key of the tree with its value, and
    the size of every stream can be computed. *)
Record holds (x : abt a) (m : gmap Z cptr) : Prop := {
  h_wf : bt_wf (tt a x) (tree a x);
  h_dirty : dirty_left (tree a x) = 0;
  h_map : forall n r, m !! n = Some r <->
    exists k, k ∈ inorder (root (tree a x)) /\ kn k = n /\ parseStream s (ptr k) = Some r;
  h_parse : forall k, k ∈ inorder (root (tree a x)) ->
    (exists r, parseStream s (ptr k) = Some r) /\ getStreamMallocSize s (ptr k) <> None;
}.

Lemma holds_assoc x m k : holds x m ->
  match assoc k (inorder (root (tree a x))) with
  | Some st => st ∈ inorder (root (tree a x)) /\ kn st = kn k /\
      exists r, parseStream s (ptr st) = Some r /\ m !! kn k = Some r
  | None => m !! kn k = None
  end.
Proof.
  intros H. destruct (assoc k _) as [st|] eqn:E.
  - apply assoc_Some in E as [Hin Hc]. apply cmp_kn in Hc. destruct (h_parse x m H st Hin) as [(r & Hr) _].
    split_and!; [done|done|]. exists r. split; [done|]. apply (h_map x m H). by exists st.
  - apply assoc_differs in E. destruct (m !! kn k) as [r|] eqn:Em; [exfalso|done].
    apply (h_map x m H) in Em as (k' & Hin & Hk & _). unfold differs in E. rewrite Forall_forall in E.
    by apply (E k' Hin), cmp_kn.
Qed.

Lemma find_holds x m v : holds x m -> searchable v ->
  abt_find a x v = Some (default NULL (m !! obj_value s v)) /\
  abt_exist a x v = Some (bool_decide (is_Some (m !! obj_value s v))).
Proof.
  intros H Hv. destruct (searchable_key v Hv) as (k & ks & Hk & _ & Hf). unfold abt_find, abt_exist. rewrite !Hf.
  rewrite (find_ok (tt a x) (nb a x) (abt_params x) (tree a x) k _ (h_wf x m H)). cbn [mbind option_bind].
  destruct (h_wf x m H) as ((h & Hwf) & Hs & _). unfold bt_exist. rewrite (wf_height _ _ h _ Hwf).
  pose proof (holds_assoc x m k H) as Hk'. rewrite Hk in Hk'.
  rewrite (bt_exist_spec (tt a x) (nb a x) (abt_params x) k (qkey a v) (S h) _ h _ (-1) Hwf Hs) by lia.
  destruct (assoc k _) as [st|] eqn:E.
  - destruct Hk' as (_ & _ & r & -> & ->). done.
  - rewrite Hk'. split; [|done]. done.
Qed.

(** On a tree without evicted rows nothing is missing, and a key that is there
    has no evicted rows behind it. *)
Lemma find_d_holds x m v : holds x m -> searchable v ->
  abt_find_d a x v = Some (default NULL (m !! obj_value s v), false) /\
  (is_Some (m !! obj_value s v) -> abt_get_dr a x v = Some 0).
Proof.
  intros H Hv. destruct (searchable_key v Hv) as (k & ks & Hk & _ & Hf).
  destruct (h_wf x m H) as ((h & Hwf) & Hs & _). unfold abt_find_d, abt_get_dr, bt_get_dr, findnodekey. rewrite !Hf.
  rewrite (wf_height _ _ h _ Hwf). pose proof (holds_assoc x m k H) as Hk'. rewrite Hk in Hk'.
  destruct (findnodekey_spec (tt a x) (nb a x) (abt_params x) k (qkey a v) (S h) _ h (root (tree a x)) (-1)
    (root (tree a x)) 0 (Dwm None false (root (tree a x)) 0 (root (tree a x)) 0) Hwf Hs) as (dwm & -> & E1 & E2 & E3);
    [done|lia|]. cbn [mbind option_bind]. rewrite E1, E2 in *. split.
  - destruct (assoc k _) as [st|]; [destruct Hk' as (_ & _ & r & -> & ->); done|by rewrite Hk'].
  - intros [r0 Hr0]. destruct (assoc k _) as [st|]; [|congruence]. destruct (E3 ltac:(done)) as [Hc Hi].
    destruct (Z.ltb_spec (dwm_i dwm) 0); [lia|]. by apply getDR_clean.
Qed.

Lemma absent_differs x m (st : key_t s) : holds x m -> m !! kn st = None ->
  differs st (inorder (root (tree a x))).
Proof.
  intros H Hm. apply Forall_forall. intros k Hin Hc. apply cmp_kn in Hc.
  destruct (h_parse x m H k Hin) as [(r & Hr) _].
  assert (m !! kn st = Some r) by (apply (h_map x m H); by exists k). congruence.
Qed.

(** Adding an absent key. *)
Lemma insert_holds x m v val r : holds x m -> stores v val r -> m !! obj_value s v = None ->
  exists x' sz, abt_insert a x v val = Some (x', sz) /\ holds x' (<[obj_value s v := r]> m).
Proof.
  intros H [Hv Hst] Hm. destruct (searchable_key v Hv) as (k & ks & Hk & Ek & Hf).
  destruct (Hst (ptr k) ks Ek) as (st & sz & Ec & Ep & Hn & Hd).
  unfold abt_insert. rewrite Hf, Ec. cbn [mbind option_bind].
  destruct (key_of_ok s (ptr st) (proj2_sig st)) as (st' & -> & Hp). cbn [mbind option_bind].
  assert (st' = st) as ->.
  { destruct st as [p1 Q1], st' as [p2 Q2]. cbn in Hp. subst p2. f_equal. apply Eqdep_dec.UIP_dec, bool_dec. }
  rewrite <- Hn in *. pose proof (absent_differs x m st H Hm) as Hdiff.
  destruct (insert_ok _ _ (abt_params x) (tree a x) st (h_wf x m H) Hdiff) as (b & -> & Hb & Ei & _ & El & _).
  cbn [mbind option_bind]. eexists _, _. split; [done|]. split; cbn [tree]; [done| | |].
  - rewrite El. apply H.
  - intros n r'. rewrite Ei. setoid_rewrite elem_of_ins. rewrite lookup_insert_Some. split.
    + intros [[<- <-]|[Hne Hr]]; [exists st; auto|]. apply (h_map x m H) in Hr as (k' & ? & ?). exists k'. auto.
    + intros (k' & [->|Hin] & Hn' & Hr).
      * left. split; [done|]. congruence.
      * right. assert (Hr' : m !! n = Some r') by (apply (h_map x m H); by exists k').
        split; [|done]. intros <-. congruence.
  - intros k'. rewrite Ei, elem_of_ins. intros [->|Hin]; [split; [by exists r|done]|by apply (h_parse x m H)].
Qed.

(** The other keys of a tree have other numbers. *)
Lemma others k st x m : holds x m -> assoc k (inorder (root (tree a x))) = Some st ->
  exists l1 l2, inorder (root (tree a x)) = l1 ++ st :: l2 /\ differs k l1 /\
    forall k', k' ∈ l1 ++ l2 -> kn k' <> kn k.
Proof.
  intros H E. destruct (del_split k _ st E) as (l1 & l2 & Eall & _). exists l1, l2.
  pose proof (proj1 (proj2 (h_wf x m H))) as Hs. rewrite Eall in Hs.
  apply assoc_Some in E as [_ Ec]. destruct (sorted_around l1 l2 k st Hs Ec) as [D1 D2].
  split_and!; [done|done|]. unfold differs in *. rewrite Forall_forall in D1, D2. intros k' Hk' Heq.
  apply elem_of_app in Hk' as [Hk'|Hk']; [eapply D1|eapply D2]; try exact Hk'; by apply cmp_kn.
Qed.

Lemma destroy_ok p : getStreamMallocSize s p <> None -> exists freed n, destroyStream s p = Some (freed, n).
Proof.
  intros Hd. unfold destroyStream. destruct (_ || _ || _); [by eexists _, _|].
  destruct (getStreamMallocSize s p); [by eexists _, _|done].
Qed.

(** The stream of a deleted key is read only in a tree of words. *)
Lemma destroy_returned_ok kd st : kept = true -> (key_rep_of s = REP_WORD -> kd = Some st) ->
  getStreamMallocSize s (ptr st) <> None -> exists freed n, destroy_returned a kd = Some (freed, n).
Proof.
  unfold kept. intros Hk Hkd Hd. destruct (key_rep_of s) eqn:E; try done.
  - rewrite (Hkd eq_refl). by apply destroy_ok.
  - assert (Ho : OTHER_BT s = true).
    { unfold key_rep_of, BIG_BT in E. unfold OTHER_BT. repeat case_match; try done. lia. }
    exists false, 0. unfold destroy_returned, destroyStream. rewrite Ho. destruct kd; by rewrite !orb_true_r.
Qed.

(** Deleting a present one. *)
Lemma delete_holds x m v : kept = true -> holds x m -> searchable v -> is_Some (m !! obj_value s v) ->
  exists x' freed, abt_del a x v = Some (x', freed) /\ holds x' (delete (obj_value s v) m).
Proof.
  intros Hkept H Hv [r0 Hm]. destruct (searchable_key v Hv) as (k & ks & Hk & Ek & Hf).
  unfold abt_del. rewrite Hf. pose proof (holds_assoc x m k H) as Hk'.
  destruct (assoc k _) as [st|] eqn:E; [|congruence]. destruct Hk' as (Hin & Hkn & r & Hr & Hmr).
  assert (Hrep : rep_kept (@key_rep (key_t s) _) = true) by exact Hkept.
  destruct (delete_ok _ _ (abt_params x) Hrep (tree a x) k st (h_wf x m H) E)
    as (b & kd & -> & Hkd & Hb & Ei & _ & El & _).
  cbn [mbind option_bind]. destruct (h_parse x m H st Hin) as [_ Hd].
  destruct (destroy_returned_ok kd st Hkept Hkd Hd) as (freed & n0 & ->). cbn [mbind option_bind].
  eexists _, _. split; [done|].
  destruct (others k st x m H E) as (l1 & l2 & Eall & Hdiff & Hother).
  assert (Edel : del k (inorder (root (tree a x))) = l1 ++ l2).
  { rewrite Eall. apply (del_mid k l1 l2 st); [done|]. by apply assoc_Some in E as [_ ?]. }
  split; cbn [tree]; [done| | |]; rewrite ?Ei, ?Edel.
  - rewrite El, (h_dirty x m H). done.
  - intros n r'. rewrite lookup_delete_Some. rewrite (h_map x m H), Eall. split.
    + intros (Hne & k' & Hk' & Hn' & Hr'). exists k'. split_and!; try done.
      rewrite elem_of_app, elem_of_cons in *. destruct Hk' as [?|[->|?]]; auto. congruence.
    + intros (k' & Hk' & Hn' & Hr'). split; [intros <-; by apply (Hother k'); congruence|].
      exists k'. split_and!; try done. rewrite elem_of_app, elem_of_cons in *. tauto.
  - intros k' Hk'. apply (h_parse x m H). rewrite Eall. rewrite elem_of_app, elem_of_cons in *. tauto.
Qed.

(** Replacing the value of a present one. *)
Lemma replace_holds x m v val r : holds x m -> stores v val r -> is_Some (m !! obj_value s v) ->
  exists x' sz, abt_replace a x v val = Some (x', sz) /\ holds x' (<[obj_value s v := r]> m).
Proof.
  intros H [Hv Hst] [r0 Hm]. destruct (searchable_key v Hv) as (k & ks & Hk & Ek & Hf).
  destruct (Hst (ptr k) ks Ek) as (st & sz & Ec & Ep & Hn & Hd).
  unfold abt_replace. rewrite Hf, Ec. cbn [mbind option_bind].
  destruct (key_of_ok s (ptr st) (proj2_sig st)) as (st' & -> & Hp). cbn [mbind option_bind].
  assert (st' = st) as ->.
  { destruct st as [p1 Q1], st' as [p2 Q2]. cbn in Hp. subst p2. f_equal. apply Eqdep_dec.UIP_dec, bool_dec. }
  pose proof (holds_assoc x m k H) as Hk'.
  destruct (assoc k _) as [old|] eqn:E; [|congruence]. destruct Hk' as (Hin & Hkn & r1 & Hr1 & Hmr).
  assert (Hc : cmp st k = 0) by (apply cmp_kn; congruence).
  destruct (replace_ok _ _ (abt_params x) (tree a x) k st (h_wf x m H) Hc) as (b & Er & Hb & Ei).
  rewrite E in Er. rewrite Er. cbn [mbind option_bind].
  destruct (h_parse x m H old Hin) as [_ Hd0].
  assert (Hdl : dirty_left b = 0).
  { unfold bt_replace in Er. destruct (findnodekeyreplace _ _ _ _ _ _) as [[x0 b0]|]; [|done].
    injection Er as <- _. apply (h_dirty x m H). }
  assert (Hholds : holds (Abt a b (trans_one a x)) (<[obj_value s v := r]> m)).
  { destruct (others k old x m H E) as (l1 & l2 & Eall & Hdiff & Hother).
    assert (Erepl : inorder (root b) = l1 ++ st :: l2).
    { rewrite Ei, Eall, repl_app by done. cbn. apply assoc_Some in E as [_ Ec0].
      apply Z.eqb_eq in Ec0. by rewrite Ec0. }
    split; cbn [tree]; [done|done| |]; rewrite Erepl.
    - intros n r'. rewrite lookup_insert_Some, (h_map x m H), Eall. split.
      + intros [[<- <-]|(Hne & k' & Hk' & Hn' & Hr')].
        * exists st. split_and!; [|done|done]. rewrite elem_of_app, elem_of_cons. auto.
        * exists k'. split_and!; [|done|done]. rewrite elem_of_app, elem_of_cons in *.
          destruct Hk' as [?|[->|?]]; auto. congruence.
      + intros (k' & Hk' & Hn' & Hr'). rewrite elem_of_app, elem_of_cons in Hk'.
        destruct Hk' as [Hk'|[->|Hk']]; [right|left; split; congruence|right];
          (split; [rewrite <- Hn', <- Hk; apply not_eq_sym, Hother; rewrite elem_of_app; auto|]);
          exists k'; (split_and!; [|done|done]); rewrite elem_of_app, elem_of_cons; auto.
    - intros k' Hk'. rewrite elem_of_app, elem_of_cons in Hk'. destruct Hk' as [Hk'|[->|Hk']];
        [|split; [by exists r|done]|]; apply (h_parse x m H); rewrite Eall, elem_of_app, elem_of_cons; auto. }
  destruct (NORM_BT s).
  - destruct (h_wf x m H) as ((h & Hwf) & Hs & _). unfold bt_find_loc. rewrite (wf_height _ _ h _ Hwf).
    destruct (find_loc_spec (tt a x) (nb a x) (abt_params x) k (S h) _ h _ (-1) Hwf Hs)
      as (loc & -> & Eloc & Hnone); [lia|lia|]. cbn [mbind option_bind].
    rewrite E in Eloc, Hnone. destruct loc as [p|]; [|by specialize (Hnone eq_refl)]. cbn [mbind option_bind] in *.
    rewrite Eloc. cbn [mbind option_bind].
    destruct (getStreamMallocSize s (ptr old)); [|done]. destruct (getStreamMallocSize s (ptr st)); [|done].
    cbn [mbind option_bind]. by eexists _, _.
  - assert (Hd1 : getStreamMallocSize s (ptr (if by_address (key_rep_of s) then st else old)) <> None) by by case_match.
    destruct (destroy_ok _ Hd1) as (f & n & E1). unfold replaced. cbn [key_rep abt_ops key_ops].
    destruct (by_address _); cbn [option_map]; rewrite E1; cbn [mbind option_bind]; by eexists _, _.
Qed.

(** ** Histories *)

Inductive top :=
| TAdd (v : aobj) (val : cptr)
| TDel (v : aobj)
| TRep (v : aobj) (val : cptr).

Definition run_top (x : abt a) (o : top) : option (abt a) :=
  match o with
  | TAdd v val => '(x, _) ← btAdd a x v val; Some x
  | TDel v => '(x, _) ← btDelete a x v; Some x
  | TRep v val => '(x, _) ← btReplace a x v val; Some x
  end.
Fixpoint run_tops (x : abt a) (os : list top) : option (abt a) :=
  match os with
  | [] => Some x
  | o :: os' => x' ← run_top x o; run_tops x' os'
  end.

(** What the callers guarantee, and the effect on the map. *)
Inductive map_step (m : gmap Z cptr) : top -> gmap Z cptr -> Prop :=
| map_add v val r : stores v val r -> m !! obj_value s v = None ->
    map_step m (TAdd v val) (<[obj_value s v := r]> m)
| map_del v : kept = true -> searchable v -> is_Some (m !! obj_value s v) ->
    map_step m (TDel v) (delete (obj_value s v) m)
| map_rep v val r : located = true -> stores v val r -> is_Some (m !! obj_value s v) ->
    map_step m (TRep v val) (<[obj_value s v := r]> m).
Inductive map_run : gmap Z cptr -> list top -> gmap Z cptr -> Prop :=
| map_nil m : map_run m [] m
| map_cons m o m' os m'' : map_step m o m' -> map_run m' os m'' -> map_run m (o :: os) m''.

Lemma run_top_holds x m o m' : holds x m -> map_step m o m' ->
  exists x', run_top x o = Some x' /\ holds x' m'.
Proof.
  intros H Hstep. inversion Hstep as [v val r Hs Hm|v Hk Hv Hm|v val r Hl Hs Hm]; subst; cbn.
  - destruct (insert_holds x m v val r H Hs Hm) as (x' & sz & E & H'). unfold btAdd. rewrite E. by exists x'.
  - destruct (delete_holds x m v Hk H Hv Hm) as (x' & sz & E & H'). unfold btDelete. rewrite E. by exists x'.
  - destruct (replace_holds x m v val r H Hs Hm) as (x' & sz & E & H'). unfold btReplace. rewrite E. by exists x'.
Qed.

Lemma run_tops_holds os : forall x m m', holds x m -> map_run m os m' ->
  exists x', run_tops x os = Some x' /\ holds x' m'.
Proof.
  induction os as [|o os IH]; intros x m m' H Hrun; inversion Hrun; subst; cbn; [by exists x|].
  destruct (run_top_holds x m o m'0) as (x1 & -> & H1); [done..|]. cbn. by apply (IH x1 m'0).
Qed.

Lemma create_holds : holds (abt_create a) ∅.
Proof.
  split; unfold abt_create; cbn [tree].
  - apply bt_create_wf.
  - done.
  - intros n r. cbn. rewrite lookup_empty. split; [done|]. intros (k & Hk & _). by apply elem_of_nil in Hk.
  - intros k Hk. cbn in Hk. by apply elem_of_nil in Hk.
Qed.
End Refine.

(** ** The trees that keep the key they delete *)

Lemma table_kept kt tm nc ct dirty : C_IS_NUM kt = true ->
  kept (createDBT kt tm nc ct dirty) = true /\ located (createDBT kt tm nc ct dirty) = true.
Proof.
  intros Hn. unfold createDBT, createOBT.
  destruct (nc =? 2); [|by split]. destruct (num_cases _ Hn) as [->|[->| ->]]; cbn;
    destruct (C_IS_I ct), (C_IS_L ct), (C_IS_X ct); by split.
Qed.
Lemma index_kept kt im bt : C_IS_NUM kt = true -> kept (createIBT kt im bt) = true.
Proof. intros Hn. by destruct (num_cases _ Hn) as [->|[->| ->]]. Qed.
Lemma uniq_kept kt im pktyp bt a : _createUIBT kt im pktyp bt = Some a -> kept a = true.
Proof.
  unfold _createUIBT.
  destruct (C_IS_I kt), (C_IS_L kt), (C_IS_X kt), (C_IS_I pktyp), (C_IS_L pktyp); by intros [= <-].
Qed.

(** The node of an index keeps its keys when they are INT or LONG: U128 keys are
    addresses that nobody copies. *)
Lemma node_kept kt a : C_IS_NUM kt = true -> createIndexNode kt COL_TYPE_NONE = Some a ->
  key_rep_of (a_spec a) = if C_IS_X kt then REP_SLOT else REP_WORD.
Proof. intros Hn. by destruct (num_cases _ Hn) as [->|[->| ->]]; intros [= <-]. Qed.
Lemma node_word_kept kt a : C_IS_NUM kt = true -> C_IS_X kt = false ->
  createIndexNode kt COL_TYPE_NONE = Some a -> kept a = true.
Proof. intros Hn Hx Ha. unfold kept. by rewrite (node_kept kt a Hn Ha), Hx. Qed.

(** That of an order-by index does, except that of INT keys ordered by an INT
    column: its flags, the order-by one included, make it look wide. *)
Lemma obc_node_kept kt ot a : ot <> COL_TYPE_NONE -> createIndexNode kt ot = Some a ->
  key_rep_of (a_spec a) = if C_IS_I ot && C_IS_I kt then REP_BAD else REP_COPIED.
Proof.
  intros Ho. unfold createIndexNode, createOBT. destruct (Z.eqb_spec ot COL_TYPE_NONE); [done|]. cbn [negb].
  destruct (C_IS_I ot), (C_IS_L ot), (C_IS_X ot), (C_IS_I kt), (C_IS_L kt), (C_IS_X kt); by intros [= <-].
Qed.

(** ** What can be stored *)

(** The rows of a table, under keys of any numeric type. *)
Lemma table_stores a v row : bflag (a_spec a) = BTFLAG_NONE -> btype (a_spec a) = BTREE_TABLE ->
  ksize (a_spec a) = VOIDSIZE -> C_IS_NUM (ktype (a_spec a)) = true -> ao_ok v -> 0 <= ao_f v < 2 ^ 32 ->
  row_ok row -> Z.of_nat (length row) + 17 < 2 ^ 32 -> stores a v (PMem row) (PMem row).
Proof.
  intros Hf Hb Hk Hn Hv Hfl Hrow Hlt.
  assert (Hb' : btype (a_spec a) <> BTREE_INODE) by (rewrite Hb; done).
  assert (Hok : forall p, key_ok (a_spec a) p = true).
  { intros p. unfold key_ok, UU. rewrite Hk, Hf. cbn. change (has BTFLAG_NONE BTFLAG_UINT_UINT) with false.
    cbv iota. destruct (num_cases _ Hn) as [->|[->| ->]]; done. }
  assert (Hvok : val_ok (a_spec a) v).
  { split; [done|]. split; [done|]. split.
    - destruct (num_cases _ Hn) as [->|[->| ->]]; cbn; lia.
    - intros E. by rewrite E in Hn. }
  destruct (norm_key_enc (a_spec a) v Hb' Hf Hvok) as (m & Ek & _ & Hm & Hall).
  destruct (key_of_ok (a_spec a) (PMem m) (Hok _)) as (k & _ & Hptr).
  split.
  { split; [done|]. exists k, (Z.of_nat (length m)). by rewrite Hptr. }
  intros k0 ks E.  rewrite Ek in E. injection E as <- <-.
  destruct (norm_kinds (a_spec a) Hb' Hf) as (H1 & _ & _ & _ & H4 & _ & H6 & H7).
  destruct (key_of_ok (a_spec a) (PMem (m ++ row)) (Hok _)) as (st & _ & Hst). exists st, (u32 (Z.of_nat (length m) + Z.of_nat (length row))).
  rewrite Hst. destruct (norm_stream (a_spec a) v m row Hb' Hf Hm Hall) as (S1 & S2 & _). destruct Hrow as [Hr _].
  split. { unfold createStream. rewrite H1, H6. unfold getStreamVlen. rewrite Hb. cbn [Z.eqb BTREE_TABLE is_null mem].
    rewrite Hr. cbn [mbind option_bind]. rewrite !Nat2Z.id, !length_slice_all. done. }
  split. { rewrite S2, Hb. done. }
  split. { unfold kn. rewrite Hst. unfold same_val in S1. destruct S1 as [_ S1]. unfold key_value, obj_value.
    destruct (num_cases _ Hn) as [Et|[Et|Et]]; rewrite Et in *; done. }
  unfold getStreamMallocSize. rewrite H1, H6. cbn [orb mem]. rewrite (proj1 (Hall row)). cbn [mbind option_bind].
  rewrite Nat2Z.id, drop_app_length. unfold getStreamVlen. rewrite Hb. cbn [Z.eqb BTREE_TABLE is_null mem].
  by rewrite Hr.
Qed.

(** The addresses of the trees of an index of numbers. *)
Lemma index_stores kt im bt v addr : C_IS_NUM kt = true -> In bt [BTREE_INDEX; BTREE_MCI; BTREE_MCI_MID] ->
  ao_ok v -> 0 <= addr < 2 ^ 64 -> stores (createIBT kt im bt) v (PNum addr) (PNum addr).
Proof.
  intros Hn Hbt Hv Ha. destruct (index_packed kt im bt addr v Hn Hbt Hv Ha) as (k & st & E1 & E2 & E3 & E4).
  set (a := createIBT kt im bt) in *.
  assert (Hok : forall p, key_ok (a_spec a) p = true).
  { intros p. subst a. by destruct (num_cases _ Hn) as [->|[->| ->]]. }
  destruct (key_of_ok (a_spec a) k (Hok _)) as (k' & _ & Hk').
  destruct (key_of_ok (a_spec a) st (Hok _)) as (st' & _ & Hst').
  split; [split; [done|]|].
  - exists k', VOIDSIZE. rewrite Hk'. split; [done|]. revert E1. subst a.
    destruct Hbt as [<-|[<-|[<-|[]]]]; destruct (num_cases _ Hn) as [->|[->| ->]]; by intros [= <-].
  - intros k0 ks E. rewrite E1 in E. injection E as <- <-. exists st', 0. rewrite Hst'.
    split_and!; [done|done|unfold kn; by rewrite Hst'|]. unfold getStreamMallocSize.
    assert (Ho : OTHER_BT (a_spec a) = true) by (subst a; by destruct (num_cases _ Hn) as [->|[->| ->]]).
    by rewrite Ho, orb_true_r.
Qed.

(** ** Scans of a tree that holds a map *)

(** The value of a ghost. *)
Definition ghost_val (byte_at : Z -> Z) (r : cptr) : bool :=
  match r with
  | PMem m => default 1 (head m) =? 0
  | PNum z => negb (u64 z =? 0) && (byte_at (u64 z) =? 0)
  end.

Section Scans.
Context (a : bt_args) (Ha : lawful a) (byte_at : Z -> Z).
#[local] Abbreviation s := (a_spec a).
#[local] Existing Instance abt_order.
#[local] Existing Instance abt_ops.
#[local] Instance scan_laws : KeyOrderLaws (key_t (a_spec a)) := lawful_order a Ha.
#[local] Instance scan_stream : KeyStream (key_t (a_spec a)) := key_stream byte_at (a_spec a).
#[local] Instance scan_keys : NumKeyLaws (key_t (a_spec a)) := lawful_keys a byte_at Ha.

Lemma tt_big (x : abt a) : (4 <= tt a x)%nat.
Proof. unfold tt. destruct (trans_one a x); vm_compute; lia. Qed.

Lemma holds_sorted x m : holds a x m -> StronglySorted Z.lt (kn a <$> inorder (root (tree a x))).
Proof.
  intros H. pose proof (proj1 (proj2 (h_wf a x m H))) as Hs.
  induction Hs as [|k l Hs IH HF]; cbn; constructor; [done|]. apply Forall_fmap.
  eapply Forall_impl; [exact HF|]. cbn. unfold klt. intros k' Hlt.
  by apply (cmp_lt_kv k k') in Hlt.
Qed.

Lemma holds_size x m : holds a x m -> length (inorder (root (tree a x))) = size m.
Proof.
  intros H. pose proof (holds_sorted x m H) as Hs.
  assert (Hnd : NoDup (kn a <$> inorder (root (tree a x)))).
  { clear H. induction Hs as [|n l Hs IH HF]; constructor; [|done]. intros Hin.
    rewrite Forall_forall in HF. specialize (HF n Hin). lia. }
  rewrite <- size_dom. assert (E : dom m = list_to_set (kn a <$> inorder (root (tree a x)))).
  { apply set_eq. intros n. rewrite elem_of_dom, elem_of_list_to_set, list_elem_of_fmap. split.
    - intros [r Hr]. apply (h_map a x m H) in Hr as (k & Hin & Hk & _). by exists k.
    - intros (k & -> & Hin). destruct (h_parse a x m H k Hin) as [(r & Hr) _]. exists r.
      apply (h_map a x m H). by exists k. }
  by rewrite E, size_list_to_set, length_fmap.
Qed.

Lemma holds_scannable x m : holds a x m -> Z.of_nat (size m) < 2 ^ 32 ->
  (forall n r, m !! n = Some r -> NORM_BT s && ghost_val byte_at r = false) -> scannable (tt a x) (tree a x).
Proof.
  intros H Hsz Hlive. pose proof (holds_size x m H) as Hl. split.
  - apply H.
  - apply H.
  - apply (depth_ok (tt a x)); [apply tt_big|apply H|by rewrite Hl].
  - apply Forall_forall. intros k Hin. cbn [is_ghost scan_stream key_stream]. unfold isGhostRow.
    destruct (h_parse a x m H k Hin) as [(r & Hr) _]. rewrite Hr.
    assert (E : NORM_BT s && ghost_val byte_at r = false) by (apply (Hlive (kn a k)), (h_map a x m H); by exists k).
    by destruct (NORM_BT s).
  - by rewrite Hl.
Qed.

Lemma sorted_range lo hi (l : list (key_t s)) :
  StronglySorted Z.lt (kn a <$> l) -> StronglySorted Z.lt (kn a <$> range_keys lo hi l).
Proof.
  unfold range_keys. induction l as [|k' l IH]; intros Hs; [constructor|]. cbn [fmap list_fmap] in Hs.
  apply StronglySorted_inv in Hs as [Hs HF]. rewrite filter_cons. case_decide; [|by apply IH].
  cbn [fmap list_fmap]. constructor; [by apply IH|]. rewrite Forall_forall in *. intros n Hn.
  apply HF. apply list_elem_of_fmap in Hn as (k2 & -> & Hin). apply list_elem_of_filter in Hin as [_ Hin].
  by apply list_elem_of_fmap_2.
Qed.

(** The keys a scan reports are the numbers of the range that the map holds. *)
Lemma scan_ok x m which alow ahigh : holds a x m -> Z.of_nat (size m) < 2 ^ 32 ->
  (forall n r, m !! n = Some r -> NORM_BT s && ghost_val byte_at r = false) ->
  0 <= which < MAX_NUM_ITERS -> searchable a alow ->
  exists l, range_scan (nb a x) which (tree a x) alow ahigh true = Some l /\
    StronglySorted Z.lt (kn a <$> l) /\
    forall n, n ∈ kn a <$> l <-> obj_value s alow <= n <= obj_value s ahigh /\ is_Some (m !! n).
Proof.
  intros H Hsz Hlive Hw Hlow. pose proof (holds_scannable x m H Hsz Hlive) as Hsc.
  destruct (searchable_key a Ha alow Hlow) as (k & ks & Hk & Ek & _).
  assert (Hmk : exists bkey, mk alow = Some bkey).
  { destruct Hlow as [_ (k0 & ks0 & E & Hn)]. cbn [mk scan_stream key_stream]. rewrite E. cbn [mbind option_bind].
    rewrite Hn. destruct (key_of_ok s (ptr k0) (proj2_sig k0)) as (k1 & -> & _). by exists k1. }
  destruct Hmk as [bkey Hmk].
  exists (range_keys (key_num alow) (key_num ahigh) (inorder (root (tree a x)))).
  split; [by apply (range_asc_ok (tt a x) _ which _ alow ahigh bkey (abt_params a x) Hsc Hw (proj1 Hlow))|].
  assert (Hkv : forall k : key_t s, kv k = kn a k) by done.
  assert (Hob : forall o, obj_value s o = key_num o) by done. setoid_rewrite Hob.
  split.
  - apply sorted_range, (holds_sorted x m H).
  - intros n. rewrite list_elem_of_fmap. split.
    + intros (k' & -> & Hin). apply list_elem_of_filter in Hin as [Hr Hin].
      unfold in_range in Hr. apply andb_true_iff in Hr. rewrite Hkv in Hr. split; [lia|].
      destruct (h_parse a x m H k' Hin) as [(r & Hr') _]. exists r. apply (h_map a x m H). by exists k'.
    + intros [Hr [r Hm]]. apply (h_map a x m H) in Hm as (k' & Hin & Hn & _). exists k'. split; [done|].
      apply list_elem_of_filter. split; [|done]. unfold in_range. rewrite Hkv, Hn. apply andb_true_iff. lia.
Qed.
End Scans.

(** ** Properties *)

(** C5: a tree with numeric keys, of any kind the program creates, refines a
    finite map from numbers to values: any history of additions of absent keys,
    deletions and replacements of present ones runs to completion from a new tree,
    and the searches then give the values of the map, NULL for a key that is not
    there.  Deletions are of trees that keep the key they delete: not the node of
    an index for a U128 key, nor that of an INT key ordered by an INT column;
    replacements are of tables and indexes, or of nodes of pointers. *)
Theorem table_refines_map (a : bt_args) (os : list top) (m : gmap Z cptr) :
  created a -> map_run a ∅ os m ->
  exists x, run_tops a (abt_create a) os = Some x /\ dirty_left (tree a x) = 0 /\
    forall v, searchable a v ->
      btFind a x v = Some (default NULL (m !! obj_value (a_spec a) v)) /\
      btIndExist a x v = Some (bool_decide (is_Some (m !! obj_value (a_spec a) v))).
Proof.
  intros Hc%created_lawful Hrun. destruct (run_tops_holds a Hc os _ _ _ (create_holds a) Hrun) as (x & E & H).
  exists x. split; [done|]. split; [apply H|]. intros v Hv. by apply find_holds.
Qed.

(** C6: after such a history (with deletions only from the trees that keep the
    key they delete) of a tree without ghosts, an ascending range scan of any slot
    terminates and reports, in strictly increasing order, exactly the keys of the
    map within its bounds. *)
Theorem table_range_scan (a : bt_args) (os : list top) (m : gmap Z cptr) (byte_at : Z -> Z)
    (which : Z) (alow ahigh : aobj) :
  created a -> map_run a ∅ os m -> Z.of_nat (size m) < 2 ^ 32 ->
  (forall n r, m !! n = Some r -> ghost_val byte_at r = false) ->
  0 <= which < MAX_NUM_ITERS -> searchable a alow ->
  exists x l, run_tops a (abt_create a) os = Some x /\
    @range_scan _ (abt_order a) (abt_ops a) (key_stream byte_at (a_spec a))
      (nb a x) which (tree a x) alow ahigh true = Some l /\
    StronglySorted Z.lt (kn a <$> l) /\
    forall n, n ∈ kn a <$> l <->
      obj_value (a_spec a) alow <= n <= obj_value (a_spec a) ahigh /\ is_Some (m !! n).
Proof.
  intros Hc%created_lawful Hrun Hsz Hlive Hw Hlow.
  destruct (run_tops_holds a Hc os _ _ _ (create_holds a) Hrun) as (x & E & H).
  destruct (scan_ok a Hc byte_at x m which alow ahigh H Hsz) as (l & ? & ? & ?); try done;
    [intros n r Hn; by rewrite (Hlive n r Hn), andb_false_r|]. by exists x, l.
Qed.

(** the key 0 of an INT or LONG node of an index, or of an INT/INT table, is
    the NULL pointer: it is never stored, never found and never deleted, whatever
    the tree holds. *)
Theorem zero_key_ignored (a : bt_args) (x : abt a) (v : aobj) (val : cptr) :
  (INODE_I (a_spec a) = true /\ ao_i v = 0) \/
  (INODE_I (a_spec a) = false /\ INODE_L (a_spec a) = true /\ ao_l v = 0) \/
  (INODE (a_spec a) = false /\ UU (a_spec a) = true /\ ao_i v = 0) ->
  btAdd a x v val = Some (x, 0) /\ btFind a x v = Some NULL /\ btIndExist a x v = Some false /\
  btReplace a x v val = Some (x, 0) /\ btDelete a x v = Some (x, false).
Proof.
  intros Hz. assert (E : createBTKey (a_spec a) v = Some (PNum 0, VOIDSIZE)).
  { unfold createBTKey. destruct Hz as [[-> ->]|[(-> & -> & ->)|(Hi & -> & ->)]]; [done|done|].
    unfold INODE in Hi. bcases. by rewrite H, H0, H1. }
  assert (Hk : forall A ret (f : key_t (a_spec a) -> Z -> option A), with_key a v ret f = Some ret).
  { intros A ret f. unfold with_key. by rewrite E. }
  unfold btAdd, abt_insert, btFind, abt_find, btIndExist, abt_exist, btReplace, abt_replace, btDelete, abt_del.
  by rewrite !Hk.
Qed.

(** ** Witnesses *)

Definition sample_table : bt_args := createDBT COL_TYPE_INT 0 3 COL_TYPE_INT false.
Definition sample_row (c : Z) : list Z := [1; 3; 1; c].
Definition sample_tops : list top :=
  [TAdd (initAobjInt 7) (PMem (sample_row 65)); TAdd (initAobjInt 3000000000) (PMem (sample_row 66));
   TAdd (initAobjInt 5) (PMem (sample_row 67)); TDel (initAobjInt 7);
   TRep (initAobjInt 5) (PMem (sample_row 68))].

Lemma sample_stored_ok c : is_byte c -> row_ok (sample_row c).
Proof. intros Hc. split; [reflexivity|]. repeat constructor; unfold is_byte in *; lia. Qed.

Lemma sample_stores n c : is_byte c ->
  stores sample_table (initAobjInt n) (PMem (sample_row c)) (PMem (sample_row c)).
Proof.
  intros Hc. apply table_stores; try done; [apply int_obj_ok|by apply sample_stored_ok].
Qed.

Definition sample_map : gmap Z cptr :=
  <[5 := PMem (sample_row 68)]> (delete 7 (<[5 := PMem (sample_row 67)]>
    (<[3000000000 := PMem (sample_row 66)]> (<[7 := PMem (sample_row 65)]> ∅)))).

Lemma sample_map_run : map_run sample_table ∅ sample_tops sample_map.
Proof.
  unfold sample_tops, sample_map.
  eapply map_cons; [apply (map_add _ _ (initAobjInt 7)); [apply sample_stores; unfold is_byte; lia|reflexivity]|].
  eapply map_cons; [apply (map_add _ _ (initAobjInt 3000000000)); [apply sample_stores; unfold is_byte; lia|reflexivity]|].
  eapply map_cons; [apply (map_add _ _ (initAobjInt 5)); [apply sample_stores; unfold is_byte; lia|reflexivity]|].
  eapply map_cons; [apply (map_del _ _ (initAobjInt 7));
    [reflexivity|apply (sample_stores 7 65); unfold is_byte; lia|by eexists]|].
  eapply map_cons; [apply (map_rep _ _ (initAobjInt 5)); [reflexivity|apply sample_stores; unfold is_byte; lia|by eexists]|].
  constructor.
Qed.

Lemma sample_created : created sample_table.
Proof. by apply created_table. Qed.

Lemma table_refines_map_witness :
  exists x, run_tops sample_table (abt_create sample_table) sample_tops = Some x /\
    btFind sample_table x (initAobjInt 5) = Some (PMem (sample_row 68)) /\
    btFind sample_table x (initAobjInt 7) = Some NULL.
Proof.
  destruct (table_refines_map sample_table sample_tops sample_map sample_created sample_map_run) as (x & E & _ & F).
  exists x. split; [exact E|]. split.
  - apply (F (initAobjInt 5)). apply (sample_stores 5 68). unfold is_byte. lia.
  - apply (F (initAobjInt 7)). apply (sample_stores 7 65). unfold is_byte. lia.
Defined.

Lemma table_range_scan_witness :
  exists x l, run_tops sample_table (abt_create sample_table) sample_tops = Some x /\
    @range_scan _ (abt_order sample_table) (abt_ops sample_table) (key_stream (fun _ => 0) (a_spec sample_table))
      (nb sample_table x) 0 (tree sample_table x) (initAobjInt 4) (initAobjInt 4000000000) true = Some l /\
    StronglySorted Z.lt (kn sample_table <$> l) /\
    forall n, n ∈ kn sample_table <$> l <->
      obj_value (a_spec sample_table) (initAobjInt 4) <= n <= obj_value (a_spec sample_table) (initAobjInt 4000000000)
      /\ is_Some (sample_map !! n).
Proof.
  apply (table_range_scan sample_table sample_tops sample_map (fun _ => 0) 0 (initAobjInt 4) (initAobjInt 4000000000)).
  - apply sample_created.
  - apply sample_map_run.
  - vm_compute. reflexivity.
  - intros n r. unfold sample_map. rewrite !lookup_insert_Some, lookup_delete_Some, !lookup_insert_Some, lookup_empty.
    intros Hr. decompose [and or] Hr; subst; done.
  - unfold MAX_NUM_ITERS. lia.
  - apply (sample_stores 4 65). unfold is_byte. lia.
Defined.

(** An index of INT pks holds the addresses of the trees of its entries. *)
Example sample_index : stores (createIndexBT COL_TYPE_LONG 0) (initAobjLong 9) (PNum 4096) (PNum 4096).
Proof. apply index_stores; [done|by left|unfold ao_ok; cbn; lia|lia]. Qed.

(** An INT/INT table does not take a row with the key 0. *)
Definition uu_table : bt_args := createDBT COL_TYPE_INT 0 2 COL_TYPE_INT false.
Lemma zero_key_ignored_witness :
  btAdd uu_table (abt_create uu_table) (initAobjInt 0) (PNum 9) = Some (abt_create uu_table, 0) /\
  btFind uu_table (abt_create uu_table) (initAobjInt 0) = Some NULL.
Proof.
  destruct (zero_key_ignored uu_table (abt_create uu_table) (initAobjInt 0) (PNum 9)) as (A & F & _);
    [right; right; split_and!; reflexivity|].
  split; [exact A|exact F].
Defined.
