(* ===== verification/GetCol.v ===== *)
(** * The value of a column ([DB/row.c], [getCol])

    Reads a column of a row as a typed value: the primary key comes from the key
    of the row, the other column of a packed table from its struct, or from the
    number an INT/INT table holds, any other from the bytes of the row.  Lua
    columns are answered by the Lua interpreter, a parameter.  Column numbers
    below -1 stand for index positions and Lua functions, which are not columns
    of the table: the model has no value for them. *)

From S2P Require Import Prelude Stream SixBit Hash CStr Row Aobj BtKey.

(** [initAobj] and one field; [fs], the conversion to text, is 0 in [getCol]. *)
Definition initIntAobjFromVal (i : Z) : aobj :=
  Aobj S_NULL 0 (u32 i) 0 0 0 false COL_TYPE_INT COL_TYPE_INT false false.
Definition initLongAobjFromVal (l : Z) : aobj :=
  Aobj S_NULL 0 0 (u64 l) 0 0 false COL_TYPE_LONG COL_TYPE_LONG false false.
Definition initU128AobjFromVal (x : Z) : aobj :=
  Aobj S_NULL 0 0 0 (u128 x) 0 false COL_TYPE_U128 COL_TYPE_U128 false false.
Definition initFloatAobjFromVal (f : Z) : aobj :=
  Aobj S_NULL 0 0 0 0 f false COL_TYPE_FLOAT COL_TYPE_FLOAT false false.

(** ** Packed tables *)

Definition colFromUU (key : Z) : aobj := initIntAobjFromVal (s32 (Z.rem (s64 key) UINT_MAX)).
Definition colFromUL (key : Z) (cmatch : Z) : aobj :=
  if negb (cmatch =? 0) then initLongAobjFromVal key else initIntAobjFromVal key.
Definition colFromLU (key : Z) (cmatch : Z) : aobj :=
  if negb (cmatch =? 0) then initIntAobjFromVal key else initLongAobjFromVal key.
Definition colFromLL (key : Z) : aobj := initLongAobjFromVal key.
Definition colFromXX (key : Z) : aobj := initU128AobjFromVal key.

(** [orow] is what the tree gives for the row: the number of an INT/INT table,
    else the struct.  [None] is the failed assertion. *)
Definition getRC_OBT (s : bts_t) (orow : cptr) (cmatch : Z) (apk : aobj) : option aobj :=
  let pk := cmatch =? 0 in
  if UU s then Some (colFromUU (if pk then ao_i apk else num orow))
  else if UL s then Some (colFromUL (if pk then ao_i apk else st_val 4 8 orow) cmatch)
  else if LU s then Some (colFromLU (if pk then ao_l apk else st_val 8 4 orow) cmatch)
  else if LL s then Some (colFromLL (if pk then ao_l apk else st_val 8 8 orow))
  else if XX s then Some (colFromXX (if pk then ao_x apk else st_val 16 16 orow))
  else if UX s then Some (if pk then colFromUU (ao_i apk) else colFromXX (st_val 4 16 orow))
  else if XU s then Some (if pk then colFromXX (ao_x apk) else colFromUU (st_val 16 4 orow))
  else if LX s then Some (if pk then colFromLL (ao_l apk) else colFromXX (st_val 8 16 orow))
  else if XL s then Some (if pk then colFromXX (ao_x apk) else colFromLL (st_val 16 8 orow))
  else None.

(** ** Rows *)

Section GetCol.
Context (lzf_decompress : list Z -> Z -> list Z) (lua_col : Z -> aobj -> aobj).
(** A fresh buffer, and the address of the row. *)
Context (buf : list Z) (addr : Z).

(** The value of a column; a TEXT keeps a pointer into the row, or to the text
    unpacked, which it owns. *)
Definition colval_aobj (rflag : Z) (cmatch : Z) (apk : aobj) (v : colval) : aobj :=
  match v with
  | V_EMPTY => initAobj
  | V_INT i => initIntAobjFromVal i
  | V_LONG l => initLongAobjFromVal l
  | V_U128 x => initU128AobjFromVal x
  | V_FLOAT f => initFloatAobjFromVal f
  | V_STRING s =>
      Aobj (S_MEM s) (Z.of_nat (length s)) 0 0 0 0 false COL_TYPE_STRING COL_TYPE_STRING
        (has rflag RFLAG_6BIT_ZIP || has rflag RFLAG_LZF_ZIP) false
  | V_LUAO => lua_col cmatch apk
  end.

(** A copy of the key, whose string the new object owns. *)
Definition pk_aobj (s : bts_t) (apk : aobj) : option aobj :=
  if negb (C_IS_S (ktype s)) then Some apk
  else
    str ← ao_str apk;
    Some (Aobj (S_MEM (str ++ [0])) (Z.of_nat (length str)) 0 0 0 0 false (ao_type apk)
            COL_TYPE_STRING true false).

Definition getCol (s : bts_t) (rt : r_tbl_t) (orow : cptr) (cmatch : Z) (apk : aobj) : option aobj :=
  if cmatch <? -1 then None
  else if OTHER_BT s then getRC_OBT s orow cmatch apk
  else if cmatch =? -1 then Some initAobj
  else if cmatch =? 0 then pk_aobj s apk
  else
    t ← coltypes rt !! Z.to_nat (cmatch - 1);
    cd ← getColData addr (mem orow) cmatch;
    v ← decode_col lzf_decompress buf (cd_rflag cd) t (drop (cd_start cd) (cd_row cd)) (cd_clen cd);
    Some (colval_aobj (cd_rflag cd) cmatch apk v).
End GetCol.
