(* ===== verification/Parser.v ===== *)
(** * Scanning SQL text ([DB/parser.c])

    The functions that find the end of a token: quoted texts, parentheses,
    commas, keywords.  A [char *] is an index into a buffer that ends with its
    terminator; the inner [option] of a result is [NULL], the outer one is [None]
    when the C code would read outside the buffer or through [NULL].  Loops take
    as fuel the length of the buffer, which they move through. *)

From S2P Require Import Prelude CStr Aobj.

(** ** libc *)

Definition strchr_from (buf : list Z) (i : nat) (c : Z) : option (option nat) :=
  r ← strchr (drop i buf) c; Some (option_map (Nat.add i) r).
Definition strlen (buf : list Z) (i : nat) : option nat := r ← strchr (drop i buf) 0; r.
Definition toupper (c : Z) : Z := if (97 <=? c) && (c <=? 122) then c - 32 else c.

(** It does not stop at the terminator. *)
Fixpoint _strnchr (buf : list Z) (i : nat) (c : Z) (len : nat) : option (option nat) :=
  match len with
  | O => Some None
  | S len => b ← buf !! i; if b =? c then Some (Some i) else _strnchr buf (S i) c len
  end.

(** ** Keywords, whatever their case *)

(** The character at [p], the place in the needle when a match has begun, and
    where it began. *)
Fixpoint casestr_loop (fuel : nat) (hay : list Z) (p : nat) (needle : list Z) (np : option nat) (startn : nat)
    : option (option nat) :=
  match fuel with
  | O => None
  | S fuel =>
      b ← hay !! p;
      if b =? 0 then Some None
      else
        match np with
        | Some n =>
            c ← needle !! n;
            if toupper b =? toupper c then
              c' ← needle !! S n;
              if c' =? 0 then Some (Some startn) else casestr_loop fuel hay (S p) needle (Some (S n)) startn
            else casestr_loop fuel hay (S p) needle None startn
        | None =>
            c ← needle !! 0%nat;
            if toupper b =? toupper c then casestr_loop fuel hay (S p) needle (Some 1%nat) p
            else casestr_loop fuel hay (S p) needle None startn
        end
  end.
Definition DXDB_strcasestr (hay : list Z) (p : nat) (needle : list Z) : option (option nat) :=
  casestr_loop (S (length hay)) hay p needle None 0.

(** ** The next character that no backslash escapes *)

(** The backslashes just before [n], back to [beg]. *)
Fixpoint backslashes (buf : list Z) (beg n : nat) : option nat :=
  match n with
  | O => Some O
  | S m =>
      if (beg <=? m)%nat then
        b ← buf !! m;
        if b =? 92 then k ← backslashes buf beg m; Some (S k) else Some O
      else Some O
  end.

(** [len] below 0 is no limit; the limit is not reduced as the loop advances. *)
Fixpoint unescaped_loop (fuel : nat) (buf : list Z) (beg nextc : nat) (x len : Z) : option (option nat) :=
  match fuel with
  | O => None
  | S fuel =>
      r ← (if 0 <=? len then _strnchr buf nextc x (Z.to_nat len) else strchr_from buf nextc x);
      match r with
      | None => Some None
      | Some n =>
          if (n =? beg)%nat then Some (Some n)
          else
            b ← buf !! (n - 1)%nat;
            if b =? 92 then
              k ← backslashes buf beg n;
              if Nat.odd k then unescaped_loop fuel buf beg (S n) x len else Some (Some n)
            else Some (Some n)
      end
  end.
Definition _strn_next_unescaped_chr (buf : list Z) (beg s : nat) (x len : Z) : option (option nat) :=
  unescaped_loop (S (length buf)) buf beg (S s) x len.
Definition str_next_unescaped_chr (buf : list Z) (beg s : nat) (x : Z) : option (option nat) :=
  _strn_next_unescaped_chr buf beg s x (-1).
Definition strn_next_unescaped_chr (buf : list Z) (beg s : nat) (x len : Z) : option (option nat) :=
  _strn_next_unescaped_chr buf beg s x len.

(** ** Keywords outside quotes *)

(** [bstart] and what was [found]. *)
Fixpoint block_loop (fuel : nat) (buf : list Z) (bstart found : nat) (needle : list Z) (blockchar : Z) : option (option nat) :=
  match fuel with
  | O => None
  | S fuel =>
      r ← str_next_unescaped_chr buf bstart bstart blockchar;
      match r with
      | None => Some (Some found)
      | Some b =>
          if (found <? b)%nat then Some (Some found)
          else
            r ← str_next_unescaped_chr buf (S b) (S b) blockchar;
            match r with
            | None => Some None
            | Some bend =>
                if (found <=? S bend)%nat then
                  f ← DXDB_strcasestr buf (S bend) needle;
                  match f with
                  | None => Some None
                  | Some found => block_loop fuel buf (S bend) found needle blockchar
                  end
                else block_loop fuel buf (S bend) found needle blockchar
            end
      end
  end.
Definition strcasestr_blockchar (buf : list Z) (haystack : nat) (needle : list Z) (blockchar : Z) : option (option nat) :=
  f ← DXDB_strcasestr buf haystack needle;
  match f with
  | None => Some None
  | Some found => block_loop (S (length buf)) buf haystack found needle blockchar
  end.

Fixpoint strstr_loop (fuel : nat) (buf : list Z) (h : nat) (n : list Z) (nlen : nat) : option (option nat) :=
  match fuel with
  | O => None
  | S fuel =>
      c ← buf !! h;
      if c =? 0 then Some None
      else
        h ← (if c =? 39 then r ← str_next_unescaped_chr buf h h 39; r else Some h);
        d ← strncmp (drop h buf) n nlen;
        if d =? 0 then Some (Some h) else strstr_loop fuel buf (S h) n nlen
  end.
Definition strstr_not_quoted (buf : list Z) (h : nat) (n : list Z) : option (option nat) :=
  nlen ← strlen n 0; strstr_loop (S (length buf)) buf h n nlen.

(** ** Parentheses *)

Fixpoint matching_loop (fuel : nat) (buf : list Z) (beg x : nat) (sdelim fdelim n_open : Z) : option (option nat) :=
  match fuel with
  | O => None
  | S fuel =>
      c ← buf !! x;
      if c =? 0 then Some None
      else
        let n_open := if c =? sdelim then n_open + 1 else if c =? fdelim then n_open - 1 else n_open in
        if negb (x =? beg)%nat && (n_open =? 0) then Some (Some x)
        else matching_loop fuel buf beg (S x) sdelim fdelim n_open
  end.
Definition str_matching_end_delim (buf : list Z) (beg : nat) (sdelim fdelim : Z) : option (option nat) :=
  matching_loop (S (length buf)) buf beg beg sdelim fdelim 0.
Definition str_matching_end_paren (buf : list Z) (beg : nat) : option (option nat) := str_matching_end_delim buf beg 40 41.

Fixpoint parens_loop (fuel : nat) (buf : list Z) (p : nat) (parens : Z) : option (option nat) :=
  match fuel with
  | O => None
  | S fuel =>
      c ← buf !! p;
      if c =? 0 then Some None
      else
        let parens := if c =? 40 then parens + 1 else if c =? 41 then parens - 1 else parens in
        r ← (if c =? 39 then str_next_unescaped_chr buf p p 39 else Some (Some p));
        if parens =? 0 then Some r
        else p ← r; parens_loop fuel buf (S p) parens
  end.
Definition get_after_parens (buf : list Z) (p : nat) : option (option nat) := parens_loop (S (length buf)) buf p 0.

(** ** Tokens *)

Definition next_token (buf : list Z) (nextp : nat) : option (option nat) :=
  r ← strchr_from buf nextp 32;
  match r with
  | None => Some None
  | Some p => p ← SKIP_SPACES buf p; c ← buf !! p; Some (if c =? 0 then None else Some p)
  end.
Definition get_token_len (buf : list Z) (tok : nat) : option Z :=
  r ← strchr_from buf tok 32;
  match r with
  | Some x => Some (Z.of_nat x - Z.of_nat tok)
  | None => n ← strlen buf tok; Some (s32 (Z.of_nat n))
  end.

Definition get_next_nonparaned_comma (buf : list Z) (tkn : nat) : option (option nat) :=
  tkn ← SKIP_SPACES buf tkn;
  c ← buf !! tkn;
  tkn ← (if c =? 39 then r ← str_next_unescaped_chr buf tkn tkn 39; r else Some tkn);
  z ← strchr_from buf tkn 44;
  match z with
  | None => Some None
  | Some z =>
      p ← strchr_from buf tkn 40;
      match p with
      | Some p =>
          if (p <? z)%nat then
            y ← get_after_parens buf p;
            match y with
            | Some y => strchr_from buf y 44
            | None => Some None
            end
          else Some (Some z)
      | None => Some (Some z)
      end
  end.

Fixpoint value_loop (fuel : nat) (buf : list Z) (tkn : nat) : option (option nat) :=
  match fuel with
  | O => None
  | S fuel =>
      c ← buf !! tkn;
      if c =? 0 then Some None
      else if c =? 44 then Some (Some tkn)
      else
        r ← (if c =? 39 then str_next_unescaped_chr buf tkn tkn 39
             else if c =? 40 then str_next_unescaped_chr buf tkn tkn 41
             else if c =? 123 then str_next_unescaped_chr buf tkn tkn 125
             else Some (Some tkn));
        match r with
        | None => Some None
        | Some t => value_loop fuel buf (S t)
        end
  end.
Definition get_next_insert_value_token (buf : list Z) (tkn : nat) : option (option nat) :=
  tkn ← SKIP_SPACES buf tkn; value_loop (S (length buf)) buf tkn.

(** The token and its length without backticks; both ends are looked at before
    either is dropped. *)
Definition rem_backticks (buf : list Z) (token : nat) (len : Z) : option (nat * Z) :=
  c ← buf !! token;
  if Z.of_nat token + len - 1 <? 0 then None
  else
    e ← buf !! Z.to_nat (Z.of_nat token + len - 1);
    let '(t, l) := if c =? 96 then (S token, len - 1) else (token, len) in
    Some (t, if e =? 96 then l - 1 else l).

(** Without its quotes; [None] inside is [NULL]. *)
Definition extract_string_col (buf : list Z) (start : nat) (len : Z) : option (option nat * Z) :=
  c ← buf !! start;
  if c =? 39 then
    let start := S start in let len := len - 1 in
    if Z.of_nat start + len - 1 <? 0 then None
    else
      e ← buf !! Z.to_nat (Z.of_nat start + len - 1);
      Some (if e =? 39 then (Some start, len - 1) else (None, len))
  else Some (Some start, len).

Definition next_token_wc_key (buf : list Z) (tkn : nat) (ctype : Z) : option (option nat) :=
  if C_IS_S ctype then
    c ← buf !! tkn;
    if negb (c =? 39) then Some None
    else r ← str_next_unescaped_chr buf (S tkn) (S tkn) 39; Some (option_map S r)
  else strchr_from buf tkn 32.

Definition is_text (buf : list Z) (beg : nat) (len : Z) : option bool :=
  c ← buf !! beg;
  if (c =? 39) || (c =? 34) then
    r ← strn_next_unescaped_chr buf (S beg) (S beg) c (len - 1);
    Some (match r with None => false | Some s => Z.of_nat s - Z.of_nat beg =? len - 1 end)
  else Some false.
Definition is_u128 (s : list Z) : bool := match parseU128 s with Some _ => true | None => false end.
(** [strtod_rest] is what [strtod] leaves at its end pointer. *)
Definition is_float (strtod_rest : list Z -> list Z) (s : list Z) : bool :=
  match strtod_rest s with [] => true | _ => false end.

(** ** Reference: a single pass that remembers whether an odd number of
    backslashes precedes *)

Fixpoint unescaped_from (odd : bool) (x : Z) (l : list Z) : option (option nat) :=
  match l with
  | [] => None
  | c :: l =>
      if (c =? x) && negb odd then Some (Some 0%nat)
      else if c =? 0 then Some None
      else option_map (option_map S) (unescaped_from ((c =? 92) && negb odd) x l)
  end.

(** The body of a text, closed by the first [x] after it that is not escaped. *)
Definition closes (x : Z) (b : list Z) : bool := bool_decide (unescaped_from false x (b ++ [x]) = Some (Some (length b))).

(** ** Lemmas *)

Lemma drop_tail {A} (l : list A) i b r : drop i l = b :: r -> l !! i = Some b /\ drop (S i) l = r.
Proof.
  intros E. split; [by rewrite <- (Nat.add_0_r i), <- lookup_drop, E|].
  by rewrite <- (Nat.add_1_r i), <- drop_drop, E.
Qed.

Lemma strchr_from_cons buf i c b l : drop i buf = b :: l ->
  strchr_from buf i c = if b =? c then Some (Some i) else if b =? 0 then Some None else strchr_from buf (S i) c.
Proof.
  intros E. unfold strchr_from. rewrite E, (proj2 (drop_tail _ _ _ _ E)). cbn [strchr].
  destruct (b =? c); [cbn; by rewrite Nat.add_0_r|]. destruct (b =? 0); [done|].
  destruct (strchr l c) as [[n|]|]; cbn; [|done..]. by rewrite Nat.add_succ_r.
Qed.

Lemma backslashes_S buf beg n c k : (beg <= n)%nat -> buf !! n = Some c -> backslashes buf beg n = Some k ->
  backslashes buf beg (S n) = Some (if c =? 92 then S k else 0%nat).
Proof.
  intros Hn Hc Hk. cbn [backslashes]. destruct (Nat.leb_spec beg n); [|lia]. rewrite Hc. cbn [mbind option_bind].
  rewrite Hk. by destruct (c =? 92).
Qed.

(** The character before tells whether there are backslashes at all. *)
Lemma backslashes_before buf beg n k : (beg < n)%nat -> backslashes buf beg n = Some k ->
  exists b, buf !! (n - 1)%nat = Some b /\ ((b =? 92) = false -> k = 0%nat).
Proof.
  destruct n as [|n]; [lia|]. intros Hn. cbn [backslashes]. destruct (Nat.leb_spec beg n); [|lia].
  replace (S n - 1)%nat with n by lia. destruct (buf !! n) as [b|]; [|done]. cbn [mbind option_bind].
  intros Hk. exists b. split; [done|]. intros Eb. rewrite Eb in Hk. by injection Hk as <-.
Qed.

Lemma unescaped_loop_ok buf beg x l : x <> 0 -> x <> 92 -> forall nextc fuel k,
  drop nextc buf = l -> (length l < fuel)%nat -> (beg < nextc)%nat -> backslashes buf beg nextc = Some k ->
  unescaped_loop fuel buf beg nextc x (-1) = option_map (option_map (Nat.add nextc)) (unescaped_from (Nat.odd k) x l).
Proof.
  intros Hx0 Hx. induction l as [|c l IH]; intros nextc fuel k Hl Hf Hb Hk; (destruct fuel as [|fuel]; [cbn in Hf; lia|]).
  { cbn [unescaped_loop]. change (0 <=? -1) with false. cbv iota. unfold strchr_from. by rewrite Hl. }
  destruct (drop_tail _ _ _ _ Hl) as [Hc Hl']. cbn [length] in Hf.
  pose proof (backslashes_S buf beg nextc c k ltac:(lia) Hc Hk) as Hk'.
  assert (Hskip : forall n o, option_map (option_map (Nat.add n)) (option_map (option_map S) o) = option_map (option_map (Nat.add (S n))) o).
  { intros n [[m|]|]; cbn; [|done..]. by rewrite Nat.add_succ_r. }
  cbn [unescaped_from]. destruct (Z.eqb_spec c x) as [->|Hcx]; cbn [andb].
  - cbn [unescaped_loop]. change (0 <=? -1) with false. cbv iota.
    rewrite (strchr_from_cons _ _ _ _ _ Hl), Z.eqb_refl. cbn [mbind option_bind].
    destruct (Nat.eqb_spec nextc beg) as [?|_]; [lia|]. destruct (backslashes_before buf beg nextc k Hb Hk) as (b & -> & Hb0).
    cbn [mbind option_bind]. destruct (Z.eqb_spec x 0); [done|]. destruct (Z.eqb_spec x 92); [done|]. destruct (b =? 92).
    + rewrite Hk. cbn [mbind option_bind]. destruct (Nat.odd k); cbn [negb andb option_map]; [|by rewrite Nat.add_0_r].
      rewrite Hskip. by apply (IH (S nextc) fuel 0%nat Hl'); [lia|lia|].
    + rewrite (Hb0 eq_refl). cbn. by rewrite Nat.add_0_r.
  - destruct (Z.eqb_spec c 0) as [->|Hc0].
    + cbn [unescaped_loop]. change (0 <=? -1) with false. cbv iota. rewrite (strchr_from_cons _ _ _ _ _ Hl).
      destruct (Z.eqb_spec 0 x); [done|]. done.
    + assert (E : unescaped_loop (S fuel) buf beg nextc x (-1) = unescaped_loop (S fuel) buf beg (S nextc) x (-1)).
      { cbn [unescaped_loop]. change (0 <=? -1) with false. cbv iota. rewrite (strchr_from_cons _ _ _ _ _ Hl).
        destruct (Z.eqb_spec c x); [done|]. by destruct (Z.eqb_spec c 0). }
      rewrite E, Hskip, (IH (S nextc) (S fuel) _ Hl' ltac:(lia) ltac:(lia) Hk'). do 2 f_equal.
      destruct (c =? 92); [|done]. rewrite Nat.odd_succ, <- Nat.negb_odd. done.
Qed.

Lemma next_unescaped_ok buf s x : x <> 0 -> x <> 92 ->
  str_next_unescaped_chr buf s s x =
    option_map (option_map (Nat.add (S s))) (unescaped_from (bool_decide (buf !! s = Some 92)) x (drop (S s) buf)).
Proof.
  intros Hx0 Hx. unfold str_next_unescaped_chr, _strn_next_unescaped_chr.
  destruct (buf !! s) as [c|] eqn:Hc.
  - pose proof (backslashes_S buf s s c) as Hk. rewrite Hc in Hk.
    assert (H0 : backslashes buf s s = Some 0%nat).
    { destruct s as [|s]; [done|]. cbn [backslashes]. by destruct (Nat.leb_spec (S s) s); [lia|]. }
    rewrite (unescaped_loop_ok buf s x _ Hx0 Hx (S s) (S (length buf)) (if c =? 92 then 1%nat else 0%nat) eq_refl);
      [|rewrite length_drop; lia|lia|exact (Hk 0%nat (le_n s) eq_refl H0)].
    destruct (Z.eqb_spec c 92) as [->|]; case_bool_decide; done || congruence.
  - apply lookup_ge_None_1 in Hc. rewrite (drop_ge buf (S s)) by lia. cbn [unescaped_loop].
    change (0 <=? -1) with false. cbv iota. unfold strchr_from. by rewrite drop_ge by lia.
Qed.

Lemma closes_ok x b rest : closes x b = true -> unescaped_from false x (b ++ x :: rest) = Some (Some (length b)).
Proof.
  unfold closes. rewrite bool_decide_eq_true. generalize false as odd. induction b as [|c b IH]; intros odd; cbn.
  - destruct odd; [|by rewrite Z.eqb_refl]. rewrite andb_false_r. by destruct (x =? 0).
  - destruct ((c =? x) && negb odd); [done|]. destruct (c =? 0); [done|].
    destruct (unescaped_from _ _ (b ++ [x])) as [[n|]|] eqn:E; [|done..]. intros [= ->].
    by rewrite (IH _ E).
Qed.

(** A quoted text is passed over whole. *)
Lemma quoted_skip pre q x b rest : q <> 92 -> x <> 0 -> x <> 92 -> closes x b = true ->
  str_next_unescaped_chr (pre ++ q :: b ++ x :: rest) (length pre) (length pre) x = Some (Some (length pre + 1 + length b)%nat).
Proof.
  intros Hq Hx0 Hx Hb. rewrite next_unescaped_ok by done. rewrite list_lookup_middle by done.
  destruct (bool_decide_reflect (Some q = Some 92)) as [[= ?]|_]; [done|].
  replace (S (length pre)) with (length (pre ++ [q])) by (rewrite length_app; cbn; lia).
  change (pre ++ q :: b ++ x :: rest) with (pre ++ ([q] ++ b ++ x :: rest)). rewrite app_assoc, drop_app_length.
  rewrite (closes_ok _ _ _ Hb). cbn. rewrite length_app. cbn. done || (do 2 f_equal; lia).
Qed.

(** ** Values of an INSERT *)

(** What a value is made of: plain characters, texts, Lua calls and tables. *)
Inductive chunk := Plain (c : Z) | Text (b : list Z) | Paren (b : list Z) | Brace (b : list Z).
Definition chunk_text (c : chunk) : list Z :=
  match c with
  | Plain c => [c]
  | Text b => 39 :: b ++ [39]
  | Paren b => 40 :: b ++ [41]
  | Brace b => 123 :: b ++ [125]
  end.
Definition chunk_ok (c : chunk) : bool :=
  match c with
  | Plain c => negb ((c =? 0) || (c =? 39) || (c =? 40) || (c =? 123) || (c =? 44))
  | Text b => closes 39 b
  | Paren b => closes 41 b
  | Brace b => closes 125 b
  end.
Definition chunks_text (cs : list chunk) : list Z := concat (chunk_text <$> cs).

(** A value is passed over to the comma or the end after it. *)
Lemma value_loop_ok (e : Z) (post : list Z) : e = 44 \/ e = 0 -> forall cs pre fuel,
  forallb chunk_ok cs = true -> (length (chunks_text cs) < fuel)%nat ->
  value_loop fuel (pre ++ chunks_text cs ++ e :: post) (length pre) =
    Some (if e =? 44 then Some (length pre + length (chunks_text cs))%nat else None).
Proof.
  intros He. induction cs as [|c cs IH]; intros pre fuel Hok Hf; (destruct fuel as [|fuel]; [lia|]).
  { cbn [value_loop chunks_text fmap list_fmap concat app]. rewrite list_lookup_middle by done. cbn [mbind option_bind length].
    rewrite Nat.add_0_r. by destruct He as [-> | ->]. }
  cbn [forallb] in Hok. apply andb_true_iff in Hok as [Hc Hok].
  change (chunks_text (c :: cs)) with (chunk_text c ++ chunks_text cs) in *. rewrite length_app in *.
  assert (Hstep : forall n, length (chunk_text c) = S n ->
    value_loop fuel (pre ++ (chunk_text c ++ chunks_text cs) ++ e :: post) (S (length pre + n)) =
    Some (if e =? 44 then Some (length pre + (length (chunk_text c) + length (chunks_text cs)))%nat else None)).
  { intros n Hn. replace (S (length pre + n)) with (length (pre ++ chunk_text c)) by (rewrite length_app; lia).
    rewrite <- (app_assoc (chunk_text c)), app_assoc. rewrite IH by (done || lia). rewrite length_app. do 2 f_equal.
    by rewrite Nat.add_assoc. }
  assert (Hq : forall q x b, chunk_text c = q :: b ++ [x] -> q <> 92 -> x <> 0 -> x <> 92 -> closes x b = true ->
    (r ← str_next_unescaped_chr (pre ++ (chunk_text c ++ chunks_text cs) ++ e :: post) (length pre) (length pre) x;
     match r with
     | None => Some None
     | Some t => value_loop fuel (pre ++ (chunk_text c ++ chunks_text cs) ++ e :: post) (S t)
     end) = Some (if e =? 44 then Some (length pre + (length (chunk_text c) + length (chunks_text cs)))%nat else None)).
  { intros q x b E Hq Hx0 Hx Hb.
    assert (Et : (chunk_text c ++ chunks_text cs) ++ e :: post = q :: b ++ x :: chunks_text cs ++ e :: post).
    { rewrite E. cbn. by rewrite <- !app_assoc. }
    rewrite Et, quoted_skip, <- Et by done. cbn [mbind option_bind].
    rewrite <- Nat.add_assoc. apply Hstep. rewrite E. cbn. rewrite length_app. cbn. lia. }
  assert (Hl : forall a r, chunk_text c = a :: r -> (pre ++ (chunk_text c ++ chunks_text cs) ++ e :: post) !! length pre = Some a).
  { intros a r ->. by apply list_lookup_middle. }
  cbn [value_loop]. destruct c as [c|b|b|b]; cbn [chunk_ok chunk_text] in *; rewrite (Hl _ _ eq_refl); cbn [mbind option_bind].
  - apply negb_true_iff in Hc. rewrite !orb_false_iff, !Z.eqb_neq in Hc. destruct Hc as ((((? & ?) & ?) & ?) & ?).
    repeat match goal with |- context [Z.eqb c ?k] => destruct (Z.eqb_spec c k) as [?|_]; [lia|] end.
    cbn [mbind option_bind]. specialize (Hstep 0%nat eq_refl). by rewrite Nat.add_0_r in Hstep.
  - by apply (Hq 39 39 b).
  - by apply (Hq 40 41 b).
  - by apply (Hq 123 125 b).
Qed.

(** C20: The next character that no backslash escapes, found by jumping from one
    occurrence to the next and counting the backslashes before it back to the
    start, is the one a single pass finds that remembers whether an odd number
    of backslashes precedes. *)
Theorem next_unescaped_correct (buf : list Z) (s : nat) (x : Z) : x <> 0 -> x <> 92 ->
  str_next_unescaped_chr buf s s x =
    option_map (option_map (Nat.add (S s))) (unescaped_from (bool_decide (buf !! s = Some 92)) x (drop (S s) buf)).
Proof. apply next_unescaped_ok. Qed.

(** The text ['a\'b', c]: the quote after [a] is escaped. *)
Lemma next_unescaped_correct_witness :
  str_next_unescaped_chr [39; 97; 92; 39; 98; 39; 44; 99; 0] 0 0 39 = Some (Some 5%nat).
Proof. rewrite (next_unescaped_correct _ 0 39) by discriminate. reflexivity. Defined.
