(* ===== verification/InsertParse.v ===== *)
(** * The values of an INSERT ([parseRowVals] of [DB/colparse.c])

    Finds the slice of the text that holds each column and the primary key, which
    is made up when it is left out.  The slices are what [createRow] of [Row] is
    given. *)

From S2P Require Import Prelude Stream SixBit Hash CStr Row RowLayout RowTrip RowInsert Aobj Parser.

(** The key of the next row when none is given: [pk], [pklen], and [ainc]. *)
Definition assign_auto_inc_pk (pktyp ainc : Z) : list Z * Z * Z :=
  let ainc := u128 (ainc + 1) in
  let buf := if C_IS_X pktyp then sprintf_128 ainc else print_lu (u64 ainc) in
  (buf, Z.of_nat (length buf), ainc).

Definition UETYPE_ERR : Z := 0.
Definition UETYPE_INT : Z := 1.
Definition UETYPE_U128 : Z := 2.
Definition UETYPE_FLT : Z := 3.

Section Parse.
(** What [strtod] leaves at its end pointer. *)
Context (strtod_rest : list Z -> list Z).

(** The type of a number; a negative length makes [memcpy] leave the buffer. *)
Definition getExprType (vals : list Z) (pred : nat) (plen : Z) : option Z :=
  if 64 <=? plen then Some UETYPE_ERR
  else if plen <? 0 then None
  else
    b ← slice vals pred (Z.to_nat plen);
    let s := cstring b in
    Some (if is_int s then UETYPE_INT else if is_float strtod_rest s then UETYPE_FLT
          else if is_u128 s then UETYPE_U128 else UETYPE_ERR).

(** What the parser knows of the table and has found out: the types of its
    columns, the columns named in the statement, the auto-increment, the key
    and the slices. *)
Record pv_t := Pv {
  pv_types : list Z; pv_ics : list Z; pv_ainc : Z; pv_pk : option (list Z); pv_pklen : Z; pv_ai : bool;
  pv_cofsts : list (Z * Z);
}.
Definition set_types st x := Pv x (pv_ics st) (pv_ainc st) (pv_pk st) (pv_pklen st) (pv_ai st) (pv_cofsts st).
Definition set_ics st x := Pv (pv_types st) x (pv_ainc st) (pv_pk st) (pv_pklen st) (pv_ai st) (pv_cofsts st).
Definition set_cofsts st x := Pv (pv_types st) (pv_ics st) (pv_ainc st) (pv_pk st) (pv_pklen st) (pv_ai st) x.

(** The type of a new column of a hashable table, from its first value; the
    inner [None] is an error. *)
Definition determineColType (vals : list Z) (nextc : nat) (st : pv_t) : option (option (pv_t * Z)) :=
  c ← vals !! nextc;
  t ← (if c =? 39 then Some (Some COL_TYPE_STRING)
       else
         nxc ← str_next_unescaped_chr vals nextc nextc 44;
         len ← (match nxc with
                | Some n => Some (Z.of_nat n - Z.of_nat nextc - 1)
                | None => n ← strlen vals nextc; Some (Z.of_nat n - 1)
                end);
         uet ← getExprType vals nextc (s32 len);
         Some (if uet =? UETYPE_FLT then Some COL_TYPE_FLOAT else if uet =? UETYPE_INT then Some COL_TYPE_LONG else None));
  Some (t ← t; Some (set_types st (pv_types st ++ [t]), t)).

Definition validate_parsed_insert_val (vals : list Z) (ctype : Z) (start nextc : nat) : option (option nat) :=
  if C_IS_S ctype then
    match nextc with
    | O => None
    | S endc =>
        endc ← REV_SKIP_SPACES vals endc;
        start ← SKIP_SPACES vals start;
        c ← vals !! start; e ← vals !! endc;
        Some (if negb (c =? 39) || negb (e =? 39) then None else Some nextc)
    end
  else Some (Some nextc).
Definition parse_insert_val_list_nextc (vals : list Z) (start : nat) (ctype : Z) : option (option nat) :=
  nextc ← get_next_insert_value_token vals start;
  match nextc with
  | None => Some None
  | Some nextc => validate_parsed_insert_val vals ctype start nextc
  end.

(** [assign_pk]: the text of the key, or the next number; [Some None] is [0]. *)
Definition assign_pk (vals : list Z) (cstart : nat) (pklen : Z) (st : pv_t) : option (option pv_t) :=
  if pklen =? 0 then
    pktyp ← pv_types st !! 0%nat;
    Some (if C_IS_NUM pktyp then
            let '(pk, n, ainc) := assign_auto_inc_pk pktyp (pv_ainc st) in
            Some (Pv (pv_types st) (pv_ics st) ainc (Some pk) n true (pv_cofsts st))
          else None)
  else
    s ← slice vals cstart (Z.to_nat pklen);
    Some (Some (Pv (pv_types st) (pv_ics st) (pv_ainc st) (Some s) pklen (pv_ai st) (pv_cofsts st))).

Section Columns.
(** [ncols], [lncols], and whether columns are named ([pcols]). *)
Context (ncols lncols pcols : Z).
Definition named : bool := negb (pcols =? 0).
Definition cmatch_of (st : pv_t) (numc : nat) : option Z := if named then pv_ics st !! numc else Some (Z.of_nat numc).
Definition type_of (st : pv_t) (cmatch : Z) : option Z :=
  if cmatch =? -1 then Some COL_TYPE_NONE else if cmatch <? 0 then None else pv_types st !! Z.to_nat cmatch.
(** [cofsts[cmatch].i] and [.j]; the array has [ncols] elements. *)
Definition set_cofst (st : pv_t) (cmatch : Z) (o : Z * Z) : option pv_t :=
  if (cmatch <? 0) || (Z.of_nat (length (pv_cofsts st)) <=? cmatch) then None
  else Some (set_cofsts st (<[Z.to_nat cmatch := o]> (pv_cofsts st))).

(** The key between [token] and the comma at [nextc]. *)
Definition parse_pk (vals : list Z) (ctype : Z) (token nextc : nat) (st : pv_t) : option (option pv_t) :=
  cstart ← SKIP_SPACES vals token;
  match nextc with
  | O => None
  | S cend =>
      cend ← REV_SKIP_SPACES vals cend;
      r ← (if C_IS_S ctype then
             c ← vals !! cstart; e ← vals !! cend;
             Some (if negb (c =? 39) || negb (e =? 39) then None else Some (S cstart, Z.of_nat cend - 1))
           else Some (Some (cstart, Z.of_nat cend)));
      match r with
      | None => Some None
      | Some (cstart, cend) =>
          let pklen := cend - Z.of_nat cstart + 1 in
          assign_pk vals cstart (if pklen <? 0 then 0 else pklen) st
      end
  end.

(** The loop; it ends at the last value, which no comma follows. *)
Fixpoint vals_loop (fuel : nat) (vals : list Z) (mvals token nextc numc : nat) (st : pv_t) : option (option (pv_t * nat * nat)) :=
  match fuel with
  | O => None
  | S fuel =>
      cmatch ← cmatch_of st numc;
      if (ncols <=? cmatch) || (cmatch <? -1) then Some None
      else
        ctype ← type_of st cmatch;
        d ← (if C_IS_N ctype then
               d ← determineColType vals nextc st;
               match d with
               | None => Some None
               | Some (st, ctype) =>
                   if (length (pv_ics st) <=? numc)%nat then None
                   else
                     let cmatch := Z.of_nat (length (pv_types st)) - 1 in
                     Some (Some (set_ics st (<[numc := cmatch]> (pv_ics st)), ctype, cmatch))
               end
             else Some (Some (st, ctype, cmatch)));
        match d with
        | None => Some None
        | Some (st, ctype, cmatch) =>
            n ← parse_insert_val_list_nextc vals nextc ctype;
            match n with
            | None => Some (Some (st, token, numc))
            | Some nextc =>
                r ← (if cmatch =? 0 then parse_pk vals ctype token nextc st else Some (Some st));
                match r with
                | None => Some None
                | Some st =>
                    st ← set_cofst st cmatch (Z.of_nat token - Z.of_nat mvals, Z.of_nat nextc - Z.of_nat mvals);
                    nextc' ← SKIP_SPACES vals (S nextc);
                    vals_loop fuel vals mvals (S nextc) nextc' (S numc) st
                end
            end
        end
  end.

(** The last value, from [token] to the closing parenthesis. *)
Definition parse_last (vals : list Z) (mvals token numc : nat) (st : pv_t) : option (option pv_t) :=
  len ← strlen vals token;
  match (token + len)%nat with
  | O => None
  | S e =>
      e ← REV_SKIP_SPACES vals e;
      c ← vals !! e;
      e ← (if c =? 41 then match e with O => None | S e => Some e end else Some e);
      e ← REV_SKIP_SPACES vals e;
      cmatch ← cmatch_of st numc;
      ctype ← type_of st cmatch;
      let nextc := S e in
      v ← validate_parsed_insert_val vals ctype token nextc;
      match v with
      | None => Some None
      | Some _ =>
          let len := Z.of_nat nextc - Z.of_nat token in
          st ← set_cofst st cmatch (Z.of_nat token - Z.of_nat mvals, Z.of_nat token - Z.of_nat mvals + len);
          if cmatch =? 0 then
            if len <? 0 then None
            else assign_pk vals token len (Pv (pv_types st) (pv_ics st) (pv_ainc st) (pv_pk st) len (pv_ai st) (pv_cofsts st))
          else Some (Some st)
      end
  end.

(** [sdslen] is the length of the buffer without its terminator.  [Some None] is
    [NULL]; otherwise [mvals] and what was found. *)
Definition parseRowVals (vals : list Z) (st : pv_t) : option (option (nat * pv_t)) :=
  match (length vals - 1)%nat with
  | O => None
  | S e =>
      evals ← REV_SKIP_SPACES vals e;
      svals ← SKIP_SPACES vals 0;
      c ← vals !! svals; e ← vals !! evals;
      if negb (c =? 40) || negb (e =? 41) then Some None
      else
        mvals ← SKIP_SPACES vals (S svals);
        r ← vals_loop (S (length vals)) vals mvals mvals mvals 0 st;
        match r with
        | None => Some None
        | Some (st, token, numc) =>
            r ← parse_last vals mvals token numc st;
            match r with
            | None => Some None
            | Some st =>
                let numc := Z.of_nat (S numc) in
                r ← (if pv_pklen st =? 0 then assign_pk vals token 0 st else Some (Some st));
                match r with
                | None => Some None
                | Some st => Some (if negb (numc =? if named then pcols else lncols) then None else Some (mvals, st))
                end
            end
        end
  end.
End Columns.

(** What [insertCommit] gives it: no slices, no key yet. *)
Definition init_pv (types ics : list Z) (ainc ncols : Z) : pv_t :=
  Pv types ics ainc None 0 false (replicate (Z.to_nat ncols) (-1, -1)).
End Parse.

(** ** A list of values as text *)

(** Two ways to put the same lists together. *)
Ltac app_eq := repeat (progress (rewrite <- ?app_assoc; cbn [app])); reflexivity.

Definition blanks (l : list Z) : bool := forallb ISBLANK l.
(** A value with the blanks around it. *)
Record value := Val { v_lead : list Z; v_chunks : list chunk; v_trail : list Z }.
Definition v_core (v : value) : list Z := chunks_text (v_chunks v).
Definition v_text (v : value) : list Z := v_lead v ++ v_core v ++ v_trail v.

Definition solid (c : Z) : bool := negb (ISBLANK c) && negb (c =? 0).
(** Not empty, without blanks at its ends; a TEXT is one quoted text. *)
Definition core_ok (s : list Z) : bool :=
  match head s, last s with Some a, Some b => solid a && solid b | _, _ => false end.
Definition value_ok (ctype : Z) (v : value) : Prop :=
  blanks (v_lead v) = true /\ blanks (v_trail v) = true /\ forallb chunk_ok (v_chunks v) = true /\ core_ok (v_core v) = true /\
  (C_IS_S ctype = true -> exists b, v_chunks v = [Text b]).
(** The text of a key: without its quotes. *)
Definition pk_text (ctype : Z) (v : value) : list Z :=
  if C_IS_S ctype then match v_chunks v with [Text b] => b | _ => [] end else v_core v.

Lemma skip_blanks pre bl c post : blanks bl = true -> ISBLANK c = false ->
  SKIP_SPACES (pre ++ bl ++ c :: post) (length pre) = Some (length pre + length bl)%nat.
Proof.
  intros Hb Hc. unfold SKIP_SPACES.
  assert (Hf : (length bl < S (length (pre ++ bl ++ c :: post)))%nat) by (rewrite !length_app; cbn; lia).
  revert Hf. generalize (S (length (pre ++ bl ++ c :: post))) as fuel. revert pre.
  induction bl as [|b bl IH]; intros pre fuel Hf; (destruct fuel as [|fuel]; [lia|]); cbn [skip_spaces].
  - cbn [app length]. rewrite list_lookup_middle by done. cbn [mbind option_bind]. rewrite Hc. by rewrite Nat.add_0_r.
  - cbn [blanks forallb] in Hb. apply andb_true_iff in Hb as [Hb1 Hb]. cbn [app length] in *.
    rewrite list_lookup_middle by done. cbn [mbind option_bind]. rewrite Hb1.
    specialize (IH Hb (pre ++ [b]) fuel ltac:(lia)). rewrite <- app_assoc in IH. cbn [app] in IH.
    rewrite length_app in IH. cbn [length] in IH. replace (S (length pre)) with (length pre + 1)%nat by lia.
    rewrite IH. f_equal. lia.
Qed.

Lemma rev_skip_blanks pre c bl post : blanks bl = true -> solid c = true ->
  REV_SKIP_SPACES (pre ++ c :: bl ++ post) (length pre + length bl) = Some (length pre).
Proof.
  intros Hb Hc. unfold solid in Hc. rewrite andb_true_iff, !negb_true_iff in Hc. destruct Hc as [Hc1 Hc2].
  revert post. induction bl as [|b bl IH] using rev_ind; intros post.
  - cbn [length app]. rewrite Nat.add_0_r.
    assert (E : (pre ++ c :: post) !! length pre = Some c) by (by apply list_lookup_middle).
    destruct (length pre); cbn [REV_SKIP_SPACES]; rewrite E; cbn [mbind option_bind]; by rewrite Hc1, Hc2.
  - unfold blanks in *. rewrite forallb_app in Hb. apply andb_true_iff in Hb as [Hb Hb1]. cbn [forallb] in Hb1.
    rewrite andb_true_r in Hb1. rewrite length_app. cbn [length].
    replace (length pre + (length bl + 1))%nat with (S (length pre + length bl)) by lia. cbn [REV_SKIP_SPACES].
    assert (E : (pre ++ c :: (bl ++ [b]) ++ post) !! S (length pre + length bl) = Some b).
    { replace (pre ++ c :: (bl ++ [b]) ++ post) with ((pre ++ c :: bl) ++ b :: post) by (by rewrite <- !app_assoc).
      apply list_lookup_middle. rewrite length_app. cbn. lia. }
    rewrite E. cbn [mbind option_bind]. rewrite Hb1. cbn [orb].
    replace (pre ++ c :: (bl ++ [b]) ++ post) with (pre ++ c :: bl ++ (b :: post)) by (by rewrite <- !app_assoc).
    by apply IH.
Qed.

Lemma plain_blanks bl : blanks bl = true -> forallb chunk_ok (Plain <$> bl) = true /\ chunks_text (Plain <$> bl) = bl.
Proof.
  induction bl as [|b bl IH]; [done|]. cbn [blanks forallb]. intros [Hb Hbl]%andb_true_iff. destruct (IH Hbl) as [I1 I2].
  split.
  - cbn [fmap list_fmap forallb]. rewrite I1, andb_true_r. cbn [chunk_ok]. unfold ISBLANK in Hb. zcases; try done; lia.
  - change (b :: chunks_text (Plain <$> bl) = b :: bl). by rewrite I2.
Qed.
Lemma chunks_app cs1 cs2 : chunks_text (cs1 ++ cs2) = chunks_text cs1 ++ chunks_text cs2.
Proof. unfold chunks_text. by rewrite fmap_app, concat_app. Qed.

Lemma core_ends s : core_ok s = true -> (exists c r, s = c :: r /\ solid c = true) /\ (exists r c, s = r ++ [c] /\ solid c = true).
Proof.
  unfold core_ok. destruct s as [|a s] using rev_ind; [done|]. clear IHs. rewrite last_snoc.
  destruct (head (s ++ [a])) as [b|] eqn:E; [|done]. intros [H1 H2]%andb_true_iff. split.
  - destruct s as [|c s]; cbn in E; injection E as <-; [by exists a, []|by exists c, (s ++ [a])].
  - by exists s, a.
Qed.
Lemma solid_blank c : solid c = true -> ISBLANK c = false.
Proof. unfold solid. rewrite andb_true_iff, !negb_true_iff. tauto. Qed.

(** The comma or the end after chunks that begin at [start], blanks skipped. *)
Lemma token_end vals pre cs e post start : vals = pre ++ chunks_text cs ++ e :: post -> forallb chunk_ok cs = true ->
  e = 44 \/ e = 0 -> SKIP_SPACES vals start = Some (length pre) ->
  get_next_insert_value_token vals start = Some (if e =? 44 then Some (length pre + length (chunks_text cs))%nat else None).
Proof.
  intros -> Hok He Hs. unfold get_next_insert_value_token. rewrite Hs. cbn [mbind option_bind].
  apply value_loop_ok; [done|done|]. rewrite !length_app. lia.
Qed.

Section Value.
Context (vals pre : list Z) (t : Z) (v : value) (e : Z) (post : list Z).
Context (Hv : vals = pre ++ v_text v ++ e :: post) (Ho : value_ok t v).

Lemma value_start start : start = length pre \/ start = (length pre + length (v_lead v))%nat ->
  SKIP_SPACES vals start = Some (length pre + length (v_lead v))%nat.
Proof.
  destruct Ho as (Hl & Ht & Hc & He & Hs). destruct (core_ends _ He) as ((c & r & E & Hcs) & _). apply solid_blank in Hcs.
  rewrite Hv. unfold v_text. rewrite E. intros [-> | ->].
  - rewrite <- !app_assoc. cbn [app]. by apply skip_blanks.
  - replace (pre ++ (v_lead v ++ (c :: r) ++ v_trail v) ++ e :: post) with ((pre ++ v_lead v) ++ [] ++ c :: (r ++ v_trail v) ++ e :: post)
      by app_eq.
    rewrite <- (length_app pre). rewrite skip_blanks by done. cbn [length]. by rewrite Nat.add_0_r.
Qed.

Definition core_start : nat := length pre + length (v_lead v).
Definition core_end : nat := core_start + length (v_core v) - 1.

Lemma value_end : REV_SKIP_SPACES vals (core_end + length (v_trail v)) = Some core_end.
Proof.
  destruct Ho as (Hl & Ht & Hc & He & Hs). destruct (core_ends _ He) as (_ & r & c & E & Hcs).
  unfold core_end, core_start. rewrite E, length_app. cbn [length]. rewrite Hv. unfold v_text. rewrite E.
  replace (pre ++ (v_lead v ++ (r ++ [c]) ++ v_trail v) ++ e :: post) with ((pre ++ v_lead v ++ r) ++ c :: v_trail v ++ e :: post)
    by (by rewrite <- !app_assoc).
  replace (length pre + length (v_lead v) + (length r + 1) - 1)%nat with (length (pre ++ v_lead v ++ r)) by (rewrite !length_app; lia).
  by apply rev_skip_blanks.
Qed.

Lemma value_length : (length pre + length (v_text v) = S (core_end + length (v_trail v)))%nat.
Proof.
  destruct Ho as (_ & _ & _ & He & _). destruct (core_ends _ He) as ((c & r & E & _) & _).
  unfold core_end, core_start, v_text. rewrite !length_app, E. cbn [length]. lia.
Qed.

(** The quotes of a TEXT. *)
Lemma value_quotes : C_IS_S t = true -> vals !! core_start = Some 39 /\ vals !! core_end = Some 39.
Proof.
  destruct Ho as (_ & _ & _ & _ & Hs). intros Ht. destruct (Hs Ht) as [b Hb].
  assert (Ec : v_core v = 39 :: b ++ [39]) by (unfold v_core; rewrite Hb; unfold chunks_text; cbn; by rewrite app_nil_r).
  unfold core_end, core_start. rewrite Hv. unfold v_text. rewrite Ec. split.
  - replace (pre ++ (v_lead v ++ (39 :: b ++ [39]) ++ v_trail v) ++ e :: post)
      with ((pre ++ v_lead v) ++ 39 :: (b ++ [39]) ++ v_trail v ++ e :: post) by app_eq.
    apply list_lookup_middle. by rewrite length_app.
  - replace (pre ++ (v_lead v ++ (39 :: b ++ [39]) ++ v_trail v) ++ e :: post)
      with ((pre ++ v_lead v ++ 39 :: b) ++ 39 :: v_trail v ++ e :: post) by app_eq.
    apply list_lookup_middle. cbn [length]. rewrite !length_app. cbn [length]. rewrite ?length_app. cbn [length]. lia.
Qed.

Lemma value_next start : e = 44 -> SKIP_SPACES vals start = Some core_start ->
  parse_insert_val_list_nextc vals start t = Some (Some (length pre + length (v_text v))%nat).
Proof.
  intros Ee Hst. pose proof Ho as (_ & Htr & Hc & _ & _). destruct (plain_blanks _ Htr) as [P1 P2].
  unfold parse_insert_val_list_nextc. rewrite (token_end vals (pre ++ v_lead v) (v_chunks v ++ (Plain <$> v_trail v)) e post).
  - rewrite Ee, chunks_app, P2, !length_app. change (44 =? 44) with true. cbv iota. cbn [mbind option_bind].
    fold (v_core v). replace (length pre + length (v_lead v) + (length (v_core v) + length (v_trail v)))%nat
      with (length pre + length (v_text v))%nat by (unfold v_text; rewrite !length_app; lia).
    rewrite value_length. unfold validate_parsed_insert_val. destruct (C_IS_S t) eqn:Et; [|done].
    rewrite value_end, Hst. cbn [mbind option_bind]. destruct (value_quotes Et) as [-> ->]. done.
  - rewrite Hv, chunks_app, P2. unfold v_text, v_core. app_eq.
  - by rewrite forallb_app, Hc, P1.
  - by left.
  - rewrite Hst. unfold core_start. by rewrite length_app.
Qed.

Lemma slice_core : slice vals core_start (length (v_core v)) = Some (v_core v).
Proof.
  rewrite Hv. unfold v_text. replace (pre ++ (v_lead v ++ v_core v ++ v_trail v) ++ e :: post)
    with ((pre ++ v_lead v) ++ v_core v ++ (v_trail v ++ e :: post)) by app_eq.
  apply slice_mid; [unfold core_start; by rewrite length_app|done].
Qed.

Lemma value_pk token st : SKIP_SPACES vals token = Some core_start -> pk_text t v <> [] ->
  parse_pk vals t token (length pre + length (v_text v)) st =
    Some (Some (Pv (pv_types st) (pv_ics st) (pv_ainc st) (Some (pk_text t v)) (Z.of_nat (length (pk_text t v))) (pv_ai st) (pv_cofsts st))).
Proof.
  intros Hst Hne. unfold parse_pk. rewrite Hst, value_length. cbn [mbind option_bind]. rewrite value_end. cbn [mbind option_bind].
  assert (Ha : forall (s : list Z) cs cend, s <> [] -> slice vals cs (length s) = Some s -> cend - Z.of_nat cs + 1 = Z.of_nat (length s) ->
    assign_pk vals cs (if cend - Z.of_nat cs + 1 <? 0 then 0 else cend - Z.of_nat cs + 1) st =
    Some (Some (Pv (pv_types st) (pv_ics st) (pv_ainc st) (Some s) (Z.of_nat (length s)) (pv_ai st) (pv_cofsts st)))).
  { intros s cs cend Hs Hsl ->. assert (0 < length s)%nat by (destruct s; [done|cbn; lia]).
    destruct (Z.ltb_spec (Z.of_nat (length s)) 0); [lia|]. unfold assign_pk.
    destruct (Z.eqb_spec (Z.of_nat (length s)) 0); [lia|]. by rewrite Nat2Z.id, Hsl. }
  unfold pk_text in *. pose proof slice_core as Hsl. destruct (C_IS_S t) eqn:Et.
  - destruct (value_quotes Et) as [-> ->]. cbn [mbind option_bind negb orb Z.eqb Pos.eqb].
    destruct Ho as (_ & _ & _ & _ & Hs). destruct (Hs Et) as [b Hb]. rewrite Hb in *.
    assert (Ec : v_core v = 39 :: b ++ [39]) by (unfold v_core; rewrite Hb; unfold chunks_text; cbn; by rewrite app_nil_r).
    apply Ha; [done| |].
    + rewrite Hv. unfold v_text. rewrite Ec. replace (pre ++ (v_lead v ++ (39 :: b ++ [39]) ++ v_trail v) ++ e :: post)
        with ((pre ++ v_lead v ++ [39]) ++ b ++ ([39] ++ v_trail v ++ e :: post)) by app_eq.
      apply slice_mid; [unfold core_start; rewrite !length_app; cbn; lia|done].
    + unfold core_end. rewrite Ec. cbn [length]. rewrite length_app. cbn [length]. lia.
  - cbn [mbind option_bind]. apply Ha; [done|done|]. unfold core_end.
    assert (0 < length (v_core v))%nat by (destruct (v_core v); [done|cbn; lia]). lia.
Qed.
End Value.

(** ** The loop over the values *)

Section Loop.
Context (strtod_rest : list Z -> list Z) (ncols lncols pcols : Z).

(** A column, its type and the value given. *)
Definition given : Type := Z * Z * value.
Definition g_value (g : given) : value := g.2.
Definition given_ok (st : pv_t) (j : nat) (g : given) : Prop :=
  let '(cm, t, v) := g in
  cmatch_of pcols st j = Some cm /\ 0 <= cm < ncols /\ type_of st cm = Some t /\ C_IS_N t = false /\ value_ok t v /\
  (cm = 0 -> pk_text t v <> []).
Fixpoint givens_ok (st : pv_t) (j : nat) (gs : list given) : Prop :=
  match gs with [] => True | g :: gs => given_ok st j g /\ givens_ok st (S j) gs end.
Fixpoint gs_text (gs : list given) : list Z := match gs with [] => [] | g :: gs => v_text (g_value g) ++ 44 :: gs_text gs end.

(** What a value does to what is known. *)
Definition place (st : pv_t) (g : given) (o : Z * Z) : pv_t :=
  let '(cm, t, v) := g in
  let st := if cm =? 0 then
              Pv (pv_types st) (pv_ics st) (pv_ainc st) (Some (pk_text t v)) (Z.of_nat (length (pk_text t v))) (pv_ai st) (pv_cofsts st)
            else st in
  set_cofsts st (<[Z.to_nat cm := o]> (pv_cofsts st)).
Fixpoint place_all (pos : Z) (gs : list given) (st : pv_t) : pv_t :=
  match gs with
  | [] => st
  | g :: gs =>
      let n := Z.of_nat (length (v_text (g_value g))) in
      place_all (pos + n + 1) gs (place st g (pos, pos + n))
  end.

Lemma place_same st g o : pv_types (place st g o) = pv_types st /\ pv_ics (place st g o) = pv_ics st /\
  length (pv_cofsts (place st g o)) = length (pv_cofsts st).
Proof. destruct g as [[cm t] v]. unfold place. destruct (cm =? 0); cbn; by rewrite length_insert. Qed.
Lemma given_same st st' j g : pv_types st' = pv_types st -> pv_ics st' = pv_ics st -> given_ok st j g -> given_ok st' j g.
Proof. destruct g as [[cm t] v]. intros E1 E2. unfold given_ok, cmatch_of, type_of. by rewrite E1, E2. Qed.
Lemma givens_same st st' gs : pv_types st' = pv_types st -> pv_ics st' = pv_ics st -> forall j, givens_ok st j gs -> givens_ok st' j gs.
Proof.
  intros E1 E2. induction gs as [|g gs IH]; intros j; [done|]. intros [Hg Hgs].
  split; [by apply (given_same st)|by apply IH].
Qed.

Lemma set_cofst_ok st cm o : 0 <= cm < Z.of_nat (length (pv_cofsts st)) ->
  set_cofst st cm o = Some (set_cofsts st (<[Z.to_nat cm := o]> (pv_cofsts st))).
Proof. intros H. unfold set_cofst. zcases; try lia. done. Qed.

(** A value followed by a comma. *)
Lemma loop_step fuel vals m pre g e post st numc nextc' : e = 44 ->
  vals = pre ++ v_text (g_value g) ++ e :: post -> given_ok st numc g -> Z.of_nat (length (pv_cofsts st)) = ncols -> (m <= length pre)%nat ->
  SKIP_SPACES vals (S (length pre + length (v_text (g_value g)))) = Some nextc' ->
  vals_loop strtod_rest ncols pcols (S fuel) vals m (length pre) (core_start pre (g_value g)) numc st =
  vals_loop strtod_rest ncols pcols fuel vals m (S (length pre + length (v_text (g_value g)))) nextc' (S numc)
    (place st g (Z.of_nat (length pre) - Z.of_nat m, Z.of_nat (length pre) - Z.of_nat m + Z.of_nat (length (v_text (g_value g))))).
Proof.
  intros Ee Hv Hg Hlen Hm Hn. destruct g as [[cm t] v]. cbn [g_value snd] in *. destruct Hg as (Hcm & Hr & Ht & HN & Ho & Hpk).
  cbn [vals_loop]. rewrite Hcm. cbn [mbind option_bind].
  destruct (Z.leb_spec ncols cm); [lia|]. destruct (Z.ltb_spec cm (-1)); [lia|]. cbn [orb].
  rewrite Ht. cbn [mbind option_bind]. rewrite HN. cbn [mbind option_bind].
  pose proof (value_start vals pre t v e post Hv Ho) as Hst.
  rewrite (value_next vals pre t v e post Hv Ho) by (done || by apply Hst; right). cbn [mbind option_bind].
  assert (Eo : Z.of_nat (length pre) - Z.of_nat m + Z.of_nat (length (v_text v)) = Z.of_nat (length pre + length (v_text v)) - Z.of_nat m) by lia.
  unfold place. rewrite Eo. destruct (Z.eqb_spec cm 0) as [E0|E0].
  - rewrite (value_pk vals pre t v e post Hv Ho); [|by apply Hst; left|by apply Hpk]. cbn [mbind option_bind].
    rewrite set_cofst_ok by (cbn [pv_cofsts]; lia). cbn [mbind option_bind]. by rewrite Hn.
  - cbn [mbind option_bind]. rewrite set_cofst_ok by lia. cbn [mbind option_bind]. by rewrite Hn.
Qed.

(** The last value ends the loop. *)
Lemma loop_last fuel vals m pre g bl st numc :
  vals = pre ++ v_text (g_value g) ++ 41 :: bl ++ [0] -> blanks bl = true -> given_ok st numc g ->
  vals_loop strtod_rest ncols pcols (S fuel) vals m (length pre) (core_start pre (g_value g)) numc st = Some (Some (st, length pre, numc)).
Proof.
  intros Hv Hbl Hg. destruct g as [[cm t] v]. cbn [g_value snd] in *. destruct Hg as (Hcm & Hr & Ht & HN & Ho & Hpk).
  cbn [vals_loop]. rewrite Hcm. cbn [mbind option_bind].
  destruct (Z.leb_spec ncols cm); [lia|]. destruct (Z.ltb_spec cm (-1)); [lia|]. cbn [orb].
  rewrite Ht. cbn [mbind option_bind]. rewrite HN. cbn [mbind option_bind].
  pose proof Ho as (_ & Htr & Hc & _). destruct (plain_blanks _ Htr) as [P1 P2]. destruct (plain_blanks _ Hbl) as [Q1 Q2].
  unfold parse_insert_val_list_nextc.
  rewrite (token_end vals (pre ++ v_lead v) (v_chunks v ++ (Plain <$> v_trail v) ++ [Plain 41] ++ (Plain <$> bl)) 0 []).
  - done.
  - rewrite Hv, !chunks_app, P2, Q2. unfold v_text, v_core. change (chunks_text [Plain 41]) with [41]. app_eq.
  - by rewrite !forallb_app, Hc, P1, Q1.
  - by right.
  - rewrite (value_start vals pre t v 41 (bl ++ [0]) Hv Ho) by (by right). by rewrite length_app.
Qed.

Definition lead_of (gs : list given) : nat := match gs with g :: _ => length (v_lead (g_value g)) | [] => 0%nat end.

Lemma loop_ok vals m bl : blanks bl = true -> forall gs pre g st numc fuel,
  vals = pre ++ gs_text gs ++ v_text (g_value g) ++ 41 :: bl ++ [0] -> givens_ok st numc (gs ++ [g]) ->
  Z.of_nat (length (pv_cofsts st)) = ncols -> (m <= length pre)%nat -> (length gs < fuel)%nat ->
  vals_loop strtod_rest ncols pcols fuel vals m (length pre) (length pre + lead_of (gs ++ [g])) numc st =
    Some (Some (place_all (Z.of_nat (length pre) - Z.of_nat m) gs st, length (pre ++ gs_text gs), (numc + length gs)%nat)).
Proof.
  intros Hbl. induction gs as [|g1 gs IH]; intros pre g st numc fuel Hv Hok Hlen Hm Hf; (destruct fuel as [|fuel]; [lia|]).
  - cbn [app gs_text lead_of length] in *. rewrite app_nil_r, Nat.add_0_r. apply (loop_last fuel vals m pre g bl); [done|done|apply Hok].
  - cbn [app gs_text lead_of length] in *. destruct Hok as [Hg1 Hok].
    set (pre' := pre ++ v_text (g_value g1) ++ [44]).
    assert (Hv' : vals = pre' ++ gs_text gs ++ v_text (g_value g) ++ 41 :: bl ++ [0]) by (rewrite Hv; unfold pre'; app_eq).
    assert (Hpre : length pre' = S (length pre + length (v_text (g_value g1)))).
    { unfold pre'. rewrite !length_app. cbn. lia. }
    change (length pre + length (v_lead (g_value g1)))%nat with (core_start pre (g_value g1)).
    assert (Hskip : SKIP_SPACES vals (length pre') = Some (length pre' + lead_of (gs ++ [g]))%nat).
    { destruct gs as [|g2 gs].
      - destruct g as [[cm t] v]. destruct Hok as [(_ & _ & _ & _ & Ho & _) _].
        apply (value_start vals pre' t v 41 (bl ++ [0])); [done|done|by left].
      - destruct g2 as [[cm t] v]. destruct Hok as [(_ & _ & _ & _ & Ho & _) _].
        apply (value_start vals pre' t v 44 (gs_text gs ++ v_text (g_value g) ++ 41 :: bl ++ [0])); [rewrite Hv'; cbn [gs_text g_value snd]; app_eq|done|by left]. }
    rewrite Hpre in Hskip.
    rewrite (loop_step fuel vals m pre g1 44 (gs_text gs ++ v_text (g_value g) ++ 41 :: bl ++ [0]) st numc
      (S (length pre + length (v_text (g_value g1))) + lead_of (gs ++ [g]))); try done; [|rewrite Hv; app_eq].
    rewrite <- Hpre. destruct (place_same st g1 (Z.of_nat (length pre) - Z.of_nat m,
      Z.of_nat (length pre) - Z.of_nat m + Z.of_nat (length (v_text (g_value g1))))) as (S1 & S2 & S3).
    rewrite (IH pre' g); [|done|by apply (givens_same st)|by rewrite S3|lia|lia].
    cbn [place_all]. do 3 f_equal; [f_equal; [f_equal; lia|]|lia].
    unfold pre'. f_equal. app_eq.
Qed.
End Loop.

(** ** The end of the text *)

Lemma closes_nonzero x b : closes x b = true -> Forall (fun c => c <> 0) b.
Proof.
  unfold closes. rewrite bool_decide_eq_true. generalize false as odd. induction b as [|c b IH]; intros odd; [constructor|].
  cbn. destruct ((c =? x) && negb odd); [done|]. destruct (Z.eqb_spec c 0); [done|].
  destruct (unescaped_from _ _ (b ++ [x])) as [[n'|]|] eqn:E; [|done..]. intros [= ->]. constructor; [done|by eapply IH].
Qed.
Lemma chunks_nonzero cs : forallb chunk_ok cs = true -> Forall (fun c => c <> 0) (chunks_text cs).
Proof.
  induction cs as [|c cs IH]; [constructor|]. cbn [forallb]. intros [Hc Hcs]%andb_true_iff.
  change (chunks_text (c :: cs)) with (chunk_text c ++ chunks_text cs). apply Forall_app. split; [|by apply IH].
  destruct c as [c|b|b|b]; cbn [chunk_ok chunk_text] in *.
  - constructor; [|constructor]. unfold solid in Hc. destruct (Z.eqb_spec c 0); [done|done].
  - constructor; [done|]. apply Forall_app. split; [by apply (closes_nonzero 39)|by repeat constructor].
  - constructor; [done|]. apply Forall_app. split; [by apply (closes_nonzero 41)|by repeat constructor].
  - constructor; [done|]. apply Forall_app. split; [by apply (closes_nonzero 125)|by repeat constructor].
Qed.
Lemma blanks_nonzero bl : blanks bl = true -> Forall (fun c => c <> 0) bl.
Proof. intros H. rewrite <- (proj2 (plain_blanks _ H)). apply chunks_nonzero, plain_blanks, H. Qed.
Lemma text_nonzero t v : value_ok t v -> Forall (fun c => c <> 0) (v_text v).
Proof.
  intros (Hl & Ht & Hc & _). unfold v_text. rewrite !Forall_app. split_and!;
    [by apply blanks_nonzero|by apply chunks_nonzero|by apply blanks_nonzero].
Qed.

Lemma strlen_at pre s : Forall (fun c => c <> 0) s -> strlen (pre ++ s ++ [0]) (length pre) = Some (length s).
Proof.
  intros Hs. unfold strlen. rewrite drop_app_length.
  assert (E : strchr (s ++ [0]) 0 = Some (Some (length s))).
  { induction Hs as [|c s Hc Hs IH]; [done|]. cbn [app strchr length]. destruct (Z.eqb_spec c 0); [done|]. by rewrite IH. }
  by rewrite E.
Qed.

Section Whole.
Context (strtod_rest : list Z -> list Z) (ncols lncols pcols : Z).
#[local] Abbreviation given_ok := (given_ok ncols pcols).
#[local] Abbreviation givens_ok := (givens_ok ncols pcols).

(** The last value, without the blanks after it. *)
Lemma last_ok vals m pre g bl st numc :
  vals = pre ++ v_text (g_value g) ++ 41 :: bl ++ [0] -> blanks bl = true -> given_ok st numc g -> g.1.1 <> 0 ->
  Z.of_nat (length (pv_cofsts st)) = ncols -> (m <= length pre)%nat ->
  parse_last pcols vals m (length pre) numc st =
    Some (Some (place st g (Z.of_nat (length pre) - Z.of_nat m,
      Z.of_nat (length pre) - Z.of_nat m + Z.of_nat (length (v_lead (g_value g) ++ v_core (g_value g)))))).
Proof.
  intros Hv Hbl Hg Hne Hlen Hm. destruct g as [[cm t] v]. cbn [g_value fst snd] in *. destruct Hg as (Hcm & Hr & Ht & HN & Ho & _).
  assert (Hl : strlen vals (length pre) = Some (length (v_text v) + S (length bl))%nat).
  { replace vals with (pre ++ (v_text v ++ 41 :: bl) ++ [0]) by (rewrite Hv; app_eq). rewrite strlen_at; [by rewrite length_app|].
    apply Forall_app. split; [by eapply text_nonzero|]. constructor; [done|by apply blanks_nonzero]. }
  unfold parse_last. rewrite Hl. cbn [mbind option_bind].
  replace (length pre + (length (v_text v) + S (length bl)))%nat with (S (length (pre ++ v_text v) + length bl)) by (rewrite length_app; lia).
  assert (Hend : REV_SKIP_SPACES vals (length (pre ++ v_text v) + length bl) = Some (length (pre ++ v_text v))).
  { replace vals with ((pre ++ v_text v) ++ 41 :: bl ++ [0]) by (rewrite Hv; app_eq). by apply rev_skip_blanks. }
  rewrite Hend. cbn [mbind option_bind].
  assert (Hp : vals !! length (pre ++ v_text v) = Some 41).
  { replace vals with ((pre ++ v_text v) ++ 41 :: bl ++ [0]) by (rewrite Hv; app_eq). by apply list_lookup_middle. }
  rewrite Hp. cbn [mbind option_bind]. change (41 =? 41) with true. cbv iota.
  rewrite length_app, (value_length pre t v Ho). cbn [mbind option_bind].
  rewrite (value_end vals pre t v 41 (bl ++ [0]) Hv Ho). cbn [mbind option_bind]. rewrite Hcm. cbn [mbind option_bind].
  rewrite Ht. cbn [mbind option_bind]. unfold validate_parsed_insert_val.
  assert (Hval : (if C_IS_S t then
      endc ← REV_SKIP_SPACES vals (core_end pre v); start ← SKIP_SPACES vals (length pre);
      c ← vals !! start; e ← vals !! endc; Some (if negb (c =? 39) || negb (e =? 39) then None else Some (S (core_end pre v)))
    else Some (Some (S (core_end pre v)))) = Some (Some (S (core_end pre v)))).
  { destruct (C_IS_S t) eqn:Et; [|done]. rewrite (value_start vals pre t v 41 (bl ++ [0]) Hv Ho) by (by left).
    destruct (value_quotes vals pre t v 41 (bl ++ [0]) Hv Ho Et) as [H1 H2].
    assert (Hr2 : REV_SKIP_SPACES vals (core_end pre v) = Some (core_end pre v)).
    { destruct (core_end pre v); cbn [REV_SKIP_SPACES]; by rewrite H2. }
    rewrite Hr2. cbn [mbind option_bind]. fold (core_start pre v). rewrite H1, H2. done. }
  rewrite Hval. cbn [mbind option_bind].
  rewrite set_cofst_ok by lia. cbn [mbind option_bind]. destruct (Z.eqb_spec cm 0); [done|]. unfold place.
  destruct (Z.eqb_spec cm 0); [done|]. do 5 f_equal. destruct Ho as (_ & _ & _ & He & _).
  destruct (core_ends _ He) as ((c & r & E & _) & _). unfold core_end, core_start. rewrite length_app, E. cbn [length]. lia.
Qed.

(** The next number, when no key is given. *)
Definition finish (pktyp : Z) (st : pv_t) : pv_t :=
  if pv_pklen st =? 0 then
    let '(pk, n, ainc) := assign_auto_inc_pk pktyp (pv_ainc st) in
    Pv (pv_types st) (pv_ics st) ainc (Some pk) n true (pv_cofsts st)
  else st.

Lemma first_ok gs g st n s : givens_ok st n (gs ++ [g]) -> lead_of (gs ++ [g]) = 0%nat ->
  exists c r, gs_text gs ++ v_text (g_value g) ++ s = c :: r /\ ISBLANK c = false.
Proof.
  assert (Hh : forall t v s, value_ok t v -> length (v_lead v) = 0%nat -> exists c r, v_text v ++ s = c :: r /\ ISBLANK c = false).
  { intros t v s' (_ & _ & _ & He & _) Hl. destruct (core_ends _ He) as ((c & r & E & Hc) & _). unfold v_text.
    destruct (v_lead v); [|done]. rewrite E. exists c, ((r ++ v_trail v) ++ s'). split; [app_eq|by apply solid_blank]. }
  intros Hok Hlead. destruct gs as [|[[cm t] v] gs]; cbn [app gs_text g_value snd lead_of] in *.
  - destruct g as [[cm t] v]. destruct Hok as [(_ & _ & _ & _ & Ho & _) _]. by eapply Hh.
  - destruct Hok as [(_ & _ & _ & _ & Ho & _) _]. rewrite <- app_assoc. by eapply Hh.
Qed.

Lemma gs_text_len gs : (length gs <= length (gs_text gs))%nat.
Proof. induction gs as [|g gs IH]; [done|]. cbn [gs_text length]. rewrite length_app. cbn [length]. lia. Qed.

Lemma place_all_same gs : forall pos st, pv_types (place_all pos gs st) = pv_types st /\ pv_ics (place_all pos gs st) = pv_ics st /\
  length (pv_cofsts (place_all pos gs st)) = length (pv_cofsts st).
Proof.
  induction gs as [|g gs IH]; intros pos st; [done|]. cbn [place_all].
  destruct (IH (pos + Z.of_nat (length (v_text (g_value g))) + 1) (place st g (pos, pos + Z.of_nat (length (v_text (g_value g)))))) as (-> & -> & ->).
  apply place_same.
Qed.

(** The parentheses around the list. *)
Lemma parens_ok b1 b2 b3 (body : list Z) c r : body = c :: r -> ISBLANK c = false ->
  blanks b1 = true -> blanks b2 = true -> blanks b3 = true ->
  let vals := b1 ++ 40 :: b2 ++ body ++ 41 :: b3 ++ [0] in
  exists e evals, (length vals - 1)%nat = S e /\ REV_SKIP_SPACES vals e = Some evals /\ vals !! evals = Some 41 /\
    SKIP_SPACES vals 0 = Some (length b1) /\ vals !! length b1 = Some 40 /\
    SKIP_SPACES vals (S (length b1)) = Some (length (b1 ++ 40 :: b2)).
Proof.
  intros Ec Hc H1 H2 H3 vals. set (pre := b1 ++ 40 :: b2 ++ body).
  assert (Hv : vals = pre ++ 41 :: b3 ++ [0]) by (unfold vals, pre; app_eq).
  exists (length pre + length b3)%nat, (length pre). split_and!.
  - rewrite Hv, length_app. cbn [length]. rewrite length_app. cbn. lia.
  - rewrite Hv. by apply rev_skip_blanks.
  - rewrite Hv. by apply list_lookup_middle.
  - exact (skip_blanks [] b1 40 (b2 ++ body ++ 41 :: b3 ++ [0]) H1 eq_refl).
  - by apply list_lookup_middle.
  - replace vals with ((b1 ++ [40]) ++ b2 ++ c :: r ++ 41 :: b3 ++ [0]) by (unfold vals; rewrite Ec; app_eq).
    replace (S (length b1)) with (length (b1 ++ [40])) by (rewrite length_app; cbn; lia). rewrite skip_blanks by done.
    f_equal. rewrite !length_app. cbn. lia.
Qed.

Lemma parse_ok b1 b2 b3 gs g st pktyp :
  let vals := b1 ++ 40 :: b2 ++ (gs_text gs ++ v_text (g_value g)) ++ 41 :: b3 ++ [0] in
  let n := Z.of_nat (length (gs_text gs)) in
  let st' := place (place_all 0 gs st) g (n, n + Z.of_nat (length (v_lead (g_value g) ++ v_core (g_value g)))) in
  blanks b1 = true -> blanks b2 = true -> blanks b3 = true -> lead_of (gs ++ [g]) = 0%nat ->
  givens_ok st 0 (gs ++ [g]) -> g.1.1 <> 0 -> Z.of_nat (length (pv_cofsts st)) = ncols ->
  Z.of_nat (S (length gs)) = (if named pcols then pcols else lncols) ->
  pv_types st !! 0%nat = Some pktyp -> (pv_pklen st' = 0 -> C_IS_NUM pktyp = true) ->
  parseRowVals strtod_rest ncols lncols pcols vals st = Some (Some (length (b1 ++ 40 :: b2), finish pktyp st')).
Proof.
  intros vals n st' H1 H2 H3 Hlead Hok Hne Hlen Hcnt Hty Hnum.
  destruct (first_ok gs g st 0 [] Hok Hlead) as (c & r & Ec & Hc). rewrite app_nil_r in Ec.
  destruct (parens_ok b1 b2 b3 _ c r Ec Hc H1 H2 H3) as (e & evals & E1 & E2 & E3 & E4 & E5 & E6). fold vals in E1, E2, E3, E4, E5, E6.
  unfold parseRowVals. rewrite E1, E2, E4. cbn [mbind option_bind]. rewrite E5, E3. cbn [mbind option_bind].
  change (negb (40 =? 40) || negb (41 =? 41)) with false. cbv iota. rewrite E6. cbn [mbind option_bind].
  set (pre := b1 ++ 40 :: b2) in *.
  assert (Hvals : vals = pre ++ gs_text gs ++ v_text (g_value g) ++ 41 :: b3 ++ [0]) by (unfold vals, pre; app_eq).
  pose proof (loop_ok strtod_rest ncols pcols vals (length pre) b3 H3 gs pre g st 0 (S (length vals)) Hvals Hok Hlen (le_n _)) as HL.
  rewrite Hlead, Nat.add_0_r, Z.sub_diag in HL.
  rewrite HL by (pose proof (gs_text_len gs); rewrite Hvals, !length_app; lia). clear HL. cbn [mbind option_bind Nat.add].
  destruct (place_all_same gs 0 st) as (S1 & S2 & S3).
  assert (Hg : given_ok (place_all 0 gs st) (length gs) g).
  { apply (given_same _ _ st); [done|done|]. clear -Hok. change (length gs) with (0 + length gs)%nat. revert Hok. generalize 0%nat as k.
    induction gs as [|g' gs IH]; intros k; cbn [app length]; [rewrite Nat.add_0_r; by intros [? _]|].
    intros [_ Hok]. specialize (IH _ Hok). by rewrite Nat.add_succ_r. }
  rewrite (last_ok vals (length pre) (pre ++ gs_text gs) g b3); [|rewrite Hvals; app_eq|done|done|done|by rewrite S3|rewrite length_app; lia].
  cbn [mbind option_bind].
  replace (Z.of_nat (length (pre ++ gs_text gs)) - Z.of_nat (length pre)) with n by (rewrite length_app; unfold n; lia). fold st'.
  assert (Hfin : (if pv_pklen st' =? 0 then assign_pk vals (length (pre ++ gs_text gs)) 0 st' else Some (Some st')) = Some (Some (finish pktyp st'))).
  { unfold finish. destruct (Z.eqb_spec (pv_pklen st') 0) as [E|E]; [|done]. unfold assign_pk. change (0 =? 0) with true. cbv iota.
    destruct (place_same (place_all 0 gs st) g (n, n + Z.of_nat (length (v_lead (g_value g) ++ v_core (g_value g))))) as (S1' & _).
    change (pv_types st' = pv_types (place_all 0 gs st)) in S1'. rewrite S1', S1, Hty. cbn [mbind option_bind]. rewrite (Hnum E). by destruct (assign_auto_inc_pk pktyp (pv_ainc st')) as [[? ?] ?]. }
  rewrite Hfin. cbn [mbind option_bind]. by rewrite Hcnt, Z.eqb_refl.
Qed.
End Whole.

(** ** What was found *)

Definition column (g : given) : Z := g.1.1.

Lemma place_other st g o c : 0 <= c -> 0 <= column g -> column g <> c -> pv_cofsts (place st g o) !! Z.to_nat c = pv_cofsts st !! Z.to_nat c.
Proof.
  destruct g as [[cm t] v]. unfold column, place. cbn. intros Hc Hg Hne. destruct (cm =? 0); cbn; apply list_lookup_insert_ne; lia.
Qed.
Lemma place_at st g o : 0 <= column g < Z.of_nat (length (pv_cofsts st)) -> pv_cofsts (place st g o) !! Z.to_nat (column g) = Some o.
Proof.
  destruct g as [[cm t] v]. unfold column, place. cbn. intros Hc. destruct (cm =? 0); cbn; apply list_lookup_insert_eq; lia.
Qed.

Lemma place_all_other gs : forall pos st c, 0 <= c -> Forall (fun g => 0 <= column g) gs -> c ∉ (column <$> gs) ->
  pv_cofsts (place_all pos gs st) !! Z.to_nat c = pv_cofsts st !! Z.to_nat c.
Proof.
  induction gs as [|g gs IH]; intros pos st c Hc HF Hn; [done|]. cbn [place_all]. apply Forall_cons in HF as [Hg HF].
  rewrite fmap_cons, not_elem_of_cons in Hn. destruct Hn as [H1 H2]. rewrite IH by done. by apply place_other.
Qed.

Lemma place_all_at gs : forall pos st j g, Forall (fun g => 0 <= column g < Z.of_nat (length (pv_cofsts st))) gs ->
  NoDup (column <$> gs) -> gs !! j = Some g ->
  let i := pos + Z.of_nat (length (gs_text (take j gs))) in
  pv_cofsts (place_all pos gs st) !! Z.to_nat (column g) = Some (i, i + Z.of_nat (length (v_text (g_value g)))).
Proof.
  induction gs as [|g1 gs IH]; intros pos st j g HF Hn Hj; [done|]. cbn [place_all]. apply Forall_cons in HF as [Hg HF].
  rewrite fmap_cons in Hn. apply NoDup_cons in Hn as [Hn1 Hn2]. destruct j as [|j].
  - injection Hj as ->. cbn [take gs_text length]. rewrite Z.add_0_r. rewrite place_all_other; [by apply place_at|lia| |done].
    eapply Forall_impl; [exact HF|]. cbn. lia.
  - cbn [lookup list_lookup] in Hj. rewrite (IH _ _ j g); [| |done|done].
    + cbn [take gs_text]. rewrite length_app. cbn [length]. f_equal. f_equal; lia.
    + by destruct (place_same st g1 (pos, pos + Z.of_nat (length (v_text (g_value g1))))) as (_ & _ & ->).
Qed.

Lemma place_pk st g o : column g <> 0 ->
  pv_pk (place st g o) = pv_pk st /\ pv_pklen (place st g o) = pv_pklen st /\ pv_ai (place st g o) = pv_ai st /\ pv_ainc (place st g o) = pv_ainc st.
Proof. destruct g as [[cm t] v]. unfold column, place. cbn. by destruct (Z.eqb_spec cm 0). Qed.
Lemma place_all_pk gs : forall pos st, 0 ∉ (column <$> gs) ->
  pv_pk (place_all pos gs st) = pv_pk st /\ pv_pklen (place_all pos gs st) = pv_pklen st /\
  pv_ai (place_all pos gs st) = pv_ai st /\ pv_ainc (place_all pos gs st) = pv_ainc st.
Proof.
  induction gs as [|g gs IH]; intros pos st Hn; [done|]. cbn [place_all]. rewrite fmap_cons, not_elem_of_cons in Hn. destruct Hn as [H1 H2].
  destruct (IH (pos + Z.of_nat (length (v_text (g_value g))) + 1) (place st g (pos, pos + Z.of_nat (length (v_text (g_value g))))) H2) as (-> & -> & -> & ->).
  apply place_pk. congruence.
Qed.
Lemma place_all_key gs t v : forall pos st, NoDup (column <$> gs) -> (0, t, v) ∈ gs ->
  pv_pk (place_all pos gs st) = Some (pk_text t v) /\ pv_pklen (place_all pos gs st) = Z.of_nat (length (pk_text t v)) /\
  pv_ai (place_all pos gs st) = pv_ai st /\ pv_ainc (place_all pos gs st) = pv_ainc st.
Proof.
  induction gs as [|g gs IH]; intros pos st Hn Hin; [by apply elem_of_nil in Hin|]. cbn [place_all].
  rewrite fmap_cons in Hn. apply NoDup_cons in Hn as [Hn1 Hn2]. apply elem_of_cons in Hin as [<-|Hin].
  - cbn [g_value snd]. by destruct (place_all_pk gs (pos + Z.of_nat (length (v_text v)) + 1)
      (place st (0, t, v) (pos, pos + Z.of_nat (length (v_text v)))) Hn1) as (-> & -> & -> & ->).
  - destruct (IH (pos + Z.of_nat (length (v_text (g_value g))) + 1) (place st g (pos, pos + Z.of_nat (length (v_text (g_value g))))) Hn2 Hin)
      as (-> & -> & -> & ->). destruct (place_pk st g (pos, pos + Z.of_nat (length (v_text (g_value g))))) as (_ & _ & -> & ->); [|done].
    intros E. apply Hn1. rewrite E. apply list_elem_of_fmap. by exists (0, t, v).
Qed.

Lemma gs_text_split gs j g : gs !! j = Some g ->
  exists rest, gs_text gs = gs_text (take j gs) ++ v_text (g_value g) ++ rest.
Proof.
  revert j. induction gs as [|g1 gs IH]; intros j Hj; [done|]. destruct j as [|j].
  - injection Hj as ->. by exists (44 :: gs_text gs).
  - destruct (IH j Hj) as [rest E]. exists rest. cbn [take gs_text]. rewrite E. app_eq.
Qed.

Lemma givens_columns ncols pcols st gs : forall n, givens_ok ncols pcols st n gs ->
  Forall (fun g => 0 <= column g < ncols) gs /\ (forall t v, (0, t, v) ∈ gs -> pk_text t v <> []).
Proof.
  induction gs as [|g gs IH]; intros n; [split; [constructor|intros ?? Hi; by apply elem_of_nil in Hi]|].
  intros [Hg Hgs]. destruct (IH _ Hgs) as [I1 I2]. destruct g as [[cm t] v]. destruct Hg as (_ & Hr & _ & _ & _ & Hpk). split.
  - by constructor.
  - intros t' v' [[= <- <- <-]|Hi]%elem_of_cons; [by apply Hpk|by apply I2].
Qed.

Lemma finish_cofsts pktyp st : pv_cofsts (finish pktyp st) = pv_cofsts st.
Proof. unfold finish. destruct (pv_pklen st =? 0); [|done]. by destruct (assign_auto_inc_pk pktyp (pv_ainc st)) as [[? ?] ?]. Qed.

(** Everything the loop and the last value leave in the slices and the key. *)
Section Found.
Context (ncols pcols pktyp : Z) (st0 : pv_t) (gs : list given) (g : given) (post : list Z).
Context (Hok : givens_ok ncols pcols st0 0 (gs ++ [g])) (Hnd : NoDup (column <$> gs ++ [g])) (Hne : column g <> 0).
Context (Hlen : Z.of_nat (length (pv_cofsts st0)) = ncols).
#[local] Abbreviation core_of g := (v_lead (g_value g) ++ v_core (g_value g)).
#[local] Abbreviation n := (Z.of_nat (length (gs_text gs))).
#[local] Abbreviation o := (n, n + Z.of_nat (length (core_of g))).
#[local] Abbreviation found := (finish pktyp (place (place_all 0 gs st0) g o)).

Lemma found_columns : Forall (fun g => 0 <= column g < ncols) gs /\ 0 <= column g < ncols /\ NoDup (column <$> gs) /\
  column g ∉ (column <$> gs).
Proof.
  destruct (givens_columns _ _ _ _ _ Hok) as [HF _]. apply Forall_app in HF as [HF Hg]. apply Forall_cons in Hg as [Hg _].
  pose proof Hnd as Hnd'. rewrite fmap_app in Hnd'. apply NoDup_app in Hnd' as (Hnd1 & Hdis & _). split_and!; try done; try lia.
  intros Hin. apply (Hdis _ Hin). by left.
Qed.

Lemma last_value_ok : blanks (v_trail (g_value g)) = true.
Proof.
  clear -Hok. revert Hok. generalize 0%nat as k. induction gs as [|g' l IH]; intros k; cbn [app].
  - destruct g as [[cm t] v]. intros [(_ & _ & _ & _ & (_ & Ht & _) & _) _]. exact Ht.
  - intros [_ H]. by apply (IH _ H).
Qed.

Lemma found_slices j g' : (gs ++ [g]) !! j = Some g' -> let body := gs_text gs ++ v_text (g_value g) ++ post in
  exists i s tr, blanks tr = true /\ v_text (g_value g') = s ++ tr /\
    pv_cofsts found !! Z.to_nat (column g') = Some (Z.of_nat i, Z.of_nat (i + length s)) /\ slice body i (length s) = Some s.
Proof.
  intros Hj body. destruct found_columns as (HF & Hg & Hn & Hout). rewrite finish_cofsts. apply lookup_app_Some in Hj as [Hj|[Hge Hj]].
  - exists (length (gs_text (take j gs))), (v_text (g_value g')), []. rewrite app_nil_r. split; [done|]. split; [done|]. split.
    + rewrite place_other; [|rewrite Forall_lookup in HF; by apply (HF _ _ Hj)|lia|].
      * rewrite (place_all_at gs 0 st0 j g'); [f_equal; f_equal; lia|by rewrite Hlen|done|done].
      * intros E. apply Hout. rewrite E. apply list_elem_of_fmap. exists g'. split; [done|]. by eapply list_elem_of_lookup_2.
    + destruct (gs_text_split gs j g' Hj) as [rest E]. unfold body. rewrite E. rewrite <- !app_assoc. by apply slice_mid.
  - assert (j = length gs) as -> by (apply lookup_lt_Some in Hj; cbn in Hj; lia).
    rewrite Nat.sub_diag in Hj. injection Hj as <-.
    exists (length (gs_text gs)), (core_of g), (v_trail (g_value g)).
    split; [apply last_value_ok|]. split; [unfold v_text; app_eq|]. split.
    + rewrite place_at; [f_equal; f_equal; lia|]. destruct (place_all_same gs 0 st0) as (_ & _ & ->). by rewrite Hlen.
    + unfold body, v_text. rewrite <- !app_assoc. rewrite (app_assoc (v_lead _)). by apply slice_mid.
Qed.

Lemma found_none c : 0 <= c < ncols -> c ∉ (column <$> gs ++ [g]) -> pv_cofsts found !! Z.to_nat c = pv_cofsts st0 !! Z.to_nat c.
Proof.
  intros Hc Hn. destruct found_columns as (HF & Hg & _). rewrite fmap_app, not_elem_of_app in Hn. destruct Hn as [Hn1 Hn2].
  rewrite finish_cofsts, place_other; [|lia|lia|intros E; apply Hn2; rewrite <- E; by left].
  apply place_all_other; [lia| |done]. eapply Forall_impl; [exact HF|]. cbn. lia.
Qed.

Lemma found_key t v : (0, t, v) ∈ gs -> pv_pk found = Some (pk_text t v) /\ pv_ai found = pv_ai st0 /\ pv_ainc found = pv_ainc st0.
Proof.
  intros Hin. destruct found_columns as (HF & Hg & Hn & _). destruct (givens_columns _ _ _ _ _ Hok) as [_ Hpk].
  destruct (place_pk (place_all 0 gs st0) g o Hne) as (K1 & K2 & K3 & K4).
  destruct (place_all_key gs t v 0 st0 Hn Hin) as (E1 & E2 & E3 & E4). unfold finish. rewrite K2, E2.
  assert (pk_text t v <> []) by (apply Hpk, elem_of_app; by left).
  destruct (Z.eqb_spec (Z.of_nat (length (pk_text t v))) 0) as [E|_]; [destruct (pk_text t v); [done|cbn in E; lia]|].
  by rewrite K1, K3, K4, E1, E3, E4.
Qed.

Lemma found_auto : pv_pklen st0 = 0 -> 0 ∉ (column <$> gs) ->
  pv_pk found = Some (assign_auto_inc_pk pktyp (pv_ainc st0)).1.1 /\ pv_ai found = true /\ pv_ainc found = u128 (pv_ainc st0 + 1).
Proof.
  intros H0 Hn. destruct (place_pk (place_all 0 gs st0) g o Hne) as (K1 & K2 & K3 & K4).
  destruct (place_all_pk gs 0 st0 Hn) as (E1 & E2 & E3 & E4). unfold finish. rewrite K2, E2, H0, K4, E4. cbn. done.
Qed.
End Found.

(** C18: the VALUES of an INSERT, any texts with escaped quotes, numbers, Lua calls
    and tables separated by commas and blanks, are taken apart: the slice of each
    column is its text, the columns not named have none, and the key is its text
    without blanks and quotes, or the next number when it is not named. *)
Theorem insert_values_parsed (strtod_rest : list Z -> list Z) (lncols pcols : Z) (types ics : list Z) (ainc pktyp : Z)
    (b1 b2 b3 : list Z) (gs : list given) (g : given) :
  let ncols := Z.of_nat (length types) in
  let st0 := init_pv types ics ainc ncols in
  let body := gs_text gs ++ v_text (g_value g) ++ 41 :: b3 ++ [0] in
  blanks b1 = true -> blanks b2 = true -> blanks b3 = true -> lead_of (gs ++ [g]) = 0%nat ->
  givens_ok ncols pcols st0 0 (gs ++ [g]) -> NoDup (column <$> gs ++ [g]) -> column g <> 0 ->
  Z.of_nat (S (length gs)) = (if named pcols then pcols else lncols) ->
  types !! 0%nat = Some pktyp -> 0 ∈ (column <$> gs) \/ C_IS_NUM pktyp = true ->
  exists st, parseRowVals strtod_rest ncols lncols pcols (b1 ++ 40 :: b2 ++ body) st0 = Some (Some (length (b1 ++ 40 :: b2), st)) /\
    (forall j g', (gs ++ [g]) !! j = Some g' -> exists i s tr, blanks tr = true /\ v_text (g_value g') = s ++ tr /\
       pv_cofsts st !! Z.to_nat (column g') = Some (Z.of_nat i, Z.of_nat (i + length s)) /\ slice body i (length s) = Some s) /\
    (forall c, 0 <= c < ncols -> c ∉ (column <$> gs ++ [g]) -> pv_cofsts st !! Z.to_nat c = Some (-1, -1)) /\
    (forall t v, (0, t, v) ∈ gs -> pv_pk st = Some (pk_text t v) /\ pv_ai st = false /\ pv_ainc st = ainc) /\
    (0 ∉ (column <$> gs) -> pv_pk st = Some (assign_auto_inc_pk pktyp ainc).1.1 /\ pv_ai st = true /\ pv_ainc st = u128 (ainc + 1)).
Proof.
  intros ncols st0 body H1 H2 H3 Hlead Hok Hnd Hne Hcnt Hty Hkey.
  assert (Hlen : Z.of_nat (length (pv_cofsts st0)) = ncols) by (unfold st0, init_pv; cbn; rewrite length_replicate; lia).
  eexists. split; [|split; [|split; [|split]]].
  - assert (Eb : b1 ++ 40 :: b2 ++ body = b1 ++ 40 :: b2 ++ (gs_text gs ++ v_text (g_value g)) ++ 41 :: b3 ++ [0]) by (unfold body; app_eq).
    rewrite Eb. apply (parse_ok strtod_rest ncols lncols pcols b1 b2 b3 gs g st0 pktyp); try done.
    set (o := (_, _)). destruct (place_pk (place_all 0 gs st0) g o Hne) as (_ & -> & _). intros E. destruct Hkey as [Hk|Hk]; [|done]. exfalso.
    apply list_elem_of_fmap in Hk as ([[cm t] v] & Ec & Hin). unfold column in Ec. cbn in Ec. subst cm.
    destruct (found_columns ncols pcols st0 gs g Hok Hnd Hne) as (_ & _ & Hn & _).
    destruct (place_all_key gs t v 0 st0 Hn Hin) as (_ & E' & _). rewrite E' in E.
    destruct (givens_columns _ _ _ _ _ Hok) as [_ Hpk].
    apply (Hpk t v); [apply elem_of_app; by left|]. destruct (pk_text t v); [done|cbn in E; lia].
  - intros j g' Hj. by apply (found_slices ncols pcols pktyp st0 gs g (41 :: b3 ++ [0]) Hok Hnd Hne Hlen j g').
  - intros c Hc Hn. rewrite (found_none ncols pcols pktyp st0 gs g Hok Hnd Hne c Hc Hn).
    unfold st0, init_pv. cbn [pv_cofsts]. apply lookup_replicate_2. lia.
  - intros t v. by apply (found_key ncols pcols pktyp st0 gs g Hok Hnd Hne).
  - by apply (found_auto pktyp st0 gs g Hne).
Qed.

(** ** From the statement to the row *)

Definition ctype_Z (t : Row.ctype) : Z :=
  match t with
  | C_INT => COL_TYPE_INT | C_LONG => COL_TYPE_LONG | C_U128 => COL_TYPE_U128 | C_FLOAT => COL_TYPE_FLOAT
  | C_STRING => COL_TYPE_STRING | C_LUAO => COL_TYPE_LUAO
  end.
Definition chunks_of (v : colval) : list chunk := match v with V_STRING s => [Text s] | _ => Plain <$> render v end.
Definition value_of (v : colval) : value := Val [] (chunks_of v) [].
(** The values given for the columns [n ..]. *)
Fixpoint givens_of (n : Z) (ts : list Row.ctype) (vs : list colval) : list given :=
  match ts, vs with
  | t :: ts, v :: vs => if is_empty v then givens_of (n + 1) ts vs else (n, ctype_Z t, value_of v) :: givens_of (n + 1) ts vs
  | _, _ => []
  end.
(** The texts, a comma between, a parenthesis after. *)
Fixpoint joined (ls : list (list Z)) : list Z :=
  match ls with [] => [] | [l] => l ++ [41] | l :: ls => l ++ 44 :: joined ls end.
Definition texts (gs : list given) : list (list Z) := (fun g => v_text (g_value g)) <$> gs.

Lemma plain_text s : chunks_text (Plain <$> s) = s.
Proof. induction s as [|c s IH]; [done|]. change (c :: chunks_text (Plain <$> s) = c :: s). by rewrite IH. Qed.
Lemma value_of_text v : v_text (value_of v) = render v.
Proof.
  unfold value_of, v_text, v_core, chunks_of. cbn [v_lead v_chunks v_trail app]. rewrite app_nil_r.
  destruct v; try apply plain_text. unfold chunks_text. cbn. by rewrite app_nil_r.
Qed.

Lemma digits_ok ds : Forall (fun c => isdigit c = true) ds -> forallb chunk_ok (Plain <$> ds) = true.
Proof.
  induction 1 as [|d ds Hd _ IH]; [done|]. cbn [fmap list_fmap forallb]. rewrite IH, andb_true_r. cbn [chunk_ok].
  unfold isdigit in Hd. rewrite andb_true_iff, !Z.leb_le in Hd. rewrite negb_true_iff, !orb_false_iff, !Z.eqb_neq. lia.
Qed.
Lemma edges_core a s b : solid a = true -> solid b = true -> core_ok (a :: s ++ [b]) = true.
Proof. intros Ha Hb. unfold core_ok. change (a :: s ++ [b]) with ((a :: s) ++ [b]). rewrite last_snoc. cbn [app head]. by rewrite Ha, Hb. Qed.
Lemma solid_core s : s <> [] -> Forall (fun c => solid c = true) s -> core_ok s = true.
Proof.
  intros Hne HF. destruct s as [|a s]; [done|]. destruct s as [|b s] using rev_ind; [|clear IHs].
  - apply Forall_cons in HF as [Ha _]. unfold core_ok. cbn. by rewrite Ha.
  - apply Forall_cons in HF as [Ha HF]. apply Forall_app in HF as [_ HF]. apply Forall_cons in HF as [Hb _]. by apply edges_core.
Qed.
Lemma digit_solid d : isdigit d = true -> solid d = true.
Proof.
  intros Hd. unfold solid. rewrite (isdigit_not_blank d Hd). destruct (isdigit_not_space d Hd) as (_ & _ & _ & H0). by destruct (Z.eqb_spec d 0).
Qed.

(** The values of a row are well formed, texts when their quotes are escaped. *)
Lemma value_of_ok t v : val_ok t v -> (forall s, v = V_STRING s -> closes 39 s = true) -> value_ok (ctype_Z t) (value_of v).
Proof.
  intros Hv Hs. split; [done|]. split; [done|].
  assert (Hn : forall n, 0 <= n < 2 ^ 64 -> Forall (fun c => isdigit c = true) (print_lu n) /\ print_lu n <> []).
  { intros n Hn. by destruct (print_lu_digits n Hn) as (HF & Hne & _). }
  assert (Hd : forall ds, Forall (fun c => isdigit c = true) ds -> Forall (fun c => solid c = true) ds).
  { intros ds HF. eapply Forall_impl; [exact HF|]. apply digit_solid. }
  destruct Hv as [i Hi|l Hl|x Hx|s _ _]; unfold value_of, v_core, chunks_of; cbn [v_chunks render ctype_Z]; rewrite ?plain_text.
  - destruct (Hn i ltac:(lia)). split; [by apply digits_ok|]. split; [by apply solid_core; [|apply Hd]|done].
  - destruct (Hn l Hl). split; [by apply digits_ok|]. split; [by apply solid_core; [|apply Hd]|done].
  - destruct (Hn (x / 2 ^ 64)) as [F1 N1]; [split; [apply Z.div_pos; lia|apply Z.div_lt_upper_bound; lia]|].
    destruct (Hn (x mod 2 ^ 64)) as [F2 N2]; [apply Z.mod_pos_bound; lia|]. split.
    + rewrite fmap_app, fmap_cons, forallb_app. cbn [forallb]. by rewrite !digits_ok.
    + split; [|done]. apply solid_core; [by destruct (print_lu (x / 2 ^ 64))|]. apply Forall_app. split; [by apply Hd|].
      constructor; [done|by apply Hd].
  - split; [cbn [forallb chunk_ok]; by rewrite (Hs s eq_refl)|]. split; [|intros _; by exists s].
    unfold chunks_text. cbn. rewrite app_nil_r. by apply edges_core.
Qed.

Lemma gs_text_joined gs g : gs_text gs ++ v_text (g_value g) ++ [41] = joined (texts (gs ++ [g])).
Proof.
  induction gs as [|g1 gs IH]; [done|]. cbn [gs_text app]. unfold texts in *. rewrite fmap_cons. cbn [joined].
  rewrite <- IH. destruct ((λ g0 : given, v_text (g_value g0)) <$> gs ++ [g]) eqn:E; [by destruct gs|]. app_eq.
Qed.
Lemma givens_nil n ts vs : length ts = length vs -> (givens_of n ts vs = [] <-> forallb is_empty vs = true).
Proof.
  revert n vs. induction ts as [|t ts IH]; intros n [|v vs] Hl; try done. cbn [givens_of forallb]. injection Hl as Hl.
  destruct (is_empty v); cbn [andb]; [by apply IH|done].
Qed.
Lemma layout_text ts vs : forall n pos, length ts = length vs -> (layout pos vs).1 = joined (texts (givens_of n ts vs)).
Proof.
  revert vs. induction ts as [|t ts IH]; intros [|v vs] n pos Hl; try done. injection Hl as Hl. cbn [layout givens_of].
  destruct (is_empty v).
  - specialize (IH vs (n + 1) pos Hl). by destruct (layout pos vs).
  - specialize (IH vs (n + 1) (pos + length (render v) + 1)%nat Hl). pose proof (givens_nil (n + 1) ts vs Hl) as Hnil.
    destruct (layout (pos + length (render v) + 1) vs) as [b o]. cbn [fst] in *. unfold texts in *. rewrite fmap_cons. cbn [g_value snd].
    rewrite value_of_text. subst b. destruct (forallb is_empty vs).
    + by rewrite (proj2 Hnil eq_refl).
    + destruct (givens_of (n + 1) ts vs) as [|g gs] eqn:E; [by pose proof (proj1 Hnil eq_refl)|]. by rewrite fmap_cons.
Qed.

(** The slices are those of the layout. *)
Lemma place_all_layout ts vs : forall n pos st pre, length ts = length vs -> n = Z.of_nat (length pre) ->
  pv_cofsts st = pre ++ replicate (length vs) (-1, -1) ->
  pv_cofsts (place_all (Z.of_nat pos) (givens_of n ts vs) st) = pre ++ (layout pos vs).2.
Proof.
  revert vs. induction ts as [|t ts IH]; intros [|v vs] n pos st pre Hl Hn Hst; try done. injection Hl as Hl. cbn [layout givens_of].
  cbn [length replicate] in Hst. destruct (is_empty v).
  - rewrite (IH vs (n + 1) pos st (pre ++ [(-1, -1)])); [|done|rewrite length_app; cbn; lia|rewrite Hst; app_eq].
    destruct (layout pos vs). cbn [snd]. app_eq.
  - cbn [place_all g_value snd]. rewrite value_of_text. set (o := (Z.of_nat pos, Z.of_nat pos + Z.of_nat (length (render v)))).
    assert (E : pv_cofsts (place st (n, ctype_Z t, value_of v) o) = (pre ++ [o]) ++ replicate (length vs) (-1, -1)).
    { assert (Ei : <[Z.to_nat n := o]> (pv_cofsts st) = (pre ++ [o]) ++ replicate (length vs) (-1, -1)).
      { rewrite Hst, Hn, Nat2Z.id. rewrite <- (Nat.add_0_r (length pre)) at 1. rewrite insert_app_r. app_eq. }
      unfold place. destruct (n =? 0); cbn; by rewrite Ei. }
    replace (Z.of_nat pos + Z.of_nat (length (render v)) + 1) with (Z.of_nat (pos + length (render v) + 1)) by lia.
    rewrite (IH vs (n + 1) _ _ (pre ++ [o]) Hl); [|rewrite length_app; cbn; lia|exact E].
    destruct (layout (pos + length (render v) + 1) vs) as [b0 o0]. cbn [snd]. unfold o.
    replace (Z.of_nat pos + Z.of_nat (length (render v))) with (Z.of_nat (pos + length (render v))) by lia. app_eq.
Qed.

Lemma place_all_snoc gs g : forall pos st, place_all pos (gs ++ [g]) st =
  place (place_all pos gs st) g (pos + Z.of_nat (length (gs_text gs)), pos + Z.of_nat (length (gs_text gs)) + Z.of_nat (length (v_text (g_value g)))).
Proof.
  induction gs as [|g1 gs IH]; intros pos st; cbn [app place_all gs_text length]; [by rewrite Z.add_0_r|].
  rewrite IH, length_app. cbn [length]. f_equal. f_equal; lia.
Qed.

Lemma givens_of_ok ncols pcols st rt ts vs : forall n k, (forall j t v, ts !! j = Some t -> vs !! j = Some v -> is_empty v = false ->
    0 <= n + Z.of_nat j < ncols /\ type_of st (n + Z.of_nat j) = Some (ctype_Z t)) -> 0 < n ->
  inputs_ok rt (Z.to_nat n) ts vs -> (forall s, V_STRING s ∈ vs -> closes 39 s = true) ->
  (forall j c, (column <$> givens_of n ts vs) !! j = Some c -> cmatch_of pcols st (k + j) = Some c) ->
  givens_ok ncols pcols st k (givens_of n ts vs).
Proof.
  revert vs. induction ts as [|t ts IH]; intros [|v vs] n k Ht Hn Hi Hs Hc; try done. cbn [inputs_ok] in Hi. destruct Hi as [Hv Hi].
  assert (Hi' : inputs_ok rt (Z.to_nat (n + 1)) ts vs) by (by replace (Z.to_nat (n + 1)) with (S (Z.to_nat n)) by lia).
  assert (Ht' : forall j t v, ts !! j = Some t -> vs !! j = Some v -> is_empty v = false ->
    0 <= n + 1 + Z.of_nat j < ncols /\ type_of st (n + 1 + Z.of_nat j) = Some (ctype_Z t)).
  { intros j t' v' H1 H2 H3. specialize (Ht (S j) t' v' H1 H2 H3). by replace (n + 1 + Z.of_nat j) with (n + Z.of_nat (S j)) by lia. }
  assert (Hs' : forall s, V_STRING s ∈ vs -> closes 39 s = true) by (intros s Hin; apply Hs; by right).
  cbn [givens_of] in *. destruct (is_empty v) eqn:Ev; [apply IH; try done; lia|]. split.
  - destruct (Ht 0%nat t v eq_refl eq_refl Ev) as [Hr Hty]. rewrite Z.add_0_r in Hr, Hty. pose proof (Hc 0%nat n eq_refl) as Hcm.
    rewrite Nat.add_0_r in Hcm.
    assert (Hok : val_ok t v).
    { unfold input_ok in Hv. case_bool_decide; [by destruct Hv as [_ ->]|]. case_bool_decide; [by destruct Hv as [_ ->]|].
      by destruct Hv as [Hv|[-> _]]. }
    split; [done|]. split; [done|]. split; [done|]. split; [by destruct t|]. split; [|lia].
    apply value_of_ok; [done|]. intros s ->. apply Hs. by left.
  - apply IH; try done; [lia|]. intros j c Hj. specialize (Hc (S j) c Hj). by rewrite Nat.add_succ_r in Hc.
Qed.

Section Statement.
Context (strtod_rest : list Z -> list Z) (lncols pcols : Z) (ics : list Z) (ainc pktyp : Z) (kc : list chunk).
Context (rt : r_tbl_t) (vs : list colval).
#[local] Abbreviation kv := (Val [] kc []).
#[local] Abbreviation types := (pktyp :: (ctype_Z <$> coltypes rt)).
#[local] Abbreviation ncols := (Z.of_nat (length types)).
#[local] Abbreviation st0 := (init_pv types ics ainc ncols).
#[local] Abbreviation rest := (givens_of 1 (coltypes rt) vs).

Lemma givens_column n ts ws g : 0 < n -> g ∈ givens_of n ts ws -> 0 < column g.
Proof.
  revert n ws. induction ts as [|t ts IH]; intros n [|w ws] Hn Hin; cbn in Hin; try by apply elem_of_nil in Hin.
  destruct (is_empty w); [by apply (IH (n + 1) ws ltac:(lia))|]. apply elem_of_cons in Hin as [->|Hin]; [done|by apply (IH (n + 1) ws ltac:(lia))].
Qed.
Lemma givens_trail n ts ws g : g ∈ givens_of n ts ws -> v_trail (g_value g) = [].
Proof.
  revert n ws. induction ts as [|t ts IH]; intros n [|w ws] Hin; cbn in Hin; try by apply elem_of_nil in Hin.
  destruct (is_empty w); [by eapply IH|]. apply elem_of_cons in Hin as [->|Hin]; [done|by eapply IH].
Qed.

#[local] Abbreviation key := ((0, pktyp, kv) : given).

Lemma key_text : v_text kv = chunks_text kc.
Proof. unfold v_text, v_core. cbn. apply app_nil_r. Qed.

Lemma statement_text us g : length (coltypes rt) = length vs -> rest = us ++ [g] ->
  (gs_text (key :: us) ++ v_text (g_value g)) ++ [41; 0] = insert_text (chunks_text kc) vs.
Proof.
  intros Hl Eu. change [41; 0] with ([41] ++ [0]). rewrite <- app_assoc, (app_assoc (v_text _)), app_assoc, gs_text_joined.
  cbn [app]. rewrite <- Eu. unfold texts. rewrite fmap_cons. unfold insert_text.
  rewrite (layout_text (coltypes rt) vs 1 (length (chunks_text kc) + 1) Hl). fold (texts rest). cbn [g_value snd]. rewrite key_text.
  destruct (texts rest) as [|l ls] eqn:E; [|cbn [joined]; app_eq]. rewrite Eu in E. unfold texts in E. by destruct us.
Qed.

Lemma statement_ok us g : length (coltypes rt) = length vs -> inputs_ok rt 1 (coltypes rt) vs ->
  value_ok pktyp kv -> pk_text pktyp kv <> [] -> C_IS_N pktyp = false -> (forall s, V_STRING s ∈ vs -> closes 39 s = true) ->
  (forall j c, (0 :: (column <$> rest)) !! j = Some c -> cmatch_of pcols st0 j = Some c) -> rest = us ++ [g] ->
  givens_ok ncols pcols st0 0 ((key :: us) ++ [g]).
Proof.
  intros Hl Hin Hkv Hkt HN Hs Hc Eu. cbn [app]. rewrite <- Eu. split.
  - split; [exact (Hc 0%nat 0 eq_refl)|]. split; [cbn; lia|]. by split.
  - apply (givens_of_ok ncols pcols st0 rt); try done.
    + intros j t v Ht _ _. pose proof (lookup_lt_Some _ _ _ Ht). cbn [length]. rewrite length_fmap. split; [lia|].
      assert (Hj : (ctype_Z <$> coltypes rt) !! j = Some (ctype_Z t)) by (by rewrite list_lookup_fmap, Ht).
      unfold type_of. destruct (Z.eqb_spec (1 + Z.of_nat j) (-1)); [lia|]. destruct (Z.ltb_spec (1 + Z.of_nat j) 0); [lia|].
      replace (Z.to_nat (1 + Z.of_nat j)) with (S j) by lia. exact Hj.
    + intros j c Hj. exact (Hc (S j) c Hj).
Qed.

(** The slices and the key of the text [insert_text] writes. *)
Lemma insert_parsed : length (coltypes rt) = length vs -> inputs_ok rt 1 (coltypes rt) vs ->
  value_ok pktyp kv -> pk_text pktyp kv <> [] -> C_IS_N pktyp = false -> forallb is_empty vs = false ->
  (forall s, V_STRING s ∈ vs -> closes 39 s = true) ->
  (forall j c, (0 :: (column <$> rest)) !! j = Some c -> cmatch_of pcols st0 j = Some c) ->
  Z.of_nat (S (length rest)) = (if named pcols then pcols else lncols) ->
  exists st, parseRowVals strtod_rest ncols lncols pcols (40 :: insert_text (chunks_text kc) vs) st0 = Some (Some (1%nat, st)) /\
    pv_cofsts st = insert_cofsts (chunks_text kc) vs /\ pv_pk st = Some (pk_text pktyp kv) /\ pv_ai st = false.
Proof.
  intros Hl Hin Hkv Hkt HN Hne Hs Hc Hcnt.
  assert (Hrest : rest <> []) by (intros E; apply givens_nil in E; [by rewrite E in Hne|done]).
  destruct (exists_last Hrest) as (us & g & Eu).
  assert (Hg : g ∈ rest) by (rewrite Eu; apply elem_of_app; right; by left).
  pose proof (statement_ok us g Hl Hin Hkv Hkt HN Hs Hc Eu) as Hok.
  assert (Hcol : column g <> 0) by (pose proof (givens_column 1 _ _ g eq_refl Hg); lia).
  assert (Etr : v_lead (g_value g) ++ v_core (g_value g) = v_text (g_value g)).
  { unfold v_text. by rewrite (givens_trail _ _ _ _ Hg), app_nil_r. }
  pose proof (parse_ok strtod_rest ncols lncols pcols [] [] [] (key :: us) g st0 pktyp eq_refl eq_refl eq_refl eq_refl Hok Hcol) as HP.
  cbv zeta in HP. rewrite Etr in HP. cbn [app] in HP. change (length [40]) with 1%nat in HP. rewrite (statement_text us g Hl Eu) in HP.
  pose proof (place_all_snoc (key :: us) g 0 st0) as Hsn. rewrite Z.add_0_l in Hsn. rewrite <- Hsn in HP.
  cbn [app] in HP. rewrite <- Eu in HP. cbn [place_all] in HP. change (g_value key) with kv in HP. rewrite key_text in HP.
  set (k0 := place st0 key (0, 0 + Z.of_nat (length (chunks_text kc)))) in *.
  assert (H0 : 0 ∉ (column <$> rest)).
  { intros Hi. apply list_elem_of_fmap in Hi as (g' & E & Hi). pose proof (givens_column 1 _ _ g' eq_refl Hi). lia. }
  destruct (place_all_pk rest (0 + Z.of_nat (length (chunks_text kc)) + 1) k0 H0) as (P1 & P2 & P3 & _).
  assert (Hk : pv_pklen (place_all (0 + Z.of_nat (length (chunks_text kc)) + 1) rest k0) <> 0).
  { rewrite P2. unfold k0, place. cbn. destruct (pk_text pktyp kv); [done|cbn; lia]. }
  eexists. split; [apply HP|].
  - unfold init_pv. cbn. rewrite length_replicate. lia.
  - rewrite <- Hcnt, Eu, length_app. cbn. lia.
  - done.
  - intros E. by destruct Hk.
  - unfold finish. destruct (Z.eqb_spec (pv_pklen (place_all (0 + Z.of_nat (length (chunks_text kc)) + 1) rest k0)) 0) as [E|_]; [by destruct Hk|].
    split; [|by rewrite P1, P3]. unfold insert_cofsts.
    replace (0 + Z.of_nat (length (chunks_text kc)) + 1) with (Z.of_nat (length (chunks_text kc) + 1)) by lia.
    rewrite (place_all_layout (coltypes rt) vs 1 _ k0 [(0, Z.of_nat (length (chunks_text kc)))]); [done|done|done|].
    unfold k0, place, init_pv. cbn. rewrite length_fmap, <- Hl. by rewrite Nat2Z.id || done.
Qed.
End Statement.

(** C17: An INSERT from its text to the columns of its row: the VALUES list (numbers,
    [high|low], texts with their quotes escaped, columns left out when columns are
    named) is taken apart, the row is made from the slices, and every column reads
    back as the value written, the key being the text given.

    The conditions.  Of the values ([inputs_ok]): they are INT, LONG, U128 and ASCII
    TEXT with its quotes escaped; a FLOAT column is left out, a U128 column is not,
    an LRU or LFU column is, and there is no Lua column.  Of the statement: it has a
    key and some other value, and as many values as it names columns or as the
    table takes.  Of the row: it stores at least one column beside the key, not 128
    or 16384 ([cofsts_misread]), of less than 2^31 bytes in all; LZF does not give
    up on one of its texts, and a 16-bit hash table has at most 255 collisions. *)
Theorem insert_statement
    (strtod_rest : list Z -> list Z) (lzf_compress : list Z -> Z -> option (list Z)) (lzf_decompress : list Z -> Z -> list Z)
    (lzf_spec : forall s m z, lzf_compress s m = Some z ->
       lzf_decompress z (Z.of_nat (length s)) = s /\ Z.of_nat (length z) <= m)
    (writeLua : list Z -> bool) (atof : list Z -> Z) (zs : bool)
    (rt : r_tbl_t) (lru lncols pcols ainc pktyp : Z) (ics : list Z) (kc : list chunk) (vs : list colval) :
  let pk := chunks_text kc in
  let n := row_ncols rt (insert_cofsts pk vs) in
  let types := pktyp :: (ctype_Z <$> coltypes rt) in
  let st0 := init_pv types ics ainc (Z.of_nat (length types)) in
  let cols := 0 :: (column <$> givens_of 1 (coltypes rt) vs) in
  0 <= lru < 2 ^ 29 -> inputs_ok rt 1 (coltypes rt) vs ->
  budget vs + 16 * Z.of_nat (length vs) < 2 ^ 31 -> Z.of_nat (length vs) < 2 ^ 24 -> (2 <= n)%nat ->
  Z.of_nat (Nat.min (n - 1) (length vs)) <> TWO_POW_7 -> Z.of_nat (Nat.min (n - 1) (length vs)) <> TWO_POW_14 ->
  (forall cr, createRow_data atof rt lru (insert_text pk vs) (insert_cofsts pk vs) = Some (Some cr) ->
     lzf_complete lzf_compress (Row.cols cr) = true /\ collisions_fit cr) ->
  value_ok pktyp (Val [] kc []) -> pk_text pktyp (Val [] kc []) <> [] -> C_IS_N pktyp = false -> forallb is_empty vs = false ->
  (forall s, V_STRING s ∈ vs -> closes 39 s = true) ->
  (forall j c, cols !! j = Some c -> cmatch_of pcols st0 j = Some c) ->
  Z.of_nat (length cols) = (if named pcols then pcols else lncols) ->
  exists mvals st row,
    parseRowVals strtod_rest (Z.of_nat (length types)) lncols pcols (40 :: insert_text pk vs) st0 = Some (Some (mvals, st)) /\
    pv_pk st = Some (pk_text pktyp (Val [] kc [])) /\ pv_ai st = false /\
    createRow lzf_compress writeLua atof zs rt lru (drop mvals (40 :: insert_text pk vs)) (pv_cofsts st) = Some (Some row) /\
    forall addr mem i t v, coltypes rt !! i = Some t -> vs !! i = Some v ->
      Row.C_IS_O t = false -> mem_ok mem v -> (2 <= length mem)%nat ->
      exists v' row', getRawCol lzf_decompress mem addr row t (Z.of_nat i + 1) = Some (v', row') /\
        norm v' = norm (expected rt lru (S i) v).
Proof.
  intros pk n types st0 cols Hlru Hin Hb Hlen Hn H7 H14 Hcond Hkv Hkt HN Hne Hs Hc Hcnt.
  assert (Hne' : vs <> []) by (by intros ->).
  destruct (insert_row_ok lzf_compress lzf_decompress lzf_spec writeLua atof zs rt lru pk vs Hlru Hin Hb Hlen Hne' Hn H7 H14 Hcond)
    as (row & Hrow & _ & Hread).
  destruct (insert_parsed strtod_rest lncols pcols ics ainc pktyp kc rt vs) as (st & Hp & Hcof & Hpk & Hai); try done.
  - by eapply inputs_length.
  - rewrite <- Hcnt. unfold cols. cbn [length]. by rewrite length_fmap.
  - exists 1%nat, st, row. rewrite Hcof. by split_and!.
Qed.

(** When the column list names the key last, the key is taken with its quotes. *)
Definition no_strtod (s : list Z) : list Z := s.
Lemma key_last_quoted :
  exists st, parseRowVals no_strtod 2 2 2 [40; 55; 44; 39; 107; 39; 41; 0] (init_pv [COL_TYPE_STRING; COL_TYPE_INT] [1; 0] 0 2) = Some (Some (1%nat, st)) /\
    pv_pk st = Some [39; 107; 39].
Proof. eexists. split; [vm_compute; reflexivity|reflexivity]. Qed.

(** A blank between the last value of an INSERT and the parenthesis costs the
    value its last character: [(1,22,'ab',333 )] stores 33. *)
Theorem blank_before_paren :
  exists mvals st row row', let vals := [40; 49; 44; 50; 50; 44; 39; 97; 98; 39; 44; 51; 51; 51; 32; 41; 0] in
    parseRowVals no_strtod 4 4 0 vals (init_pv [COL_TYPE_INT; COL_TYPE_INT; COL_TYPE_STRING; COL_TYPE_LONG] [] 0 4) = Some (Some (mvals, st)) /\
    createRow no_lzf lua_accepts no_atof false three_cols 0 (drop mvals vals) (pv_cofsts st) = Some (Some row) /\
    getRawCol id_unlzf [] 4096 row C_LONG 3 = Some (V_LONG 33, row').
Proof. eexists _, _, _, _. split; [vm_compute; reflexivity|]. split; [vm_compute; reflexivity|vm_compute; reflexivity]. Qed.

(** ** Witnesses *)

(** [( 1, 'a\'b' ,f(2) )] into a table of three columns. *)
Definition w_given : list given :=
  [(0, COL_TYPE_INT, Val [] [Plain 49] []); (1, COL_TYPE_STRING, Val [32] [Text [97; 92; 39; 98]] [32])].
Definition w_last : given := (2, COL_TYPE_LUAO, Val [] [Plain 102; Paren [50]] [32]).
Definition w_types : list Z := [COL_TYPE_INT; COL_TYPE_STRING; COL_TYPE_LUAO].

Lemma insert_values_parsed_witness :
  exists st, parseRowVals no_strtod 3 3 0 ([] ++ 40 :: [32] ++ gs_text w_given ++ v_text (g_value w_last) ++ 41 :: [] ++ [0])
      (init_pv w_types [] 0 3) = Some (Some (length ([] ++ 40 :: [32]), st)) /\
    (forall j g', (w_given ++ [w_last]) !! j = Some g' -> exists i s tr, blanks tr = true /\ v_text (g_value g') = s ++ tr /\
       pv_cofsts st !! Z.to_nat (column g') = Some (Z.of_nat i, Z.of_nat (i + length s)) /\
       slice (gs_text w_given ++ v_text (g_value w_last) ++ 41 :: [] ++ [0]) i (length s) = Some s) /\
    (forall c, 0 <= c < 3 -> c ∉ (column <$> w_given ++ [w_last]) -> pv_cofsts st !! Z.to_nat c = Some (-1, -1)) /\
    (forall t v, (0, t, v) ∈ w_given -> pv_pk st = Some (pk_text t v) /\ pv_ai st = false /\ pv_ainc st = 0) /\
    (0 ∉ (column <$> w_given) -> pv_pk st = Some (assign_auto_inc_pk COL_TYPE_INT 0).1.1 /\ pv_ai st = true /\ pv_ainc st = u128 (0 + 1)).
Proof.
  apply (insert_values_parsed no_strtod 3 0 w_types [] 0 COL_TYPE_INT [] [32] [] w_given w_last); try reflexivity.
  - repeat split; try discriminate; try lia; intros _; eexists; reflexivity.
  - apply (bool_decide_unpack _). exact I.
  - discriminate.
  - left. apply (bool_decide_unpack _). exact I.
Defined.

(** A table with an LRU column; its LONG column is left out. *)
Definition wide_table : r_tbl_t := Tbl [C_INT; C_STRING; C_LONG; C_U128; C_INT] (Some 5%nat) None.
Definition wide_vals : list colval :=
  [V_INT 22; V_STRING [97; 92; 39; 98]; V_EMPTY; V_U128 (2 ^ 64 + 5); V_EMPTY].
Definition wide_types : list Z := COL_TYPE_INT :: (ctype_Z <$> coltypes wide_table).

Lemma insert_statement_witness :
  exists mvals st row,
    parseRowVals no_strtod 6 5 4 (40 :: insert_text [49] wide_vals) (init_pv wide_types [0; 1; 2; 4] 0 6) = Some (Some (mvals, st)) /\
    pv_pk st = Some [49] /\ pv_ai st = false /\
    createRow id_lzf lua_accepts no_atof true wide_table 1000 (drop mvals (40 :: insert_text [49] wide_vals)) (pv_cofsts st) = Some (Some row) /\
    forall addr mem i t v, coltypes wide_table !! i = Some t -> wide_vals !! i = Some v ->
      Row.C_IS_O t = false -> mem_ok mem v -> (2 <= length mem)%nat ->
      exists v' row', getRawCol id_unlzf mem addr row t (Z.of_nat i + 1) = Some (v', row') /\
        norm v' = norm (expected wide_table 1000 (S i) v).
Proof.
  apply (insert_statement no_strtod id_lzf id_unlzf id_lzf_spec lua_accepts no_atof true wide_table 1000 5 4 0 COL_TYPE_INT
    [0; 1; 2; 4] [Plain 49] wide_vals).
  - lia.
  - split; [left; by apply val_int|].
    split; [left; by apply val_text; [repeat constructor|]|].
    split; [by right|]. split; [left; apply val_u128; lia|]. by split.
  - by vm_compute.
  - by vm_compute.
  - vm_compute. lia.
  - vm_compute. discriminate.
  - vm_compute. discriminate.
  - intros cr E. vm_compute in E. injection E as <-. split; [reflexivity|].
    apply collisions_few. cbn. lia.
  - by repeat split.
  - discriminate.
  - reflexivity.
  - reflexivity.
  - intros s Hin. unfold wide_vals in Hin. repeat (apply elem_of_cons in Hin as [Hin|Hin]; [by inversion Hin|]). by apply elem_of_nil in Hin.
  - intros j c Hj. do 4 (destruct j as [|j]; [exact Hj|]). done.
  - reflexivity.
Defined.
