(* ===== verification/Filter.v ===== *)
(** * Filters ([DB/filter.c], [DB/range.c], passFilts)

    A filter is a condition on one column: a comparison with a value, a range, a
    list of values or a Lua function.  A row passes a list of filters when it
    passes each of those of its table.  A prepared statement keeps a filter as
    bytes. *)

From S2P Require Import Prelude Stream CStr Row Aobj BtKey.

#[local] Set Warnings "-register-all".

(** ** The record *)

(** A column: its number, the function index of a Lua function, the path inside a
    Lua column. *)
Record icol_t := Icol { cmatch : Z; fimatch : Z; lo : list (list Z) }.
Definition INIT_ICOL (c : Z) : icol_t := Icol c (-1) [].

(** [enum OP] *)
Inductive OP := NONE | EQ | NE | GT | GE | LT | LE | RQ | IN | LFUNC.

(** The Lua function of a filter: its name and arguments. *)
Record lue_t := Lue { le_fname : list Z; le_as : list aobj }.

Inductive f_t := Flt {
  f_jan : Z; f_imatch : Z; f_tmatch : Z; f_ic : icol_t; f_op : OP; f_iss : bool;
  f_key : option (list Z); f_akey : aobj;
  f_low : option (list Z); f_alow : aobj;
  f_high : option (list Z); f_ahigh : aobj;
  f_inl : option (list aobj); f_klist : option (list f_t); f_le : lue_t;
}.

Definition initFilter : f_t :=
  Flt (-1) (-1) (-1) (INIT_ICOL (-1)) NONE false None initAobj None initAobj None initAobj None None (Lue [] []).

Definition absent {A} (x : option A) : bool := match x with Some _ => false | None => true end.

(** [listDup] of a key list, which has no copy function, shares the elements.  The
    path of the column and the function index are not copied: [bzero] leaves the
    function index 0. *)
Definition cloneFilter (o : f_t) : option f_t :=
  akey ← aobjClone (f_akey o); alow ← aobjClone (f_alow o); ahigh ← aobjClone (f_ahigh o);
  inl ← (match f_inl o with None => Some None | Some l => l ← mapM cloneAobj l; Some (Some l) end);
  Some (Flt (f_jan o) (f_imatch o) (f_tmatch o) (Icol (cmatch (f_ic o)) 0 []) (f_op o) (f_iss o)
          (f_key o) akey (f_low o) alow (f_high o) ahigh inl (f_klist o) (Lue [] [])).

(** Updates of the values. *)
Definition set_akey (f : f_t) (a : aobj) : f_t :=
  Flt (f_jan f) (f_imatch f) (f_tmatch f) (f_ic f) (f_op f) (f_iss f) (f_key f) a (f_low f) (f_alow f)
    (f_high f) (f_ahigh f) (f_inl f) (f_klist f) (f_le f).
Definition set_arange (f : f_t) (l h : aobj) : f_t :=
  Flt (f_jan f) (f_imatch f) (f_tmatch f) (f_ic f) (f_op f) (f_iss f) (f_key f) (f_akey f) (f_low f) l
    (f_high f) h (f_inl f) (f_klist f) (f_le f).
Definition set_type (a : aobj) (t : Z) : aobj :=
  Aobj (ao_s a) (ao_len a) (ao_i a) (ao_l a) (ao_x a) (ao_f a) (ao_b a) t (ao_enc a) (ao_freeme a) (ao_empty a).

(** ** The schema

    What the code reads of the tables and indexes. *)
Record schema := Schema {
  sc_ctype : Z -> Z -> Z;            (* Tbl[t].col[c].type *)
  sc_imatch : Z -> Z -> Z;           (* Tbl[t].col[c].imatch *)
  sc_ilist : Z -> Z -> list Z;       (* indexes of the column's name in Tbl[t].cdict *)
  sc_icol : Z -> icol_t;             (* Index[i].icol *)
  sc_done : Z -> bool;               (* Index[i].done *)
  sc_dtype : Z -> Z;                 (* Index[i].dtype *)
}.

Definition SPECIAL_COL_IMATCH_ADD_NUM : Z := 100.
Definition getImatchFromOCmatch (c : Z) : Z := c * -1 - 2 - SPECIAL_COL_IMATCH_ADD_NUM.

(** [strcmp] of two strings of the path, through [bool]. *)
Fixpoint lo_cmp (l1 l2 : list (list Z)) : bool :=
  match l1, l2 with
  | s1 :: l1, s2 :: l2 => if decide (s1 = s2) then lo_cmp l1 l2 else true
  | _, _ => false
  end.

(** [bool] is unsigned, so that -1 is true.  The first test looks at the first
    column twice. *)
Definition icol_cmp (ic1 ic2 : icol_t) : bool :=
  let nlo (ic : icol_t) := length (lo ic) in
  let ret := negb (cmatch ic1 =? cmatch ic2) in
  if (nlo ic1 =? 0)%nat then ret
  else if negb (nlo ic1 =? nlo ic2)%nat then true
  else lo_cmp (lo ic1) (lo ic2).

Section Schema.
Context (sc : schema).

Definition CTYPE_FROM_FLT (f : f_t) : Z :=
  if cmatch (f_ic f) <? -1 then COL_TYPE_FUNC
  else if negb (fimatch (f_ic f) =? -1) then sc_dtype sc (fimatch (f_ic f))
  else if cmatch (f_ic f) =? -1 then COL_TYPE_NONE
  else sc_ctype sc (f_tmatch f) (cmatch (f_ic f)).

Fixpoint match_ilist (ic : icol_t) (l : list Z) : Z :=
  match l with
  | [] => -1
  | im :: l => if negb (icol_cmp ic (sc_icol sc im)) then im else match_ilist ic l
  end.
Definition _find_index (tmatch : Z) (ic : icol_t) (prtl : bool) : Z :=
  if cmatch ic <? -1 then getImatchFromOCmatch (cmatch ic)
  else
    let imatch :=
      if negb (C_IS_O (sc_ctype sc tmatch (cmatch ic))) then sc_imatch sc tmatch (cmatch ic)
      else match_ilist ic (sc_ilist sc tmatch (cmatch ic)) in
    if imatch =? -1 then -1
    else if negb prtl then (if sc_done sc imatch then imatch else -1)
    else imatch.
Definition find_index (tmatch : Z) (ic : icol_t) : Z := _find_index tmatch ic false.
Definition find_partial_index (tmatch : Z) (ic : icol_t) : Z := _find_index tmatch ic true.

(** *** Values *)

Section Text.
Context (is_float : list Z -> bool) (atof : list Z -> Z).

Definition convertFilterSDStoAobj (f : f_t) : option f_t :=
  let ctype := CTYPE_FROM_FLT f in
  let f := set_akey f (set_type (f_akey f) ctype) in
  let range f :=
    match f_low f with
    | Some low =>
        if ao_empty (f_alow f) then
          high ← f_high f;
          l ← convertSdsToAobj atof low ctype; h ← convertSdsToAobj atof high ctype; Some (set_arange f l h)
        else Some f
    | None => Some f
    end in
  match f_key f with
  | Some key =>
      if ao_empty (f_akey f) then a ← convertSdsToAobj atof key ctype; Some (set_akey f a) else range f
  | None => range f
  end.

(** The values of a filter of the list, from their texts; [None] also when a lower
    bound has no upper one. *)
Definition convert_one (f : f_t) : option f_t :=
  if negb (absent (f_inl f)) then Some f
  else
    let ctype := CTYPE_FROM_FLT f in
    let val s := initAobjFromStr is_float atof (s ++ [0]) (Z.of_nat (length s)) ctype in
    f ← (match f_key f with None => Some f | Some key => a ← val key; Some (set_akey f a) end);
    match f_low f with
    | None => Some f
    | Some low => high ← f_high f; l ← val low; h ← val high; Some (set_arange f l h)
    end.
Definition convertFilterListToAobj (flist : list f_t) : option (list f_t) := mapM convert_one flist.

(** *** Prepared statements *)

(** -1 is a filter that can not be prepared; the filter comes back with its value
    converted. *)
Definition getSizeFLT (f : f_t) : option (f_t * Z) :=
  if negb (absent (f_inl f)) || negb (absent (f_low f)) then Some (f, -1)
  else
    f ← convertFilterSDStoAobj f;
    if f_tmatch f =? -1 then Some (f, 0)
    else
      ksize ← getSizeAobj (f_akey f);
      Some (f, if ksize =? -1 then -1 else 4 * 3 + 1 + ksize).
End Text.

(** The bytes of the value, and the value read into an [aobj] with their number. *)
Definition put_val (ctype : Z) (a : aobj) : option (list Z) :=
  if C_IS_I ctype then Some (le_bytes 4 (ao_i a))
  else if C_IS_L ctype then Some (le_bytes 8 (ao_l a))
  else if C_IS_X ctype then Some (le_bytes 16 (ao_x a))
  else None.
Definition key_read (a : aobj) (t : Z) (i l x : Z) : aobj :=
  Aobj (ao_s a) (ao_len a) i l x (ao_f a) (ao_b a) t t (ao_freeme a) (ao_empty a).
Definition get_val (ctype : Z) (a : aobj) (v : list Z) : option (aobj * Z) :=
  if C_IS_I ctype then i ← load 4 v; Some (key_read a COL_TYPE_INT i (ao_l a) (ao_x a), 4)
  else if C_IS_L ctype then l ← load 8 v; Some (key_read a COL_TYPE_LONG (ao_i a) l (ao_x a), 8)
  else if C_IS_X ctype then w ← load 16 v; Some (key_read a COL_TYPE_U128 (ao_i a) (ao_l a) w, 16)
  else Some (a, 0).

(** The bytes written to the static buffer; the inner [None] is NULL. *)
Definition serialiseFLT (f : f_t) : option (option (list Z)) :=
  if negb (absent (f_inl f)) || negb (absent (f_low f)) then Some None
  else if f_tmatch f =? -1 then Some None
  else
    let ctype := CTYPE_FROM_FLT f in
    v ← put_val ctype (f_akey f);
    Some (Some (le_bytes 4 (u32 (f_tmatch f)) ++ le_bytes 4 (u32 (cmatch (f_ic f))) ++
                le_bytes 4 (u32 (f_jan f)) ++ [u8 ctype] ++ v)).

(** A signed [int] of four bytes. *)
Definition load_int (m : list Z) : option Z := z ← load 4 m; Some (s32 z).

Definition set_full (a : aobj) : aobj :=
  Aobj (ao_s a) (ao_len a) (ao_i a) (ao_l a) (ao_x a) (ao_f a) (ao_b a) (ao_type a) (ao_enc a) (ao_freeme a) false.

(** The filter read over [f], and the bytes read. *)
Definition deserialiseFLT (x : list Z) (f : f_t) : option (f_t * Z) :=
  tmatch ← load_int x; cm ← load_int (drop 4 x); jan ← load_int (drop 8 x);
  ctype ← load 1 (drop 12 x);
  let ic := Icol cm (fimatch (f_ic f)) (lo (f_ic f)) in
  let imatch := find_index tmatch ic in
  let v := drop 13 x in
  '(a, n) ← get_val ctype (f_akey f) v;
  Some (Flt jan imatch tmatch ic EQ (f_iss f) (f_key f) (set_full a) (f_low f) (f_alow f) (f_high f)
          (f_ahigh f) (f_inl f) (f_klist f) (f_le f), 13 + n).
End Schema.

(** ** Rows that pass *)

Section Pass.
(** The value of a column of a row, [getCol] of the table, and what a Lua filter
    says of it: its result, and whether it failed. *)
Context (getcol : Z -> aobj -> cptr -> option aobj) (runLuaFilter : lue_t -> aobj -> cptr -> bool * bool).

(** [OP_CMP]: the comparison of the filter's value with the column's, so the order
    is turned around. *)
Definition OP_CMP (op : OP) (a b : aobj) : option bool :=
  match op with
  | EQ => aobjEQ a b
  | NE => aobjNE a b
  | GT => aobjLT a b
  | GE => aobjLE a b
  | LT => aobjGT a b
  | LE => aobjGE a b
  | NONE | RQ | IN | LFUNC => None
  end.

(** The values of an IN list until one is equal; [ret] is what it was before. *)
Fixpoint inl_loop (ret : bool) (l : list aobj) (a : aobj) : option bool :=
  match l with
  | [] => Some ret
  | a2 :: l => r ← OP_CMP EQ a2 a; if (r : bool) then Some true else inl_loop r l a
  end.

(** The filters that are left, the result so far and whether a Lua filter failed.
    A Lua filter does not end the loop. *)
Fixpoint filts_loop (ret hf : bool) (fl : list f_t) (tmatch : Z) (apk : aobj) (rrow : cptr) : option (bool * bool) :=
  match fl with
  | [] => Some (ret, hf)
  | f :: fl =>
      if negb (tmatch =? f_tmatch f) then filts_loop ret hf fl tmatch apk rrow
      else
        a ← getcol (cmatch (f_ic f)) apk rrow;
        match f_inl f with
        | Some l =>
            ret ← inl_loop ret l a;
            if negb ret then Some (false, hf) else filts_loop ret hf fl tmatch apk rrow
        | None =>
            if negb (ao_type (f_alow f) =? COL_TYPE_NONE) then
              ret ← OP_CMP GE (f_alow f) a;
              if negb ret then Some (false, hf)
              else
                ret ← OP_CMP LE (f_ahigh f) a;
                if negb ret then Some (false, hf) else filts_loop ret hf fl tmatch apk rrow
            else if negb (ao_type (f_akey f) =? COL_TYPE_NONE) then
              ret ← OP_CMP (f_op f) (f_akey f) a;
              if negb ret then Some (false, hf) else filts_loop ret hf fl tmatch apk rrow
            else
              match f_op f with
              | LFUNC =>
                  let '(ret, hf') := runLuaFilter (f_le f) apk rrow in
                  filts_loop ret (hf || hf') fl tmatch apk rrow
              | _ => None
              end
        end
  end.

(** The result, and [*hf]. *)
Definition passFilts (flist : option (list f_t)) (tmatch : Z) (apk : aobj) (rrow : cptr) : option (bool * bool) :=
  match flist with
  | None => Some (true, false)
  | Some fl => filts_loop true false fl tmatch apk rrow
  end.
End Pass.

(** ** The condition of a list of filters *)

(** The number of a column against the numbers of a filter. *)
Definition num_of (a : aobj) : Z := default 0 (num_val a).
Definition op_holds (op : OP) (y x : Z) : bool :=
  match op with
  | EQ => y =? x
  | NE => negb (y =? x)
  | GT => x <? y
  | GE => x <=? y
  | LT => y <? x
  | LE => y <=? x
  | NONE | RQ | IN | LFUNC => false
  end.
Definition flt_holds (f : f_t) (y : Z) : bool :=
  match f_inl f with
  | Some l => existsb (fun a => num_of a =? y) l
  | None =>
      if negb (ao_type (f_alow f) =? COL_TYPE_NONE) then (num_of (f_alow f) <=? y) && (y <=? num_of (f_ahigh f))
      else op_holds (f_op f) y (num_of (f_akey f))
  end.

(** A value that can be compared with a column value: of the same numeric type,
    and for INT less than [2^31] apart. *)
Definition comparable (v a : aobj) : Prop :=
  ao_ok v /\ ao_type v = ao_type a /\ (C_IS_I (ao_type a) = true -> Z.abs (num_of v - num_of a) < 2 ^ 31).

Definition is_cmp (op : OP) : bool := match op with NONE | RQ | IN | LFUNC => false | _ => true end.

(** A filter on a numeric column, without a Lua function; the values of an INT
    column are not tested with [!=]. *)
Record flt_num (f : f_t) (a : aobj) : Prop := {
  fn_ok : ao_ok a;
  fn_num : C_IS_NUM (ao_type a) = true;
  fn_inl : forall l, f_inl f = Some l -> l <> [] /\ Forall (fun v => comparable v a) l;
  fn_range : f_inl f = None -> ao_type (f_alow f) <> COL_TYPE_NONE ->
    comparable (f_alow f) a /\ comparable (f_ahigh f) a;
  fn_key : f_inl f = None -> ao_type (f_alow f) = COL_TYPE_NONE ->
    comparable (f_akey f) a /\ is_cmp (f_op f) = true /\ (f_op f = NE -> C_IS_I (ao_type a) = false);
}.

Lemma comparable_num v a : comparable v a -> ao_ok a -> C_IS_NUM (ao_type a) = true ->
  num_val v = Some (num_of v) /\ num_val a = Some (num_of a).
Proof.
  intros (_ & Ht & _) _ Hn. unfold num_of, num_val. rewrite Ht. unfold C_IS_NUM in Hn.
  destruct (C_IS_I (ao_type a)); [done|]. destruct (C_IS_L (ao_type a)); [done|]. by destruct (C_IS_X (ao_type a)).
Qed.

Lemma op_cmp_ok op v a : comparable v a -> ao_ok a -> C_IS_NUM (ao_type a) = true -> is_cmp op = true ->
  (op = NE -> C_IS_I (ao_type a) = false) -> OP_CMP op v a = Some (op_holds op (num_of a) (num_of v)).
Proof.
  intros Hc Ha Hn Hop Hne. destruct (comparable_num v a Hc Ha Hn) as [Hv Hy]. destruct Hc as (Hok & Ht & Hd).
  destruct (cmp_numeric v a (num_of v) (num_of a) Hok Ha Ht Hv Hy) as (HEQ & HNE & Hord). rewrite Ht in HNE, Hord.
  destruct (Hord Hd) as (HLT & HLE & HGT & HGE).
  destruct op; cbn [OP_CMP op_holds]; rewrite ?HEQ, ?HLT, ?HLE, ?HGT, ?HGE; try done.
  - by rewrite Z.eqb_sym.
  - rewrite HNE, (Hne eq_refl), Z.eqb_sym. done.
Qed.

Lemma inl_ok ret l a : ret = false \/ l <> [] -> Forall (fun v => comparable v a) l -> ao_ok a -> C_IS_NUM (ao_type a) = true ->
  inl_loop ret l a = Some (existsb (fun v => num_of v =? num_of a) l).
Proof.
  intros Hr Hl Ha Hn. revert ret Hr. induction Hl as [|v l Hv Hl IH]; intros ret Hr; cbn [inl_loop existsb].
  - by destruct Hr as [->|?].
  - rewrite (op_cmp_ok EQ v a Hv Ha Hn) by done. cbn [mbind option_bind op_holds].
    rewrite Z.eqb_sym. destruct (Z.eqb_spec (num_of v) (num_of a)); [done|]. apply IH. by left.
Qed.

(** One filter of the table. *)
Lemma flt_step getcol lua f a ret fl tmatch apk rrow : f_tmatch f = tmatch ->
  getcol (cmatch (f_ic f)) apk rrow = Some a -> flt_num f a ->
  filts_loop getcol lua ret false (f :: fl) tmatch apk rrow =
  if flt_holds f (num_of a) then filts_loop getcol lua true false fl tmatch apk rrow else Some (false, false).
Proof.
  intros Ht Hg [Ha Hn Hinl Hrange Hkey]. cbn [filts_loop]. rewrite Ht, Z.eqb_refl, Hg. cbn [negb mbind option_bind].
  unfold flt_holds. destruct (f_inl f) as [l|].
  { destruct (Hinl l eq_refl) as [Hne Hl]. rewrite (inl_ok ret l a) by auto. cbn [mbind option_bind].
    by destruct (existsb _ l). }
  destruct (Z.eqb_spec (ao_type (f_alow f)) COL_TYPE_NONE) as [Hlow|Hlow]; cbn [negb].
  - destruct (Hkey eq_refl Hlow) as (Hc & Hop & Hne).
    assert (Hkt : negb (ao_type (f_akey f) =? COL_TYPE_NONE) = true).
    { destruct Hc as (_ & -> & _). apply negb_true_iff, Z.eqb_neq. intros E. by rewrite E in Hn. }
    rewrite Hkt, (op_cmp_ok _ _ a Hc Ha Hn Hop Hne). cbn [mbind option_bind].
    by destruct (op_holds _ _ _).
  - destruct (Hrange eq_refl Hlow) as [Hl Hh]. rewrite (op_cmp_ok GE _ a Hl Ha Hn) by done.
    cbn [mbind option_bind op_holds]. destruct (num_of (f_alow f) <=? num_of a); [|done]. cbn [negb andb].
    rewrite (op_cmp_ok LE _ a Hh Ha Hn) by done. cbn [mbind option_bind op_holds].
    by destruct (num_of a <=? num_of (f_ahigh f)).
Qed.

(** The list of filters on the columns of a table. *)
Definition row_passes (val : Z -> Z) (fl : list f_t) (tmatch : Z) : bool :=
  forallb (fun f => negb (tmatch =? f_tmatch f) || flt_holds f (val (cmatch (f_ic f)))) fl.

Lemma filts_ok getcol lua fl tmatch apk rrow val :
  (forall f, f ∈ fl -> f_tmatch f = tmatch -> exists a, getcol (cmatch (f_ic f)) apk rrow = Some a /\ flt_num f a /\
     num_of a = val (cmatch (f_ic f))) ->
  filts_loop getcol lua true false fl tmatch apk rrow = Some (row_passes val fl tmatch, false).
Proof.
  induction fl as [|f fl IH]; intros Hf; [done|]. unfold row_passes. cbn [forallb]. fold (row_passes val fl tmatch).
  destruct (Z.eqb_spec tmatch (f_tmatch f)) as [E|E].
  - destruct (Hf f ltac:(by left) ltac:(done)) as (a & Hg & Hn & Hv).
    rewrite (flt_step getcol lua f a) by done. rewrite Hv. cbn [negb orb].
    destruct (flt_holds f _); [|done]. cbn [andb]. apply IH. intros f' Hin. apply Hf. by right.
  - cbn [filts_loop]. rewrite (proj2 (Z.eqb_neq _ _) E). cbn [negb orb andb].
    apply IH. intros f' Hin. apply Hf. by right.
Qed.

(** ** Properties *)

(** C31: a row passes a list of filters on numeric columns when every filter of its
    table holds of the number in its column: a comparison, a range with both
    ends, or the membership in a list. *)
Theorem filters_conjunction (getcol : Z -> aobj -> cptr -> option aobj) (lua : lue_t -> aobj -> cptr -> bool * bool)
    (fl : list f_t) (tmatch : Z) (apk : aobj) (rrow : cptr) (val : Z -> Z) :
  (forall f, f ∈ fl -> f_tmatch f = tmatch -> exists a, getcol (cmatch (f_ic f)) apk rrow = Some a /\ flt_num f a /\
     num_of a = val (cmatch (f_ic f))) ->
  passFilts getcol lua (Some fl) tmatch apk rrow = Some (row_passes val fl tmatch, false).
Proof. apply filts_ok. Qed.

(** the result of a Lua filter is lost when a comparison on the same table
    follows it: whatever the function answered, the row passes as if it were not
    in the list. *)
Theorem lua_filter_overridden (getcol : Z -> aobj -> cptr -> option aobj) (lua : lue_t -> aobj -> cptr -> bool * bool)
    (f g : f_t) (fl : list f_t) (tmatch : Z) (apk : aobj) (rrow : cptr) (a b : aobj) (answer : bool) :
  f_tmatch f = tmatch -> f_inl f = None -> ao_type (f_alow f) = COL_TYPE_NONE -> ao_type (f_akey f) = COL_TYPE_NONE ->
  f_op f = LFUNC -> getcol (cmatch (f_ic f)) apk rrow = Some a -> lua (f_le f) apk rrow = (answer, false) ->
  f_tmatch g = tmatch -> getcol (cmatch (f_ic g)) apk rrow = Some b -> flt_num g b ->
  passFilts getcol lua (Some (f :: g :: fl)) tmatch apk rrow = passFilts getcol lua (Some (g :: fl)) tmatch apk rrow.
Proof.
  intros Hf Hi Hl Hk Hop Hg Hlua Ht Hgb Hn. cbn [passFilts]. rewrite (flt_step getcol lua g b) by done.
  set (rest := g :: fl). cbn [filts_loop]. rewrite Hf, Z.eqb_refl, Hg, Hi, Hl, Hk, Hop, Hlua.
  cbn [negb mbind option_bind Z.eqb orb]. unfold rest. by rewrite (flt_step getcol lua g b).
Qed.

Lemma val_roundtrip ct a b rest : C_IS_NUM ct = true -> ao_ok a ->
  exists bs b', put_val ct a = Some bs /\ get_val ct b (bs ++ rest) = Some (b', Z.of_nat (length bs)) /\
    getSizeAobj (set_type a ct) = Some (Z.of_nat (length bs)) /\ ao_type b' = ct /\
    num_val b' = num_val (set_type a ct).
Proof.
  intros Hn (H1 & H2 & H3). unfold put_val, get_val.
  destruct (num_cases ct Hn) as [->|[->| ->]];
    cbn [C_IS_I C_IS_L C_IS_X Z.eqb Pos.eqb COL_TYPE_INT COL_TYPE_LONG COL_TYPE_U128]; eexists _, _;
    (split; [done|]); rewrite load_le_bytes, length_le_bytes by lia; by split_and!.
Qed.
Lemma head_drops (A B C : list Z) (c : Z) (v : list Z) : length A = 4%nat -> length B = 4%nat -> length C = 4%nat ->
  let m := A ++ B ++ C ++ [c] ++ v in
  drop 4 m = B ++ C ++ [c] ++ v /\ drop 8 m = C ++ [c] ++ v /\ drop 12 m = [c] ++ v /\ drop 13 m = v.
Proof.
  intros HA HB HC. do 5 (destruct A as [|? A]; try done). do 5 (destruct B as [|? B]; try done).
  by do 5 (destruct C as [|? C]; try done).
Qed.

(** a filter on a numeric column that is compiled into a prepared statement is
    read back as a test for equality of the same column of the same table and
    join alias with the same value, and takes the bytes it was said to. *)
Theorem filter_roundtrip (sc : schema) (is_float : list Z -> bool) (atof : list Z -> Z) (f g : f_t) (rest : list Z) :
  f_inl f = None -> f_low f = None -> f_key f = None -> 0 <= f_tmatch f < 2 ^ 31 ->
  0 <= cmatch (f_ic f) < 2 ^ 31 -> fimatch (f_ic f) = -1 -> - 2 ^ 31 <= f_jan f < 2 ^ 31 -> ao_ok (f_akey f) ->
  C_IS_NUM (CTYPE_FROM_FLT sc f) = true ->
  exists bs n f', serialiseFLT sc f = Some (Some bs) /\ n = Z.of_nat (length bs) /\
    option_map snd (getSizeFLT sc atof f) = Some n /\ deserialiseFLT sc (bs ++ rest) g = Some (f', n) /\
    f_tmatch f' = f_tmatch f /\ cmatch (f_ic f') = cmatch (f_ic f) /\ f_jan f' = f_jan f /\ f_op f' = EQ /\
    ao_empty (f_akey f') = false /\ ao_type (f_akey f') = CTYPE_FROM_FLT sc f /\
    num_val (f_akey f') = num_val (set_type (f_akey f) (CTYPE_FROM_FLT sc f)).
Proof.
  intros Hi Hlo Hkey Ht Hc Hfi Hj (Ho1 & Ho2 & Ho3) Hn.
  assert (Hload : forall z r, - 2 ^ 31 <= z < 2 ^ 31 -> load_int (le_bytes 4 (u32 z) ++ r) = Some z).
  { intros z r Hz. unfold load_int. rewrite load_le_bytes by (apply uwrap_bound; lia). cbn [mbind option_bind].
    f_equal. rewrite <- (swrap_small 32 z) at 2 by lia. unfold swrap. by rewrite uwrap_idem. }
  assert (Hnl : f_tmatch f <> -1) by lia.
  unfold getSizeFLT, convertFilterSDStoAobj, serialiseFLT. rewrite Hi, Hlo. set (ct := CTYPE_FROM_FLT sc f) in *.
  cbn [absent negb orb set_akey f_key f_low f_alow mbind option_bind f_tmatch f_akey]. rewrite Hkey, Hlo.
  cbn [mbind option_bind f_tmatch f_akey]. rewrite (proj2 (Z.eqb_neq _ _) Hnl).
  assert (Hct : u8 ct = ct /\ is_byte ct) by (destruct (num_cases ct Hn) as [->|[->| ->]]; split; (done || unfold is_byte; lia)).
  destruct (val_roundtrip ct (f_akey f) (f_akey g) rest Hn (conj Ho1 (conj Ho2 Ho3))) as (bs & b & -> & Eg & Es & Hbt & Hbv).
  cbn [set_akey f_akey f_tmatch]. rewrite (proj2 (Z.eqb_neq _ _) Hnl), Es.
  cbn [mbind option_bind option_map snd]. eexists _, _, _. split; [done|]. split; [done|]. split.
  { f_equal. rewrite !length_app, !length_le_bytes. cbn [length]. destruct (Z.eqb_spec (Z.of_nat (length bs)) (-1)); lia. }
  split; cycle 1.
  { instantiate (1 := Flt _ _ _ (Icol _ _ _) _ _ _ (set_full b) _ _ _ _ _ _ _). by split_and!. }
  unfold deserialiseFLT. rewrite <- !app_assoc.
  destruct (head_drops (le_bytes 4 (u32 (f_tmatch f))) (le_bytes 4 (u32 (cmatch (f_ic f)))) (le_bytes 4 (u32 (f_jan f)))
    (u8 ct) (bs ++ rest)) as (-> & -> & -> & ->); [apply length_le_bytes..|].
  rewrite !Hload by lia. cbn [mbind option_bind]. rewrite (load_app 1 [u8 ct]) by done.
  cbn [mbind option_bind le_num]. rewrite (proj1 Hct). replace (ct + 256 * 0) with ct by lia. rewrite Eg.
  cbn [mbind option_bind]. do 2 f_equal. rewrite !length_app, !length_le_bytes. cbn [length]. lia.
Qed.

(** ** Witnesses *)

(** Filters on an INT column: 5 <= c1 <= 20, and c1 in (7, 10, 12). *)
Definition w_range : f_t :=
  Flt (-1) (-1) 0 (INIT_ICOL 1) RQ false None initAobj None (initAobjInt 5) None (initAobjInt 20) None None (Lue [] []).
Definition w_in : f_t :=
  Flt (-1) (-1) 0 (INIT_ICOL 1) IN false None initAobj None initAobj None initAobj
    (Some [initAobjInt 7; initAobjInt 10; initAobjInt 12]) None (Lue [] []).
Definition w_lua : f_t :=
  Flt (-1) (-1) 0 (INIT_ICOL 1) LFUNC false None initAobj None initAobj None initAobj None None (Lue [102] []).
Definition w_key : f_t :=
  Flt (-1) (-1) 0 (INIT_ICOL 1) EQ false None (initAobjInt 10) None initAobj None initAobj None None (Lue [] []).
Definition w_col (c : Z) (apk : aobj) (r : cptr) : option aobj := Some (initAobjInt 10).

Lemma w_comparable n : 0 <= n < 2 ^ 20 -> comparable (initAobjInt n) (initAobjInt 10).
Proof.
  intros Hn. split; [apply int_obj_ok|]. split; [done|]. intros _. cbn. rewrite !uwrap_small by lia. lia.
Qed.
Lemma w_range_num : flt_num w_range (initAobjInt 10).
Proof. split; [apply int_obj_ok|done|done|split; apply w_comparable; lia|done]. Qed.
Lemma w_in_num : flt_num w_in (initAobjInt 10).
Proof.
  split; [apply int_obj_ok|done| |done|done]. intros l [= <-]. split; [done|]. repeat constructor; apply w_comparable; lia.
Qed.

Lemma filters_conjunction_witness :
  passFilts w_col (fun _ _ _ => (true, false)) (Some [w_range; w_in]) 0 initAobj (PNum 0) = Some (true, false).
Proof.
  rewrite (filters_conjunction w_col (fun _ _ _ => (true, false)) [w_range; w_in] 0 initAobj (PNum 0) (fun _ => 10)).
  - reflexivity.
  - intros f [->|[->|[]%elem_of_nil]%elem_of_cons]%elem_of_cons _; exists (initAobjInt 10); split; [done| |done|];
      split; [apply w_range_num|done|apply w_in_num|done].
Defined.

(** The Lua function refuses the row. *)
Lemma lua_filter_overridden_witness :
  passFilts w_col (fun _ _ _ => (false, false)) (Some [w_lua; w_range]) 0 initAobj (PNum 0) = Some (true, false).
Proof.
  rewrite (lua_filter_overridden w_col (fun _ _ _ => (false, false)) w_lua w_range [] 0 initAobj (PNum 0) (initAobjInt 10)
    (initAobjInt 10) false); try reflexivity. apply w_range_num.
Defined.

Definition w_schema : schema := Schema (fun _ _ => COL_TYPE_INT) (fun _ _ => 3) (fun _ _ => []) (fun _ => INIT_ICOL 1)
  (fun _ => true) (fun _ => COL_TYPE_INT).
Lemma filter_roundtrip_witness : exists bs n f', serialiseFLT w_schema w_key = Some (Some bs) /\
  deserialiseFLT w_schema (bs ++ [9]) initFilter = Some (f', n) /\ num_val (f_akey f') = Some 10.
Proof.
  destruct (filter_roundtrip w_schema (fun _ => false) (fun _ => 0) w_key initFilter [9])
    as (bs & n & f' & E & _ & _ & D & _ & _ & _ & _ & _ & _ & V); try reflexivity; try (cbn; lia).
  - apply int_obj_ok.
  - exists bs, n, f'. split; [exact E|]. split; [exact D|]. rewrite V. reflexivity.
Defined.
