(* ===== verification/Index.v ===== *)
(** * Secondary indexes ([DB/index.c], index maintenance)

    An index is a tree from the values of a column to the trees of the primary
    keys that have the value; a multi-column index (MCI) is a tree of trees, one
    level per column; a UNIQUE index ends in a tree from the last column to the
    key.  All these trees live in one store, the [heap], by address; an operation
    takes the store and gives it back changed.  [None] is a read through a
    pointer to no tree, a failed assertion, or a failure of the tree itself.
    The bytes accounted for in [msize] are not modelled. *)

From stdpp Require Import gmap.
From S2P Require Import Prelude Stream CStr Row Aobj BtSearch DirtyStream Btree BtOps BtIter BtScan BtKey BtKeyLaws Abt GetCol.

(** ** The store of trees *)

Record htree := HTree { h_args : bt_args; h_tree : abt h_args }.
Abbreviation heap := (gmap Z htree).

(** The address [malloc] gives a new tree, and what it promises: an address that
    is free, and not NULL, as long as there are fewer than 2^32 trees. *)
Class Malloc := malloc : heap -> Z.
Class MallocLaws `{Malloc} : Prop := malloc_fresh :
  forall h, Z.of_nat (size h) < 2 ^ 32 -> h !! malloc h = None /\ 0 < malloc h < 2 ^ 64.

(** An operation on the tree at an address. *)
Definition h_get {R} (h : heap) (p : Z) (f : forall a, abt a -> option R) : option R :=
  t ← h !! p; f (h_args t) (h_tree t).
Definition h_upd {R} (h : heap) (p : Z) (f : forall a, abt a -> option (abt a * R)) : option (heap * R) :=
  t ← h !! p; '(x, r) ← f (h_args t) (h_tree t); Some (<[p := HTree (h_args t) x]> h, r).

Definition h_find (h : heap) (p : Z) (k : aobj) : option cptr := h_get h p (fun a x => btFind a x k).
Definition h_ind_add (h : heap) (p : Z) (k : aobj) (nbtr : Z) : option heap :=
  '(h, _) ← h_upd h p (fun a x => x' ← btIndAdd a x k nbtr; Some (x', ())); Some h.
Definition h_ind_delete (h : heap) (p : Z) (k : aobj) : option (heap * Z) :=
  h_upd h p (fun a x => btIndDelete a x k).
Definition h_ind_null (h : heap) (p : Z) (k : aobj) : option (heap * Z) :=
  h_upd h p (fun a x => btIndNull a x k).
Definition h_node_add (h : heap) (p : Z) (apk : aobj) (ocol : option aobj) : option (heap * bool) :=
  h_upd h p (fun a x => btIndNodeAdd a x apk ocol).
Definition h_node_delete (h : heap) (p : Z) (apk : aobj) (ocol : option aobj) : option (heap * Z) :=
  h_upd h p (fun a x => btIndNodeDelete a x apk ocol).
Definition h_node_evict (h : heap) (p : Z) (apk : aobj) (ocol : option aobj) : option (heap * Z) :=
  h_upd h p (fun a x => btIndNodeEvict a x apk ocol).
Definition h_add_uniq (h : heap) (p : Z) (pktyp : Z) (apk acol : aobj) : option heap :=
  '(h, _) ← h_upd h p (fun a x => x' ← iAddUniq a x pktyp apk acol; Some (x', ())); Some h.
Definition h_delete (h : heap) (p : Z) (k : aobj) : option heap :=
  '(h, _) ← h_upd h p (fun a x => btDelete a x k); Some h.
Definition h_numkeys (h : heap) (p : Z) : option Z := h_get h p (fun a x => Some (numkeys (tree a x))).

(** [bt_destroy] frees the one tree. *)
Definition bt_destroy (h : heap) (p : Z) : heap := delete p h.

(** ** Indexes *)

Definition CONSTRAINT_NONE : Z := 0.
Definition CONSTRAINT_UNIQUE : Z := 1.
Definition UNIQ (cnstr : Z) : bool := cnstr =? CONSTRAINT_UNIQUE.

(** The fields the maintenance reads; columns are column numbers, [ri_bclist] is
    empty for a single-column index, and the number of the index is a field. *)
Record r_ind_t := RInd {
  ri_num : Z; ri_virt : bool; ri_btr : Z; ri_icol : Z; ri_bclist : list Z; ri_cnstr : Z;
  ri_lru : bool; ri_lfu : bool; ri_hlt : bool; ri_obc : Z; ri_dtype : Z; ri_fname : bool;
}.
Definition ri_clist (ri : r_ind_t) : bool := match ri_bclist ri with [] => false | _ => true end.
Definition nclist (ri : r_ind_t) : nat := length (ri_bclist ri).

(** A step of the trail that the undo and the deletion follow: the tree, the key
    in it and the tree the key leads to. *)
Record dp_t := Dp { dp_ibtr : Z; dp_acol : aobj; dp_nbtr : Z }.
Definition init_dp := Dp.

Section Index.
Context `{Malloc}.
(** [floor(log2((dbl)l))] of libm, and what a Lua trigger leaves of the store. *)
Context (floor_log2 : Z -> Z) (luatAdd luatDel : r_ind_t -> aobj -> cptr -> heap -> heap).
(** The columns of a row: [getCol] of its table, by the column's number, for the
    given key and row. *)
Context (getcol : Z -> aobj -> cptr -> option aobj).
(** The type of the primary key, and of any column. *)
Context (pktyp : Z) (coltype : Z -> Z).

Definition otype_of (ocol : option aobj) : Z :=
  match ocol with Some o => ao_type o | None => COL_TYPE_NONE end.

(** A new tree in the store. *)
Definition h_new (h : heap) (a : bt_args) : heap * Z :=
  let p := malloc h in (<[p := HTree a (abt_create a)]> h, p).

(** *** Single-column indexes *)

(** [false] is the violated constraint. *)
Definition iAdd (h : heap) (ri : r_ind_t) (acol apk : aobj) (ocol : option aobj) : option (heap * bool) :=
  let ibtr := ri_btr ri in
  found ← h_find h ibtr acol;
  if UNIQ (ri_cnstr ri) then
    if negb (is_null found) then Some (h, false)
    else h ← h_add_uniq h ibtr pktyp apk acol; Some (h, true)
  else
    '(h, nbtr) ← (if is_null found then
        a ← createIndexNode pktyp (otype_of ocol);
        let '(h, nbtr) := h_new h a in
        h ← h_ind_add h ibtr acol nbtr; Some (h, nbtr)
      else Some (h, num found));
    h_node_add h nbtr apk ocol.

Definition iRem (h : heap) (ri : r_ind_t) (acol apk : aobj) (ocol : option aobj) (gost : bool) : option heap :=
  let ibtr := ri_btr ri in
  if UNIQ (ri_cnstr ri) then h_delete h ibtr acol
  else
    nbtr ← h_find h ibtr acol;
    let nbtr := num nbtr in
    '(h, nkeys) ← h_node_delete h nbtr apk ocol;
    if nkeys =? 0 then
      '(h, _) ← (if gost then h_ind_null h ibtr acol else h_ind_delete h ibtr acol);
      Some (bt_destroy h nbtr)
    else Some h.

Definition iEvict (h : heap) (ri : r_ind_t) (acol apk : aobj) (ocol : option aobj) : option heap :=
  let ibtr := ri_btr ri in
  nbtr ← h_find h ibtr acol;
  let nbtr := num nbtr in
  '(h, nkeys) ← h_node_evict h nbtr apk ocol;
  if nkeys =? 0 then '(h, _) ← h_ind_null h ibtr acol; Some (bt_destroy h nbtr) else Some h.

(** *** Multi-column indexes *)

Definition mci_trgr (ri : r_ind_t) : Z := if UNIQ (ri_cnstr ri) then Z.of_nat (nclist ri) - 2 else -1.
Definition mci_final (ri : r_ind_t) : Z := Z.of_nat (nclist ri) - 1.
Definition mci_depth (ri : r_ind_t) : nat := if UNIQ (ri_cnstr ri) then nclist ri - 1 else nclist ri.
(** The columns with a level of their own, and the last column. *)
Definition mci_cols (ri : r_ind_t) : list Z := take (mci_depth ri) (ri_bclist ri).
Definition mci_last (ri : r_ind_t) : option Z := last (ri_bclist ri).

(** The kind of tree the value of column [i] leads to. *)
Definition mci_tree (ri : r_ind_t) (i : Z) (ocol : option aobj) : option bt_args :=
  if i =? mci_final ri then createIndexNode pktyp (otype_of ocol)
  else
    next ← ri_bclist ri !! Z.to_nat (i + 1);
    let ntype := if C_IS_O (coltype next) then ri_dtype ri else coltype next in
    if i =? mci_trgr ri then createU_MCI_IBT ntype (ri_num ri) pktyp
    else Some (createMCI_MIDBT ntype (ri_num ri)).

(** The loop over the columns [i ..]: the store, whether an empty column stopped
    it, the tree reached and the trail, the deepest level first. *)
Fixpoint mci_walk (h : heap) (ri : r_ind_t) (apk : aobj) (rrow : cptr) (ocol : option aobj)
    (i : Z) (cs : list Z) (ibtr : Z) (dpl : list dp_t) : option (heap * bool * Z * list dp_t) :=
  match cs with
  | [] => Some (h, false, ibtr, dpl)
  | c :: cs' =>
      acol ← getcol c apk rrow;
      if ao_empty acol then Some (h, true, ibtr, dpl)
      else
        found ← h_find h ibtr acol;
        '(h, nbtr) ← (if is_null found then
            a ← mci_tree ri i ocol;
            let '(h, nbtr) := h_new h a in
            h ← h_ind_add h ibtr acol nbtr; Some (h, nbtr)
          else Some (h, num found));
        mci_walk h ri apk rrow ocol (i + 1) cs' nbtr (init_dp ibtr acol nbtr :: dpl)
  end.

(** The undo: every level whose tree has one key loses that key. *)
Fixpoint mci_undo (h : heap) (dpl : list dp_t) : option heap :=
  match dpl with
  | [] => Some h
  | d :: dpl' =>
      n ← h_numkeys h (dp_ibtr d);
      h ← (if n =? 1 then
             '(h, _) ← h_ind_delete h (dp_ibtr d) (dp_acol d); Some (bt_destroy h (dp_nbtr d))
           else Some h);
      mci_undo h dpl'
  end.

(** The label [iaddmci_err] of the first pass: [ndstr] levels were reached; a
    second pass collects the trail and undoes. *)
Definition mci_err (h : heap) (ri : r_ind_t) (apk : aobj) (rrow : cptr) (ocol : option aobj)
    (ret : bool) (ndstr : nat) : option (heap * bool) :=
  if (ndstr =? 0)%nat then Some (h, true)
  else
    '(h, _, _, dpl) ← mci_walk h ri apk rrow ocol 0 (mci_cols ri) (ri_btr ri) [];
    if (length dpl =? 0)%nat then Some (h, true)
    else h ← mci_undo h dpl; Some (h, ret).

Definition iAddMCI (h : heap) (ri : r_ind_t) (apk : aobj) (rrow : cptr) (ocol : option aobj)
    : option (heap * bool) :=
  '(h, stopped, nbtr, dpl) ← mci_walk h ri apk rrow ocol 0 (mci_cols ri) (ri_btr ri) [];
  let err h ret := mci_err h ri apk rrow ocol ret (length dpl) in
  if (stopped : bool) then err h true
  else if UNIQ (ri_cnstr ri) then
    c ← mci_last ri;
    fcol ← getcol c apk rrow;
    if ao_empty fcol then err h true
    else
      found ← h_find h nbtr fcol;
      if negb (is_null found) then err h false
      else h ← h_add_uniq h nbtr pktyp apk fcol; Some (h, true)
  else
    '(h, ok) ← h_node_add h nbtr apk ocol;
    if (ok : bool) then Some (h, true) else err h false.

(** The loop of the deletion, which finds every level: the tree reached and the
    trail; [None] inside is the return at an empty column. *)
Fixpoint mci_find (h : heap) (apk : aobj) (rrow : cptr) (cs : list Z) (ibtr : Z) (dpl : list dp_t)
    : option (option (Z * list dp_t)) :=
  match cs with
  | [] => Some (Some (ibtr, dpl))
  | c :: cs' =>
      acol ← getcol c apk rrow;
      if ao_empty acol then Some None
      else
        found ← h_find h ibtr acol;
        mci_find h apk rrow cs' (num found) (init_dp ibtr acol (num found) :: dpl)
  end.

(** The loop that goes up while the last deletion emptied its tree. *)
Fixpoint mci_up (null : bool) (h : heap) (nbtr nkeys : Z) (dpl : list dp_t) : option heap :=
  match dpl with
  | [] => Some h
  | d :: dpl' =>
      if nkeys =? 0 then
        '(h, nkeys) ← (if null then h_ind_null h (dp_ibtr d) (dp_acol d)
                       else h_ind_delete h (dp_ibtr d) (dp_acol d));
        mci_up null (bt_destroy h nbtr) (dp_ibtr d) nkeys dpl'
      else Some h
  end.

Definition iRemMCI (h : heap) (ri : r_ind_t) (apk : aobj) (rrow : cptr) (ocol : option aobj) (gost : bool)
    : option heap :=
  r ← mci_find h apk rrow (mci_cols ri) (ri_btr ri) [];
  match r with
  | None => Some h
  | Some (nbtr, dpl) =>
      '(h, nkeys) ← (if UNIQ (ri_cnstr ri) then
          c ← mci_last ri; dcol ← getcol c apk rrow; h_node_delete h nbtr dcol None
        else h_node_delete h nbtr apk ocol);
      mci_up gost h nbtr nkeys dpl
  end.

Definition iEvictMCI (h : heap) (ri : r_ind_t) (apk : aobj) (rrow : cptr) (ocol : option aobj)
    : option heap :=
  r ← mci_find h apk rrow (mci_cols ri) (ri_btr ri) [];
  match r with
  | None => Some h
  | Some (nbtr, dpl) =>
      '(h, nkeys) ← (if UNIQ (ri_cnstr ri) then
          c ← mci_last ri; dcol ← getcol c apk rrow; h_node_evict h nbtr dcol None
        else h_node_evict h nbtr apk ocol);
      mci_up true h nbtr nkeys dpl
  end.

(** *** Any index *)

(** The order-by column, if the index has one. *)
Definition obcol (ri : r_ind_t) (apk : aobj) (rrow : cptr) : option (option aobj) :=
  if ri_obc ri =? -1 then Some None else o ← getcol (ri_obc ri) apk rrow; Some (Some o).

(** The bucket of a LFU index. *)
Definition lfu_bucket (l : Z) : Z := u64 (floor_log2 l + 1).
Definition lfu_col (ri : r_ind_t) (acol : aobj) : aobj :=
  if ri_lfu ri then set_l acol (lfu_bucket (ao_l acol)) else acol.
(** The value indexed: an index with an order-by column does not use buckets. *)
Definition icol_of (ri : r_ind_t) (acol : aobj) : aobj :=
  if ri_obc ri =? -1 then lfu_col ri acol else acol.

Definition addToIndex (h : heap) (ri : r_ind_t) (apk : aobj) (rrow : cptr) : option (heap * bool) :=
  if ri_virt ri || ri_fname ri then Some (h, true)
  else if ri_hlt ri then Some (luatAdd ri apk rrow h, true)
  else if ri_clist ri then ocol ← obcol ri apk rrow; iAddMCI h ri apk rrow ocol
  else
    acol ← getcol (ri_icol ri) apk rrow;
    if ao_empty acol then Some (h, true)
    else ocol ← obcol ri apk rrow; iAdd h ri (icol_of ri acol) apk ocol.

Definition delFromIndex (h : heap) (ri : r_ind_t) (apk : aobj) (rrow : cptr) (gost : bool) : option heap :=
  if ri_virt ri || ri_fname ri then Some h
  else if ri_hlt ri then Some (luatDel ri apk rrow h)
  else if ri_clist ri then ocol ← obcol ri apk rrow; iRemMCI h ri apk rrow ocol gost
  else
    acol ← getcol (ri_icol ri) apk rrow;
    if ao_empty acol then Some h
    else ocol ← obcol ri apk rrow; iRem h ri (icol_of ri acol) apk ocol gost.

Definition evictFromIndex (h : heap) (ri : r_ind_t) (apk : aobj) (rrow : cptr) : option heap :=
  if ri_virt ri || ri_fname ri then Some h
  else if ri_hlt ri then Some h
  else if ri_clist ri then ocol ← obcol ri apk rrow; iEvictMCI h ri apk rrow ocol
  else
    acol ← getcol (ri_icol ri) apk rrow;
    if ao_empty acol then Some h
    else ocol ← obcol ri apk rrow; iEvict h ri (icol_of ri acol) apk ocol.

(** The index of a LRU or LFU column moves a row from its old value to its new
    one: the new entry is added first. *)
Definition upIndex (h : heap) (ri : r_ind_t) (aopk ocol anpk ncol : aobj) (oocol nocol : option aobj)
    : option (heap * bool) :=
  let ocol := lfu_col ri ocol in
  let ncol := lfu_col ri ncol in
  same_pk ← aobjEQ aopk anpk;
  same ← (if same_pk : bool then aobjEQ ncol ocol else Some false);
  if (same : bool) then Some (h, true)
  else
    '(h, ok) ← iAdd h ri ncol anpk nocol;
    if negb ok then Some (h, false)
    else h ← (if ao_empty ocol then Some h else iRem h ri ocol aopk oocol false); Some (h, true).

(** *** All the indexes of a table *)

Inductive flble_t := INDXRUN_NO_LT | INDXRUN_ONLY_LT.
Definition skips (flble : flble_t) (ri : r_ind_t) : bool :=
  match flble with INDXRUN_NO_LT => ri_hlt ri | INDXRUN_ONLY_LT => negb (ri_hlt ri) end.

(** [runDeleteIndexes]; also the undo of an insertion. *)
Fixpoint runDeleteIndexes (h : heap) (inds : list r_ind_t) (opk : aobj) (orow : cptr) (wgost : bool)
    : option heap :=
  match inds with
  | [] => Some h
  | ri :: inds' => h ← delFromIndex h ri opk orow wgost; runDeleteIndexes h inds' opk orow wgost
  end.

(** [prev] are the indexes before the current one, which a failure deletes from:
    all of them, those skipped included. *)
Fixpoint __runInsertIndexes (h : heap) (flble : flble_t) (prev inds : list r_ind_t) (npk : aobj) (nrow : cptr)
    : option (heap * bool) :=
  match inds with
  | [] => Some (h, true)
  | ri :: inds' =>
      if skips flble ri then __runInsertIndexes h flble (prev ++ [ri]) inds' npk nrow
      else
        '(h, ok) ← addToIndex h ri npk nrow;
        if (ok : bool) then __runInsertIndexes h flble (prev ++ [ri]) inds' npk nrow
        else h ← runDeleteIndexes h prev npk nrow false; Some (h, false)
  end.
Definition runFailableInsertIndexes (h : heap) (inds : list r_ind_t) (npk : aobj) (nrow : cptr) :=
  __runInsertIndexes h INDXRUN_NO_LT [] inds npk nrow.
Definition runLuaTriggerInsertIndexes (h : heap) (inds : list r_ind_t) (npk : aobj) (nrow : cptr) :=
  __runInsertIndexes h INDXRUN_ONLY_LT [] inds npk nrow.
End Index.
