(* ===== verification/IndexLaws.v ===== *)
(** * What the indexes hold

    The contents of an index are a set of pairs, the indexed value and the primary
    key.  A representation predicate says that the trees of the store hold these
    pairs; the interface [IndexLaws] says that [addToIndex] and [delFromIndex]
    add and remove pairs, refuse what violates a constraint, and leave alone the
    trees of others.  Single-column indexes, with and without UNIQUE, satisfy
    it. *)

From stdpp Require Import gmap.
From S2P Require Import Prelude Stream CStr Row Aobj BtSearch DirtyStream Btree BtOps BtIter BtScan BtKey BtKeyLaws BtStream Abt GetCol Index.

(** ** Trees of the store *)

(** The tree at an address holds a map; [h'] is [h] with another map there. *)
Definition h_holds (h : heap) (p : Z) (a : bt_args) (m : gmap Z cptr) : Prop :=
  exists x, h !! p = Some (HTree a x) /\ holds a x m.
Definition h_set (h : heap) (p : Z) (a : bt_args) (m : gmap Z cptr) (h' : heap) : Prop :=
  exists x, h' = <[p := HTree a x]> h /\ holds a x m.

Lemma h_set_holds h p a m h' : h_set h p a m h' -> h_holds h' p a m.
Proof. intros (x & -> & Hx). exists x. by rewrite lookup_insert_eq. Qed.
Lemma h_set_other h p a m h' q : h_set h p a m h' -> q <> p -> h' !! q = h !! q.
Proof. intros (x & -> & _) Hq. by rewrite lookup_insert_ne. Qed.
Lemma h_set_size h p a m m0 h' : h_holds h p a m0 -> h_set h p a m h' -> size h' = size h.
Proof. intros (x0 & E & _) (x & -> & _). by rewrite map_size_insert, E. Qed.
Lemma h_holds_other h h' p a m : h_holds h p a m -> h' !! p = h !! p -> h_holds h' p a m.
Proof. intros (x & E & Hx) Eq. exists x. by rewrite Eq. Qed.

Section Trees.
Context (a : bt_args) (Ha : lawful a).
#[local] Abbreviation s := (a_spec a).

Lemma holds_numkeys x m : holds a x m -> numkeys (tree a x) = u32 (Z.of_nat (size m)).
Proof.
  intros H. rewrite <- (holds_size a Ha (fun _ => 0) x m H). apply (h_wf a x m H).
Qed.

Lemma h_upd_ok {R} (P : R -> Prop) h p m m' (f : forall a, abt a -> option (abt a * R)) :
  h_holds h p a m ->
  (forall x, holds a x m -> exists x' r, f a x = Some (x', r) /\ holds a x' m' /\ P r) ->
  exists h' r, h_upd h p f = Some (h', r) /\ h_set h p a m' h' /\ P r.
Proof.
  intros (x & E & Hx) Hf. destruct (Hf x Hx) as (x' & r & Ef & Hx' & Hr). unfold h_upd. rewrite E.
  cbn [mbind option_bind h_args h_tree]. rewrite Ef. cbn [mbind option_bind].
  eexists _, r. split; [done|]. split; [by exists x'|done].
Qed.

Lemma h_find_ok h p m v : h_holds h p a m -> searchable a v ->
  h_find h p v = Some (default NULL (m !! obj_value s v)).
Proof.
  intros (x & E & Hx) Hv. unfold h_find, h_get. rewrite E. cbn [mbind option_bind h_args h_tree].
  apply (find_holds a Ha x m v Hx Hv).
Qed.

Lemma h_numkeys_ok h p m : h_holds h p a m -> h_numkeys h p = Some (u32 (Z.of_nat (size m))).
Proof.
  intros (x & E & Hx). unfold h_numkeys, h_get. rewrite E. cbn [mbind option_bind h_args h_tree].
  by rewrite (holds_numkeys x m).
Qed.

Lemma h_ind_add_ok h p m v q r : h_holds h p a m -> stores a v (PNum q) r -> m !! obj_value s v = None ->
  exists h', h_ind_add h p v q = Some h' /\ h_set h p a (<[obj_value s v := r]> m) h'.
Proof.
  intros Hh Hs Hm. unfold h_ind_add.
  destruct (h_upd_ok (fun _ : unit => True) h p m (<[obj_value s v := r]> m)
    (fun a x => x' ← btIndAdd a x v q; Some (x', ())) Hh) as (h' & [] & -> & Hset & _); [|by exists h'].
  intros x Hx. destruct (insert_holds a Ha x m v _ r Hx Hs Hm) as (x' & sz & E & Hx'). unfold btIndAdd.
  rewrite E. cbn. eexists _, (). split; [done|]. by split.
Qed.

Lemma h_ind_delete_ok h p m v : kept a = true -> h_holds h p a m -> searchable a v -> is_Some (m !! obj_value s v) ->
  exists h' n, h_ind_delete h p v = Some (h', n) /\ h_set h p a (delete (obj_value s v) m) h' /\
    n = u32 (Z.of_nat (size (delete (obj_value s v) m))).
Proof.
  intros Hk Hh Hs Hm. apply (h_upd_ok _ h p m _ (fun a x => btIndDelete a x v) Hh). intros x Hx.
  destruct (delete_holds a Ha x m v Hk Hx Hs Hm) as (x' & fr & E & Hx'). unfold btIndDelete. rewrite E. cbn.
  eexists _, _. split; [done|]. split; [done|]. by apply holds_numkeys.
Qed.

Lemma h_delete_ok h p m v : kept a = true -> h_holds h p a m -> searchable a v -> is_Some (m !! obj_value s v) ->
  exists h', h_delete h p v = Some h' /\ h_set h p a (delete (obj_value s v) m) h'.
Proof.
  intros Hk Hh Hs Hm. unfold h_delete.
  destruct (h_upd_ok (fun _ : bool => True) h p m (delete (obj_value s v) m)
    (fun a x => btDelete a x v) Hh) as (h' & b & -> & Hset & _); [|by exists h'].
  intros x Hx. destruct (delete_holds a Ha x m v Hk Hx Hs Hm) as (x' & fr & E & Hx'). by exists x', fr.
Qed.

Lemma h_node_add_ok h p m k r : h_holds h p a m -> stores a k NULL r -> m !! obj_value s k = None ->
  exists h', h_node_add h p k None = Some (h', true) /\ h_set h p a (<[obj_value s k := r]> m) h'.
Proof.
  intros Hh Hs Hm. unfold h_node_add.
  destruct (h_upd_ok (fun b => b = true) h p m (<[obj_value s k := r]> m)
    (fun a x => btIndNodeAdd a x k None) Hh) as (h' & b & -> & Hset & ->); [|by exists h'].
  intros x Hx. destruct (insert_holds a Ha x m k _ r Hx Hs Hm) as (x' & sz & E & Hx'). unfold btIndNodeAdd.
  rewrite E. cbn. eexists _, _. split; [done|]. by split.
Qed.

Lemma h_node_delete_ok h p m k : kept a = true -> h_holds h p a m -> searchable a k -> is_Some (m !! obj_value s k) ->
  exists h' n, h_node_delete h p k None = Some (h', n) /\ h_set h p a (delete (obj_value s k) m) h' /\
    n = u32 (Z.of_nat (size (delete (obj_value s k) m))).
Proof.
  intros Hk Hh Hs Hm. apply (h_upd_ok _ h p m _ (fun a x => btIndNodeDelete a x k None) Hh). intros x Hx.
  destruct (delete_holds a Ha x m k Hk Hx Hs Hm) as (x' & fr & E & Hx'). unfold btIndNodeDelete. cbn [default].
  rewrite E. cbn. eexists _, _. split; [done|]. split; [done|]. by apply holds_numkeys.
Qed.

Lemma h_add_uniq_ok h p m pktyp apk acol val r : h_holds h p a m -> uniq_val a pktyp apk = Some val ->
  stores a acol val r -> m !! obj_value s acol = None ->
  exists h', h_add_uniq h p pktyp apk acol = Some h' /\ h_set h p a (<[obj_value s acol := r]> m) h'.
Proof.
  intros Hh Hv Hs Hm. unfold h_add_uniq.
  destruct (h_upd_ok (fun _ : unit => True) h p m (<[obj_value s acol := r]> m)
    (fun a x => x' ← iAddUniq a x pktyp apk acol; Some (x', ())) Hh) as (h' & [] & -> & Hset & _); [|by exists h'].
  intros x Hx. destruct (insert_holds a Ha x m acol val r Hx Hs Hm) as (x' & sz & E & Hx'). unfold iAddUniq.
  rewrite Hv. cbn [mbind option_bind]. unfold btAdd. rewrite E. cbn. eexists _, (). split; [done|]. by split.
Qed.
End Trees.

Lemma h_new_ok `{MallocLaws} h a : Z.of_nat (size h) < 2 ^ 32 ->
  exists h' p, h_new h a = (h', p) /\ h !! p = None /\ 0 < p < 2 ^ 64 /\ h_set h p a ∅ h' /\
    size h' = S (size h).
Proof.
  intros Hs. destruct (malloc_fresh h Hs) as [Hn Hb]. unfold h_new. eexists _, _. split; [done|].
  split_and!; [done|lia|lia| |by rewrite map_size_insert, Hn].
  exists (abt_create a). split; [done|]. apply create_holds.
Qed.

(** ** Keys *)

(** The primary key [k] as a value, and those an index node can hold: the key 0
    of an INT or LONG node is NULL. *)
Definition pk_obj (pktyp k : Z) : aobj :=
  if C_IS_I pktyp then initAobjInt k else if C_IS_L pktyp then initAobjLong k else initU128AobjFromVal k.
Definition pk_ok (pktyp k : Z) : Prop :=
  if C_IS_I pktyp then 0 < k < 2 ^ 31 else if C_IS_L pktyp then 0 < k < 2 ^ 64 else 0 <= k < 2 ^ 128.

(** The number of a value of type [t]. *)
Definition val_of (t : Z) (a : aobj) : Z := if C_IS_I t then ao_i a else if C_IS_L t then ao_l a else ao_x a.

Lemma pk_obj_ok pktyp k : C_IS_NUM pktyp = true -> pk_ok pktyp k ->
  ao_ok (pk_obj pktyp k) /\ val_of pktyp (pk_obj pktyp k) = k.
Proof.
  intros [->|[->| ->]]%num_cases; unfold pk_ok, pk_obj, val_of, ao_ok; cbn; intros Hk;
    rewrite ?uwrap_small by lia; lia.
Qed.

Lemma node_stores pktyp a k : C_IS_NUM pktyp = true -> createIndexNode pktyp COL_TYPE_NONE = Some a ->
  pk_ok pktyp k -> stores a (pk_obj pktyp k) NULL NULL /\ obj_value (a_spec a) (pk_obj pktyp k) = k.
Proof.
  intros Hn Ha Hk. destruct (pk_obj_ok pktyp k Hn Hk) as [Hok Hval].
  assert (Hl : lawful a) by (apply created_lawful; exact (created_node pktyp COL_TYPE_NONE a Hn Ha)).
  assert (H : exists p, createBTKey (a_spec a) (pk_obj pktyp k) = Some (p, VOIDSIZE) /\
    is_null p = false /\ key_ok (a_spec a) p = true /\ INODE (a_spec a) = true /\
    obj_value (a_spec a) (pk_obj pktyp k) = k).
  { destruct (num_cases pktyp Hn) as [->|[->| ->]]; injection Ha as <-; unfold pk_ok in Hk;
      cbn [C_IS_I C_IS_L Z.eqb Pos.eqb COL_TYPE_INT COL_TYPE_LONG] in Hk.
    - change (ao_i (pk_obj 1 k) = k) in Hval. exists (PNum (ao_i (pk_obj 1 k))). rewrite Hval.
      unfold key_ok, is_null. cbn [num ksize a_spec]. rewrite !uwrap_small by lia.
      split_and!; [by rewrite <- Hval at 2|lia|apply (proj2 (Z.ltb_lt k (2 ^ 31))); lia|done|exact Hval].
    - change (ao_l (pk_obj 2 k) = k) in Hval. exists (PNum (ao_l (pk_obj 2 k))). rewrite Hval.
      unfold is_null. rewrite !uwrap_small by lia.
      split_and!; [by rewrite <- Hval at 2|lia|done|done|exact Hval].
    - eexists. split; [reflexivity|]. by split_and!. }
  destruct H as (p & Ek & Hnull & Hkok & Hi & Hov). split; [|done].
  destruct (key_of_ok (a_spec a) p Hkok) as (key & _ & Hp). split.
  - split; [done|]. exists key, VOIDSIZE. by rewrite Hp.
  - intros k0 ks E. rewrite Ek in E. injection E as <- <-. exists key, 0.
    unfold createStream, parseStream, getStreamMallocSize. rewrite Hi, Hp, orb_true_r. split_and!; [done|done| |done].
    unfold kn. rewrite Hp. by apply (lw_mk a Hl _ _ VOIDSIZE).
Qed.

Lemma index_value dt im a : C_IS_NUM dt = true -> obj_value (a_spec (createIndexBT dt im)) a = val_of dt a.
Proof. by intros [->|[->| ->]]%num_cases. Qed.

(** ** The footprint of an operation

    An operation on the trees [fp] of a structure leaves it with the trees [fp'],
    at most [c] of them new, and other trees alone. *)
Record frame (c : nat) (h : heap) (fp : gset Z) (h' : heap) (fp' : gset Z) : Prop := {
  fr_other : forall p, p ∉ fp -> is_Some (h !! p) -> h' !! p = h !! p;
  fr_fresh : forall p, p ∈ fp' -> p ∈ fp \/ h !! p = None;
  fr_size : (size h' <= c + size h)%nat;
}.

Lemma frame_refl h fp : frame 0 h fp h fp.
Proof. split; auto. Qed.
Lemma frame_weak c c' h fp h' fp' : frame c h fp h' fp' -> (c <= c')%nat -> frame c' h fp h' fp'.
Proof. intros [H1 H2 H3] Hc. split; [done|done|lia]. Qed.

(** An operation on a part of the trees. *)
Lemma frame_part c h f h' f' fp : frame c h f h' f' -> (forall p, p ∈ f -> p ∈ fp) -> frame c h fp h' ((fp ∖ f) ∪ f').
Proof.
  intros F Hs. split; [|intros p [[Hp _]%elem_of_difference|Hp]%elem_of_union; [by left|]|apply F].
  - intros p Hp. apply (fr_other _ _ _ _ _ F). intros Hin. by apply Hp, Hs.
  - destruct (fr_fresh _ _ _ _ _ F p Hp) as [Hin|?]; [left; by apply Hs|by right].
Qed.

(** The trees of another structure are not those the operation made. *)
Lemma frame_disjoint c h fp h' fp' fp2 : frame c h fp h' fp' -> fp ## fp2 -> (forall p, p ∈ fp2 -> is_Some (h !! p)) ->
  fp' ## fp2.
Proof.
  intros F Hd Hs p Hp Hp2. destruct (fr_fresh _ _ _ _ _ F p Hp) as [Hin|Hnone]; [by apply (Hd p)|].
  destruct (Hs p Hp2) as [? E]. congruence.
Qed.
Lemma frame_keeps c h fp h' fp' fp2 p : frame c h fp h' fp' -> fp ## fp2 -> (forall p, p ∈ fp2 -> is_Some (h !! p)) ->
  p ∈ fp2 -> h' !! p = h !! p.
Proof. intros F Hd Hs Hp. apply (fr_other _ _ _ _ _ F); [|by apply Hs]. intros Hf. by apply (Hd p). Qed.

(** ** Pairs of a value and a key *)

Abbreviation pairs := (@gset (list Z * Z) _ (@prod_countable (list Z) _ list_countable Z _ Z_countable)).

(** The keys of one value are not more than the pairs. *)
Lemma keys_size (E : pairs) (m : gmap Z cptr) w : (forall k, is_Some (m !! k) -> (w, k) ∈ E) ->
  (size m <= size E)%nat.
Proof.
  intros H. transitivity (length ((fun k => (w, k)) <$> elements (dom m))).
  { rewrite length_fmap, <- size_dom. unfold size, set_size. cbn. lia. }
  transitivity (length (elements E)); [|unfold size, set_size; cbn; lia].
  apply submseteq_length, NoDup_submseteq.
  - apply NoDup_fmap_2; [|apply NoDup_elements]. by intros x y [= ->].
  - intros x (k & -> & Hk)%list_elem_of_fmap. apply elem_of_elements. apply H.
    by apply elem_of_dom, elem_of_elements.
Qed.

Lemma pairs_add (E : pairs) x y : y ∈ {[x]} ∪ E <-> y = x \/ y ∈ E.
Proof. by rewrite elem_of_union, elem_of_singleton. Qed.
Lemma pairs_del (E : pairs) x y : y ∈ E ∖ {[x]} <-> y ∈ E /\ y <> x.
Proof. by rewrite elem_of_difference, elem_of_singleton. Qed.

(** An address is a pointer that is not NULL. *)
Lemma addr_ptr p : 0 < p < 2 ^ 64 -> is_null (PNum p) = false /\ num (PNum p) = p.
Proof. intros Hp. unfold is_null, num. rewrite uwrap_small by lia. split; [lia|done]. Qed.

(** ** What a UNIQUE index stores *)

Section Uniq.
Context (pktyp : Z) (Hpk : C_IS_NUM pktyp = true).

(** The key an entry leads to. *)
Definition uniq_pk (s : bts_t) (x : cptr) : Z :=
  if UU s then num x else match struct_of s with Some (kw, vw) => st_val kw vw x | None => 0 end.

(** An INT/INT index holds values below [2^31], other than 0. *)
Definition uniq_ok (dt v : Z) : Prop := C_IS_I dt && C_IS_I pktyp = true -> 0 < v < 2 ^ 31.

Lemma uibt_obt dt im bt : C_IS_NUM dt = true -> _createUIBT dt im pktyp bt = createOBT dt pktyp im bt.
Proof. intros [->|[->| ->]]%num_cases; by destruct (num_cases pktyp Hpk) as [->|[->| ->]]. Qed.

Lemma uu_stores im bt v k : bt <> BTREE_INODE -> ao_ok v -> 0 < ao_i v < 2 ^ 31 -> 0 < k < 2 ^ 31 ->
  stores (createUUBT im bt) v (PNum k) (PNum k).
Proof.
  intros Hbt Hok Hv Hk. set (a := createUUBT im bt).
  destruct (uu_packed im bt k v) as (key & st & E1 & E2 & E3 & E4 & E5);
    [done|done|lia|unfold UINT_MAX; lia|].
  change (createBTKey (a_spec a) v = Some (key, VOIDSIZE)) in E1.
  assert (Ekey : createBTKey (a_spec a) v = Some (PNum (u64 (ao_i v * UINT_MAX)), VOIDSIZE)).
  { assert (Hbf : (bt =? BTREE_INODE) = false) by (by apply Z.eqb_neq).
    unfold createBTKey, INODE_I, INODE_L, INODE_X. cbn. by rewrite Hbf. }
  assert (Hw : u64 (ao_i v * UINT_MAX) = ao_i v * UINT_MAX) by (apply uwrap_small; unfold UINT_MAX; lia).
  destruct (key_of_ok (a_spec a) (PNum (u64 (ao_i v * UINT_MAX)))) as (kk & _ & Hkk).
  { change ((num (PNum (u64 (ao_i v * UINT_MAX))) <? 2 ^ 31 * UINT_MAX) = true). unfold num.
    rewrite uwrap_idem, Hw. apply Z.ltb_lt. unfold UINT_MAX. lia. }
  destruct (key_of_ok (a_spec a) st E5) as (st' & _ & Hst').
  split; [split; [done|]|].
  - exists kk, VOIDSIZE. rewrite Hkk. split; [done|]. unfold is_null. rewrite uwrap_idem, Hw.
    unfold UINT_MAX. lia.
  - intros k0 ks E. rewrite E in E1. injection E1 as -> ->. exists st', 0. rewrite Hst'.
    split_and!; [done|done|unfold kn; by rewrite Hst'|]. unfold getStreamMallocSize.
    change (OTHER_BT (a_spec a)) with true. by rewrite orb_true_r.
Qed.

Lemma obt_stores dt im bt a v k : createOBT dt pktyp im bt = Some a -> bt <> BTREE_INODE -> C_IS_NUM dt = true ->
  C_IS_I dt && C_IS_I pktyp = false -> ao_ok v -> pk_ok pktyp k ->
  exists val x, uniq_val a pktyp (pk_obj pktyp k) = Some val /\ stores a v val x /\ is_null x = false /\
    uniq_pk (a_spec a) x = k.
Proof.
  intros E Hbt Hd Hii Hok Hk. destruct (pk_obj_ok pktyp k Hpk Hk) as [Hpo Hpv].
  assert (H : exists kw vw, struct_of (a_spec a) = Some (kw, vw) /\ UU (a_spec a) = false /\ vw = width_of pktyp /\
    uniq_val a pktyp (pk_obj pktyp k) = Some (st_make kw vw 0 (obt_part vw (pk_obj pktyp k))) /\
    (forall p, key_ok (a_spec a) p = true)).
  { destruct (num_cases dt Hd) as [->|[->| ->]]; destruct (num_cases pktyp Hpk) as [->|[->| ->]];
      try done; injection E as <-; eexists _, _; by split_and!. }
  destruct H as (kw & vw & Hst & Hu & Hvw & Huv & Hko).
  assert (Hpart : obt_part vw (pk_obj pktyp k) = k).
  { rewrite Hvw, obt_part_num by done. exact Hpv. }
  rewrite Hpart in Huv.
  assert (Hkb : 0 <= k < 2 ^ (8 * Z.of_nat vw)).
  { rewrite Hvw. revert Hk. unfold pk_ok, width_of. destruct (C_IS_I pktyp); [cbn; lia|].
    destruct (C_IS_L pktyp); cbn; lia. }
  destruct (obt_packed dt pktyp im bt a (le_bytes kw 0 ++ le_bytes vw k) v E ltac:(done) Hii Hok)
    as (key & x & kw' & vw' & Hst' & Ek & Ec & Ep & Ekv & Ev & Hnull).
  rewrite Hst in Hst'. injection Hst' as <- <-. change (PMem (le_bytes kw 0 ++ le_bytes vw k)) with (st_make kw vw 0 k) in *.
  rewrite st_val_make in Ev by done.
  exists (st_make kw vw 0 k), x. split; [done|]. split_and!; [|done|by unfold uniq_pk; rewrite Hu, Hst].
  destruct (key_of_ok (a_spec a) key (Hko _)) as (kk & _ & Hkk).
  destruct (key_of_ok (a_spec a) x (Hko _)) as (st' & _ & Hst').
  split; [split; [done|]|].
  - exists kk, VOIDSIZE. rewrite Hkk. split; [done|]. revert Ek. unfold createBTKey. rewrite Hst, Hu.
    assert (Hi : INODE_I (a_spec a) = false /\ INODE_L (a_spec a) = false /\ INODE_X (a_spec a) = false).
    { clear - E Hd Hbt. unfold createOBT in E. unfold INODE_I, INODE_L, INODE_X, INODE. cbn in Hbt.
      assert (Hbf : (bt =? BTREE_INODE) = false) by (by apply Z.eqb_neq).
      repeat case_match; try done; injection E as <-; cbn; by rewrite Hbf. }
    destruct Hi as (-> & -> & ->). by intros [= <-].
  - intros k0 ks E0. rewrite Ek in E0. injection E0 as <- <-. exists st', 0. rewrite Hst'.
    split_and!; [done|done|unfold kn; by rewrite Hst'|]. unfold getStreamMallocSize.
    assert (Ho : OTHER_BT (a_spec a) = true).
    { clear - E Hd. unfold createOBT in E. repeat case_match; try done; injection E as <-; done. }
    by rewrite Ho, orb_true_r.
Qed.

Lemma uniq_stores dt im bt a v k : _createUIBT dt im pktyp bt = Some a -> bt <> BTREE_INODE -> C_IS_NUM dt = true -> ao_ok v ->
  pk_ok pktyp k -> uniq_ok dt (val_of dt v) ->
  exists val x, uniq_val a pktyp (pk_obj pktyp k) = Some val /\ stores a v val x /\ is_null x = false /\
    uniq_pk (a_spec a) x = k.
Proof.
  intros E Hbt Hd Hok Hk Hu. rewrite uibt_obt in E by done.
  destruct (C_IS_I dt && C_IS_I pktyp) eqn:Hii; [|by apply (obt_stores dt im bt)].
  apply andb_true_iff in Hii as [Hi1 Hi2]. unfold uniq_ok, val_of, pk_ok in *. rewrite Hi1, Hi2 in *.
  specialize (Hu eq_refl). unfold createOBT in E. rewrite Hi1, Hi2 in E. injection E as <-.
  destruct (addr_ptr k ltac:(lia)) as [Hn1 Hn2].
  exists (PNum k), (PNum k). split_and!; [|by apply uu_stores|done|done].
  unfold uniq_val, pk_obj. rewrite Hi2. cbn. by rewrite uwrap_small by lia.
Qed.
End Uniq.

Section Laws.
Context `{MallocLaws} (floor_log2 : Z -> Z) (luatAdd luatDel : r_ind_t -> aobj -> cptr -> heap -> heap).
Context (getcol : Z -> aobj -> cptr -> option aobj) (pktyp : Z) (coltype : Z -> Z).
Context (Hpk : C_IS_NUM pktyp = true).
#[local] Abbreviation add h ri k r := (addToIndex floor_log2 luatAdd getcol pktyp coltype h ri (pk_obj pktyp k) r).
#[local] Abbreviation del h ri k r := (delFromIndex floor_log2 luatDel getcol h ri (pk_obj pktyp k) r false).

(** ** The interface

    [keyed k r v]: the index reads the value [v] in the row [r] of the key [k],
    [None] when it leaves the row out.  [rep h fp E]: the trees at [fp] hold the
    pairs [E]; an insertion makes at most [cost] trees. *)
Record IndexLaws (ri : r_ind_t) (uniq : bool) (cost : nat) (keyed : Z -> cptr -> option (list Z) -> Prop)
    (rep : heap -> gset Z -> pairs -> Prop) : Prop := {
  il_plain : ri_virt ri || ri_hlt ri = false;
  il_fun : forall k r v1 v2, keyed k r v1 -> keyed k r v2 -> v1 = v2;
  il_keep : forall h h' fp E, rep h fp E -> (forall p, p ∈ fp -> h' !! p = h !! p) -> rep h' fp E;
  il_dom : forall h fp E p, rep h fp E -> p ∈ fp -> is_Some (h !! p);
  il_out : forall h k r, keyed k r None -> add h ri k r = Some (h, true) /\ del h ri k r = Some h;
  il_add : forall h fp E k r v, rep h fp E -> keyed k r (Some v) -> pk_ok pktyp k ->
    Z.of_nat (cost + size h) < 2 ^ 32 -> (v, k) ∉ E -> (uniq = true -> forall k', (v, k') ∉ E) ->
    exists h' fp', add h ri k r = Some (h', true) /\ rep h' fp' ({[(v, k)]} ∪ E) /\ frame cost h fp h' fp';
  il_refuse : forall h fp E k k' r v, uniq = true -> rep h fp E -> keyed k r (Some v) -> (v, k') ∈ E ->
    add h ri k r = Some (h, false);
}.

(** Removal, which the nodes of an index do not survive when they hold keys that
    are not kept on deletion. *)
Definition DeleteLaw (ri : r_ind_t) (keyed : Z -> cptr -> option (list Z) -> Prop)
    (rep : heap -> gset Z -> pairs -> Prop) : Prop :=
  forall h fp E k r v, rep h fp E -> keyed k r (Some v) -> pk_ok pktyp k ->
    Z.of_nat (size E) < 2 ^ 32 -> (v, k) ∈ E ->
    exists h' fp', del h ri k r = Some h' /\ rep h' fp' (E ∖ {[(v, k)]}) /\ frame 0 h fp h' fp'.

(** ** Single-column indexes *)

(** An index on one column, without an order-by column. *)
Record single (ri : r_ind_t) : Prop := {
  sg_plain : ri_virt ri || ri_fname ri = false;
  sg_hlt : ri_hlt ri = false;
  sg_col : ri_clist ri = false;
  sg_obc : ri_obc ri = -1;
  sg_num : C_IS_NUM (ri_dtype ri) = true;
}.

(** The value read: a number within its width; nothing when the column is
    empty. *)
Definition keyed1 (ri : r_ind_t) (k : Z) (r : cptr) (v : option (list Z)) : Prop :=
  exists acol, getcol (ri_icol ri) (pk_obj pktyp k) r = Some acol /\
    if ao_empty acol then v = None
    else ao_ok (lfu_col floor_log2 ri acol) /\
      v = Some [val_of (ri_dtype ri) (lfu_col floor_log2 ri acol)].

Lemma add_single ri h k r acol : single ri -> getcol (ri_icol ri) (pk_obj pktyp k) r = Some acol ->
  ao_empty acol = false ->
  add h ri k r = iAdd pktyp h ri (lfu_col floor_log2 ri acol) (pk_obj pktyp k) None /\
  del h ri k r = iRem h ri (lfu_col floor_log2 ri acol) (pk_obj pktyp k) None false.
Proof.
  intros [H1 H2 H3 H4 _] Hg He. unfold addToIndex, delFromIndex, icol_of, obcol.
  rewrite H1, H2, H3, H4, Hg. cbn [mbind option_bind]. rewrite He. done.
Qed.

Lemma plain_single ri : single ri -> ri_virt ri || ri_hlt ri = false.
Proof. intros Hs. rewrite (sg_hlt ri Hs). pose proof (sg_plain ri Hs). by destruct (ri_virt ri). Qed.
Lemma keyed1_fun ri k r v1 v2 : keyed1 ri k r v1 -> keyed1 ri k r v2 -> v1 = v2.
Proof.
  intros (a1 & E1 & H1) (a2 & E2 & H2). rewrite E1 in E2. injection E2 as <-.
  destruct (ao_empty a1); [congruence|]. destruct H1 as [_ ->], H2 as [_ ->]. done.
Qed.

Lemma out_single ri h k r : single ri -> keyed1 ri k r None ->
  add h ri k r = Some (h, true) /\ del h ri k r = Some h.
Proof.
  intros [H1 H2 H3 H4 _] (acol & Hg & He). unfold addToIndex, delFromIndex.
  rewrite H1, H2, H3, Hg. cbn [mbind option_bind]. destruct (ao_empty acol); [done|]. by destruct He.
Qed.

(** The trees of an index without constraint: the addresses [A] of the nodes by
    value, each node with the keys of its value, at least one. *)
Record rep1 (ri : r_ind_t) (node : bt_args) (A : gmap Z Z) (h : heap) (fp : gset Z) (E : pairs) : Prop := {
  r1_fp : fp = {[ri_btr ri]} ∪ map_img A;
  r1_root : h_holds h (ri_btr ri) (createIndexBT (ri_dtype ri) (ri_num ri)) (PNum <$> A);
  r1_apart : forall v, A !! v <> Some (ri_btr ri);
  r1_inj : forall v1 v2 p, A !! v1 = Some p -> A !! v2 = Some p -> v1 = v2;
  r1_node : forall v p, A !! v = Some p -> 0 < p < 2 ^ 64 /\ exists m, h_holds h p node m /\ m <> ∅ /\
    forall k x, m !! k = Some x <-> x = NULL /\ ([v], k) ∈ E;
  r1_all : forall w k, (w, k) ∈ E -> exists v, w = [v] /\ is_Some (A !! v);
}.
Definition rep_single (ri : r_ind_t) (h : heap) (fp : gset Z) (E : pairs) : Prop :=
  exists node A, createIndexNode pktyp COL_TYPE_NONE = Some node /\ rep1 ri node A h fp E.

Lemma in_fp ri (A : gmap Z Z) p : p ∈ {[ri_btr ri]} ∪ (map_img A : gset Z) <-> p = ri_btr ri \/ exists v, A !! v = Some p.
Proof. by rewrite elem_of_union, elem_of_singleton, elem_of_map_img. Qed.

Lemma keep_single ri h h' fp E : rep_single ri h fp E -> (forall p, p ∈ fp -> h' !! p = h !! p) ->
  rep_single ri h' fp E.
Proof.
  intros (node & A & Hn & [-> Hr Ha Hi Hnode Hall]) Hk. setoid_rewrite in_fp in Hk.
  exists node, A. split; [done|]. split; [done| |done|done| |done].
  - apply (h_holds_other h); [done|]. apply Hk. by left.
  - intros v p Hp. destruct (Hnode v p Hp) as (Hb & m & Hm & Hne & Hc). split; [done|]. exists m.
    split_and!; [|done|done]. apply (h_holds_other h); [done|]. apply Hk. right. by exists v.
Qed.

Lemma dom_single ri h fp E p : rep_single ri h fp E -> p ∈ fp -> is_Some (h !! p).
Proof.
  intros (node & A & Hn & [-> (x & Hx & _) Ha Hi Hnode Hall]) [->|[v Hv]]%in_fp; [by eexists|].
  destruct (Hnode v p Hv) as (_ & m & (y & Hy & _) & _). by eexists.
Qed.

Section Normal.
Context (ri : r_ind_t) (Hs : single ri) (Hu : UNIQ (ri_cnstr ri) = false).
Context (node : bt_args) (Hn : createIndexNode pktyp COL_TYPE_NONE = Some node).
#[local] Abbreviation root_args := (createIndexBT (ri_dtype ri) (ri_num ri)).

Lemma root_lawful : lawful root_args.
Proof. apply created_lawful. constructor. apply (sg_num ri Hs). Qed.
Lemma node_lawful : lawful node.
Proof. apply created_lawful. exact (created_node pktyp COL_TYPE_NONE node Hpk Hn). Qed.

Lemma root_stores acol p : ao_ok acol -> 0 <= p < 2 ^ 64 -> stores root_args acol (PNum p) (PNum p).
Proof. intros. apply index_stores; [apply (sg_num ri Hs)|by left|done|done]. Qed.

(** The entry of a value. *)
Lemma entry_single A h fp E acol : rep1 ri node A h fp E -> ao_ok acol ->
  h_find h (ri_btr ri) acol =
    Some (match A !! val_of (ri_dtype ri) acol with Some p => PNum p | None => NULL end).
Proof.
  intros R Hok. rewrite (h_find_ok _ root_lawful h _ (PNum <$> A) acol (r1_root _ _ _ _ _ _ R))
    by (apply (root_stores acol 1 Hok); lia).
  rewrite index_value, lookup_fmap by apply (sg_num ri Hs). by destruct (A !! _).
Qed.

Lemma not_root A h fp E v p : rep1 ri node A h fp E -> A !! v = Some p -> p <> ri_btr ri.
Proof. intros R HA Heq. apply (r1_apart _ _ _ _ _ _ R v). by rewrite HA, Heq. Qed.

(** A change of the node of one value. *)
Lemma node_changed A h fp E E' h' v p m : rep1 ri node A h fp E -> A !! v = Some p -> h_set h p node m h' ->
  m <> ∅ -> (forall k x, m !! k = Some x <-> x = NULL /\ ([v], k) ∈ E') ->
  (forall w k, w <> [v] -> (w, k) ∈ E' <-> (w, k) ∈ E) ->
  rep1 ri node A h' fp E' /\ frame 0 h fp h' fp.
Proof.
  intros R HA Hset Hne Hc Hoth. destruct (r1_node _ _ _ _ _ _ R v p HA) as (Hp & m0 & Hm0 & _). split; split.
  - apply (r1_fp _ _ _ _ _ _ R).
  - apply (h_holds_other h); [apply (r1_root _ _ _ _ _ _ R)|]. apply (h_set_other _ _ _ _ _ _ Hset).
    apply not_eq_sym. by apply (not_root A h fp E v).
  - apply (r1_apart _ _ _ _ _ _ R).
  - apply (r1_inj _ _ _ _ _ _ R).
  - intros v' p' HA'. destruct (r1_node _ _ _ _ _ _ R v' p' HA') as (Hp' & m' & Hm' & Hne' & Hc').
    split; [done|]. destruct (decide (v' = v)) as [->|Hvv].
    + rewrite HA in HA'. injection HA' as <-. exists m. split; [by apply (h_set_holds h)|done].
    + exists m'. split_and!; [|done|].
      * apply (h_holds_other h); [done|]. apply (h_set_other _ _ _ _ _ _ Hset). intros ->.
        apply Hvv. by apply (r1_inj _ _ _ _ _ _ R v' v p).
      * intros k x. rewrite Hc', Hoth; [done|]. by intros [= ->].
  - intros w k Hin. destruct (decide (w = [v])) as [->|Hw]; [by exists v|].
    apply (r1_all _ _ _ _ _ _ R w k). by apply Hoth.
  - intros q Hq _. apply (h_set_other _ _ _ _ _ _ Hset). intros ->. apply Hq.
    rewrite (r1_fp _ _ _ _ _ _ R), in_fp. right. by exists v.
  - by left.
  - rewrite (h_set_size _ _ _ _ _ _ Hm0 Hset). lia.
Qed.

(** Adding a key to a value that has a node. *)
Lemma add_known A h fp E acol v k p : rep1 ri node A h fp E ->
  ao_ok acol -> val_of (ri_dtype ri) acol = v -> pk_ok pktyp k -> ([v], k) ∉ E -> A !! v = Some p ->
  exists h', iAdd pktyp h ri acol (pk_obj pktyp k) None = Some (h', true) /\
    rep1 ri node A h' fp ({[([v], k)]} ∪ E) /\ frame 0 h fp h' fp.
Proof.
  intros R Hok Hv Hk Hni HA. destruct (node_stores pktyp node k Hpk Hn Hk) as [Hst Hov].
  destruct (r1_node _ _ _ _ _ _ R v p HA) as (Hp & m & Hm & Hne & Hc).
  destruct (addr_ptr p Hp) as [Hpn Hpp].
  unfold iAdd. rewrite (entry_single A h fp E acol R Hok), Hv, HA. cbn [mbind option_bind].
  rewrite Hu, Hpn. cbn [mbind option_bind]. rewrite Hpp.
  assert (Hmk : m !! k = None).
  { destruct (m !! k) as [x|] eqn:Em; [|done]. by apply Hc in Em as [_ Hin]. }
  destruct (h_node_add_ok node node_lawful h p m _ NULL Hm Hst) as (h' & -> & Hset); [by rewrite Hov|].
  rewrite Hov in Hset. exists h'. split; [done|].
  apply (node_changed A h fp E _ h' v p (<[k := NULL]> m)); [done..|apply insert_non_empty| |].
  - intros k' x. rewrite lookup_insert_Some, Hc, pairs_add. destruct (decide (k' = k)) as [->|Hne'].
    + split; [intros [[_ <-]|[? _]]; [auto|done]|intros [-> _]; by left].
    + split; [intros [[? _]|(_ & -> & ?)]; [done|auto]|].
      intros [-> [[= ?]|?]]; [done|by right].
  - intros w k' Hw. rewrite pairs_add. split; [intros [[= -> ->]|?]; done|by right].
Qed.

(** The tree of the index after a change of its entries. *)
Lemma root_other A h fp E p a m h' : rep1 ri node A h fp E -> p <> ri_btr ri -> h_set h p a m h' ->
  h_holds h' (ri_btr ri) root_args (PNum <$> A).
Proof.
  intros R Hp Hset. apply (h_holds_other h); [apply (r1_root _ _ _ _ _ _ R)|].
  apply (h_set_other _ _ _ _ _ _ Hset). by apply not_eq_sym.
Qed.

(** Adding a key to a value that has no node. *)
Lemma add_fresh A h fp E acol v k : rep1 ri node A h fp E ->
  ao_ok acol -> val_of (ri_dtype ri) acol = v -> pk_ok pktyp k -> A !! v = None ->
  Z.of_nat (size h) < 2 ^ 32 ->
  exists h' p, iAdd pktyp h ri acol (pk_obj pktyp k) None = Some (h', true) /\
    rep1 ri node (<[v := p]> A) h' ({[p]} ∪ fp) ({[([v], k)]} ∪ E) /\ frame 1 h fp h' ({[p]} ∪ fp).
Proof.
  intros R Hok Hv Hk HA Hsz. destruct (node_stores pktyp node k Hpk Hn Hk) as [Hst Hov].
  destruct (h_new_ok h node Hsz) as (h1 & p & En & Hfree & Hp & Hset1 & Hs1).
  destruct (r1_root _ _ _ _ _ _ R) as (x0 & Ex0 & Hx0).
  assert (Hpr : p <> ri_btr ri) by congruence.
  assert (Hpa : forall v', A !! v' <> Some p).
  { intros v' HA'. destruct (r1_node _ _ _ _ _ _ R v' p HA') as (_ & m & (y & Ey & _) & _). congruence. }
  destruct (h_ind_add_ok _ root_lawful h1 (ri_btr ri) (PNum <$> A) acol p (PNum p)) as (h2 & E2 & Hset2);
    [by apply (root_other A h fp E p node ∅)|apply root_stores; [done|lia]|
     by rewrite index_value, Hv, lookup_fmap, HA by apply (sg_num ri Hs)|].
  rewrite index_value, Hv, <- fmap_insert in Hset2 by apply (sg_num ri Hs).
  assert (Hnode2 : h_holds h2 p node ∅).
  { apply (h_holds_other h1); [by apply (h_set_holds h)|]. by apply (h_set_other _ _ _ _ _ _ Hset2). }
  destruct (h_node_add_ok node node_lawful h2 p ∅ _ NULL Hnode2 Hst) as (h3 & E3 & Hset3); [apply lookup_empty|].
  rewrite Hov in Hset3. exists h3, p. split.
  { unfold iAdd. rewrite (entry_single A h fp E acol R Hok), Hv, HA. cbn [mbind option_bind].
    rewrite Hu. cbn [is_null NULL]. change (u64 0 =? 0) with true. cbv iota.
    change (otype_of None) with COL_TYPE_NONE. rewrite Hn. cbn [mbind option_bind]. rewrite En, E2.
    cbn [mbind option_bind]. exact E3. }
  assert (Hkeep : forall q, q <> p -> q <> ri_btr ri -> h3 !! q = h !! q).
  { intros q Hq1 Hq2. rewrite (h_set_other _ _ _ _ _ _ Hset3), (h_set_other _ _ _ _ _ _ Hset2),
      (h_set_other _ _ _ _ _ _ Hset1); done. }
  split; split.
  - rewrite map_img_insert_notin_L by done. rewrite (r1_fp _ _ _ _ _ _ R).
    by rewrite !(assoc_L (∪)), (comm_L (∪) {[p]} {[ri_btr ri]}).
  - apply (h_holds_other h2); [by apply (h_set_holds h1)|]. apply (h_set_other _ _ _ _ _ _ Hset3).
    by apply not_eq_sym.
  - intros v'. rewrite lookup_insert_Some. intros [[_ ?]|[_ ?]]; [done|by apply (r1_apart _ _ _ _ _ _ R v')].
  - intros v1 v2 q. rewrite !lookup_insert_Some. intros [[<- <-]|[_ H1]] [[<- E']|[_ H2]]; [done|..].
    + by apply Hpa in H2.
    + subst q. by apply Hpa in H1.
    + by apply (r1_inj _ _ _ _ _ _ R v1 v2 q).
  - intros v' p'. rewrite lookup_insert_Some. intros [[<- <-]|[Hvv HA']].
    + split; [done|]. exists {[k := NULL]}. split_and!; [by apply (h_set_holds h2)|apply map_non_empty_singleton|].
      intros k' x. rewrite lookup_singleton_Some, pairs_add. split; [intros [<- <-]; auto|].
      intros [-> [[= ->]|Hin]]; [done|]. apply (r1_all _ _ _ _ _ _ R) in Hin as (v'' & [= <-] & [? ?]). congruence.
    + destruct (r1_node _ _ _ _ _ _ R v' p' HA') as (Hp' & m' & Hm' & Hne' & Hc'). split; [done|]. exists m'.
      split_and!; [|done|].
      * apply (h_holds_other h); [done|]. apply Hkeep; [intros ->; by apply (Hpa v')|].
        by apply (not_root A h fp E v').
      * intros k' x. rewrite Hc', pairs_add. split; [by intros [-> ?]; auto|].
        intros [-> [[= ? ?]|?]]; [by subst v'|done].
  - intros w k'. rewrite pairs_add. intros [[= -> ->]|Hin].
    + exists v. split; [done|]. by rewrite lookup_insert_eq.
    + destruct (r1_all _ _ _ _ _ _ R w k' Hin) as (v' & -> & [q Hq]). exists v'. split; [done|].
      destruct (decide (v = v')) as [<-|]; [congruence|]. by rewrite lookup_insert_ne.
  - intros q Hq [x Hx]. rewrite (r1_fp _ _ _ _ _ _ R) in Hq. apply Hkeep; [congruence|intros ->; apply Hq, in_fp; by left].
  - intros q [->%elem_of_singleton|?]%elem_of_union; [by right|by left].
  - rewrite (h_set_size _ _ _ _ _ _ Hnode2 Hset3).
    rewrite (h_set_size h1 _ _ _ _ h2 (root_other A h fp E p node ∅ h1 R Hpr Hset1) Hset2). lia.
Qed.

(** Removing the last key of a value removes its node. *)
Lemma forget_value A h fp E v p h' : rep1 ri node A h fp E -> A !! v = Some p ->
  h_holds h' (ri_btr ri) root_args (PNum <$> delete v A) ->
  (forall q, q <> p -> q <> ri_btr ri -> h' !! q = h !! q) -> size h' = size h ->
  rep1 ri node (delete v A) (bt_destroy h' p) (fp ∖ {[p]}) (filter (fun x => x.1 <> [v]) E) /\
  frame 0 h fp (bt_destroy h' p) (fp ∖ {[p]}).
Proof.
  intros R HA Hroot Hsame Hsize. pose proof (not_root A h fp E v p R HA) as Hpr.
  assert (Hkeep : forall q, q <> p -> q <> ri_btr ri -> bt_destroy h' p !! q = h !! q).
  { intros q Hq1 Hq2. unfold bt_destroy. rewrite lookup_delete_ne by done. by apply Hsame. }
  assert (Hin : forall q, q ∈ fp ∖ {[p]} <-> q = ri_btr ri \/ exists v', delete v A !! v' = Some q).
  { intros q. rewrite (r1_fp _ _ _ _ _ _ R), elem_of_difference, in_fp, elem_of_singleton. split.
    - intros [[->|[v' Hv']] Hq]; [by left|right]. exists v'. rewrite lookup_delete_ne; [done|]. intros <-. congruence.
    - intros [->|[v' Hv']]; [by auto|]. apply lookup_delete_Some in Hv' as [Hne Hv']. split; [right; by exists v'|].
      intros ->. apply Hne. by apply (r1_inj _ _ _ _ _ _ R v v' p). }
  split; split.
  - apply set_eq. intros q. by rewrite Hin, in_fp.
  - apply (h_holds_other h'); [done|]. unfold bt_destroy. by rewrite lookup_delete_ne.
  - intros v' Hv'. apply lookup_delete_Some in Hv' as [_ Hv']. by apply (r1_apart _ _ _ _ _ _ R v').
  - intros v1 v2 q [_ H1]%lookup_delete_Some [_ H2]%lookup_delete_Some. by apply (r1_inj _ _ _ _ _ _ R v1 v2 q).
  - intros v' p' [Hvv HA']%lookup_delete_Some. destruct (r1_node _ _ _ _ _ _ R v' p' HA') as (Hp' & m' & Hm' & Hne' & Hc').
    split; [done|]. exists m'. split_and!; [|done|].
    + apply (h_holds_other h); [done|]. apply Hkeep; [|by apply (not_root A h fp E v')].
      intros ->. apply Hvv. by apply (r1_inj _ _ _ _ _ _ R v v' p).
    + intros k x. rewrite Hc', elem_of_filter. cbn. split; [intros [-> ?]; split_and!; [done| |done]|tauto].
      intros [= ->]. done.
  - intros w k [Hw Hin']%elem_of_filter. cbn in Hw. destruct (r1_all _ _ _ _ _ _ R w k Hin') as (v' & -> & Hv').
    exists v'. split; [done|]. rewrite lookup_delete_ne; [done|]. intros ->. done.
  - intros q Hq [x Hx]. rewrite (r1_fp _ _ _ _ _ _ R), in_fp in Hq. apply Hkeep; intros ->; apply Hq; [right; by exists v|by left].
  - intros q [Hq _]%elem_of_difference. by left.
  - unfold bt_destroy. rewrite map_size_delete. destruct (h' !! p); unfold id; lia.
Qed.

Lemma rem_single A h fp E acol v k : kept node = true -> rep1 ri node A h fp E ->
  ao_ok acol -> val_of (ri_dtype ri) acol = v -> pk_ok pktyp k -> Z.of_nat (size E) < 2 ^ 32 -> ([v], k) ∈ E ->
  exists h' A' fp', iRem h ri acol (pk_obj pktyp k) None false = Some h' /\
    rep1 ri node A' h' fp' (E ∖ {[([v], k)]}) /\ frame 0 h fp h' fp'.
Proof.
  intros Hkn R Hok Hv Hk Hsz Hin. destruct (node_stores pktyp node k Hpk Hn Hk) as [Hst Hov].
  destruct (r1_all _ _ _ _ _ _ R _ _ Hin) as (v0 & [= <-] & [p HA]).
  destruct (r1_node _ _ _ _ _ _ R v p HA) as (Hp & m & Hm & Hne & Hc). destruct (addr_ptr p Hp) as [Hpn Hpp].
  assert (Hmk : m !! k = Some NULL) by (by apply Hc).
  destruct (h_node_delete_ok node node_lawful h p m (pk_obj pktyp k) Hkn Hm (proj1 Hst)) as (h1 & n & E1 & Hset1 & Hnk);
    [by rewrite Hov; eexists|]. rewrite Hov in Hset1, Hnk.
  unfold iRem. rewrite Hu, (entry_single A h fp E acol R Hok), Hv, HA. cbn [mbind option_bind].
  rewrite Hpp, E1. cbn [mbind option_bind].
  assert (Hsm : (size (delete k m) <= size E)%nat).
  { apply (keys_size E _ [v]). intros k' [x Hx]. apply lookup_delete_Some in Hx as [_ Hx]. by apply Hc in Hx as [_ ?]. }
  assert (Hother : forall k', k' <> k -> ([v], k') ∈ E <-> m !! k' = Some NULL).
  { intros k' _. rewrite Hc. tauto. }
  rewrite uwrap_small in Hnk by lia. subst n.
  destruct (Z.eqb_spec (Z.of_nat (size (delete k m))) 0) as [Hz|Hz].
  - assert (Hempty : delete k m = ∅) by (apply map_size_empty_iff; lia).
    destruct (h_ind_delete_ok _ root_lawful h1 (ri_btr ri) (PNum <$> A) acol (index_kept _ _ _ (sg_num ri Hs))) as (h2 & n2 & E2 & Hset2 & _).
    { by apply (root_other A h fp E p node (delete k m) h1 R (not_root A h fp E v p R HA)). }
    { apply (root_stores acol 1); [done|lia]. }
    { rewrite index_value, Hv, lookup_fmap, HA by apply (sg_num ri Hs). by eexists. }
    rewrite E2. cbn [mbind option_bind]. rewrite index_value, Hv, <- fmap_delete in Hset2 by apply (sg_num ri Hs).
    assert (Hr1 : h_holds h1 (ri_btr ri) root_args (PNum <$> A))
      by apply (root_other A h fp E p node (delete k m) h1 R (not_root A h fp E v p R HA) Hset1).
    assert (EE : E ∖ {[([v], k)]} = filter (fun x => x.1 <> [v]) E).
    { apply set_eq. intros [w k']. rewrite pairs_del, elem_of_filter. cbn. split.
      - intros [Hi Hd]. split; [|done]. intros ->. apply Hd. f_equal. destruct (decide (k' = k)) as [->|Hk']; [done|].
        assert (Em : delete k m !! k' = Some NULL) by (rewrite lookup_delete_ne by done; by apply Hc).
        by rewrite Hempty in Em.
      - intros [Hw Hi]. split; [done|]. intros [= -> ->]. done. }
    rewrite EE. eexists _, (delete v A), (fp ∖ {[p]}). split; [done|].
    apply (forget_value A h fp E v p h2 R HA); [by apply (h_set_holds h1)| |].
    + intros q Hq1 Hq2. by rewrite (h_set_other _ _ _ _ _ _ Hset2), (h_set_other _ _ _ _ _ _ Hset1).
    + by rewrite (h_set_size _ _ _ _ _ _ Hr1 Hset2), (h_set_size _ _ _ _ _ _ Hm Hset1).
  - exists h1, A, fp. split; [done|].
    apply (node_changed A h fp E _ h1 v p (delete k m)); [done..| | |].
    + intros Hempty. rewrite Hempty, map_size_empty in Hz. done.
    + intros k' x. rewrite lookup_delete_Some, Hc, pairs_del. split.
      * intros (Hk' & -> & ?). split_and!; [done|done|]. intros [= ->]. done.
      * intros (-> & ? & Hk'). split_and!; [|done|done]. intros <-. by apply Hk'.
    + intros w k' Hw. rewrite pairs_del. split; [tauto|]. intros ?. split; [done|]. by intros [= ? _].
Qed.
End Normal.

Lemma single_laws ri : single ri -> UNIQ (ri_cnstr ri) = false ->
  IndexLaws ri false 1 (keyed1 ri) (rep_single ri).
Proof.
  intros Hs Hu. split.
  - by apply plain_single.
  - apply keyed1_fun.
  - intros. by apply (keep_single ri h).
  - intros. by apply (dom_single ri h fp E).
  - intros h k r. by apply out_single.
  - intros h fp E k r v (node & A & Hn & R) (acol & Hg & Hv) Hk Hsz Hni _.
    destruct (ao_empty acol) eqn:Ee; [done|]. destruct Hv as [Hok [= ->]].
    rewrite (proj1 (add_single ri h k r acol Hs Hg Ee)).
    destruct (A !! val_of (ri_dtype ri) (lfu_col floor_log2 ri acol)) as [p|] eqn:HA.
    + destruct (add_known ri Hs Hu node Hn A h fp E _ _ k p R Hok eq_refl Hk Hni HA) as (h' & E' & R' & F).
      exists h', fp. split; [done|]. split; [by exists node, A|apply (frame_weak _ _ _ _ _ _ F); lia].
    + destruct (add_fresh ri Hs Hu node Hn A h fp E _ _ k R Hok eq_refl Hk HA ltac:(lia)) as (h' & p & E' & R' & F).
      exists h', ({[p]} ∪ fp). split; [done|]. split; [by eexists node, _|done].
  - done.
Qed.
Lemma single_del ri : single ri -> UNIQ (ri_cnstr ri) = false -> C_IS_X pktyp = false ->
  DeleteLaw ri (keyed1 ri) (rep_single ri).
Proof.
  intros Hs Hu Hx h fp E k r v (node & A & Hn & R) (acol & Hg & Hv) Hk Hsz Hin.
  destruct (ao_empty acol) eqn:Ee; [done|]. destruct Hv as [Hok [= ->]].
  rewrite (proj2 (add_single ri h k r acol Hs Hg Ee)). pose proof (node_word_kept pktyp node Hpk Hx Hn) as Hkn.
  destruct (rem_single ri Hs Hu node Hn A h fp E _ _ k Hkn R Hok eq_refl Hk Hsz Hin) as (h' & A' & fp' & E' & R' & F).
  exists h', fp'. split; [done|]. split; [by exists node, A'|done].
Qed.

(** ** UNIQUE single-column indexes *)

Definition keyed_uniq (ri : r_ind_t) (k : Z) (r : cptr) (v : option (list Z)) : Prop :=
  keyed1 ri k r v /\ forall n, v = Some [n] -> uniq_ok pktyp (ri_dtype ri) n.

(** The one tree, from the value to the key. *)
Record repu (ri : r_ind_t) (a : bt_args) (m : gmap Z cptr) (h : heap) (fp : gset Z) (E : pairs) : Prop := {
  ru_fp : fp = {[ri_btr ri]};
  ru_root : h_holds h (ri_btr ri) a m;
  ru_in : forall v x, m !! v = Some x -> is_null x = false /\ ([v], uniq_pk (a_spec a) x) ∈ E;
  ru_all : forall w k, (w, k) ∈ E -> exists v x, w = [v] /\ m !! v = Some x /\ uniq_pk (a_spec a) x = k;
}.
Definition rep_uniq (ri : r_ind_t) (h : heap) (fp : gset Z) (E : pairs) : Prop :=
  exists a m, createU_S_IBT (ri_dtype ri) (ri_num ri) pktyp = Some a /\ repu ri a m h fp E.

Lemma uniq_facts ri a acol : single ri -> createU_S_IBT (ri_dtype ri) (ri_num ri) pktyp = Some a ->
  lawful a /\ obj_value (a_spec a) acol = val_of (ri_dtype ri) acol.
Proof.
  intros Hs Ha. split; [apply created_lawful; by eapply created_uniq|].
  revert Ha. unfold createU_S_IBT, _createUIBT.
  destruct (num_cases _ (sg_num ri Hs)) as [->|[->| ->]]; cbn;
    by destruct (num_cases pktyp Hpk) as [->|[->| ->]]; intros [= <-].
Qed.

Lemma root_frame h p a m m0 h' : h_holds h p a m0 -> h_set h p a m h' -> frame 0 h {[p]} h' {[p]}.
Proof.
  intros Hh Hset. split; [|by left|].
  - intros q Hq%not_elem_of_singleton _. by apply (h_set_other _ _ _ _ _ _ Hset).
  - rewrite (h_set_size _ _ _ _ _ _ Hh Hset). lia.
Qed.

Lemma uniq_laws ri : single ri -> UNIQ (ri_cnstr ri) = true -> IndexLaws ri true 1 (keyed_uniq ri) (rep_uniq ri).
Proof.
  intros Hs Hu. split.
  - by apply plain_single.
  - intros k r v1 v2 [H1 _] [H2 _]. by apply (keyed1_fun ri k r).
  - intros h h' fp E (a & m & Ha & [-> Hr Hi Hall]) Hk. exists a, m. split; [done|]. split; [done| |done|done].
    apply (h_holds_other h); [done|]. apply Hk. set_solver.
  - intros h fp E p (a & m & Ha & [-> (x & Hx & _) Hi Hall]) ->%elem_of_singleton. by eexists.
  - intros h k r [Hk _]. by apply out_single.
  - intros h fp E k r v (a & m & Ha & [-> Hr Hi Hall]) [(acol & Hg & Hv) Hd] Hk Hsz Hni Hfree.
    destruct (ao_empty acol) eqn:Ee; [done|]. destruct Hv as [Hok [= ->]].
    rewrite (proj1 (add_single ri h k r acol Hs Hg Ee)). set (acol' := lfu_col floor_log2 ri acol) in *.
    destruct (uniq_facts ri a acol' Hs Ha) as [Hl Hval].
    destruct (uniq_stores pktyp Hpk (ri_dtype ri) (ri_num ri) BT_SIMP_UNIQ a acol' k Ha ltac:(done) (sg_num ri Hs) Hok Hk (Hd _ eq_refl))
      as (val & x & Huv & Hst & Hnn & Hpk').
    assert (Hm : m !! val_of (ri_dtype ri) acol' = None).
    { destruct (m !! _) as [y|] eqn:Em; [|done]. destruct (Hi _ _ Em) as [_ Hin]. by apply Hfree in Hin. }
    destruct (h_add_uniq_ok a Hl h (ri_btr ri) m pktyp (pk_obj pktyp k) acol' val x Hr Huv Hst) as (h' & E' & Hset);
      [by rewrite Hval|]. rewrite Hval in Hset.
    exists h', {[ri_btr ri]}. split; [|split; [|eapply frame_weak; [by eapply root_frame|lia]]].
    + unfold iAdd. rewrite (h_find_ok a Hl h _ m acol' Hr (proj1 Hst)), Hval, Hm. cbn [default mbind option_bind].
      rewrite Hu. change (is_null (id NULL)) with true. cbn [negb]. rewrite E'. done.
    + eexists a, _. split; [done|]. split; [done|by apply (h_set_holds h)| |].
      * intros v y. rewrite lookup_insert_Some, pairs_add. intros [[<- <-]|[_ Hy]]; [rewrite Hpk'; auto|].
        destruct (Hi v y Hy). auto.
      * intros w k'. rewrite pairs_add. intros [[= -> ->]|Hin].
        -- exists (val_of (ri_dtype ri) acol'), x. by rewrite lookup_insert_eq.
        -- destruct (Hall w k' Hin) as (v & y & -> & Hy & Hky). exists v, y. split_and!; [done| |done].
           rewrite lookup_insert_ne; [done|]. intros <-. congruence.
  - intros h fp E k k' r v _ (a & m & Ha & [-> Hr Hi Hall]) [(acol & Hg & Hv) Hd] Hin.
    destruct (ao_empty acol) eqn:Ee; [done|]. destruct Hv as [Hok [= ->]].
    rewrite (proj1 (add_single ri h k r acol Hs Hg Ee)). set (acol' := lfu_col floor_log2 ri acol) in *.
    destruct (uniq_facts ri a acol' Hs Ha) as [Hl Hval].
    destruct (Hall _ _ Hin) as (v & y & [= <-] & Hy & _). destruct (Hi _ _ Hy) as [Hnn _].
    assert (Hsr : searchable a acol').
    { destruct (uniq_stores pktyp Hpk (ri_dtype ri) (ri_num ri) BT_SIMP_UNIQ a acol' 1 Ha ltac:(done) (sg_num ri Hs) Hok) as (? & ? & _ & Hst & _);
        [|by apply (Hd _ eq_refl)|apply Hst].
      unfold pk_ok. destruct (C_IS_I pktyp); [lia|]. destruct (C_IS_L pktyp); lia. }
    unfold iAdd. rewrite (h_find_ok a Hl h _ m acol' Hr Hsr), Hval, Hy. cbn [default mbind option_bind].
    rewrite Hu. change (id y) with y. by rewrite Hnn.
Qed.

Lemma uniq_del ri : single ri -> UNIQ (ri_cnstr ri) = true -> DeleteLaw ri (keyed_uniq ri) (rep_uniq ri).
Proof.
  intros Hs Hu h fp E k r v (a & m & Ha & [-> Hr Hi Hall]) [(acol & Hg & Hv) Hd] Hk Hsz Hin.
  destruct (ao_empty acol) eqn:Ee; [done|]. destruct Hv as [Hok [= ->]].
  rewrite (proj2 (add_single ri h k r acol Hs Hg Ee)). set (acol' := lfu_col floor_log2 ri acol) in *.
  destruct (uniq_facts ri a acol' Hs Ha) as [Hl Hval].
  destruct (uniq_stores pktyp Hpk (ri_dtype ri) (ri_num ri) BT_SIMP_UNIQ a acol' k Ha ltac:(done) (sg_num ri Hs) Hok Hk (Hd _ eq_refl))
    as (val & x & _ & Hst & _ & _).
  destruct (Hall _ _ Hin) as (v & y & [= <-] & Hy & Hky).
  destruct (h_delete_ok a Hl h (ri_btr ri) m acol' (uniq_kept _ _ _ _ _ Ha) Hr (proj1 Hst)) as (h' & E' & Hset); [rewrite Hval; by eexists|].
  rewrite Hval in Hset. exists h', {[ri_btr ri]}. split; [|split; [|by eapply root_frame]].
  + unfold iRem. by rewrite Hu.
  + eexists a, _. split; [done|]. split; [done|by apply (h_set_holds h)| |].
    * intros v z [Hne Hz]%lookup_delete_Some. destruct (Hi v z Hz) as [? Hzin]. split; [done|].
      apply pairs_del. split; [done|]. intros [= ? _]. done.
    * intros w k' [Hin' Hne]%pairs_del. destruct (Hall w k' Hin') as (v & z & -> & Hz & Hkz).
      exists v, z. split_and!; [done| |done]. rewrite lookup_delete_ne; [done|]. intros <-.
      apply Hne. congruence.
Qed.
End Laws.
