(* ===== verification/MciLaws.v ===== *)
(** * Multi-column indexes satisfy the interface of an index

    A tree per level: the tree of a column leads, by the value of the column, to
    the tree of the next column, and the last one to a tree of the keys of the rows
    that have the values.  No tree but the first is ever left empty.  An index
    without constraint on rows whose indexed columns are all given implements
    [IndexLaws]; a row whose first column is empty is left out. *)

From stdpp Require Import gmap.
From S2P Require Import Prelude Stream CStr Row Aobj BtSearch DirtyStream Btree BtOps BtIter BtScan BtKey BtKeyLaws BtStream Abt GetCol Index IndexLaws.

(** ** Relations of at most N pairs *)

Abbreviation rel := (list Z -> Z -> Prop).
Definition sub (v : Z) (E : rel) : rel := fun w k => E (v :: w) k.
Definition few (N : nat) (E : rel) : Prop :=
  forall l : list (list Z * Z), NoDup l -> (forall x, x ∈ l -> E x.1 x.2) -> (length l <= N)%nat.

Lemma few_sub N E v : few N E -> few N (sub v E).
Proof.
  intros Hf l Hl Hin. rewrite <- (length_fmap (fun x => (v :: x.1, x.2)) l). apply Hf.
  - apply NoDup_fmap_2; [|done]. by intros [w1 k1] [w2 k2] [= -> ->].
  - by intros x ([w k] & -> & Hx)%list_elem_of_fmap; apply (Hin _ Hx).
Qed.
Lemma few_less N E E' : few N E -> (forall w k, E' w k -> E w k) -> few N E'.
Proof. intros Hf Hs l Hl Hin. apply Hf; [done|]. intros x Hx. by apply Hs, Hin. Qed.
Lemma few_set (E : pairs) : few (size E) (fun w k => (w, k) ∈ E).
Proof.
  intros l Hl Hin. transitivity (length (elements E)); [|unfold size, set_size; cbn; lia].
  apply submseteq_length, NoDup_submseteq; [done|]. intros [w k] Hx. apply elem_of_elements. by apply (Hin _ Hx).
Qed.

(** The keys of a map that each stand for a pair. *)
Lemma few_map {V} N E (m : gmap Z V) : few N E -> (forall v, is_Some (m !! v) -> exists w k, E (v :: w) k) ->
  (size m <= N)%nat.
Proof.
  intros Hf Hm.
  assert (H : forall l : list Z, NoDup l -> (forall v, v ∈ l -> is_Some (m !! v)) -> exists l' : list (list Z * Z),
    length l' = length l /\ NoDup l' /\ forall x, x ∈ l' -> E x.1 x.2 /\ exists v w, x.1 = v :: w /\ v ∈ l).
  { induction 1 as [|v l Hni _ IH]; intros Hs; [exists []; split; [done|]; split; [constructor|by intros x ?%elem_of_nil]|].
    destruct IH as (l' & Hlen & Hnd & Hl'); [intros u Hu; apply Hs; by right|].
    destruct (Hm v) as (w & k & Hw); [apply Hs; by left|]. exists ((v :: w, k) :: l'). split; [by cbn; f_equal|]. split.
    - constructor; [|done]. intros Hin. destruct (Hl' _ Hin) as (_ & u & w' & [= -> _] & Hu). done.
    - intros x [->|Hx]%elem_of_cons; [split; [done|]; exists v, w; split; [done|by left]|].
      destruct (Hl' _ Hx) as (Hx' & u & w' & Hu & Hu'). split; [done|]. exists u, w'. split; [done|by right]. }
  destruct (H (elements (dom m)) (NoDup_elements _)) as (l' & Hlen & Hnd & Hl').
  { intros v Hv. by apply elem_of_dom, elem_of_elements. }
  assert (length (elements (dom m)) = size m) by (rewrite <- size_dom; done).
  pose proof (Hf l' Hnd (fun x Hx => proj1 (Hl' x Hx))). lia.
Qed.

Lemma few_leaf {V} N E (m : gmap Z V) : few N E -> (forall k, is_Some (m !! k) -> E [] k) -> (size m <= N)%nat.
Proof.
  intros Hf Hm. assert (length (elements (dom m)) = size m) as <- by (rewrite <- size_dom; done).
  rewrite <- (length_fmap (fun k => ([] : list Z, k))). apply Hf.
  - apply NoDup_fmap_2; [by intros x y [= ->]|apply NoDup_elements].
  - intros x (k & -> & Hk%elem_of_elements%elem_of_dom)%list_elem_of_fmap. by apply Hm.
Qed.

Lemma small_zero n N : (n <= N)%nat -> Z.of_nat N < 2 ^ 32 -> u32 (Z.of_nat n) = 0 <-> n = 0%nat.
Proof. intros Hn HN. rewrite uwrap_small by lia. lia. Qed.

(** ** One level *)

Section Level.
Context (R : heap -> Z -> gset Z -> rel -> Prop).

(** The tree [p] leads to the trees [A] of the next level, with the footprints
    [F]. *)
Record level (a : bt_args) (h : heap) (p : Z) (fp : gset Z) (E : rel) (A : gmap Z Z) (F : Z -> gset Z) : Prop := {
  lv_root : h_holds h p a (PNum <$> A);
  lv_fp : forall q, q ∈ fp <-> q = p \/ exists v, is_Some (A !! v) /\ q ∈ F v;
  lv_child : forall v c, A !! v = Some c ->
    0 < c < 2 ^ 64 /\ (p ∉ F v) /\ (exists w k, E (v :: w) k) /\ R h c (F v) (sub v E);
  lv_apart : forall v1 v2, v1 <> v2 -> is_Some (A !! v1) -> is_Some (A !! v2) -> F v1 ## F v2;
  lv_all : forall w k, E w k -> exists v w', w = v :: w' /\ is_Some (A !! v);
}.

Context (R_keep : forall h h' c f E, R h c f E -> (forall q, q ∈ f -> h' !! q = h !! q) -> R h' c f E).
Context (R_dom : forall h c f E q, R h c f E -> q ∈ f -> is_Some (h !! q)).
Context (R_ext : forall h c f E E', R h c f E -> (forall w k, E w k <-> E' w k) -> R h c f E').

Lemma level_child_fp a h p fp E A F v q : level a h p fp E A F -> is_Some (A !! v) -> q ∈ F v -> q ∈ fp.
Proof. intros L Hv Hq. apply (lv_fp _ _ _ _ _ _ _ L). right. by exists v. Qed.

Lemma level_keep a h h' p fp E A F : level a h p fp E A F -> (forall q, q ∈ fp -> h' !! q = h !! q) ->
  level a h' p fp E A F.
Proof.
  intros L Hk. destruct L as [L1 L2 L3 L4 L5]. split; try done.
  - apply (h_holds_other h); [done|]. apply Hk, L2. by left.
  - intros v c Hc. destruct (L3 v c Hc) as (H1 & H2 & H3 & H4). split_and!; [lia|lia|done|done|].
    apply (R_keep h); [done|]. intros q Hq. apply Hk, L2. right. by exists v.
Qed.

Lemma level_dom a h p fp E A F q : level a h p fp E A F -> q ∈ fp -> is_Some (h !! q).
Proof.
  intros [(x & Hx & _) L2 L3 _ _] [->|(v & [c Hc] & Hq)]%L2; [by eexists|].
  destruct (L3 v c Hc) as (_ & _ & _ & Hr). by apply (R_dom _ _ _ _ _ Hr).
Qed.

Lemma level_ext a h p fp E E' A F : level a h p fp E A F -> (forall w k, E w k <-> E' w k) -> level a h p fp E' A F.
Proof.
  intros [L1 L2 L3 L4 L5] He. split; try done.
  - intros v c Hc. destruct (L3 v c Hc) as (H1 & H2 & (w & k & H3) & H4). split_and!; [lia|lia|done| |].
    + exists w, k. by apply He.
    + apply (R_ext _ _ _ (sub v E)); [done|]. intros w' k'. apply He.
  - intros w k Hw. apply (L5 w k). by apply He.
Qed.

(** The child of the value [v] changes, from [g] to [g']. *)
Lemma graft a g g' p A F v c fp fc fc' n (E E' : rel) :
  h_holds g p a (PNum <$> A) -> A !! v = Some c -> 0 < c < 2 ^ 64 -> p ∉ fc ->
  (forall u b, u <> v -> A !! u = Some b ->
     0 < b < 2 ^ 64 /\ (p ∉ F u) /\ (exists w k, E (u :: w) k) /\ R g b (F u) (sub u E) /\ F u ## fc) ->
  (forall u1 u2, u1 <> u2 -> u1 <> v -> u2 <> v -> is_Some (A !! u1) -> is_Some (A !! u2) -> F u1 ## F u2) ->
  (forall q, q ∈ fp <-> q = p \/ exists u, u <> v /\ is_Some (A !! u) /\ q ∈ F u) ->
  (forall w k, E w k -> exists u w', w = u :: w' /\ is_Some (A !! u)) ->
  frame n g fc g' fc' -> R g' c fc' (sub v E') -> (exists w k, E' (v :: w) k) ->
  (forall u w k, u <> v -> E' (u :: w) k <-> E (u :: w) k) -> (forall k, ~ E' [] k) ->
  level a g' p (fp ∪ fc') E' A (fun u => if decide (u = v) then fc' else F u).
Proof.
  intros Hr Hv Hc Hpc Hoth Hap Hfp Hall Fr Hch Hne Heq Hnil.
  assert (Hp : is_Some (g !! p)) by (destruct Hr as (x & -> & _); by eexists).
  assert (Hkeep : forall u b q, u <> v -> A !! u = Some b -> q ∈ F u -> g' !! q = g !! q).
  { intros u b q Hu Hb Hq. destruct (Hoth u b Hu Hb) as (_ & _ & _ & Hrb & Hd).
    apply (fr_other _ _ _ _ _ Fr); [|by apply (R_dom _ _ _ _ _ Hrb)]. intros Hqc. by apply (Hd q). }
  assert (Hdis : forall u b, u <> v -> A !! u = Some b -> F u ## fc').
  { intros u b Hu Hb. destruct (Hoth u b Hu Hb) as (_ & _ & _ & Hrb & Hd). symmetry.
    apply (frame_disjoint n g fc g'); [done|by symmetry|]. intros q Hq. by apply (R_dom _ _ _ _ _ Hrb). }
  split.
  - apply (h_holds_other g); [done|]. by apply (fr_other _ _ _ _ _ Fr).
  - intros q. rewrite elem_of_union, Hfp. split.
    + intros [[->|(u & Hu & Hs & Hq)]|Hq]; [by left|right..].
      * exists u. by rewrite decide_False.
      * exists v. rewrite decide_True by done. split; [by eexists|done].
    + intros [->|(u & Hs & Hq)]; [by left; left|]. destruct (decide (u = v)) as [->|Hu]; [by right|].
      left. right. by exists u.
  - intros u b Hb. destruct (decide (u = v)) as [->|Hu].
    + rewrite Hv in Hb. injection Hb as <-. split_and!; [lia|lia| |done|done]. intros Hin.
      destruct (fr_fresh _ _ _ _ _ Fr p Hin) as [?|Hnone]; [done|]. destruct Hp as [? Hp]. congruence.
    + destruct (Hoth u b Hu Hb) as (H1 & H2 & (w & k & H3) & H4 & _). split_and!; [lia|lia|done| |].
      * exists w, k. by apply Heq.
      * apply (R_ext _ _ _ (sub u E)); [|by intros; symmetry; apply Heq].
        apply (R_keep g); [done|]. intros q Hq. by apply (Hkeep u b).
  - intros u1 u2 Hne' [b1 H1] [b2 H2]. destruct (decide (u1 = v)) as [->|Hu1]; destruct (decide (u2 = v)) as [->|Hu2]; [done|..].
    + symmetry. by apply (Hdis u2 b2).
    + by apply (Hdis u1 b1).
    + apply Hap; try done; by eexists.
  - intros [|u w] k Hw; [by apply Hnil in Hw|]. exists u, w. split; [done|].
    destruct (decide (u = v)) as [->|Hu]; [by eexists|]. apply (Heq u w k Hu) in Hw.
    destruct (Hall _ _ Hw) as (u' & w' & [= <- <-] & Hs). done.
Qed.

(** The child of the value [v] goes. *)
Lemma prune a g p A F v fp (E E' : rel) :
  h_holds g p a (PNum <$> delete v A) ->
  (forall u b, u <> v -> A !! u = Some b ->
     0 < b < 2 ^ 64 /\ (p ∉ F u) /\ (exists w k, E (u :: w) k) /\ R g b (F u) (sub u E)) ->
  (forall u1 u2, u1 <> u2 -> is_Some (A !! u1) -> is_Some (A !! u2) -> F u1 ## F u2) ->
  (forall q, q ∈ fp <-> q = p \/ exists u, u <> v /\ is_Some (A !! u) /\ q ∈ F u) ->
  (forall w k, E w k -> exists u w', w = u :: w' /\ is_Some (A !! u)) ->
  (forall u w k, u <> v -> E' (u :: w) k <-> E (u :: w) k) -> (forall w k, E' w k -> E w k) ->
  (forall w k, ~ E' (v :: w) k) ->
  level a g p fp E' (delete v A) F.
Proof.
  intros Hr Hoth Hap Hfp Hall Heq Hsub Hno.
  assert (Hin : forall u, is_Some (delete v A !! u) <-> u <> v /\ is_Some (A !! u)).
  { intros u. destruct (decide (u = v)) as [->|Hu]; [|by rewrite lookup_delete_ne by done; tauto].
    rewrite lookup_delete_eq. split; [by intros [? ?]|tauto]. }
  split.
  - done.
  - intros q. rewrite Hfp. split; (intros [->|(u & Hu)]; [by left|right; exists u]); rewrite Hin in *; tauto.
  - intros u b [Hu Hb]%lookup_delete_Some. destruct (Hoth u b (not_eq_sym Hu) Hb) as (H1 & H2 & (w & k & H3) & H4).
    split_and!; [lia|lia|done| |].
    + exists w, k. by apply Heq; [apply not_eq_sym|].
    + apply (R_ext _ _ _ (sub u E)); [done|]. intros w' k'. symmetry. apply Heq. by apply not_eq_sym.
  - intros u1 u2 Hne [_ H1]%Hin [_ H2]%Hin. by apply Hap.
  - intros w k Hw. destruct (Hall w k (Hsub w k Hw)) as (u & w' & -> & Hs). exists u, w'. split; [done|].
    apply Hin. split; [|done]. intros ->. by apply Hno in Hw.
Qed.
End Level.

Section MciLaws.
Context `{MallocLaws}.
Context (getcol : Z -> aobj -> cptr -> option aobj) (pktyp : Z) (coltype : Z -> Z).
Context (Hpk : C_IS_NUM pktyp = true).
#[local] Abbreviation pk k := (pk_obj pktyp k).

(** ** The index *)

(** An index on columns of numbers, without constraint and order-by column. *)
Record multi (ri : r_ind_t) : Prop := {
  mu_plain : ri_virt ri || ri_fname ri = false;
  mu_hlt : ri_hlt ri = false;
  mu_cols : ri_bclist ri <> [];
  mu_cnstr : UNIQ (ri_cnstr ri) = false;
  mu_obc : ri_obc ri = -1;
  mu_num : Forall (fun c => C_IS_NUM (coltype c) = true) (ri_bclist ri);
}.

(** The number a column of a row has. *)
Definition colval (k : Z) (r : cptr) (c w : Z) : Prop :=
  exists acol, getcol c (pk k) r = Some acol /\ ao_empty acol = false /\ ao_ok acol /\ val_of (coltype c) acol = w.
(** The values of the columns; a row whose first column is empty is left out. *)
Definition keyedm (ri : r_ind_t) (k : Z) (r : cptr) (v : option (list Z)) : Prop :=
  match v with
  | Some ws => Forall2 (colval k r) (ri_bclist ri) ws
  | None => exists c acol, head (ri_bclist ri) = Some c /\ getcol c (pk k) r = Some acol /\ ao_empty acol = true
  end.

Context (ri : r_ind_t) (Hri : multi ri).
Context (node : bt_args) (Hnode : createIndexNode pktyp COL_TYPE_NONE = Some node).
#[local] Abbreviation mid bt c := (createIBT (coltype c) (ri_num ri) bt).

(** The trees of the columns [cs], the first of kind [bt], at the address [p]. *)
Fixpoint repm (bt : Z) (cs : list Z) (h : heap) (p : Z) (fp : gset Z) (E : rel) : Prop :=
  match cs with
  | [] => fp = {[p]} /\ (exists m, h_holds h p node m /\ forall k x, m !! k = Some x <-> x = NULL /\ E [] k) /\
      forall w k, E w k -> w = []
  | c :: cs => exists A F, level (repm BTREE_MCI_MID cs) (mid bt c) h p fp E A F
  end.

(** The first tree of them. *)
Definition top (bt : Z) (cs : list Z) : bt_args := match cs with [] => node | c :: _ => mid bt c end.
Definition mid_kind (bt : Z) : Prop := bt = BTREE_MCI \/ bt = BTREE_MCI_MID.

Lemma mid_stores bt c v q : mid_kind bt -> C_IS_NUM (coltype c) = true -> ao_ok v -> 0 <= q < 2 ^ 64 ->
  stores (mid bt c) v (PNum q) (PNum q).
Proof.
  intros [->| ->] Hc Hv Hq; [apply index_stores; [done|right; by left|done|done]|].
  apply index_stores; [done|right; right; by left|done|done].
Qed.

Lemma mid_value bt c v : C_IS_NUM (coltype c) = true -> obj_value (a_spec (mid bt c)) v = val_of (coltype c) v.
Proof. intros Hc. destruct (num_cases _ Hc) as [->|[->| ->]]; done. Qed.

Lemma mid_lawful bt c : mid_kind bt -> C_IS_NUM (coltype c) = true -> lawful (mid bt c).
Proof.
  intros [->| ->] Hc.
  - pose proof (fun t Ht => created_lawful _ (created_mci t (ri_num ri) COL_TYPE_INT Ht)) as Hl.
    destruct (num_cases _ Hc) as [E|[E|E]]; rewrite E; [apply (Hl 1)|apply (Hl 2)|apply (Hl 5)]; done.
  - apply created_lawful. by apply created_mci_mid.
Qed.
Lemma leaf_lawful : lawful node.
Proof. apply created_lawful. exact (created_node pktyp COL_TYPE_NONE node Hpk Hnode). Qed.

Lemma repm_keep cs : forall bt h h' p fp E, repm bt cs h p fp E -> (forall q, q ∈ fp -> h' !! q = h !! q) ->
  repm bt cs h' p fp E.
Proof.
  induction cs as [|c cs IH]; intros bt h h' p fp E; cbn [repm].
  - intros (-> & (m & Hm & Hc) & Hw) Hk. split; [done|]. split; [|done]. exists m. split; [|done].
    apply (h_holds_other h); [done|]. by apply Hk, elem_of_singleton.
  - intros (A & F & L) Hk. exists A, F. by apply (level_keep _ (IH BTREE_MCI_MID) _ h).
Qed.
Lemma repm_dom cs : forall bt h p fp E q, repm bt cs h p fp E -> q ∈ fp -> is_Some (h !! q).
Proof.
  induction cs as [|c cs IH]; intros bt h p fp E q; cbn [repm].
  - intros (-> & (m & (x & Hx & _) & _) & _) ->%elem_of_singleton. by eexists.
  - intros (A & F & L). by apply (level_dom _ (IH BTREE_MCI_MID) _ _ _ _ _ _ _ _ L).
Qed.
Lemma repm_ext cs : forall bt h p fp (E E' : rel), repm bt cs h p fp E -> (forall w k, E w k <-> E' w k) -> repm bt cs h p fp E'.
Proof.
  induction cs as [|c cs IH]; intros bt h p fp E E'; cbn [repm].
  - intros (-> & (m & Hm & Hc) & Hw) He. split; [done|]. split; [exists m; split; [done|]|].
    + intros k x. rewrite Hc. by rewrite (He [] k).
    + intros w k Hwk. apply (Hw w k). by apply He.
  - intros (A & F & L) He. exists A, F. by apply (level_ext _ (IH BTREE_MCI_MID) _ _ _ _ E).
Qed.
Lemma repm_in bt cs h p fp E : repm bt cs h p fp E -> p ∈ fp.
Proof.
  destruct cs as [|c cs]; cbn [repm]; [by intros (-> & _); apply elem_of_singleton|].
  intros (A & F & L). apply (lv_fp _ _ _ _ _ _ _ _ L). by left.
Qed.
Lemma repm_empty bt cs h p : h_holds h p (top bt cs) ∅ -> repm bt cs h p {[p]} (fun _ _ => False).
Proof.
  destruct cs as [|c cs]; cbn [repm top]; intros Hh.
  - split; [done|]. split; [|done]. exists ∅. split; [done|]. intros k x. rewrite lookup_empty. split; [done|tauto].
  - exists ∅, (fun _ => ∅). split; [by rewrite fmap_empty| |by intros v q Hv; rewrite lookup_empty in Hv|done|done].
    intros q. rewrite elem_of_singleton. split; [by left|]. intros [?|(v & [? Hv] & _)]; [done|].
    by rewrite lookup_empty in Hv.
Qed.

(** The tree made for the next column. *)
Lemma next_tree pre c cs : ri_bclist ri = pre ++ c :: cs -> mci_tree pktyp coltype ri (Z.of_nat (length pre)) None =
  Some (top BTREE_MCI_MID cs).
Proof.
  intros Hcs. unfold mci_tree, mci_final, mci_trgr, nclist. rewrite (mu_cnstr _ Hri), Hcs, length_app.
  destruct cs as [|c' cs]; cbn [top].
  - rewrite (proj2 (Z.eqb_eq _ _)) by (cbn; lia). exact Hnode.
  - rewrite (proj2 (Z.eqb_neq _ (_ - 1))) by (cbn; lia). rewrite (proj2 (Z.eqb_neq _ (-1))) by lia.
    replace (Z.to_nat (Z.of_nat (length pre) + 1)) with (S (length pre)) by lia.
    rewrite (lookup_app_r pre) by lia. replace (S (length pre) - length pre)%nat with 1%nat by lia.
    cbn [lookup list_lookup mbind option_bind].
    pose proof (mu_num _ Hri) as Hn. rewrite Hcs in Hn. apply Forall_app in Hn as [_ Hn].
    inversion Hn as [|? ? _ Hn']; subst. inversion Hn' as [|? ? Hc _]; subst.
    by destruct (num_cases _ Hc) as [E|[E|E]]; rewrite E.
Qed.

(** *** Adding a row *)

#[local] Abbreviation walk h k r pre cs p dpl :=
  (mci_walk getcol pktyp coltype h ri (pk k) r None (Z.of_nat (length pre)) cs p dpl).
Definition plus (E : rel) (ws : list Z) (k : Z) : rel := fun w k' => (w = ws /\ k' = k) \/ E w k'.

Lemma cols_num pre c cs : ri_bclist ri = pre ++ c :: cs -> C_IS_NUM (coltype c) = true.
Proof.
  intros Hcs. pose proof (mu_num _ Hri) as Hn. rewrite Hcs in Hn. apply Forall_app in Hn as [_ Hn].
  by inversion Hn.
Qed.

(** The entry of a value in a tree of the level. *)
Lemma level_find bt c cs h p fp E A F acol : mid_kind bt -> C_IS_NUM (coltype c) = true -> ao_ok acol ->
  level (repm BTREE_MCI_MID cs) (mid bt c) h p fp E A F ->
  h_find h p acol = Some (match A !! val_of (coltype c) acol with Some q => PNum q | None => NULL end).
Proof.
  intros Hbt Hc Hok L.
  rewrite (h_find_ok _ (mid_lawful bt c Hbt Hc) h p _ acol (lv_root _ _ _ _ _ _ _ _ L))
    by (apply (mid_stores bt c acol 1); [done..|lia]).
  rewrite mid_value, lookup_fmap by done. by destruct (A !! _).
Qed.

Lemma walk_known bt pre c cs k r acol w1 h p fp E A F q dpl : ri_bclist ri = pre ++ c :: cs -> mid_kind bt ->
  getcol c (pk k) r = Some acol -> ao_empty acol = false -> ao_ok acol -> val_of (coltype c) acol = w1 ->
  level (repm BTREE_MCI_MID cs) (mid bt c) h p fp E A F -> A !! w1 = Some q ->
  walk h k r pre (c :: cs) p dpl = walk h k r (pre ++ [c]) cs q (init_dp p acol q :: dpl).
Proof.
  intros Hcs Hbt Hg He Hok Hv L HA. cbn [mci_walk]. rewrite Hg. cbn [mbind option_bind]. rewrite He.
  rewrite (level_find bt c cs h p fp E A F acol Hbt (cols_num pre c cs Hcs) Hok L), Hv, HA.
  cbn [mbind option_bind].
  destruct (addr_ptr q) as [-> ->]; [by apply (lv_child _ _ _ _ _ _ _ _ L w1 q)|]. cbn [mbind option_bind].
  rewrite length_app. cbn [length]. by replace (Z.of_nat (length pre + 1)) with (Z.of_nat (length pre) + 1) by lia.
Qed.

Lemma walk_fresh bt pre c cs k r acol w1 h p fp E A F dpl : ri_bclist ri = pre ++ c :: cs -> mid_kind bt ->
  getcol c (pk k) r = Some acol -> ao_empty acol = false -> ao_ok acol -> val_of (coltype c) acol = w1 ->
  level (repm BTREE_MCI_MID cs) (mid bt c) h p fp E A F -> A !! w1 = None -> Z.of_nat (size h) < 2 ^ 32 ->
  exists h2 q, walk h k r pre (c :: cs) p dpl = walk h2 k r (pre ++ [c]) cs q (init_dp p acol q :: dpl) /\
    h !! q = None /\ 0 < q < 2 ^ 64 /\ h_holds h2 p (mid bt c) (PNum <$> <[w1 := q]> A) /\
    h_holds h2 q (top BTREE_MCI_MID cs) ∅ /\ (forall x, x <> p -> x <> q -> h2 !! x = h !! x) /\
    size h2 = S (size h).
Proof.
  intros Hcs Hbt Hg He Hok Hv L HA Hsz. pose proof (cols_num pre c cs Hcs) as Hc.
  pose proof (lv_root _ _ _ _ _ _ _ _ L) as Hroot.
  destruct (h_new_ok h (top BTREE_MCI_MID cs) Hsz) as (h1 & q & En & Hfree & Hq & Hset1 & Hs1).
  assert (Hpq : p <> q) by (destruct Hroot as (? & ? & _); congruence).
  assert (Hroot1 : h_holds h1 p (mid bt c) (PNum <$> A))
    by (apply (h_holds_other h); [done|by apply (h_set_other _ _ _ _ _ _ Hset1)]).
  destruct (h_ind_add_ok _ (mid_lawful bt c Hbt Hc) h1 p (PNum <$> A) acol q (PNum q) Hroot1) as (h2 & E2 & Hset2);
    [apply mid_stores; [done..|lia]|by rewrite mid_value, Hv, lookup_fmap, HA|].
  rewrite mid_value, Hv, <- fmap_insert in Hset2 by done.
  exists h2, q. split_and!; [|done|lia|lia|by apply (h_set_holds h1)| | |].
  - cbn [mci_walk]. rewrite Hg. cbn [mbind option_bind]. rewrite He.
    rewrite (level_find bt c cs h p fp E A F acol Hbt Hc Hok L), Hv, HA. cbn [mbind option_bind].
    change (is_null NULL) with true. cbv iota. rewrite (next_tree pre c cs Hcs). cbn [mbind option_bind].
    rewrite En, E2. cbn [mbind option_bind].
    rewrite length_app. cbn [length]. by replace (Z.of_nat (length pre + 1)) with (Z.of_nat (length pre) + 1) by lia.
  - apply (h_holds_other h1); [by apply (h_set_holds h)|]. by apply (h_set_other _ _ _ _ _ _ Hset2), not_eq_sym.
  - intros x Hxp Hxq. by rewrite (h_set_other _ _ _ _ _ _ Hset2), (h_set_other _ _ _ _ _ _ Hset1).
  - by rewrite (h_set_size _ _ _ _ _ _ Hroot1 Hset2).
Qed.

Lemma sub_plus E v ws k w k' : sub v (plus E (v :: ws) k) w k' <-> plus (sub v E) ws k w k'.
Proof.
  unfold sub, plus. split; intros [[Hw ->]|He]; [left|by right|left|by right]; [by injection Hw as ->|].
  by rewrite Hw.
Qed.
Lemma plus_other E v ws k u w k' : u <> v -> plus E (v :: ws) k (u :: w) k' <-> E (u :: w) k'.
Proof. intros Hu. unfold plus. split; [by intros [[[= ? _] _]|?]|by right]. Qed.
Lemma plus_nil bt c cs h p fp E A F v ws k k' : level (repm BTREE_MCI_MID cs) (mid bt c) h p fp E A F ->
  ~ plus E (v :: ws) k [] k'.
Proof. intros L [[? _]|He]; [done|]. by destruct (lv_all _ _ _ _ _ _ _ _ L _ _ He) as (? & ? & ? & _). Qed.

(** The other children of a level. *)
Lemma level_others bt c cs h p fp E A F v u b : level (repm BTREE_MCI_MID cs) (mid bt c) h p fp E A F ->
  u <> v -> A !! u = Some b -> 0 < b < 2 ^ 64 /\ (p ∉ F u) /\ (exists w k, E (u :: w) k) /\
  repm BTREE_MCI_MID cs h b (F u) (sub u E) /\ (is_Some (A !! v) -> F u ## F v).
Proof.
  intros L Hu Hb. destruct (lv_child _ _ _ _ _ _ _ _ L u b Hb) as (G1 & G2 & G3 & G4).
  split_and!; [lia|lia|done|done|done|]. intros Hv. apply (lv_apart _ _ _ _ _ _ _ _ L); [done|by eexists|done].
Qed.

(** The footprint without that of a child. *)
Lemma level_rest bt c cs h p fp E A F v x : level (repm BTREE_MCI_MID cs) (mid bt c) h p fp E A F -> is_Some (A !! v) ->
  x ∈ fp ∖ F v <-> x = p \/ exists u, u <> v /\ is_Some (A !! u) /\ x ∈ F u.
Proof.
  intros L [q Hq]. destruct (lv_child _ _ _ _ _ _ _ _ L v q Hq) as (_ & Hp & _).
  rewrite elem_of_difference, (lv_fp _ _ _ _ _ _ _ _ L). split.
  - intros [[->|(u & Hu & Hx)] Hn]; [by left|right]. exists u. split_and!; [by intros ->|done|done].
  - intros [->|(u & Hu & Hs & Hx)]; [by auto|]. split; [right; by exists u|]. intros Hxv.
    by apply (lv_apart _ _ _ _ _ _ _ _ L u v Hu Hs (ex_intro _ q Hq) x).
Qed.

Lemma leaf_add bt k h p fp E : pk_ok pktyp k -> repm bt [] h p fp E -> ~ E [] k ->
  exists h2, h_node_add h p (pk k) None = Some (h2, true) /\ repm bt [] h2 p fp (plus E [] k) /\
    frame 0 h fp h2 fp.
Proof.
  intros Hk (-> & (m & Hm & Hc) & Hw) Hni. destruct (node_stores pktyp node k Hpk Hnode Hk) as [Hst Hov].
  destruct (h_node_add_ok node leaf_lawful h p m _ NULL Hm Hst) as (h2 & E2 & Hset).
  { rewrite Hov. destruct (m !! k) as [x|] eqn:Em; [|done]. by apply Hc in Em as [_ ?]. }
  rewrite Hov in Hset. exists h2. split; [done|]. split; [|by apply (root_frame _ _ node (<[k := NULL]> m) m)].
  split; [done|]. split.
  - exists (<[k := NULL]> m). split; [by apply (h_set_holds h)|]. intros k' x. rewrite lookup_insert_Some, Hc.
    unfold plus. destruct (decide (k' = k)) as [->|Hne].
    + split; [intros [[_ <-]|[? _]]; [auto|done]|intros [-> _]; by left].
    + split; [intros [[? _]|(_ & -> & ?)]; [done|auto]|intros [-> [[_ ?]|?]]; [done|by right]].
  - intros w k' [[-> _]|Hwk]; [done|by apply (Hw w k')].
Qed.

(** The child of a value is changed, and keeps a pair. *)
Lemma keep_child bt c cs h h2 p q fp fc' E E' A F v n : level (repm BTREE_MCI_MID cs) (mid bt c) h p fp E A F ->
  A !! v = Some q -> frame n h (F v) h2 fc' -> repm BTREE_MCI_MID cs h2 q fc' (sub v E') ->
  (exists w k, E' (v :: w) k) -> (forall u w k, u <> v -> E' (u :: w) k <-> E (u :: w) k) -> (forall k, ~ E' [] k) ->
  repm bt (c :: cs) h2 p ((fp ∖ F v) ∪ fc') E' /\ frame n h fp h2 ((fp ∖ F v) ∪ fc').
Proof.
  intros L HA F2 R2 Hne Heq Hnil. destruct (lv_child _ _ _ _ _ _ _ _ L v q HA) as (Hq & Hpq & _ & Hrq). split.
  - exists A, (fun u => if decide (u = v) then fc' else F u).
    apply (graft _ (repm_keep cs _) (repm_dom cs _) (repm_ext cs _) _ h h2 p A F v q (fp ∖ F v) (F v) fc' n E);
      [apply L|done|done|done| |by intros; apply (lv_apart _ _ _ _ _ _ _ _ L)| |apply L|done..].
    + intros u b Hu Hb. destruct (level_others bt c cs h p fp E A F v u b L Hu Hb) as (G1 & G2 & G3 & G4 & G5).
      split_and!; [lia|lia|done|done|done|apply G5; by eexists].
    + intros x. by apply (level_rest bt c cs h p fp E A F v x L); eexists.
  - apply frame_part; [done|]. intros x Hx. by eapply level_child_fp; [|eexists|].
Qed.
(** A new child with one pair. *)
Lemma sprout bt c cs h h2 h3 p q fp fc' E A F v ws k n : level (repm BTREE_MCI_MID cs) (mid bt c) h p fp E A F ->
  A !! v = None -> h !! q = None -> 0 < q < 2 ^ 64 -> h_holds h2 p (mid bt c) (PNum <$> <[v := q]> A) ->
  (forall x, x <> p -> x <> q -> h2 !! x = h !! x) -> size h2 = S (size h) -> frame n h2 {[q]} h3 fc' ->
  repm BTREE_MCI_MID cs h3 q fc' (plus (fun _ _ => False) ws k) ->
  repm bt (c :: cs) h3 p (fp ∪ fc') (plus E (v :: ws) k) /\ frame (S n) h fp h3 (fp ∪ fc').
Proof.
  intros L HA Hfree Hq Hroot Hsame Hsz F3 R3.
  assert (HF : forall u b, A !! u = Some b -> q ∉ F u).
  { intros u b Hb Hin. destruct (level_dom _ (repm_dom cs _) _ _ _ _ _ _ _ q L) as [? ?]; [|congruence].
    by eapply level_child_fp; [|eexists|]. }
  assert (HA' : forall u b, u <> v -> <[v := q]> A !! u = Some b -> A !! u = Some b).
  { intros u b Hu. by rewrite lookup_insert_ne by done. }
  split.
  - exists (<[v := q]> A), (fun u => if decide (u = v) then fc' else F u).
    apply (graft _ (repm_keep cs _) (repm_dom cs _) (repm_ext cs _) _ h2 h3 p (<[v := q]> A) F v q fp {[q]} fc' n E);
      [done|apply lookup_insert_eq|done| | | | | |done| |by exists ws, k; left|by intros; apply plus_other|
       by intros; eapply plus_nil].
    + intros ->%elem_of_singleton. destruct (lv_root _ _ _ _ _ _ _ _ L) as (? & ? & _). congruence.
    + intros u b Hu Hb. apply HA' in Hb; [|done].
      destruct (level_others bt c cs h p fp E A F v u b L Hu Hb) as (G1 & G2 & G3 & G4 & _).
      split_and!; [lia|lia|done|done| |by intros x Hx ->%elem_of_singleton; apply (HF u b)].
      apply (repm_keep _ _ h); [done|]. intros x Hx. apply Hsame; [by intros ->|intros ->; by apply (HF u b)].
    + intros u1 u2 Hne Hu1 Hu2 [b1 Hb1%HA'] [b2 Hb2%HA']; [|done..]. apply (lv_apart _ _ _ _ _ _ _ _ L); [done|by eexists..].
    + intros x. rewrite (lv_fp _ _ _ _ _ _ _ _ L). split; (intros [->|(u & Hu)]; [by left|right; exists u]).
      * destruct Hu as [Hs Hx]. assert (Hu : u <> v) by (intros ->; destruct Hs; congruence).
        by rewrite lookup_insert_ne by done.
      * destruct Hu as (Hu & [b Hb%HA'] & Hx); [by split; [eexists|]|done].
    + intros w k' Hw. destruct (lv_all _ _ _ _ _ _ _ _ L w k' Hw) as (u & w' & -> & Hs). exists u, w'.
      split; [done|]. apply lookup_insert_is_Some'. by right.
    + apply (repm_ext _ _ _ _ _ (plus (fun _ _ => False) ws k)); [done|]. intros w k'. rewrite sub_plus. unfold plus.
      split; [intros [?|[]]; by left|]. intros [?|Hw]; [by left|].
      destruct (lv_all _ _ _ _ _ _ _ _ L _ _ Hw) as (u & w' & [= <- <-] & [? ?]). congruence.
  - split.
    + intros x Hx [y Hy]. assert (Hxq : x <> q) by congruence.
      rewrite (fr_other _ _ _ _ _ F3) by (try (by intros ?%elem_of_singleton); rewrite Hsame by
        (try done; intros ->; apply Hx, (lv_fp _ _ _ _ _ _ _ _ L); by left); by eexists).
      apply Hsame; [|done]. intros ->. apply Hx, (lv_fp _ _ _ _ _ _ _ _ L). by left.
    + intros x [?|Hx]%elem_of_union; [by left|].
      destruct (decide (x = p)) as [->|Hxp]; [left; apply (lv_fp _ _ _ _ _ _ _ _ L); by left|].
      destruct (fr_fresh _ _ _ _ _ F3 x Hx) as [->%elem_of_singleton|Hn]; [by right|].
      destruct (decide (x = q)) as [->|Hxq]; [by right|]. right. by rewrite <- Hsame.
    + pose proof (fr_size _ _ _ _ _ F3). lia.
Qed.

Lemma walk_ok k r (Hk : pk_ok pktyp k) cs : forall bt pre ws h p fp E dpl,
  ri_bclist ri = pre ++ cs -> mid_kind bt -> Forall2 (colval k r) cs ws -> repm bt cs h p fp E -> ~ E ws k ->
  Z.of_nat (length cs + size h) < 2 ^ 32 ->
  exists h1 q dpl' h2 fp', walk h k r pre cs p dpl = Some (h1, false, q, dpl') /\
    h_node_add h1 q (pk k) None = Some (h2, true) /\ repm bt cs h2 p fp' (plus E ws k) /\
    frame (length cs) h fp h2 fp'.
Proof.
  induction cs as [|c cs IH]; intros bt pre ws h p fp E dpl Hcs Hbt Hws Hrep Hni Hsz.
  { apply Forall2_nil_inv_l in Hws as ->. destruct (leaf_add bt k h p fp E Hk Hrep Hni) as (h2 & E2 & R2 & F2).
    exists h, p, dpl, h2, fp. done. }
  apply Forall2_cons_inv_l in Hws as (w1 & ws' & (acol & Hg & He & Hok & Hv) & Hws' & ->).
  destruct Hrep as (A & F & L). assert (Hmid : mid_kind BTREE_MCI_MID) by (by right).
  assert (Hcs' : ri_bclist ri = (pre ++ [c]) ++ cs) by (by rewrite <- app_assoc).
  destruct (A !! w1) as [q|] eqn:HA.
  - rewrite (walk_known bt pre c cs k r acol w1 h p fp E A F q dpl) by done.
    destruct (lv_child _ _ _ _ _ _ _ _ L w1 q HA) as (Hq & Hpq & _ & Hrq).
    destruct (IH BTREE_MCI_MID (pre ++ [c]) ws' h q (F w1) (sub w1 E) (init_dp p acol q :: dpl))
      as (h1 & q1 & dpl' & h2 & fc' & Ew & Ea & R2 & F2); [done..|cbn in Hsz; lia|].
    destruct (keep_child bt c cs h h2 p q fp fc' E (plus E (w1 :: ws') k) A F w1 (length cs)) as [R' F'];
      [done..| |by exists ws', k; left|by intros; apply plus_other|by intros; eapply plus_nil|].
    { apply (repm_ext _ _ _ _ _ (plus (sub w1 E) ws' k)); [done|]. intros. symmetry. apply sub_plus. }
    exists h1, q1, dpl', h2, ((fp ∖ F w1) ∪ fc'). split_and!; [done..|]. by apply (frame_weak (length cs)); [|cbn; lia].
  - destruct (walk_fresh bt pre c cs k r acol w1 h p fp E A F dpl) as (h2 & q & -> & Hfree & Hq & Hr2 & Hq2 & Hs2 & Hz2);
      [done..|lia|].
    destruct (IH BTREE_MCI_MID (pre ++ [c]) ws' h2 q {[q]} (fun _ _ => False) (init_dp p acol q :: dpl))
      as (h3 & q1 & dpl' & h4 & fc' & Ew & Ea & R4 & F4); [done..|by apply repm_empty|by intros []|cbn in Hsz; lia|].
    destruct (sprout bt c cs h h2 h4 p q fp fc' E A F w1 ws' k (length cs)) as [R' F']; [done..|].
    by exists h3, q1, dpl', h4, (fp ∪ fc').
Qed.

(** *** Deleting a row *)

Definition minus (E : rel) (ws : list Z) (k : Z) : rel := fun w k' => E w k' /\ ~ (w = ws /\ k' = k).
(** [n] keys are left, none exactly when no pair is. *)
Definition left_over (n : Z) (E : rel) : Prop := n = 0 /\ (forall w k, ~ E w k) \/ n <> 0 /\ exists w k, E w k.

Lemma sub_minus E v ws k w k' : sub v (minus E (v :: ws) k) w k' <-> minus (sub v E) ws k w k'.
Proof. unfold sub, minus. split; intros [He Hn]; (split; [done|]); intros [Hw ->]; apply Hn; by simplify_eq. Qed.
Lemma minus_other E v ws k u w k' : u <> v -> minus E (v :: ws) k (u :: w) k' <-> E (u :: w) k'.
Proof. intros Hu. unfold minus. split; [tauto|]. intros He. split; [done|]. by intros [[= ? _] _]. Qed.

Lemma up_stop null h q n dpl : n <> 0 -> mci_up null h q n dpl = Some h.
Proof. intros Hn. destruct dpl as [|d dpl]; [done|]. cbn [mci_up]. by rewrite (proj2 (Z.eqb_neq _ _)). Qed.

Lemma left_leaf N E (m : gmap Z cptr) : few N E -> Z.of_nat N < 2 ^ 32 ->
  (forall k x, m !! k = Some x <-> x = NULL /\ E [] k) -> (forall w k, E w k -> w = []) ->
  left_over (u32 (Z.of_nat (size m))) E.
Proof.
  intros Hf HN Hc Hw.
  assert (Hs : (size m <= N)%nat) by (apply (few_leaf N E); [done|]; intros k [x Hx]; by apply Hc in Hx as [_ ?]).
  rewrite uwrap_small by lia. destruct (decide (m = ∅)) as [->|Hne].
  - left. rewrite map_size_empty. split; [done|]. intros w k Hwk. pose proof (Hw w k Hwk) as ->.
    assert (Hn : (∅ : gmap Z cptr) !! k = Some NULL) by (by apply Hc). by rewrite lookup_empty in Hn.
  - right. split; [intros Hz; apply Hne, map_size_empty_inv; lia|]. destruct (map_choose m Hne) as (k & x & [_ Hx]%Hc).
    by exists [], k.
Qed.

Lemma left_level bt c cs h p fp N E A F : few N E -> Z.of_nat N < 2 ^ 32 ->
  level (repm BTREE_MCI_MID cs) (mid bt c) h p fp E A F -> left_over (u32 (Z.of_nat (size (PNum <$> A)))) E.
Proof.
  intros Hf HN L. assert (Hs : (size A <= N)%nat).
  { apply (few_map N E); [done|]. intros v [q Hq]. by apply (lv_child _ _ _ _ _ _ _ _ L v q). }
  rewrite map_size_fmap, uwrap_small by lia. destruct (decide (A = ∅)) as [->|Hne].
  - left. rewrite map_size_empty. split; [done|]. intros w k Hw.
    destruct (lv_all _ _ _ _ _ _ _ _ L w k Hw) as (v & w' & _ & [q Hq]). by rewrite lookup_empty in Hq.
  - right. split; [intros Hz; apply Hne, map_size_empty_inv; lia|]. destruct (map_choose A Hne) as (v & q & Hq).
    destruct (lv_child _ _ _ _ _ _ _ _ L v q Hq) as (_ & _ & (w & k & Hw) & _). by exists (v :: w), k.
Qed.

Lemma leaf_remove bt k h p fp N E : kept node = true -> pk_ok pktyp k -> repm bt [] h p fp E -> E [] k -> few N E -> Z.of_nat N < 2 ^ 32 ->
  exists h1 n, h_node_delete h p (pk k) None = Some (h1, n) /\ repm bt [] h1 p fp (minus E [] k) /\
    frame 0 h fp h1 fp /\ left_over n (minus E [] k).
Proof.
  intros Hkn Hk (-> & (m & Hm & Hc) & Hw) Hin Hf HN. destruct (node_stores pktyp node k Hpk Hnode Hk) as [Hst Hov].
  destruct (h_node_delete_ok node leaf_lawful h p m (pk k) Hkn Hm (proj1 Hst)) as (h1 & n & E1 & Hset & ->).
  { rewrite Hov. exists NULL. by apply Hc. }
  rewrite Hov in Hset. rewrite Hov in E1.
  assert (Hc' : forall k' x, delete k m !! k' = Some x <-> x = NULL /\ minus E [] k [] k').
  { intros k' x. rewrite lookup_delete_Some, Hc. unfold minus. split.
    - intros (Hne & -> & He). split_and!; [done|done|]. intros [_ ->]. done.
    - intros (-> & He & Hne). split_and!; [|done|done]. intros <-. by apply Hne. }
  assert (Hw' : forall w k', minus E [] k w k' -> w = []) by (intros w k' [He _]; by apply (Hw w k')).
  eexists h1, _. split; [exact E1|]. split_and!.
  - split; [done|]. split; [|done]. exists (delete k m). split; [by apply (h_set_holds h)|done].
  - by apply (root_frame _ _ node (delete k m) m).
  - apply (left_leaf N); [by apply (few_less N E); [|intros w k' [? _]]|done..].
Qed.

(** The child of a value loses its last pair, and goes. *)
Lemma drop_child bt c cs h h2 h3 p q fp fc' E A F v ws k : level (repm BTREE_MCI_MID cs) (mid bt c) h p fp E A F ->
  A !! v = Some q -> frame 0 h (F v) h2 fc' -> (forall w k', ~ minus (sub v E) ws k w k') ->
  h_set h2 p (mid bt c) (PNum <$> delete v A) h3 -> size h3 = size h2 ->
  level (repm BTREE_MCI_MID cs) (mid bt c) (bt_destroy h3 q) p (fp ∖ F v) (minus E (v :: ws) k) (delete v A) F /\
  frame 0 h fp (bt_destroy h3 q) (fp ∖ F v).
Proof.
  intros L HA F2 Hno Hset Hsz. destruct (lv_child _ _ _ _ _ _ _ _ L v q HA) as (Hq & Hpv & _ & Hrq).
  pose proof (repm_in _ _ _ _ _ _ Hrq) as Hqv. assert (Hpq : p <> q) by (by intros ->).
  assert (Hkeep : forall x, x ∉ F v -> x <> p -> is_Some (h !! x) -> bt_destroy h3 q !! x = h !! x).
  { intros x Hx Hxp Hs. unfold bt_destroy. rewrite lookup_delete_ne by (by intros ->).
    rewrite (h_set_other _ _ _ _ _ _ Hset) by done. by apply (fr_other _ _ _ _ _ F2). }
  split.
  - apply (prune _ (repm_ext cs _) _ _ _ _ _ _ _ E).
    + apply (h_holds_other h3); [by apply (h_set_holds h2)|]. unfold bt_destroy. by rewrite lookup_delete_ne.
    + intros u b Hu Hb. destruct (level_others bt c cs h p fp E A F v u b L Hu Hb) as (G1 & G2 & G3 & G4 & G5).
      split_and!; [lia|lia|done|done|]. apply (repm_keep _ _ h); [done|]. intros x Hx.
      apply Hkeep; [|by intros ->|by apply (repm_dom _ _ _ _ _ _ _ G4)]. intros Hxv.
      by apply (G5 (ex_intro _ q HA) x).
    + intros. by apply (lv_apart _ _ _ _ _ _ _ _ L).
    + intros x. by apply (level_rest bt c cs h p fp E A F v x L); eexists.
    + apply L.
    + intros. by apply minus_other.
    + by intros w k' [? _].
    + intros w k' Hw. by apply (Hno w k'), sub_minus.
  - split.
    + intros x Hx Hs. apply Hkeep; [intros Hin; apply Hx; by eapply level_child_fp; [|eexists|]| |done].
      intros ->. apply Hx, (lv_fp _ _ _ _ _ _ _ _ L). by left.
    + intros x [? _]%elem_of_difference. by left.
    + pose proof (fr_size _ _ _ _ _ F2). unfold bt_destroy. rewrite map_size_delete. destruct (h3 !! q); unfold id; lia.
Qed.


Lemma mci_find_step bt pre c cs k r acol w1 h p fp E A F q dpl : ri_bclist ri = pre ++ c :: cs -> mid_kind bt ->
  getcol c (pk k) r = Some acol -> ao_empty acol = false -> ao_ok acol -> val_of (coltype c) acol = w1 ->
  level (repm BTREE_MCI_MID cs) (mid bt c) h p fp E A F -> A !! w1 = Some q ->
  mci_find getcol h (pk k) r (c :: cs) p dpl = mci_find getcol h (pk k) r cs q (init_dp p acol q :: dpl).
Proof.
  intros Hcs Hbt Hg He Hok Hv L HA. cbn [mci_find]. rewrite Hg. cbn [mbind option_bind]. rewrite He.
  rewrite (level_find bt c cs h p fp E A F acol Hbt (cols_num pre c cs Hcs) Hok L), Hv, HA. cbn [mbind option_bind].
  by rewrite (proj2 (addr_ptr q (proj1 (lv_child _ _ _ _ _ _ _ _ L w1 q HA)))).
Qed.

Lemma level_root_kept bt c cs h h2 p fp E A F v fc n : level (repm BTREE_MCI_MID cs) (mid bt c) h p fp E A F ->
  p ∉ F v -> frame n h (F v) h2 fc -> h_holds h2 p (mid bt c) (PNum <$> A).
Proof.
  intros L Hp F2. apply (h_holds_other h); [apply L|]. apply (fr_other _ _ _ _ _ F2); [done|].
  destruct (lv_root _ _ _ _ _ _ _ _ L) as (x & Hx & _). by exists (HTree _ x).
Qed.

Lemma remove_ok k r (Hkn : kept node = true) (Hk : pk_ok pktyp k) N (HN : Z.of_nat N < 2 ^ 32) cs : forall bt pre ws h p fp E dpl,
  ri_bclist ri = pre ++ cs -> mid_kind bt -> Forall2 (colval k r) cs ws -> repm bt cs h p fp E -> E ws k -> few N E ->
  exists q dpl' h1 n1 h2 n2 fp', mci_find getcol h (pk k) r cs p dpl = Some (Some (q, dpl')) /\
    h_node_delete h q (pk k) None = Some (h1, n1) /\
    mci_up false h1 q n1 dpl' = mci_up false h2 p n2 dpl /\
    repm bt cs h2 p fp' (minus E ws k) /\ frame 0 h fp h2 fp' /\ left_over n2 (minus E ws k).
Proof.
  induction cs as [|c cs IH]; intros bt pre ws h p fp E dpl Hcs Hbt Hws Hrep Hin Hf.
  { apply Forall2_nil_inv_l in Hws as ->. destruct (leaf_remove bt k h p fp N E) as (h1 & n & E1 & R1 & F1 & Hl); [done..|].
    by exists p, dpl, h1, n, h1, n, fp. }
  apply Forall2_cons_inv_l in Hws as (w1 & ws' & (acol & Hg & He & Hok & Hv) & Hws' & ->).
  destruct Hrep as (A & F & L). pose proof (cols_num pre c cs Hcs) as Hc.
  destruct (lv_all _ _ _ _ _ _ _ _ L _ _ Hin) as (v & w' & [= <- <-] & [q0 HA]).
  destruct (lv_child _ _ _ _ _ _ _ _ L w1 q0 HA) as (Hq & Hpq & _ & Hrq).
  destruct (IH BTREE_MCI_MID (pre ++ [c]) ws' h q0 (F w1) (sub w1 E) (init_dp p acol q0 :: dpl))
    as (q & dpl' & h1 & n1 & h2 & n2 & fc' & Ef & Ed & Eu & R2 & F2 & Hl);
    [by rewrite <- app_assoc|by right|done..|by apply few_sub|].
  rewrite <- (mci_find_step bt pre c cs k r acol w1 h p fp E A F q0 dpl) in Ef by done.
  destruct Hl as [[-> Hno]|[Hn2 (w & k' & Hw)]].
  - destruct (h_ind_delete_ok _ (mid_lawful bt c Hbt Hc) h2 p (PNum <$> A) acol (index_kept _ _ _ Hc)) as (h3 & n3 & E3 & Hset3 & Hn3).
    { by apply (level_root_kept bt c cs h h2 p fp E A F w1 fc' 0). }
    { by apply (mid_stores bt c acol 1); [..|lia]. }
    { rewrite mid_value, Hv, lookup_fmap, HA by done. by eexists. }
    rewrite mid_value, Hv, <- fmap_delete in Hset3, Hn3 by done.
    destruct (drop_child bt c cs h h2 h3 p q0 fp fc' E A F w1 ws' k) as [L' F']; [done..| |].
    { eapply h_set_size; [|done]. by apply (level_root_kept bt c cs h h2 p fp E A F w1 fc' 0). }
    exists q, dpl', h1, n1, (bt_destroy h3 q0), n3, (fp ∖ F w1). split_and!; [done|done| |by eexists _, _|done|].
    + rewrite Eu. cbn [mci_up]. cbn [Z.eqb dp_ibtr dp_acol init_dp]. by rewrite E3.
    + rewrite Hn3. apply (left_level bt c cs (bt_destroy h3 q0) p (fp ∖ F w1) N _ (delete w1 A) F); [|done..].
      by apply (few_less N E); [|intros w k' [? _]].
  - destruct (keep_child bt c cs h h2 p q0 fp fc' E (minus E (w1 :: ws') k) A F w1 0) as [R' F'];
      [done..| |by exists w, k'; apply sub_minus|by intros; apply minus_other| |].
    { apply (repm_ext _ _ _ _ _ (minus (sub w1 E) ws' k)); [done|]. intros. symmetry. apply sub_minus. }
    { intros k0 [He0 _]. by destruct (lv_all _ _ _ _ _ _ _ _ L _ _ He0) as (? & ? & ? & _). }
    exists q, dpl', h1, n1, h2, 1, ((fp ∖ F w1) ∪ fc'). split_and!; [done|done| |done|done|].
    + by rewrite Eu, !up_stop.
    + right. split; [done|]. exists (w1 :: w), k'. by apply sub_minus.
Qed.
End MciLaws.

(** ** The interface *)

Section Multi.
Context `{MallocLaws} (floor_log2 : Z -> Z) (luatAdd luatDel : r_ind_t -> aobj -> cptr -> heap -> heap).
Context (getcol : Z -> aobj -> cptr -> option aobj) (pktyp : Z) (coltype : Z -> Z).
Context (Hpk : C_IS_NUM pktyp = true).
Context (ri : r_ind_t) (Hri : multi coltype ri).
#[local] Abbreviation pk k := (pk_obj pktyp k).
#[local] Abbreviation add h k r := (addToIndex floor_log2 luatAdd getcol pktyp coltype h ri (pk k) r).
#[local] Abbreviation del h k r := (delFromIndex floor_log2 luatDel getcol h ri (pk k) r false).
#[local] Abbreviation keyed k r v := (keyedm getcol pktyp coltype ri k r v).

Definition rep_multi (h : heap) (fp : gset Z) (E : pairs) : Prop :=
  exists node, createIndexNode pktyp COL_TYPE_NONE = Some node /\
    repm coltype ri node BTREE_MCI (ri_bclist ri) h (ri_btr ri) fp (fun w k => (w, k) ∈ E).

Lemma cols_all : mci_cols ri = ri_bclist ri.
Proof. unfold mci_cols, mci_depth, nclist. rewrite (mu_cnstr _ _ Hri). apply take_ge. lia. Qed.

Lemma to_multi h k r :
  add h k r = iAddMCI getcol pktyp coltype h ri (pk k) r None /\ del h k r = iRemMCI getcol h ri (pk k) r None false.
Proof.
  unfold addToIndex, delFromIndex, ri_clist, obcol. rewrite (mu_plain _ _ Hri), (mu_hlt _ _ Hri), (mu_obc _ _ Hri).
  destruct (ri_bclist ri) eqn:E; [by destruct (mu_cols _ _ Hri)|done].
Qed.

Lemma keyedm_fun k r v1 v2 : keyed k r v1 -> keyed k r v2 -> v1 = v2.
Proof.
  assert (Hmix : forall c acol ws, head (ri_bclist ri) = Some c -> getcol c (pk k) r = Some acol ->
    ao_empty acol = true -> ~ Forall2 (colval getcol pktyp coltype k r) (ri_bclist ri) ws).
  { intros c acol ws Hhd Hg He Hf. destruct (ri_bclist ri) as [|c0 cs]; [done|]. injection Hhd as ->.
    apply Forall2_cons_inv_l in Hf as (w & ws' & (acol' & Hg' & He' & _) & _). congruence. }
  destruct v1 as [ws1|], v2 as [ws2|]; cbn [keyedm];
    [|intros Hf (c & acol & ? & ? & ?); by destruct (Hmix c acol ws1)|
      intros (c & acol & ? & ? & ?) Hf; by destruct (Hmix c acol ws2)|done].
  intros Hf1 Hf2. f_equal. revert ws2 Hf2. clear Hmix.
  induction Hf1 as [|c w1 cs ws1 Hc1 _ IH]; intros ws2 Hf2; [by apply Forall2_nil_inv_l in Hf2|].
  apply Forall2_cons_inv_l in Hf2 as (w2 & ws2' & Hc2 & Hf2 & ->).
  destruct Hc1 as (a1 & E1 & _ & _ & <-), Hc2 as (a2 & E2 & _ & _ & <-).
  rewrite E1 in E2. injection E2 as <-. f_equal. by apply IH.
Qed.

Lemma out_multi h k r : keyed k r None -> add h k r = Some (h, true) /\ del h k r = Some h.
Proof.
  intros (c & acol & Hhd & Hg & He). destruct (to_multi h k r) as [-> ->]. unfold iAddMCI, iRemMCI.
  rewrite cols_all. destruct (ri_bclist ri) as [|c0 cs] eqn:E; [done|]. injection Hhd as ->.
  cbn [mci_walk mci_find]. rewrite Hg. cbn [mbind option_bind]. rewrite He. done.
Qed.

Lemma multi_laws : IndexLaws floor_log2 luatAdd luatDel getcol pktyp coltype ri false (length (ri_bclist ri))
  (keyedm getcol pktyp coltype ri) rep_multi.
Proof.
  split.
  - pose proof (mu_plain _ _ Hri). rewrite (mu_hlt _ _ Hri). by destruct (ri_virt ri).
  - apply keyedm_fun.
  - intros h h' fp E (node & Hn & R) Hk. exists node. split; [done|]. by apply (repm_keep _ _ _ _ _ h).
  - intros h fp E p (node & Hn & R). by apply (repm_dom _ _ _ _ _ _ _ _ _ _ R).
  - apply out_multi.
  - intros h fp E k r ws (node & Hn & R) Hws Hk Hsz Hni _. destruct (to_multi h k r) as [-> _].
    destruct (walk_ok getcol pktyp coltype Hpk ri Hri node Hn k r Hk (ri_bclist ri) BTREE_MCI [] ws h (ri_btr ri) fp
      (fun w k' => (w, k') ∈ E) []) as (h1 & q & dpl & h2 & fp' & Ew & Ea & R2 & F2); [done|by left|done..|].
    exists h2, fp'. split; [|split; [|done]].
    + unfold iAddMCI. rewrite cols_all. change 0 with (Z.of_nat (length (@nil Z))). rewrite Ew. cbn [mbind option_bind].
      rewrite (mu_cnstr _ _ Hri), Ea. done.
    + exists node. split; [done|]. apply (repm_ext _ _ _ _ _ _ _ _ _ _ R2). intros w k'. rewrite pairs_add.
      unfold plus. split; [intros [[-> ->]|?]; auto|intros [[= -> ->]|?]; auto].
  - done.
Qed.

Lemma multi_del : C_IS_X pktyp = false ->
  DeleteLaw floor_log2 luatDel getcol pktyp ri (keyedm getcol pktyp coltype ri) rep_multi.
Proof.
  intros Hx h fp E k r ws (node & Hn & R) Hws Hk Hsz Hin. destruct (to_multi h k r) as [_ ->].
  pose proof (node_word_kept pktyp node Hpk Hx Hn) as Hkn.
  destruct (remove_ok getcol pktyp coltype Hpk ri Hri node Hn k r Hkn Hk (size E) Hsz (ri_bclist ri) BTREE_MCI [] ws h
    (ri_btr ri) fp (fun w k' => (w, k') ∈ E) []) as (q & dpl & h1 & n1 & h2 & n2 & fp' & Ef & Ed & Eu & R2 & F2 & _);
    [done|by left|done..|apply few_set|].
  exists h2, fp'. split; [|split; [|done]].
  + unfold iRemMCI. rewrite cols_all, Ef. cbn [mbind option_bind]. rewrite (mu_cnstr _ _ Hri), Ed.
    cbn [mbind option_bind]. rewrite Eu. done.
  + exists node. split; [done|]. apply (repm_ext _ _ _ _ _ _ _ _ _ _ R2). intros w k'. rewrite pairs_del.
    unfold minus. split; (intros [? Hd]; split; [done|]); [intros [= -> ->]; by apply Hd|intros [-> ->]; by apply Hd].
Qed.
End Multi.
