(* ===== verification/OrderBy.v ===== *)
(** * ORDER BY ([DB/orderby.c])

    A query with an ORDER BY that no index serves queues its rows, each with the
    keys of the ORDER BY columns, and sorts them with [qsort].  A key is a
    [void *]: an INT, LONG or the bits of a FLOAT directly, a TEXT or U128 by
    address.  [qsort] is the C library's: a parameter that puts the rows in order
    when the comparison is one. *)

From Stdlib Require Import Sorting.Sorted.
From S2P Require Import Prelude Stream CStr Row Aobj Filter.

(** ** Keys *)

(** The key is a word, NULL included, or points to a text or to a U128; the
    address of a text matters when the other key is NULL. *)
Inductive obkey :=
| K_WORD (w : Z)
| K_STR (addr : Z) (s : list Z)
| K_X (x : Z).

Definition word (k : obkey) : option Z := match k with K_WORD w => Some w | _ => None end.
Definition xval (k : obkey) : option Z := match k with K_X x => Some x | _ => None end.
(** A [char *]: its address, and its characters up to the terminator. *)
Definition cptr_of (k : obkey) : option (Z * option (list Z)) :=
  match k with
  | K_WORD 0 => Some (0, None)
  | K_STR p s => Some (p, Some s)
  | _ => None
  end.

(** The sign of [strcmp] on strings without their terminators. *)
Fixpoint strcmp (s1 s2 : list Z) : Z :=
  match s1, s2 with
  | [], [] => 0
  | [], _ :: _ => -1
  | _ :: _, [] => 1
  | c1 :: s1, c2 :: s2 => if c1 =? c2 then strcmp s1 s2 else if c1 <? c2 then -1 else 1
  end.

(** ** Comparators *)

(** The difference of two [long]s, returned as an [int]. *)
Definition int_diff (w1 w2 : Z) : Z := s32 (s64 w1 - s64 w2).
Definition intOrderBySort (s1 s2 : obkey) : option Z := w1 ← word s1; w2 ← word s2; Some (int_diff w1 w2).
Definition intOrderByRevSort (s1 s2 : obkey) : option Z := w1 ← word s1; w2 ← word s2; Some (int_diff w2 w1).

Definition ob_cmp3 (x1 x2 gt lt : Z) : Z := if x1 =? x2 then 0 else if x2 <? x1 then gt else lt.
Definition ulongOrderBySort (s1 s2 : obkey) : option Z := w1 ← word s1; w2 ← word s2; Some (ob_cmp3 w1 w2 1 (-1)).
Definition ulongOrderByRevSort (s1 s2 : obkey) : option Z := w1 ← word s1; w2 ← word s2; Some (ob_cmp3 w1 w2 (-1) 1).
Definition u128OrderBySort (s1 s2 : obkey) : option Z := x1 ← xval s1; x2 ← xval s2; Some (ob_cmp3 x1 x2 1 (-1)).
Definition u128OrderByRevSort (s1 s2 : obkey) : option Z := x1 ← xval s1; x2 ← xval s2; Some (ob_cmp3 x1 x2 (-1) 1).

(** The float is in the low four bytes of the pointer. *)
Definition floatOrderBySort (s1 s2 : obkey) : option Z :=
  w1 ← word s1; w2 ← word s2; Some (f32_sign (f32_sub (u32 w1) (u32 w2))).
Definition floatOrderByRevSort (s1 s2 : obkey) : option Z :=
  w1 ← word s1; w2 ← word s2; Some (f32_sign (f32_sub (u32 w2) (u32 w1))).

(** With a NULL it is the difference of the addresses, returned as an [int]. *)
Definition str_sort (s1 s2 : obkey) : option Z :=
  '(p1, c1) ← cptr_of s1; '(p2, c2) ← cptr_of s2;
  match c1, c2 with
  | Some c1, Some c2 => Some (strcmp c1 c2)
  | _, _ => Some (s32 (p1 - p2))
  end.
Definition stringOrderBySort (s1 s2 : obkey) : option Z := str_sort s1 s2.
Definition stringOrderByRevSort (s1 s2 : obkey) : option Z := str_sort s2 s1.

Definition ob_cmp : Type := obkey -> obkey -> option Z.
Definition OB_cmp : list (option ob_cmp) :=
  [None; None;
   Some intOrderByRevSort; Some intOrderBySort;
   Some ulongOrderByRevSort; Some ulongOrderBySort;
   Some stringOrderByRevSort; Some stringOrderBySort;
   Some floatOrderByRevSort; Some floatOrderBySort;
   Some u128OrderByRevSort; Some u128OrderBySort;
   Some ulongOrderByRevSort; Some ulongOrderBySort].

(** The globals [OB_asc] and [OB_ctype], a pair for each of the [OB_nob] columns. *)
Definition ob_cols : Type := list (bool * Z).

(** ** Rows *)

(** What is queued of a row: the reply or the key, the keys, the primary key and
    where its LRU and LFU columns are. *)
Record obsl_t (R : Type) := Obsl {
  ob_row : option R; ob_keys : list obkey; ob_apk : option aobj;
  ob_lruc : option Z; ob_lrud : bool; ob_lfuc : option Z; ob_lfu : bool;
}.
Arguments Obsl {R}.
Arguments ob_row {R}. Arguments ob_keys {R}. Arguments ob_apk {R}.
Arguments ob_lruc {R}. Arguments ob_lrud {R}. Arguments ob_lfuc {R}. Arguments ob_lfu {R}.

(** The keys [malloc] gives are not initialised; every caller assigns them all. *)
Definition create_obsl {R} (row : option R) (keys : list obkey) : obsl_t R := Obsl row keys None None false None false.

(** The comparison of the keys from column [j] on. *)
Fixpoint ob_loop (cols : ob_cols) (k1 k2 : list obkey) (ret : Z) : option Z :=
  match cols with
  | [] => Some ret
  | (asc, ctype) :: cols =>
      compar ← mjoin (OB_cmp !! Z.to_nat (ctype * 2 + (if asc : bool then 1 else 0)));
      a ← head k1; b ← head k2;
      ret ← compar a b;
      if negb (ret =? 0) then Some ret else ob_loop cols (tail k1) (tail k2) ret
  end.
Definition genOBsort {R} (cols : ob_cols) (o1 o2 : obsl_t R) : option Z := ob_loop cols (ob_keys o1) (ob_keys o2) 0.

(** [initOBsort]: the globals; a Lua expression counts as a Lua column. *)
Definition initOBsort (obs : list (bool * Z * bool)) : ob_cols :=
  (fun '(asc, ctype, le) => (asc, if (le : bool) then COL_TYPE_LUAO else ctype)) <$> obs.

(** [cloneOb]; the copy of a TEXT is at a new address. *)
Definition cloneObKey (ctype : Z) (addr : Z) (k : obkey) : option obkey :=
  match k with
  | K_WORD 0 => Some (K_WORD 0)
  | _ =>
      if C_IS_S ctype then match k with K_STR _ s => Some (K_STR addr s) | _ => None end
      else if C_IS_X ctype then match k with K_X x => Some (K_X x) | _ => None end
      else Some k
  end.
Fixpoint cloneObKeys (cols : ob_cols) (addrs : list Z) (ks : list obkey) : option (list obkey) :=
  match cols, addrs, ks with
  | (_, ctype) :: cols, p :: addrs, k :: ks =>
      k ← cloneObKey ctype p k; ks ← cloneObKeys cols addrs ks; Some (k :: ks)
  | [], _, _ => Some []
  | _, _, _ => None
  end.
Definition cloneOb {R} (cols : ob_cols) (addrs : list Z) (ob : obsl_t R) : option (obsl_t R) :=
  ks ← cloneObKeys cols addrs (ob_keys ob);
  apk ← (match ob_apk ob with None => Some None | Some a => a ← cloneAobj a; Some (Some a) end);
  Some (Obsl None ks apk (ob_lruc ob) (ob_lrud ob) (ob_lfuc ob) (ob_lfu ob)).

(** The key of a column of a row; [malloc] places a TEXT at [addr].  Lua columns,
    answered by the interpreter, give a number or an error. *)
Definition assignObKey (getcol : Z -> option aobj) (lua_key : Z -> option Z) (ctype cm : Z) (nlo : bool) (addr : Z)
    : option (option obkey) :=
  ao ← getcol cm;
  if C_IS_I ctype then Some (Some (K_WORD (ao_i ao)))
  else if C_IS_L ctype then Some (Some (K_WORD (ao_l ao)))
  else if C_IS_X ctype then Some (Some (K_X (ao_x ao)))
  else if C_IS_F ctype then Some (Some (K_WORD (ao_f ao)))
  else if C_IS_S ctype then s ← ao_str ao; Some (Some (K_STR addr (cstring (s ++ [0]))))
  else if C_IS_O ctype && nlo then
    match lua_key cm with Some w => Some (Some (K_WORD w)) | None => Some None end
  else None.

(** The key of a column without a value; the smallest positive float for FLOAT. *)
Definition FLT_MIN_BITS : Z := 8388608.
Definition assignObEmptyKey (ctype : Z) : option obkey :=
  if C_IS_NUM ctype then Some (K_WORD 0)
  else if C_IS_F ctype then Some (K_WORD FLT_MIN_BITS)
  else if C_IS_S ctype then Some (K_WORD 0)
  else None.

(** ** Sorting *)

(** [qsort] of the C library. *)
Class QSort := qsort : forall A, (A -> A -> option Z) -> list A -> list A.
Arguments qsort {_ A}.

(** A comparison that is an order on some rows. *)
Record ordered {A} (cmp : A -> A -> option Z) (P : A -> Prop) : Prop := {
  od_total : forall a b, P a -> P b -> exists r, cmp a b = Some r /\ exists r', cmp b a = Some r' /\ (r < 0 <-> 0 < r') /\ (r = 0 <-> r' = 0);
  od_trans : forall a b c r1 r2 r3, P a -> P b -> P c -> cmp a b = Some r1 -> cmp b c = Some r2 -> cmp a c = Some r3 ->
    r1 <= 0 -> r2 <= 0 -> r3 <= 0;
}.
Definition below {A} (cmp : A -> A -> option Z) (a b : A) : Prop := exists r, cmp a b = Some r /\ r <= 0.

(** It permutes the elements, and sorts them when the comparison is an order. *)
Class QSortLaws `{QSort} : Prop := {
  qsort_perm : forall A (cmp : A -> A -> option Z) l, Permutation (qsort cmp l) l;
  qsort_sorts : forall A (cmp : A -> A -> option Z) l, ordered cmp (fun a => a ∈ l) -> StronglySorted (below cmp) (qsort cmp l);
}.

Section Vector.
Context `{QSort} {R : Type} (cols : ob_cols).

(** The queued rows in the order they were added; a failed comparison is a read
    through a wrong pointer inside [qsort]. *)
Definition comparable_all (ll : list (obsl_t R)) : bool :=
  forallb (fun a => forallb (fun b => match genOBsort cols a b with Some _ => true | None => false end) ll) ll.
Definition sortOB2Vector (ll : list (obsl_t R)) : option (list (obsl_t R)) :=
  if comparable_all ll then Some (qsort (genOBsort cols) ll) else None.
End Vector.

(** ** The order of the rows *)

(** A key by its value: a text, or the number alone. *)
Definition kval (k : obkey) : list Z := match k with K_WORD w => [w] | K_STR _ s => s | K_X x => [x] end.

(** The keys of a column of the type: of an INT column, below 2^31. *)
Definition key_ok (ctype : Z) (k : obkey) : Prop :=
  match k with
  | K_WORD w => (C_IS_I ctype = true /\ 0 <= w < 2 ^ 31) \/ (C_IS_L ctype || C_IS_O ctype = true /\ 0 <= w < 2 ^ 64)
  | K_STR p _ => C_IS_S ctype = true /\ 0 < p
  | K_X _ => C_IS_X ctype = true
  end.

(** Rows by the first column that differs, forwards or backwards. *)
Fixpoint lex (cols : ob_cols) (k1 k2 : list (list Z)) : Z :=
  match cols, k1, k2 with
  | (asc, _) :: cols, a :: k1, b :: k2 =>
      let c := if (asc : bool) then strcmp a b else strcmp b a in
      if c =? 0 then lex cols k1 k2 else c
  | _, _, _ => 0
  end.
Definition row_keys {R} (o : obsl_t R) : list (list Z) := kval <$> ob_keys o.
Definition row_ok {R} (cols : ob_cols) (o : obsl_t R) : Prop :=
  Forall2 (fun c k => key_ok c.2 k) cols (ob_keys o).

Lemma strcmp_refl s : strcmp s s = 0.
Proof. induction s as [|c s IH]; [done|]. cbn. by rewrite Z.eqb_refl. Qed.
Lemma strcmp_anti s1 : forall s2, strcmp s2 s1 = - strcmp s1 s2.
Proof.
  induction s1 as [|c1 s1 IH]; intros [|c2 s2]; cbn; try done. rewrite (Z.eqb_sym c2).
  destruct (Z.eqb_spec c1 c2); [apply IH|]. zcases; lia.
Qed.
Lemma strcmp_zero s1 : forall s2, strcmp s1 s2 = 0 <-> s1 = s2.
Proof.
  induction s1 as [|c1 s1 IH]; intros [|c2 s2]; cbn; try done. destruct (Z.eqb_spec c1 c2) as [->|Hc].
  - rewrite IH. split; [by intros ->|congruence].
  - zcases; split; (lia || congruence).
Qed.
Lemma strcmp_trans s1 : forall s2 s3, strcmp s1 s2 <= 0 -> strcmp s2 s3 <= 0 -> strcmp s1 s3 <= 0.
Proof.
  induction s1 as [|c1 s1 IH]; intros [|c2 s2] [|c3 s3]; cbn; try done; try lia.
  zcases; try lia. apply IH.
Qed.

(** A column compares by value. *)
Lemma ob_cmp3_sgn a b g l : ob_cmp3 a b g l = if a =? b then 0 else if a <? b then l else g.
Proof. unfold ob_cmp3. zcases; lia. Qed.
Lemma col_cmp asc ctype a b : key_ok ctype a -> key_ok ctype b ->
  exists f r, mjoin (OB_cmp !! Z.to_nat (ctype * 2 + (if asc : bool then 1 else 0))) = Some f /\ f a b = Some r /\
    Z.sgn r = if asc then strcmp (kval a) (kval b) else strcmp (kval b) (kval a).
Proof.
  assert (Hint : forall x y, 0 <= x < 2 ^ 31 -> 0 <= y < 2 ^ 31 -> Z.sgn (int_diff x y) = strcmp [x] [y]).
  { intros x y Hx Hy. unfold int_diff. rewrite !(swrap_small 64) by lia. rewrite swrap_small by lia. cbn. zcases; lia. }
  unfold key_ok. ctypes. intros Ha Hb.
  destruct a as [wa|pa sa|xa]; destruct b as [wb|pb sb|xb];
    try (exfalso; rewrite ?orb_true_iff, ?Z.eqb_eq in *; lia).
  - destruct Ha as [[Et Ha]|[Et Ha]]; rewrite ?orb_true_iff, ?Z.eqb_eq in Et.
    + destruct Hb as [[_ Hb]|[Et' _]]; [|rewrite orb_true_iff, !Z.eqb_eq in Et'; lia]. subst ctype.
      destruct asc; eexists _, _; (split; [done|]); (split; [done|]); by apply Hint.
    + destruct Et as [-> | ->]; destruct asc; eexists _, _; (split; [done|]); (split; [done|]);
        rewrite ob_cmp3_sgn; cbn; zcases; lia.
  - destruct Ha as [Et%Z.eqb_eq Hpa], Hb as [_ Hpb]. subst ctype.
    assert (Hs : forall s1 s2, Z.sgn (strcmp s1 s2) = strcmp s1 s2).
    { intros s1. induction s1 as [|c1 s1 IH]; intros [|c2 s2]; cbn; try done. by zcases. }
    destruct asc; eexists _, _; (split; [done|]); (split; [done|]); apply Hs.
  - apply Z.eqb_eq in Ha, Hb. subst ctype. destruct asc; eexists _, _; (split; [done|]); (split; [done|]);
      rewrite ob_cmp3_sgn; cbn; zcases; lia.
Qed.

Lemma ob_loop_lex cols : forall k1 k2, Forall2 (fun c k => key_ok c.2 k) cols k1 -> Forall2 (fun c k => key_ok c.2 k) cols k2 ->
  exists r, ob_loop cols k1 k2 0 = Some r /\ Z.sgn r = lex cols (kval <$> k1) (kval <$> k2).
Proof.
  induction cols as [|[asc ctype] cols IH]; intros k1 k2 H1 H2; [by exists 0|].
  apply Forall2_cons_inv_l in H1 as (a & k1' & Ha & H1 & ->). apply Forall2_cons_inv_l in H2 as (b & k2' & Hb & H2 & ->).
  destruct (col_cmp asc ctype a b Ha Hb) as (f & r & Ef & Er & Hs). cbn [ob_loop]. rewrite Ef.
  cbn [mbind option_bind head tail]. rewrite Er. cbn [mbind option_bind fmap list_fmap lex]. rewrite <- Hs.
  destruct (Z.eqb_spec r 0) as [->|Hr]; cbn [negb Z.sgn Z.eqb].
  - by apply IH.
  - exists r. split; [done|]. destruct (Z.eqb_spec (Z.sgn r) 0); [lia|done].
Qed.

Lemma lex_refl cols ks : lex cols ks ks = 0.
Proof.
  revert ks. induction cols as [|[asc ct] cols IH]; intros [|k ks]; [done..|]. cbn [lex].
  destruct asc; rewrite strcmp_refl; apply IH.
Qed.
Lemma lex_anti cols : forall k1 k2, lex cols k2 k1 = - lex cols k1 k2.
Proof.
  induction cols as [|[asc ct] cols IH]; intros [|a k1] [|b k2]; try done. cbn [lex].
  assert (Hs : (if asc then strcmp b a else strcmp a b) = - (if asc then strcmp a b else strcmp b a))
    by (destruct asc; apply strcmp_anti).
  cbv zeta. rewrite Hs. zcases; try lia. apply IH.
Qed.
Lemma rows_lex_trans cols : forall k1 k2 k3, length k1 = length cols -> length k2 = length cols -> length k3 = length cols ->
  lex cols k1 k2 <= 0 -> lex cols k2 k3 <= 0 -> lex cols k1 k3 <= 0.
Proof.
  induction cols as [|[asc ct] cols IH]; intros [|a k1] [|b k2] [|c k3] E1 E2 E3; try done. cbn [lex length] in *.
  set (f := fun x y => if asc then strcmp x y else strcmp y x).
  change (if asc then strcmp a b else strcmp b a) with (f a b). change (if asc then strcmp b c else strcmp c b) with (f b c).
  change (if asc then strcmp a c else strcmp c a) with (f a c).
  assert (Hz : forall x y, f x y = 0 <-> x = y).
  { intros x y. unfold f. destruct asc; [apply strcmp_zero|]. rewrite strcmp_zero. by split. }
  assert (Ht : f a b <= 0 -> f b c <= 0 -> f a c <= 0).
  { unfold f. destruct asc; [apply strcmp_trans|]. pose proof (strcmp_anti a b). pose proof (strcmp_anti b c).
    pose proof (strcmp_anti a c). pose proof (strcmp_trans a b c). pose proof (strcmp_trans c b a). intros.
    destruct (decide (strcmp c a <= 0)); [done|]. pose proof (strcmp_trans c b a). lia. }
  destruct (Z.eqb_spec (f a b) 0) as [Hab|Hab].
  - apply Hz in Hab as ->. destruct (f b c =? 0) eqn:Ebc; [|done]. intros. by apply (IH k1 k2 k3); [lia..| |].
  - destruct (Z.eqb_spec (f b c) 0) as [Hbc|Hbc].
    + apply Hz in Hbc as ->. intros Hl _. by rewrite (proj2 (Z.eqb_neq _ _)).
    + intros Hl1 Hl2. pose proof (Ht Hl1 Hl2) as Hac. destruct (Z.eqb_spec (f a c) 0) as [Hz0|]; [|done].
      exfalso. apply Hz in Hz0 as ->. assert (f c b = - f b c \/ True) by (by right).
      assert (Hanti : f c b = - f b c) by (unfold f; destruct asc; apply strcmp_anti). lia.
Qed.

Lemma genOBsort_lex {R} cols (o1 o2 : obsl_t R) : row_ok cols o1 -> row_ok cols o2 ->
  exists r, genOBsort cols o1 o2 = Some r /\ Z.sgn r = lex cols (row_keys o1) (row_keys o2).
Proof. apply ob_loop_lex. Qed.

Lemma genOBsort_ordered {R} cols (P : obsl_t R -> Prop) : (forall o, P o -> row_ok cols o) -> ordered (genOBsort cols) P.
Proof.
  intros HP. split.
  - intros a b Ha%HP Hb%HP. destruct (genOBsort_lex cols a b Ha Hb) as (r & E & Hr).
    destruct (genOBsort_lex cols b a Hb Ha) as (r' & E' & Hr'). rewrite lex_anti in Hr'.
    exists r. split; [done|]. exists r'. split; [done|]. lia.
  - intros a b c r1 r2 r3 Ha%HP Hb%HP Hc%HP E1 E2 E3.
    destruct (genOBsort_lex cols a b Ha Hb) as (? & ? & H1), (genOBsort_lex cols b c Hb Hc) as (? & ? & H2),
      (genOBsort_lex cols a c Ha Hc) as (? & ? & H3). simplify_eq.
    assert (Hlen : forall o : obsl_t R, row_ok cols o -> length (row_keys o) = length cols)
      by (intros o Ho%Forall2_length; unfold row_keys; by rewrite length_fmap).
    pose proof (rows_lex_trans cols (row_keys a) (row_keys b) (row_keys c) (Hlen a Ha) (Hlen b Hb) (Hlen c Hc)). lia.
Qed.

Lemma sort_ok `{QSortLaws} {R} (cols : ob_cols) (ll : list (obsl_t R)) :
  Forall (row_ok cols) ll ->
  exists v, sortOB2Vector cols ll = Some v /\ Permutation v ll /\
    StronglySorted (fun a b => lex cols (row_keys a) (row_keys b) <= 0) v.
Proof.
  intros Hok. rewrite Forall_forall in Hok. unfold sortOB2Vector.
  assert (Hall : comparable_all cols ll = true).
  { unfold comparable_all. apply forallb_forall. intros a Ha%list_elem_of_In. apply forallb_forall. intros b Hb%list_elem_of_In.
    by destruct (genOBsort_lex cols a b (Hok a Ha) (Hok b Hb)) as (r & -> & _). }
  rewrite Hall. eexists. split; [done|]. split; [apply qsort_perm|].
  pose proof (qsort_sorts _ (genOBsort cols) ll (genOBsort_ordered cols _ Hok)) as Hs.
  assert (Hin : Forall (row_ok cols) (qsort (genOBsort cols) ll)).
  { apply Forall_forall. intros o Ho. apply Hok. by rewrite <- (qsort_perm _ (genOBsort cols) ll). }
  induction Hs as [|a v Hs IH HF]; [constructor|]. apply Forall_cons in Hin as [Ha Hin].
  constructor; [by apply IH|]. rewrite Forall_forall in HF, Hin |- *. intros b Hb.
  destruct (HF b Hb) as (r & E & Hr). destruct (genOBsort_lex cols a b Ha (Hin b Hb)) as (r' & E' & Hs'). simplify_eq. lia.
Qed.

(** ** Properties *)

(** C30: an ORDER BY on columns of any type but FLOAT, INT values below 2^31, gives
    the queued rows in the order of their keys: by the first column that
    differs, numerically or by the bytes of a text, each ascending or
    descending. *)
Theorem order_by_correct `{QSortLaws} {R} (cols : ob_cols) (ll : list (obsl_t R)) :
  Forall (row_ok cols) ll ->
  exists v, sortOB2Vector cols ll = Some v /\ Permutation v ll /\
    StronglySorted (fun a b => lex cols (row_keys a) (row_keys b) <= 0) v.
Proof. apply sort_ok. Qed.

(** an ORDER BY on an INT column is not an order when two values are more than
    2^31 apart: some value between them is above the first and below the last,
    but the last sorts below the first. *)
Theorem int_order_inconsistent (x z : Z) :
  0 <= x -> x + 2 ^ 31 < z -> z < 2 ^ 32 ->
  exists y r1 r2 r3, x < y < z /\ intOrderBySort (K_WORD x) (K_WORD y) = Some r1 /\ r1 < 0 /\
    intOrderBySort (K_WORD y) (K_WORD z) = Some r2 /\ r2 < 0 /\
    intOrderBySort (K_WORD x) (K_WORD z) = Some r3 /\ 0 < r3.
Proof.
  intros Hx Hxz Hz. exists (x + 2 ^ 31 - 1). eexists _, _, _. unfold intOrderBySort, int_diff. cbn [word mbind option_bind].
  rewrite !(swrap_small 64) by lia. unfold swrap, uwrap. split; [lia|].
  split; [done|]. split; [zcases; dlia|]. split; [done|]. split; [zcases; dlia|]. split; [done|]. zcases; dlia.
Qed.

(** ** Witnesses *)

(** Insertion sort. *)
Fixpoint ins {A} (cmp : A -> A -> option Z) (a : A) (l : list A) : list A :=
  match l with
  | [] => [a]
  | b :: l' => match cmp a b with Some r => if r <=? 0 then a :: l else b :: ins cmp a l' | None => a :: l end
  end.
Fixpoint isort {A} (cmp : A -> A -> option Z) (l : list A) : list A :=
  match l with [] => [] | a :: l => ins cmp a (isort cmp l) end.
#[local] Instance isort_qsort : QSort := @isort.

Lemma oins_perm {A} (cmp : A -> A -> option Z) a l : Permutation (ins cmp a l) (a :: l).
Proof.
  induction l as [|b l IH]; cbn; [done|]. destruct (cmp a b) as [r|]; [|done]. destruct (r <=? 0); [done|].
  rewrite IH. apply Permutation_swap.
Qed.
Lemma isort_perm {A} (cmp : A -> A -> option Z) l : Permutation (isort cmp l) l.
Proof. induction l as [|a l IH]; [done|]. cbn. by rewrite oins_perm, IH. Qed.

Lemma oins_sorted {A} (cmp : A -> A -> option Z) (P : A -> Prop) a l : ordered cmp P -> P a -> Forall P l ->
  StronglySorted (below cmp) l -> StronglySorted (below cmp) (ins cmp a l).
Proof.
  intros [Ht Htr] Ha. induction l as [|b l IH]; intros HP Hs; cbn; [by constructor; constructor|].
  apply Forall_cons in HP as [Hb HP]. pose proof (StronglySorted_inv Hs) as [Hs' HF].
  destruct (Ht a b Ha Hb) as (r & E & r' & E' & Hr & Hr0). rewrite E. destruct (Z.leb_spec r 0) as [Hle|Hgt].
  - constructor; [done|]. constructor; [by exists r|]. rewrite Forall_forall in HF, HP |- *. intros c Hc.
    destruct (HF c Hc) as (r2 & E2 & Hr2). destruct (Ht a c Ha (HP c Hc)) as (r3 & E3 & _). exists r3. split; [done|].
    apply (Htr a b c r r2 r3); try done. by apply HP.
  - constructor; [by apply IH|]. rewrite oins_perm. constructor; [|done]. exists r'. split; [done|]. lia.
Qed.
#[local] Instance isort_laws : QSortLaws.
Proof.
  split; [apply @isort_perm|]. intros A cmp l Ho. unfold qsort, isort_qsort.
  assert (H : forall l', (forall a, a ∈ l' -> a ∈ l) -> StronglySorted (below cmp) (isort cmp l')).
  { induction l' as [|a l' IH]; intros Hin; cbn; [constructor|].
    apply (oins_sorted cmp (fun a => a ∈ l)); [done|apply Hin; by left| |apply IH; intros b Hb; apply Hin; by right].
    rewrite isort_perm. apply Forall_forall. intros b Hb. apply Hin. by right. }
  by apply H.
Qed.

(** ORDER BY name DESC, age: ("bo", 7), ("al", 3), ("bo", 5). *)
Definition w_cols : ob_cols := [(false, COL_TYPE_STRING); (true, COL_TYPE_INT)].
Definition w_row (s : list Z) (n : Z) (id : Z) : obsl_t Z := create_obsl (Some id) [K_STR 16 s; K_WORD n].
Definition w_rows : list (obsl_t Z) := [w_row [98; 111] 7 1; w_row [97; 108] 3 2; w_row [98; 111] 5 3].
Lemma order_by_correct_witness : exists v, sortOB2Vector w_cols w_rows = Some v /\ ob_row <$> v = [Some 3; Some 1; Some 2] /\
  StronglySorted (fun a b => lex w_cols (row_keys a) (row_keys b) <= 0) v.
Proof.
  destruct (order_by_correct w_cols w_rows) as (v & E & _ & Hs).
  - repeat constructor; cbn; lia.
  - exists v. split; [exact E|]. split; [|exact Hs]. vm_compute in E. injection E as <-. reflexivity.
Defined.
Lemma int_order_inconsistent_witness : exists y r1 r2 r3, 1 < y < 4000000000 /\
  intOrderBySort (K_WORD 1) (K_WORD y) = Some r1 /\ r1 < 0 /\
  intOrderBySort (K_WORD y) (K_WORD 4000000000) = Some r2 /\ r2 < 0 /\
  intOrderBySort (K_WORD 1) (K_WORD 4000000000) = Some r3 /\ 0 < r3.
Proof. apply int_order_inconsistent; lia. Defined.
