(* ===== verification/Dml.v ===== *)
(** * Rows and their indexes ([DB/row.c], [DB/alsosql.c])

    INSERT, REPLACE, DELETE and UPDATE of one row, after the text has been parsed
    and the new row made: the table and all its indexes change together, and a
    refused row is taken out of the indexes it had entered.  The table is one of
    the trees of the store. *)

From stdpp Require Import gmap.
From S2P Require Import Prelude Stream CStr Row Aobj BtSearch DirtyStream Btree BtOps BtIter BtScan BtKey BtKeyLaws BtStream Abt GetCol Index IndexLaws.

(** ** The table among the trees *)

Definition h_find_d (h : heap) (p : Z) (k : aobj) : option (cptr * bool) := h_get h p (fun a x => btFindD a x k).
Definition h_get_dr (h : heap) (p : Z) (k : aobj) : option Z := h_get h p (fun a x => btGetDR a x k).
Definition h_add (h : heap) (p : Z) (k : aobj) (val : cptr) : option (heap * Z) :=
  h_upd h p (fun a x => btAdd a x k val).
Definition h_replace (h : heap) (p : Z) (k : aobj) (val : cptr) : option (heap * Z) :=
  h_upd h p (fun a x => btReplace a x k val).

(** [IS_GHOST] of the rows of a table. *)
Definition IS_GHOST (s : bts_t) (byte_at : Z -> Z) (rrow : cptr) : bool := NORM_BT s && ghost_val byte_at rrow.

Inductive ins_t := INS_ERR | INS_INS | INS_UP.

Section Dml.
Context `{Malloc} (floor_log2 : Z -> Z) (luatAdd luatDel : r_ind_t -> aobj -> cptr -> heap -> heap).
Context (getcol : Z -> aobj -> cptr -> option aobj) (pktyp : Z) (coltype : Z -> Z).
(** The table: its kind of tree, its address, and its flags. *)
Context (ta : bt_args) (tb : Z) (byte_at : Z -> Z) (rt_dirty : bool).
#[local] Abbreviation add_index := (addToIndex floor_log2 luatAdd getcol pktyp coltype).
#[local] Abbreviation del_index := (delFromIndex floor_log2 luatDel getcol).
#[local] Abbreviation insert_indexes := (runFailableInsertIndexes floor_log2 luatAdd luatDel getcol pktyp coltype).
#[local] Abbreviation insert_triggers := (runLuaTriggerInsertIndexes floor_log2 luatAdd luatDel getcol pktyp coltype).
#[local] Abbreviation delete_indexes := (runDeleteIndexes floor_log2 luatDel getcol).

(** The store and the return value: 1, or 0 for no such row, -1 for an evicted
    one.  [wgost] is a [bool], an [unsigned char]. *)
Definition deleteRow (h : heap) (apk : aobj) (inds : list r_ind_t) : option (heap * Z) :=
  '(rrow, miss) ← h_find_d h tb apk;
  if (miss : bool) then Some (h, -1)
  else if is_null rrow then Some (h, 0)
  else
    dr ← h_get_dr h tb apk;
    let wgost := negb (u8 dr =? 0) in
    if IS_GHOST (a_spec ta) byte_at rrow && wgost then Some (h, 0)
    else
      h ← delete_indexes h inds apk rrow wgost;
      h ← h_delete h tb apk;
      Some (h, 1).

(** The columns an UPDATE names: [chit[c].cmatch != -1]. *)
Definition chit_at (chit : list bool) (c : Z) : option bool :=
  if c <? 0 then None else chit !! Z.to_nat c.

Fixpoint any_hit (chit : list bool) (cs : list Z) : option bool :=
  match cs with
  | [] => Some false
  | c :: cs' => b ← chit_at chit c; if (b : bool) then Some true else any_hit chit cs'
  end.

(** Whether an UPDATE redoes an index. *)
Definition effected (chit : list bool) (ri : r_ind_t) : option bool :=
  if ri_virt ri || ri_hlt ri then Some false
  else if ri_lru ri || ri_lfu ri then Some true
  else if ri_clist ri then any_hit chit (ri_bclist ri)
  else chit_at chit (ri_icol ri).

(** The loop over the indexes to redo, new entry first; a failure takes the new
    entries out of the indexes before, whose old entries are gone already. *)
Fixpoint redo_indexes (h : heap) (prev inds : list r_ind_t) (opk : aobj) (orow : cptr) (npk : aobj) (nrow : cptr)
    : option (heap * bool) :=
  match inds with
  | [] => Some (h, true)
  | ri :: inds' =>
      '(h, ok) ← add_index h ri npk nrow;
      if (ok : bool) then
        h ← del_index h ri opk orow false;
        redo_indexes h (prev ++ [ri]) inds' opk orow npk nrow
      else h ← delete_indexes h prev npk nrow false; Some (h, false)
  end.
Definition upEffectedFailableIndexes (h : heap) (inds : list r_ind_t) (chit : list bool)
    (opk : aobj) (orow : cptr) (npk : aobj) (nrow : cptr) : option (heap * bool) :=
  upit ← mapM (effected chit) inds;
  redo_indexes h [] (filter (fun p => p.2 = true) (zip inds upit)).*1 opk orow npk nrow.

(** [UPDATE_AUTO_INC] *)
Definition update_auto_inc (ainc : Z) (apk : aobj) : Z :=
  if C_IS_NUM pktyp && (ainc <? val_of pktyp apk) then val_of pktyp apk else ainc.

(** The part of [runUpdate] without Lua: the store, the auto-increment and the
    size of the row.  The results of the index runs are not looked at. *)
Definition runUpdate (h : heap) (ainc : Z) (inds : list r_ind_t) (chit : list bool)
    (opk : aobj) (orow : cptr) (npk : aobj) (nrow : cptr) : option (heap * Z * Z) :=
  pkup ← chit_at chit 0;
  if (pkup : bool) then
    '(h, _) ← insert_indexes h inds npk nrow;
    h ← delete_indexes h inds opk orow false;
    h ← h_delete h tb opk;
    '(h, ret) ← h_add h tb npk nrow;
    Some (h, update_auto_inc ainc npk, ret)
  else
    '(h, _) ← upEffectedFailableIndexes h inds chit opk orow npk nrow;
    '(h, ret) ← h_replace h tb opk nrow;
    Some (h, ainc, ret).

(** The UPDATE of one row in [updateAction]: the row is looked for, and written
    anew; [new_row] is the key and the row [updateRow] makes of the old one.  The
    return value is -1 when nothing was written. *)
Definition updateSingle (h : heap) (ainc : Z) (inds : list r_ind_t) (chit : list bool)
    (apk : aobj) (new_row : cptr -> option (aobj * cptr)) : option (heap * Z * Z) :=
  '(rrow, miss) ← h_find_d h tb apk;
  let gost := IS_GHOST (a_spec ta) byte_at rrow in
  let exists_ := (negb (is_null rrow) || miss) && negb gost in
  if negb exists_ || miss then Some (h, ainc, -1)
  else
    match new_row rrow with
    | None => Some (h, ainc, -1)
    | Some (npk, nrow) => runUpdate h ainc inds chit apk rrow npk nrow
    end.

(** [insertCommit] from the search for the row on: [ai] says that the key was
    chosen by the table, [nrow] is what [createRow] returned.  [updateAction] is
    the UPDATE of ON DUPLICATE KEY UPDATE and says whether it worked. *)
Definition insertCommit (updateAction : heap -> Z -> option (heap * Z * bool))
    (h : heap) (ainc : Z) (inds : list r_ind_t) (apk : aobj) (nrow : option cptr) (repl upd ai : bool)
    : option (heap * Z * ins_t) :=
  '(orow, miss) ← h_find_d h tb apk;
  let gost := IS_GHOST (a_spec ta) byte_at orow in
  let exists_ := (negb (is_null orow) || miss) && negb gost in
  let isinsert := negb upd && negb repl in
  if rt_dirty && (repl || (isinsert && negb ai)) then Some (h, ainc, INS_ERR)
  else if exists_ && isinsert then Some (h, ainc, INS_ERR)
  else if exists_ && upd then
    '(h, ainc, ok) ← updateAction h ainc;
    Some (h, ainc, if (ok : bool) then INS_UP else INS_ERR)
  else
    match nrow with
    | None => Some (h, ainc, INS_ERR)
    | Some nrow =>
        '(h, ok) ← insert_indexes h inds apk nrow;
        if negb ok then Some (h, ainc, INS_ERR)
        else
          h ← (if existsb ri_hlt inds then '(h, _) ← insert_triggers h inds apk nrow; Some h else Some h);
          h ← (if repl && negb (is_null orow) then delete_indexes h inds apk orow false else Some h);
          '(h, _) ← (if repl then h_replace h tb apk nrow else h_add h tb apk nrow);
          Some (h, update_auto_inc ainc apk, INS_INS)
    end.
End Dml.
