(* ===== verification/Range.v ===== *)
(** * Range queries ([DB/range.c])

    A SELECT, DELETE or UPDATE of several rows walks the table by its primary key,
    or an index by its values and then the keys of each value, and runs an
    operation on every row: the row operation prints the row, or queues it to be
    sorted, deleted or updated.  The trees do not change while they are walked.

    The row operation is a parameter, as it is a function pointer in C: it gets
    and gives back a state, with its return value and the count of rows. *)

From stdpp Require Import gmap.
From S2P Require Import Prelude Stream CStr Row Aobj Filter BtSearch DirtyStream Btree BtOps BtIter BtScan BtLoop BtKey BtKeyLaws BtStream Abt GetCol Index Dml.

(** ** What the query wants *)

(** [wob_t]: ORDER BY columns with their directions, LIMIT and OFFSET, -1 when not
    given. *)
Record wob_t := Wob { wb_obc : list icol_t; wb_asc : list bool; wb_lim : Z; wb_ofst : Z }.
Definition nob (wb : wob_t) : nat := length (wb_obc wb).
Definition obc_at (wb : wob_t) (i : nat) : icol_t := default (INIT_ICOL 0) (wb_obc wb !! i).
Definition asc_at (wb : wob_t) (i : nat) : bool := default false (wb_asc wb !! i).

(** [qr_t] *)
Record qr_t := Qr {
  q_pk : bool; q_pk_lim : bool; q_pk_lo : bool; q_pk_desc : bool;
  q_fk : bool; q_fk_lim : bool; q_fk_lo : bool; q_fk_desc : bool;
  q_inr_desc : bool; q_xth : bool; q_qed : bool;
}.

Definition SQL_SINGLE_LKP : Z := 1.
Definition SQL_RANGE_LKP : Z := 2.
Definition SQL_IN_LKP : Z := 3.
Definition SQL_SINGLE_FK_LKP : Z := 4.
Definition FK_RQ (wtype : Z) : bool := negb (wtype =? SQL_SINGLE_FK_LKP).

(** The rest of the WHERE clause, [cswc_t]: the kind of lookup, the keys, the
    filters, and the filters on the later columns of a multi-column index. *)
Record cswc_t := Cswc {
  w_type : Z; w_akey : aobj; w_alow : aobj; w_ahigh : aobj; w_inl : option (list aobj);
  w_klist : option (list f_t); w_flist : option (list f_t);
}.

(** The loop of [mci_fk_queued]: the first ORDER BY column that is not the column
    of the index at the same place. *)
Fixpoint mci_prefix (obc : list icol_t) (cols : list Z) : nat :=
  match obc, cols with
  | o :: obc, c :: cols => if icol_cmp o (INIT_ICOL c) then O else S (mci_prefix obc cols)
  | _, _ => O
  end.
(** [nob - 1] is unsigned. *)
Definition mci_fk_queued (wb : wob_t) (ri : r_ind_t) : bool :=
  let i := mci_prefix (wb_obc wb) (ri_bclist ri) in
  if negb (nob wb =? 0)%nat && (i =? nob wb - 1)%nat then
    if icol_cmp (obc_at wb i) (INIT_ICOL (ri_obc ri)) then true else negb (i + 1 =? nob wb)%nat
  else negb (i =? nob wb)%nat.

(** Which directions the trees are walked in, whether LIMIT and OFFSET apply to
    the walk, and whether the rows have to be sorted. *)
Definition setRangeQueued (w : cswc_t) (ri : option r_ind_t) (wb : wob_t) : qr_t :=
  let virt := match ri with Some ri => ri_virt ri | None => false end in
  let ic := match ri with
            | Some ri => if ri_icol ri =? 0 then INIT_ICOL (-1) else INIT_ICOL (ri_icol ri)
            | None => INIT_ICOL (-1) end in
  let obc := match ri with
             | Some ri => if ri_obc ri =? -1 then INIT_ICOL 0 else INIT_ICOL (ri_obc ri)
             | None => INIT_ICOL 0 end in
  let n := nob wb in
  let isc i c := negb (icol_cmp (obc_at wb i) c) in
  let lim := negb (wb_lim wb =? -1) in
  let ofst := negb (wb_ofst wb =? -1) in
  let filters := negb (absent (w_flist w)) in
  if virt then
    let pk := (1 <? n)%nat || ((n =? 1)%nat && negb (isc 0%nat obc)) in
    let pk_lim := negb pk && lim in
    let pk_lo := pk_lim && ofst in
    Qr pk pk_lim pk_lo ((1 <=? n)%nat && negb (asc_at wb 0) && isc 0%nat obc)
      false false false false false (pk_lo && negb (filters && ofst)) pk
  else
    let fk_desc := (1 <=? n)%nat && negb (asc_at wb 0) && isc 0%nat ic in
    let inr_desc := ((n =? 1)%nat && negb (asc_at wb 0) && isc 0%nat obc)
      || ((1 <? n)%nat && isc 0%nat ic && negb (asc_at wb 1) && isc 1%nat obc) in
    let fk :=
      if negb (Z.land (w_type w) SQL_SINGLE_FK_LKP =? 0) then
        match ri with
        | Some ri =>
            if ri_clist ri then mci_fk_queued wb ri
            else (2 <? n)%nat || ((n =? 1)%nat && negb (isc 0%nat ic) && negb (isc 0%nat obc))
              || ((n =? 2)%nat && negb (isc 0%nat ic && isc 1%nat obc) && negb (isc 1%nat ic && isc 0%nat obc))
        | None => false
        end
      else (2 <? n)%nat || ((n =? 1)%nat && negb (isc 0%nat ic))
        || ((n =? 2)%nat && negb (isc 0%nat ic && isc 1%nat obc)) in
    let fk_lim := negb fk && lim in
    let fk_lo := fk_lim && ofst in
    Qr false false false false fk fk_lim fk_lo fk_desc inr_desc (fk_lo && negb (filters && ofst)) fk.

Definition setInQueued (w : cswc_t) (ri : option r_ind_t) (wb : wob_t) : qr_t :=
  let q := setRangeQueued w ri wb in
  Qr (q_pk q) (q_pk_lim q) false (q_pk_desc q) (q_fk q) (q_fk_lim q) false (q_fk_desc q)
    (q_inr_desc q) (q_xth q) (q_qed q).
Definition setQueued (w : cswc_t) (ri : option r_ind_t) (wb : wob_t) : qr_t :=
  match w_inl w with Some _ => setInQueued w ri wb | None => setRangeQueued w ri wb end.

(** ** Walking the trees *)

Inductive miss_t := DELETE_MISS | UPDATE_MISS.

Section Range.
Context (byte_at : Z -> Z).
#[local] Existing Instance abt_order.
#[local] Existing Instance abt_ops.
#[local] Instance row_stream (a : bt_args) : KeyStream (key_t (a_spec a)) := key_stream byte_at (a_spec a).
#[local] Abbreviation iter_of a := (btSIter (key_t (a_spec a))).

(** The loop over an iterator of a tree: the body gets [be->key], [be->val] and
    [bi->missed].  Also given back: [bi->missed] and [be.dr] when it ends. *)
Definition scan_tree {X} (a : bt_args) (x : abt a) (s : iter_of a) (asc : bool)
    (body : X -> aobj -> cptr -> bool -> option (X * bool)) (x0 : X) : option (X * bool * Z) :=
  '(r, s) ← iter_while (S (S (length (inorder (root (tree a x)))))) (bdirty (tree a x)) s asc
    (fun st k missed => v ← parseStream (a_spec a) (ptr k); body st (convertStream2Key (a_spec a) (ptr k)) v missed) x0;
  Some (r, missed s, last_dr s).

(** What a walk leaves: the state, the count of rows, -1 after an error, the
    iterators in use and the reply for an evicted row. *)
Record walk_t (S : Type) := Walk { wk_st : S; wk_card : Z; wk_which : Z; wk_miss : option miss_t }.
Arguments Walk {S}.
Arguments wk_st {S}. Arguments wk_card {S}. Arguments wk_which {S}. Arguments wk_miss {S}.

(** The statement: [qcols] of a SELECT, [ncols] of an UPDATE, [cstar] for
    COUNT, and [upx]. *)
Record stmt_t := Stmt { g_qcols : Z; g_ncols : Z; g_cstar : bool; g_upx : bool }.
Definition iss (g : stmt_t) : bool := negb (g_qcols g =? 0).
Definition isu (g : stmt_t) : bool := negb (g_ncols g =? 0).
Definition isd (g : stmt_t) : bool := negb (iss g) && negb (isu g).
(** The reply before the loop and inside it. *)
Definition pre_miss (g : stmt_t) : option miss_t :=
  if isd g then Some DELETE_MISS else if isu g then Some UPDATE_MISS else None.
Definition loop_miss (g : stmt_t) : option miss_t :=
  if isu g then Some UPDATE_MISS else if isd g then Some DELETE_MISS else None.

Section Walk.
Context {T : Type} (p : T -> aobj -> cptr -> bool -> Z -> option (T * bool * Z)).
Context (h : heap) (tb : Z) (g : stmt_t) (w : cswc_t) (wb : wob_t) (q : qr_t).

(** *** By primary key *)

(** The state, the count, the rows seen and whether to break; and the return
    value. *)
Definition pk_op_l (st : T) (apk : aobj) (rrow : cptr) (card loops : Z) : option (T * Z * Z * bool * bool) :=
  let loops := loops + 1 in
  let pkl := q_pk_lim q in
  if pkl && negb (q_pk_lo q) && negb (wb_ofst wb =? -1) && (loops <? wb_ofst wb) then Some (st, card, loops, false, true)
  else
    '(st, ret, card) ← p st apk rrow (q_qed q) card;
    if pkl && (wb_lim wb =? card) then Some (st, card, loops, true, true)
    else Some (st, card, loops, false, ret).

Definition singleOpPK (st : T) : option (T * Z) :=
  '(rrow, miss) ← h_find_d h tb (w_akey w);
  if (miss : bool) then Some (st, -1)
  else if is_null rrow then Some (st, 0)
  else
    gost ← h_get h tb (fun a _ => Some (IS_GHOST (a_spec a) byte_at rrow));
    if (gost : bool) then Some (st, -1)
    else
      '(st, ret, card) ← p st (w_akey w) rrow (q_qed q) 0;
      Some (st, if (ret : bool) then card else -1).

(** The loop of [rangeOpPK]: its state is the walk's with [loops]. *)
Definition pk_body (which : Z) (x : walk_t T * Z) (apk : aobj) (rrow : cptr) (missed : bool) : option (walk_t T * Z * bool) :=
  let '(r, loops) := x in
  if missed && negb (g_upx g) then Some (Walk (wk_st r) (-1) which (loop_miss g), loops, true)
  else
    '(st, card, loops, brkr, ret) ← pk_op_l (wk_st r) apk rrow (wk_card r) loops;
    if negb ret then Some (Walk st (-1) which (wk_miss r), loops, true)
    else Some (Walk st card which (wk_miss r), loops, brkr).

Definition rangeOpPK (which : Z) (st : T) : option (walk_t T) :=
  t ← h !! tb;
  let a := h_args t in let x := h_tree t in
  let asc := negb (q_pk_desc q) in
  '(used, bi) ← (if q_xth q then btGetXthIter (nb a x) which (tree a x) (w_alow w) (w_ahigh w) (wb_ofst wb) asc
                 else btGetRangeIter (nb a x) which (tree a x) (w_alow w) (w_ahigh w) asc);
  match bi with
  | None => Some (Walk st 0 used None)
  | Some s =>
      let out := btReleaseRangeIterator used (Some s) in
      if empty s then Some (Walk st 0 out None)
      else if missed s && negb (g_upx g) then Some (Walk st (-1) out (pre_miss g))
      else
        '(r, _, ms, _) ← scan_tree a x s asc (pk_body out) (Walk st 0 out None, -1);
        if negb (wk_card r =? -1) && negb (g_upx g)
           && (if q_pk_lim q then (wk_card r <? wb_lim wb) && ms else ms)
        then Some (Walk (wk_st r) (-1) out (wk_miss r))
        else Some r
  end.

(** The loop over the keys of an IN list. *)
Fixpoint in_pk_loop (keys : list aobj) (st : T) (card loops : Z) : option (T * Z) :=
  match keys with
  | [] => Some (st, card)
  | apk :: keys =>
      '(rrow, miss) ← h_find_d h tb apk;
      if (miss : bool) then Some (st, -1)
      else
        gost ← h_get h tb (fun a _ => Some (IS_GHOST (a_spec a) byte_at rrow));
        if (gost : bool) then in_pk_loop keys st card loops
        else if is_null rrow then in_pk_loop keys st card loops
        else
          '(st, card, loops, brkr, ret) ← pk_op_l st apk rrow card loops;
          if negb ret then Some (st, -1)
          else if (brkr : bool) then Some (st, card)
          else in_pk_loop keys st card loops
  end.
Definition inOpPK (st : T) : option (T * Z) :=
  keys ← w_inl w; in_pk_loop keys st 0 (-1).

(** *** By the values of an index *)

(** What the operations on a node share: the state, the OFFSET left, the count of
    rows, the rows seen, whether to break; the key a UNIQUE index led to, a static
    variable; the iterators in use, and the reply for an evicted row. *)
Record ibtd_t := Ibtd {
  d_st : T; d_ofst : Z; d_card : Z; d_loops : Z; d_brkr : bool; d_uv : aobj; d_which : Z; d_miss : option miss_t;
}.
Definition set_st d x := Ibtd x (d_ofst d) (d_card d) (d_loops d) (d_brkr d) (d_uv d) (d_which d) (d_miss d).
Definition set_ofst d x := Ibtd (d_st d) x (d_card d) (d_loops d) (d_brkr d) (d_uv d) (d_which d) (d_miss d).
Definition set_card d x := Ibtd (d_st d) (d_ofst d) x (d_loops d) (d_brkr d) (d_uv d) (d_which d) (d_miss d).
Definition set_loops d x := Ibtd (d_st d) (d_ofst d) (d_card d) x (d_brkr d) (d_uv d) (d_which d) (d_miss d).
Definition set_brkr d x := Ibtd (d_st d) (d_ofst d) (d_card d) (d_loops d) x (d_uv d) (d_which d) (d_miss d).
Definition set_uv d x := Ibtd (d_st d) (d_ofst d) (d_card d) (d_loops d) (d_brkr d) x (d_which d) (d_miss d).
Definition set_which d x := Ibtd (d_st d) (d_ofst d) (d_card d) (d_loops d) (d_brkr d) (d_uv d) x (d_miss d).
Definition set_miss d x := Ibtd (d_st d) (d_ofst d) (d_card d) (d_loops d) (d_brkr d) (d_uv d) (d_which d) x.

(** The row operation on the row of a key. *)
Definition row_of_key (d : ibtd_t) (key : aobj) : option (ibtd_t * bool) :=
  rrow ← h_find h tb key;
  '(st, ret, card) ← p (d_st d) key rrow (q_qed q) (d_card d);
  Some (set_card (set_st d st) card, ret).

(** [bool] results: [false] is 0. *)
Definition uBT_Op (d : ibtd_t) : option (ibtd_t * bool) :=
  let d := set_loops d (d_loops d + 1) in
  if g_cstar g then Some (set_card d (d_card d + 1), true)
  else
    let d := set_brkr d false in
    if q_fk_lim q && q_fk_lo q && (d_loops d <? d_ofst d) then Some (d, true)
    else if q_fk_lim q && (wb_lim wb =? d_card d) then Some (set_brkr d true, true)
    else row_of_key d (d_uv d).

(** The key in the value of an entry, by the type [vw] bytes wide. *)
Definition key_of_width (old : aobj) (enc : bool) (vw : nat) (v : Z) (empty : bool) : aobj :=
  let t := if (vw =? 4)%nat then COL_TYPE_INT else if (vw =? 8)%nat then COL_TYPE_LONG else COL_TYPE_U128 in
  Aobj (ao_s old) (ao_len old) (if (vw =? 4)%nat then v else ao_i old) (if (vw =? 8)%nat then v else ao_l old)
    (if (vw =? 16)%nat then v else ao_x old) (ao_f old) (ao_b old) t (if enc then t else ao_enc old) (ao_freeme old) empty.

(** The key of an entry of an order-by index, by the type of the primary key and
    the widths of the node; only its type is set. *)
Definition obc_key (pktyp : Z) (s : bts_t) (brow : cptr) : aobj :=
  if C_IS_I pktyp then
    if UU s then initAobjInt (num brow)
    else key_of_width initAobj false 4 (if LU s then st_val 8 4 brow else st_val 16 4 brow) true
  else if C_IS_L pktyp then
    key_of_width initAobj false 8 (if UL s then st_val 4 8 brow else if LL s then st_val 8 8 brow else st_val 16 8 brow) true
  else
    key_of_width initAobj false 16 (if UX s then st_val 4 16 brow else if LX s then st_val 8 16 brow else st_val 16 16 brow) true.

(** [*ret] and the return value: [false, false] is an error, [true, true] goes on. *)
Definition nBT_ROp (d : ibtd_t) (pktyp : Z) (ri : r_ind_t) (s : bts_t) (bkey : aobj) (brow : cptr) : option (ibtd_t * bool) :=
  let d := set_loops d (d_loops d + 1) in
  if q_fk_lim q && negb (q_fk_lo q) && (d_loops d <? d_ofst d) then Some (d, true)
  else
    let key := if ri_obc ri =? -1 then bkey else obc_key pktyp s brow in
    '(d, ok) ← row_of_key d key;
    if negb ok then Some (d, false)
    else if q_fk_lim q && (wb_lim wb =? d_card d) then Some (set_brkr d true, true)
    else Some (d, true).

(** The loop of [nBT_Op], with [ret]. *)
Definition nbt_body (pktyp : Z) (ri : r_ind_t) (s : bts_t) (x : ibtd_t * bool) (bkey : aobj) (brow : cptr) (missed : bool)
    : option (ibtd_t * bool * bool) :=
  let '(d, ret) := x in
  if missed && negb (g_upx g) then Some (set_miss d (loop_miss g), false, true)
  else
    '(d, ok) ← nBT_ROp d pktyp ri s bkey brow;
    Some (d, ok, negb ok || d_brkr d).

Definition nBT_Op (pktyp : Z) (ri : r_ind_t) (d : ibtd_t) (nbtr : Z) : option (ibtd_t * bool) :=
  t ← h !! nbtr;
  let a := h_args t in let x := h_tree t in
  let n := scion (root (tree a x)) in
  if g_cstar g && absent (w_flist w) then Some (set_card d (d_card d + n), true)
  else if q_fk_lo q && FK_RQ (w_type w) && (n <=? d_ofst d) then Some (set_ofst d (d_ofst d - n), true)
  else
    let d := set_brkr d false in
    let nasc := negb (q_inr_desc q) in
    '(used, nbi) ← (if q_xth q && (0 <? d_ofst d) then btGetFullXthIter (d_which d) (tree a x) (d_ofst d) nasc
                    else btGetFullRangeIter (nb a x) (d_which d) (tree a x) nasc);
    match nbi with
    | None => Some (set_which d used, true)
    | Some s =>
        '(d, ret) ← (if empty s then Some (d, true)
          else if missed s && negb (g_upx g) then Some (set_miss d (pre_miss g), false)
          else
            '(d, ret, _, dr) ← scan_tree a x s nasc (nbt_body pktyp ri (a_spec a)) (d, true);
            let late := if q_fk_lim q then (d_card d <? wb_lim wb) && negb (dr =? 0) else negb (dr =? 0) in
            Some (d, if (ret : bool) && negb (g_upx g) && late then false else ret));
        let d := set_which d (btReleaseRangeIterator used (Some s)) in
        let d := if q_fk_lo q then set_ofst d 0 else d in
        let d := if q_fk_lim q && (wb_lim wb =? d_card d) then set_brkr d true else d in
        Some (d, ret)
    end.

(** The key an entry of a UNIQUE index leads to, written over [uv]. *)
Definition uniq_key (s : bts_t) (v : cptr) (uv : aobj) : option aobj :=
  if UU s then Some (key_of_width uv true 4 (u32 (num v)) false)
  else '(kw, vw) ← struct_of s; Some (key_of_width uv true vw (st_val kw vw v) false).

(** [false] is a miss. *)
Definition setUniqIndexVal (nbtr : Z) (akey : aobj) (uv : aobj) : option (aobj * bool) :=
  t ← h !! nbtr;
  v ← h_find h nbtr akey;
  uv' ← uniq_key (a_spec (h_args t)) v uv;
  if UU (a_spec (h_args t)) then Some (uv', negb (ao_i uv' =? 0))
  else if is_null v then Some (uv, false) else Some (uv', true).

(** The trees of the later columns, as far as the filters give them: the address
    reached, 0 for NULL, and the filters used. *)
Fixpoint mci_find_val (trgr i : Z) (kl : list f_t) (nbtr nmatch : Z) (uv : aobj) : option (Z * Z * aobj) :=
  match kl with
  | [] => Some (nbtr, nmatch, uv)
  | flt :: kl =>
      match f_op flt with
      | NONE => Some (nbtr, nmatch, uv)
      | _ =>
          if i =? trgr then
            '(uv, ok) ← setUniqIndexVal nbtr (f_akey flt) uv;
            if negb ok then Some (0, nmatch, uv) else Some (nbtr, nmatch + 1, uv)
          else
            xbtr ← h_find h nbtr (f_akey flt);
            if is_null xbtr then Some (0, nmatch, uv)
            else mci_find_val trgr (i + 1) kl (num xbtr) (nmatch + 1) uv
      end
  end.
Definition btMCIFindVal (ri : r_ind_t) (nbtr : Z) (uv : aobj) : option (Z * Z * aobj) :=
  match w_klist w with
  | Some kl => if nbtr =? 0 then Some (nbtr, 0, uv)
               else mci_find_val (mci_trgr ri) 0 kl nbtr 0 uv
  | None => Some (nbtr, 0, uv)
  end.

(** The operation on a node: [uBT_Op] of a UNIQUE index, else [nBT_Op]. *)
Definition node_op (pktyp : Z) (ri : r_ind_t) (d : ibtd_t) (nbtr : Z) : option (ibtd_t * bool) :=
  if UNIQ (ri_cnstr ri) then uBT_Op d else nBT_Op pktyp ri d nbtr.

(** All the nodes [still] levels below a tree.  The counter is unsigned: with no
    level left the recursion of the code does not end. *)
Fixpoint runOnNode (pktyp : Z) (ri : r_ind_t) (still : nat) (d : ibtd_t) (ibtr : Z) : option (ibtd_t * bool) :=
  match still with
  | O => None
  | S still =>
      t ← h !! ibtr;
      let a := h_args t in let x := h_tree t in
      let nasc := negb (q_inr_desc q) in
      '(used, nbi) ← btGetFullRangeIter (nb a x) (d_which d) (tree a x) nasc;
      match nbi with
      | None => Some (set_which d used, true)
      | Some s =>
          '(d, ret, _, _) ← scan_tree a x s nasc
            (fun '(d, ret) _ brow _ =>
               '(d, ok) ← (match still with
                 | S _ => runOnNode pktyp ri still d (num brow)
                 | O =>
                     if UNIQ (ri_cnstr ri) then
                       uv ← uniq_key (a_spec a) brow (d_uv d); node_op pktyp ri (set_uv d uv) ibtr
                     else node_op pktyp ri d (num brow)
                 end);
               Some (d, ok, negb ok || d_brkr d)) (set_which d used, true);
          Some (set_which d (btReleaseRangeIterator (d_which d) (Some s)), ret)
      end
  end.

(** The nodes of a value: [d.nbtr] and what [rangeOpFK] and its kin do with it.
    [uniq] looks the key up in the one tree of a UNIQUE index. *)
Definition nexpc (ri : r_ind_t) : Z := if ri_clist ri then Z.of_nat (length (ri_bclist ri)) - 1 else 0.
Definition run_value (pktyp : Z) (ri : r_ind_t) (uniq : option aobj) (d : ibtd_t) (nbtr nmatch : Z) : option (ibtd_t * bool) :=
  if nbtr =? 0 then Some (d, true)
  else
    let diff := u32 (nexpc ri - nmatch) in
    if negb (diff =? 0) then runOnNode pktyp ri (Z.to_nat diff) d nbtr
    else
      '(d, ok) ← (match uniq with
        | Some key => '(uv, ok) ← setUniqIndexVal nbtr key (d_uv d); Some (set_uv d uv, ok)
        | None => Some (d, true)
        end);
      if negb ok then Some (d, false) else node_op pktyp ri d nbtr.

(** The loop of [rangeOpFK]. *)
Definition fk_body (pktyp : Z) (ri : r_ind_t) (d : ibtd_t) (bkey : aobj) (val : cptr) (_ : bool) : option (ibtd_t * bool) :=
  if iss g && is_null val then Some (set_card d (-1), true)
  else
    let singu := negb (ri_clist ri) && UNIQ (ri_cnstr ri) in
    '(nbtr, nmatch, uv) ← (if singu then Some (ri_btr ri, 0, d_uv d) else btMCIFindVal ri (num val) (d_uv d));
    '(d, ok) ← run_value pktyp ri (if singu then Some bkey else None) (set_uv d uv) nbtr nmatch;
    if negb ok then Some (set_card d (-1), true) else Some (d, d_brkr d).

Definition rangeOpFK (pktyp : Z) (ri : r_ind_t) (uv : aobj) (which : Z) (st : T) : option ibtd_t :=
  t ← h !! ri_btr ri;
  let a := h_args t in let x := h_tree t in
  let asc := negb (q_fk_desc q) in
  let smplo := SIMP_UNIQ (a_spec a) && q_xth q in
  '(used, bi) ← (if smplo then btGetXthIter (nb a x) which (tree a x) (w_alow w) (w_ahigh w) (wb_ofst wb) asc
                 else btGetRangeIter (nb a x) which (tree a x) (w_alow w) (w_ahigh w) asc);
  let d := Ibtd st (if smplo then -1 else wb_ofst wb) 0 (-1) false uv used None in
  match bi with
  | None => Some d
  | Some s =>
      '(d, _, _) ← scan_tree a x s asc (fk_body pktyp ri) d;
      Some (set_which d (btReleaseRangeIterator (d_which d) (Some s)))
  end.

Definition singleOpFK (pktyp : Z) (ri : r_ind_t) (uv : aobj) (which : Z) (st : T) : option ibtd_t :=
  t ← h !! ri_btr ri;
  let afk := w_akey w in
  let d := Ibtd st (wb_ofst wb) 0 (-1) false uv which None in
  let fail d := set_card d (-1) in
  let singu := SIMP_UNIQ (a_spec (h_args t)) in
  fibtr ← (if singu then Some NULL else h_find h (ri_btr ri) afk);
  gone ← (if negb singu && iss g && is_null fibtr then h_get h (ri_btr ri) (fun a x => btIndExist a x afk) else Some false);
  if (gone : bool) then Some (fail d)
  else
    '(nbtr, nmatch, uv) ← (if singu then Some (ri_btr ri, 0, uv) else btMCIFindVal ri (num fibtr) uv);
    '(d, ok) ← run_value pktyp ri (if singu then Some afk else None) (set_uv d uv) nbtr nmatch;
    Some (if negb ok then fail d else d).

(** The keys of an IN list, looked up in the index. *)
Fixpoint in_fk_loop (pktyp : Z) (ri : r_ind_t) (keys : list aobj) (d : ibtd_t) : option ibtd_t :=
  match keys with
  | [] => Some d
  | afk :: keys =>
      beval ← h_find h (ri_btr ri) afk;
      gone ← (if iss g && is_null beval then h_get h (ri_btr ri) (fun a x => btIndExist a x afk) else Some false);
      if (gone : bool) then Some (set_card d (-1))
      else
        '(nbtr, nmatch, uv) ← btMCIFindVal ri (num beval) (d_uv d);
        if nbtr =? 0 then in_fk_loop pktyp ri keys (set_uv d uv)
        else
          '(d, ok) ← run_value pktyp ri None (set_uv d uv) nbtr nmatch;
          if negb ok then Some (set_card d (-1))
          else if d_brkr d then Some d
          else in_fk_loop pktyp ri keys d
  end.
Definition inOpFK (pktyp : Z) (ri : r_ind_t) (uv : aobj) (which : Z) (st : T) : option ibtd_t :=
  keys ← w_inl w; in_fk_loop pktyp ri keys (Ibtd st (wb_ofst wb) 0 (-1) false uv which None).

(** *** Any lookup *)

(** The state, the count and the reply; the index may be missing from a lookup by
    primary key only. *)
Definition of_fk (d : ibtd_t) : walk_t T := Walk (d_st d) (d_card d) (d_which d) (d_miss d).
Definition keyOp (pktyp : Z) (ri : r_ind_t) (uv : aobj) (which : Z) (st : T) : option (walk_t T) :=
  if negb (Z.land (w_type w) SQL_SINGLE_LKP =? 0) then '(st, card) ← singleOpPK st; Some (Walk st card which None)
  else if negb (Z.land (w_type w) SQL_SINGLE_FK_LKP =? 0) then option_map of_fk (singleOpFK pktyp ri uv which st)
  else if ri_virt ri then rangeOpPK which st
  else option_map of_fk (rangeOpFK pktyp ri uv which st).
Definition inOp (pktyp : Z) (ri : r_ind_t) (uv : aobj) (which : Z) (st : T) : option (walk_t T) :=
  if ri_virt ri then '(st, card) ← inOpPK st; Some (Walk st card which None)
  else option_map of_fk (inOpFK pktyp ri uv which st).
Definition Op (pktyp : Z) (ri : r_ind_t) (uv : aobj) (which : Z) (st : T) : option (walk_t T) :=
  if w_type w =? SQL_IN_LKP then inOp pktyp ri uv which st else keyOp pktyp ri uv which st.
End Walk.
End Range.
