(* ===== verification/RangeOps.v ===== *)
(** * SELECT, DELETE and UPDATE of several rows ([DB/range.c], actions)

    The row operations, which filter the rows and print or queue them, the loops
    over the queued rows, with LIMIT and OFFSET, and the three actions.  The text
    of a row ([outputRow]) and the row an UPDATE makes ([updateRow]) are
    arguments.  Tables with a LRU or LFU column, whose SELECT writes, are not
    covered, nor embedded output. *)

From stdpp Require Import gmap.
From S2P Require Import Prelude Stream CStr Row Aobj Filter BtSearch DirtyStream Btree BtOps BtIter BtScan BtLoop BtKey BtKeyLaws BtStream Abt GetCol Index IndexLaws OrderBy Dml Range.

(** The results of [outputRow]. *)
Inductive ost_t := OR_NONE | OR_ALLB_OK | OR_ALLB_NO | OR_LUA_FAIL.

(** What a SELECT has printed and queued, and its counters. *)
Record sel_t (R : Type) := Sel { sel_out : list R; sel_ll : list (obsl_t R); CurrCard : Z; CurrUpdated : Z }.
Arguments Sel {R}. Arguments sel_out {R}. Arguments sel_ll {R}. Arguments CurrCard {R}. Arguments CurrUpdated {R}.
(** The keys a DELETE or UPDATE has queued, in order or to be sorted. *)
Record keys_t := Keys { ks_ll : list aobj; ks_ob : list (obsl_t aobj) }.

Section Ops.
(** The columns of the table, Lua filters, and what a Lua ORDER BY gives. *)
Context (getcol : Z -> aobj -> cptr -> option aobj) (runLuaFilter : lue_t -> aobj -> cptr -> bool * bool).
Context (lua_key : aobj -> cptr -> Z -> option Z).
(** The filters, the table, and the ORDER BY columns: direction, type, number,
    whether it is inside a Lua column, and where [malloc] puts a text. *)
Context (flist : option (list f_t)) (tmatch : Z) (obs : list (bool * Z * Z * bool)) (text_addr : cptr -> Z -> Z).
Definition ob_globals : ob_cols := (fun '(asc, ctype, _, _) => (asc, ctype)) <$> obs.

(** [OP_FILTER_CHECK]: the return value, when the operation ends here. *)
Definition OP_FILTER_CHECK (apk : aobj) (rrow : cptr) : option (option bool) :=
  '(ret, hf) ← passFilts getcol runLuaFilter flist tmatch apk rrow;
  Some (if (hf : bool) then Some false else if negb ret then Some true else None).

(** The keys of a queued row; the inner [None] is the error of a Lua column. *)
Fixpoint assign_keys (obs : list (bool * Z * Z * bool)) (apk : aobj) (rrow : cptr) : option (option (list obkey)) :=
  match obs with
  | [] => Some (Some [])
  | (_, ctype, cm, nlo) :: obs =>
      k ← assignObKey (fun c => getcol c apk rrow) (lua_key apk rrow) ctype cm nlo (text_addr rrow cm);
      match k with
      | None => Some None
      | Some k => ks ← assign_keys obs apk rrow; Some (option_map (cons k) ks)
      end
  end.
Definition addRow2OBList {R} (ll : list (obsl_t R)) (row : R) (apk : aobj) (rrow : cptr) : option (list (obsl_t R) * bool) :=
  ks ← assign_keys obs apk rrow;
  match ks with
  | None => Some (ll, false)
  | Some ks => apk ← cloneAobj apk; Some (ll ++ [Obsl (Some row) ks (Some apk) None false None false], true)
  end.

Section Select.
Context {R : Type} (outputRow : aobj -> cptr -> option (ost_t * R)) (cstar : bool).

Definition select_op (st : sel_t R) (apk : aobj) (rrow : cptr) (q : bool) (card : Z) : option (sel_t R * bool * Z) :=
  chk ← OP_FILTER_CHECK apk rrow;
  match chk with
  | Some ret => Some (st, ret, card)
  | None =>
      let count st := Some (Sel (sel_out st) (sel_ll st) (CurrCard st + 1) (CurrUpdated st), true, card + 1) in
      if cstar then count st
      else
        '(ost, r) ← outputRow apk rrow;
        match ost with
        | OR_ALLB_OK => Some (Sel (sel_out st) (sel_ll st) (CurrCard st) (CurrUpdated st + 1), true, card)
        | OR_ALLB_NO => Some (st, true, card)
        | OR_LUA_FAIL => Some (st, false, card)
        | OR_NONE =>
            if q then
              '(ll, ok) ← addRow2OBList (sel_ll st) r apk rrow;
              let st := Sel (sel_out st) ll (CurrCard st) (CurrUpdated st) in
              if (ok : bool) then count st else Some (st, false, card)
            else count (Sel (sel_out st ++ [r]) (sel_ll st) (CurrCard st) (CurrUpdated st))
        end
  end.

(** The sorted rows from the OFFSET on, up to the LIMIT. *)
Fixpoint opSelectSort_loop (lim : Z) (v : list (obsl_t R)) (ofst sent : Z) (out : list R) : option (list R * Z) :=
  match v with
  | [] => Some (out, sent)
  | ob :: v =>
      if negb (lim =? -1) && (sent =? lim) then Some (out, sent)
      else if 0 <? ofst then opSelectSort_loop lim v (ofst - 1) sent out
      else r ← ob_row ob; opSelectSort_loop lim v ofst (sent + 1) (out ++ [r])
  end.
Definition opSelectSort `{QSort} (wb : wob_t) (ll : list (obsl_t R)) (out : list R) (sent : Z) : option (list R * Z) :=
  v ← sortOB2Vector ob_globals ll; opSelectSort_loop (wb_lim wb) v (wb_ofst wb) sent out.
End Select.

(** A DELETE builds its list backwards when it walks forwards. *)
Definition dellist_op (asc : bool) (st : keys_t) (apk : aobj) (rrow : cptr) (q : bool) (card : Z) : option (keys_t * bool * Z) :=
  chk ← OP_FILTER_CHECK apk rrow;
  match chk with
  | Some ret => Some (st, ret, card)
  | None =>
      if q then
        '(ll, ok) ← addRow2OBList (ks_ob st) apk apk rrow;
        let st := Keys (ks_ll st) ll in
        if (ok : bool) then Some (st, true, card + 1) else Some (st, false, card)
      else
        cln ← cloneAobj apk;
        Some (Keys (if asc then cln :: ks_ll st else ks_ll st ++ [cln]) (ks_ob st), true, card + 1)
  end.
Definition update_op (st : keys_t) (apk : aobj) (rrow : cptr) (q : bool) (card : Z) : option (keys_t * bool * Z) :=
  chk ← OP_FILTER_CHECK apk rrow;
  match chk with
  | Some ret => Some (st, ret, card)
  | None =>
      if q then
        '(ll, ok) ← addRow2OBList (ks_ob st) apk apk rrow;
        let st := Keys (ks_ll st) ll in
        if (ok : bool) then Some (st, true, card + 1) else Some (st, false, card)
      else cln ← cloneAobj apk; Some (Keys (ks_ll st ++ [cln]) (ks_ob st), true, card + 1)
  end.
End Ops.

(** ** The actions *)

(** What the client is told: the rows and their number, a count, or an error. *)
Inductive sel_reply (R : Type) := R_ROWS (card : Z) (rows : list R) | R_COUNT (card : Z) | R_ERROR.
Arguments R_ROWS {R}. Arguments R_COUNT {R}. Arguments R_ERROR {R}.

Section Actions.
Context `{Malloc} `{QSort} (floor_log2 : Z -> Z) (luatAdd luatDel : r_ind_t -> aobj -> cptr -> heap -> heap).
Context (getcol : Z -> aobj -> cptr -> option aobj) (pktyp : Z) (coltype : Z -> Z).
Context (ta : bt_args) (tb : Z) (byte_at : Z -> Z).
Context (runLuaFilter : lue_t -> aobj -> cptr -> bool * bool) (lua_key : aobj -> cptr -> Z -> option Z).
Context (tmatch : Z) (obs : list (bool * Z * Z * bool)) (text_addr : cptr -> Z -> Z).
(** The query: its WHERE clause, its ORDER BY, the index it uses, the key the last
    UNIQUE lookup left, and the iterators in use. *)
Context (w : cswc_t) (wb : wob_t) (ri : r_ind_t) (uv : aobj) (which : Z).
#[local] Abbreviation q := (setQueued w (Some ri) wb).
#[local] Abbreviation delete_row := (deleteRow floor_log2 luatDel getcol ta tb byte_at).
#[local] Abbreviation run_update := (runUpdate floor_log2 luatAdd luatDel getcol pktyp coltype tb).

(** The direction a DELETE finds in [g->asc]: that of the last tree walked. *)
Definition last_asc : bool :=
  if w_type w =? SQL_IN_LKP then if ri_virt ri then false else if UNIQ (ri_cnstr ri) then false else negb (q_inr_desc q)
  else if negb (Z.land (w_type w) SQL_SINGLE_LKP =? 0) then false
  else if negb (Z.land (w_type w) SQL_SINGLE_FK_LKP =? 0) then if UNIQ (ri_cnstr ri) then false else negb (q_inr_desc q)
  else if ri_virt ri then negb (q_pk_desc q)
  else if UNIQ (ri_cnstr ri) then negb (q_fk_desc q) else negb (q_inr_desc q).

Definition iselectAction {R} (outputRow : aobj -> cptr -> option (ost_t * R)) (qcols : Z) (cstar : bool) (h : heap)
    : option (sel_reply R) :=
  r ← Op byte_at (select_op getcol runLuaFilter lua_key (w_flist w) tmatch obs text_addr outputRow cstar)
    h tb (Stmt qcols 0 cstar false) w wb q pktyp ri uv which (Sel [] [] 0 0);
  let st := wk_st _ r in let card := wk_card _ r in
  if card =? -1 then Some R_ERROR
  else
    '(out, sent) ← (if negb (card =? 0) then
        if q_qed q then opSelectSort obs wb (sel_ll st) (sel_out st) 0 else Some (sel_out st, card)
      else Some (sel_out st, 0));
    if (card =? 0) && negb (CurrUpdated st =? 0) then Some (R_ROWS (CurrUpdated st) out)
    else
      let card := if negb (wb_lim wb =? -1) && (sent <? card) then sent else card in
      Some (if cstar then R_COUNT card else R_ROWS card out).

(** The rows of a list of keys, and how many were there. *)
Fixpoint delete_keys (h : heap) (inds : list r_ind_t) (keys : list aobj) (sent : Z) : option (heap * Z) :=
  match keys with
  | [] => Some (h, sent)
  | apk :: keys =>
      '(h, r) ← delete_row h apk inds;
      delete_keys h inds keys (if r =? 1 then sent + 1 else sent)
  end.
(** Over the reversed vector. *)
Fixpoint opDeleteSort_loop (lim : Z) (h : heap) (inds : list r_ind_t) (v : list (obsl_t aobj)) (ofst sent : Z) : option (heap * Z) :=
  match v with
  | [] => Some (h, sent)
  | ob :: v =>
      if negb (lim =? -1) && (sent =? lim) then Some (h, sent)
      else if 0 <? ofst then opDeleteSort_loop lim h inds v (ofst - 1) sent
      else
        apk ← ob_row ob;
        '(h, r) ← delete_row h apk inds;
        opDeleteSort_loop lim h inds v ofst (if r =? 1 then sent + 1 else sent)
  end.
Definition opDeleteSort (h : heap) (inds : list r_ind_t) (ll : list (obsl_t aobj)) : option (heap * Z) :=
  v ← sortOB2Vector (ob_globals obs) ll; opDeleteSort_loop (wb_lim wb) h inds (reverse v) (wb_ofst wb) 0.

(** The store and the reply: the number of rows deleted, or what the walk said. *)
Definition ideleteAction (h : heap) (inds : list r_ind_t) : option (heap * Z) :=
  r ← Op byte_at (dellist_op getcol runLuaFilter lua_key (w_flist w) tmatch obs text_addr last_asc)
    h tb (Stmt 0 0 false false) w wb q pktyp ri uv which (Keys [] []);
  let card := wk_card _ r in
  if card <=? 0 then Some (h, card)
  else
    '(h, sent) ← (if q_qed q then opDeleteSort h inds (ks_ob (wk_st _ r)) else delete_keys h inds (ks_ll (wk_st _ r)) 0);
    Some (h, if sent <? card then sent else card).

(** [updateRow] on every key; the row is looked for again.  [false] is the error of
    one of them, which ends the loop. *)
Definition update_key (h : heap) (ainc : Z) (inds : list r_ind_t) (chit : list bool) (new_row : aobj -> cptr -> option (aobj * cptr))
    (apk : aobj) : option (heap * Z * bool) :=
  rrow ← h_find h tb apk;
  match new_row apk rrow with
  | None => Some (h, ainc, false)
  | Some (npk, nrow) =>
      '(h, ainc, sz) ← run_update h ainc inds chit apk rrow npk nrow;
      Some (h, ainc, negb (sz =? -1))
  end.
Fixpoint update_keys (h : heap) (ainc : Z) (inds : list r_ind_t) (chit : list bool) (new_row : aobj -> cptr -> option (aobj * cptr))
    (keys : list aobj) (sent : Z) : option (heap * Z * Z * bool) :=
  match keys with
  | [] => Some (h, ainc, sent, true)
  | apk :: keys =>
      '(h, ainc, ok) ← update_key h ainc inds chit new_row apk;
      if (ok : bool) then update_keys h ainc inds chit new_row keys (sent + 1) else Some (h, ainc, sent, false)
  end.
Fixpoint opUpdateSort_loop (lim : Z) (h : heap) (ainc : Z) (inds : list r_ind_t) (chit : list bool)
    (new_row : aobj -> cptr -> option (aobj * cptr)) (v : list (obsl_t aobj)) (ofst sent : Z) : option (heap * Z * Z * bool) :=
  match v with
  | [] => Some (h, ainc, sent, true)
  | ob :: v =>
      if negb (lim =? -1) && (sent =? lim) then Some (h, ainc, sent, true)
      else if 0 <? ofst then opUpdateSort_loop lim h ainc inds chit new_row v (ofst - 1) sent
      else
        apk ← ob_row ob;
        '(h, ainc, ok) ← update_key h ainc inds chit new_row apk;
        if (ok : bool) then opUpdateSort_loop lim h ainc inds chit new_row v ofst (sent + 1)
        else Some (h, ainc, sent + 1, false)
  end.

(** The store, the auto-increment and the count; -1 for a walk that failed, [None]
    for an update that did, which has replied itself.  [upi]: an indexed column is
    updated. *)
Definition iupdateAction (h : heap) (ainc : Z) (inds : list r_ind_t) (chit : list bool) (ncols : Z) (upi : bool)
    (new_row : aobj -> cptr -> option (aobj * cptr)) : option (heap * Z * option Z) :=
  let upx := negb upi && (wb_lim wb =? -1) && absent (w_flist w) in
  r ← Op byte_at (update_op getcol runLuaFilter lua_key (w_flist w) tmatch obs text_addr)
    h tb (Stmt 0 ncols false upx) w wb q pktyp ri uv which (Keys [] []);
  let card := wk_card _ r in
  if card =? -1 then Some (h, ainc, Some (-1))
  else
    '(h, ainc, sent, ok) ← (if card =? 0 then Some (h, ainc, 0, true)
      else if q_qed q then
        v ← sortOB2Vector (ob_globals obs) (ks_ob (wk_st _ r));
        opUpdateSort_loop (wb_lim wb) h ainc inds chit new_row v (wb_ofst wb) 0
      else update_keys h ainc inds chit new_row (ks_ll (wk_st _ r)) 0);
    if negb ok then Some (h, ainc, None)
    else Some (h, ainc, Some (if negb (wb_lim wb =? -1) && (sent <? card) then sent else card)).
End Actions.
