(* ===== verification/RangeLaws.v ===== *)
(** * What a range query visits

    A walk of [Range] visits a list of rows: it runs the row operation on each,
    and stops when the LIMIT is reached.  [walks] states this of any lookup; it is
    the interface between the walks over the trees, proved here for ranges of the
    primary key and of the values of an index, and the statements. *)

From stdpp Require Import gmap.
From Stdlib Require Import Sorting.Sorted.
From S2P Require Import Prelude Stream CStr Row Aobj Filter BtSearch DirtyStream Btree BtOps BtIter BtScan BtLoop BtKey BtKeyLaws BtStream Abt GetCol Index IndexLaws Dml Range.

(** ** The keys of a tree as values *)

(** The flags of a tree say how wide its keys are. *)
Definition keys_flag (s : bts_t) : bool :=
  C_IS_NUM (ktype s) &&
  (if INODE_I s then C_IS_I (ktype s)
   else if INODE_L s then C_IS_L (ktype s)
   else if INODE_X s then C_IS_X (ktype s)
   else if UU s then C_IS_I (ktype s)
   else match struct_of s with Some (kw, _) => (kw =? width_of (ktype s))%nat | None => true end).

Lemma conv_flag s p : keys_flag s = true -> convertStream2Key s p = pk_obj (ktype s) (key_value s p).
Proof.
  assert (HI : forall v, key_i v = pk_obj COL_TYPE_INT (ao_i (key_i v))).
  { intros v. unfold pk_obj, initAobjInt, key_i. cbn. by rewrite uwrap_idem. }
  assert (HL : forall v, key_l v = pk_obj COL_TYPE_LONG (ao_l (key_l v))) by done.
  assert (HX : forall v, key_x v = pk_obj COL_TYPE_U128 (ao_x (key_x v))).
  { intros v. unfold pk_obj, initU128AobjFromVal, key_x. cbn. by rewrite uwrap_idem. }
  unfold keys_flag, key_value, convertStream2Key, obt_key. intros [Hn Hf]%andb_true_iff.
  destruct (num_cases _ Hn) as [E|[E|E]]; rewrite E in *; cbn [C_IS_I C_IS_L C_IS_X Z.eqb Pos.eqb COL_TYPE_INT COL_TYPE_LONG COL_TYPE_U128] in *;
    destruct (INODE_I s), (INODE_L s), (INODE_X s), (UU s), (struct_of s) as [[kw vw]|];
    try apply Nat.eqb_eq in Hf; subst; first [done | apply HI | apply HL | apply HX].
Qed.

#[local] Ltac ctype_subst :=
  repeat match goal with
  | H : C_IS_I ?x = true |- _ => apply Z.eqb_eq in H; subst x
  | H : C_IS_L ?x = true |- _ => apply Z.eqb_eq in H; subst x
  | H : C_IS_X ?x = true |- _ => apply Z.eqb_eq in H; subst x
  end.
Lemma created_flag a : created a -> keys_flag (a_spec a) = true.
Proof.
  assert (HO : forall kt vt tm bt a, createOBT kt vt tm bt = Some a -> (bt =? BTREE_INODE) = false -> keys_flag (a_spec a) = true).
  { intros kt vt tm bt a' E Hb. unfold createOBT in E.
    repeat case_match; try done; injection E as <-; ctype_subst; unfold keys_flag, INODE_I, INODE_L, INODE_X; cbn; by rewrite Hb. }
  assert (HU : forall kt im pk bt a, _createUIBT kt im pk bt = Some a -> (bt =? BTREE_INODE) = false -> keys_flag (a_spec a) = true).
  { intros kt im pk bt a' E Hb. unfold _createUIBT in E.
    repeat case_match; try done; injection E as <-; ctype_subst; unfold keys_flag, INODE_I, INODE_L, INODE_X; cbn; by rewrite Hb. }
  assert (HI : forall kt im bt, C_IS_NUM kt = true -> keys_flag (a_spec (createIBT kt im bt)) = true).
  { intros kt im bt [->|[->| ->]]%num_cases; unfold keys_flag, createIBT, INODE_I, INODE_L, INODE_X; cbn;
      by destruct (bt =? BTREE_INODE). }
  intros [kt tm nc ct dirty Hn|kt im Hn|kt im dt Hn|kt im Hn|kt im pk a' E|kt im pk a' E|kt ob a' Hn E].
  - unfold createDBT. assert (Hd : keys_flag (Bts kt BTREE_TABLE VOIDSIZE BTFLAG_NONE tm) = true).
    { by destruct (num_cases kt Hn) as [->|[->| ->]]. }
    destruct (nc =? 2); [|done]. destruct (createOBT kt ct tm BTREE_TABLE) as [a'|] eqn:E; [|done]. by apply (HO _ _ _ _ _ E).
  - by apply HI.
  - by apply HI.
  - by apply HI.
  - by apply (HU _ _ _ _ _ E).
  - by apply (HU _ _ _ _ _ E).
  - unfold createIndexNode in E. destruct (ob =? COL_TYPE_NONE); cbn [negb] in E.
    + destruct (num_cases kt Hn) as [->|[->| ->]]; by injection E as <-.
    + unfold createOBT in E. repeat case_match; try done; cbn in E; injection E as <-; by ctype_subst.
Qed.

(** The values of an index are not more than its pairs. *)
Lemma values_size (A : gmap Z Z) (E : pairs) : (forall v, is_Some (A !! v) -> exists k, ([v], k) ∈ E) -> (size A <= size E)%nat.
Proof.
  intros H. transitivity (length ((fun v => [v]) <$> elements (dom A))).
  { rewrite length_fmap, <- size_dom. unfold size, set_size. cbn. lia. }
  transitivity (length ((elements E).*1)); [|rewrite length_fmap; unfold size, set_size; cbn; lia].
  apply submseteq_length, NoDup_submseteq.
  - apply NoDup_fmap_2; [|apply NoDup_elements]. by intros x y [= ->].
  - intros w (v & -> & Hv)%list_elem_of_fmap. apply elem_of_elements, elem_of_dom in Hv. destruct (H v Hv) as [k Hk].
    apply list_elem_of_fmap. exists ([v], k). split; [done|]. by apply elem_of_elements.
Qed.

(** ** Scanning a tree that holds a map *)

(** The numbers of a set, in order. *)
Record sorted_keys (P : Z -> Prop) (ks : list Z) : Prop := {
  sk_sorted : StronglySorted Z.lt ks;
  sk_in : forall k, k ∈ ks <-> P k;
}.

Lemma sorted_nodup (ks : list Z) : StronglySorted Z.lt ks -> NoDup ks.
Proof.
  induction 1 as [|k ks _ IH HF]; constructor; [|done]. intros Hin. rewrite Forall_forall in HF. specialize (HF k Hin). lia.
Qed.

(** Some entries of a map, by their keys, in order. *)
Record in_order (m : gmap Z cptr) (P : Z -> Prop) (l : list (Z * cptr)) : Prop := {
  io_sorted : StronglySorted Z.lt l.*1;
  io_in : forall k r, (k, r) ∈ l <-> P k /\ m !! k = Some r;
}.

Lemma order_keys m P l : in_order m P l -> sorted_keys (fun k => P k /\ is_Some (m !! k)) l.*1.
Proof.
  intros [Hs Hin]. split; [done|]. intros k. rewrite list_elem_of_fmap. split.
  - intros ([k' r] & -> & H). apply Hin in H as [HP Hr]. split; [done|by exists r].
  - intros [HP [r Hr]]. exists (k, r). split; [done|]. by apply Hin.
Qed.
Lemma order_list m P l : in_order m P l -> l = (fun k => (k, default NULL (m !! k))) <$> l.*1.
Proof.
  intros [_ Hin]. rewrite <- list_fmap_compose. rewrite <- (list_fmap_id l) at 1. apply list_fmap_ext.
  intros i [k r] Hl. apply list_elem_of_lookup_2, Hin in Hl as [_ Hr]. cbn. by rewrite Hr.
Qed.
Lemma keys_rows m P l : in_order m P l -> Forall (fun k => is_Some (m !! k)) l.*1.
Proof. intros H. apply Forall_forall. intros k Hk. by apply (sk_in _ _ (order_keys m P l H) k). Qed.

Section Scan.
Context (a : bt_args) (Ha : lawful a) (Hf : keys_flag (a_spec a) = true) (byte_at : Z -> Z).
#[local] Existing Instance abt_order.
#[local] Existing Instance abt_ops.
#[local] Instance sc_laws : KeyOrderLaws (key_t (a_spec a)) := lawful_order a Ha.
#[local] Instance sc_stream : KeyStream (key_t (a_spec a)) := key_stream byte_at (a_spec a).
#[local] Instance sc_keys : NumKeyLaws (key_t (a_spec a)) := lawful_keys a byte_at Ha.

(** What a stored key is to a walk: its number and its value. *)
Definition entry (k : key_t (a_spec a)) : Z * cptr := (kn a k, default NULL (parseStream (a_spec a) (ptr k))).
Definition on_entry {X} (body : X -> aobj -> cptr -> bool -> option (X * bool)) (x : X) (e : Z * cptr) (missed : bool) :=
  body x (pk_obj (ktype (a_spec a)) e.1) e.2 missed.

Lemma each_entry {X} (body : X -> aobj -> cptr -> bool -> option (X * bool)) k r l x :
  each (on_entry body) ((k, r) :: l) x =
  '(x, stop) ← body x (pk_obj (ktype (a_spec a)) k) r false; if (stop : bool) then Some x else each (on_entry body) l x.
Proof. done. Qed.

Lemma each_entries {X} (body : X -> aobj -> cptr -> bool -> option (X * bool)) ks :
  Forall (fun k => exists r, parseStream (a_spec a) (ptr k) = Some r) ks -> forall x,
  each (fun st k missed => v ← parseStream (a_spec a) (ptr k); body st (convertStream2Key (a_spec a) (ptr k)) v missed) ks x =
  each (on_entry body) (entry <$> ks) x.
Proof.
  induction 1 as [|k ks [r Hr] _ IH]; intros x; [done|]. rewrite fmap_cons. cbn [each].
  assert (E : on_entry body x (entry k) false = body x (convertStream2Key (a_spec a) (ptr k)) r false).
  { unfold on_entry, entry. by rewrite Hr, (conv_flag _ (ptr k) Hf). }
  rewrite E, Hr. cbn [mbind option_bind]. destruct (body _ _ _ _) as [[x' stop]|]; [|done].
  cbn [mbind option_bind]. destruct stop; [done|]. apply IH.
Qed.

Lemma scan_tree_ok {X} (x : abt a) m s asc (body : X -> aobj -> cptr -> bool -> option (X * bool)) x0 ks :
  holds a x m -> scannable (tt a x) (tree a x) -> tidy (tt a x) (height (root (tree a x))) asc s (inorder (root (tree a x))) ->
  drain (S (S (length (inorder (root (tree a x)))))) (bdirty (tree a x)) s asc = Some ks ->
  (forall k, k ∈ ks -> k ∈ inorder (root (tree a x))) ->
  scan_tree byte_at a x s asc body x0 = r ← each (on_entry body) (entry <$> ks) x0; Some (r, false, 0).
Proof.
  intros H [Hb _ Hd Hg _] Ht Hdr Hin. unfold scan_tree.
  pose proof (iter_while_ok (tt a x) (params_t _ _ (abt_params a x)) (height (root (tree a x))) Hd
    (fun st k missed => v ← parseStream (a_spec a) (ptr k); body st (convertStream2Key (a_spec a) (ptr k)) v missed)
    asc (bdirty (tree a x)) (inorder (root (tree a x))) (proj1 (proj2 Hb)) Hg _ s x0 ks Ht Hdr) as Hit.
  rewrite each_entries in Hit.
  2: { apply Forall_forall. intros k Hk. by apply (h_parse a x m H k (Hin k Hk)). }
  destruct (each _ _ x0) as [x'|].
  - destruct Hit as (s' & E & Hm & _ & Hdr'). unfold sc_stream in E. unfold row_stream. rewrite E. cbn [mbind option_bind].
    by rewrite Hm, Hdr'.
  - unfold sc_stream in Hit. unfold row_stream. by rewrite Hit.
Qed.

Lemma searchable_mk v : searchable a v -> exists k, mk v = Some k.
Proof.
  intros [_ (k0 & ks0 & E & Hn)]. cbn [mk sc_stream key_stream]. rewrite E. cbn [mbind option_bind].
  rewrite Hn. destruct (key_of_ok (a_spec a) (ptr k0) (proj2_sig k0)) as (k1 & -> & _). by exists k1.
Qed.

Lemma entry_in x m k r : holds a x m -> (k, r) ∈ entry <$> inorder (root (tree a x)) <-> m !! k = Some r.
Proof.
  intros H. rewrite list_elem_of_fmap. split.
  - intros (k' & Ek & Hin). unfold entry in Ek. injection Ek as -> ->.
    destruct (h_parse a x m H k' Hin) as [(r & Hr') _]. rewrite Hr'. apply (h_map a x m H). by exists k'.
  - intros Hm. apply (h_map a x m H) in Hm as (k' & Hin & Hk & Hp). exists k'. unfold entry. by rewrite Hk, Hp.
Qed.
Lemma entry_keys l : (entry <$> l).*1 = kn a <$> l.
Proof. by rewrite <- list_fmap_compose. Qed.

Lemma entries_in_order x m lo hi : holds a x m ->
  in_order m (fun k => lo <= k <= hi) (entry <$> range_keys lo hi (inorder (root (tree a x)))).
Proof.
  intros H. split.
  - rewrite entry_keys. apply sorted_range, (holds_sorted a Ha byte_at x m H).
  - intros k r. rewrite <- (entry_in x m k r H), !list_elem_of_fmap. unfold range_keys. setoid_rewrite list_elem_of_filter.
    unfold in_range. setoid_rewrite andb_true_iff. setoid_rewrite Z.leb_le.
    split; [intros (k' & [= -> ->] & Hr & Hin)|intros [Hr (k' & [= -> ->] & Hin)]]; [split; [done|]|]; by exists k'.
Qed.
Lemma all_in_order x m : holds a x m -> in_order m (fun _ => True) (entry <$> inorder (root (tree a x))).
Proof.
  intros H. split; [rewrite entry_keys; apply (holds_sorted a Ha byte_at x m H)|].
  intros k r. rewrite (entry_in x m k r H). tauto.
Qed.

(** The iterator of a range of a tree, and the scan it gives. *)
Lemma range_walk x m which alow ahigh : holds a x m -> Z.of_nat (size m) < 2 ^ 32 ->
  (forall n r, m !! n = Some r -> NORM_BT (a_spec a) && ghost_val byte_at r = false) -> 0 <= which < MAX_NUM_ITERS -> searchable a alow ->
  exists w bi l, @btGetRangeIter _ (abt_order a) (abt_ops a) (key_stream byte_at (a_spec a)) (nb a x) which (tree a x) alow ahigh true = Some (w, bi) /\
    in_order m (fun k => obj_value (a_spec a) alow <= k <= obj_value (a_spec a) ahigh) l /\
    match bi with
    | None => l = []
    | Some s => w = which + 1 /\ empty s = false /\ missed s = false /\
        forall X (body : X -> aobj -> cptr -> bool -> option (X * bool)) x0,
          scan_tree byte_at a x s true body x0 = r ← each (on_entry body) l x0; Some (r, false, 0)
    end.
Proof.
  intros H Hsz Hlive Hw Hlow. pose proof (holds_scannable a Ha byte_at x m H Hsz Hlive) as Hsc.
  destruct (searchable_mk alow Hlow) as [bkey Hmk].
  pose proof (range_asc_ok (tt a x) _ which _ alow ahigh bkey (abt_params a x) Hsc Hw (proj1 Hlow) Hmk) as Hscan.
  unfold range_scan in Hscan. destruct (btGetRangeIter _ _ _ _ _ _) as [[w bi]|] eqn:E; [|done]. cbn [mbind option_bind] in Hscan.
  exists w, bi, (entry <$> range_keys (key_num alow) (key_num ahigh) (inorder (root (tree a x)))).
  split; [done|]. split; [by apply entries_in_order|]. destruct bi as [s|]; [|injection Hscan as Hnil; exact (f_equal (fmap entry) (eq_sym Hnil))].
  destruct (range_tidy (tt a x) _ (abt_params a x) (tree a x) Hsc true which alow ahigh bkey s w Hw Hmk E) as [-> Ht].
  pose proof Ht as ((Hm & _) & He & _). split_and!; [done..|]. intros X body x0.
  apply (scan_tree_ok x m s true body x0 _ H Hsc Ht Hscan). by intros k [_ ?]%list_elem_of_filter.
Qed.

(** The iterator of a whole tree. *)
Lemma full_walk x m which (asc : bool) : holds a x m -> Z.of_nat (size m) < 2 ^ 32 ->
  (forall n r, m !! n = Some r -> NORM_BT (a_spec a) && ghost_val byte_at r = false) -> 0 <= which < MAX_NUM_ITERS -> m <> ∅ ->
  (forall k, is_Some (m !! k) -> searchable a (pk_obj (ktype (a_spec a)) k)) ->
  exists s l, @btGetFullRangeIter _ (abt_order a) (abt_ops a) (key_stream byte_at (a_spec a)) (nb a x) which (tree a x) asc = Some (which + 1, Some s) /\
    in_order m (fun _ => True) l /\ empty s = false /\ missed s = false /\
    forall X (body : X -> aobj -> cptr -> bool -> option (X * bool)) x0,
      scan_tree byte_at a x s asc body x0 = r ← each (on_entry body) (if asc then l else reverse l) x0; Some (r, false, 0).
Proof.
  intros H Hsz Hlive Hw Hne Hse. pose proof (holds_scannable a Ha byte_at x m H Hsz Hlive) as Hsc.
  assert (Hmk : Forall (fun k => mk (conv k) <> None) (inorder (root (tree a x)))).
  { apply Forall_forall. intros k Hin. destruct (h_parse a x m H k Hin) as [(r & Hr) _].
    assert (Hm : is_Some (m !! kn a k)) by (exists r; apply (h_map a x m H); by exists k).
    destruct (searchable_mk _ (Hse _ Hm)) as [k' Hk']. cbn [conv sc_stream key_stream] in *.
    rewrite (conv_flag _ (ptr k) Hf). change (key_value (a_spec a) (ptr k)) with (kn a k). congruence. }
  assert (Hin : inorder (root (tree a x)) <> []).
  { intros E. apply Hne. apply map_eq. intros k. rewrite lookup_empty. destruct (m !! k) as [r|] eqn:Em; [|done].
    apply (h_map a x m H) in Em as (k' & Hk' & _). rewrite E in Hk'. by apply elem_of_nil in Hk'. }
  pose proof (full_scan_ok (tt a x) _ which _ asc (abt_params a x) Hsc Hw Hmk) as Hscan.
  destruct (full_start (tt a x) _ which _ asc (abt_params a x) Hsc Hw Hin Hmk) as (w & s & lo & hi & B & A & E & _).
  unfold full_scan in Hscan. rewrite E in Hscan. cbn [mbind option_bind] in Hscan.
  destruct (full_tidy (tt a x) _ (abt_params a x) (tree a x) Hsc asc which s w Hw Hmk E) as [-> Ht].
  pose proof Ht as ((Hm & _) & He & _). exists s, (entry <$> inorder (root (tree a x))).
  split_and!; [done|by apply all_in_order|done..|]. intros X body x0.
  rewrite (scan_tree_ok x m s asc body x0 _ H Hsc Ht Hscan); destruct asc; try done.
  - by rewrite fmap_reverse.
  - intros k. by rewrite elem_of_reverse.
Qed.
End Scan.

(** ** The rows a walk keeps *)

(** The LIMIT of a walk, if it has one, and what it keeps of a list of keys when
    [card] rows are counted already. *)
Definition limit (on : bool) (wb : wob_t) : option Z := if on then Some (wb_lim wb) else None.
Definition kept (lim : option Z) (card : Z) (pass : Z -> bool) (ks : list Z) : list Z :=
  let l := filter (fun k => pass k = true) ks in
  match lim with Some n => take (Z.to_nat (n - card)) l | None => l end.
(** The LIMIT is not reached. *)
Definition below_lim (lim : option Z) (card : Z) : bool := match lim with Some n => card <? n | None => true end.
Abbreviation count l := (Z.of_nat (length l)).

Lemma kept_nil lim card pass : kept lim card pass [] = [].
Proof. unfold kept. destruct lim; [apply take_nil|done]. Qed.
Lemma kept_full lim card pass ks : below_lim lim card = false -> kept lim card pass ks = [].
Proof. unfold kept, below_lim. destruct lim as [n|]; [|done]. intros H. by replace (Z.to_nat (n - card)) with O by lia. Qed.
Lemma kept_cons lim card pass k ks : below_lim lim card = true ->
  kept lim card pass (k :: ks) = if pass k then k :: kept lim (card + 1) pass ks else kept lim card pass ks.
Proof.
  unfold kept, below_lim. rewrite filter_cons. destruct (pass k) eqn:Ep.
  - rewrite decide_True by done. destruct lim as [n|]; [|done]. intros H.
    replace (Z.to_nat (n - card)) with (S (Z.to_nat (n - (card + 1)))) by lia. done.
  - by rewrite decide_False by done.
Qed.
Lemma kept_app lim card pass ks1 ks2 :
  kept lim card pass (ks1 ++ ks2) = kept lim card pass ks1 ++ kept lim (card + count (kept lim card pass ks1)) pass ks2.
Proof.
  revert card. induction ks1 as [|k ks1 IH]; intros card; cbn [app].
  - rewrite kept_nil. cbn [length app]. by rewrite Z.add_0_r.
  - destruct (below_lim lim card) eqn:Eb.
    + rewrite !kept_cons by done. destruct (pass k); [|apply IH]. rewrite IH. cbn [length app].
      do 3 f_equal. lia.
    + rewrite !(kept_full lim card pass _ Eb). cbn [length app]. rewrite Z.add_0_r. by rewrite kept_full.
Qed.
Lemma kept_le lim card pass ks : below_lim lim card = true \/ lim = Some card ->
  match lim with Some n => card + count (kept lim card pass ks) <= n | None => True end.
Proof.
  unfold kept, below_lim. destruct lim as [n|]; [|done]. intros H. rewrite length_take.
  assert (card <= n) by (destruct H as [?|[= ->]]; lia). lia.
Qed.
Lemma kept_in lim card pass ks k : k ∈ kept lim card pass ks -> k ∈ ks /\ pass k = true.
Proof.
  intros Hk. assert (H : k ∈ filter (fun k => pass k = true) ks).
  { unfold kept in Hk. destruct lim; [|done]. by apply (elem_of_take _ _ _) in Hk as (i & Hi & _); apply list_elem_of_lookup_2 in Hi. }
  apply list_elem_of_filter in H. tauto.
Qed.

Lemma kept_nodup lim card pass ks : NoDup ks -> NoDup (kept lim card pass ks).
Proof.
  intros Hn. unfold kept. assert (H : NoDup (filter (fun k => pass k = true) ks)) by (by apply NoDup_filter).
  destruct lim as [n|]; [|done]. by apply (sublist_NoDup _ _ H), sublist_take.
Qed.

(** Pairs of a value and a key, by value and then by key, forwards or backwards. *)
Definition pair_lt (desc : bool) (x y : Z * Z) : Prop :=
  x.1 < y.1 \/ x.1 = y.1 /\ if negb desc then x.2 < y.2 else y.2 < x.2.

Section Walks.
Context (byte_at : Z -> Z) (pktyp : Z) (ta : bt_args) (tb : Z) (h : heap) (rows : gmap Z cptr).
#[local] Abbreviation pk k := (pk_obj pktyp k).
#[local] Abbreviation row k := (default NULL (rows !! k)).

(** The row operation on a row of the table: it passes or it is skipped. *)
Definition follows {T} (p : T -> aobj -> cptr -> bool -> Z -> option (T * bool * Z)) (q : bool) (pass : Z -> bool) (f : T -> Z -> T) : Prop :=
  forall st k card, is_Some (rows !! k) -> p st (pk k) (row k) q card = Some (if pass k then (f st k, true, card + 1) else (st, true, card)).

(** The interface: a lookup visits some keys, which are those [spec] says, in an
    order it says; it keeps those that pass, up to the LIMIT. *)
Class Visits (g : stmt_t) (w : cswc_t) (wb : wob_t) (q : qr_t) (ri : r_ind_t) (uv : aobj) (which : Z) (lim : option Z)
    (spec : list Z -> Prop) : Prop :=
  visits : forall T p pass (f : T -> Z -> T) st, follows p (q_qed q) pass f ->
    exists ks w', spec ks /\ Op byte_at p h tb g w wb q pktyp ri uv which st =
      Some (Walk T (foldl f st (kept lim 0 pass ks)) (count (kept lim 0 pass ks)) w' None).

Section Pk.
Context (Hta : lawful ta) (Hfl : keys_flag (a_spec ta) = true) (Hkt : ktype (a_spec ta) = pktyp).
Context (g : stmt_t) (w : cswc_t) (wb : wob_t) (q : qr_t).
Context {T : Type} (p : T -> aobj -> cptr -> bool -> Z -> option (T * bool * Z)) (pass : Z -> bool) (f : T -> Z -> T).
Context (Hp : follows p (q_qed q) pass f).
(** The walk has a LIMIT of its own, and does not count rows before an OFFSET. *)
Context (Hskip : q_pk_lim q && negb (q_pk_lo q) && negb (wb_ofst wb =? -1) = false).
#[local] Abbreviation lim := (limit (q_pk_lim q) wb).

Lemma pk_op_ok st k card loops : is_Some (rows !! k) -> below_lim lim card = true ->
  pk_op_l p wb q st (pk k) (row k) card loops =
  Some (if pass k then (f st k, card + 1, loops + 1, negb (below_lim lim (card + 1)), true) else (st, card, loops + 1, false, true)).
Proof.
  intros Hk Hl. unfold pk_op_l, below_lim, limit in *. rewrite <- andb_assoc in Hskip. destruct (q_pk_lim q).
  - cbn [andb] in *. rewrite Hskip. cbn [andb]. rewrite (Hp st k card Hk). cbn [mbind option_bind]. destruct (pass k).
    + destruct (Z.eqb_spec (wb_lim wb) (card + 1)); [by rewrite (proj2 (Z.ltb_ge _ _)) by lia|].
      rewrite (proj2 (Z.ltb_lt _ _)) by lia. done.
    + rewrite (proj2 (Z.eqb_neq _ _)) by lia. done.
  - cbn [andb]. rewrite (Hp st k card Hk). cbn [mbind option_bind]. by destruct (pass k).
Qed.

Lemma pk_each out ks : Forall (fun k => is_Some (rows !! k)) ks -> forall st card loops, below_lim lim card = true ->
  exists loops', each (on_entry ta (pk_body p g wb q out)) ((fun k => (k, row k)) <$> ks) (Walk T st card out None, loops) =
    Some (Walk T (foldl f st (kept lim card pass ks)) (card + count (kept lim card pass ks)) out None, loops').
Proof.
  induction 1 as [|k ks Hk _ IH]; intros st card loops Hl.
  - rewrite kept_nil. cbn. rewrite Z.add_0_r. by eexists.
  - rewrite fmap_cons. cbn [each].
    assert (E : on_entry ta (pk_body p g wb q out) (Walk T st card out None, loops) (k, row k) false =
      Some (if pass k then (Walk T (f st k) (card + 1) out None, loops + 1, negb (below_lim lim (card + 1)))
            else (Walk T st card out None, loops + 1, false))).
    { unfold on_entry, pk_body. cbn [andb fst snd wk_st wk_card wk_miss]. rewrite Hkt, (pk_op_ok st k card loops Hk Hl).
      cbn [mbind option_bind]. by destruct (pass k). }
    rewrite E, kept_cons by done. destruct (pass k); cbn [mbind option_bind negb]; [|by apply IH].
    destruct (below_lim lim (card + 1)) eqn:Eb; cbn [negb].
    + destruct (IH (f st k) (card + 1) (loops + 1) Eb) as [loops' ->]. eexists. cbn [foldl length]. do 3 f_equal. lia.
    + rewrite (kept_full _ _ _ _ Eb). cbn [foldl length]. eexists. do 3 f_equal.
Qed.

(** The walk over a range of the primary key. *)
Lemma pk_walk which st : h_holds h tb ta rows -> Z.of_nat (size rows) < 2 ^ 32 ->
  (forall k r, rows !! k = Some r -> NORM_BT (a_spec ta) && ghost_val byte_at r = false) ->
  0 <= which < MAX_NUM_ITERS -> searchable ta (w_alow w) ->
  q_xth q = false -> q_pk_desc q = false -> below_lim lim 0 = true ->
  exists ks w', sorted_keys (fun k => obj_value (a_spec ta) (w_alow w) <= k <= obj_value (a_spec ta) (w_ahigh w) /\ is_Some (rows !! k)) ks /\
    rangeOpPK byte_at p h tb g w wb q which st =
    Some (Walk T (foldl f st (kept lim 0 pass ks)) (count (kept lim 0 pass ks)) w' None).
Proof.
  intros (x & Ex & Hx) Hsz Hlive Hw Hlow Hxth Hdesc Hl. unfold rangeOpPK. rewrite Ex, Hxth, Hdesc.
  cbn [mbind option_bind h_args h_tree negb].
  destruct (range_walk ta Hta Hfl byte_at x rows which (w_alow w) (w_ahigh w) Hx Hsz Hlive Hw Hlow) as (wi & bi & l & E & Hord & Hbi).
  exists l.*1. unfold row_stream. rewrite E. cbn [mbind option_bind].
  assert (Hks : sorted_keys (fun k => obj_value (a_spec ta) (w_alow w) <= k <= obj_value (a_spec ta) (w_ahigh w) /\ is_Some (rows !! k)) l.*1)
    by by apply order_keys.
  destruct bi as [s|].
  - destruct Hbi as (_ & -> & -> & Hscan). cbn [andb]. rewrite Hscan.
    exists (btReleaseRangeIterator wi (Some s)). split; [done|].
    destruct (pk_each (btReleaseRangeIterator wi (Some s)) l.*1 (keys_rows _ _ _ Hord) st 0 (-1) Hl) as [loops' E2].
    rewrite <- (order_list _ _ _ Hord) in E2. rewrite E2. cbn [mbind option_bind]. by destruct (q_pk_lim q); rewrite ?andb_false_r.
  - subst l. exists wi. split; [done|]. cbn [fmap list_fmap]. by rewrite kept_nil.
Qed.
End Pk.

Section Fk.
Context (Hrows : forall k, is_Some (rows !! k) -> h_find h tb (pk k) = Some (row k)).
Context (g : stmt_t) (w : cswc_t) (wb : wob_t) (q : qr_t) (ri : r_ind_t).
Context {T : Type} (p : T -> aobj -> cptr -> bool -> Z -> option (T * bool * Z)) (pass : Z -> bool) (f : T -> Z -> T).
Context (Hp : follows p (q_qed q) pass f) (Hobc : ri_obc ri = -1).
(** There is no OFFSET. *)
Context (Hlo : q_fk_lo q = false) (Hxth : q_xth q = false).
#[local] Abbreviation lim := (limit (q_fk_lim q) wb).
#[local] Abbreviation pair_lt := (pair_lt (q_inr_desc q)).
Definition inner (ks : list Z) : list Z := if negb (q_inr_desc q) then ks else reverse ks.

(** The operations on a walk [d] over the keys [ks]. *)
Definition ran (d : @ibtd_t T) (ks : list Z) (loops : Z) (brkr : bool) : @ibtd_t T :=
  let K := kept lim (d_card d) pass ks in
  Ibtd (foldl f (d_st d) K) (d_ofst d) (d_card d + count K) loops brkr (d_uv d) (d_which d) (d_miss d).

Lemma nbt_op_ok s d k : is_Some (rows !! k) -> d_ofst d <= d_loops d -> below_lim lim (d_card d) = true ->
  nbt_body p h tb g wb q pktyp ri s (d, true) (pk k) NULL false =
  Some (ran d [k] (d_loops d + 1) (d_brkr d || negb (below_lim lim (d_card d + count (kept lim (d_card d) pass [k])))), true,
    d_brkr d || negb (below_lim lim (d_card d + count (kept lim (d_card d) pass [k])))).
Proof.
  intros Hk Ho Hl. unfold nbt_body, nBT_ROp. cbn [andb d_loops set_loops d_ofst].
  rewrite (proj2 (Z.ltb_ge _ _)) by lia. rewrite andb_false_r, Hobc. cbn [Z.eqb Pos.eqb]. unfold row_of_key.
  rewrite (Hrows k Hk). cbn [mbind option_bind set_loops d_st d_card]. rewrite (Hp (d_st d) k (d_card d) Hk).
  unfold ran. rewrite kept_cons, !kept_nil by done. unfold below_lim, limit in *.
  destruct d as [st o c l b u wh ms]. cbn in *.
  destruct (pass k); cbn; destruct (q_fk_lim q); cbn; rewrite ?Z.add_0_r, ?orb_false_r, ?orb_true_r; try done.
  - destruct (Z.eqb_spec (wb_lim wb) (c + 1)) as [E|E].
    + rewrite (proj2 (Z.ltb_ge (c + 1) _)) by lia. cbn. by rewrite orb_true_r.
    + rewrite (proj2 (Z.ltb_lt (c + 1) _)) by lia. cbn. by rewrite orb_false_r.
  - rewrite (proj2 (Z.eqb_neq _ _)) by lia. rewrite Hl. cbn. by rewrite orb_false_r.
Qed.

Lemma ran_nil d loops brkr : ran d [] loops brkr = Ibtd (d_st d) (d_ofst d) (d_card d) loops brkr (d_uv d) (d_which d) (d_miss d).
Proof. unfold ran. rewrite kept_nil. cbn. by rewrite Z.add_0_r. Qed.
Lemma ran_app d ks1 ks2 l1 b1 l2 b2 : ran (ran d ks1 l1 b1) ks2 l2 b2 = ran d (ks1 ++ ks2) l2 b2.
Proof.
  unfold ran. cbn [d_st d_ofst d_card d_uv d_which d_miss]. rewrite kept_app, foldl_app, length_app. f_equal. lia.
Qed.
(** A walk with its LIMIT reached keeps nothing more. *)
Lemma ran_stop d ks1 ks2 l b : below_lim lim (d_card (ran d ks1 l b)) = false -> ran d (ks1 ++ ks2) l b = ran d ks1 l b.
Proof. intros Hl. unfold ran in *. cbn [d_card] in Hl. rewrite kept_app, (kept_full _ _ _ ks2 Hl). by rewrite app_nil_r. Qed.

(** The loop over the keys of a node. *)
Lemma nbt_each node s ks : ktype (a_spec node) = pktyp -> Forall (fun k => is_Some (rows !! k)) ks -> forall d,
  d_ofst d <= d_loops d -> d_brkr d = false -> below_lim lim (d_card d) = true ->
  exists loops b, d_loops d <= loops /\ each (on_entry node (nbt_body p h tb g wb q pktyp ri s)) ((fun k => (k, NULL)) <$> ks) (d, true) =
      Some (ran d ks loops b, true) /\ b = negb (below_lim lim (d_card (ran d ks loops b))).
Proof.
  intros Hkt. induction 1 as [|k ks Hk _ IH]; intros d Ho Hb Hl.
  - exists (d_loops d), false. rewrite ran_nil. cbn. rewrite Hl. split_and!; [lia| |done]. destruct d. cbn in *. by subst.
  - rewrite fmap_cons, each_entry, Hkt.
    rewrite (nbt_op_ok s d k Hk Ho Hl), Hb. cbn [orb mbind option_bind]. set (b := negb _).
    change (k :: ks) with ([k] ++ ks). destruct b eqn:Eb; subst b.
    + exists (d_loops d + 1), true. rewrite ran_stop by (by apply negb_true_iff in Eb). split_and!; [lia|done|].
      symmetry. exact Eb.
    + apply negb_false_iff in Eb.
      destruct (IH (ran d [k] (d_loops d + 1) false)) as (loops & b & Hlo' & E & Hb'); [cbn; lia|done|exact Eb|].
      exists loops, b. rewrite <- (ran_app d [k] ks (d_loops d + 1) false). cbn in Hlo'. split_and!; [lia|done|done].
Qed.

Context (Hpk : C_IS_NUM pktyp = true) (Hcs : g_cstar g && absent (w_flist w) = false).

Lemma node_facts node : createIndexNode pktyp COL_TYPE_NONE = Some node ->
  lawful node /\ keys_flag (a_spec node) = true /\ ktype (a_spec node) = pktyp.
Proof.
  intros Hn. pose proof (created_node pktyp COL_TYPE_NONE node Hpk Hn) as Hc.
  split_and!; [by apply created_lawful|by apply created_flag|].
  clear - Hn Hpk. by destruct (num_cases pktyp Hpk) as [->|[->| ->]]; injection Hn as <-.
Qed.

(** The keys of a node are rows of the table. *)
Definition node_rows (m : gmap Z cptr) : Prop :=
  forall k r, m !! k = Some r -> r = NULL /\ pk_ok pktyp k /\ is_Some (rows !! k).

Lemma node_list m l : in_order m (fun _ => True) l -> node_rows m ->
  sorted_keys (fun k => is_Some (m !! k)) l.*1 /\
  (if negb (q_inr_desc q) then l else reverse l) = (fun k => (k, NULL)) <$> inner l.*1 /\
  Forall (fun k => is_Some (rows !! k)) (inner l.*1).
Proof.
  intros Hord Hm. pose proof (order_keys m _ l Hord) as [Hs Hi].
  assert (El : l = (fun k => (k, NULL)) <$> l.*1).
  { rewrite (order_list m _ l Hord) at 1. apply list_fmap_ext. intros j k Hk. apply list_elem_of_lookup_2, Hi in Hk as [_ [r Hr]].
    rewrite Hr. by destruct (Hm k r Hr) as (-> & _). }
  split_and!.
  - split; [done|]. intros k. rewrite Hi. tauto.
  - unfold inner. destruct (negb (q_inr_desc q)); [exact El|by rewrite fmap_reverse, <- El].
  - apply Forall_forall. intros k Hk. assert (Hk' : k ∈ l.*1) by (unfold inner in Hk; destruct (negb _); [done|by apply elem_of_reverse]).
    apply Hi in Hk' as [_ [r Hr]]. by destruct (Hm k r Hr) as (_ & _ & ?).
Qed.

Lemma node_iter d nbtr node m : createIndexNode pktyp COL_TYPE_NONE = Some node -> h_holds h nbtr node m -> m <> ∅ ->
  node_rows m -> Z.of_nat (size m) < 2 ^ 32 -> 0 <= d_which d < MAX_NUM_ITERS -> d_ofst d <= d_loops d ->
  below_lim lim (d_card d) = true ->
  exists ks loops b, sorted_keys (fun k => is_Some (m !! k)) ks /\ d_loops d <= loops /\
    nBT_Op byte_at p h tb g w wb q pktyp ri d nbtr = Some (ran d (inner ks) loops b, true) /\
    b = negb (below_lim lim (d_card (ran d (inner ks) loops b))).
Proof.
  intros Hn (x & Ex & Hx) Hne Hm Hsz Hw Ho Hl. destruct (node_facts node Hn) as (Hlaw & Hfl & Hkt).
  destruct (full_walk node Hlaw Hfl byte_at x m (d_which d) (negb (q_inr_desc q)) Hx Hsz) as (s & l & E & Hord & He & Hms & Hscan); try done.
  { intros k r Hk. destruct (Hm k r Hk) as (-> & _). by rewrite andb_false_r. }
  { intros k [r Hk]. destruct (Hm k r Hk) as (_ & Hok & _). rewrite Hkt. by apply (node_stores pktyp node k Hpk Hn Hok). }
  destruct (node_list m l Hord Hm) as (Hks & El & Hin). rewrite El in Hscan.
  destruct (nbt_each node (a_spec node) (inner l.*1) Hkt Hin (set_brkr d false) Ho eq_refl Hl) as (loops & b & Hloops & Ee & Hb).
  exists l.*1, loops, b. split; [done|]. split; [done|]. split; [|done].
  unfold nBT_Op. rewrite Ex, Hcs, Hlo, Hxth. cbn [mbind option_bind h_args h_tree andb]. unfold row_stream.
  change (d_which (set_brkr d false)) with (d_which d). rewrite E. cbn [mbind option_bind]. rewrite He, Hms. cbn [andb].
  rewrite Hscan, Ee. cbn [mbind option_bind Z.eqb negb]. rewrite andb_false_r.
  replace (if q_fk_lim q then false else false) with false by (by destruct (q_fk_lim q)). rewrite andb_false_r.
  unfold btReleaseRangeIterator. replace (d_which d + 1 - 1) with (d_which d) by lia.
  change (set_which (ran (set_brkr d false) (inner l.*1) loops b) (d_which d)) with (ran d (inner l.*1) loops b).
  destruct (q_fk_lim q && _) eqn:Elim; [|done]. apply andb_true_iff in Elim as [Elim Hc%Z.eqb_eq].
  change (d_card (ran (set_brkr d false) (inner l.*1) loops b)) with (d_card (ran d (inner l.*1) loops b)) in Hb.
  assert (b = true) as ->; [|done]. rewrite Hb. unfold below_lim, limit. rewrite Elim. cbn [mbind option_bind] in Hc |- *.
  apply negb_true_iff, Z.ltb_ge. lia.
Qed.

(** A plain index, by its first column only. *)
Context (Hu : UNIQ (ri_cnstr ri) = false) (Hcl : ri_clist ri = false) (Hkl : w_klist w = None).
Context (node : bt_args) (Hn : createIndexNode pktyp COL_TYPE_NONE = Some node).

(** The node of a value, whose keys are those [K] says. *)
Record node_of (K : Z -> Prop) (r : cptr) : Prop := {
  nd_addr : exists n, r = PNum n /\ 0 < n < 2 ^ 64;
  nd_map : exists m, h_holds h (num r) node m /\ m <> ∅ /\ node_rows m /\ Z.of_nat (size m) < 2 ^ 32 /\
    forall k, is_Some (m !! k) <-> K k;
}.

Lemma fk_value K d (a : aobj) r : node_of K r -> 0 <= d_which d < MAX_NUM_ITERS -> d_ofst d <= d_loops d ->
  below_lim lim (d_card d) = true ->
  exists ks loops b, sorted_keys K ks /\ d_loops d <= loops /\
    fk_body byte_at p h tb g w wb q pktyp ri d a r false = Some (ran d (inner ks) loops b, b) /\
    b = negb (below_lim lim (d_card (ran d (inner ks) loops b))).
Proof.
  intros [(n & -> & Hn0) (m & Hm & Hne & Hr & Hsz & HK)] Hw Ho Hl. destruct (addr_ptr n Hn0) as [Hnull Hnum].
  rewrite Hnum in Hm.
  destruct (node_iter d n node m Hn Hm Hne Hr Hsz Hw Ho Hl) as (ks & loops & b & [Hs Hin] & Hlo' & E & Hb).
  exists ks, loops, b. split; [split; [done|]; intros k; by rewrite Hin, HK|]. split; [done|]. split; [|done].
  unfold fk_body. rewrite Hnull, Hcl, Hu, andb_false_r. unfold btMCIFindVal. rewrite Hkl, Hnum. cbn [mbind option_bind negb andb].
  unfold run_value, nexpc, node_op. rewrite (proj2 (Z.eqb_neq n 0)) by lia. rewrite Hcl, Hu.
  change (negb (u32 (0 - 0) =? 0)) with false. cbn [mbind option_bind negb].
  replace (set_uv d (d_uv d)) with d by (by destruct d). rewrite E. cbn [mbind option_bind negb]. done.
Qed.

Lemma choose_keys (K : Z -> Z -> Prop) l : Forall (fun e => node_of (K e.1) e.2) l ->
  exists kss, Forall2 (fun e ks => sorted_keys (K e.1) ks) l kss.
Proof.
  induction 1 as [|e l [_ (m & (x & _ & Hx) & _ & _ & _ & HK)] _ [kss IH]]; [by exists []|].
  destruct (node_facts node Hn) as (Hlaw & _ & _). pose proof (all_in_order node Hlaw byte_at x m Hx) as Hord.
  destruct (order_keys m _ _ Hord) as [Hs Hi]. eexists (_ :: kss). constructor; [|done].
  split; [exact Hs|]. intros k. rewrite Hi, HK. tauto.
Qed.

(** The loop over the values of the index. *)
Lemma fk_each ia (K : Z -> Z -> Prop) l : Forall (fun e => node_of (K e.1) e.2) l -> forall d,
  0 <= d_which d < MAX_NUM_ITERS -> d_ofst d <= d_loops d -> below_lim lim (d_card d) = true ->
  exists kss loops b, Forall2 (fun e ks => sorted_keys (K e.1) ks) l kss /\
    each (on_entry ia (fk_body byte_at p h tb g w wb q pktyp ri)) l d = Some (ran d (concat (inner <$> kss)) loops b).
Proof.
  induction 1 as [|[v r] l Hv Hrest IH]; intros d Hw Ho Hl.
  - exists [], (d_loops d), (d_brkr d). split; [constructor|]. cbn [fmap list_fmap concat]. rewrite ran_nil. by destruct d.
  - rewrite each_entry. destruct (fk_value _ d (pk_obj (ktype (a_spec ia)) v) r Hv Hw Ho Hl) as (ks & loops & b & Hks & Hlo' & -> & Hb).
    cbn [mbind option_bind]. destruct b.
    + destruct (choose_keys K l Hrest) as [kss Hkss].
      exists (ks :: kss), loops, true. split; [by constructor|]. cbn [fmap list_fmap concat].
      by rewrite ran_stop by (by apply negb_true_iff).
    + symmetry in Hb. apply negb_false_iff in Hb.
      destruct (IH (ran d (inner ks) loops false)) as (kss & loops2 & b2 & Hkss & ->); [done|cbn; lia|done|].
      exists (ks :: kss), loops2, b2. split; [by constructor|]. by rewrite ran_app.
Qed.


Lemma inner_sorted K v ks : sorted_keys K ks -> StronglySorted pair_lt ((fun k => (v, k)) <$> inner ks).
Proof.
  intros [Hs _]. unfold inner, RangeLaws.pair_lt. destruct (negb (q_inr_desc q)).
  - induction Hs as [|k ks _ IH HF]; cbn; constructor; [done|]. apply Forall_fmap.
    eapply Forall_impl; [exact HF|]. cbn. auto.
  - induction Hs as [|k ks _ IH HF]; [constructor|]. rewrite reverse_cons, fmap_app. apply StronglySorted_app_2; [|done|repeat constructor].
    intros x1 x2 (k1 & -> & Hk1)%list_elem_of_fmap (k2 & -> & Hk2)%list_elem_of_fmap. cbn. right. split; [done|].
    apply list_elem_of_singleton in Hk2 as ->. rewrite Forall_forall in HF. apply HF. by apply elem_of_reverse.
Qed.

Lemma pairs_of (K : Z -> Z -> Prop) (l : list (Z * cptr)) kss : StronglySorted Z.lt l.*1 ->
  Forall2 (fun e ks => sorted_keys (K e.1) ks) l kss ->
  exists ps : list (Z * Z), StronglySorted pair_lt ps /\ ps.*2 = concat (inner <$> kss) /\
    forall v k, (v, k) ∈ ps <-> v ∈ l.*1 /\ K v k.
Proof.
  intros Hs HF. induction HF as [|[v r] ks l kss Hk _ IH].
  - exists []. split_and!; [constructor|done|]. intros v k. cbn. rewrite !elem_of_nil. tauto.
  - cbn [fmap list_fmap] in Hs. apply StronglySorted_inv in Hs as [Hs Hv]. destruct (IH Hs) as (ps & Hps & E & Hin).
    assert (Hi : forall k, k ∈ inner ks <-> K v k).
    { intros k. rewrite <- (sk_in _ _ Hk k). unfold inner. destruct (negb _); [done|apply elem_of_reverse]. }
    exists (((fun k => (v, k)) <$> inner ks) ++ ps). split_and!.
    + apply StronglySorted_app_2; [|by apply (inner_sorted (K v))|done].
      intros x1 [v2 k2] (k1 & -> & _)%list_elem_of_fmap [H2 _]%Hin. left. rewrite Forall_forall in Hv. by apply Hv.
    + rewrite fmap_app, <- list_fmap_compose, E. cbn [fmap list_fmap concat]. f_equal. apply list_fmap_id.
    + intros v' k. rewrite elem_of_app, Hin, list_elem_of_fmap. cbn [fmap list_fmap]. rewrite elem_of_cons. setoid_rewrite Hi. split.
      * intros [(k' & [= -> ->] & ?)|[? ?]]; auto.
      * intros [[->|?] ?]; [left; by exists k|auto].
Qed.

(** The walk over a range of the values of an index that holds the pairs [E]. *)
Lemma index_flags : C_IS_NUM (ri_dtype ri) = true -> let ia := createIndexBT (ri_dtype ri) (ri_num ri) in
  lawful ia /\ keys_flag (a_spec ia) = true /\ NORM_BT (a_spec ia) = false.
Proof.
  intros Hd. pose proof (created_index (ri_dtype ri) (ri_num ri) Hd) as Hc.
  split_and!; [by apply created_lawful|by apply created_flag|]. by destruct (num_cases _ Hd) as [->|[->| ->]].
Qed.

Lemma index_nodes A fp E : rep1 ri node A h fp E -> Z.of_nat (size E) < 2 ^ 32 ->
  (forall v k, ([v], k) ∈ E -> pk_ok pktyp k /\ is_Some (rows !! k)) ->
  (forall v n, A !! v = Some n -> node_of (fun k => ([v], k) ∈ E) (PNum n)) /\
  Z.of_nat (size (PNum <$> A : gmap Z cptr)) < 2 ^ 32.
Proof.
  intros R HszE Hpairs.
  assert (Hnode : forall v n, A !! v = Some n -> node_of (fun k => ([v], k) ∈ E) (PNum n)).
  { intros v n Hv. destruct (r1_node ri node A h fp E R v n Hv) as (Hb & m & Hm & Hne & Hc). split; [by exists n|].
    rewrite (proj2 (addr_ptr n Hb)). exists m. split_and!; [done|done| | |].
    - intros k r Hr. apply Hc in Hr as [-> Hk]. split; [done|]. by apply (Hpairs v).
    - enough (size m <= size E)%nat by lia. apply (keys_size E m [v]). by intros k [r [_ ?]%Hc].
    - intros k. split; [by intros [r [_ ?]%Hc]|]. intros Hk. exists NULL. by apply Hc. }
  split; [done|]. rewrite map_size_fmap. enough (size A <= size E)%nat by lia. apply values_size. intros v [n Hv].
  destruct (Hnode v n Hv) as [_ (m & _ & Hne & _ & _ & HK)]. apply map_choose in Hne as (k & r & Hk).
  exists k. apply HK. by exists r.
Qed.

Lemma fk_walk A fp E uv which st : rep1 ri node A h fp E -> Z.of_nat (size E) < 2 ^ 32 -> C_IS_NUM (ri_dtype ri) = true ->
  (forall v k, ([v], k) ∈ E -> pk_ok pktyp k /\ is_Some (rows !! k)) -> 0 <= which -> which + 1 < MAX_NUM_ITERS ->
  searchable (createIndexBT (ri_dtype ri) (ri_num ri)) (w_alow w) -> q_fk_desc q = false -> below_lim lim 0 = true -> wb_ofst wb = -1 ->
  exists ps w', StronglySorted pair_lt ps /\
    (forall v k, (v, k) ∈ ps <-> val_of (ri_dtype ri) (w_alow w) <= v <= val_of (ri_dtype ri) (w_ahigh w) /\ ([v], k) ∈ E) /\
    option_map of_fk (rangeOpFK byte_at p h tb g w wb q pktyp ri uv which st) =
    Some (Walk T (foldl f st (kept lim 0 pass ps.*2)) (count (kept lim 0 pass ps.*2)) w' None).
Proof.
  intros R HszE Hd Hpairs Hw Hw1 Hlow Hdesc Hl Hofst. set (ia := createIndexBT (ri_dtype ri) (ri_num ri)) in *.
  destruct (index_flags Hd) as (Hia & Hfl & Hnorm). fold ia in Hia, Hfl, Hnorm.
  pose proof (r1_root ri node A h fp E R) as (x & Ex & Hx). fold ia in Ex, Hx.
  destruct (index_nodes A fp E R HszE Hpairs) as [Hnode HszA].
  unfold rangeOpFK. rewrite Ex, Hxth, Hdesc, Hofst. cbn [mbind option_bind h_args h_tree negb].
  rewrite andb_false_r.
  destruct (range_walk ia Hia Hfl byte_at x (PNum <$> A) which (w_alow w) (w_ahigh w) Hx HszA) as (wi & bi & l & Ei & Hord & Hbi);
    [intros; by rewrite Hnorm|lia|done|]. unfold row_stream. rewrite Ei. cbn [mbind option_bind].
  assert (HF : Forall (fun e => node_of (fun k => ([e.1], k) ∈ E) e.2) l).
  { apply Forall_forall. intros [v r] Hvr. apply (io_in _ _ _ Hord) in Hvr as [_ Hr].
    apply lookup_fmap_Some in Hr as (n & <- & Hn'). by apply Hnode. }
  assert (Hvals : forall v k, v ∈ l.*1 /\ ([v], k) ∈ E <->
    val_of (ri_dtype ri) (w_alow w) <= v <= val_of (ri_dtype ri) (w_ahigh w) /\ ([v], k) ∈ E).
  { intros v k. rewrite (sk_in _ _ (order_keys _ _ _ Hord) v). unfold ia. rewrite !(index_value _ _ _ Hd). split; [tauto|].
    intros [Hv Hk]. split; [split; [done|]|done]. destruct (r1_all ri node A h fp E R _ _ Hk) as (v' & [= <-] & HA). by rewrite lookup_fmap, fmap_is_Some. }
  set (d := Ibtd st (-1) 0 (-1) false uv wi None). destruct bi as [s|].
  - destruct Hbi as (-> & _ & _ & Hscan). rewrite Hscan.
    destruct (fk_each ia (fun v k => ([v], k) ∈ E) l HF d) as (kss & loops & b & HF2 & ->); [cbn; lia|cbn; lia|done|].
    destruct (pairs_of (fun v k => ([v], k) ∈ E) l kss (io_sorted _ _ _ Hord) HF2) as (ps & Hs & Eps & Hin).
    exists ps. eexists. split; [done|]. split; [intros v k; by rewrite Hin|]. rewrite Eps. done.
  - subst l. exists [], wi. split; [constructor|]. split; [|by rewrite kept_nil].
    intros v k. rewrite <- Hvals. cbn [fmap list_fmap]. rewrite !elem_of_nil. tauto.
Qed.

(** The lookup of one value. *)
Lemma fk_single A fp E uv which st : rep1 ri node A h fp E -> Z.of_nat (size E) < 2 ^ 32 -> C_IS_NUM (ri_dtype ri) = true ->
  (forall v k, ([v], k) ∈ E -> pk_ok pktyp k /\ is_Some (rows !! k)) -> 0 <= which < MAX_NUM_ITERS ->
  searchable (createIndexBT (ri_dtype ri) (ri_num ri)) (w_akey w) -> below_lim lim 0 = true -> wb_ofst wb = -1 ->
  exists ps w', StronglySorted pair_lt ps /\
    (forall v k, (v, k) ∈ ps <-> val_of (ri_dtype ri) (w_akey w) <= v <= val_of (ri_dtype ri) (w_akey w) /\ ([v], k) ∈ E) /\
    option_map of_fk (singleOpFK byte_at p h tb g w wb q pktyp ri uv which st) =
    Some (Walk T (foldl f st (kept lim 0 pass ps.*2)) (count (kept lim 0 pass ps.*2)) w' None).
Proof.
  intros R HszE Hd Hpairs Hw Hkey Hl Hofst. set (ia := createIndexBT (ri_dtype ri) (ri_num ri)) in *.
  destruct (index_flags Hd) as (Hia & _ & _). fold ia in Hia.
  pose proof (r1_root ri node A h fp E R) as Hroot. fold ia in Hroot.
  pose proof (h_find_ok ia Hia h (ri_btr ri) _ (w_akey w) Hroot Hkey) as Hfind.
  destruct Hroot as (x & Ex & Hx). destruct (find_holds ia Hia x _ _ Hx Hkey) as [_ Hex].
  assert (Hval : obj_value (a_spec ia) (w_akey w) = val_of (ri_dtype ri) (w_akey w)) by (by apply index_value).
  rewrite Hval, lookup_fmap in *. set (v := val_of (ri_dtype ri) (w_akey w)) in *.
  destruct (index_nodes A fp E R HszE Hpairs) as [Hnode _].
  assert (Hsimp : SIMP_UNIQ (a_spec ia) = false) by (by destruct (num_cases _ Hd) as [E1|[E1|E1]]; unfold ia; rewrite E1).
  unfold singleOpFK. rewrite Ex. cbn [mbind option_bind h_args h_tree]. rewrite Hsimp, Hfind, Hofst. cbn [mbind option_bind negb andb].
  set (d := Ibtd st (-1) 0 (-1) false uv which None). destruct (A !! v) as [n|] eqn:HA; cbn [fmap option_fmap option_map default].
  - change (id (PNum n)) with (PNum n). destruct (Hnode v n HA) as [(n' & [= <-] & Hb) _]. destruct (addr_ptr n Hb) as [Hnull _].
    rewrite Hnull, andb_false_r. cbn [mbind option_bind].
    destruct (fk_value _ d (w_akey w) (PNum n) (Hnode v n HA) Hw ltac:(cbn; lia) Hl) as (ks & loops & b & Hks & _ & E1 & _).
    destruct (pairs_of (fun v k => ([v], k) ∈ E) [(v, PNum n)] [ks]) as (ps & Hs & Eps & Hin); [by do 2 constructor|by constructor; [|constructor]|].
    exists ps, which. split; [done|]. split.
    { intros v' k. rewrite Hin. cbn [fmap list_fmap fst]. rewrite list_elem_of_singleton. split; intros [Hv' ?]; (split; [lia|done]). }
    unfold fk_body in E1. rewrite Hnull, Hcl, Hu, andb_false_r in E1. cbn [negb andb] in E1. change (d_uv d) with uv in E1.
    destruct (btMCIFindVal h w ri (num (PNum n)) uv) as [[[nb' nm] uv']|]; [|done]. cbn [mbind option_bind] in E1 |- *.
    change (Ibtd st (-1) 0 (-1) false uv which None) with d.
    destruct (run_value _ _ _ _ _ _ _ _ _ _ _ _ _ _) as [[d' ok]|]; [|done]. cbn [mbind option_bind] in E1 |- *.
    destruct ok; cbn [negb] in *; [|exfalso; assert (E2 : set_card d' (-1) = ran d (inner ks) loops b) by congruence;
      apply (f_equal d_card) in E2; cbn in E2; lia].
    assert (d' = ran d (inner ks) loops b) as -> by congruence. cbn [option_map]. rewrite Eps. cbn. by rewrite app_nil_r.
  - exists [], which. split; [constructor|]. split.
    { intros v' k. rewrite elem_of_nil. split; [done|]. intros [Hv' Hk]. assert (v' = v) as -> by lia.
      destruct (r1_all ri node A h fp E R _ _ Hk) as (v2 & [= <-] & HA'). rewrite HA in HA'. by destruct HA'. }
    assert (Hg : h_get h (ri_btr ri) (fun a x => btIndExist a x (w_akey w)) = Some false).
    { unfold h_get. rewrite Ex. cbn [mbind option_bind h_args h_tree]. unfold btIndExist. rewrite Hex.
      by rewrite bool_decide_eq_false_2 by (by intros []). }
    rewrite Hg. destruct (iss g && _); cbn [mbind option_bind]; unfold btMCIFindVal, run_value; rewrite Hkl; cbn; by rewrite kept_nil.
Qed.
End Fk.

(** A query by a range of the primary key. *)
Definition pk_spec (lo hi : Z) (ks : list Z) : Prop := sorted_keys (fun k => lo <= k <= hi /\ is_Some (rows !! k)) ks.
Lemma pk_visits g w wb q ri uv which : lawful ta -> keys_flag (a_spec ta) = true -> ktype (a_spec ta) = pktyp ->
  h_holds h tb ta rows -> Z.of_nat (size rows) < 2 ^ 32 ->
  (forall k r, rows !! k = Some r -> NORM_BT (a_spec ta) && ghost_val byte_at r = false) ->
  0 <= which < MAX_NUM_ITERS -> searchable ta (w_alow w) -> w_type w = SQL_RANGE_LKP -> ri_virt ri = true ->
  q_pk_lim q && negb (q_pk_lo q) && negb (wb_ofst wb =? -1) = false ->
  q_xth q = false -> q_pk_desc q = false -> below_lim (limit (q_pk_lim q) wb) 0 = true ->
  Visits g w wb q ri uv which (limit (q_pk_lim q) wb)
    (pk_spec (obj_value (a_spec ta) (w_alow w)) (obj_value (a_spec ta) (w_ahigh w))).
Proof.
  intros Hta Hfl Hkt Hh Hsz Hlive Hw Hlow Ht Hv Hskip Hxth Hdesc Hlim T p pass f st Hp. unfold Op, keyOp. rewrite Ht, Hv.
  by apply pk_walk.
Qed.

(** A query by a range of the values of an index without constraint. *)
Definition fk_spec (desc : bool) (E : pairs) (lo hi : Z) (ks : list Z) : Prop :=
  exists ps : list (Z * Z), ks = ps.*2 /\ StronglySorted (pair_lt desc) ps /\
    forall v k, (v, k) ∈ ps <-> lo <= v <= hi /\ ([v], k) ∈ E.
Lemma fk_visits g w wb q ri uv which node A fp E : C_IS_NUM pktyp = true ->
  (forall k, is_Some (rows !! k) -> h_find h tb (pk k) = Some (row k)) ->
  createIndexNode pktyp COL_TYPE_NONE = Some node -> rep1 ri node A h fp E -> Z.of_nat (size E) < 2 ^ 32 ->
  (forall v k, ([v], k) ∈ E -> pk_ok pktyp k /\ is_Some (rows !! k)) ->
  single ri -> UNIQ (ri_cnstr ri) = false -> 0 <= which -> which + 1 < MAX_NUM_ITERS ->
  searchable (createIndexBT (ri_dtype ri) (ri_num ri)) (w_alow w) -> w_type w = SQL_RANGE_LKP -> w_klist w = None ->
  g_cstar g && absent (w_flist w) = false -> wb_ofst wb = -1 ->
  q_fk_lo q = false -> q_xth q = false -> q_fk_desc q = false -> below_lim (limit (q_fk_lim q) wb) 0 = true ->
  Visits g w wb q ri uv which (limit (q_fk_lim q) wb)
    (fk_spec (q_inr_desc q) E (val_of (ri_dtype ri) (w_alow w)) (val_of (ri_dtype ri) (w_ahigh w))).
Proof.
  intros Hpk Hrows Hn R HszE Hpairs [Hv _ Hcl Hobc Hd] Hu Hw Hw1 Hlow Ht Hkl Hcs Hofst Hlo Hxth Hdesc Hlim T p pass f st Hp.
  apply orb_false_iff in Hv as [Hv _]. unfold Op, keyOp. rewrite Ht, Hv.
  destruct (fk_walk Hrows g w wb q ri p pass f Hp Hobc Hlo Hxth Hpk Hcs Hu Hcl Hkl node Hn A fp E uv which st R HszE Hd Hpairs Hw Hw1 Hlow Hdesc Hlim Hofst)
    as (ps & w' & Hs & Hin & E'). exists ps.*2, w'. split; [by exists ps|done].
Qed.

Lemma fk_single_visits g w wb q ri uv which node A fp E : C_IS_NUM pktyp = true ->
  (forall k, is_Some (rows !! k) -> h_find h tb (pk k) = Some (row k)) ->
  createIndexNode pktyp COL_TYPE_NONE = Some node -> rep1 ri node A h fp E -> Z.of_nat (size E) < 2 ^ 32 ->
  (forall v k, ([v], k) ∈ E -> pk_ok pktyp k /\ is_Some (rows !! k)) ->
  single ri -> UNIQ (ri_cnstr ri) = false -> 0 <= which < MAX_NUM_ITERS ->
  searchable (createIndexBT (ri_dtype ri) (ri_num ri)) (w_akey w) -> w_type w = SQL_SINGLE_FK_LKP -> w_klist w = None ->
  g_cstar g && absent (w_flist w) = false -> wb_ofst wb = -1 ->
  q_fk_lo q = false -> q_xth q = false -> below_lim (limit (q_fk_lim q) wb) 0 = true ->
  Visits g w wb q ri uv which (limit (q_fk_lim q) wb)
    (fk_spec (q_inr_desc q) E (val_of (ri_dtype ri) (w_akey w)) (val_of (ri_dtype ri) (w_akey w))).
Proof.
  intros Hpk Hrows Hn R HszE Hpairs [_ _ Hcl Hobc Hd] Hu Hw Hkey Ht Hkl Hcs Hofst Hlo Hxth Hlim T p pass f st Hp.
  unfold Op, keyOp. rewrite Ht.
  destruct (fk_single Hrows g w wb q ri p pass f Hp Hobc Hlo Hxth Hpk Hcs Hu Hcl Hkl node Hn A fp E uv which st R HszE Hd Hpairs Hw Hkey Hlim Hofst)
    as (ps & w' & Hs & Hin & E'). exists ps.*2, w'. split; [by exists ps|done].
Qed.
End Walks.
