(* ===== verification/DmlLaws.v ===== *)
(** * The table and its indexes agree

    A statement on one row keeps the indexes the inverse of the table: an index
    holds the pair of a value and a key exactly when the row of that key has the
    value.  Proved against the interface [IndexLaws], for any number of indexes
    of any kind that satisfies it; with what happens when a constraint is
    violated, where INSERT leaves everything as it was and UPDATE does not. *)

From stdpp Require Import gmap.
From S2P Require Import Prelude Stream CStr Row Aobj BtSearch DirtyStream Btree BtOps BtIter BtScan BtKey BtKeyLaws BtStream Abt GetCol Index IndexLaws Dml.

(** ** The table *)

Section Table.
Context (a : bt_args) (Ha : lawful a).
#[local] Abbreviation s := (a_spec a).

Lemma h_find_d_ok h p m v : h_holds h p a m -> searchable a v ->
  h_find_d h p v = Some (default NULL (m !! obj_value s v), false).
Proof.
  intros (x & E & Hx) Hv. unfold h_find_d, h_get. rewrite E. cbn [mbind option_bind h_args h_tree].
  apply (find_d_holds a Ha x m v Hx Hv).
Qed.
Lemma h_get_dr_ok h p m v : h_holds h p a m -> searchable a v -> is_Some (m !! obj_value s v) ->
  h_get_dr h p v = Some 0.
Proof.
  intros (x & E & Hx) Hv Hm. unfold h_get_dr, h_get. rewrite E. cbn [mbind option_bind h_args h_tree].
  by apply (find_d_holds a Ha x m v Hx Hv).
Qed.
Lemma h_add_ok h p m v val r : h_holds h p a m -> stores a v val r -> m !! obj_value s v = None ->
  exists h' sz, h_add h p v val = Some (h', sz) /\ h_set h p a (<[obj_value s v := r]> m) h'.
Proof.
  intros Hh Hs Hm. destruct (h_upd_ok a (fun _ : Z => True) h p m (<[obj_value s v := r]> m)
    (fun a x => btAdd a x v val) Hh) as (h' & sz & E & Hset & _); [|by exists h', sz].
  intros x Hx. destruct (insert_holds a Ha x m v val r Hx Hs Hm) as (x' & sz & E & Hx'). by exists x', sz.
Qed.
Lemma h_replace_ok h p m v val r : h_holds h p a m -> stores a v val r -> is_Some (m !! obj_value s v) ->
  exists h' sz, h_replace h p v val = Some (h', sz) /\ h_set h p a (<[obj_value s v := r]> m) h'.
Proof.
  intros Hh Hs Hm. destruct (h_upd_ok a (fun _ : Z => True) h p m (<[obj_value s v := r]> m)
    (fun a x => btReplace a x v val) Hh) as (h' & sz & E & Hset & _); [|by exists h', sz].
  intros x Hx. destruct (replace_holds a Ha x m v val r Hx Hs Hm) as (x' & sz & E & Hx'). by exists x', sz.
Qed.
End Table.

(** The keys of pairs that are a function of the key. *)
Lemma keys_nodup (l : list (list Z * Z)) : NoDup l ->
  (forall w1 w2 k, (w1, k) ∈ l -> (w2, k) ∈ l -> w1 = w2) -> NoDup l.*2.
Proof.
  induction 1 as [|[w k] l Hni _ IH]; intros Hf; constructor.
  - intros ([w' k'] & Hk & Hin)%list_elem_of_fmap. cbn in Hk. subst k'. apply Hni.
    by rewrite (Hf w w' k) by (rewrite elem_of_cons; auto).
  - apply IH. intros w1 w2 k' H1 H2. apply (Hf w1 w2 k'); rewrite elem_of_cons; auto.
Qed.

Section DmlLaws.
Context `{MallocLaws} (floor_log2 : Z -> Z) (luatAdd luatDel : r_ind_t -> aobj -> cptr -> heap -> heap).
Context (getcol : Z -> aobj -> cptr -> option aobj) (pktyp : Z) (coltype : Z -> Z).
Context (ta : bt_args) (Hta : lawful ta) (Hkt : ktype (a_spec ta) = pktyp) (tb : Z) (byte_at : Z -> Z).
#[local] Abbreviation pk k := (pk_obj pktyp k).
#[local] Abbreviation add h ri k r := (addToIndex floor_log2 luatAdd getcol pktyp coltype h ri (pk k) r).
#[local] Abbreviation del h ri k r := (delFromIndex floor_log2 luatDel getcol h ri (pk k) r false).
#[local] Abbreviation add_all := (__runInsertIndexes floor_log2 luatAdd luatDel getcol pktyp coltype).
#[local] Abbreviation del_all := (runDeleteIndexes floor_log2 luatDel getcol).

(** An index that satisfies the interface; [ii_dels] says whether keys can be
    removed from its trees. *)
Record index_impl := Impl {
  ii_ri : r_ind_t;
  ii_uniq : bool;
  ii_cost : nat;
  ii_keyed : Z -> cptr -> option (list Z) -> Prop;
  ii_rep : heap -> gset Z -> pairs -> Prop;
  ii_laws : IndexLaws floor_log2 luatAdd luatDel getcol pktyp coltype ii_ri ii_uniq ii_cost ii_keyed ii_rep;
  ii_dels : bool;
  ii_del : ii_dels = true -> DeleteLaw floor_log2 luatDel getcol pktyp ii_ri ii_keyed ii_rep;
}.

(** Keys can be removed from the table and from the indexes. *)
Definition all_del (ids : list index_impl) : Prop := Forall (fun i => ii_dels i = true) ids.
Definition removable (ids : list index_impl) : Prop := kept ta = true /\ all_del ids.

(** The trees an insertion may make in the indexes. *)
Definition weight (ids : list index_impl) : nat := sum_list_with ii_cost ids.
Lemma weight_cons (L : list (index_impl * pairs)) i E : weight ((i, E) :: L).*1 = (ii_cost i + weight L.*1)%nat.
Proof. done. Qed.

(** ** The store holds the table and the indexes

    The indexes with their pairs, each on trees of its own. *)
Abbreviation ixs := (list (index_impl * pairs)).

Definition apart (fps : list (gset Z)) : Prop :=
  forall n1 n2 f1 f2, n1 <> n2 -> fps !! n1 = Some f1 -> fps !! n2 = Some f2 -> f1 ## f2.

Record laid (h : heap) (rows : gmap Z cptr) (L : ixs) (fps : list (gset Z)) : Prop := {
  ld_table : h_holds h tb ta rows;
  ld_len : length fps = length L;
  ld_rep : forall n i E fp, L !! n = Some (i, E) -> fps !! n = Some fp -> ii_rep i h fp E /\ tb ∉ fp;
  ld_apart : apart fps;
}.
Definition idx_ok (h : heap) (rows : gmap Z cptr) (L : ixs) : Prop := exists fps, laid h rows L fps.

Lemma idx_table h rows L : idx_ok h rows L -> h_holds h tb ta rows.
Proof. intros [fps H']. apply (ld_table _ _ _ _ H'). Qed.

(** One index changes, the others and the table stay. *)
Lemma idx_step h rows P i E R : idx_ok h rows (P ++ (i, E) :: R) ->
  exists fp, ii_rep i h fp E /\ forall c h' fp' E', ii_rep i h' fp' E' -> frame c h fp h' fp' ->
    idx_ok h' rows (P ++ (i, E') :: R).
Proof.
  intros (fps & [Ht Hlen Hrep Hap]). set (n := length P).
  assert (HLn : (P ++ (i, E) :: R) !! n = Some (i, E)) by (by apply list_lookup_middle).
  destruct (lookup_lt_is_Some_2 fps n) as [fp Hfp].
  { rewrite Hlen, length_app. cbn. lia. }
  destruct (Hrep n i E fp HLn Hfp) as [Hr Htb]. exists fp. split; [done|]. intros c h' fp' E' Hr' F.
  assert (Hdom : forall m f j E0, m <> n -> (P ++ (i, E) :: R) !! m = Some (j, E0) -> fps !! m = Some f ->
    fp ## f /\ forall p, p ∈ f -> is_Some (h !! p)).
  { intros m f j E0 Hm HL Hf. split; [by apply (Hap n m)|]. intros p Hp.
    by apply (il_dom _ _ _ _ _ _ _ _ _ _ _ (ii_laws j) h f E0 p (proj1 (Hrep m j E0 f HL Hf))). }
  assert (HL' : forall m j E0, m <> n -> (P ++ (i, E') :: R) !! m = Some (j, E0) ->
    (P ++ (i, E) :: R) !! m = Some (j, E0)).
  { intros m j E0 Hm. rewrite <- (insert_app_mid n (i, E) (i, E')), list_lookup_insert_ne; done. }
  destruct Ht as (x & Ex & Hx).
  exists (<[n := fp']> fps). split.
  - exists x. split; [|done]. rewrite <- Ex. apply (fr_other _ _ _ _ _ F); [done|by eexists].
  - rewrite length_insert, Hlen, !length_app. done.
  - intros m j E0 f HL Hf. destruct (decide (m = n)) as [->|Hm].
    + rewrite list_lookup_insert_eq in Hf by (by apply lookup_lt_Some in Hfp). injection Hf as <-.
      assert (Hmid : (P ++ (i, E') :: R) !! n = Some (i, E')) by (by apply list_lookup_middle).
      rewrite Hmid in HL. injection HL as <- <-. split; [done|]. intros Hin.
      destruct (fr_fresh _ _ _ _ _ F tb Hin); [done|congruence].
    + rewrite list_lookup_insert_ne in Hf by done. apply HL' in HL; [|done].
      destruct (Hrep m j E0 f HL Hf) as [Hrj Htbj]. split; [|done].
      destruct (Hdom m f j E0 Hm HL Hf) as [Hd Hs].
      apply (il_keep _ _ _ _ _ _ _ _ _ _ _ (ii_laws j) h h' f E0 Hrj). intros p Hp.
      by apply (frame_keeps c h fp h' fp' f p F).
  - intros m1 m2 f1 f2 Hm H1 H2.
    assert (Hlt : (n < length fps)%nat) by (by apply lookup_lt_Some in Hfp).
    assert (Hnew : forall m f, m <> n -> fps !! m = Some f -> fp' ## f).
    { intros m f Hmn Hf. destruct (lookup_lt_is_Some_2 (P ++ (i, E) :: R) m) as [[j E0] HL].
      { rewrite <- Hlen. by apply lookup_lt_Some in Hf. }
      destruct (Hdom m f j E0 Hmn HL Hf). by apply (frame_disjoint c h fp h'). }
    destruct (decide (m1 = n)) as [->|Hn1]; [|destruct (decide (m2 = n)) as [->|Hn2]].
    + rewrite list_lookup_insert_eq in H1 by done. injection H1 as <-.
      rewrite list_lookup_insert_ne in H2 by done. by apply (Hnew m2).
    + rewrite list_lookup_insert_eq in H2 by done. injection H2 as <-.
      rewrite list_lookup_insert_ne in H1 by done. symmetry. by apply (Hnew m1).
    + rewrite list_lookup_insert_ne in H1 by done. rewrite list_lookup_insert_ne in H2 by done.
      by apply (Hap m1 m2).
Qed.

(** The table changes, the indexes stay. *)
Lemma idx_rows h rows L rows' h' : idx_ok h rows L -> h_set h tb ta rows' h' -> idx_ok h' rows' L.
Proof.
  intros (fps & [Ht Hlen Hrep Hap]) Hset. exists fps. split; [by apply (h_set_holds h)|done| |done].
  intros n i E fp HL Hf. destruct (Hrep n i E fp HL Hf) as [Hr Htb]. split; [|done].
  apply (il_keep _ _ _ _ _ _ _ _ _ _ _ (ii_laws i) h h' fp E Hr). intros p Hp.
  apply (h_set_other _ _ _ _ _ _ Hset). intros ->. done.
Qed.

(** ** One index *)

Definition add_pair (v : option (list Z)) (k : Z) (E : pairs) : pairs :=
  match v with Some w => {[(w, k)]} ∪ E | None => E end.
Definition del_pair (v : option (list Z)) (k : Z) (E : pairs) : pairs :=
  match v with Some w => E ∖ {[(w, k)]} | None => E end.
Lemma in_add_pair v k E w k' : (w, k') ∈ add_pair v k E <-> (v = Some w /\ k' = k) \/ (w, k') ∈ E.
Proof.
  destruct v as [w0|]; cbn; [rewrite pairs_add|].
  - split; (intros [Heq|Hin]; [left|by right]); [by injection Heq as -> ->|by destruct Heq as [[= ->] ->]].
  - split; [by right|]. by intros [[? _]|].
Qed.
Lemma in_del_pair v k E w k' : (w, k') ∈ del_pair v k E <-> (w, k') ∈ E /\ ~ (v = Some w /\ k' = k).
Proof.
  destruct v as [w0|]; cbn; [rewrite pairs_del|].
  - split; intros [Hin Hn]; (split; [done|]); [by intros [[= ->] ->]|]. intros [= -> ->]. by apply Hn.
  - split; [|by intros [? _]]. intros Hin. split; [done|]. by intros [? _].
Qed.

(** The key has no pair with the value, or has one. *)
Definition absent (v : option (list Z)) (k : Z) (E : pairs) : Prop := forall w, v = Some w -> (w, k) ∉ E.
Definition present (v : option (list Z)) (k : Z) (E : pairs) : Prop := forall w, v = Some w -> (w, k) ∈ E.

(** The value is taken in a UNIQUE index. *)
Definition clash (uniq : bool) (v : option (list Z)) (E : pairs) : bool :=
  uniq && match v with Some w => existsb (fun p => bool_decide (p.1 = w)) (elements E) | None => false end.

Lemma clash_spec u v E : clash u v E = true <-> u = true /\ exists w k, v = Some w /\ (w, k) ∈ E.
Proof.
  unfold clash. rewrite andb_true_iff. destruct v as [w|]; [|split; [by intros []|by intros (_ & w & k & ? & _)]]. rewrite existsb_exists. split.
  - intros (Hu & [w' k] & Hin%list_elem_of_In%elem_of_elements & Hw%bool_decide_eq_true). cbn in Hw. subst w'.
    split; [done|]. by exists w, k.
  - intros (Hu & w' & k & [= <-] & Hin). split; [done|]. exists (w, k). split; [|by apply bool_decide_eq_true].
    by apply list_elem_of_In, elem_of_elements.
Qed.

Lemma del_add v k E : absent v k E -> del_pair v k (add_pair v k E) = E.
Proof.
  intros Ha. destruct v as [w|]; [|done]. specialize (Ha w eq_refl). apply set_eq. intros x. cbn.
  rewrite pairs_del, pairs_add. split; [tauto|]. intros Hx. split; [by right|]. by intros ->.
Qed.
Lemma present_add v k E : present v k (add_pair v k E).
Proof. intros w ->. apply pairs_add. by left. Qed.
Lemma add_pair_size v k E : (size (add_pair v k E) <= S (size E))%nat.
Proof.
  destruct v as [w|]; cbn; [|lia]. rewrite size_union_alt, size_singleton.
  assert (size (E ∖ {[(w, k)]}) <= size E)%nat by (apply subseteq_size, subseteq_difference_l; done). lia.
Qed.

Lemma idx_add h rows P i E R k r v :
  idx_ok h rows (P ++ (i, E) :: R) -> ii_keyed i k r v -> pk_ok pktyp k -> Z.of_nat (ii_cost i + size h) < 2 ^ 32 ->
  absent v k E ->
  exists h', add h (ii_ri i) k r = Some (h', negb (clash (ii_uniq i) v E)) /\ (size h' <= ii_cost i + size h)%nat /\
    idx_ok h' rows (P ++ (i, if clash (ii_uniq i) v E then E else add_pair v k E) :: R).
Proof.
  intros Hok Hv Hk Hsz Ha. destruct (clash (ii_uniq i) v E) eqn:Ec.
  - apply clash_spec in Ec as (Hu & w & k' & -> & Hin). destruct (idx_step h rows P i E R Hok) as (fp & Hr & _).
    exists h. split; [|split; [lia|done]].
    by apply (il_refuse _ _ _ _ _ _ _ _ _ _ _ (ii_laws i) h fp E k k' r w).
  - destruct v as [w|].
    + destruct (idx_step h rows P i E R Hok) as (fp & Hr & Hstep).
      destruct (il_add _ _ _ _ _ _ _ _ _ _ _ (ii_laws i) h fp E k r w Hr Hv Hk Hsz (Ha w eq_refl))
        as (h' & fp' & E' & Hr' & F).
      { intros Hu k' Hin. assert (clash (ii_uniq i) (Some w) E = true); [|congruence].
        apply clash_spec. split; [done|]. by exists w, k'. }
      exists h'. split; [done|]. split; [apply (fr_size _ _ _ _ _ F)|]. by apply (Hstep _ h' fp' _ Hr' F).
    + exists h. split; [|split; [lia|done]]. by apply (il_out _ _ _ _ _ _ _ _ _ _ _ (ii_laws i)).
Qed.

Lemma idx_del h rows P i E R k r v :
  ii_dels i = true -> idx_ok h rows (P ++ (i, E) :: R) -> ii_keyed i k r v -> pk_ok pktyp k ->
  Z.of_nat (size E) < 2 ^ 32 -> present v k E ->
  exists h', del h (ii_ri i) k r = Some h' /\ (size h' <= size h)%nat /\
    idx_ok h' rows (P ++ (i, del_pair v k E) :: R).
Proof.
  intros Hd Hok Hv Hk Hsz Hp. destruct v as [w|].
  - destruct (idx_step h rows P i E R Hok) as (fp & Hr & Hstep).
    destruct (ii_del i Hd h fp E k r w Hr Hv Hk Hsz (Hp w eq_refl))
      as (h' & fp' & E' & Hr' & F).
    exists h'. split; [done|]. split; [apply (fr_size _ _ _ _ _ F)|]. by apply (Hstep _ h' fp' _ Hr' F).
  - exists h. split; [|split; [lia|done]]. by apply (il_out _ _ _ _ _ _ _ _ _ _ _ (ii_laws i)).
Qed.

(** ** All the indexes *)

Definition ris (L : ixs) : list r_ind_t := (fun p => ii_ri p.1) <$> L.
Definition add_pairs (k : Z) (vs : list (option (list Z))) (L : ixs) : ixs :=
  zip_with (fun v p => (p.1, add_pair v k p.2)) vs L.
Definition del_pairs (k : Z) (vs : list (option (list Z))) (L : ixs) : ixs :=
  zip_with (fun v p => (p.1, del_pair v k p.2)) vs L.

(** The values the indexes read in a row. *)
Definition keyed_all (k : Z) (r : cptr) (vs : list (option (list Z))) (L : ixs) : Prop :=
  Forall2 (fun v p => ii_keyed p.1 k r v /\ Z.of_nat (size p.2) + 1 < 2 ^ 32) vs L.
Definition absent_all (k : Z) (vs : list (option (list Z))) (L : ixs) : Prop :=
  Forall2 (fun v p => absent v k p.2) vs L.
Definition present_all (k : Z) (vs : list (option (list Z))) (L : ixs) : Prop :=
  Forall2 (fun v p => present v k p.2) vs L.
Definition refused (vs : list (option (list Z))) (L : ixs) : bool :=
  existsb (fun x => clash (ii_uniq x.2.1) x.1 x.2.2) (zip vs L).

Lemma fst_pairs (f : option (list Z) -> pairs -> pairs) (vs : list (option (list Z))) (L : ixs) :
  length vs = length L -> (zip_with (fun v p => (p.1, f v p.2)) vs L).*1 = L.*1.
Proof.
  revert vs. induction L as [|[i E] L IH]; intros [|v vs] Hl; try done. cbn. f_equal. apply IH. cbn in Hl. lia.
Qed.

Lemma del_add_all k vs L : absent_all k vs L -> del_pairs k vs (add_pairs k vs L) = L.
Proof.
  unfold del_pairs, add_pairs. induction 1 as [|v [i E] vs L Ha _ IH]; [done|]. cbn. by rewrite IH, del_add.
Qed.

Lemma ris_add_pairs k vs L : length vs = length L -> ris (add_pairs k vs L) = ris L.
Proof.
  unfold ris, add_pairs. revert vs. induction L as [|[i E] L IH]; intros [|v vs] Hl; try done. cbn.
  f_equal. apply IH. cbn in Hl. lia.
Qed.

Lemma run_del k r rows : pk_ok pktyp k -> forall L vs P R h, all_del L.*1 -> idx_ok h rows (P ++ L ++ R) ->
  Forall2 (fun v p => ii_keyed p.1 k r v /\ Z.of_nat (size p.2) < 2 ^ 32) vs L -> present_all k vs L ->
  exists h', del_all h (ris L) (pk k) r false = Some h' /\ (size h' <= size h)%nat /\
    idx_ok h' rows (P ++ del_pairs k vs L ++ R).
Proof.
  intros Hk. induction L as [|[i E] L IH]; intros vs P R h Hd Hok Hv Hp; inversion Hv as [|v ? vs' ? [Hv1 Hsz] Hv2]; subst.
  - exists h. split; [done|]. split; [cbn; lia|done].
  - inversion Hp as [|? ? ? ? Hp1 Hp2]; subst. cbn [app] in Hok.
    apply Forall_cons in Hd as [Hd1 Hd2].
    destruct (idx_del h rows P i E (L ++ R) k r v Hd1 Hok Hv1 Hk Hsz Hp1) as (h1 & E1 & S1 & Hok1).
    cbn [ris fmap list_fmap fst runDeleteIndexes]. rewrite E1. cbn [mbind option_bind].
    destruct (IH vs' (P ++ [(i, del_pair v k E)]) R h1) as (h2 & E2 & S2 & Hok2);
      [done|by rewrite <- app_assoc|done|done|].
    fold (ris L). rewrite E2. exists h2. split; [done|]. split; [cbn [length]; lia|].
    rewrite <- app_assoc in Hok2. exact Hok2.
Qed.

Lemma keyed_len k r vs L : keyed_all k r vs L -> length vs = length L.
Proof. apply Forall2_length. Qed.

(** After the new pairs there is still room. *)
Lemma keyed_added k r vs L : keyed_all k r vs L ->
  Forall2 (fun v p => ii_keyed p.1 k r v /\ Z.of_nat (size p.2) < 2 ^ 32) vs (add_pairs k vs L).
Proof.
  unfold keyed_all, add_pairs. induction 1 as [|v [i E] vs L [Hv Hs] _ IH]; constructor; [|done].
  cbn in *. split; [done|]. pose proof (add_pair_size v k E). lia.
Qed.
Lemma present_added k vs L : length vs = length L -> present_all k vs (add_pairs k vs L).
Proof.
  unfold present_all, add_pairs. revert vs. induction L as [|[i E] L IH]; intros [|v vs] Hl; try done; constructor.
  - cbn. apply present_add.
  - apply IH. cbn in Hl. lia.
Qed.

(** Entering a row in the indexes, the first of them entered already: all take it,
    or one refuses it and none keeps it. *)
Lemma run_add k r rows : pk_ok pktyp k -> forall L vs P0 pvs h, all_del P0.*1 -> all_del L.*1 -> idx_ok h rows (add_pairs k pvs P0 ++ L) ->
  keyed_all k r pvs P0 -> absent_all k pvs P0 -> keyed_all k r vs L -> absent_all k vs L ->
  Z.of_nat (size h + weight L.*1) < 2 ^ 32 ->
  exists h', add_all h INDXRUN_NO_LT (ris P0) (ris L) (pk k) r = Some (h', negb (refused vs L)) /\
    (size h' <= size h + weight L.*1)%nat /\
    idx_ok h' rows (if refused vs L then P0 ++ L else add_pairs k pvs P0 ++ add_pairs k vs L).
Proof.
  intros Hk. induction L as [|[i E] L IH]; intros vs P0 pvs h Hd0 Hd Hok Kp Ap Kv Av Hsz.
  - inversion Kv; subst. exists h. split; [done|]. split; [lia|]. cbn. done.
  - inversion Kv as [|v ? vs' ? [Hv1 Hs1] Hv2]; subst. inversion Av as [|? ? ? ? Ha1 Ha2]; subst. cbn [fst snd] in *.
    rewrite weight_cons in *. apply Forall_cons in Hd as [Hd1 Hd2].
    destruct (idx_add h rows _ i E L k r v Hok Hv1 Hk ltac:(lia) Ha1) as (h1 & E1 & S1 & Hok1).
    pose proof (il_plain _ _ _ _ _ _ _ _ _ _ _ (ii_laws i)) as [_ Hhlt]%orb_false_iff.
    cbn [ris fmap list_fmap fst __runInsertIndexes skips]. rewrite Hhlt, E1. cbn [mbind option_bind]. fold (ris P0) (ris L).
    unfold refused. cbn [zip zip_with existsb fst snd]. fold (refused vs' L).
    destruct (clash (ii_uniq i) v E) eqn:Ec; cbn [orb negb].
    + destruct (run_del k r rows Hk (add_pairs k pvs P0) pvs [] ((i, E) :: L) h1) as (h2 & E2 & S2 & Hok2).
      * unfold add_pairs. by rewrite (fst_pairs (fun v => add_pair v k)) by (by apply (keyed_len k r)).
      * exact Hok1.
      * by apply keyed_added.
      * apply present_added. by apply (keyed_len k r).
      * rewrite (ris_add_pairs k pvs P0) in E2 by (by apply (keyed_len k r)). rewrite E2. cbn [mbind option_bind].
        exists h2. split; [done|]. rewrite del_add_all in Hok2 by done. split; [|exact Hok2].
        lia.
    + assert (Hokn : idx_ok h1 rows (add_pairs k (pvs ++ [v]) (P0 ++ [(i, E)]) ++ L)).
      { unfold add_pairs. rewrite zip_with_app by (by apply (keyed_len k r)). rewrite <- app_assoc. exact Hok1. }
      destruct (IH vs' (P0 ++ [(i, E)]) (pvs ++ [v]) h1) as (h2 & E2 & S2 & Hok2); try done.
      * rewrite fmap_app. apply Forall_app. split; [done|]. by constructor.
      * apply Forall2_app; [done|]. by constructor.
      * apply Forall2_app; [done|]. by constructor.
      * lia.
      * unfold ris in E2 at 1. rewrite fmap_app in E2. fold (ris P0) in E2. exists h2. split; [exact E2|]. split.
        { lia. }
        destruct (refused vs' L); [by rewrite <- app_assoc in Hok2|].
        unfold add_pairs in Hok2 at 1. rewrite zip_with_app in Hok2 by (by apply (keyed_len k r)).
        rewrite <- app_assoc in Hok2. exact Hok2.
Qed.

(** ** The contents of the database *)

(** An index is the inverse of the table. *)
Definition inverts (i : index_impl) (rows : gmap Z cptr) (E : pairs) : Prop :=
  forall w k, (w, k) ∈ E <-> exists r, rows !! k = Some r /\ ii_keyed i k r (Some w).

(** A row that is there: not NULL and not a ghost. *)
Definition live (r : cptr) : Prop := is_null r = false /\ IS_GHOST (a_spec ta) byte_at r = false.
(** A row every index can read, under a key the trees can hold. *)
Record row_fit (ids : list index_impl) (k : Z) (r : cptr) : Prop := {
  rf_pk : pk_ok pktyp k;
  rf_search : searchable ta (pk k);
  rf_live : live r;
  rf_keyed : forall i, i ∈ ids -> exists v, ii_keyed i k r v;
}.
Record db_ok (h : heap) (rows : gmap Z cptr) (ids : list index_impl) : Prop := {
  db_fit : map_Forall (row_fit ids) rows;
  db_ixs : exists L, L.*1 = ids /\ idx_ok h rows L /\ Forall (fun p => inverts p.1 rows p.2) L;
}.

Lemma inverts_absent i rows E k v : inverts i rows E -> rows !! k = None -> absent v k E.
Proof. intros Hi Hk w _ (r & Hr & _)%Hi. congruence. Qed.
Lemma inverts_present i rows E k r v : inverts i rows E -> rows !! k = Some r -> ii_keyed i k r v -> present v k E.
Proof. intros Hi Hk Hv w ->. apply Hi. by exists r. Qed.

Lemma inverts_insert i rows E k r v : inverts i rows E -> rows !! k = None -> ii_keyed i k r v ->
  inverts i (<[k := r]> rows) (add_pair v k E).
Proof.
  intros Hi Hk Hv w k'. setoid_rewrite lookup_insert_Some. rewrite in_add_pair, (Hi w k'). split.
  - intros [[-> ->]|(r' & Hr' & Hw)]; [exists r; auto|]. exists r'. split; [|done]. right. split; [congruence|done].
  - intros (r' & [[<- <-]|[Hne Hr']] & Hw); [left|right; by exists r'].
    split; [|done]. by apply (il_fun _ _ _ _ _ _ _ _ _ _ _ (ii_laws i) k r).
Qed.
Lemma inverts_delete i rows E k r v : inverts i rows E -> rows !! k = Some r -> ii_keyed i k r v ->
  inverts i (delete k rows) (del_pair v k E).
Proof.
  intros Hi Hk Hv w k'. setoid_rewrite lookup_delete_Some. rewrite in_del_pair, (Hi w k'). split.
  - intros [(r' & Hr' & Hw) Hn]. exists r'. split; [|done]. split; [|done]. intros <-. apply Hn.
    assert (r' = r) as -> by congruence. split; [|done].
    by apply (il_fun _ _ _ _ _ _ _ _ _ _ _ (ii_laws i) k r).
  - intros (r' & [Hne Hr'] & Hw). split; [by exists r'|]. intros [_ ->]. done.
Qed.

(** An index has at most one pair for each row. *)
Lemma inverts_size i rows E : inverts i rows E -> (size E <= size rows)%nat.
Proof.
  intros Hi. transitivity (length (elements (dom rows))).
  2: { rewrite <- size_dom. unfold size, set_size. cbn. lia. }
  transitivity (length ((elements E).*2)).
  { rewrite length_fmap. unfold size, set_size. cbn. lia. }
  apply submseteq_length, NoDup_submseteq.
  - apply keys_nodup; [apply NoDup_elements|]. intros w1 w2 k H1%elem_of_elements H2%elem_of_elements.
    apply Hi in H1 as (r1 & E1 & K1). apply Hi in H2 as (r2 & E2 & K2). assert (r2 = r1) as -> by congruence.
    assert (Some w1 = Some w2) as [= ->] by (by apply (il_fun _ _ _ _ _ _ _ _ _ _ _ (ii_laws i) k r1)). done.
  - intros k (p & -> & Hp)%list_elem_of_fmap. apply elem_of_elements in Hp. destruct p as [w k].
    apply Hi in Hp as (r & Hr & _). apply elem_of_elements, elem_of_dom. by exists r.
Qed.

(** The numbers of the store stay small. *)
Definition roomy (rows : gmap Z cptr) : Prop := Z.of_nat (size rows) + 1 < 2 ^ 32.
Abbreviation inds ids := (ii_ri <$> ids).

Lemma ris_inds (L : ixs) ids : L.*1 = ids -> ris L = inds ids.
Proof. intros <-. unfold ris. by rewrite <- list_fmap_compose. Qed.

Lemma values L rows k r : Forall (fun p => inverts p.1 rows p.2) L -> roomy rows ->
  (forall i, i ∈ L.*1 -> exists v, ii_keyed i k r v) -> exists vs, keyed_all k r vs L.
Proof.
  unfold keyed_all. induction L as [|[i E] L IH]; intros HF Hr Hv; [by exists []|].
  inversion HF as [|? ? Hi HF']; subst. destruct (Hv i) as [v Hk]; [by left|].
  destruct IH as [vs Hvs]; [done|done|intros j Hj; apply Hv; by right|].
  exists (v :: vs). constructor; [|done]. cbn in *. split; [done|].
  pose proof (inverts_size i rows E Hi). unfold roomy in Hr. lia.
Qed.

Lemma keyed_weak k r vs L : keyed_all k r vs L ->
  Forall2 (fun v p => ii_keyed p.1 k r v /\ Z.of_nat (size p.2) < 2 ^ 32) vs L.
Proof. intros Hf. eapply Forall2_impl; [exact Hf|]. intros v p [? ?]. split; [done|lia]. Qed.

Lemma present_values L rows k r vs : Forall (fun p => inverts p.1 rows p.2) L -> rows !! k = Some r ->
  keyed_all k r vs L -> present_all k vs L /\
  Forall (fun p => inverts p.1 (delete k rows) p.2) (del_pairs k vs L).
Proof.
  unfold present_all, del_pairs. intros HF Hk Hv. induction Hv as [|v [i E] vs L [Hv _] _ IH]; [by split; constructor|].
  inversion HF as [|? ? Hi HF']; subst. destruct (IH HF') as [IH1 IH2]. split; constructor; try done; cbn in *.
  - by apply (inverts_present i rows E k r).
  - by apply (inverts_delete i rows E k r).
Qed.
Lemma absent_values L rows k r vs : Forall (fun p => inverts p.1 rows p.2) L -> rows !! k = None ->
  keyed_all k r vs L -> absent_all k vs L /\
  Forall (fun p => inverts p.1 (<[k := r]> rows) p.2) (add_pairs k vs L).
Proof.
  unfold absent_all, add_pairs. intros HF Hk Hv. induction Hv as [|v [i E] vs L [Hv _] _ IH]; [by split; constructor|].
  inversion HF as [|? ? Hi HF']; subst. destruct (IH HF') as [IH1 IH2]. split; constructor; try done; cbn in *.
  - by apply (inverts_absent i rows E k).
  - by apply (inverts_insert i rows E k r).
Qed.

Lemma no_triggers (L : ixs) : existsb ri_hlt (ris L) = false.
Proof.
  induction L as [|[i E] L IH]; [done|]. cbn. fold (ris L). rewrite IH.
  pose proof (il_plain _ _ _ _ _ _ _ _ _ _ _ (ii_laws i)) as [_ ->]%orb_false_iff. done.
Qed.

(** ** DELETE *)
#[local] Abbreviation delete_row := (deleteRow floor_log2 luatDel getcol ta tb byte_at).

Lemma pk_value k : C_IS_NUM pktyp = true -> pk_ok pktyp k -> obj_value (a_spec ta) (pk k) = k.
Proof. intros Hn Hk. unfold obj_value. rewrite Hkt. apply (pk_obj_ok pktyp k Hn Hk). Qed.

Lemma row_delete_ok h rows ids k r : C_IS_NUM pktyp = true -> removable ids -> db_ok h rows ids -> roomy rows -> rows !! k = Some r ->
  exists h', delete_row h (pk k) (inds ids) = Some (h', 1) /\ db_ok h' (delete k rows) ids /\
    (size h' <= size h)%nat.
Proof.
  intros Hn [Hkept Hdel] [Hfit (L & HL & Hok & Hinv)] Hr Hk. pose proof (Hfit k r Hk) as [Fpk Fs [Fn Fg] Fv].
  pose proof (pk_value k Hn Fpk) as Hpk. pose proof (idx_table h rows L Hok) as Ht.
  destruct (values L rows k r Hinv Hr) as [vs Hvs]; [by rewrite HL|].
  destruct (present_values L rows k r vs Hinv Hk Hvs) as [Hpres Hinv'].
  destruct (run_del k r rows Fpk L vs [] [] h) as (h1 & E1 & S1 & Hok1);
    [by rewrite HL|by rewrite app_nil_r|by apply keyed_weak|done|]. rewrite app_nil_r in Hok1. cbn [app] in Hok1.
  destruct (h_delete_ok ta Hta h1 tb rows (pk k) Hkept (idx_table h1 rows _ Hok1) Fs) as (h2 & E2 & Hset);
    [by rewrite Hpk, Hk|]. rewrite Hpk in Hset.
  exists h2. unfold deleteRow. rewrite (h_find_d_ok ta Hta h tb rows (pk k) Ht Fs), Hpk, Hk. cbn [mbind option_bind].
  cbn [default]. change (id r) with r. rewrite Fn, (h_get_dr_ok ta Hta h tb rows (pk k) Ht Fs) by (by rewrite Hpk, Hk).
  cbn [mbind option_bind]. rewrite Fg. cbn [andb]. change (negb (u8 0 =? 0)) with false.
  rewrite <- (ris_inds L ids HL), E1. cbn [mbind option_bind]. rewrite E2. cbn [mbind option_bind].
  split; [done|]. split.
  - split.
    + intros k' r' [_ Hk']%lookup_delete_Some. by apply Hfit.
    + exists (del_pairs k vs L). split; [|split; [|done]].
      * rewrite <- HL. apply (fst_pairs (fun v => del_pair v k)). by apply (keyed_len k r).
      * by apply (idx_rows h1 rows).
  - rewrite (h_set_size _ _ _ _ _ _ (idx_table h1 rows _ Hok1) Hset). done.
Qed.

Lemma delete_none h rows ids k : C_IS_NUM pktyp = true -> db_ok h rows ids -> pk_ok pktyp k ->
  searchable ta (pk k) -> rows !! k = None -> delete_row h (pk k) (inds ids) = Some (h, 0).
Proof.
  intros Hn [Hfit (L & HL & Hok & Hinv)] Hp Hs Hk. unfold deleteRow.
  rewrite (h_find_d_ok ta Hta h tb rows (pk k) (idx_table h rows L Hok) Hs), pk_value, Hk by done.
  cbn [mbind option_bind default]. done.
Qed.

(** ** INSERT *)
#[local] Abbreviation insert_row := (insertCommit floor_log2 luatAdd luatDel getcol pktyp coltype ta tb byte_at false).

(** A UNIQUE index has the value of the row under some key. *)
Definition violates (ids : list index_impl) (rows : gmap Z cptr) (k : Z) (r : cptr) : Prop :=
  exists i w, i ∈ ids /\ ii_uniq i = true /\ ii_keyed i k r (Some w) /\
    exists k' r', rows !! k' = Some r' /\ ii_keyed i k' r' (Some w).

(** What the row made for the insertion and the row the tree gives back have in
    common: the values of the indexed columns. *)
Definition same_cols (ids : list index_impl) (k : Z) (nrow r : cptr) : Prop :=
  forall i, i ∈ ids -> forall v, ii_keyed i k nrow v <-> ii_keyed i k r v.

Lemma keyed_same k nrow r vs L : same_cols L.*1 k nrow r -> keyed_all k r vs L -> keyed_all k nrow vs L.
Proof.
  unfold keyed_all. intros Hs Hv. induction Hv as [|v [i E] vs L [Hv Hz] _ IH]; constructor.
  - cbn in *. split; [|done]. apply Hs; [by left|done].
  - apply IH. intros j Hj. apply Hs. by right.
Qed.

Lemma refused_violates L rows k r vs : Forall (fun p => inverts p.1 rows p.2) L -> keyed_all k r vs L ->
  refused vs L = true <-> violates L.*1 rows k r.
Proof.
  intros HF Hv. unfold refused. induction Hv as [|v [i E] vs L [Hv _] _ IH]; cbn.
  - split; [done|]. intros (i & w & Hi & _). by apply elem_of_nil in Hi.
  - inversion HF as [|? ? Hi HF']; subst. cbn in *. rewrite orb_true_iff, (IH HF'), clash_spec. split.
    + intros [(Hu & w & k' & -> & (r' & Hr' & Hw)%Hi)|(j & w & Hj & Hrest)].
      * exists i, w. split; [by left|]. split; [done|]. split; [done|]. by exists k', r'.
      * exists j, w. split; [by right|done].
    + intros (j & w & Hj & Hu & Hw & k' & r' & Hr' & Hw'). apply elem_of_cons in Hj as [->|Hj].
      * left. split; [done|]. exists w, k'. split; [|apply Hi; by exists r'].
        by apply (il_fun _ _ _ _ _ _ _ _ _ _ _ (ii_laws i) k r).
      * right. exists j, w. split; [done|]. split; [done|]. split; [done|]. by exists k', r'.
Qed.

Lemma fit_insert ids (rows : gmap Z cptr) k r : map_Forall (row_fit ids) rows -> row_fit ids k r ->
  map_Forall (row_fit ids) (<[k := r]> rows).
Proof. intros Hf Hr. by apply map_Forall_insert_2. Qed.

Lemma row_insert_ok upa h ainc rows ids k nrow r ai : C_IS_NUM pktyp = true -> all_del ids -> db_ok h rows ids -> roomy rows ->
  Z.of_nat (size h + weight ids) < 2 ^ 32 -> row_fit ids k r -> stores ta (pk k) nrow r -> same_cols ids k nrow r ->
  rows !! k = None ->
  exists h' b, (b = true <-> violates ids rows k r) /\
    insert_row upa h ainc (inds ids) (pk k) (Some nrow) false false ai =
      Some (h', if b then ainc else update_auto_inc pktyp ainc (pk k), if b then INS_ERR else INS_INS) /\
    db_ok h' (if b then rows else <[k := r]> rows) ids /\ (size h' <= size h + weight ids)%nat.
Proof.
  intros Hn Hdel [Hfit (L & HL & Hok & Hinv)] Hr Hroom Hf Hst Hsame Hk. subst ids.
  pose proof Hf as [Fpk Fs _ Fv]. pose proof (pk_value k Hn Fpk) as Hpk. pose proof (idx_table h rows L Hok) as Ht.
  destruct (values L rows k r Hinv Hr Fv) as [vs Hvs].
  destruct (absent_values L rows k r vs Hinv Hk Hvs) as [Habs Hinv'].
  destruct (run_add k nrow rows Fpk L vs [] [] h) as (h1 & E1 & S1 & Hok1);
    [by constructor|done|exact Hok|by constructor|by constructor|by apply (keyed_same k nrow r)|done|done|].
  cbn [length ris fmap list_fmap app] in *. rewrite (ris_inds L _ eq_refl) in E1.
  exists (if refused vs L then h1 else default h1 (fst <$> h_add h1 tb (pk k) nrow)), (refused vs L).
  split; [by apply refused_violates|]. unfold insertCommit.
  rewrite (h_find_d_ok ta Hta h tb rows (pk k) Ht Fs), Hpk, Hk. cbn [mbind option_bind default andb orb negb].
  change (is_null (id NULL)) with true. cbn [negb andb orb]. unfold runFailableInsertIndexes. rewrite E1.
  cbn [mbind option_bind]. destruct (refused vs L); cbn [negb].
  - split; [done|]. split; [|lia]. split; [done|]. by exists L.
  - rewrite <- (ris_inds L _ eq_refl), no_triggers. cbn [mbind option_bind].
    destruct (h_add_ok ta Hta h1 tb rows (pk k) nrow r (idx_table h1 rows _ Hok1) Hst) as (h2 & sz & E2 & Hset);
      [by rewrite Hpk|]. rewrite Hpk in Hset. rewrite E2. cbn [mbind option_bind fmap option_fmap option_map fst default].
    split; [done|]. change (id h2) with h2. split.
    + split; [by apply fit_insert|]. exists (add_pairs k vs L). split; [|split; [|done]].
      * apply (fst_pairs (fun v => add_pair v k)). by apply (keyed_len k r).
      * by apply (idx_rows h1 rows).
    + rewrite (h_set_size _ _ _ _ _ _ (idx_table h1 rows _ Hok1) Hset). lia.
Qed.

Lemma insert_exists upa h ainc rows ids k r nrow ai : C_IS_NUM pktyp = true -> db_ok h rows ids ->
  rows !! k = Some r ->
  insert_row upa h ainc (inds ids) (pk k) nrow false false ai = Some (h, ainc, INS_ERR).
Proof.
  intros Hn [Hfit (L & HL & Hok & Hinv)] Hk. pose proof (Hfit k r Hk) as [Fpk Fs [Fn Fg] Fv]. unfold insertCommit.
  rewrite (h_find_d_ok ta Hta h tb rows (pk k) (idx_table h rows L Hok) Fs), pk_value, Hk by done.
  cbn [mbind option_bind default]. change (id r) with r. by rewrite Fn, Fg.
Qed.
(** ** UPDATE *)
#[local] Abbreviation update_row := (updateSingle floor_log2 luatAdd luatDel getcol pktyp coltype ta tb byte_at).
#[local] Abbreviation redo := (redo_indexes floor_log2 luatAdd luatDel getcol pktyp coltype).

(** The indexes an UPDATE redoes. *)
Definition redone (L : ixs) (ups : list bool) : list r_ind_t :=
  (filter (fun p => p.2 = true) (zip (ris L) ups)).*1.

(** What happens to one index: whether it is redone, its value in the old row and
    in the new one. *)
Abbreviation change := (bool * option (list Z) * option (list Z))%type.
Definition change_pair (k : Z) (c : change) (E : pairs) : pairs :=
  if c.1.1 then del_pair c.1.2 k (add_pair c.2 k E) else E.
Definition change_pairs (k : Z) (cs : list change) (L : ixs) : ixs :=
  zip_with (fun c p => (p.1, change_pair k c p.2)) cs L.

(** A redone index gets a value that is free, another index keeps its value. *)
Record change_ok (k : Z) (r nrow : cptr) (c : change) (p : index_impl * pairs) : Prop := {
  co_old : ii_keyed p.1 k r c.1.2;
  co_new : ii_keyed p.1 k nrow c.2;
  co_present : present c.1.2 k p.2;
  co_room : Z.of_nat (size p.2) + 1 < 2 ^ 32;
  co_case : if c.1.1 then absent c.2 k p.2 /\ clash (ii_uniq p.1) c.2 p.2 = false else c.1.2 = c.2;
}.

Lemma redo_ok k r nrow rows : pk_ok pktyp k -> forall L cs P prev h, all_del L.*1 -> idx_ok h rows (P ++ L) ->
  Forall2 (change_ok k r nrow) cs L -> Z.of_nat (size h + weight L.*1) < 2 ^ 32 ->
  exists h', redo h prev (redone L cs.*1.*1) (pk k) r (pk k) nrow = Some (h', true) /\
    (size h' <= size h + weight L.*1)%nat /\ idx_ok h' rows (P ++ change_pairs k cs L).
Proof.
  intros Hk. induction L as [|[i E] L IH]; intros cs P prev h Hd Hok Hc Hsz;
    inversion Hc as [|[[up v] w] ? cs' ? [C1 C2 C3 C4 C5] Hc']; subst; cbn [fst snd fmap list_fmap] in *.
  - exists h. split; [done|]. split; [lia|done].
  - apply Forall_cons in Hd as [Hd1 Hd2]. unfold weight in *. cbn [sum_list_with] in *. fold (weight L.*1) in *. unfold redone, change_pairs. cbn [ris fmap list_fmap zip zip_with fst snd].
    fold (ris L). rewrite filter_cons. destruct up.
    + rewrite decide_True by done. fold (redone L cs'.*1.*1). fold (change_pairs k cs' L). destruct C5 as [C5 C6].
      cbn [fmap list_fmap fst redo_indexes]. fold (redone L cs'.*1.*1).
      destruct (idx_add h rows P i E L k nrow w Hok C2 Hk ltac:(lia) C5) as (h1 & E1 & S1 & Hok1).
      rewrite C6 in E1, Hok1. rewrite E1. cbn [negb mbind option_bind].
      destruct (idx_del h1 rows P i (add_pair w k E) L k r v Hd1 Hok1 C1 Hk) as (h2 & E2 & S2 & Hok2).
      { pose proof (add_pair_size w k E). lia. }
      { intros x Hx. apply in_add_pair. right. by apply C3. }
      rewrite E2. cbn [mbind option_bind].
      destruct (IH cs' (P ++ [(i, change_pair k (true, v, w) E)]) (prev ++ [ii_ri i]) h2) as (h3 & E3 & S3 & Hok3);
        [done|by rewrite <- app_assoc|done|lia|].
      rewrite <- app_assoc in Hok3. exists h3. split; [exact E3|]. split; [lia|exact Hok3].
    + rewrite decide_False by done. fold (redone L cs'.*1.*1). fold (change_pairs k cs' L).
      destruct (IH cs' (P ++ [(i, E)]) prev h) as (h3 & E3 & S3 & Hok3); [done|by rewrite <- app_assoc|done|lia|].
      rewrite <- app_assoc in Hok3. exists h3. split; [exact E3|]. split; [lia|exact Hok3].
Qed.
(** The changes of the indexes of an UPDATE, and the indexes after it. *)
Lemma inverts_change i rows E k r nrow rn c : inverts i rows E -> rows !! k = Some r ->
  change_ok k r nrow c (i, E) -> (forall v, ii_keyed i k nrow v <-> ii_keyed i k rn v) ->
  inverts i (<[k := rn]> rows) (change_pair k c E).
Proof.
  intros Hi Hk [C1 C2 C3 _ C5] Hs w k'. destruct c as [[up v] x]; cbn in *. apply Hs in C2. setoid_rewrite lookup_insert_Some.
  assert (Hfun : forall r' a b, ii_keyed i k r' a -> ii_keyed i k r' b -> a = b) by
    (intros r' a b; apply (il_fun _ _ _ _ _ _ _ _ _ _ _ (ii_laws i) k r')).
  unfold change_pair. cbn. destruct up.
  - destruct C5 as [C5 _]. rewrite in_del_pair, in_add_pair, (Hi w k'). split.
    + intros [[[-> ->]|(r' & Hr' & Hw)] Hn]; [exists rn; auto|]. exists r'. split; [|done]. right. split; [|done].
      intros <-. apply Hn. split; [|done]. assert (r' = r) as -> by congruence. by apply (Hfun r).
    + intros (r' & [[<- <-]|[Hne Hr']] & Hw).
      * assert (x = Some w) as -> by (by apply (Hfun rn)). split; [by left|].
        intros [-> _]. by apply (C5 w), C3.
      * split; [right; by exists r'|]. intros [_ ->]. done.
  - subst x. rewrite (Hi w k'). split.
    + intros (r' & Hr' & Hw). destruct (decide (k' = k)) as [->|Hne]; [|exists r'; auto].
      assert (r' = r) as -> by congruence. assert (v = Some w) as -> by (by apply (Hfun r)). exists rn. auto.
    + intros (r' & [[<- <-]|[Hne Hr']] & Hw); [|by exists r'].
      assert (v = Some w) as -> by (by apply (Hfun rn)). by exists r.
Qed.

(** An UPDATE that names the columns [chit] and keeps the key can be run: every
    index it redoes gets a value the row did not have, free if the index is
    UNIQUE, and the others keep their value.  An UPDATE outside of this does not
    keep the indexes: when the new value of a UNIQUE index is taken, the row's own
    included, the statement ignores the refusal and the row is stored without its
    entry; see [unique_update_stored] in [Database]. *)
Definition updatable (ids : list index_impl) (rows : gmap Z cptr) (chit : list bool) (k : Z) (r nrow : cptr) : Prop :=
  forall i, i ∈ ids -> exists up v w, effected chit (ii_ri i) = Some up /\ ii_keyed i k r v /\ ii_keyed i k nrow w /\
    if up : bool then
      (v = w -> v = None) /\
      (ii_uniq i = true -> forall k' r', rows !! k' = Some r' -> w = None \/ ~ ii_keyed i k' r' w)
    else v = w.

Lemma changes (L : ixs) (rows : gmap Z cptr) chit k r nrow : Forall (fun p => inverts p.1 rows p.2) L -> roomy rows ->
  rows !! k = Some r -> updatable L.*1 rows chit k r nrow ->
  exists cs, Forall2 (change_ok k r nrow) cs L /\ mapM (effected chit) (ris L) = Some cs.*1.*1.
Proof.
  intros HF Hr Hk. induction L as [|[i E] L IH]; intros Hup; [by exists []|].
  inversion HF as [|? ? Hi HF']; subst. cbn [fmap list_fmap fst] in *.
  destruct IH as (cs & Hcs & Ecs); [done|intros j Hj; apply Hup; by right|].
  destruct (Hup i) as (up & v & w & Eu & Hv & Hw & Hc); [by left|].
  exists ((up, v, w) :: cs). split.
  - constructor; [|done]. pose proof (inverts_size i rows E Hi). unfold roomy in Hr. split; cbn in *; try done; [|lia|].
    + by apply (inverts_present i rows E k r).
    + destruct up; [|done]. destruct Hc as [Hc1 Hc2]. split.
      * intros x ->. intros (r' & Hr' & Hx)%Hi. assert (r' = r) as -> by congruence.
        assert (v = Some x) as -> by (by apply (il_fun _ _ _ _ _ _ _ _ _ _ _ (ii_laws i) k r)). by specialize (Hc1 eq_refl).
      * apply not_true_is_false. intros (Hu & x & k' & -> & (r' & Hr' & Hx)%Hi)%clash_spec.
        by destruct (Hc2 Hu k' r' Hr').
  - cbn [ris fmap list_fmap mapM fst]. rewrite Eu. cbn [mbind option_bind]. fold (ris L). by rewrite Ecs.
Qed.

Lemma fst_changes (k : Z) (cs : list change) (L : ixs) : length cs = length L -> (change_pairs k cs L).*1 = L.*1.
Proof.
  unfold change_pairs. revert cs. induction L as [|[i E] L IH]; intros [|c cs] Hl; try done. cbn. f_equal. apply IH.
  cbn in Hl. lia.
Qed.

Lemma inverts_changes (L : ixs) rows k r nrow rn (cs : list change) : Forall (fun p => inverts p.1 rows p.2) L -> rows !! k = Some r ->
  Forall2 (change_ok k r nrow) cs L -> same_cols L.*1 k nrow rn ->
  Forall (fun p => inverts p.1 (<[k := rn]> rows) p.2) (change_pairs k cs L).
Proof.
  unfold change_pairs. intros HF Hk Hc Hs. induction Hc as [|c [i E] cs L Hc _ IH]; [by constructor|].
  inversion HF as [|? ? Hi HF']; subst. constructor; cbn in *.
  - apply (inverts_change i rows E k r nrow rn); try done. apply Hs. by left.
  - apply IH; [done|]. intros j Hj. apply Hs. by right.
Qed.

(** The row an UPDATE is given to look for. *)
Lemma update_found h rows ids k r : C_IS_NUM pktyp = true -> db_ok h rows ids -> rows !! k = Some r ->
  h_find_d h tb (pk k) = Some (r, false) /\ is_null r = false /\ IS_GHOST (a_spec ta) byte_at r = false.
Proof.
  intros Hn [Hfit (L & HL & Hok & _)] Hk. pose proof (Hfit k r Hk) as [Fpk Fs [Fn Fg] _].
  by rewrite (h_find_d_ok ta Hta h tb rows (pk k) (idx_table h rows L Hok) Fs), pk_value, Hk by done.
Qed.

Lemma update_ok h ainc rows ids chit k r nrow rn mk : C_IS_NUM pktyp = true -> all_del ids -> db_ok h rows ids -> roomy rows ->
  Z.of_nat (size h + weight ids) < 2 ^ 32 -> rows !! k = Some r -> chit_at chit 0 = Some false ->
  mk r = Some (pk k, nrow) -> row_fit ids k rn -> stores ta (pk k) nrow rn -> same_cols ids k nrow rn ->
  updatable ids rows chit k r nrow ->
  exists h' sz, update_row h ainc (inds ids) chit (pk k) mk = Some (h', ainc, sz) /\
    db_ok h' (<[k := rn]> rows) ids /\ (size h' <= size h + weight ids)%nat.
Proof.
  intros Hn Hdel Hdb Hr Hroom Hk Hch Hmk Hf Hst Hsame Hup. destruct (update_found h rows ids k r Hn Hdb Hk) as (Ef & En & Eg).
  destruct Hdb as [Hfit (L & HL & Hok & Hinv)]. subst ids. pose proof Hf as [Fpk Fs _ _].
  pose proof (pk_value k Hn Fpk) as Hpk.
  destruct (changes L rows chit k r nrow Hinv Hr Hk Hup) as (cs & Hcs & Ecs).
  destruct (redo_ok k r nrow rows Fpk L cs [] [] h Hdel Hok Hcs Hroom) as (h1 & E1 & S1 & Hok1). cbn [app] in Hok1.
  destruct (h_replace_ok ta Hta h1 tb rows (pk k) nrow rn (idx_table h1 rows _ Hok1) Hst) as (h2 & sz & E2 & Hset);
    [by rewrite Hpk, Hk|]. rewrite Hpk in Hset.
  exists h2, sz. split.
  { unfold updateSingle. rewrite Ef. cbn [mbind option_bind]. rewrite En, Eg, Hmk. cbn [negb andb orb].
    unfold runUpdate. rewrite Hch. cbn [mbind option_bind]. unfold upEffectedFailableIndexes.
    rewrite <- (ris_inds L _ eq_refl), Ecs. cbn [mbind option_bind]. fold (redone L cs.*1.*1). rewrite E1.
    cbn [mbind option_bind]. rewrite E2. done. }
  split.
  - split; [by apply fit_insert|]. exists (change_pairs k cs L). split; [|split].
    + apply fst_changes. by apply (Forall2_length _ _ _ Hcs).
    + by apply (idx_rows h1 rows).
    + by apply (inverts_changes L rows k r nrow).
  - rewrite (h_set_size _ _ _ _ _ _ (idx_table h1 rows _ Hok1) Hset). lia.
Qed.
(** An UPDATE of the key: the row enters the indexes under the new key before it
    leaves them under the old one. *)
Lemma keyed_moved (k : Z) (r : cptr) (k' : Z) (vs ws : list (option (list Z))) (L : ixs) (rows : gmap Z cptr) : Forall (fun p => inverts p.1 rows p.2) L ->
  rows !! k = Some r -> keyed_all k r vs L -> length ws = length L ->
  Forall2 (fun v p => ii_keyed p.1 k r v /\ Z.of_nat (size p.2) < 2 ^ 32) vs (add_pairs k' ws L) /\
  present_all k vs (add_pairs k' ws L).
Proof.
  unfold keyed_all, present_all, add_pairs. intros HF Hk Hv. revert ws.
  induction Hv as [|v [i E] vs L [Hv Hz] _ IH]; intros [|w ws] Hl; [by split; constructor|done..|].
  inversion HF as [|? ? Hi HF']; subst. cbn in *. destruct (IH HF' ws) as [IH1 IH2]; [lia|]. split; constructor; try done; cbn in *.
  - split; [done|]. pose proof (add_pair_size w k' E). lia.
  - intros x Hx. apply in_add_pair. right. by apply (inverts_present i rows E k r v Hi Hk Hv).
Qed.

Lemma inverts_moved (k : Z) (r : cptr) (k' : Z) (rn : cptr) (vs ws : list (option (list Z))) (L : ixs) (rows : gmap Z cptr) :
  Forall (fun p => inverts p.1 (<[k' := rn]> rows) p.2) (add_pairs k' ws L) -> k <> k' ->
  rows !! k = Some r -> length ws = length L -> keyed_all k r vs L ->
  Forall (fun p => inverts p.1 (<[k' := rn]> (delete k rows)) p.2) (del_pairs k vs (add_pairs k' ws L)).
Proof.
  intros HF Hne Hk. unfold keyed_all. unfold add_pairs, del_pairs in *. rewrite <- delete_insert_ne by done.
  intros Hl Hv. revert ws HF Hl. induction Hv as [|v [i E] vs L [Hv Hz] _ IH]; intros [|w ws] HF Hl; [constructor|done..|].
  inversion HF as [|? ? Hi HF']; subst. cbn in *. constructor; [|apply IH; [done|lia]]. apply (inverts_delete i _ _ k r v Hi); [|done]. by rewrite lookup_insert_ne.
Qed.

(** The table and the indexes hold what a row set and another one say. *)
Definition out_of_step (h : heap) (rows irows : gmap Z cptr) (ids : list index_impl) : Prop :=
  exists L : ixs, L.*1 = ids /\ idx_ok h rows L /\ Forall (fun p => inverts p.1 irows p.2) L.

(** The rows of the old key leave the indexes and the table. *)
Lemma leave_ok h rows (L0 L : ixs) (vs : list (option (list Z))) (k : Z) r : C_IS_NUM pktyp = true -> removable L0.*1 ->
  row_fit L0.*1 k r -> rows !! k = Some r -> L.*1 = L0.*1 -> idx_ok h rows L ->
  Forall2 (fun v p => ii_keyed p.1 k r v /\ Z.of_nat (size p.2) < 2 ^ 32) vs L -> present_all k vs L ->
  exists h1 h2, del_all h (inds L0.*1) (pk k) r false = Some h1 /\ h_delete h1 tb (pk k) = Some h2 /\
    idx_ok h2 (delete k rows) (del_pairs k vs L) /\ (size h2 <= size h)%nat.
Proof.
  intros Hn [Hkept Hdel] [Fpk Fs _ _] Hk HL Hok Hkv Hpres. pose proof (pk_value k Hn Fpk) as Hpk.
  destruct (run_del k r rows Fpk L vs [] [] h) as (h1 & E1 & S1 & Hok1); [by rewrite HL|by rewrite app_nil_r|done|done|].
  rewrite app_nil_r in Hok1. cbn [app] in Hok1. rewrite (ris_inds L _ HL) in E1.
  destruct (h_delete_ok ta Hta h1 tb rows (pk k) Hkept (idx_table h1 rows _ Hok1) Fs) as (h2 & E2 & Hset);
    [by rewrite Hpk, Hk|]. rewrite Hpk in Hset.
  exists h1, h2. split; [done|]. split; [done|]. split; [by apply (idx_rows h1 rows)|].
  by rewrite (h_set_size _ _ _ _ _ _ (idx_table _ _ _ Hok1) Hset).
Qed.

Lemma update_pk_gen h ainc rows ids chit k r k' nrow rn mk : C_IS_NUM pktyp = true -> removable ids -> db_ok h rows ids -> roomy rows ->
  Z.of_nat (size h + weight ids) < 2 ^ 32 -> rows !! k = Some r -> chit_at chit 0 = Some true ->
  mk r = Some (pk k', nrow) -> row_fit ids k' rn -> stores ta (pk k') nrow rn -> same_cols ids k' nrow rn ->
  rows !! k' = None ->
  exists h' sz b, (b = true <-> violates ids rows k' rn) /\
    update_row h ainc (inds ids) chit (pk k) mk = Some (h', update_auto_inc pktyp ainc (pk k'), sz) /\
    out_of_step h' (<[k' := rn]> (delete k rows)) (if b then delete k rows else <[k' := rn]> (delete k rows)) ids /\
    (size h' <= size h + weight ids)%nat.
Proof.
  intros Hn Hrem Hdb Hr Hroom Hk Hch Hmk Hf Hst Hsame Hk'. pose proof (proj2 Hrem) as Hdel.
  destruct (update_found h rows ids k r Hn Hdb Hk) as (Ef & En & Eg).
  destruct Hdb as [Hfit (L & HL & Hok & Hinv)]. subst ids. pose proof (Hfit k r Hk) as Hfk. pose proof Hf as [Fpk' _ _ Fv'].
  pose proof (pk_value k' Hn Fpk') as Hpk'. assert (Hne : k <> k') by congruence.
  destruct (values L rows k' rn Hinv Hr Fv') as [ws Hws].
  destruct (values L rows k r Hinv Hr (rf_keyed _ _ _ Hfk)) as [vs Hvs].
  destruct (absent_values L rows k' rn ws Hinv Hk' Hws) as [Habs Hinv'].
  assert (Hlen : length ws = length L) by (by apply (keyed_len k' rn)).
  destruct (run_add k' nrow rows Fpk' L ws [] [] h) as (h1 & E1 & S1 & Hok1);
    [by constructor|done|exact Hok|by constructor|by constructor|by apply (keyed_same k' nrow rn)|done|done|].
  cbn [length ris fmap list_fmap app add_pairs zip_with] in *. rewrite (ris_inds L _ eq_refl) in E1.
  set (L1 := if refused ws L then L else add_pairs k' ws L).
  assert (Hleave : exists h2 h3, del_all h1 (inds L.*1) (pk k) r false = Some h2 /\ h_delete h2 tb (pk k) = Some h3 /\
      idx_ok h3 (delete k rows) (del_pairs k vs L1) /\ (size h3 <= size h1)%nat /\ (del_pairs k vs L1).*1 = L.*1 /\
      Forall (fun p => inverts p.1 (if refused ws L then delete k rows else <[k' := rn]> (delete k rows)) p.2) (del_pairs k vs L1)).
  { pose proof (keyed_len k r vs L Hvs) as Hlv. unfold L1. destruct (refused ws L).
    - destruct (present_values L rows k r vs Hinv Hk Hvs) as [Hp Hinv2].
      destruct (leave_ok h1 rows L L vs k r) as (h2 & h3 & E2 & E3 & Hok3 & S3); try done; [by apply keyed_weak|].
      exists h2, h3. split_and!; try done. by apply (fst_pairs (fun v => del_pair v k)).
    - destruct (keyed_moved k r k' vs ws L rows Hinv Hk Hvs Hlen) as [Hkv Hpres].
      assert (Hfst : (add_pairs k' ws L).*1 = L.*1) by (by apply (fst_pairs (fun v => add_pair v k'))).
      destruct (leave_ok h1 rows L (add_pairs k' ws L) vs k r) as (h2 & h3 & E2 & E3 & Hok3 & S3); try done.
      assert (Hla : length (add_pairs k' ws L) = length L) by (unfold add_pairs; rewrite length_zip_with; lia).
      exists h2, h3. split_and!; try done; [|by apply (inverts_moved k r)].
      rewrite <- Hfst. apply (fst_pairs (fun v => del_pair v k)). lia. }
  destruct Hleave as (h2 & h3 & E2 & E3 & Hok3 & S3 & Hfst & Hinv3).
  destruct (h_add_ok ta Hta h3 tb (delete k rows) (pk k') nrow rn (idx_table _ _ _ Hok3) Hst) as (h4 & sz & E4 & Hset4);
    [by rewrite Hpk', lookup_delete_ne|]. rewrite Hpk' in Hset4.
  exists h4, sz, (refused ws L). split; [by apply refused_violates|]. split.
  { unfold updateSingle. rewrite Ef. cbn [mbind option_bind]. rewrite En, Eg, Hmk. cbn [negb andb orb].
    unfold runUpdate. rewrite Hch. cbn [mbind option_bind]. unfold runFailableInsertIndexes. rewrite E1.
    cbn [mbind option_bind]. rewrite E2. cbn [mbind option_bind]. rewrite E3. cbn [mbind option_bind]. by rewrite E4. }
  split; [|rewrite (h_set_size _ _ _ _ _ _ (idx_table _ _ _ Hok3) Hset4); lia].
  exists (del_pairs k vs L1). split; [done|]. split; [|done]. by apply (idx_rows h3 (delete k rows)).
Qed.

Lemma update_pk_ok h ainc rows ids chit k r k' nrow rn mk : C_IS_NUM pktyp = true -> removable ids -> db_ok h rows ids -> roomy rows ->
  Z.of_nat (size h + weight ids) < 2 ^ 32 -> rows !! k = Some r -> chit_at chit 0 = Some true ->
  mk r = Some (pk k', nrow) -> row_fit ids k' rn -> stores ta (pk k') nrow rn -> same_cols ids k' nrow rn ->
  rows !! k' = None -> ~ violates ids rows k' rn ->
  exists h' sz, update_row h ainc (inds ids) chit (pk k) mk = Some (h', update_auto_inc pktyp ainc (pk k'), sz) /\
    db_ok h' (<[k' := rn]> (delete k rows)) ids /\ (size h' <= size h + weight ids)%nat.
Proof.
  intros Hn Hrem Hdb Hr Hroom Hk Hch Hmk Hf Hst Hsame Hk' Hnv.
  destruct (update_pk_gen h ainc rows ids chit k r k' nrow rn mk) as (h' & sz & b & Hb & E & Ho & Hs); try done.
  destruct b; [by destruct Hnv; apply Hb|]. exists h', sz. split; [done|]. split; [|done]. split; [|exact Ho].
  apply fit_insert; [|done]. intros q rq [_ Hq]%lookup_delete_Some. by apply (db_fit _ _ _ Hdb).
Qed.

(** An UPDATE that gives the first index, a UNIQUE one, a value that is taken: the
    row is written, and no index changes. *)
Lemma update_taken h ainc rows i ids chit k r nrow rn mk ups w k' r' : C_IS_NUM pktyp = true ->
  db_ok h rows (i :: ids) -> rows !! k = Some r -> chit_at chit 0 = Some false -> mk r = Some (pk k, nrow) ->
  stores ta (pk k) nrow rn -> ii_uniq i = true -> mapM (effected chit) (inds (i :: ids)) = Some (true :: ups) ->
  ii_keyed i k nrow (Some w) -> rows !! k' = Some r' -> ii_keyed i k' r' (Some w) ->
  exists h' sz, update_row h ainc (inds (i :: ids)) chit (pk k) mk = Some (h', ainc, sz) /\
    out_of_step h' (<[k := rn]> rows) rows (i :: ids).
Proof.
  intros Hn Hdb Hk Hch Hmk Hst Hu Hup Hw Hk' Hw'. destruct (update_found h rows _ k r Hn Hdb Hk) as (Ef & En & Eg).
  destruct Hdb as [Hfit (L & HL & Hok & Hinv)]. destruct (Hfit k r Hk) as [Fpk Fs _ _].
  pose proof (pk_value k Hn Fpk) as Hpk. destruct L as [|[j E] L]; [done|]. pose proof HL as [= -> _].
  inversion Hinv as [|? ? Hi _]; subst. cbn in Hi.
  assert (Hin : (w, k') ∈ E) by (apply Hi; by exists r').
  destruct (idx_step h rows [] i E L Hok) as (fp & Hrep & _).
  pose proof (il_refuse _ _ _ _ _ _ _ _ _ _ _ (ii_laws i) h fp E k k' nrow w Hu Hrep Hw Hin) as Eadd.
  destruct (h_replace_ok ta Hta h tb rows (pk k) nrow rn (idx_table h rows _ Hok) Hst) as (h2 & sz & E2 & Hset);
    [by rewrite Hpk, Hk|]. rewrite Hpk in Hset.
  exists h2, sz. split.
  - unfold updateSingle. rewrite Ef. cbn [mbind option_bind]. rewrite En, Eg, Hmk. cbn [negb andb orb].
    unfold runUpdate. rewrite Hch. cbn [mbind option_bind]. unfold upEffectedFailableIndexes.
    rewrite Hup. cbn [mbind option_bind fmap list_fmap zip zip_with]. rewrite filter_cons, decide_True by done.
    cbn [fmap list_fmap fst redo_indexes]. rewrite Eadd. cbn [mbind option_bind runDeleteIndexes]. by rewrite E2.
  - exists ((i, E) :: L). split; [done|]. split; [by apply (idx_rows h rows)|done].
Qed.

(** ** Histories of statements *)

(** INSERT of a row for a key, DELETE of a key, UPDATE of columns of a key. *)
Inductive dml :=
  | INSERT (k : Z) (nrow : cptr)
  | DELETE (k : Z)
  | UPDATE (chit : list bool) (k : Z) (new_row : cptr -> option (aobj * cptr)).

(** What the code does: the store and the auto-increment, and what it answers. *)
Definition ins_code (x : ins_t) : Z := match x with INS_ERR => 0 | INS_INS => 1 | INS_UP => 2 end.
Definition dml_exec (ids : list index_impl) (upa : heap -> Z -> option (heap * Z * bool)) (h : heap) (ainc : Z)
    (op : dml) : option (heap * Z * Z) :=
  match op with
  | INSERT k nrow =>
      '(h, ainc, x) ← insert_row upa h ainc (inds ids) (pk k) (Some nrow) false false false; Some (h, ainc, ins_code x)
  | DELETE k => '(h, ret) ← delete_row h (pk k) (inds ids); Some (h, ainc, ret)
  | UPDATE chit k mk => update_row h ainc (inds ids) chit (pk k) mk
  end.
Fixpoint dml_execs (ids : list index_impl) (upa : heap -> Z -> option (heap * Z * bool)) (h : heap) (ainc : Z)
    (ops : list dml) : option (heap * Z) :=
  match ops with
  | [] => Some (h, ainc)
  | op :: ops => '(h, ainc, _) ← dml_exec ids upa h ainc op; dml_execs ids upa h ainc ops
  end.

(** The row made for the table is the row the table gives back. *)
Record row_made (ids : list index_impl) (k : Z) (nrow r : cptr) : Prop := {
  rm_fit : row_fit ids k r;
  rm_stores : stores ta (pk k) nrow r;
  rm_same : same_cols ids k nrow r;
}.

(** What a statement does to the rows. *)
Inductive dml_step (ids : list index_impl) (rows : gmap Z cptr) : dml -> gmap Z cptr -> Prop :=
  | St_insert k nrow r : row_made ids k nrow r -> rows !! k = None -> ~ violates ids rows k r ->
      dml_step ids rows (INSERT k nrow) (<[k := r]> rows)
  | St_exists k nrow r : rows !! k = Some r -> dml_step ids rows (INSERT k nrow) rows
  | St_violates k nrow r : row_made ids k nrow r -> rows !! k = None -> violates ids rows k r ->
      dml_step ids rows (INSERT k nrow) rows
  | St_delete k r : rows !! k = Some r -> dml_step ids rows (DELETE k) (delete k rows)
  | St_absent k : pk_ok pktyp k -> searchable ta (pk k) -> rows !! k = None -> dml_step ids rows (DELETE k) rows
  | St_update chit k mk r nrow rn : rows !! k = Some r -> chit_at chit 0 = Some false ->
      mk r = Some (pk k, nrow) -> row_made ids k nrow rn -> updatable ids rows chit k r nrow ->
      dml_step ids rows (UPDATE chit k mk) (<[k := rn]> rows)
  | St_move chit k mk r k' nrow rn : rows !! k = Some r -> chit_at chit 0 = Some true ->
      mk r = Some (pk k', nrow) -> row_made ids k' nrow rn -> rows !! k' = None -> ~ violates ids rows k' rn ->
      dml_step ids rows (UPDATE chit k mk) (<[k' := rn]> (delete k rows)).

Inductive dml_run (ids : list index_impl) : gmap Z cptr -> list dml -> gmap Z cptr -> Prop :=
  | Run_nil rows : dml_run ids rows [] rows
  | Run_cons rows op rows1 ops rows2 : dml_step ids rows op rows1 -> dml_run ids rows1 ops rows2 ->
      dml_run ids rows (op :: ops) rows2.

(** No key is above the auto-increment of the table. *)
Definition counted (ainc : Z) (rows : gmap Z cptr) : Prop := map_Forall (fun k _ => k <= ainc) rows.

Lemma counted_new ainc rows k r : C_IS_NUM pktyp = true -> pk_ok pktyp k -> counted ainc rows ->
  counted (update_auto_inc pktyp ainc (pk k)) (<[k := r]> rows).
Proof.
  intros Hn Hk Hc. unfold update_auto_inc. rewrite Hn, (proj2 (pk_obj_ok pktyp k Hn Hk)). cbn [andb].
  intros k' r' [[<- _]|[_ Hr']]%lookup_insert_Some; [|apply Hc in Hr']; destruct (ainc <? k) eqn:E; lia.
Qed.
Lemma counted_sub ainc rows rows' : counted ainc rows -> rows' ⊆ rows -> counted ainc rows'.
Proof. intros Hc Hs k r Hr. apply (Hc k r). by apply (lookup_weaken rows'). Qed.

Lemma dml_step_ok ids upa h ainc rows op rows' : C_IS_NUM pktyp = true -> removable ids -> db_ok h rows ids -> counted ainc rows ->
  roomy rows -> Z.of_nat (size h + weight ids) < 2 ^ 32 -> dml_step ids rows op rows' ->
  exists h' ainc' x, dml_exec ids upa h ainc op = Some (h', ainc', x) /\ db_ok h' rows' ids /\ counted ainc' rows' /\
    (size h' <= size h + weight ids)%nat /\ (size rows' <= S (size rows))%nat.
Proof.
  intros Hn Hrem Hdb Hc Hr Hroom Hst. pose proof (proj2 Hrem) as Hdel. destruct Hst as [k nrow r [Mf Ms Mc] Hk Hv|k nrow r Hk|k nrow r [Mf Ms Mc] Hk Hv|k r Hk|
    k Hp Hs Hk|chit k mk r nrow rn Hk Hch Hmk [Mf Ms Mc] Hup|chit k mk r k' nrow rn Hk Hch Hmk [Mf Ms Mc] Hk' Hv]; cbn [dml_exec].
  - destruct (row_insert_ok upa h ainc rows ids k nrow r false Hn Hdel Hdb Hr ltac:(lia) Mf Ms Mc Hk) as (h' & b & Hb & E & Hdb' & Hs).
    rewrite E. destruct b; [by destruct Hv; apply Hb|]. eexists _, _, _. split; [done|]. split; [done|].
    split; [apply counted_new; [done|apply Mf|done]|]. split; [lia|]. rewrite map_size_insert, Hk. done.
  - rewrite (insert_exists upa h ainc rows ids k r (Some nrow) false) by done. cbn [mbind option_bind].
    eexists _, _, _. split; [done|]. split; [done|]. split; [done|]. split; lia.
  - destruct (row_insert_ok upa h ainc rows ids k nrow r false Hn Hdel Hdb Hr ltac:(lia) Mf Ms Mc Hk) as (h' & b & Hb & E & Hdb' & Hs).
    rewrite E. apply Hb in Hv as ->. eexists _, _, _. split; [done|]. split; [done|]. split; [done|]. split; lia.
  - destruct (row_delete_ok h rows ids k r Hn Hrem Hdb Hr Hk) as (h' & -> & Hdb' & Hs). eexists _, _, _. split; [done|].
    split; [done|]. split; [apply (counted_sub ainc rows); [done|apply delete_subseteq]|]. split; [lia|].
    rewrite map_size_delete, Hk. unfold id. lia.
  - rewrite (delete_none h rows ids k) by done. eexists _, _, _. split; [done|]. split; [done|]. split; [done|]. split; lia.
  - destruct (update_ok h ainc rows ids chit k r nrow rn mk) as (h' & sz & -> & Hdb' & Hs); [done..|].
    eexists _, _, _. split; [done|]. split; [done|]. split; [|split; [lia|rewrite map_size_insert, Hk; unfold id; lia]].
    apply map_Forall_insert_2; [by apply (Hc k r)|done].
  - destruct (update_pk_ok h ainc rows ids chit k r k' nrow rn mk) as (h' & sz & -> & Hdb' & Hs); [done..|].
    eexists _, _, _. split; [done|]. split; [done|]. split; [|split; [lia|]].
    + apply counted_new; [done|apply Mf|]. apply (counted_sub ainc rows); [done|apply delete_subseteq].
    + rewrite map_size_insert, lookup_delete_ne, Hk' by congruence. rewrite map_size_delete, Hk. unfold id. lia.
Qed.

Lemma run_ok ids upa rows ops rows' : C_IS_NUM pktyp = true -> removable ids -> dml_run ids rows ops rows' -> forall h ainc,
  db_ok h rows ids -> counted ainc rows -> Z.of_nat (size rows + length ops) < 2 ^ 32 ->
  Z.of_nat (size h + weight ids * length ops) < 2 ^ 32 ->
  exists h' ainc', dml_execs ids upa h ainc ops = Some (h', ainc') /\ db_ok h' rows' ids /\ counted ainc' rows'.
Proof.
  intros Hn Hrem. induction 1 as [rows|rows op rows1 ops rows2 Hst _ IH]; intros h ainc Hdb Hc Hr Hroom; [by exists h, ainc|].
  cbn [length] in *. rewrite Nat.mul_succ_r in Hroom. assert (Hr1 : roomy rows) by (unfold roomy; lia).
  destruct (dml_step_ok ids upa h ainc rows op rows1) as (h1 & ainc1 & x & E & Hdb1 & Hc1 & Hs1 & Hs2); try done; [lia|].
  cbn [dml_execs]. rewrite E. cbn [mbind option_bind]. apply IH; [done|done|lia|lia].
Qed.
End DmlLaws.
