(* ===== verification/Database.v ===== *)
(** * Tables with indexes: what is promised, and where it breaks

    The theorems about statements on a table with its indexes, and a table to try
    them on: an INT key, two INT columns, a UNIQUE index on the second, an index on
    the first and one on both. *)

From stdpp Require Import gmap.
From S2P Require Import Prelude Stream CStr Row Aobj BtSearch DirtyStream Btree BtOps BtIter BtScan BtKey BtKeyLaws BtStream Abt GetCol Index IndexLaws MciLaws Dml DmlLaws.

(** ** An allocator *)

(** The first address of 16, 32, ... that is free. *)
Fixpoint probe (h : heap) (n : nat) (p : Z) : Z :=
  match n with
  | O => p
  | S n => match h !! p with None => p | Some _ => probe h n (p + 16) end
  end.
#[global] Instance first_free : Malloc := fun h => probe h (size h) 16.

Lemma probe_range h n p : p <= probe h n p <= p + 16 * Z.of_nat n.
Proof.
  revert p. induction n as [|n IH]; intros p; cbn [probe]; [lia|]. destruct (h !! p); [|lia].
  pose proof (IH (p + 16)). lia.
Qed.
Lemma probe_taken h n p : is_Some (h !! probe h n p) ->
  forall i, (i <= n)%nat -> is_Some (h !! (p + 16 * Z.of_nat i)).
Proof.
  revert p. induction n as [|n IH]; intros p; cbn [probe].
  - intros Hp i Hi. replace (p + 16 * Z.of_nat i) with p by lia. done.
  - destruct (h !! p) as [t|] eqn:E; [|intros [? ?]; congruence]. intros Hp [|i] Hi.
    + rewrite Z.mul_0_r, Z.add_0_r, E. done.
    + replace (p + 16 * Z.of_nat (S i)) with (p + 16 + 16 * Z.of_nat i) by lia. apply IH; [done|lia].
Qed.
#[global] Instance first_free_laws : MallocLaws.
Proof.
  intros h Hs. unfold malloc, first_free. pose proof (probe_range h (size h) 16). split; [|lia].
  destruct (h !! probe h (size h) 16) eqn:E; [|done]. exfalso.
  pose proof (probe_taken h (size h) 16 (mk_is_Some _ _ E)) as Ht.
  set (l := (fun i => 16 + 16 * Z.of_nat i) <$> seq 0 (S (size h))).
  assert (Hl : (length l <= length (elements (dom h)))%nat).
  { apply submseteq_length, NoDup_submseteq.
    - apply NoDup_fmap_2; [intros x y Hxy; lia|apply NoDup_seq].
    - intros q (i & -> & Hi%elem_of_seq)%list_elem_of_fmap. apply elem_of_elements, elem_of_dom, Ht. lia. }
  unfold l in Hl. rewrite length_fmap, length_seq in Hl.
  assert (length (elements (dom h)) = size h) by (rewrite <- size_dom; done). lia.
Qed.

Section Claims.
Context `{MallocLaws} (floor_log2 : Z -> Z) (luatAdd luatDel : r_ind_t -> aobj -> cptr -> heap -> heap).
Context (getcol : Z -> aobj -> cptr -> option aobj) (pktyp : Z) (coltype : Z -> Z) (Hpk : C_IS_NUM pktyp = true).
Context (ta : bt_args) (Hta : lawful ta) (Hkt : ktype (a_spec ta) = pktyp) (tb : Z) (byte_at : Z -> Z).
#[local] Abbreviation index := (index_impl floor_log2 luatAdd luatDel getcol pktyp coltype).
#[local] Abbreviation ri_of := (ii_ri floor_log2 luatAdd luatDel getcol pktyp coltype).
#[local] Abbreviation keyed_by := (ii_keyed floor_log2 luatAdd luatDel getcol pktyp coltype).
#[local] Abbreviation consistent := (db_ok floor_log2 luatAdd luatDel getcol pktyp coltype ta tb byte_at).
#[local] Abbreviation run := (dml_run floor_log2 luatAdd luatDel getcol pktyp coltype ta byte_at).
#[local] Abbreviation execs := (dml_execs floor_log2 luatAdd luatDel getcol pktyp coltype ta tb byte_at).
#[local] Abbreviation update := (updateSingle floor_log2 luatAdd luatDel getcol pktyp coltype ta tb byte_at).
#[local] Abbreviation trees := (weight floor_log2 luatAdd luatDel getcol pktyp coltype).
#[local] Abbreviation removes := (removable floor_log2 luatAdd luatDel getcol pktyp coltype ta).
#[local] Abbreviation drifted := (out_of_step floor_log2 luatAdd luatDel getcol pktyp coltype ta tb).

(** ** The indexes *)

(** The nodes of the indexes without UNIQUE do not survive the removal of a U128
    key; a UNIQUE index is one packed tree. *)
Definition plain_index (ri : r_ind_t) (Hs : single ri) (Hu : UNIQ (ri_cnstr ri) = false) : index :=
  Impl _ _ _ _ _ _ ri false 1 _ _ (single_laws floor_log2 luatAdd luatDel getcol pktyp coltype Hpk ri Hs Hu)
    (negb (C_IS_X pktyp))
    (fun Hx => single_del floor_log2 luatAdd luatDel getcol pktyp coltype Hpk ri Hs Hu (proj1 (negb_true_iff _) Hx)).
Definition unique_index (ri : r_ind_t) (Hs : single ri) (Hu : UNIQ (ri_cnstr ri) = true) : index :=
  Impl _ _ _ _ _ _ ri true 1 _ _ (uniq_laws floor_log2 luatAdd luatDel getcol pktyp coltype Hpk ri Hs Hu)
    true (fun _ => uniq_del floor_log2 luatAdd luatDel getcol pktyp coltype Hpk ri Hs Hu).

Definition multi_index (ri : r_ind_t) (Hm : multi coltype ri) : index :=
  Impl _ _ _ _ _ _ ri false _ _ _ (multi_laws floor_log2 luatAdd luatDel getcol pktyp coltype Hpk ri Hm)
    (negb (C_IS_X pktyp))
    (fun Hx => multi_del floor_log2 luatAdd luatDel getcol pktyp coltype Hpk ri Hm (proj1 (negb_true_iff _) Hx)).

(** A table and indexes just created. *)
Lemma fresh_db h (ids : list index) fps : h_holds h tb ta ∅ -> length fps = length ids -> apart fps ->
  Forall2 (fun i fp => ii_rep _ _ _ _ _ _ i h fp ∅ /\ tb ∉ fp) ids fps -> consistent h ∅ ids.
Proof.
  intros Ht Hl Hap Hr. split; [by intros k r Hk; rewrite lookup_empty in Hk|].
  exists ((fun i => (i, ∅)) <$> ids). split; [by rewrite <- list_fmap_compose, list_fmap_id|]. split.
  - exists fps. split; [done|by rewrite length_fmap| |done]. intros n i E fp HL Hf.
    apply list_lookup_fmap_Some in HL as (j & [= <- ->] & HL). by destruct (Forall2_lookup_lr _ _ _ _ _ _ Hr HL Hf).
  - apply Forall_fmap, Forall_true. intros i w k. cbn. split; [by intros ?%elem_of_empty|].
    intros (r & Hr' & _). by rewrite lookup_empty in Hr'.
Qed.

Lemma fresh_plain h ri : (exists a, createIndexNode pktyp COL_TYPE_NONE = Some a) ->
  h_holds h (ri_btr ri) (createIndexBT (ri_dtype ri) (ri_num ri)) ∅ ->
  rep_single pktyp ri h {[ri_btr ri]} ∅.
Proof.
  intros [node Hn] Hh. exists node, ∅. split; [done|]. split.
  - by rewrite map_img_empty_L, (right_id_L ∅ (∪)).
  - by rewrite fmap_empty.
  - intros v. by rewrite lookup_empty.
  - intros v1 v2 p. by rewrite lookup_empty.
  - intros v p. by rewrite lookup_empty.
  - by intros w k ?%elem_of_empty.
Qed.
Lemma fresh_unique h ri a : createU_S_IBT (ri_dtype ri) (ri_num ri) pktyp = Some a ->
  h_holds h (ri_btr ri) a ∅ -> rep_uniq pktyp ri h {[ri_btr ri]} ∅.
Proof.
  intros Ha Hh. exists a, ∅. split; [done|]. split; [done|done|by intros v x; rewrite lookup_empty|].
  by intros w k ?%elem_of_empty.
Qed.

Lemma fresh_multi h ri c cs : ri_bclist ri = c :: cs -> (exists a, createIndexNode pktyp COL_TYPE_NONE = Some a) ->
  h_holds h (ri_btr ri) (createIBT (coltype c) (ri_num ri) BTREE_MCI) ∅ -> rep_multi pktyp coltype ri h {[ri_btr ri]} ∅.
Proof.
  intros Hc [node Hn] Hh. exists node. split; [done|]. rewrite Hc.
  apply (repm_ext _ _ _ _ _ _ _ _ (fun _ _ => False)); [by apply repm_empty|]. intros w k. by rewrite elem_of_empty.
Qed.


(** C1: A history of INSERT, DELETE and UPDATE statements on a table, refused
    INSERTs and DELETEs of absent keys included, runs to the end without a failed
    assertion or a read through a wrong pointer, leaves the rows the statements
    say, every index the exact inverse of the rows, and the auto-increment not
    below any key: a refused INSERT changes nothing.

    Not any UPDATE: one that keeps the key gives every index it redoes a value the
    row did not have, and a free one if the index is UNIQUE; one that changes it
    takes a free key, and no value that a UNIQUE index has, not even the row's own
    ([dml_step], [updatable]; [unique_update_stored] and [pk_update_unindexed] are
    what happens otherwise).  And keys can be removed from the trees
    ([removable]): when the key is a U128 every index is UNIQUE. *)
Theorem dml_history (ids : list index) upa (rows rows' : gmap Z cptr) ops h ainc :
  removes ids -> run ids rows ops rows' -> consistent h rows ids -> counted ainc rows ->
  Z.of_nat (size rows + length ops) < 2 ^ 32 -> Z.of_nat (size h + trees ids * length ops) < 2 ^ 32 ->
  exists h' ainc', execs ids upa h ainc ops = Some (h', ainc') /\ consistent h' rows' ids /\ counted ainc' rows'.
Proof. intros Hrem Hr. by apply run_ok. Qed.


(** C39: An UPDATE of one row whose new value is taken in the UNIQUE index checked
    first is not refused: the row is written and the statement succeeds, while no
    index changes, so all of them still describe the old row. *)
Theorem unique_update_stored (i : index) (ids : list index) h ainc (rows : gmap Z cptr) chit k r nrow rn mk ups w k' r' :
  consistent h rows (i :: ids) -> rows !! k = Some r -> chit_at chit 0 = Some false -> mk r = Some (pk_obj pktyp k, nrow) ->
  stores ta (pk_obj pktyp k) nrow rn -> ii_uniq _ _ _ _ _ _ i = true ->
  mapM (effected chit) (ri_of <$> i :: ids) = Some (true :: ups) ->
  keyed_by i k nrow (Some w) -> rows !! k' = Some r' -> keyed_by i k' r' (Some w) ->
  exists h' sz, update h ainc (ri_of <$> i :: ids) chit (pk_obj pktyp k) mk = Some (h', ainc, sz) /\
    drifted h' (<[k := rn]> rows) rows (i :: ids).
Proof. intros. by apply (update_taken floor_log2 luatAdd luatDel getcol pktyp coltype ta Hta Hkt tb byte_at h ainc rows i ids chit k r nrow rn mk ups w k' r'). Qed.

(** C40: An UPDATE of the key of a row that keeps a value of a UNIQUE index takes
    the row out of every index: the entry under the new key is refused because
    the entry under the old key is still there, which then goes too.  (In a table
    and indexes from which keys can be removed: no index without UNIQUE for a U128
    key.) *)
Theorem pk_update_unindexed (ids : list index) h ainc (rows : gmap Z cptr) chit k r k' nrow rn mk i w :
  removes ids -> consistent h rows ids -> roomy rows -> Z.of_nat (size h + trees ids) < 2 ^ 32 -> rows !! k = Some r ->
  chit_at chit 0 = Some true -> mk r = Some (pk_obj pktyp k', nrow) ->
  row_fit floor_log2 luatAdd luatDel getcol pktyp coltype ta byte_at ids k' rn -> stores ta (pk_obj pktyp k') nrow rn ->
  same_cols floor_log2 luatAdd luatDel getcol pktyp coltype ids k' nrow rn -> rows !! k' = None ->
  i ∈ ids -> ii_uniq _ _ _ _ _ _ i = true -> keyed_by i k r (Some w) -> keyed_by i k' rn (Some w) ->
  exists h' sz, update h ainc (ri_of <$> ids) chit (pk_obj pktyp k) mk =
      Some (h', update_auto_inc pktyp ainc (pk_obj pktyp k'), sz) /\
    drifted h' (<[k' := rn]> (delete k rows)) (delete k rows) ids.
Proof.
  intros Hrem Hc Hr Hroom Hk Hch Hmk Hf Hst Hsame Hk' Hi Hu Hw Hw'.
  destruct (update_pk_gen floor_log2 luatAdd luatDel getcol pktyp coltype ta Hta Hkt tb byte_at h ainc rows ids chit k r k' nrow rn mk)
    as (h' & sz & b & Hb & E & Hd & _); try done.
  assert (b = true) as -> by (apply Hb; exists i, w; split_and!; try done; by exists k, r). by exists h', sz.
Qed.
End Claims.

(** ** A table to try them on *)

(** TABLE t (id INT, a INT, u INT), with a UNIQUE index on u, which is first in the
    list, an index on a and one on (a, u). *)
Definition t_args : bt_args := createDBT COL_TYPE_INT 0 3 COL_TYPE_INT false.
Definition t_tbl : r_tbl_t := Tbl [C_INT; C_INT] None None.
Definition t_col (c : Z) (apk : aobj) (r : cptr) : option aobj :=
  getCol (fun _ _ => []) (fun _ a => a) [] 0 (a_spec t_args) t_tbl r c apk.
Definition t_u : r_ind_t := RInd 2 false 48 2 [] CONSTRAINT_UNIQUE false false false (-1) COL_TYPE_INT false.
Definition t_a : r_ind_t := RInd 1 false 32 1 [] CONSTRAINT_NONE false false false (-1) COL_TYPE_INT false.
Definition t_m : r_ind_t := RInd 3 false 64 1 [1; 2] CONSTRAINT_NONE false false false (-1) COL_TYPE_INT false.
Definition t_row (a u : Z) : cptr := PMem [1; 5; 1; 2; 2 * a + 1; 2 * u + 1].

#[local] Abbreviation no_lua := (fun (_ : r_ind_t) (_ : aobj) (_ : cptr) (h : heap) => h).
#[local] Abbreviation t_index := (index_impl (fun _ => 0) no_lua no_lua t_col COL_TYPE_INT (fun _ => COL_TYPE_INT)).
#[local] Abbreviation tpk k := (pk_obj COL_TYPE_INT k).

Lemma t_u_single : single t_u. Proof. by split. Qed.
Lemma t_a_single : single t_a. Proof. by split. Qed.
Lemma t_m_multi : multi (fun _ => COL_TYPE_INT) t_m. Proof. by split; [..|repeat constructor]. Qed.
Definition i_u : t_index :=
  unique_index (fun _ => 0) no_lua no_lua t_col COL_TYPE_INT (fun _ => COL_TYPE_INT) eq_refl t_u t_u_single eq_refl.
Definition i_a : t_index :=
  plain_index (fun _ => 0) no_lua no_lua t_col COL_TYPE_INT (fun _ => COL_TYPE_INT) eq_refl t_a t_a_single eq_refl.
Definition i_m : t_index :=
  multi_index (fun _ => 0) no_lua no_lua t_col COL_TYPE_INT (fun _ => COL_TYPE_INT) eq_refl t_m t_m_multi.
Definition t_ids : list t_index := [i_u; i_a; i_m].

(** The store after CREATE TABLE and CREATE INDEX. *)
Definition new_tree (a : bt_args) : htree := HTree a (abt_create a).
Definition t_heap : heap :=
  {[16 := new_tree t_args; 32 := new_tree (createIndexBT COL_TYPE_INT 1);
    48 := new_tree (createUUBT 2 BT_SIMP_UNIQ); 64 := new_tree (createMCI_IBT COL_TYPE_INT 3 COL_TYPE_INT)]}.

#[local] Abbreviation t_ok := (db_ok (fun _ => 0) no_lua no_lua t_col COL_TYPE_INT (fun _ => COL_TYPE_INT) t_args 16 (fun _ => 1)).
#[local] Abbreviation t_run := (dml_run (fun _ => 0) no_lua no_lua t_col COL_TYPE_INT (fun _ => COL_TYPE_INT) t_args (fun _ => 1)).
#[local] Abbreviation t_made := (row_made (fun _ => 0) no_lua no_lua t_col COL_TYPE_INT (fun _ => COL_TYPE_INT) t_args (fun _ => 1) t_ids).
#[local] Abbreviation t_keyed := (ii_keyed (fun _ => 0) no_lua no_lua t_col COL_TYPE_INT (fun _ => COL_TYPE_INT)).

Lemma t_removable : removable (fun _ => 0) no_lua no_lua t_col COL_TYPE_INT (fun _ => COL_TYPE_INT) t_args t_ids.
Proof. split; [reflexivity|]. repeat constructor. Qed.

Lemma t_lawful : lawful t_args.
Proof. apply created_lawful. by apply created_table. Qed.

Lemma new_tree_holds a h p : h !! p = Some (new_tree a) -> h_holds h p a ∅.
Proof. intros E. exists (abt_create a). split; [done|]. apply create_holds. Qed.

Lemma t_fresh : t_ok t_heap ∅ t_ids.
Proof.
  apply (fresh_db (fun _ => 0) no_lua no_lua t_col COL_TYPE_INT (fun _ => COL_TYPE_INT) t_args 16 (fun _ => 1) t_heap t_ids
    [{[48]}; {[32]}; {[64]}]).
  - by apply new_tree_holds.
  - done.
  - intros [|[|[|n1]]] [|[|[|n2]]] f1 f2 Hn E1 E2; try done; injection E1 as <-; injection E2 as <-; set_solver.
  - constructor; [|constructor; [|constructor; [|constructor]]]; (split; [|set_solver]).
    + apply (fresh_unique COL_TYPE_INT t_heap t_u (createUUBT 2 BT_SIMP_UNIQ)); [done|by apply new_tree_holds].
    + apply (fresh_plain COL_TYPE_INT t_heap t_a); [by eexists|by apply new_tree_holds].
    + apply (fresh_multi t_col COL_TYPE_INT (fun _ => COL_TYPE_INT) t_heap t_m 1 [2]); [done|by eexists|by apply new_tree_holds].
Qed.

(** The rows: small values, a nonzero unique one. *)
Record t_good (k a u : Z) : Prop := {
  tg_k : 0 < k < 2 ^ 31;
  tg_a : 0 <= a < 64;
  tg_u : 0 < u < 64;
  tg_ca : t_col 1 (tpk k) (t_row a u) = Some (initIntAobjFromVal a);
  tg_cu : t_col 2 (tpk k) (t_row a u) = Some (initIntAobjFromVal u);
}.

Lemma int_val_ok v : 0 <= v < 2 ^ 32 -> ao_ok (initIntAobjFromVal v).
Proof. intros Hv. unfold ao_ok. cbn. rewrite uwrap_small; lia. Qed.

Lemma t_keyed_u k a u v : t_good k a u -> t_keyed i_u k (t_row a u) v <-> v = Some [u].
Proof.
  intros [Hk Ha Hu _ Ec]. cbn. unfold keyed_uniq, keyed1. cbn [ri_icol t_u].
  assert (Ev : val_of COL_TYPE_INT (initIntAobjFromVal u) = u) by (apply uwrap_small; lia). split.
  - intros [(acol & E & Hv) _]. rewrite Ec in E. injection E as <-. cbn in Hv. destruct Hv as [_ ->].
    by rewrite <- Ev at 2.
  - intros ->. split.
    + exists (initIntAobjFromVal u). split; [exact Ec|]. cbn. split; [|by rewrite <- Ev at 1].
      apply int_val_ok. lia.
    + intros n [= <-] _. lia.
Qed.
Lemma t_keyed_a k a u v : t_good k a u -> t_keyed i_a k (t_row a u) v <-> v = Some [a].
Proof.
  intros [Hk Ha Hu Ec _]. cbn. unfold keyed1. cbn [ri_icol t_a].
  assert (Ev : val_of COL_TYPE_INT (initIntAobjFromVal a) = a) by (apply uwrap_small; lia). split.
  - intros (acol & E & Hv). rewrite Ec in E. injection E as <-. cbn in Hv. destruct Hv as [_ ->].
    by rewrite <- Ev at 2.
  - intros ->. exists (initIntAobjFromVal a). split; [exact Ec|]. cbn. split; [|by rewrite <- Ev at 1].
    apply int_val_ok. lia.
Qed.

Lemma t_keyed_m k a u v : t_good k a u -> t_keyed i_m k (t_row a u) v <-> v = Some [a; u].
Proof.
  intros G. assert (Hcol : forall c n, t_col c (tpk k) (t_row a u) = Some (initIntAobjFromVal n) -> 0 <= n < 2 ^ 31 ->
    colval t_col COL_TYPE_INT (fun _ => COL_TYPE_INT) k (t_row a u) c n).
  { intros c n E Hn. exists (initIntAobjFromVal n). split; [done|]. split; [done|]. split; [apply int_val_ok; lia|].
    apply uwrap_small. lia. }
  assert (Hv : t_keyed i_m k (t_row a u) (Some [a; u])).
  { destruct G as [Hk Ha Hu Ea Eu]. cbn. constructor; [apply Hcol; [exact Ea|lia]|].
    constructor; [apply Hcol; [exact Eu|lia]|constructor]. }
  split; [|by intros ->]. intros Hv'. by apply (keyedm_fun t_col COL_TYPE_INT (fun _ => COL_TYPE_INT) eq_refl t_m k (t_row a u)).
Qed.

Lemma t_stores k a u : t_good k a u -> stores t_args (tpk k) (t_row a u) (t_row a u).
Proof.
  intros [Hk Ha Hu _ _]. apply table_stores; try done; [apply (pk_obj_ok COL_TYPE_INT k eq_refl Hk)|].
  split; [reflexivity|]. repeat constructor; unfold is_byte; lia.
Qed.
Lemma t_three i : i ∈ t_ids -> i = i_u \/ i = i_a \/ i = i_m.
Proof. intros [->|[->|[->|[]%elem_of_nil]%elem_of_cons]%elem_of_cons]%elem_of_cons; auto. Qed.
Lemma t_row_made k a u : t_good k a u -> t_made k (t_row a u) (t_row a u).
Proof.
  intros G. split; [|by apply t_stores|done]. split; [apply G|apply (t_stores k a u G)|done|].
  intros i Hi. apply t_three in Hi as [->|[->| ->]]; eexists;
    [by apply t_keyed_u|by apply t_keyed_a|by apply t_keyed_m].
Qed.

(** Rows made of values. *)
Definition t_val : Type := Z * Z * Z.
Definition t_put (rows : gmap Z cptr) (x : t_val) : gmap Z cptr := <[x.1.1 := t_row x.1.2 x.2]> rows.
Definition t_rows (l : list t_val) : gmap Z cptr := foldl t_put ∅ l.

Lemma t_rows_in l k r : t_rows l !! k = Some r -> exists x, In x l /\ x.1.1 = k /\ r = t_row x.1.2 x.2.
Proof.
  unfold t_rows. induction l as [|x l IH] using rev_ind; [done|]. rewrite foldl_app. cbn. unfold t_put at 1.
  rewrite lookup_insert_Some. intros [[<- <-]|[_ Hr]].
  - exists x. rewrite in_app_iff. cbn. auto.
  - destruct (IH Hr) as (y & Hy & ? & ?). exists y. rewrite in_app_iff. auto.
Qed.

#[local] Abbreviation t_violates := (violates (fun _ => 0) no_lua no_lua t_col COL_TYPE_INT (fun _ => COL_TYPE_INT) t_ids).

Ltac t_good_tac := split; [lia..|vm_compute; reflexivity|vm_compute; reflexivity].

Lemma t_free l k a u : t_good k a u -> (forall x, In x l -> t_good x.1.1 x.1.2 x.2 /\ x.2 <> u) ->
  ~ t_violates (t_rows l) k (t_row a u).
Proof.
  intros G Hl (i & w & Hi & Hu & Hw & k' & r' & Hr' & Hw'). apply t_three in Hi as [->|[->| ->]]; [|done|done].
  apply t_rows_in in Hr' as (x & Hx & <- & ->). destruct (Hl x Hx) as [Gx Hne].
  apply (t_keyed_u _ _ _ _ Gx) in Hw'. apply (t_keyed_u _ _ _ _ G) in Hw. congruence.
Qed.

Definition t_ops : list dml :=
  [INSERT 1 (t_row 10 7); INSERT 2 (t_row 20 8); INSERT 2 (t_row 21 9); INSERT 3 (t_row 30 7);
   UPDATE [false; true; false] 2 (fun _ => Some (tpk 2, t_row 10 8));
   UPDATE [true; false; true] 2 (fun _ => Some (tpk 5, t_row 10 9));
   DELETE 1; DELETE 1].

Lemma t_history : t_run t_ids ∅ t_ops {[5 := t_row 10 9]}.
Proof.
  assert (G1 : t_good 1 10 7) by t_good_tac. assert (G2 : t_good 2 20 8) by t_good_tac.
  assert (G3 : t_good 3 30 7) by t_good_tac. assert (G4 : t_good 2 10 8) by t_good_tac.
  assert (G5 : t_good 5 10 9) by t_good_tac.
  assert (E1 : t_rows [(1, 10, 7); (2, 20, 8)] !! 1 = Some (t_row 10 7)) by done.
  unfold t_ops. change ∅ with (t_rows []).
  eapply Run_cons; [apply (St_insert _ _ _ _ _ _ _ _ _ _ 1); [by apply t_row_made|done|by apply t_free]|].
  change (<[1 := _]> _) with (t_rows [(1, 10, 7)]).
  eapply Run_cons; [apply (St_insert _ _ _ _ _ _ _ _ _ _ 2); [by apply t_row_made|done|]|].
  { apply t_free; [done|]. intros x [<-|[]]. done. }
  change (<[2 := _]> _) with (t_rows [(1, 10, 7); (2, 20, 8)]).
  eapply Run_cons; [by eapply St_exists|].
  eapply Run_cons; [eapply St_violates; [by apply t_row_made|done|]|].
  { exists i_u, [7]. split; [by left|]. split; [done|]. split; [by apply (t_keyed_u _ _ _ _ G3)|].
    exists 1, (t_row 10 7). split; [done|]. by apply (t_keyed_u _ _ _ _ G1). }
  eapply Run_cons; [eapply St_update; [done|done|done|by apply t_row_made|]|].
  { intros i Hi. apply t_three in Hi as [->|[->| ->]].
    - exists false, (Some [8]), (Some [8]). split; [done|].
      split; [by apply (t_keyed_u _ _ _ _ G2)|]. split; [by apply (t_keyed_u _ _ _ _ G4)|done].
    - exists true, (Some [20]), (Some [10]). split; [done|].
      split; [by apply (t_keyed_a _ _ _ _ G2)|]. by split; [apply (t_keyed_a _ _ _ _ G4)|].
    - exists true, (Some [20; 8]), (Some [10; 8]). split; [done|].
      split; [by apply (t_keyed_m _ _ _ _ G2)|]. by split; [apply (t_keyed_m _ _ _ _ G4)|]. }
  change (<[2 := _]> _) with (t_rows [(1, 10, 7); (2, 20, 8); (2, 10, 8)]).
  eapply Run_cons; [eapply (St_move _ _ _ _ _ _ _ _ _ _ _ _ _ _ 5); [done|done|done|by apply t_row_made|done|]|].
  { apply t_free; [done|]. by intros x [<-|[<-|[<-|[]]]]. }
  eapply Run_cons; [by eapply St_delete|].
  eapply Run_cons; [apply St_absent; [done|apply (t_stores 1 10 7 G1)|done]|].
  replace (delete 1 _) with ({[5 := t_row 10 9]} : gmap Z cptr) by (vm_compute; reflexivity). constructor.
Qed.

Lemma dml_history_witness : exists h' ainc',
  dml_execs (fun _ => 0) no_lua no_lua t_col COL_TYPE_INT (fun _ => COL_TYPE_INT) t_args 16 (fun _ => 1) t_ids
    (fun _ _ => None) t_heap 0 t_ops = Some (h', ainc') /\
  t_ok h' {[5 := t_row 10 9]} t_ids /\ counted ainc' {[5 := t_row 10 9]}.
Proof.
  apply (dml_history (fun _ => 0) no_lua no_lua t_col COL_TYPE_INT (fun _ => COL_TYPE_INT) eq_refl t_args t_lawful eq_refl
    16 (fun _ => 1) t_ids (fun _ _ => None) ∅ {[5 := t_row 10 9]} t_ops t_heap 0).
  - exact t_removable.
  - exact t_history.
  - exact t_fresh.
  - intros k r. by rewrite lookup_empty.
  - vm_compute. reflexivity.
  - vm_compute. reflexivity.
Defined.

(** Two rows, for the theorems about one statement. *)
Definition t_two : list t_val := [(1, 10, 7); (2, 20, 8)].
#[local] Abbreviation t_execs := (dml_execs (fun _ => 0) no_lua no_lua t_col COL_TYPE_INT (fun _ => COL_TYPE_INT) t_args 16 (fun _ => 1)).
Lemma t_fill a1 u1 a2 u2 n : t_good 1 a1 u1 -> t_good 2 a2 u2 -> u1 <> u2 ->
  (fun x => Z.of_nat (size x.1)) <$> t_execs t_ids (fun _ _ => None) t_heap 0 [INSERT 1 (t_row a1 u1); INSERT 2 (t_row a2 u2)] = Some n ->
  exists h, t_ok h (t_rows [(1, a1, u1); (2, a2, u2)]) t_ids /\ Z.of_nat (size h) = n.
Proof.
  intros G1 G2 Hu Hn.
  destruct (run_ok (fun _ => 0) no_lua no_lua t_col COL_TYPE_INT (fun _ => COL_TYPE_INT) t_args t_lawful eq_refl 16
    (fun _ => 1) t_ids (fun _ _ => None) ∅ [INSERT 1 (t_row a1 u1); INSERT 2 (t_row a2 u2)] (t_rows [(1, a1, u1); (2, a2, u2)])) with (h := t_heap) (ainc := 0)
    as (h & ai & E & Hok & _).
  - done.
  - exact t_removable.
  - change ∅ with (t_rows []).
    eapply Run_cons; [apply (St_insert _ _ _ _ _ _ _ _ _ _ 1); [by apply t_row_made|done|by apply t_free]|].
    change (<[1 := _]> _) with (t_rows [(1, a1, u1)]).
    eapply Run_cons; [apply (St_insert _ _ _ _ _ _ _ _ _ _ 2); [by apply t_row_made|done|]|].
    { apply t_free; [done|]. intros x [<-|[]]. done. }
    constructor.
  - exact t_fresh.
  - intros k r. by rewrite lookup_empty.
  - vm_compute. reflexivity.
  - vm_compute. reflexivity.
  - exists h. split; [done|]. rewrite E in Hn. by injection Hn.
Qed.
Lemma t_filled : exists h, t_ok h (t_rows t_two) t_ids /\ Z.of_nat (size h) = 10.
Proof. apply (t_fill 10 7 20 8); [t_good_tac..|done|vm_compute; reflexivity]. Qed.


#[local] Abbreviation t_update := (updateSingle (fun _ => 0) no_lua no_lua t_col COL_TYPE_INT (fun _ => COL_TYPE_INT) t_args 16 (fun _ => 1)).
#[local] Abbreviation t_drifted := (out_of_step (fun _ => 0) no_lua no_lua t_col COL_TYPE_INT (fun _ => COL_TYPE_INT) t_args 16).

(** UPDATE t SET a = 30, u = 7 WHERE id = 2 *)
Lemma unique_update_stored_witness : exists h h' sz,
  t_update h 2 [t_u; t_a; t_m] [false; true; true] (tpk 2) (fun _ => Some (tpk 2, t_row 30 7)) = Some (h', 2, sz) /\
  t_drifted h' (<[2 := t_row 30 7]> (t_rows t_two)) (t_rows t_two) t_ids.
Proof.
  destruct t_filled as (h & Hok & _). exists h.
  apply (unique_update_stored (fun _ => 0) no_lua no_lua t_col COL_TYPE_INT (fun _ => COL_TYPE_INT) eq_refl t_args t_lawful eq_refl
    16 (fun _ => 1) i_u [i_a; i_m] h 2 (t_rows t_two) [false; true; true] 2 (t_row 20 8) (t_row 30 7) (t_row 30 7)
    (fun _ => Some (tpk 2, t_row 30 7)) [true; true] [7] 1 (t_row 10 7)); try reflexivity.
  - exact Hok.
  - apply t_stores. t_good_tac.
  - apply (t_keyed_u 2 30 7); [t_good_tac|reflexivity].
  - apply (t_keyed_u 1 10 7); [t_good_tac|reflexivity].
Defined.

(** UPDATE t SET id = 5 WHERE id = 2 *)
Lemma pk_update_unindexed_witness : exists h h' sz,
  t_update h 2 [t_u; t_a; t_m] [true; false; false] (tpk 2) (fun r => Some (tpk 5, r)) = Some (h', 5, sz) /\
  t_drifted h' (<[5 := t_row 20 8]> (delete 2 (t_rows t_two))) (delete 2 (t_rows t_two)) t_ids.
Proof.
  destruct t_filled as (h & Hok & Hs). exists h.
  apply (pk_update_unindexed (fun _ => 0) no_lua no_lua t_col COL_TYPE_INT (fun _ => COL_TYPE_INT) eq_refl t_args t_lawful eq_refl
    16 (fun _ => 1) t_ids h 2 (t_rows t_two) [true; false; false] 2 (t_row 20 8) 5 (t_row 20 8) (t_row 20 8)
    (fun r => Some (tpk 5, r)) i_u [8]); try reflexivity.
  - exact t_removable.
  - exact Hok.
  - cbn. lia.
  - apply (rm_fit _ _ _ _ _ _ _ _ _ _ _ _ (t_row_made 5 20 8 ltac:(t_good_tac))).
  - apply t_stores. t_good_tac.
  - intros i _ v. reflexivity.
  - left.
  - apply (t_keyed_u 2 20 8); [t_good_tac|reflexivity].
  - apply (t_keyed_u 5 20 8); [t_good_tac|reflexivity].
Defined.
