(* ===== verification/Mci.v ===== *)
(** * Multi-column UNIQUE indexes

    What the undo of [_iAddMCI] does.  A level whose tree has one key is taken for
    one this insertion made, also when another row made it. *)

From stdpp Require Import gmap.
From S2P Require Import Prelude Stream CStr Row Aobj BtSearch DirtyStream Btree BtOps BtIter BtScan BtKey BtKeyLaws BtStream Abt GetCol Index IndexLaws Dml DmlLaws Database.

Section Mci.
Context `{MallocLaws} (floor_log2 : Z -> Z) (luatAdd luatDel : r_ind_t -> aobj -> cptr -> heap -> heap).
Context (getcol : Z -> aobj -> cptr -> option aobj) (pktyp : Z) (coltype : Z -> Z).
Context (Hpk : C_IS_NUM pktyp = true).

(** An index on two columns of numbers, UNIQUE together. *)
Record pair_index (ri : r_ind_t) (c1 c2 : Z) : Prop := {
  pi_cols : ri_bclist ri = [c1; c2];
  pi_uniq : UNIQ (ri_cnstr ri) = true;
  pi_num1 : C_IS_NUM (coltype c1) = true;
  pi_num2 : C_IS_NUM (coltype c2) = true;
}.

Context (ri : r_ind_t) (c1 c2 : Z) (Hri : pair_index ri c1 c2).
#[local] Abbreviation add h k r := (iAddMCI getcol pktyp coltype h ri (pk_obj pktyp k) r None).
#[local] Abbreviation root := (createIBT (coltype c1) (ri_num ri) BTREE_MCI).

(** The row [r] of [k] has the values [a1] and [a2] in the columns. *)
Record reads (k : Z) (r : cptr) (a1 a2 : aobj) : Prop := {
  rd_pk : pk_ok pktyp k;
  rd_1 : getcol c1 (pk_obj pktyp k) r = Some a1;
  rd_2 : getcol c2 (pk_obj pktyp k) r = Some a2;
  rd_ok1 : ao_ok a1 /\ ao_empty a1 = false;
  rd_ok2 : ao_ok a2 /\ ao_empty a2 = false;
  rd_uniq : uniq_ok pktyp (coltype c2) (val_of (coltype c2) a2);
}.

Lemma mci_root_lawful : lawful root.
Proof.
  pose proof (pi_num1 _ _ _ Hri) as Hn.
  pose proof (fun t Ht => created_lawful _ (created_mci t (ri_num ri) COL_TYPE_INT Ht)) as Hl.
  destruct (num_cases _ Hn) as [E|[E|E]]; rewrite E; [apply (Hl 1)|apply (Hl 2)|apply (Hl 5)]; done.
Qed.

Lemma mci_root_stores v q : ao_ok v -> 0 <= q < 2 ^ 64 -> stores root v (PNum q) (PNum q).
Proof. intros Hv Hq. apply index_stores; [apply (pi_num1 _ _ _ Hri)|right; by left|done|done]. Qed.

Lemma value_of im bt dt v : C_IS_NUM dt = true -> obj_value (a_spec (createIBT dt im bt)) v = val_of dt v.
Proof. by intros [->|[->| ->]]%num_cases. Qed.
Lemma uniq_value im bt dt a v : C_IS_NUM dt = true -> _createUIBT dt im pktyp bt = Some a ->
  obj_value (a_spec a) v = val_of dt v.
Proof.
  intros Hn. unfold _createUIBT. destruct (num_cases _ Hn) as [->|[->| ->]];
    destruct (num_cases _ Hpk) as [->|[->| ->]]; by intros [= <-].
Qed.
Lemma last_tree : exists a, createU_MCI_IBT (coltype c2) (ri_num ri) pktyp = Some a.
Proof.
  pose proof (pi_num2 _ _ _ Hri) as Hn. unfold createU_MCI_IBT, _createUIBT.
  destruct (num_cases _ Hn) as [->|[->| ->]]; by eexists.
Qed.
Lemma last_tree_made ua : createU_MCI_IBT (coltype c2) (ri_num ri) pktyp = Some ua -> mci_tree pktyp coltype ri 0 None = Some ua.
Proof.
  intros E. pose proof (pi_num2 _ _ _ Hri) as Hn. unfold mci_tree, mci_final, mci_trgr, nclist.
  rewrite (pi_cols _ _ _ Hri), (pi_uniq _ _ _ Hri). cbn [length].
  change (0 =? Z.of_nat 2 - 1) with false. change (0 =? Z.of_nat 2 - 2) with true. change (Z.to_nat (0 + 1)) with 1%nat.
  change ([c1; c2] !! 1%nat) with (Some c2). cbn [mbind option_bind].
  destruct (num_cases _ Hn) as [En|[En|En]]; rewrite En in *; exact E.
Qed.

(** One entry: the tree of the first column leads to the tree of the second, which
    leads to the key. *)
Record one_entry (h : heap) (v1 v2 k : Z) : Prop := {
  oe_entry : exists ua p x, createU_MCI_IBT (coltype c2) (ri_num ri) pktyp = Some ua /\ 0 < p < 2 ^ 64 /\
    p <> ri_btr ri /\ h_holds h (ri_btr ri) root {[v1 := PNum p]} /\ h_holds h p ua {[v2 := x]} /\
    is_null x = false /\ uniq_pk (a_spec ua) x = k;
}.

(** What a row has in common with the entry: the first column. *)
Record meets (k : Z) (r : cptr) (a1 a2 : aobj) (v1 : Z) : Prop := {
  mt_1 : getcol c1 (pk_obj pktyp k) r = Some a1;
  mt_2 : getcol c2 (pk_obj pktyp k) r = Some a2;
  mt_ok : ao_ok a1 /\ ao_empty a1 = false;
  mt_val : val_of (coltype c1) a1 = v1;
}.

Lemma walk_found h v1 v2 k0 k r a1 a2 : one_entry h v1 v2 k0 -> meets k r a1 a2 v1 ->
  exists ua p x, createU_MCI_IBT (coltype c2) (ri_num ri) pktyp = Some ua /\ p <> ri_btr ri /\
    h_holds h (ri_btr ri) root {[v1 := PNum p]} /\ h_holds h p ua {[v2 := x]} /\ is_null x = false /\
    mci_walk getcol pktyp coltype h ri (pk_obj pktyp k) r None 0 (mci_cols ri) (ri_btr ri) [] =
      Some (h, false, p, [Dp (ri_btr ri) a1 p]).
Proof.
  intros [(ua & p & x & Eu & Hp & Hpr & Hr & Hu & Hx & _)] [R1 _ [Ro1 Re1] Hv].
  exists ua, p, x. split_and!; [done..|]. destruct (addr_ptr p Hp) as [Hn Hnum].
  unfold mci_cols, mci_depth, nclist. rewrite (pi_cols _ _ _ Hri), (pi_uniq _ _ _ Hri). cbn [length Nat.sub take mci_walk].
  rewrite R1. cbn [mbind option_bind]. rewrite Re1. pose proof (proj1 (mci_root_stores a1 1 Ro1 ltac:(lia))) as Hsr.
  rewrite (h_find_ok root mci_root_lawful h _ _ a1 Hr Hsr), value_of, Hv by apply Hri. rewrite lookup_singleton_eq.
  cbn [default mbind option_bind]. change (id (PNum p)) with (PNum p). rewrite Hn. by rewrite Hnum.
Qed.

(** The undo takes the tree of one key for its own. *)
Lemma undo_forgets h v1 v2 k0 k r a1 a2 : one_entry h v1 v2 k0 -> meets k r a1 a2 v1 ->
  exists h', (forall ret, mci_err getcol pktyp coltype h ri (pk_obj pktyp k) r None ret 1 = Some (h', ret)) /\
    h_holds h' (ri_btr ri) root ∅ /\ (size h' <= size h)%nat.
Proof.
  intros Ho Mt. destruct (walk_found h v1 v2 k0 k r a1 a2 Ho Mt) as (ua & p & x & _ & Hpr & Hr & _ & _ & Ew).
  destruct Mt as [_ _ [Ro1 _] Hv]. pose proof (proj1 (mci_root_stores a1 1 Ro1 ltac:(lia))) as Hsr.
  destruct (h_ind_delete_ok root mci_root_lawful h (ri_btr ri) {[v1 := PNum p]} a1
    (index_kept _ _ _ (pi_num1 _ _ _ Hri)) Hr Hsr) as (h1 & n & E1 & Hset & _).
  { rewrite value_of, Hv, lookup_singleton_eq by apply Hri. done. }
  rewrite value_of, Hv, delete_singleton_eq in Hset by apply Hri.
  exists (bt_destroy h1 p). split; [intros ret|split].
  - unfold mci_err. cbn [Nat.eqb]. rewrite Ew. cbn [mbind option_bind length Nat.eqb mci_undo dp_ibtr dp_acol dp_nbtr].
    rewrite (h_numkeys_ok root mci_root_lawful h _ _ Hr), map_size_singleton. cbn [mbind option_bind].
    change (u32 (Z.of_nat 1) =? 1) with true. cbv iota. by rewrite E1.
  - apply (h_holds_other h1); [by apply (h_set_holds h)|]. unfold bt_destroy. by rewrite lookup_delete_ne.
  - unfold bt_destroy. rewrite map_size_delete, (h_set_size _ _ _ _ _ _ Hr Hset). destruct (h1 !! p); unfold id; lia.
Qed.

Lemma last_searchable ua k r a1 a2 : createU_MCI_IBT (coltype c2) (ri_num ri) pktyp = Some ua -> reads k r a1 a2 ->
  exists val x, uniq_val ua pktyp (pk_obj pktyp k) = Some val /\ stores ua a2 val x /\ is_null x = false /\
    uniq_pk (a_spec ua) x = k.
Proof.
  intros Eu [Rp _ _ _ [Ro2 _] Ru]. by apply (uniq_stores pktyp Hpk (coltype c2) (ri_num ri) BT_MCI_UNIQ); try apply Hri.
Qed.

Lemma reads_meets k r a1 a2 : reads k r a1 a2 -> meets k r a1 a2 (val_of (coltype c1) a1).
Proof. by intros [_ ? ? ? _ _]. Qed.

(** A row that duplicates the one entry is refused, and the entry is gone. *)
Lemma refuse_forgets h v1 v2 k0 k r a1 a2 : one_entry h v1 v2 k0 -> reads k r a1 a2 -> val_of (coltype c1) a1 = v1 ->
  val_of (coltype c2) a2 = v2 ->
  exists h', add h k r = Some (h', false) /\ h_holds h' (ri_btr ri) root ∅ /\ (size h' <= size h)%nat.
Proof.
  intros Ho Rd <- <-. pose proof (reads_meets _ _ _ _ Rd) as Mt.
  destruct (walk_found h _ _ k0 k r a1 a2 Ho Mt) as (ua & p & x & Eu & Hpr & Hr & Hu & Hx & Ew).
  destruct (undo_forgets h _ _ k0 k r a1 a2 Ho Mt) as (h' & Eerr & Hr' & Hs'). exists h'. split; [|done].
  pose proof (last_searchable ua k r a1 a2 Eu Rd) as (val & y & _ & [Hs _] & _). destruct Rd as [_ R1 R2 [Ro1 _] [_ Re2] _].
  assert (Hl : lawful ua) by (apply created_lawful; by apply (created_uniq_mci (coltype c2) (ri_num ri) pktyp)).
  unfold iAddMCI. rewrite Ew. cbn [mbind option_bind]. rewrite (pi_uniq _ _ _ Hri).
  unfold mci_last. rewrite (pi_cols _ _ _ Hri). cbn [last mbind option_bind]. rewrite R2. cbn [mbind option_bind].
  rewrite Re2. rewrite (h_find_ok ua Hl h p _ a2 Hu Hs), (uniq_value _ _ _ _ _ (pi_num2 _ _ _ Hri) Eu), lookup_singleton_eq.
  cbn [default mbind option_bind]. change (id x) with x. rewrite Hx. cbn [negb]. apply Eerr.
Qed.

(** So is it for a row that the index leaves out, its last column being empty. *)
Lemma skip_forgets h v1 v2 k0 k r a1 a2 : one_entry h v1 v2 k0 -> meets k r a1 a2 v1 -> ao_empty a2 = true ->
  exists h', add h k r = Some (h', true) /\ h_holds h' (ri_btr ri) root ∅ /\ (size h' <= size h)%nat.
Proof.
  intros Ho Mt He. destruct (walk_found h _ _ k0 k r a1 a2 Ho Mt) as (ua & p & x & Eu & Hpr & Hr & Hu & Hx & Ew).
  destruct (undo_forgets h _ _ k0 k r a1 a2 Ho Mt) as (h' & Eerr & Hr' & Hs'). exists h'. split; [|done].
  unfold iAddMCI. rewrite Ew. cbn [mbind option_bind]. rewrite (pi_uniq _ _ _ Hri).
  unfold mci_last. rewrite (pi_cols _ _ _ Hri). cbn [last mbind option_bind]. rewrite (mt_2 _ _ _ _ _ Mt).
  cbn [mbind option_bind]. rewrite He. apply Eerr.
Qed.

(** A row enters the empty index. *)
Lemma enter_empty h k r a1 a2 : h_holds h (ri_btr ri) root ∅ -> reads k r a1 a2 -> Z.of_nat (size h) < 2 ^ 32 ->
  exists h', add h k r = Some (h', true) /\ one_entry h' (val_of (coltype c1) a1) (val_of (coltype c2) a2) k /\
    (size h' <= S (size h))%nat.
Proof.
  intros Hr Rd Hsz. destruct last_tree as [ua Eu]. pose proof Rd as [_ R1 R2 [Ro1 Re1] [_ Re2] _].
  destruct (last_searchable ua k r a1 a2 Eu Rd) as (val & x & Ev & Hst & Hx & Hk).
  assert (Hl : lawful ua) by (apply created_lawful; by apply (created_uniq_mci (coltype c2) (ri_num ri) pktyp)).
  pose proof (fun q => mci_root_stores a1 q Ro1) as Hsr.
  destruct (h_new_ok h ua Hsz) as (h1 & p & En & Hfree & Hp & Hset1 & Hs1).
  destruct Hr as (x0 & Ex0 & Hx0). assert (Hr : h_holds h (ri_btr ri) root ∅) by (by exists x0).
  assert (Hpr : p <> ri_btr ri) by congruence.
  assert (Hr1 : h_holds h1 (ri_btr ri) root ∅).
  { apply (h_holds_other h); [done|]. apply (h_set_other _ _ _ _ _ _ Hset1). by apply not_eq_sym. }
  destruct (h_ind_add_ok root mci_root_lawful h1 (ri_btr ri) ∅ a1 p (PNum p) Hr1 (Hsr p ltac:(lia))) as (h2 & E2 & Hset2);
    [apply lookup_empty|]. rewrite value_of in Hset2 by apply Hri.
  assert (Hu2 : h_holds h2 p ua ∅).
  { apply (h_holds_other h1); [by apply (h_set_holds h)|]. by apply (h_set_other _ _ _ _ _ _ Hset2). }
  destruct (h_add_uniq_ok ua Hl h2 p ∅ pktyp _ a2 val x Hu2 Ev Hst (lookup_empty _)) as (h3 & E3 & Hset3).
  rewrite (uniq_value _ _ _ _ _ (pi_num2 _ _ _ Hri) Eu) in Hset3. exists h3. split; [|split; [split|]].
  - unfold iAddMCI, mci_cols, mci_depth, nclist, mci_last. rewrite (pi_cols _ _ _ Hri), (pi_uniq _ _ _ Hri).
    cbn [length Nat.sub take mci_walk last]. rewrite R1. cbn [mbind option_bind]. rewrite Re1.
    rewrite (h_find_ok root mci_root_lawful h _ _ a1 Hr (proj1 (Hsr 1 ltac:(lia)))), lookup_empty.
    cbn [default mbind option_bind]. change (is_null NULL) with true. cbv iota.
    rewrite (last_tree_made ua Eu). cbn [mbind option_bind]. rewrite En, E2. cbn [mbind option_bind].
    rewrite R2. cbn [mbind option_bind]. rewrite Re2, (h_find_ok ua Hl h2 p _ a2 Hu2 (proj1 Hst)), lookup_empty.
    cbn [default mbind option_bind]. change (negb (is_null NULL)) with false. cbv iota. by rewrite E3.
  - exists ua, p, x. split_and!; try done; [lia|lia| |].
    + apply (h_holds_other h2); [by apply (h_set_holds h1)|]. apply (h_set_other _ _ _ _ _ _ Hset3). by apply not_eq_sym.
    + by apply (h_set_holds h2).
  - rewrite (h_set_size _ _ _ _ _ _ Hu2 Hset3), (h_set_size _ _ _ _ _ _ Hr1 Hset2). lia.
Qed.

(** A UNIQUE index on two columns forgets its only entry when another row with
    the same first column comes: a row with the same values is refused, as it should
    be, and a row with an empty second column is left out, but either way the entry
    is gone, and the refused row can be inserted by asking again. *)
Theorem mci_undo_forgets h k1 k2 k3 r1 r2 r3 a1 a2 a3 : h_holds h (ri_btr ri) root ∅ -> Z.of_nat (size h) + 1 < 2 ^ 32 ->
  reads k1 r1 a1 a2 -> reads k2 r2 a1 a2 -> meets k3 r3 a1 a3 (val_of (coltype c1) a1) -> ao_empty a3 = true ->
  exists h1 h2 h3 h4, add h k1 r1 = Some (h1, true) /\ add h1 k2 r2 = Some (h2, false) /\
    h_holds h2 (ri_btr ri) root ∅ /\ add h2 k2 r2 = Some (h3, true) /\
    one_entry h3 (val_of (coltype c1) a1) (val_of (coltype c2) a2) k2 /\
    add h1 k3 r3 = Some (h4, true) /\ h_holds h4 (ri_btr ri) root ∅.
Proof.
  intros Hr Hs R1 R2 R3 He. destruct (enter_empty h k1 r1 a1 a2 Hr R1) as (h1 & E1 & O1 & S1); [lia|].
  destruct (refuse_forgets h1 _ _ k1 k2 r2 a1 a2 O1 R2 eq_refl eq_refl) as (h2 & E2 & Hr2 & S2).
  destruct (enter_empty h2 k2 r2 a1 a2 Hr2 R2) as (h3 & E3 & O3 & _); [lia|].
  destruct (skip_forgets h1 _ _ k1 k3 r3 a1 a3 O1 R3 He) as (h4 & E4 & Hr4 & _).
  exists h1, h2, h3, h4. by split_and!.
Qed.
End Mci.

(** Rows (a, u) of the sample table, under a UNIQUE index on both columns. *)
Definition t_au : r_ind_t := RInd 3 false 64 (-1) [1; 2] CONSTRAINT_UNIQUE false false false (-1) COL_TYPE_INT false.
Definition t_short (a : Z) : cptr := PMem [1; 3; 1; 2 * a + 1].

Lemma mci_undo_forgets_witness :
  let add h k r := iAddMCI t_col COL_TYPE_INT (fun _ => COL_TYPE_INT) h t_au (pk_obj COL_TYPE_INT k) r None in
  exists h1 h2 h3 h4 : heap, add {[64 := new_tree (createIBT COL_TYPE_INT 3 BTREE_MCI)]} 1 (t_row 10 7) = Some (h1, true) /\
    add h1 2 (t_row 10 7) = Some (h2, false) /\ add h2 2 (t_row 10 7) = Some (h3, true) /\
    add h1 3 (t_short 10) = Some (h4, true).
Proof.
  intros add.
  destruct (mci_undo_forgets t_col COL_TYPE_INT (fun _ => COL_TYPE_INT) eq_refl t_au 1 2 ltac:(by split)
    {[64 := new_tree (createIBT COL_TYPE_INT 3 BTREE_MCI)]} 1 2 3 (t_row 10 7) (t_row 10 7) (t_short 10)
    (initIntAobjFromVal 10) (initIntAobjFromVal 7) initAobj)
    as (h1 & h2 & h3 & h4 & E1 & E2 & _ & E3 & _ & E4 & _).
  - by apply new_tree_holds.
  - vm_compute. reflexivity.
  - split; try (vm_compute; reflexivity); try (split; [by apply int_val_ok|reflexivity]); [by unfold pk_ok|]. intros _. vm_compute. done.
  - split; try (vm_compute; reflexivity); try (split; [by apply int_val_ok|reflexivity]); [by unfold pk_ok|]. intros _. vm_compute. done.
  - split; try (vm_compute; reflexivity). split; [by apply int_val_ok|reflexivity].
  - reflexivity.
  - exists h1, h2, h3, h4. split; [exact E1|]. split; [exact E2|]. split; [exact E3|exact E4].
Defined.
