(* ===== verification/IndexBuild.v ===== *)
(** * CREATE INDEX and DROP INDEX ([DB/index.c])

    An index created on a table with rows is filled by a scan of the table
    ([buildIndex]), at once or in steps ([LIMIT], an index cursor); a dropped index
    destroys its trees. *)

From stdpp Require Import gmap.
From S2P Require Import Prelude Stream CStr Row Aobj BtSearch DirtyStream Btree BtOps BtIter BtScan BtLoop BtKey BtKeyLaws BtStream Abt GetCol Index IndexLaws MciLaws Dml DmlLaws Range RangeLaws Database.

(** [ri->ofst] and [ri->done]. *)
Record cursor_t := Cursor { ci_ofst : Z; ci_done : bool }.

Definition set_btr (ri : r_ind_t) (p : Z) : r_ind_t :=
  RInd (ri_num ri) (ri_virt ri) p (ri_icol ri) (ri_bclist ri) (ri_cnstr ri) (ri_lru ri) (ri_lfu ri) (ri_hlt ri) (ri_obc ri) (ri_dtype ri) (ri_fname ri).

(** [bt_destroy] of a tree that is there: destroying one twice is an error. *)
Definition bt_free (h : heap) (p : Z) : option heap := _ ← h !! p; Some (bt_destroy h p).

Section Build.
Context `{Malloc} (floor_log2 : Z -> Z) (luatAdd luatDel : r_ind_t -> aobj -> cptr -> heap -> heap).
Context (getcol : Z -> aobj -> cptr -> option aobj) (pktyp : Z) (coltype : Z -> Z) (byte_at : Z -> Z).
#[local] Existing Instance abt_order.
#[local] Existing Instance abt_ops.
#[local] Instance build_stream (a : bt_args) : KeyStream (key_t (a_spec a)) := key_stream byte_at (a_spec a).

(** ** Filling an index *)

Definition iAddStream (h : heap) (s : bts_t) (stream : cptr) (ri : r_ind_t) : option (heap * bool) :=
  let apk := convertStream2Key s stream in
  rrow ← parseStream s stream;
  addToIndex floor_log2 luatAdd getcol pktyp coltype h ri apk rrow.

(** The body of the loop: the store and [card], -1 after a row that violates the
    constraint. *)
Definition build_body (s : bts_t) (ri : r_ind_t) (x : heap * Z) (k : key_t s) (_ : bool) : option (heap * Z * bool) :=
  '(h, ok) ← iAddStream x.1 s (ptr k) ri;
  Some (if (ok : bool) then (h, x.2 + 1, false) else (h, -1, true)).

(** The store, the cursor, the number of rows or -1, and the iterators in use;
    an error leaves without giving back the iterator. *)
Definition buildIndex (h : heap) (tb : Z) (ri : r_ind_t) (cur : cursor_t) (which limit : Z)
    : option (heap * cursor_t * Z * Z) :=
  t ← h !! tb;
  let a := h_args t in let x := h_tree t in
  let prtl := negb (limit =? -1) in
  let final := ci_ofst cur + limit in
  '(used, bi) ← (if prtl then btGetXthIter (nb a x) which (tree a x) (pk_obj pktyp 0) (pk_obj pktyp final) (ci_ofst cur) true
                 else btGetFullRangeIter (nb a x) which (tree a x) true);
  '(h, card) ← (match bi with
                | Some s =>
                    if empty s then Some (h, 0)
                    else '(r, _) ← iter_while (S (S (length (inorder (root (tree a x)))))) (bdirty (tree a x)) s true
                           (build_body (a_spec a) ri) (h, 0); Some r
                | None => Some (h, 0)
                end);
  if card =? -1 then Some (h, cur, -1, used)
  else
    let cur := if prtl then if numkeys (tree a x) <=? final then Cursor (-1) true else Cursor final (ci_done cur) else cur in
    Some (h, cur, card, btReleaseRangeIterator used bi).

Definition buildNewIndex (h : heap) (tb : Z) (ri : r_ind_t) (cur : cursor_t) (which limit : Z)
    : option (heap * cursor_t * Z * Z) :=
  n ← h_numkeys h tb;
  if n =? 0 then Some (h, cur, 0, which) else buildIndex h tb ri cur which limit.

(** ** Destroying an index *)

(** The trees the entries of a node lead to. *)
Fixpoint destroy_entries (s : bts_t) (free : heap -> cptr -> option heap) (h : heap) (ks : list (key_t s)) : option heap :=
  match ks with
  | [] => Some h
  | k :: ks => nbtr ← parseStream s (ptr k); h ← free h nbtr; destroy_entries s free h ks
  end.

(** The recursion over the nodes of a tree: the entries, the children, and what is
    done at the end of each node. *)
Fixpoint destroy_nodes (s : bts_t) (free : heap -> cptr -> option heap) (last : heap -> option heap) (h : heap)
    (n : bt_n (key_t s)) : option heap :=
  let 'Node lf _ _ ks ns := n in
  h ← destroy_entries s free h ks;
  h ← (if lf then Some h
       else (fix children (h : heap) (ns : list (bt_n (key_t s))) : option heap :=
               match ns with
               | [] => Some h
               | n :: ns => h ← destroy_nodes s free last h n; children h ns
               end) h ns);
  last h.

(** [lvl] counts down from the levels below the first; the trees of the last level
    are left. *)
Fixpoint destroy_mci (deep : nat) (trgr : Z) (lvl : Z) (h : heap) (ibtr : Z) : option heap :=
  match deep with
  | O => Some h
  | S deep =>
      t ← h !! ibtr;
      let a := h_args t in
      destroy_nodes (a_spec a)
        (fun h nbtr => if lvl =? trgr then bt_free h (num nbtr) else destroy_mci deep trgr (lvl + 1) h (num nbtr))
        (fun h => bt_free h ibtr) h (root (tree a (h_tree t)))
  end.

Definition destroy_index (h : heap) (ri : r_ind_t) : option heap :=
  if ri_clist ri then destroy_mci (nclist ri - 1) (mci_trgr ri) 0 h (ri_btr ri)
  else if UNIQ (ri_cnstr ri) then bt_free h (ri_btr ri)
  else
    t ← h !! ri_btr ri;
    let a := h_args t in
    destroy_nodes (a_spec a) (fun h nbtr => if is_null nbtr then Some h else bt_free h (num nbtr)) Some h (root (tree a (h_tree t))).

(** A NULL [ri->btr] is 0. *)
Definition emptyIndex (h : heap) (ri : r_ind_t) : option heap :=
  if negb (ri_icol ri =? -1) && negb (ri_btr ri =? 0) && negb (ri_hlt ri) then destroy_index h ri else Some h.

(** ** CREATE INDEX *)

Definition index_tree (ri : r_ind_t) : option bt_args :=
  match ri_bclist ri with
  | c :: _ => Some (createMCI_IBT (coltype c) (ri_num ri) (ri_dtype ri))
  | [] => if UNIQ (ri_cnstr ri) then createU_S_IBT (ri_dtype ri) (ri_num ri) pktyp
          else Some (createIndexBT (ri_dtype ri) (ri_num ri))
  end.

(** The index with its tree, or [None] inside when a row violates its constraint.
    A virtual index and a Lua trigger have no tree; LRU, LFU, cursor and function
    indexes are not filled. *)
Definition newIndex (h : heap) (tb : Z) (ri : r_ind_t) (prtl : bool) (which : Z)
    : option (heap * option (r_ind_t * cursor_t) * Z) :=
  let cur := if prtl then Cursor 1 false else Cursor (-1) true in
  if ri_virt ri || ri_hlt ri then Some (h, Some (set_btr ri 0, cur), which)
  else
    a ← index_tree ri;
    let '(h, p) := h_new h a in
    let ri := set_btr ri p in
    if ri_lru ri || ri_lfu ri || prtl || ri_fname ri then Some (h, Some (ri, cur), which)
    else
      '(h, cur, card, which) ← buildNewIndex h tb ri cur which (-1);
      if card =? -1 then h ← emptyIndex h ri; Some (h, None, which) else Some (h, Some (ri, cur), which).
End Build.

(** ** What destroying frees *)

(** The keys of a tree in the order they are destroyed. *)
Fixpoint preorder {K} (n : bt_n K) : list K :=
  let 'Node _ _ _ ks ns := n in ks ++ concat (map preorder ns).

Section Destroy.
Context {K : Type} (t : nat).
Lemma preorder_perm h : forall lo (n : bt_n K), wf t lo h n -> preorder n ≡ₚ inorder n.
Proof.
  induction h as [|h IH]; intros lo [l s d ks ns] Hw; apply wf_unfold in Hw as (_ & _ & _ & Hw); cbn [nodes leaf n_keys keys] in Hw.
  - destruct Hw as [_ ->]. cbn. by rewrite app_nil_r.
  - destruct Hw as (_ & Hl & Hf). rewrite inorder_Node, flat_perm by (left; by rewrite length_map). cbn [preorder]. apply Permutation_app_head.
    clear Hl. induction Hf as [|n ns Hn _ IHf]; [done|]. cbn. by rewrite (IH _ _ Hn), IHf.
Qed.
End Destroy.

Section Free.
Context (s : bts_t) (free : heap -> cptr -> option heap).
Lemma destroy_entries_app l1 l2 h :
  destroy_entries s free h (l1 ++ l2) = h ← destroy_entries s free h l1; destroy_entries s free h l2.
Proof.
  revert h. induction l1 as [|k l1 IH]; intros h; [done|]. cbn [app destroy_entries]. destruct (parseStream s (ptr k)) as [r|]; [|done].
  cbn [mbind option_bind]. destruct (free h r); [|done]. apply IH.
Qed.
Lemma destroy_nodes_ok t hh : forall lo (n : bt_n (key_t s)) h, wf t lo hh n ->
  destroy_nodes s free Some h n = destroy_entries s free h (preorder n).
Proof.
  induction hh as [|hh IH]; intros lo [l sc d ks ns] h Hw; apply wf_unfold in Hw as (_ & _ & _ & Hw); cbn [nodes leaf n_keys keys] in Hw.
  - destruct Hw as [-> ->]. cbn [destroy_nodes preorder map concat]. rewrite app_nil_r. by destruct (destroy_entries _ _ _ _).
  - destruct Hw as (-> & _ & Hf). cbn [destroy_nodes preorder]. rewrite destroy_entries_app.
    destruct (destroy_entries s free h ks) as [h1|]; [|done]. cbn [mbind option_bind]. clear h. revert h1.
    induction Hf as [|n ns Hn _ IHf]; intros h1; [done|]. cbn [map concat]. rewrite destroy_entries_app, (IH _ _ _ Hn).
    destruct (destroy_entries s free h1 (preorder n)) as [h2|]; [|done]. cbn [mbind option_bind]. apply IHf.
Qed.
End Free.

(** Destroying makes no tree. *)
Definition shrinks (f : heap -> option heap) : Prop := forall h h' p, f h = Some h' -> h !! p = None -> h' !! p = None.

Lemma free_shrinks p : shrinks (fun h => bt_free h p).
Proof. intros h h' q. unfold bt_free, bt_destroy. intros (x & Ex & [= <-])%bind_Some Hq. apply lookup_delete_None. by right. Qed.
Lemma entries_shrinks s free (ks : list (key_t s)) : (forall p, shrinks (fun h => free h p)) -> shrinks (fun h => destroy_entries s free h ks).
Proof.
  intros Hf. induction ks as [|k ks IH]; intros h h' q; cbn [destroy_entries]; [by intros [= <-]|].
  intros (r & _ & (h1 & E1 & E2)%bind_Some)%bind_Some Hq. apply (IH h1 h' q E2). by apply (Hf r h h1 q).
Qed.
Lemma nodes_end s free last (n : bt_n (key_t s)) : (forall p, shrinks (fun h => free h p)) -> shrinks last ->
  forall h h', destroy_nodes s free last h n = Some h' ->
  exists h0, last h0 = Some h' /\ forall q, h !! q = None -> h0 !! q = None.
Proof.
  intros Hf Hl. revert n. fix IH 1. intros [lf sc d ks ns] h h'. cbn [destroy_nodes].
  intros (h1 & E1 & (h2 & E2 & E3)%bind_Some)%bind_Some. exists h2. split; [done|]. intros q Hq.
  assert (Hq1 : h1 !! q = None) by (by apply (entries_shrinks s free ks Hf h h1 q)). clear E1 Hq E3. destruct lf; [by injection E2 as <-|].
  revert h1 h2 E2 Hq1. induction ns as [|n ns IHn]; intros h1 h2 E2 Hq1; [by injection E2 as <-|].
  apply bind_Some in E2 as (h3 & E3' & E2). apply (IHn h3 h2 E2). destruct (IH n h1 h3 E3') as (h0 & E0 & H0).
  apply (Hl h0 h3 q E0). by apply H0.
Qed.
Lemma nodes_shrinks s free last (n : bt_n (key_t s)) : (forall p, shrinks (fun h => free h p)) -> shrinks last ->
  shrinks (fun h => destroy_nodes s free last h n).
Proof. intros Hf Hl h h' q E Hq. destruct (nodes_end s free last n Hf Hl h h' E) as (h0 & E0 & H0). apply (Hl h0 h' q E0). by apply H0. Qed.
Lemma mci_shrinks deep trgr : forall lvl p, shrinks (fun h => destroy_mci deep trgr lvl h p).
Proof.
  induction deep as [|deep IH]; intros lvl p h h' q; cbn [destroy_mci]; [by intros [= <-]|].
  intros (t & _ & E)%bind_Some. revert E. apply nodes_shrinks.
  - intros r. destruct (lvl =? trgr); [apply free_shrinks|apply IH].
  - apply free_shrinks.
Qed.

(** A node with two children or more ends twice. *)
Lemma nodes_twice s free p (n : bt_n (key_t s)) h : (forall p, shrinks (fun h => free h p)) -> leaf n = false -> (2 <= length (nodes n))%nat ->
  destroy_nodes s free (fun h => bt_free h p) h n = None.
Proof.
  intros Hf. destruct n as [lf sc d ks [|n1 [|n2 ns]]]; cbn [leaf nodes length]; intros -> Hl; [lia|lia|]. cbn [destroy_nodes].
  destruct (destroy_entries s free h ks) as [h1|]; [|done]. cbn [mbind option_bind].
  assert (Hend : forall n h h', destroy_nodes s free (fun h => bt_free h p) h n = Some h' -> is_Some (h !! p) /\ h' !! p = None).
  { intros n h0 h' E. destruct (nodes_end s free _ n Hf (free_shrinks p) h0 h' E) as (h2 & E2 & H2). unfold bt_free in E2.
    apply bind_Some in E2 as (x & Ex & [= <-]). split; [|apply lookup_delete_eq]. destruct (h0 !! p) eqn:E0; [by eexists|]. by rewrite (H2 p E0) in Ex. }
  destruct (destroy_nodes s free _ h1 n1) as [h2|] eqn:E1; [|done]. cbn [mbind option_bind]. apply Hend in E1 as [_ E1].
  destruct (destroy_nodes s free _ h2 n2) as [h3|] eqn:E2; [|done]. apply Hend in E2 as [[x Ex] _]. congruence.
Qed.

(** Trees at different addresses are freed, the rest stays. *)
Lemma free_entries s (free : heap -> cptr -> option heap) ks ps :
  Forall (fun p => forall h, free h (PNum p) = bt_free h p) ps -> Forall2 (fun (k : key_t s) p => parseStream s (ptr k) = Some (PNum p)) ks ps ->
  NoDup ps -> forall h, (forall p, p ∈ ps -> is_Some (h !! p)) ->
  exists h', destroy_entries s free h ks = Some h' /\ forall q, h' !! q = if decide (q ∈ ps) then None else h !! q.
Proof.
  intros Hfree HF. induction HF as [|k p ks ps Hp _ IH]; intros Hnd h Hin.
  { exists h. split; [done|]. intros q. by rewrite decide_False by apply not_elem_of_nil. }
  apply NoDup_cons in Hnd as [Hni Hnd]. apply Forall_cons in Hfree as [Hfp Hfree]. cbn [destroy_entries]. rewrite Hp. cbn [mbind option_bind]. rewrite Hfp. unfold bt_free.
  destruct (Hin p) as [x Ex]; [by left|]. rewrite Ex. cbn [mbind option_bind]. destruct (IH Hfree Hnd (bt_destroy h p)) as (h' & E & Hh').
  - intros q Hq. unfold bt_destroy. rewrite lookup_delete_ne by (by intros ->). apply Hin. by right.
  - exists h'. split; [done|]. intros q. rewrite Hh'. unfold bt_destroy. destruct (decide (q = p)) as [->|Hn].
    + rewrite lookup_delete_eq, (decide_True (P := p ∈ p :: ps)) by (by left). by destruct (decide _).
    + rewrite lookup_delete_ne by done. destruct (decide (q ∈ ps)) as [Hq|Hq].
      * by rewrite decide_True by (by right).
      * rewrite decide_False; [done|]. by intros [->|?]%elem_of_cons.
Qed.

(** DROP INDEX of an index on several columns frees its first tree once for
    each node of it: when the tree has more than one node it is freed twice. *)
Theorem drop_mci_double_free (h : heap) (ri : r_ind_t) (t : htree) : (2 <= nclist ri)%nat -> ri_icol ri <> -1 -> ri_btr ri <> 0 ->
  ri_hlt ri = false -> h !! ri_btr ri = Some t -> let n := root (tree (h_args t) (h_tree t)) in
  leaf n = false -> (2 <= length (nodes n))%nat -> emptyIndex h ri = None.
Proof.
  intros Hn Hc Hb Hl Et n Hlf Hns. unfold emptyIndex. rewrite !(proj2 (Z.eqb_neq _ _)), Hl by done. cbn [negb andb].
  unfold destroy_index. assert (ri_clist ri = true) as ->.
  { unfold ri_clist, nclist in *. destruct (ri_bclist ri); [cbn in Hn; lia|done]. }
  destruct (nclist ri - 1)%nat as [|deep] eqn:Ed; [lia|]. cbn [destroy_mci]. rewrite Et. cbn [mbind option_bind].
  apply nodes_twice; [|done|done]. intros p. destruct (0 =? mci_trgr ri); [apply free_shrinks|apply mci_shrinks].
Qed.

(** ** A new index holds the rows *)

Section BuildLaws.
Context `{MallocLaws} (floor_log2 : Z -> Z) (luatAdd luatDel : r_ind_t -> aobj -> cptr -> heap -> heap).
Context (getcol : Z -> aobj -> cptr -> option aobj) (pktyp : Z) (coltype : Z -> Z) (Hpk : C_IS_NUM pktyp = true).
Context (ta : bt_args) (Hta : lawful ta) (Hkt : ktype (a_spec ta) = pktyp) (tb : Z) (byte_at : Z -> Z).
#[local] Abbreviation index := (index_impl floor_log2 luatAdd luatDel getcol pktyp coltype).
#[local] Abbreviation ri_of := (ii_ri floor_log2 luatAdd luatDel getcol pktyp coltype).
#[local] Abbreviation unique := (ii_uniq floor_log2 luatAdd luatDel getcol pktyp coltype).
#[local] Abbreviation cost := (ii_cost floor_log2 luatAdd luatDel getcol pktyp coltype).
#[local] Abbreviation keyed_by := (ii_keyed floor_log2 luatAdd luatDel getcol pktyp coltype).
#[local] Abbreviation rep_of := (ii_rep floor_log2 luatAdd luatDel getcol pktyp coltype).
#[local] Abbreviation consistent := (db_ok floor_log2 luatAdd luatDel getcol pktyp coltype ta tb byte_at).
#[local] Abbreviation holds_all := (idx_ok floor_log2 luatAdd luatDel getcol pktyp coltype ta tb).
#[local] Abbreviation inverse := (inverts floor_log2 luatAdd luatDel getcol pktyp coltype).
#[local] Abbreviation fit := (row_fit floor_log2 luatAdd luatDel getcol pktyp coltype ta byte_at).
#[local] Abbreviation build := (buildNewIndex floor_log2 luatAdd getcol pktyp coltype byte_at).
#[local] Abbreviation new_index := (newIndex floor_log2 luatAdd getcol pktyp coltype byte_at).

(** The rows respect the constraint of an index. *)
Definition one_each (i : index) (rows : gmap Z cptr) : Prop :=
  unique i = true -> forall k1 k2 r1 r2 w, rows !! k1 = Some r1 -> rows !! k2 = Some r2 ->
    keyed_by i k1 r1 (Some w) -> keyed_by i k2 r2 (Some w) -> k1 = k2.

Lemma one_each_mono i rows rows' : rows ⊆ rows' -> one_each i rows' -> one_each i rows.
Proof. intros Hs Ho Hu k1 k2 r1 r2 w H1 H2. apply (Ho Hu k1 k2 r1 r2 w); by eapply lookup_weaken. Qed.

(** A row more: either its value is new, or the constraint is violated. *)
Lemma one_more i rows E k r v : inverse i rows E -> one_each i rows -> rows !! k = None -> keyed_by i k r v ->
  if clash (unique i) v E then ~ one_each i (<[k := r]> rows) else one_each i (<[k := r]> rows).
Proof.
  intros Hi Ho Hk Hv. destruct (clash (unique i) v E) eqn:Ec.
  - apply clash_spec in Ec as (Hu & w & k' & -> & Hin). apply Hi in Hin as (r' & Hr' & Hw'). intros Hone.
    assert (k <> k') by congruence. assert (k = k'); [|done].
    apply (Hone Hu k k' r r' w); [apply lookup_insert_eq|by rewrite lookup_insert_ne|done..].
  - intros Hu k1 k2 r1 r2 w. rewrite !lookup_insert_Some.
    assert (Hfree : forall k' r' x, rows !! k' = Some r' -> keyed_by i k' r' (Some x) -> keyed_by i k r (Some x) -> False).
    { intros k' r' x Hr' Hx' Hx. assert (Hc : clash (unique i) v E = true); [|congruence]. apply clash_spec. split; [done|].
      exists x, k'. split; [|apply Hi; by exists r']. by apply (il_fun _ _ _ _ _ _ _ _ _ _ _ (ii_laws _ _ _ _ _ _ i) k r). }
    intros [[<- <-]|[? E1]] [[<- <-]|[? E2]] Hw1 Hw2; [done|by destruct (Hfree k2 r2 w)|by destruct (Hfree k1 r1 w)|].
    by apply (Ho Hu k1 k2 r1 r2 w).
Qed.

(** The rows of some entries. *)
Definition rows_of (l : list (Z * cptr)) (rows : gmap Z cptr) : gmap Z cptr := foldl (fun m e => <[e.1 := e.2]> m) rows l.

Lemma rows_of_lookup l : NoDup l.*1 -> forall rows k r, rows_of l rows !! k = Some r <->
  (k, r) ∈ l \/ k ∉ l.*1 /\ rows !! k = Some r.
Proof.
  induction l as [|[k0 r0] l IH]; intros Hnd rows k r.
  { split; [intros E; right; by split; [apply not_elem_of_nil|]|intros [[]%elem_of_nil|[_ E]]; exact E]. }
  cbn [fmap list_fmap fst] in Hnd. apply NoDup_cons in Hnd as [Hni Hnd]. cbn [rows_of foldl fst snd]. fold (rows_of l (<[k0:=r0]> rows)).
  rewrite (IH Hnd), lookup_insert_Some. rewrite fmap_cons, not_elem_of_cons, elem_of_cons. cbn [fst]. split.
  - intros [Hin|[Hn [[<- <-]|[Hne E]]]]; [left; by right|left; by left|right; split; [split; congruence|done]].
  - intros [[[= -> ->]|Hin]|[[Hne Hn] E]]; [right; split; [done|by left]|by left|right; split; [done|right; split; congruence]].
Qed.
Lemma rows_of_sub l : forall rows, (forall k, k ∈ l.*1 -> rows !! k = None) -> NoDup l.*1 -> rows ⊆ rows_of l rows.
Proof.
  intros rows Hn Hnd. apply map_subseteq_spec. intros k r E. apply rows_of_lookup; [done|]. right. split; [|done].
  intros Hin. rewrite (Hn k Hin) in E. done.
Qed.

(** The body of the loop, by key and row. *)
Definition fill (ri : r_ind_t) (x : heap * Z) (apk : aobj) (rrow : cptr) (_ : bool) : option (heap * Z * bool) :=
  '(h, ok) ← addToIndex floor_log2 luatAdd getcol pktyp coltype x.1 ri apk rrow;
  Some (if (ok : bool) then (h, x.2 + 1, false) else (h, -1, true)).

(** The loop over the entries that are left. *)
Lemma build_each i (L : list (index * pairs)) rows l : forall done E h card,
  holds_all h rows ((i, E) :: L) -> inverse i done E -> one_each i done -> NoDup l.*1 ->
  (forall k, k ∈ l.*1 -> done !! k = None) -> (forall k r, (k, r) ∈ l -> pk_ok pktyp k /\ exists v, keyed_by i k r v) ->
  Z.of_nat (size h + cost i * length l) < 2 ^ 32 ->
  exists h' E' b, each (on_entry ta (fill (ri_of i))) l (h, card) = Some (h', if (b : bool) then card + count l else -1) /\
    (size h' <= size h + cost i * length l)%nat /\ holds_all h' rows ((i, E') :: L) /\
    if b then one_each i (rows_of l done) /\ inverse i (rows_of l done) E' else ~ one_each i (rows_of l done).
Proof.
  induction l as [|[k r] l IH]; intros done E h card Hok Hi Ho Hnd Hfree Hrow Hsz.
  { exists h, E, true. rewrite Z.add_0_r. split_and!; (done || lia). }
  destruct (Hrow k r) as (Hp & v & Hv); [by left|]. cbn [fmap list_fmap fst] in Hnd. apply NoDup_cons in Hnd as [Hni Hnd].
  assert (Hk : done !! k = None) by (apply Hfree; by left).
  assert (Hin : inverse i (<[k := r]> done) (add_pair v k E)) by (apply (inverts_insert _ _ _ _ _ _ i done E k r v); done).
  pose proof (one_more i done E k r v Hi Ho Hk Hv) as Hone. cbn [length] in Hsz.
  assert (Hfree' : forall k', k' ∈ l.*1 -> (<[k := r]> done : gmap Z cptr) !! k' = None).
  { intros k' Hk'. rewrite lookup_insert_ne; [apply Hfree; by right|by intros ->]. }
  destruct (idx_add floor_log2 luatAdd luatDel getcol pktyp coltype ta tb h rows [] i E L k r v) as (h1 & E1 & Hs1 & Hok1);
    [done|done|done|lia|by apply (inverts_absent _ _ _ _ _ _ i done E k v)|].
  assert (Hstep : on_entry ta (fill (ri_of i)) (h, card) (k, r) false =
    Some (if negb (clash (unique i) v E) then (h1, card + 1, false) else (h1, -1, true))).
  { unfold on_entry, fill. cbn [fst snd]. rewrite Hkt, E1. done. }
  cbn [each]. rewrite Hstep. cbn [rows_of foldl fst snd]. fold (rows_of l (<[k:=r]> done)).
  destruct (clash (unique i) v E) eqn:Ec; cbn [negb mbind option_bind].
  - exists h1, E, false. cbn [length]. split_and!; [done|lia|done|]. intros Hall. apply Hone.
    apply (one_each_mono i _ _ (rows_of_sub l _ Hfree' Hnd) Hall).
  - destruct (IH (<[k := r]> done) (add_pair v k E) h1 (card + 1)) as (h2 & E2 & b & Hb & Hs2 & Hok2 & Hres); try done.
    + intros k' r' Hin'. apply Hrow. by right.
    + lia.
    + exists h2, E2, b. cbn [length]. split_and!; [|lia|done|done]. rewrite Hb. destruct b; [|done]. do 2 f_equal. lia.
Qed.

(** *** The whole table *)

#[local] Existing Instance abt_order.
#[local] Existing Instance abt_ops.
#[local] Instance laws_stream : KeyStream (key_t (a_spec ta)) := key_stream byte_at (a_spec ta).

(** The loop of [buildIndex] is the one of a query, with [fill] as its body. *)
Lemma build_scan (x : abt ta) s ri x0 l :
  (forall X (body : X -> aobj -> cptr -> bool -> option (X * bool)) x0,
     scan_tree byte_at ta x s true body x0 = r ← each (on_entry ta body) l x0; Some (r, false, 0)) ->
  ('(r, _) ← iter_while (S (S (length (inorder (root (tree ta x)))))) (bdirty (tree ta x)) s true
    (build_body floor_log2 luatAdd getcol pktyp coltype (a_spec ta) ri) x0; Some r) = each (on_entry ta (fill ri)) l x0.
Proof.
  intros Hscan. specialize (Hscan _ (fill ri) x0). unfold scan_tree in Hscan. revert Hscan.
  rewrite (iter_while_ext (build_body floor_log2 luatAdd getcol pktyp coltype (a_spec ta) ri) (fun st k missed => v ← parseStream (a_spec ta) (ptr k);
    fill ri st (convertStream2Key (a_spec ta) (ptr k)) v missed)).
  - unfold row_stream, laws_stream. destruct (iter_while _ _ _ _ _ _) as [[r s']|], (each _ _ _) as [r'|]; cbn; congruence.
  - intros st k m. unfold build_body, iAddStream, fill. by destruct (parseStream _ _).
Qed.

(** What the store holds when the new index has its tree, still empty. *)
Definition registered (h : heap) (rows : gmap Z cptr) (i : index) (ids : list index) : Prop :=
  exists L, L.*1 = ids /\ holds_all h rows ((i, ∅) :: L) /\ Forall (fun p => inverse p.1 rows p.2) L.

(** All the entries of the table are its rows. *)
Lemma rows_of_all rows l : in_order rows (fun _ => True) l -> NoDup l.*1 /\ rows_of l ∅ = rows /\ length l = size rows.
Proof.
  intros [Hs Hin]. pose proof (sorted_nodup _ Hs) as Hnd. split; [done|].
  assert (Hr : rows_of l ∅ = rows).
  { apply map_eq. intros k. apply option_eq. intros r. rewrite (rows_of_lookup l Hnd), Hin, lookup_empty. naive_solver. }
  split; [done|]. assert (Hl : forall l (m : gmap Z cptr), NoDup l.*1 -> (forall k, k ∈ l.*1 -> m !! k = None) ->
    size (rows_of l m) = (length l + size m)%nat).
  { clear. induction l as [|[k r] l IH]; intros m Hnd Hf; [done|]. cbn [fmap list_fmap fst] in Hnd, Hf. apply NoDup_cons in Hnd as [Hni Hnd].
    cbn [rows_of foldl fst snd length]. fold (rows_of l (<[k:=r]> m)). rewrite IH; [|done|].
    - rewrite map_size_insert, (Hf k) by (by left). cbn. lia.
    - intros k' Hk'. rewrite lookup_insert_ne; [apply Hf; by right|by intros ->]. }
  rewrite <- Hr, Hl; [rewrite map_size_empty; lia|done|]. intros k _. apply lookup_empty.
Qed.

Lemma inverse_nil i : inverse i ∅ ∅.
Proof. intros w k. split; [by intros ?%elem_of_empty|]. intros (r & Hr & _). by rewrite lookup_empty in Hr. Qed.

Context (Hfl : keys_flag (a_spec ta) = true).

Lemma build_ok h rows i ids cur which : registered h rows i ids -> map_Forall (fit (i :: ids)) rows -> roomy rows ->
  Z.of_nat (size h + cost i * size rows) < 2 ^ 32 -> 0 <= which < MAX_NUM_ITERS ->
  exists h' b, build h tb (ri_of i) cur which (-1) =
      Some (h', cur, if (b : bool) then count (map_to_list rows) else -1, if b then which else which + 1) /\
    (b = true <-> one_each i rows) /\
    exists L E, L.*1 = ids /\ holds_all h' rows ((i, E) :: L) /\ Forall (fun p => inverse p.1 rows p.2) L /\
      (b = true -> inverse i rows E).
Proof.
  intros (L & HL & Hok & Hinv) Hfit Hroom Hsz Hw. pose proof (idx_table _ _ _ _ _ _ _ _ _ _ _ Hok) as Ht.
  unfold buildNewIndex. rewrite (h_numkeys_ok ta Hta h tb rows Ht). unfold roomy in Hroom. rewrite uwrap_small by lia. cbn [mbind option_bind].
  rewrite length_map_to_list. destruct (Z.eqb_spec (Z.of_nat (size rows)) 0) as [E0|E0].
  { assert (rows = ∅) as -> by (apply map_size_empty_inv; lia). exists h, true. split; [done|]. split.
    - split; [|done]. intros _ _ k1 k2 r1 r2 w Hk. by rewrite lookup_empty in Hk.
    - exists L, ∅. split_and!; try done. intros _. apply inverse_nil. }
  destruct Ht as (x & Ex & Hx).
  destruct (full_walk ta Hta Hfl byte_at x rows which true Hx) as (s & l & E & Hord & He & _ & Hscan); try done; try lia.
  { intros k r Hk. apply (Hfit k r Hk). }
  { by intros ->. }
  { intros k [r Hk]. rewrite Hkt. apply (Hfit k r Hk). }
  destruct (rows_of_all rows l Hord) as (Hnd & Hall & Hlen).
  destruct (build_each i L rows l ∅ ∅ h 0) as (h' & E' & b & Heach & _ & Hok' & Hb).
  - done.
  - apply inverse_nil.
  - intros _ k1 k2 r1 r2 w Hk. by rewrite lookup_empty in Hk.
  - done.
  - intros k _. apply lookup_empty.
  - intros k r Hin. apply Hord in Hin as [_ Hk]. destruct (Hfit k r Hk) as [Hp _ _ Hv]. split; [done|]. apply Hv. by left.
  - rewrite Hlen. done.
  - rewrite Hall in Hb. exists h', b. split; [|split].
    + unfold buildIndex. rewrite Ex. cbn [mbind option_bind h_args h_tree]. rewrite Z.eqb_refl. cbn [negb].
      unfold build_stream. rewrite E. cbn [mbind option_bind]. rewrite He.
      pose proof (build_scan x s (ri_of i) (h, 0) l Hscan) as Hs. unfold laws_stream in Hs. rewrite Hs, Heach, Hlen. cbn [mbind option_bind].
      unfold btReleaseRangeIterator. destruct b; [|done]. rewrite (proj2 (Z.eqb_neq _ _)) by lia. by rewrite Z.add_simpl_r, Z.add_0_l.
    + destruct b; [split; [by intros _; apply Hb|done]|split; [done|by intros ?%Hb]].
    + exists L, E'. split_and!; try done. intros ->. apply Hb.
Qed.

(** A tree that is new: the rest of the store does not see it. *)
Lemma register_ok h rows i ids : consistent h rows ids -> Z.of_nat (size h) < 2 ^ 32 ->
  forall a, ri_btr (ri_of i) = malloc h -> (forall h', h_holds h' (malloc h) a ∅ -> rep_of i h' {[malloc h]} ∅) ->
  registered (<[malloc h := HTree a (abt_create a)]> h) rows i ids.
Proof.
  intros [_ (L & HL & (fps & [Ht Hlen Hrep Hap]) & Hinv)] Hsz a Hp Hrep0. exists L. split; [done|]. split; [|done].
  destruct (malloc_fresh h Hsz) as [Hfree _]. set (p := malloc h) in *. set (h1 := <[p := _]> h).
  assert (Hh : h_holds h1 p a ∅) by (exists (abt_create a); split; [apply lookup_insert_eq|apply create_holds]).
  assert (Htb : tb <> p) by (intros ->; destruct Ht as (x & Ex & _); congruence).
  assert (Hout : forall n fp, fps !! n = Some fp -> p ∉ fp).
  { intros n fp Hf Hin. destruct (lookup_lt_is_Some_2 L n) as [[j E] HLn]; [rewrite <- Hlen; by apply lookup_lt_Some in Hf|].
    destruct (Hrep n j E fp HLn Hf) as [Hr _]. destruct (il_dom _ _ _ _ _ _ _ _ _ _ _ (ii_laws _ _ _ _ _ _ j) h fp E p Hr Hin). congruence. }
  exists ({[p]} :: fps). split.
  - apply (h_holds_other h); [done|]. by apply lookup_insert_ne.
  - cbn. by rewrite Hlen.
  - intros [|n] j E fp HLn Hf; cbn in HLn, Hf.
    + injection HLn as <- <-. injection Hf as <-. split; [by apply Hrep0|]. by rewrite elem_of_singleton.
    + destruct (Hrep n j E fp HLn Hf) as [Hr Htb']. split; [|done].
      apply (il_keep _ _ _ _ _ _ _ _ _ _ _ (ii_laws _ _ _ _ _ _ j) h h1 fp E Hr). intros q Hq. apply lookup_insert_ne.
      intros <-. by apply (Hout n fp Hf).
  - assert (Hd : forall n f, fps !! n = Some f -> {[p]} ## f) by (intros n f Hf; apply disjoint_singleton_l; by apply (Hout n)).
    intros [|n1] [|n2] f1 f2 Hn E1 E2; cbn in E1, E2; [done| | |].
    + injection E1 as <-. by apply (Hd n2).
    + injection E2 as <-. symmetry. by apply (Hd n1).
    + apply (Hap n1 n2); [congruence|done..].
Qed.

(** The indexes that are implemented, with the tree they begin with. *)
Inductive implemented : index -> Prop :=
| imp_plain ri Hs Hu : implemented (plain_index floor_log2 luatAdd luatDel getcol pktyp coltype Hpk ri Hs Hu)
| imp_unique ri Hs Hu : implemented (unique_index floor_log2 luatAdd luatDel getcol pktyp coltype Hpk ri Hs Hu)
| imp_multi ri Hm : implemented (multi_index floor_log2 luatAdd luatDel getcol pktyp coltype Hpk ri Hm).

Lemma node_made : exists a, createIndexNode pktyp COL_TYPE_NONE = Some a.
Proof. destruct (num_cases pktyp Hpk) as [->|[->| ->]]; by eexists. Qed.

Lemma start_ok i : implemented i -> exists a, index_tree pktyp coltype (ri_of i) = Some a /\
  ri_virt (ri_of i) || ri_hlt (ri_of i) = false /\ ri_fname (ri_of i) = false /\
  forall h, h_holds h (ri_btr (ri_of i)) a ∅ -> rep_of i h {[ri_btr (ri_of i)]} ∅.
Proof.
  assert (Hf : forall ri, ri_virt ri || ri_fname ri = false -> ri_fname ri = false) by (by intros ri [_ ?]%orb_false_iff).
  intros [ri Hs Hu|ri Hs Hu|ri Hm]; cbn.
  - pose proof (sg_col ri Hs) as Hc. unfold ri_clist in Hc. unfold index_tree. destruct (ri_bclist ri); [|done]. rewrite Hu.
    eexists. split; [done|]. split; [by apply plain_single|]. split; [apply Hf, Hs|]. intros h. apply fresh_plain, node_made.
  - pose proof (sg_col ri Hs) as Hc. unfold ri_clist in Hc. unfold index_tree. destruct (ri_bclist ri); [|done]. rewrite Hu.
    assert (Ha : exists a, createU_S_IBT (ri_dtype ri) (ri_num ri) pktyp = Some a).
    { unfold createU_S_IBT, _createUIBT. destruct (num_cases _ (sg_num ri Hs)) as [->|[->| ->]]; by eexists. }
    destruct Ha as [a Ha]. exists a. split; [done|]. split; [by apply plain_single|]. split; [apply Hf, Hs|]. intros h. by apply fresh_unique.
  - unfold index_tree. destruct (ri_bclist ri) as [|c cs] eqn:Ec; [by destruct (mu_cols coltype ri Hm)|].
    pose proof (mu_plain coltype ri Hm) as Hp. pose proof (mu_num coltype ri Hm) as Hc. rewrite Ec in Hc. apply Forall_cons in Hc as [Hn _].
    eexists. split; [done|]. split; [rewrite (mu_hlt coltype ri Hm); by destruct (ri_virt ri)|]. split; [by apply Hf|].
    intros h Hh. apply (fresh_multi getcol pktyp coltype h ri c cs Ec node_made).
    unfold createMCI_IBT in Hh. by destruct (num_cases _ Hn) as [Ht|[Ht|Ht]]; rewrite Ht in *.
Qed.

(** The first index goes: nothing outside its trees changes. *)
Lemma drop_first h h' rows i E L fp fps : laid floor_log2 luatAdd luatDel getcol pktyp coltype ta tb h rows ((i, E) :: L) (fp :: fps) ->
  (forall p, p ∉ fp -> h' !! p = h !! p) -> holds_all h' rows L.
Proof.
  intros [Ht Hlen Hrep Hap] Hsame. destruct (Hrep 0%nat i E fp eq_refl eq_refl) as [_ Htb]. exists fps. split.
  - apply (h_holds_other h); [done|by apply Hsame].
  - by injection Hlen.
  - intros n j F gp HL Hf. destruct (Hrep (S n) j F gp HL Hf) as [Hr Hb]. split; [|done].
    apply (il_keep _ _ _ _ _ _ _ _ _ _ _ (ii_laws _ _ _ _ _ _ j) h h' gp F Hr). intros p Hp. apply Hsame. intros Hp'.
    by apply (Hap 0%nat (S n) fp gp ltac:(done) eq_refl Hf p).
  - intros n1 n2 f1 f2 Hn E1 E2. apply (Hap (S n1) (S n2)); [congruence|done..].
Qed.

(** The trees an index leads to, in the order they are destroyed. *)
Lemma led_nodup {X} (f : X -> Z) (A : gmap Z Z) ks ps : Forall2 (fun k p => A !! f k = Some p) ks ps -> NoDup (f <$> ks) ->
  (forall v1 v2 p, A !! v1 = Some p -> A !! v2 = Some p -> v1 = v2) -> NoDup ps.
Proof.
  intros Hf Hnd Hinj. induction Hf as [|k p ks ps Hp Hf IH]; [constructor|]. cbn [fmap list_fmap] in Hnd. apply NoDup_cons in Hnd as [Hni Hnd].
  constructor; [|by apply IH]. intros Hin. apply Hni. apply list_elem_of_lookup in Hin as [n Hn].
  destruct (Forall2_lookup_r _ _ _ _ _ Hf Hn) as (k' & Hk' & HA). rewrite (Hinj _ _ _ Hp HA). apply list_elem_of_fmap. exists k'. split; [done|].
  by eapply list_elem_of_lookup_2.
Qed.
Lemma led_to a (Ha : lawful a) (x : abt a) lo hh (A : gmap Z Z) : holds a x (PNum <$> A) -> wf (tt a x) lo hh (root (tree a x)) ->
  (forall v1 v2 p, A !! v1 = Some p -> A !! v2 = Some p -> v1 = v2) ->
  exists ps, Forall2 (fun (k : key_t (a_spec a)) p => parseStream (a_spec a) (ptr k) = Some (PNum p)) (preorder (root (tree a x))) ps /\
    NoDup ps /\ forall p, p ∈ ps <-> exists v, A !! v = Some p.
Proof.
  intros Hx Hwf Hinj. pose proof (preorder_perm _ _ _ _ Hwf) as Hperm. set (ks := preorder _) in *.
  assert (Hks : exists ps, Forall2 (fun (k : key_t (a_spec a)) p => parseStream (a_spec a) (ptr k) = Some (PNum p) /\ A !! kn a k = Some p) ks ps).
  { assert (HF : Forall (fun k => k ∈ inorder (root (tree a x))) ks) by (apply Forall_forall; intros k; by rewrite Hperm).
    clear Hperm. clearbody ks. induction HF as [|k ks Hk _ [ps IH]]; [by exists []|].
    destruct (h_parse a x _ Hx k Hk) as [(r & Hpr) _]. assert (Hm : (PNum <$> A) !! kn a k = Some r) by (apply (h_map a x _ Hx); by exists k).
    apply lookup_fmap_Some in Hm as (p & <- & HA). exists (p :: ps). by constructor. }
  destruct Hks as [ps Hps]. exists ps.
  assert (HA : Forall2 (fun k p => A !! kn a k = Some p) ks ps) by (eapply Forall2_impl; [exact Hps|]; by intros k p [_ ?]).
  split; [eapply Forall2_impl; [exact Hps|]; by intros k p [? _]|]. split.
  { apply (led_nodup (kn a) A ks ps HA); [|done]. rewrite Hperm. apply sorted_nodup, (holds_sorted a Ha byte_at x _ Hx). }
  intros p. split.
  - intros [n Hp]%list_elem_of_lookup. destruct (Forall2_lookup_r _ _ _ _ _ HA Hp) as (k & _ & E). by exists (kn a k).
  - intros [v E]. assert (Hm : (PNum <$> A) !! v = Some (PNum p)) by (by rewrite lookup_fmap, E).
    apply (h_map a x _ Hx) in Hm as (k & Hk & Hkv & _). rewrite <- Hperm in Hk. apply list_elem_of_lookup in Hk as [n Hk].
    destruct (Forall2_lookup_l _ _ _ _ _ HA Hk) as (p' & Hp' & E'). assert (p = p') as -> by congruence. by eapply list_elem_of_lookup_2.
Qed.

(** The nodes of an index without constraint are freed, its root is not. *)
Lemma drop_plain ri node A h fp E : rep1 ri node A h fp E -> single ri -> UNIQ (ri_cnstr ri) = false ->
  exists h', destroy_index h ri = Some h' /\ forall q, h' !! q = if decide (q ∈ fp ∖ {[ri_btr ri]}) then None else h !! q.
Proof.
  intros [-> (x & Ex & Hx) Ha Hi Hnode Hall] Hs Hu. unfold destroy_index. rewrite (sg_col ri Hs), Hu, Ex.
  cbn [mbind option_bind h_args h_tree]. set (a := createIndexBT _ _) in *.
  assert (Hlaw : lawful a) by (apply root_lawful, Hs).
  pose proof (h_wf a x _ Hx) as ((hh & Hwf) & _). rewrite (destroy_nodes_ok (a_spec a) _ (tt a x) hh _ _ _ Hwf).
  destruct (led_to a Hlaw x _ hh A Hx Hwf Hi) as (ps & Hps & Hnd & Hin).
  destruct (free_entries (a_spec a) (fun h nbtr => if is_null nbtr then Some h else bt_free h (num nbtr)) (preorder (root (tree a x))) ps)
    with (h := h) as (h' & Eh & Hh'); [|done|done| |].
  - apply Forall_forall. intros p Hp h1. apply Hin in Hp as [v Hv]. destruct (Hnode v p Hv) as [Hb _]. cbn. rewrite uwrap_small by lia.
    by rewrite (proj2 (Z.eqb_neq _ _)) by lia.
  - intros p Hp. apply Hin in Hp as [v Hv]. destruct (Hnode v p Hv) as (_ & m & (y & Hy & _) & _). by eexists.
  - exists h'. split; [exact Eh|]. intros q. rewrite Hh'. destruct (decide (q ∈ ps)) as [Hq|Hq].
    + apply Hin in Hq as [v Hv]. rewrite decide_True; [done|]. apply elem_of_difference. split; [apply in_fp; right; by exists v|].
      rewrite elem_of_singleton. intros ->. by apply (Ha v).
    + rewrite decide_False; [done|]. intros [[->|Hv]%in_fp Hn]%elem_of_difference; [by apply Hn, elem_of_singleton|]. by apply Hq, Hin.
Qed.
Lemma drop_unique ri h fp E : rep_uniq pktyp ri h fp E -> single ri -> UNIQ (ri_cnstr ri) = true ->
  exists h', destroy_index h ri = Some h' /\ forall q, h' !! q = if decide (q ∈ fp) then None else h !! q.
Proof.
  intros (a & m & _ & [-> (x & Ex & _) _ _]) Hs Hu. unfold destroy_index, bt_free. rewrite (sg_col ri Hs), Hu, Ex. eexists. split; [done|].
  intros q. unfold bt_destroy. destruct (decide (q = ri_btr ri)) as [->|Hn].
  - by rewrite lookup_delete_eq, decide_True by (by apply elem_of_singleton).
  - by rewrite lookup_delete_ne, decide_False by (try done; by rewrite elem_of_singleton).
Qed.

(** *** The statements *)

Lemma new_index_ok h rows ids i which : consistent h rows ids -> implemented i -> ri_btr (ri_of i) = malloc h ->
  ri_lru (ri_of i) || ri_lfu (ri_of i) = false -> map_Forall (fit (i :: ids)) rows -> roomy rows ->
  Z.of_nat (S (size h) + cost i * size rows) < 2 ^ 32 -> 0 <= which < MAX_NUM_ITERS ->
  exists h' b, (b = true <-> one_each i rows) /\
    new_index h tb (ri_of i) false which =
      (if (b : bool) then Some (h', Some (ri_of i, Cursor (-1) true), which)
       else h'' ← emptyIndex h' (ri_of i); Some (h'', None, which + 1)) /\
    exists L E, L.*1 = ids /\ holds_all h' rows ((i, E) :: L) /\ Forall (fun p => inverse p.1 rows p.2) L /\
      (b = true -> inverse i rows E).
Proof.
  intros Hc Hi Hp [Hlru Hlfu]%orb_false_iff Hfit Hroom Hsz Hw. destruct (start_ok i Hi) as (a & Ha & Hvh & Hfn & Hrep). rewrite Hp in Hrep.
  destruct (malloc_fresh h ltac:(lia)) as [Hfree _].
  pose proof (register_ok h rows i ids Hc ltac:(lia) a Hp Hrep) as Hreg.
  destruct (build_ok _ rows i ids (Cursor (-1) true) which Hreg Hfit Hroom) as (h' & b & Hb & Hone & Hres); [|done|].
  { rewrite map_size_insert, Hfree. lia. }
  exists h', b. split; [done|]. split; [|done]. unfold newIndex. rewrite Hvh, Ha. cbn [mbind option_bind]. unfold h_new.
  replace (set_btr (ri_of i) (malloc h)) with (ri_of i) by (rewrite <- Hp; by destruct (ri_of i)). rewrite Hlru, Hlfu, Hfn. cbn [orb].
  rewrite Hb. cbn [mbind option_bind]. destruct b; [|done]. by rewrite (proj2 (Z.eqb_neq _ _)) by lia.
Qed.

(** C10: CREATE INDEX on a table with rows, of a single column, UNIQUE or not, or of
    several columns, when no two rows have the same value under a UNIQUE index,
    leaves an index that is the inverse of the rows, next to the others. *)
Theorem create_index h rows ids i which : consistent h rows ids -> implemented i -> ri_btr (ri_of i) = malloc h ->
  ri_lru (ri_of i) || ri_lfu (ri_of i) = false -> map_Forall (fit (i :: ids)) rows -> roomy rows ->
  Z.of_nat (S (size h) + cost i * size rows) < 2 ^ 32 -> 0 <= which < MAX_NUM_ITERS -> one_each i rows ->
  exists h', new_index h tb (ri_of i) false which = Some (h', Some (ri_of i, Cursor (-1) true), which) /\
    consistent h' rows (i :: ids).
Proof.
  intros Hc Hi Hp Hl Hfit Hroom Hsz Hw Hone. destruct (new_index_ok h rows ids i which) as (h' & b & Hb & E & L & F & HL & Hok & Hinv & HF); try done.
  apply Hb in Hone as Hbt. subst b. exists h'. split; [done|]. split; [done|]. exists ((i, F) :: L). split; [cbn; by rewrite HL|]. split; [done|].
  constructor; [by apply HF|done].
Qed.

(** C38: CREATE UNIQUE INDEX on a table where two rows have the same value is
    refused: its tree is destroyed and the table and the other indexes are as they
    were, but the iterator of the scan stays in use. *)
Theorem create_unique_refused h rows ids i which : consistent h rows ids -> implemented i -> ri_btr (ri_of i) = malloc h ->
  ri_lru (ri_of i) || ri_lfu (ri_of i) = false -> ri_icol (ri_of i) <> -1 -> map_Forall (fit (i :: ids)) rows -> roomy rows ->
  Z.of_nat (S (size h) + cost i * size rows) < 2 ^ 32 -> 0 <= which < MAX_NUM_ITERS -> ~ one_each i rows ->
  exists h', new_index h tb (ri_of i) false which = Some (h', None, which + 1) /\
    consistent h' rows ids /\ h' !! malloc h = None.
Proof.
  intros Hc Hi Hp Hl Hcol Hfit Hroom Hsz Hw Hone. destruct (new_index_ok h rows ids i which) as (h' & b & Hb & -> & L & F & HL & Hok & Hinv & _); try done.
  destruct b; [by destruct Hone; apply Hb|]. destruct Hi as [ri Hs Hu|ri Hs Hu|ri Hm]; [by destruct Hone|clear Hb|by destruct Hone].
  cbn [ii_ri unique_index] in *. destruct Hok as ([|fp fps] & Hlaid); [by pose proof (ld_len _ _ _ _ _ _ _ _ _ _ _ _ Hlaid)|].
  destruct (ld_rep _ _ _ _ _ _ _ _ _ _ _ _ Hlaid 0%nat _ _ fp eq_refl eq_refl) as [Hrep _]. cbn in Hrep.
  destruct (drop_unique ri h' fp F Hrep Hs Hu) as (h2 & E2 & Hh2).
  destruct (malloc_fresh h ltac:(lia)) as [_ Hpos]. exists h2. unfold emptyIndex. rewrite (proj2 (Z.eqb_neq _ _)) by done.
  rewrite Hp, (proj2 (Z.eqb_neq (malloc h) 0)) by lia. rewrite (sg_hlt ri Hs). cbn [negb andb]. rewrite E2. cbn [mbind option_bind]. split; [done|].
  split.
  - split; [eapply map_Forall_impl; [exact Hfit|]|].
    + intros k r [F1 F2 F3 F4]. split; [done..|]. intros j Hj. apply F4. by right.
    + exists L. split; [done|]. split; [|done]. apply (drop_first h' h2 rows _ F L fp fps Hlaid). intros p Hn. rewrite Hh2. by rewrite decide_False.
  - rewrite Hh2, decide_True; [done|]. destruct Hrep as (? & ? & _ & [-> _ _ _]). by apply elem_of_singleton.
Qed.

(** C11: DROP INDEX of a single-column index leaves the table and the other indexes
    as they were and frees what belongs to it and nothing else: the one tree of a
    UNIQUE index, and the nodes of the values of a plain one, whose root is
    forgotten. *)
Theorem drop_index h rows ids i ri Hs : consistent h rows (i :: ids) -> ri_btr ri <> 0 -> ri_icol ri <> -1 ->
  (exists Hu, i = plain_index floor_log2 luatAdd luatDel getcol pktyp coltype Hpk ri Hs Hu) \/
  (exists Hu, i = unique_index floor_log2 luatAdd luatDel getcol pktyp coltype Hpk ri Hs Hu) ->
  exists h' fp E, emptyIndex h ri = Some h' /\ consistent h' rows ids /\ rep_of i h fp E /\ inverse i rows E /\
    forall p, h' !! p = if decide (p ∈ fp /\ (UNIQ (ri_cnstr ri) = true \/ p <> ri_btr ri)) then None else h !! p.
Proof.
  intros [Hfit (L0 & HL & (fps & Hlaid) & Hinv)] Hp Hcol Hkind. destruct L0 as [|[j E] L]; [done|]. cbn in HL. injection HL as -> HL.
  destruct fps as [|fp fps]; [by pose proof (ld_len _ _ _ _ _ _ _ _ _ _ _ _ Hlaid)|].
  destruct (ld_rep _ _ _ _ _ _ _ _ _ _ _ _ Hlaid 0%nat _ _ fp eq_refl eq_refl) as [Hrep _]. apply Forall_cons in Hinv as [Hie Hinv].
  assert (Hd : exists h', destroy_index h ri = Some h' /\
    forall p, h' !! p = if decide (p ∈ fp /\ (UNIQ (ri_cnstr ri) = true \/ p <> ri_btr ri)) then None else h !! p).
  { destruct Hkind as [[Hu ->]|[Hu ->]]; cbn in Hrep.
    - destruct Hrep as (node & A & _ & R). destruct (drop_plain ri node A h fp E R Hs Hu) as (h' & E' & Hh'). exists h'. split; [done|].
      intros q. rewrite Hh'. apply decide_ext. rewrite elem_of_difference, elem_of_singleton, Hu. intuition congruence.
    - destruct (drop_unique ri h fp E Hrep Hs Hu) as (h' & E' & Hh'). exists h'. split; [done|]. intros q. rewrite Hh'. apply decide_ext. tauto. }
  destruct Hd as (h' & Ed & Hh'). exists h', fp, E. split.
  { unfold emptyIndex. rewrite !(proj2 (Z.eqb_neq _ _)), (sg_hlt ri Hs) by done. done. }
  split; [|done]. split.
  - eapply map_Forall_impl; [exact Hfit|]. intros k r [F1 F2 F3 F4]. split; [done..|]. intros j Hj. apply F4. by right.
  - exists L. split; [done|]. split; [|done]. apply (drop_first h h' rows i E L fp fps Hlaid). intros p Hn. rewrite Hh'. by rewrite decide_False by tauto.
Qed.
End BuildLaws.

(** ** Witnesses *)

#[local] Abbreviation no_lua := (fun (_ : r_ind_t) (_ : aobj) (_ : cptr) (h : heap) => h).
#[local] Abbreviation t_index := (index_impl (fun _ => 0) no_lua no_lua t_col COL_TYPE_INT (fun _ => COL_TYPE_INT)).
#[local] Abbreviation t_ok := (db_ok (fun _ => 0) no_lua no_lua t_col COL_TYPE_INT (fun _ => COL_TYPE_INT) t_args 16 (fun _ => 1)).
#[local] Abbreviation t_fit := (row_fit (fun _ => 0) no_lua no_lua t_col COL_TYPE_INT (fun _ => COL_TYPE_INT) t_args (fun _ => 1)).
#[local] Abbreviation t_new := (newIndex (fun _ => 0) no_lua t_col COL_TYPE_INT (fun _ => COL_TYPE_INT) (fun _ => 1)).

(** CREATE INDEX ON t (u) and CREATE UNIQUE INDEX ON t (a), at the address [p]. *)
Definition t_b (p : Z) : r_ind_t := RInd 4 false p 2 [] CONSTRAINT_NONE false false false (-1) COL_TYPE_INT false.
Definition t_c (p : Z) : r_ind_t := RInd 4 false p 1 [] CONSTRAINT_UNIQUE false false false (-1) COL_TYPE_INT false.
Lemma t_b_single p : single (t_b p). Proof. by split. Qed.
Lemma t_c_single p : single (t_c p). Proof. by split. Qed.
Definition i_b (p : Z) : t_index :=
  plain_index (fun _ => 0) no_lua no_lua t_col COL_TYPE_INT (fun _ => COL_TYPE_INT) eq_refl (t_b p) (t_b_single p) eq_refl.
Definition i_c (p : Z) : t_index :=
  unique_index (fun _ => 0) no_lua no_lua t_col COL_TYPE_INT (fun _ => COL_TYPE_INT) eq_refl (t_c p) (t_c_single p) eq_refl.

Lemma t_fit_more (i : t_index) rows h : t_ok h rows t_ids -> (forall k r, rows !! k = Some r -> exists v, ii_keyed _ _ _ _ _ _ i k r v) ->
  map_Forall (t_fit (i :: t_ids)) rows.
Proof.
  intros [Hfit _] Hi k r Hk. destruct (Hfit k r Hk) as [F1 F2 F3 F4]. split; [done..|]. intros j [->|Hj]%elem_of_cons; [by apply (Hi k r)|by apply F4].
Qed.
Lemma t_keyed_b p k a u : t_good k a u -> ii_keyed _ _ _ _ _ _ (i_b p) k (t_row a u) (Some [u]).
Proof.
  intros [Hk Ha Hu _ Ec]. exists (initIntAobjFromVal u). split; [exact Ec|]. cbn. split; [apply int_val_ok; lia|].
  do 2 f_equal. symmetry. apply uwrap_small. lia.
Qed.
Lemma t_keyed_c p k a u : t_good k a u -> 0 < a -> ii_keyed _ _ _ _ _ _ (i_c p) k (t_row a u) (Some [a]).
Proof.
  intros [Hk Ha Hu Ec _] Hp. split.
  - exists (initIntAobjFromVal a). split; [exact Ec|]. cbn. split; [apply int_val_ok; lia|]. do 2 f_equal. symmetry. apply uwrap_small. lia.
  - intros n [= <-] _. lia.
Qed.

Lemma create_index_witness : exists h h', let p := @malloc first_free h in t_ok h (t_rows t_two) t_ids /\
  t_new h 16 (t_b p) false 0 = Some (h', Some (t_b p, Cursor (-1) true), 0) /\ t_ok h' (t_rows t_two) (i_b p :: t_ids).
Proof.
  destruct t_filled as (h & Hok & Hsz). exists h.
  destruct (create_index (fun _ => 0) no_lua no_lua t_col COL_TYPE_INT (fun _ => COL_TYPE_INT) eq_refl t_args t_lawful eq_refl 16 (fun _ => 1) eq_refl
    h (t_rows t_two) t_ids (i_b (malloc h)) 0) as (h' & E & Hok').
  - exact Hok.
  - apply imp_plain.
  - reflexivity.
  - reflexivity.
  - apply (t_fit_more _ _ h Hok). intros k r (x & [<-|[<-|[]]] & <- & ->)%t_rows_in; cbn [fst snd]; eexists; (apply t_keyed_b; t_good_tac).
  - unfold roomy. vm_compute. reflexivity.
  - change (size (t_rows t_two)) with 2%nat. unfold i_b, plain_index. cbn [ii_cost]. rewrite Nat2Z.inj_add, Nat2Z.inj_succ, Hsz. lia.
  - done.
  - intros Hu. discriminate Hu.
  - exists h'. split; [exact Hok|]. split; [exact E|exact Hok'].
Defined.

Lemma create_unique_refused_witness : exists h h', let p := @malloc first_free h in t_ok h (t_rows [(1, 10, 7); (2, 10, 8)]) t_ids /\
  t_new h 16 (t_c p) false 0 = Some (h', None, 1) /\ t_ok h' (t_rows [(1, 10, 7); (2, 10, 8)]) t_ids /\ h' !! p = None.
Proof.
  destruct (t_fill 10 7 10 8 8) as (h & Hok & Hsz); [t_good_tac..|done|vm_compute; reflexivity|]. exists h.
  destruct (create_unique_refused (fun _ => 0) no_lua no_lua t_col COL_TYPE_INT (fun _ => COL_TYPE_INT) eq_refl t_args t_lawful eq_refl 16 (fun _ => 1) eq_refl
    h (t_rows [(1, 10, 7); (2, 10, 8)]) t_ids (i_c (malloc h)) 0) as (h' & E & Hok' & Hn).
  - exact Hok.
  - apply imp_unique.
  - reflexivity.
  - reflexivity.
  - discriminate.
  - apply (t_fit_more _ _ h Hok). intros k r (x & [<-|[<-|[]]] & <- & ->)%t_rows_in; cbn [fst snd]; eexists; (apply t_keyed_c; [t_good_tac|done]).
  - unfold roomy. vm_compute. reflexivity.
  - change (size (t_rows [(1, 10, 7); (2, 10, 8)])) with 2%nat. unfold i_c, unique_index. cbn [ii_cost]. rewrite Nat2Z.inj_add, Nat2Z.inj_succ, Hsz. lia.
  - done.
  - intros Hone. assert (1 = 2); [|done].
    apply (Hone eq_refl 1 2 (t_row 10 7) (t_row 10 8) [10]); [reflexivity|reflexivity|apply t_keyed_c; [t_good_tac|done]..].
  - exists h'. split; [exact Hok|]. split; [exact E|]. split; [exact Hok'|exact Hn].
Defined.

Lemma drop_index_witness : exists h h', t_ok h (t_rows t_two) t_ids /\ emptyIndex h t_u = Some h' /\ t_ok h' (t_rows t_two) [i_a; i_m] /\ h' !! 48 = None.
Proof.
  destruct t_filled as (h & Hok & Hsz). exists h.
  destruct (drop_index (fun _ => 0) no_lua no_lua t_col COL_TYPE_INT (fun _ => COL_TYPE_INT) eq_refl t_args 16 (fun _ => 1)
    h (t_rows t_two) [i_a; i_m] i_u t_u t_u_single) as (h' & fp & E & Ed & Hok' & Hrep & _ & Hh').
  - exact Hok.
  - discriminate.
  - discriminate.
  - right. by exists eq_refl.
  - exists h'. split; [exact Hok|]. split; [exact Ed|]. split; [exact Hok'|]. rewrite Hh'. apply decide_True.
    destruct Hrep as (? & ? & _ & [-> _ _ _]). split; [by apply elem_of_singleton|by left].
Defined.

(** An index on (a, u) with eight values of a. *)
Definition w_big : option heap :=
  foldl (fun h v => h ← h; h_ind_add h 64 (initIntAobjFromVal v) (1000 + v)) (Some t_heap) [1; 2; 3; 4; 5; 6; 7; 8].
Lemma drop_mci_double_free_witness : exists h, w_big = Some h /\ emptyIndex h t_m = None.
Proof.
  assert (E : (fun h => option_map (fun t => let n := root (tree (h_args t) (h_tree t)) in (leaf n, 2 <=? length (nodes n))%nat) (h !! 64)) <$> w_big
    = Some (Some (false, true))) by (vm_compute; reflexivity).
  destruct w_big as [h|]; [|discriminate E]. exists h. split; [reflexivity|]. cbn in E.
  destruct (h !! 64) as [t|] eqn:Et; [|discriminate E]. cbn in E. injection E as E1 E2.
  apply (drop_mci_double_free h t_m t); [cbn; lia|discriminate|discriminate|reflexivity|exact Et|exact E1|by apply Nat.leb_le].
Defined.

(** ** Index cursors *)

(** Ten rows, and an index on a built with LIMIT 4. *)
Definition t_ten : option heap :=
  foldl (fun h k => h ← h; '(h, _) ← h_add h 16 (pk_obj COL_TYPE_INT k) (t_row (k mod 3) k); Some h) (Some t_heap) [1; 2; 3; 4; 5; 6; 7; 8; 9; 10].
Fixpoint cursor_steps (n : nat) (h : heap) (ri : r_ind_t) (cur : cursor_t) : option (heap * cursor_t) :=
  match n with
  | O => Some (h, cur)
  | S n => '(h, cur, _, _) ← buildNewIndex (fun _ => 0) no_lua t_col COL_TYPE_INT (fun _ => COL_TYPE_INT) (fun _ => 1) h 16 ri cur 0 4;
           cursor_steps n h ri cur
  end.
(** The keys in the node of a value. *)
Definition keys_of (h : heap) (ibtr v : Z) : option (list Z) :=
  p ← h_find h ibtr (initIntAobjFromVal v); h_get h (num p) (fun a x => Some (kn a <$> inorder (root (tree a x)))).

(** An index cursor leaves out the first row: an index on ten rows, built four
    at a time until it says that it is done, has every row but the one with key 1.
    The cursor begins at position 1, taken for the first key, and positions count
    from 0. *)
Theorem index_cursor_misses :
  (h ← t_ten; '(h, r, _) ← t_new h 16 t_a true 0; '(ri, cur) ← r; '(h, cur) ← cursor_steps 3 h ri cur;
   row ← h_find h 16 (pk_obj COL_TYPE_INT 1);
   Some (cur, is_null row, keys_of h (ri_btr ri) 0, keys_of h (ri_btr ri) 1, keys_of h (ri_btr ri) 2)) =
  Some (Cursor (-1) true, false, Some [3; 6; 9], Some [4; 7; 10], Some [2; 5; 8]).
Proof. vm_compute. reflexivity. Qed.
