(* ===== verification/Queries.v ===== *)
(** * SELECT and DELETE of several rows

    The statements of [RangeOps] against the interface [Visits]: what a SELECT
    gives and what a DELETE leaves, for any lookup; then the lookups of a
    consistent database, by a range of the primary key and by the values of an
    index. *)

From stdpp Require Import gmap.
From Stdlib Require Import Sorting.Sorted.
From S2P Require Import Prelude Stream CStr Row Aobj Filter BtSearch DirtyStream Btree BtOps BtIter BtScan BtLoop BtKey BtKeyLaws BtStream Abt GetCol Index IndexLaws OrderBy Dml DmlLaws Range RangeOps RangeLaws Database.

Lemma clone_pk pktyp k : cloneAobj (pk_obj pktyp k) = Some (pk_obj pktyp k).
Proof. unfold cloneAobj, aobjClone, pk_obj. by destruct (C_IS_I pktyp), (C_IS_L pktyp). Qed.

(** LIMIT and OFFSET on a list, when [sent] are sent already. *)
Definition slice_from {A} (lim ofst sent : Z) (l : list A) : list A :=
  let l := drop (Z.to_nat ofst) l in
  if lim =? -1 then l else take (Z.to_nat (lim - sent)) l.
Definition slice {A} (wb : wob_t) (l : list A) : list A := slice_from (wb_lim wb) (wb_ofst wb) 0 l.

Lemma slice_nil {A} lim ofst sent : slice_from lim ofst sent (@nil A) = [].
Proof. unfold slice_from. rewrite drop_nil, take_nil. by destruct (lim =? -1). Qed.
Lemma slice_cons {A} lim ofst sent (k : A) l : (lim = -1 \/ sent <= lim) ->
  slice_from lim ofst sent (k :: l) =
  if negb (lim =? -1) && (sent =? lim) then []
  else if 0 <? ofst then slice_from lim (ofst - 1) sent l else k :: slice_from lim ofst (sent + 1) l.
Proof.
  intros Hs. unfold slice_from. destruct (Z.eqb_spec lim (-1)) as [E|E]; cbn [negb andb].
  - destruct (Z.ltb_spec 0 ofst); [by replace (Z.to_nat ofst) with (S (Z.to_nat (ofst - 1))) by lia|].
    by replace (Z.to_nat ofst) with O by lia.
  - destruct (Z.eqb_spec sent lim) as [->|Hn]; [by rewrite Z.sub_diag|].
    destruct (Z.ltb_spec 0 ofst); [by replace (Z.to_nat ofst) with (S (Z.to_nat (ofst - 1))) by lia|].
    replace (Z.to_nat ofst) with O by lia. by replace (Z.to_nat (lim - sent)) with (S (Z.to_nat (lim - (sent + 1)))) by lia.
Qed.
Lemma slice_sublist {A} lim ofst sent (l : list A) : sublist (slice_from lim ofst sent l) l.
Proof.
  unfold slice_from. destruct (lim =? -1); [apply sublist_drop|]. etrans; [apply sublist_take|apply sublist_drop].
Qed.

Section Statements.
Context (getcol : Z -> aobj -> cptr -> option aobj) (pktyp : Z) (byte_at : Z -> Z).
Context (runLuaFilter : lue_t -> aobj -> cptr -> bool * bool) (lua_key : aobj -> cptr -> Z -> option Z).
Context (tmatch : Z) (obs : list (bool * Z * Z * bool)) (text_addr : cptr -> Z -> Z).
Context (ta : bt_args) (tb : Z) (h : heap) (rows : gmap Z cptr).
#[local] Abbreviation pk k := (pk_obj pktyp k).
#[local] Abbreviation row k := (default NULL (rows !! k)).

(** ** Filters *)

(** The filters read numbers: [val k c] is that of column [c] of the row [k]. *)
Definition filters_read (val : Z -> Z -> Z) (flist : option (list f_t)) : Prop :=
  forall k r fl f, rows !! k = Some r -> flist = Some fl -> f ∈ fl -> f_tmatch f = tmatch ->
    exists a, getcol (cmatch (f_ic f)) (pk k) r = Some a /\ flt_num f a /\ num_of a = val k (cmatch (f_ic f)).
Definition passes (val : Z -> Z -> Z) (flist : option (list f_t)) (k : Z) : bool :=
  match flist with None => true | Some fl => row_passes (val k) fl tmatch end.

Lemma check_ok val flist k r : filters_read val flist -> rows !! k = Some r ->
  OP_FILTER_CHECK getcol runLuaFilter flist tmatch (pk k) r = Some (if passes val flist k then None else Some true).
Proof.
  intros Hf Hk. unfold OP_FILTER_CHECK, passFilts, passes. destruct flist as [fl|]; [|done].
  rewrite (filts_ok getcol runLuaFilter fl tmatch (pk k) r (val k)); [by destruct (row_passes _ _ _)|].
  intros f Hin Ht. by apply (Hf k r fl f).
Qed.

(** ** SELECT *)

Section Select.
Context {R : Type} (outputRow : aobj -> cptr -> option (ost_t * R)) (text : Z -> R) (val : Z -> Z -> Z) (flist : option (list f_t)).
Context (Hf : filters_read val flist).
Context (Ho : forall k r, rows !! k = Some r -> outputRow (pk k) r = Some (OR_NONE, text k)).
#[local] Abbreviation sel_op := (select_op getcol runLuaFilter lua_key flist tmatch obs text_addr outputRow false).

Definition put_row (st : sel_t R) (k : Z) : sel_t R :=
  Sel (sel_out st ++ [text k]) (sel_ll st) (CurrCard st + 1) (CurrUpdated st).

Lemma select_follows : follows pktyp rows sel_op false (passes val flist) put_row.
Proof.
  intros st k card [r Hk]. rewrite Hk. cbn [default]. change (id r) with r. unfold select_op.
  rewrite (check_ok val flist k r Hf Hk). cbn [mbind option_bind]. destruct (passes val flist k); [|done].
  rewrite (Ho k r Hk). done.
Qed.
Lemma put_rows ks : forall st, foldl put_row st ks =
  Sel (sel_out st ++ (text <$> ks)) (sel_ll st) (CurrCard st + count ks) (CurrUpdated st).
Proof.
  induction ks as [|k ks IH]; intros st; cbn [foldl fmap list_fmap length].
  - destruct st. cbn. by rewrite app_nil_r, Z.add_0_r.
  - rewrite IH. cbn [put_row sel_out sel_ll CurrCard CurrUpdated]. rewrite <- app_assoc. f_equal. lia.
Qed.

(** A SELECT that need not sort. *)
Lemma select_rows_ok `{QSort} w wb ri uv which qcols lim spec : w_flist w = flist -> q_qed (setQueued w (Some ri) wb) = false ->
  Visits byte_at pktyp tb h rows (Stmt qcols 0 false false) w wb (setQueued w (Some ri) wb) ri uv which lim spec ->
  exists ks, spec ks /\
    iselectAction getcol pktyp tb byte_at runLuaFilter lua_key tmatch obs text_addr w wb ri uv which outputRow qcols false h =
    Some (R_ROWS (count (kept lim 0 (passes val flist) ks)) (text <$> kept lim 0 (passes val flist) ks)).
Proof.
  intros Hw Hq Hv.
  assert (Hfo : follows pktyp rows sel_op (q_qed (setQueued w (Some ri) wb)) (passes val flist) put_row)
    by (rewrite Hq; apply select_follows).
  unfold iselectAction. rewrite Hw.
  destruct (Hv _ _ _ _ (Sel [] [] 0 0) Hfo) as (ks & w' & Hs & ->). exists ks. split; [done|].
  cbn [mbind option_bind wk_card wk_st]. rewrite put_rows. set (K := kept lim 0 (passes val flist) ks).
  cbn [sel_out sel_ll CurrCard CurrUpdated app Z.add]. rewrite (proj2 (Z.eqb_neq _ (-1))) by lia. rewrite Hq.
  cbn [Z.eqb negb andb]. rewrite andb_false_r. destruct (Z.eqb_spec (count K) 0) as [E|E]; cbn [negb mbind option_bind].
  - rewrite E. by rewrite andb_false_r.
  - rewrite Z.ltb_irrefl. by rewrite andb_false_r.
Qed.

(** *** With a sort *)

(** The keys of the ORDER BY columns of a row. *)
Context (okeys : Z -> list obkey).
#[local] Abbreviation cols := (ob_globals obs).
Definition keys_read : Prop := forall k r, rows !! k = Some r ->
  assign_keys getcol lua_key text_addr obs (pk k) r = Some (Some (okeys k)) /\ Forall2 (fun c key => key_ok c.2 key) cols (okeys k).
Context (Hk : keys_read).

(** What is queued of a row. *)
Definition queued_row {A} (what : Z -> A) (k : Z) : obsl_t A := Obsl (Some (what k)) (okeys k) (Some (pk k)) None false None false.
Definition queue_row (st : sel_t R) (k : Z) : sel_t R :=
  Sel (sel_out st) (sel_ll st ++ [queued_row text k]) (CurrCard st + 1) (CurrUpdated st).

Lemma queue_ok {A} (what : Z -> A) k r ll : rows !! k = Some r ->
  addRow2OBList getcol lua_key obs text_addr ll (what k) (pk k) r = Some (ll ++ [queued_row what k], true).
Proof.
  intros Hr. unfold addRow2OBList. rewrite (proj1 (Hk k r Hr)). cbn [mbind option_bind]. by rewrite clone_pk.
Qed.
Lemma select_queues : follows pktyp rows sel_op true (passes val flist) queue_row.
Proof.
  intros st k card [r Hr]. rewrite Hr. cbn [default]. change (id r) with r. unfold select_op.
  rewrite (check_ok val flist k r Hf Hr). cbn [mbind option_bind]. destruct (passes val flist k); [|done].
  rewrite (Ho k r Hr). cbn [mbind option_bind]. by rewrite (queue_ok text k r _ Hr).
Qed.
Lemma queue_rows ks : forall st, foldl queue_row st ks =
  Sel (sel_out st) (sel_ll st ++ (queued_row text <$> ks)) (CurrCard st + count ks) (CurrUpdated st).
Proof.
  induction ks as [|k ks IH]; intros st; cbn [foldl fmap list_fmap length].
  - destruct st. cbn. by rewrite app_nil_r, Z.add_0_r.
  - rewrite IH. cbn [queue_row sel_out sel_ll CurrCard CurrUpdated]. rewrite <- app_assoc. f_equal. lia.
Qed.

(** Keys in the order of an ORDER BY. *)
Definition ordered_by (ks : list Z) : Prop :=
  StronglySorted (fun k1 k2 => lex cols (kval <$> okeys k1) (kval <$> okeys k2) <= 0) ks.

Lemma sort_keys `{QSortLaws} {A} (what : Z -> A) ks : Forall (fun k => is_Some (rows !! k)) ks ->
  exists v, sortOB2Vector cols (queued_row what <$> ks) = Some (queued_row what <$> v) /\ Permutation v ks /\ ordered_by v.
Proof.
  intros Hks. assert (Hok : Forall (OrderBy.row_ok cols) (queued_row what <$> ks)).
  { apply Forall_fmap. eapply Forall_impl; [exact Hks|]. intros k [r Hr]. apply (Hk k r Hr). }
  destruct (sort_ok cols _ Hok) as (v & E & Hp & Hs).
  apply Permutation_map_inv in Hp as (ks' & -> & Hp). exists ks'. split; [exact E|]. split; [by symmetry|].
  unfold ordered_by. clear -Hs. induction ks' as [|k ks' IH]; [constructor|].
  apply StronglySorted_inv in Hs as [Hs HF]. constructor; [by apply IH|]. by apply (Forall_fmap (queued_row what)) in HF.
Qed.

Lemma sort_loop_ok lim v : (lim = -1 \/ 0 <= lim) -> forall ofst sent out, 0 <= sent -> (lim = -1 \/ sent <= lim) ->
  opSelectSort_loop lim (queued_row text <$> v) ofst sent out =
  Some (out ++ (text <$> slice_from lim ofst sent v), sent + count (slice_from lim ofst sent v)).
Proof.
  intros Hlim. induction v as [|k v IH]; intros ofst sent out Hs Hl.
  - rewrite slice_nil. cbn. by rewrite app_nil_r, Z.add_0_r.
  - rewrite slice_cons by done. rewrite fmap_cons. cbn [opSelectSort_loop].
    destruct (negb (lim =? -1) && (sent =? lim)) eqn:E; [cbn; by rewrite app_nil_r, Z.add_0_r|].
    destruct (0 <? ofst); [by apply IH|]. cbn [ob_row queued_row mbind option_bind].
    rewrite IH by lia. rewrite fmap_cons, <- app_assoc. cbn [length app]. do 2 f_equal. lia.
Qed.

(** A SELECT that sorts. *)
Lemma select_sorted_ok `{QSortLaws} w wb ri uv which qcols spec : w_flist w = flist -> q_qed (setQueued w (Some ri) wb) = true ->
  (wb_lim wb = -1 /\ wb_ofst wb = -1 \/ 0 <= wb_lim wb) ->
  Visits byte_at pktyp tb h rows (Stmt qcols 0 false false) w wb (setQueued w (Some ri) wb) ri uv which None spec ->
  (forall ks, spec ks -> forall k, k ∈ ks -> is_Some (rows !! k)) ->
  exists ks v, spec ks /\ Permutation v (kept None 0 (passes val flist) ks) /\ ordered_by v /\
    iselectAction getcol pktyp tb byte_at runLuaFilter lua_key tmatch obs text_addr w wb ri uv which outputRow qcols false h =
    Some (R_ROWS (count (slice wb v)) (text <$> slice wb v)).
Proof.
  intros Hw Hq Hlim Hv Hspec.
  assert (Hfo : follows pktyp rows sel_op (q_qed (setQueued w (Some ri) wb)) (passes val flist) queue_row)
    by (rewrite Hq; apply select_queues).
  unfold iselectAction. rewrite Hw. destruct (Hv _ _ _ _ (Sel [] [] 0 0) Hfo) as (ks & w' & Hs & ->). exists ks.
  cbn [mbind option_bind wk_card wk_st]. rewrite queue_rows. set (K := kept None 0 (passes val flist) ks).
  cbn [sel_out sel_ll CurrCard CurrUpdated app Z.add]. rewrite (proj2 (Z.eqb_neq _ (-1))) by lia. rewrite Hq.
  assert (HK : Forall (fun k => is_Some (rows !! k)) K).
  { apply Forall_forall. intros k Hin. apply (Hspec ks Hs). by apply (kept_in _ _ _ _ _ Hin). }
  destruct (sort_keys text K HK) as (v & Esort & Hp & Ho'). exists v. split; [done|]. split; [done|]. split; [done|].
  cbn [Z.eqb negb]. rewrite andb_false_r. assert (Hlen : length v = length K) by (by rewrite Hp).
  destruct (Z.eqb_spec (count K) 0) as [E|E]; cbn [negb mbind option_bind].
  - assert (v = []) as -> by (apply nil_length_inv; lia). unfold slice. rewrite slice_nil, E. cbn. by rewrite andb_false_r.
  - unfold opSelectSort. rewrite Esort. cbn [mbind option_bind]. rewrite sort_loop_ok by lia. fold (slice wb v). rewrite Z.add_0_l.
    cbn [mbind option_bind]. pose proof (sublist_length _ _ (slice_sublist (wb_lim wb) (wb_ofst wb) 0 v)) as Hsub. fold (slice wb v) in Hsub.
    destruct (Z.eqb_spec (wb_lim wb) (-1)) as [El|El]; cbn [negb andb].
    + destruct Hlim as [[E1 E2]|?]; [|lia]. unfold slice, slice_from. rewrite E1, E2. cbn [Z.eqb Pos.eqb drop Z.to_nat].
      by rewrite drop_0, Hlen.
    + destruct (Z.ltb_spec (count (slice wb v)) (count K)); [done|]. by replace (count K) with (count (slice wb v)) by lia.
Qed.
End Select.
End Statements.

(** ** DELETE *)

(** The rows of a table but those of some keys. *)
Definition without (K : list Z) (rows : gmap Z cptr) : gmap Z cptr := filter (fun p => p.1 ∉ K) rows.

Lemma without_nil rows : without [] rows = rows.
Proof. apply map_filter_id. intros k r _. cbn. apply not_elem_of_nil. Qed.
Lemma without_cons k K rows : without (k :: K) rows = without K (delete k rows).
Proof.
  apply map_eq. intros j. unfold without. apply option_eq. intros r. rewrite !map_lookup_filter_Some, lookup_delete_Some. cbn.
  rewrite not_elem_of_cons. split; [intros (? & ? & ?)|intros ((? & ?) & ?)]; split_and!; (done || congruence).
Qed.
Lemma without_ext K1 K2 rows : (forall k, k ∈ K1 <-> k ∈ K2) -> without K1 rows = without K2 rows.
Proof. intros HK. apply map_filter_ext. intros k r _. cbn. by rewrite HK. Qed.

Section Delete.
Context `{MallocLaws} `{QSort} (floor_log2 : Z -> Z) (luatAdd luatDel : r_ind_t -> aobj -> cptr -> heap -> heap).
Context (getcol : Z -> aobj -> cptr -> option aobj) (pktyp : Z) (coltype : Z -> Z) (Hpk : C_IS_NUM pktyp = true).
Context (ta : bt_args) (Hta : lawful ta) (Hkt : ktype (a_spec ta) = pktyp) (tb : Z) (byte_at : Z -> Z).
Context (runLuaFilter : lue_t -> aobj -> cptr -> bool * bool) (lua_key : aobj -> cptr -> Z -> option Z).
Context (tmatch : Z) (obs : list (bool * Z * Z * bool)) (text_addr : cptr -> Z -> Z).
#[local] Abbreviation pk k := (pk_obj pktyp k).
#[local] Abbreviation index := (index_impl floor_log2 luatAdd luatDel getcol pktyp coltype).
#[local] Abbreviation ri_of := (ii_ri floor_log2 luatAdd luatDel getcol pktyp coltype).
#[local] Abbreviation consistent := (db_ok floor_log2 luatAdd luatDel getcol pktyp coltype ta tb byte_at).
#[local] Abbreviation removes := (removable floor_log2 luatAdd luatDel getcol pktyp coltype ta).
#[local] Abbreviation del_keys := (delete_keys floor_log2 luatDel getcol ta tb byte_at).

Lemma delete_keys_ok (ids : list index) K : removes ids -> forall h rows sent, consistent h rows ids -> roomy rows -> NoDup K ->
  (forall k, k ∈ K -> is_Some (rows !! k)) ->
  exists h', del_keys h (ri_of <$> ids) ((fun k => pk k) <$> K) sent = Some (h', sent + count K) /\ consistent h' (without K rows) ids.
Proof.
  intros Hrem. induction K as [|k K IH]; intros h rows sent Hc Hr Hnd HK.
  - exists h. rewrite without_nil. cbn. rewrite Z.add_0_r. by split.
  - apply NoDup_cons in Hnd as [Hk Hnd]. destruct (HK k ltac:(by left)) as [r Hrow].
    destruct (row_delete_ok floor_log2 luatAdd luatDel getcol pktyp coltype ta Hta Hkt tb byte_at h rows ids k r Hpk Hrem Hc Hr Hrow)
      as (h1 & E & Hc1 & _).
    destruct (IH h1 (delete k rows) (sent + 1) Hc1) as (h2 & E2 & Hc2); [|done| |].
    { unfold roomy in *. rewrite map_size_delete, Hrow. unfold id. lia. }
    { intros j Hj. rewrite lookup_delete_ne; [apply HK; by right|]. by intros ->. }
    exists h2. rewrite without_cons. split; [|done]. rewrite (fmap_cons (fun k => pk k)). cbn [delete_keys length].
    rewrite E. cbn [mbind option_bind Z.eqb Pos.eqb]. rewrite E2. do 2 f_equal. lia.
Qed.

Context (val : Z -> Z -> Z).
Definition put_key (asc : bool) (st : keys_t) (k : Z) : keys_t :=
  Keys (if asc then pk k :: ks_ll st else ks_ll st ++ [pk k]) (ks_ob st).
Lemma delete_follows rows flist asc : filters_read getcol pktyp tmatch rows val flist ->
  follows pktyp rows (dellist_op getcol runLuaFilter lua_key flist tmatch obs text_addr asc) false (passes tmatch val flist) (put_key asc).
Proof.
  intros Hf st k card [r Hk]. rewrite Hk. cbn [default]. change (id r) with r. unfold dellist_op.
  rewrite (check_ok getcol pktyp runLuaFilter tmatch rows val flist k r Hf Hk). cbn [mbind option_bind].
  destruct (passes tmatch val flist k); [|done]. by rewrite clone_pk.
Qed.
Lemma put_keys asc K : forall st, foldl (put_key asc) st K =
  Keys (if asc then reverse ((fun k => pk k) <$> K) ++ ks_ll st else ks_ll st ++ ((fun k => pk k) <$> K)) (ks_ob st).
Proof.
  induction K as [|k K IH]; intros st; cbn [foldl].
  - destruct st, asc; cbn; [done|by rewrite app_nil_r].
  - rewrite IH. unfold put_key. cbn [ks_ll ks_ob]. rewrite fmap_cons. destruct asc; [|by rewrite <- app_assoc].
    by rewrite reverse_cons, <- app_assoc.
Qed.

(** A DELETE that need not sort. *)
Lemma delete_rows_ok h rows (ids : list index) w wb ri uv which lim spec : removes ids -> consistent h rows ids -> roomy rows ->
  filters_read getcol pktyp tmatch rows val (w_flist w) -> q_qed (setQueued w (Some ri) wb) = false ->
  Visits byte_at pktyp tb h rows (Stmt 0 0 false false) w wb (setQueued w (Some ri) wb) ri uv which lim spec ->
  (forall ks, spec ks -> NoDup ks /\ forall k, k ∈ ks -> is_Some (rows !! k)) ->
  exists ks h', spec ks /\
    ideleteAction floor_log2 luatDel getcol pktyp ta tb byte_at runLuaFilter lua_key tmatch obs text_addr w wb ri uv which h (ri_of <$> ids) =
      Some (h', count (kept lim 0 (passes tmatch val (w_flist w)) ks)) /\
    consistent h' (without (kept lim 0 (passes tmatch val (w_flist w)) ks) rows) ids.
Proof.
  intros Hrem Hc Hr Hf Hq Hv Hspec. unfold ideleteAction. set (asc := last_asc w wb ri).
  assert (Hfo : follows pktyp rows (dellist_op getcol runLuaFilter lua_key (w_flist w) tmatch obs text_addr asc)
    (q_qed (setQueued w (Some ri) wb)) (passes tmatch val (w_flist w)) (put_key asc)) by (rewrite Hq; by apply delete_follows).
  destruct (Hv _ _ _ _ (Keys [] []) Hfo) as (ks & w' & Hs & ->). exists ks. cbn [mbind option_bind wk_card wk_st].
  set (K := kept lim 0 (passes tmatch val (w_flist w)) ks). rewrite put_keys, Hq. cbn [ks_ll ks_ob app].
  destruct (Z.leb_spec (count K) 0) as [E|E].
  - exists h. split_and!; [done|done|]. assert (K = []) as -> by (destruct K; [done|cbn in E; lia]). by rewrite without_nil.
  - destruct (Hspec ks Hs) as [Hnd Hin].
    assert (HK : NoDup K /\ forall k, k ∈ K -> is_Some (rows !! k)).
    { split; [by apply kept_nodup|]. intros k Hk. by apply Hin, (kept_in _ _ _ _ _ Hk). }
    assert (Hl : (if asc then reverse ((fun k => pk k) <$> K) ++ [] else (fun k => pk k) <$> K) =
      (fun k => pk k) <$> (if asc then reverse K else K)) by (destruct asc; [by rewrite app_nil_r, fmap_reverse|done]).
    rewrite Hl. destruct (delete_keys_ok ids (if asc then reverse K else K) Hrem h rows 0 Hc Hr) as (h' & -> & Hc').
    { destruct asc; [|apply HK]. rewrite reverse_Permutation. apply HK. }
    { intros k Hk. apply HK. destruct asc; [by apply elem_of_reverse|done]. }
    exists h'. cbn [mbind option_bind]. split; [done|].
    assert (Hlen : count (if asc then reverse K else K) = count K) by (by destruct asc; rewrite ?length_reverse).
    rewrite Hlen, Z.add_0_l, Z.ltb_irrefl. split; [done|].
    rewrite (without_ext K (if asc then reverse K else K)); [done|]. intros k. destruct asc; [by rewrite elem_of_reverse|done].
Qed.

(** *** With a sort *)
Context (okeys : Z -> list obkey).
#[local] Abbreviation queued := (queued_row pktyp okeys (fun k => pk k)).
Definition queue_key (st : keys_t) (k : Z) : keys_t := Keys (ks_ll st) (ks_ob st ++ [queued k]).

Lemma delete_queues rows flist asc : filters_read getcol pktyp tmatch rows val flist ->
  keys_read getcol pktyp lua_key obs text_addr rows okeys ->
  follows pktyp rows (dellist_op getcol runLuaFilter lua_key flist tmatch obs text_addr asc) true (passes tmatch val flist) queue_key.
Proof.
  intros Hf Hk st k card [r Hr]. rewrite Hr. cbn [default]. change (id r) with r. unfold dellist_op.
  rewrite (check_ok getcol pktyp runLuaFilter tmatch rows val flist k r Hf Hr). cbn [mbind option_bind].
  destruct (passes tmatch val flist k); [|done].
  by rewrite (queue_ok getcol pktyp lua_key obs text_addr rows okeys Hk (fun k => pk k) k r _ Hr).
Qed.
Lemma queue_keys K : forall st, foldl queue_key st K = Keys (ks_ll st) (ks_ob st ++ (queued <$> K)).
Proof.
  induction K as [|k K IH]; intros st; cbn [foldl]; [destruct st; cbn; by rewrite app_nil_r|].
  rewrite IH. unfold queue_key. cbn [ks_ll ks_ob]. by rewrite fmap_cons, <- app_assoc.
Qed.

Lemma delete_loop_ok (ids : list index) lim v : removes ids -> (lim = -1 \/ 0 <= lim) -> forall h rows ofst sent,
  consistent h rows ids -> roomy rows -> NoDup v -> (forall k, k ∈ v -> is_Some (rows !! k)) -> (lim = -1 \/ sent <= lim) ->
  exists h', opDeleteSort_loop floor_log2 luatDel getcol ta tb byte_at lim h (ri_of <$> ids) (queued <$> v) ofst sent =
      Some (h', sent + count (slice_from lim ofst sent v)) /\ consistent h' (without (slice_from lim ofst sent v) rows) ids.
Proof.
  intros Hrem Hlim. induction v as [|k v IH]; intros h rows ofst sent Hc Hr Hnd Hv Hs.
  - rewrite slice_nil, without_nil. exists h. cbn. by rewrite Z.add_0_r.
  - rewrite slice_cons by done. rewrite fmap_cons. cbn [opDeleteSort_loop]. apply NoDup_cons in Hnd as [Hkv Hnd].
    destruct (negb (lim =? -1) && (sent =? lim)) eqn:E; [exists h; rewrite without_nil; cbn; by rewrite Z.add_0_r|].
    destruct (0 <? ofst); [apply IH; try done; intros j Hj; apply Hv; by right|]. cbn [ob_row queued_row mbind option_bind].
    destruct (Hv k ltac:(by left)) as [r Hrow].
    destruct (row_delete_ok floor_log2 luatAdd luatDel getcol pktyp coltype ta Hta Hkt tb byte_at h rows ids k r Hpk Hrem Hc Hr Hrow)
      as (h1 & E1 & Hc1 & _). rewrite E1. cbn [mbind option_bind Z.eqb Pos.eqb].
    destruct (IH h1 (delete k rows) ofst (sent + 1) Hc1) as (h2 & E2 & Hc2); [|done| |lia|].
    { unfold roomy in *. rewrite map_size_delete, Hrow. unfold id. lia. }
    { intros j Hj. rewrite lookup_delete_ne; [apply Hv; by right|]. by intros ->. }
    exists h2. rewrite E2, without_cons. split; [|done]. cbn [length]. do 2 f_equal. lia.
Qed.

(** A DELETE that sorts: LIMIT and OFFSET count from the end of the order. *)
Lemma delete_sorted_ok `{!QSortLaws} h rows (ids : list index) w wb ri uv which spec : removes ids -> consistent h rows ids -> roomy rows ->
  filters_read getcol pktyp tmatch rows val (w_flist w) -> keys_read getcol pktyp lua_key obs text_addr rows okeys ->
  q_qed (setQueued w (Some ri) wb) = true -> (wb_lim wb = -1 \/ 0 <= wb_lim wb) ->
  Visits byte_at pktyp tb h rows (Stmt 0 0 false false) w wb (setQueued w (Some ri) wb) ri uv which None spec ->
  (forall ks, spec ks -> NoDup ks /\ forall k, k ∈ ks -> is_Some (rows !! k)) ->
  exists ks v h', spec ks /\ Permutation v (kept None 0 (passes tmatch val (w_flist w)) ks) /\ ordered_by obs okeys v /\
    ideleteAction floor_log2 luatDel getcol pktyp ta tb byte_at runLuaFilter lua_key tmatch obs text_addr w wb ri uv which h (ri_of <$> ids) =
      Some (h', count (slice wb (reverse v))) /\
    consistent h' (without (slice wb (reverse v)) rows) ids.
Proof.
  intros Hrem Hc Hr Hf Hk Hq Hlim Hv Hspec. unfold ideleteAction. set (asc := last_asc w wb ri).
  assert (Hfo : follows pktyp rows (dellist_op getcol runLuaFilter lua_key (w_flist w) tmatch obs text_addr asc)
    (q_qed (setQueued w (Some ri) wb)) (passes tmatch val (w_flist w)) queue_key) by (rewrite Hq; by apply delete_queues).
  destruct (Hv _ _ _ _ (Keys [] []) Hfo) as (ks & w' & Hs & ->). exists ks. cbn [mbind option_bind wk_card wk_st].
  set (K := kept None 0 (passes tmatch val (w_flist w)) ks). rewrite queue_keys, Hq. cbn [ks_ll ks_ob app].
  destruct (Hspec ks Hs) as [Hnd Hin].
  assert (HK : forall k, k ∈ K -> is_Some (rows !! k)) by (intros k Hk'; by apply Hin, (kept_in _ _ _ _ _ Hk')).
  destruct (sort_keys getcol pktyp lua_key obs text_addr rows okeys Hk (fun k => pk k) K) as (v & Esort & Hp & Hov);
    [by apply Forall_forall|].
  assert (Hlen : count (reverse v) = count K) by (by rewrite length_reverse, Hp).
  destruct (delete_loop_ok ids (wb_lim wb) (reverse v) Hrem Hlim h rows (wb_ofst wb) 0 Hc Hr) as (h' & Eloop & Hc'); [| |lia|].
  { rewrite reverse_Permutation, Hp. by apply kept_nodup. }
  { intros k Hkr. apply HK. by rewrite elem_of_reverse, Hp in Hkr. }
  pose proof (sublist_length _ _ (slice_sublist (wb_lim wb) (wb_ofst wb) 0 (reverse v))) as Hsub.
  destruct (Z.leb_spec (count K) 0) as [E|E].
  - exists v, h. assert (reverse v = []) as Hv0 by (apply nil_length_inv; lia). unfold slice. rewrite Hv0, slice_nil, without_nil.
    replace (count K) with 0 by lia. by split_and!.
  - exists v, h'. split_and!; try done. unfold opDeleteSort. rewrite Esort. cbn [mbind option_bind].
    rewrite <- fmap_reverse, Eloop. cbn [mbind option_bind]. rewrite Z.add_0_l. fold (slice wb (reverse v)) in Hsub |- *.
    do 2 f_equal. destruct (Z.ltb_spec (count (slice wb (reverse v))) (count K)); lia.
Qed.
End Delete.

(** ** The lookups of a database *)

Section Lookups.
Context `{MallocLaws} (floor_log2 : Z -> Z) (luatAdd luatDel : r_ind_t -> aobj -> cptr -> heap -> heap).
Context (getcol : Z -> aobj -> cptr -> option aobj) (pktyp : Z) (coltype : Z -> Z) (Hpk : C_IS_NUM pktyp = true).
Context (ta : bt_args) (Hta : created ta) (Hkt : ktype (a_spec ta) = pktyp) (tb : Z) (byte_at : Z -> Z).
#[local] Abbreviation index := (index_impl floor_log2 luatAdd luatDel getcol pktyp coltype).
#[local] Abbreviation consistent := (db_ok floor_log2 luatAdd luatDel getcol pktyp coltype ta tb byte_at).
#[local] Abbreviation keyed := (keyed1 floor_log2 getcol pktyp).
#[local] Abbreviation plain ri Hs Hu := (plain_index floor_log2 luatAdd luatDel getcol pktyp coltype Hpk ri Hs Hu).

(** A LIMIT, when there is one, is not 0, and what it limits the walk to. *)
Definition lim_ok (wb : wob_t) : Prop := wb_lim wb = -1 \/ 0 < wb_lim wb.
Definition lim_of (wb : wob_t) : option Z := limit (negb (wb_lim wb =? -1)) wb.

Lemma lim_below wb on : lim_ok wb -> (on = true -> wb_lim wb <> -1) -> below_lim (limit on wb) 0 = true.
Proof. intros Hl Ho. unfold limit. destruct on; [|done]. specialize (Ho eq_refl). unfold lim_ok in Hl. cbn. lia. Qed.

Lemma db_rows h rows (ids : list index) : consistent h rows ids ->
  h_holds h tb ta rows /\ (forall k r, rows !! k = Some r -> pk_ok pktyp k /\ NORM_BT (a_spec ta) && ghost_val byte_at r = false) /\
  (forall k, is_Some (rows !! k) -> h_find h tb (pk_obj pktyp k) = Some (default NULL (rows !! k))).
Proof.
  intros [Hfit (L & _ & Hok & _)]. pose proof (idx_table _ _ _ _ _ _ _ _ _ _ _ Hok) as Ht. split_and!; [done| |].
  - intros k r Hk. destruct (Hfit k r Hk) as [Fpk _ [_ Fg] _]. by split.
  - intros k [r Hk]. destruct (Hfit k r Hk) as [Fpk Fs _ _].
    rewrite (h_find_ok ta (created_lawful ta Hta) h tb rows (pk_obj pktyp k) Ht Fs). unfold obj_value. rewrite Hkt.
    fold (val_of pktyp (pk_obj pktyp k)). by rewrite (proj2 (pk_obj_ok pktyp k Hpk Fpk)).
Qed.

(** The pairs of an index of the database. *)
Lemma db_index h rows (ids : list index) ri Hs Hu : consistent h rows ids -> plain ri Hs Hu ∈ ids ->
  exists node A fp E, createIndexNode pktyp COL_TYPE_NONE = Some node /\ rep1 ri node A h fp E /\ (size E <= size rows)%nat /\
    forall w k, (w, k) ∈ E <-> exists r, rows !! k = Some r /\ keyed ri k r (Some w).
Proof.
  intros [_ (L & <- & (fps & [_ Hlen Hrep _]) & Hinv)] Hin. apply list_elem_of_fmap in Hin as ([i E] & Hi & HL). cbn in Hi. subst i.
  pose proof (proj1 (Forall_forall _ _) Hinv _ HL) as HE. cbn in HE.
  apply list_elem_of_lookup in HL as [n HL]. destruct (lookup_lt_is_Some_2 fps n) as [fp Hf].
  { rewrite Hlen. by apply lookup_lt_Some in HL. }
  destruct (Hrep n _ E fp HL Hf) as [(node & A & Hn & R) _]. exists node, A, fp, E. split_and!; [done|done| |exact HE].
  exact (inverts_size _ _ _ _ _ _ _ _ _ HE).
Qed.

(** By the primary key: an ORDER BY that needs a sort, or none, and an OFFSET only
    with filters. *)
Lemma by_key h rows (ids : list index) g w wb ri uv which : let q := setQueued w (Some ri) wb in
  consistent h rows ids -> roomy rows -> 0 <= which < MAX_NUM_ITERS -> searchable ta (w_alow w) -> w_type w = SQL_RANGE_LKP ->
  ri_virt ri = true -> w_inl w = None -> lim_ok wb -> q_xth q = false -> q_pk_desc q = false ->
  Visits byte_at pktyp tb h rows g w wb q ri uv which (limit (q_pk_lim q) wb)
    (pk_spec rows (obj_value (a_spec ta) (w_alow w)) (obj_value (a_spec ta) (w_ahigh w))).
Proof.
  intros q Hc Hr Hw Hlow Ht Hv Hin Hl Hx Hd. destruct (db_rows h rows ids Hc) as (Hh & Hrows & _).
  assert (Hq : q_pk_lim q = negb (q_pk q) && negb (wb_lim wb =? -1) /\ q_pk_lo q = q_pk_lim q && negb (wb_ofst wb =? -1)).
  { unfold q, setQueued, setRangeQueued. by rewrite Hin, Hv. }
  destruct Hq as [Hq1 Hq2]. apply pk_visits; try done.
  - by apply created_lawful.
  - by apply created_flag.
  - unfold roomy in Hr. lia.
  - intros k r Hk. by apply (Hrows k r).
  - rewrite Hq2. by destruct (q_pk_lim q), (wb_ofst wb =? -1).
  - apply lim_below; [done|]. rewrite Hq1. intros [_ E]%andb_true_iff. by apply negb_true_iff, Z.eqb_neq in E.
Qed.

(** By the values of an index, a range of them or one. *)
Inductive by_values (w : cswc_t) (ri : r_ind_t) (which : Z) : Z -> Z -> Prop :=
| values_range : w_type w = SQL_RANGE_LKP -> searchable (createIndexBT (ri_dtype ri) (ri_num ri)) (w_alow w) ->
    0 <= which -> which + 1 < MAX_NUM_ITERS ->
    by_values w ri which (val_of (ri_dtype ri) (w_alow w)) (val_of (ri_dtype ri) (w_ahigh w))
| values_one : w_type w = SQL_SINGLE_FK_LKP -> searchable (createIndexBT (ri_dtype ri) (ri_num ri)) (w_akey w) ->
    0 <= which < MAX_NUM_ITERS -> by_values w ri which (val_of (ri_dtype ri) (w_akey w)) (val_of (ri_dtype ri) (w_akey w)).

(** The keys of the rows with a value between two, by value and then by key. *)
Definition rows_by_value (rows : gmap Z cptr) (ri : r_ind_t) (desc : bool) (lo hi : Z) (ks : list Z) : Prop :=
  exists ps : list (Z * Z), ks = ps.*2 /\ StronglySorted (pair_lt desc) ps /\
    forall v k, (v, k) ∈ ps <-> lo <= v <= hi /\ exists r, rows !! k = Some r /\ keyed ri k r (Some [v]).

Lemma by_index h rows (ids : list index) g w wb ri Hs Hu uv which lo hi : let q := setQueued w (Some ri) wb in
  consistent h rows ids -> roomy rows -> plain ri Hs Hu ∈ ids -> by_values w ri which lo hi ->
  w_klist w = None -> w_inl w = None -> g_cstar g && Filter.absent (w_flist w) = false -> lim_ok wb -> wb_ofst wb = -1 ->
  q_fk_desc q = false ->
  Visits byte_at pktyp tb h rows g w wb q ri uv which (limit (q_fk_lim q) wb) (rows_by_value rows ri (q_inr_desc q) lo hi).
Proof.
  intros q Hc Hr Hin Hby Hkl Hinl Hcs Hl Ho Hd. destruct (db_rows h rows ids Hc) as (Hh & Hrows & Hfind).
  destruct (db_index h rows ids ri Hs Hu Hc Hin) as (node & A & fp & E & Hn & R & HszE & HE).
  assert (Hsz : Z.of_nat (size E) < 2 ^ 32) by (unfold roomy in Hr; lia).
  assert (Hpairs : forall v k, ([v], k) ∈ E -> pk_ok pktyp k /\ is_Some (rows !! k)).
  { intros v k (r & Hk & _)%HE. split; [by apply (Hrows k r)|by exists r]. }
  assert (Hq : q_fk_lim q = negb (q_fk q) && negb (wb_lim wb =? -1) /\ q_fk_lo q = false /\ q_xth q = false).
  { pose proof (sg_plain ri Hs) as [Hv _]%orb_false_iff. unfold q, setQueued, setRangeQueued. rewrite Hinl, Hv, Ho.
    cbn [q_fk_lim q_fk q_fk_lo q_xth Z.eqb Pos.eqb negb]. by rewrite !andb_false_r. }
  destruct Hq as (Hq1 & Hq2 & Hq3).
  assert (Hb : below_lim (limit (q_fk_lim q) wb) 0 = true).
  { apply lim_below; [done|]. rewrite Hq1. intros [_ E']%andb_true_iff. by apply negb_true_iff, Z.eqb_neq in E'. }
  assert (Hspec : forall a b ks, fk_spec (q_inr_desc q) E a b ks -> rows_by_value rows ri (q_inr_desc q) a b ks).
  { intros a b ks (ps & -> & Hps & Hi). exists ps. split_and!; [done..|]. intros v k. by rewrite Hi, HE. }
  destruct Hby as [Ht Hse Hw1 Hw2|Ht Hse Hw]; intros T p pass f st Hp.
  - destruct (fk_visits byte_at pktyp tb h rows g w wb q ri uv which node A fp E Hpk Hfind Hn R Hsz Hpairs Hs Hu Hw1 Hw2 Hse Ht Hkl Hcs Ho Hq2 Hq3 Hd Hb
      T p pass f st Hp) as (ks & w' & Hks & E'). exists ks, w'. split; [by apply Hspec|done].
  - destruct (fk_single_visits byte_at pktyp tb h rows g w wb q ri uv which node A fp E Hpk Hfind Hn R Hsz Hpairs Hs Hu Hw Hse Ht Hkl Hcs Ho Hq2 Hq3 Hb
      T p pass f st Hp) as (ks & w' & Hks & E'). exists ks, w'. split; [by apply Hspec|done].
Qed.

(** What the walks visit is rows of the table, each once. *)
Lemma pk_spec_rows (rows : gmap Z cptr) lo hi ks : pk_spec rows lo hi ks -> NoDup ks /\ forall k, k ∈ ks -> is_Some (rows !! k).
Proof. intros [Hs Hin]. split; [by apply sorted_nodup|]. intros k Hk. by apply Hin in Hk as [_ ?]. Qed.
Lemma by_value_rows (rows : gmap Z cptr) ri desc lo hi ks : rows_by_value rows ri desc lo hi ks ->
  NoDup ks /\ forall k, k ∈ ks -> is_Some (rows !! k).
Proof.
  intros (ps & -> & Hs & Hin). split.
  - assert (Hf : forall v1 v2 k, (v1, k) ∈ ps -> (v2, k) ∈ ps -> v1 = v2).
    { intros v1 v2 k (_ & r1 & H1 & K1)%Hin (_ & r2 & H2 & K2)%Hin. assert (r2 = r1) as -> by congruence.
      assert (Some [v1] = Some [v2]) as [=] by (by apply (keyed1_fun floor_log2 getcol pktyp ri k r1)). done. }
    clear -Hs Hf. induction Hs as [|[v k] ps Hs IH HF]; cbn; constructor.
    + intros ([v' k'] & Hk & Hin)%list_elem_of_fmap. cbn in Hk. subst k'. rewrite Forall_forall in HF. specialize (HF _ Hin).
      assert (v' = v) as -> by (apply (Hf v' v k); [by right|by left]). destruct HF as [HF|[_ HF]]; cbn in HF; [lia|destruct (negb desc); lia].
    + apply IH. intros v1 v2 k0 H1 H2. apply (Hf v1 v2 k0); by right.
  - intros k ([v k'] & -> & Hk)%list_elem_of_fmap. apply Hin in Hk as (_ & r & Hr & _). by exists r.
Qed.
End Lookups.

(** ** Properties *)

Section Claims.
Context `{MallocLaws} `{QSortLaws} (floor_log2 : Z -> Z) (luatAdd luatDel : r_ind_t -> aobj -> cptr -> heap -> heap).
Context (getcol : Z -> aobj -> cptr -> option aobj) (pktyp : Z) (coltype : Z -> Z) (Hpk : C_IS_NUM pktyp = true).
Context (ta : bt_args) (Hta : created ta) (Hkt : ktype (a_spec ta) = pktyp) (tb : Z) (byte_at : Z -> Z).
Context (runLuaFilter : lue_t -> aobj -> cptr -> bool * bool) (lua_key : aobj -> cptr -> Z -> option Z).
Context (tmatch : Z) (obs : list (bool * Z * Z * bool)) (text_addr : cptr -> Z -> Z).
#[local] Abbreviation index := (index_impl floor_log2 luatAdd luatDel getcol pktyp coltype).
#[local] Abbreviation ri_of := (ii_ri floor_log2 luatAdd luatDel getcol pktyp coltype).
#[local] Abbreviation consistent := (db_ok floor_log2 luatAdd luatDel getcol pktyp coltype ta tb byte_at).
#[local] Abbreviation plain ri Hs Hu := (plain_index floor_log2 luatAdd luatDel getcol pktyp coltype Hpk ri Hs Hu).
#[local] Abbreviation reads := (filters_read getcol pktyp tmatch).
#[local] Abbreviation pass val w := (passes tmatch val (w_flist w)).
#[local] Abbreviation select := (iselectAction getcol pktyp tb byte_at runLuaFilter lua_key tmatch obs text_addr).
#[local] Abbreviation removes := (removable floor_log2 luatAdd luatDel getcol pktyp coltype ta).
#[local] Abbreviation remove := (ideleteAction floor_log2 luatDel getcol pktyp ta tb byte_at runLuaFilter lua_key tmatch obs text_addr).
#[local] Abbreviation in_value_order := (rows_by_value floor_log2 getcol pktyp).

Lemma lim_key w wb ri : w_inl w = None -> ri_virt ri = true -> q_qed (setQueued w (Some ri) wb) = false ->
  limit (q_pk_lim (setQueued w (Some ri) wb)) wb = lim_of wb.
Proof.
  unfold setQueued, setRangeQueued, lim_of. intros -> ->. cbn [q_qed q_pk_lim]. by intros ->.
Qed.
Lemma lim_key_sorted w wb ri : w_inl w = None -> ri_virt ri = true -> q_qed (setQueued w (Some ri) wb) = true ->
  limit (q_pk_lim (setQueued w (Some ri) wb)) wb = None.
Proof. unfold setQueued, setRangeQueued. intros -> ->. cbn [q_qed q_pk_lim]. by intros ->. Qed.
Lemma lim_value w wb ri : w_inl w = None -> ri_virt ri = false -> q_qed (setQueued w (Some ri) wb) = false ->
  limit (q_fk_lim (setQueued w (Some ri) wb)) wb = lim_of wb.
Proof. unfold setQueued, setRangeQueued, lim_of. intros -> ->. cbn [q_qed q_fk_lim]. by intros ->. Qed.

(** C8: A SELECT by a range of values of an index, or by one value, gives the rows
    of the table with a value in the range that pass the filters, in the order of
    the value and, for the same value, of the key, up to the LIMIT. *)
Theorem select_by_index {R} (ids : list index) h rows w wb ri Hs Hu uv which lo hi val (text : Z -> R) outputRow qcols :
  consistent h rows ids -> roomy rows -> plain ri Hs Hu ∈ ids -> by_values w ri which lo hi ->
  w_klist w = None -> w_inl w = None -> lim_ok wb -> wb_ofst wb = -1 ->
  let q := setQueued w (Some ri) wb in q_qed q = false -> q_fk_desc q = false ->
  reads rows val (w_flist w) -> (forall k r, rows !! k = Some r -> outputRow (pk_obj pktyp k) r = Some (OR_NONE, text k)) ->
  exists ks, in_value_order rows ri (q_inr_desc q) lo hi ks /\
    let K := kept (lim_of wb) 0 (pass val w) ks in
    select w wb ri uv which outputRow qcols false h = Some (R_ROWS (count K) (text <$> K)).
Proof.
  intros Hc Hr Hin Hby Hkl Hinl Hl Ho q Hq Hd Hf Htext. pose proof (sg_plain ri Hs) as [Hv _]%orb_false_iff.
  rewrite <- (lim_value w wb ri Hinl Hv Hq).
  eapply select_rows_ok; [done|done|done|done|].
  exact (by_index floor_log2 luatAdd luatDel getcol pktyp coltype Hpk ta Hta Hkt tb byte_at h rows ids (Stmt qcols 0 false false) w wb ri Hs Hu
    uv which lo hi Hc Hr Hin Hby Hkl Hinl eq_refl Hl Ho Hd).
Qed.

(** C9: A DELETE by the values of an index removes from the table the rows with a
    value in the range that pass the filters, the first ones up to the LIMIT, and
    keeps every index of the table consistent with the rows that stay.  (From a
    table and indexes from which keys can be removed: the key of the table is an
    INT or a LONG, the index having no UNIQUE.) *)
Theorem delete_by_index (ids : list index) h rows w wb ri Hs Hu uv which lo hi val :
  removes ids -> consistent h rows ids -> roomy rows -> plain ri Hs Hu ∈ ids -> by_values w ri which lo hi ->
  w_klist w = None -> w_inl w = None -> lim_ok wb -> wb_ofst wb = -1 ->
  let q := setQueued w (Some ri) wb in q_qed q = false -> q_fk_desc q = false -> reads rows val (w_flist w) ->
  exists ks h', in_value_order rows ri (q_inr_desc q) lo hi ks /\
    let K := kept (lim_of wb) 0 (pass val w) ks in
    remove w wb ri uv which h (ri_of <$> ids) = Some (h', count K) /\ consistent h' (without K rows) ids.
Proof.
  intros Hrem Hc Hr Hin Hby Hkl Hinl Hl Ho q Hq Hd Hf. pose proof (sg_plain ri Hs) as [Hv _]%orb_false_iff.
  rewrite <- (lim_value w wb ri Hinl Hv Hq).
  eapply (delete_rows_ok floor_log2 luatAdd luatDel getcol pktyp coltype Hpk ta (created_lawful ta Hta) Hkt); try done.
  - exact (by_index floor_log2 luatAdd luatDel getcol pktyp coltype Hpk ta Hta Hkt tb byte_at h rows ids (Stmt 0 0 false false) w wb ri Hs Hu
      uv which lo hi Hc Hr Hin Hby Hkl Hinl eq_refl Hl Ho Hd).
  - intros ks. apply by_value_rows.
Qed.

(** C12: A SELECT by a range of the primary key with an ORDER BY that needs a sort
    gives the rows in the range that pass the filters in the order of the ORDER
    BY, from the OFFSET on and up to the LIMIT. *)
Theorem select_sorted {R} (ids : list index) h rows w wb ri uv which val (text : Z -> R) outputRow qcols okeys :
  consistent h rows ids -> roomy rows -> 0 <= which < MAX_NUM_ITERS -> searchable ta (w_alow w) -> w_type w = SQL_RANGE_LKP ->
  ri_virt ri = true -> w_inl w = None -> wb_lim wb = -1 /\ wb_ofst wb = -1 \/ 0 < wb_lim wb ->
  let q := setQueued w (Some ri) wb in q_qed q = true -> q_pk_desc q = false ->
  reads rows val (w_flist w) -> (forall k r, rows !! k = Some r -> outputRow (pk_obj pktyp k) r = Some (OR_NONE, text k)) ->
  keys_read getcol pktyp lua_key obs text_addr rows okeys ->
  exists ks v, pk_spec rows (obj_value (a_spec ta) (w_alow w)) (obj_value (a_spec ta) (w_ahigh w)) ks /\
    Permutation v (filter (fun k => pass val w k = true) ks) /\ ordered_by obs okeys v /\
    select w wb ri uv which outputRow qcols false h = Some (R_ROWS (count (slice wb v)) (text <$> slice wb v)).
Proof.
  intros Hc Hr Hw Hlow Ht Hv Hinl Hl q Hq Hd Hf Htext Hk.
  assert (Hx : q_xth q = false).
  { revert Hq. unfold q, setQueued, setRangeQueued. rewrite Hinl, Hv. cbn [q_qed q_xth]. by intros ->. }
  eapply select_sorted_ok; try done; [lia| |intros ks Hks; by apply (pk_spec_rows _ _ _ _ Hks)].
  rewrite <- (lim_key_sorted w wb ri Hinl Hv Hq).
  apply (by_key floor_log2 luatAdd luatDel getcol pktyp coltype Hpk ta Hta Hkt tb byte_at h rows ids); try done.
  unfold lim_ok. lia.
Qed.

(** A DELETE by a range of the primary key with an ORDER BY that needs a sort
    counts its OFFSET and LIMIT from the end of the order: it deletes the last
    rows where a SELECT of the same text shows the first. *)
Theorem delete_sorted_from_end (ids : list index) h rows w wb ri uv which val okeys :
  removes ids -> consistent h rows ids -> roomy rows -> 0 <= which < MAX_NUM_ITERS -> searchable ta (w_alow w) -> w_type w = SQL_RANGE_LKP ->
  ri_virt ri = true -> w_inl w = None -> lim_ok wb ->
  let q := setQueued w (Some ri) wb in q_qed q = true -> q_pk_desc q = false ->
  reads rows val (w_flist w) -> keys_read getcol pktyp lua_key obs text_addr rows okeys ->
  exists ks v h', pk_spec rows (obj_value (a_spec ta) (w_alow w)) (obj_value (a_spec ta) (w_ahigh w)) ks /\
    Permutation v (filter (fun k => pass val w k = true) ks) /\ ordered_by obs okeys v /\
    remove w wb ri uv which h (ri_of <$> ids) = Some (h', count (slice wb (reverse v))) /\
    consistent h' (without (slice wb (reverse v)) rows) ids.
Proof.
  intros Hrem Hc Hr Hw Hlow Ht Hv Hinl Hl q Hq Hd Hf Hk.
  assert (Hx : q_xth q = false).
  { revert Hq. unfold q, setQueued, setRangeQueued. rewrite Hinl, Hv. cbn [q_qed q_xth]. by intros ->. }
  eapply (delete_sorted_ok floor_log2 luatAdd luatDel getcol pktyp coltype Hpk ta (created_lawful ta Hta) Hkt); try done.
  - unfold lim_ok in Hl. lia.
  - rewrite <- (lim_key_sorted w wb ri Hinl Hv Hq).
    by apply (by_key floor_log2 luatAdd luatDel getcol pktyp coltype Hpk ta Hta Hkt tb byte_at h rows ids).
  - intros ks. apply pk_spec_rows.
Qed.

Lemma rangeOpPK_ext {T} (p1 p2 : T -> aobj -> cptr -> bool -> Z -> option (T * bool * Z)) h g w wb1 wb2 q1 q2 which st :
  (forall st apk rrow card loops, pk_op_l p1 wb1 q1 st apk rrow card loops = pk_op_l p2 wb2 q2 st apk rrow card loops) ->
  q_xth q1 = false -> q_xth q2 = false -> q_pk_desc q1 = q_pk_desc q2 -> q_pk_lim q1 = q_pk_lim q2 -> wb_lim wb1 = wb_lim wb2 ->
  rangeOpPK byte_at p1 h tb g w wb1 q1 which st = rangeOpPK byte_at p2 h tb g w wb2 q2 which st.
Proof.
  intros Hop X1 X2 Hd Hl Hw. unfold rangeOpPK. rewrite X1, X2, Hd, Hl, Hw.
  destruct (h !! tb) as [t|]; [|done]. cbn [mbind option_bind].
  destruct (btGetRangeIter _ _ _ _ _ _) as [[used [s|]]|]; [|done..]. cbn [mbind option_bind].
  destruct (empty s); [done|]. destruct (missed s && _); [done|]. unfold scan_tree.
  erewrite (iter_while_ext _ (fun x k m => v ← parseStream (a_spec (h_args t)) (ptr k);
    pk_body p2 g wb2 q2 (btReleaseRangeIterator used (Some s)) x (convertStream2Key (a_spec (h_args t)) (ptr k)) v m)); [done|].
  intros [r loops] k m. destruct (parseStream _ _) as [v|]; [|done]. cbn [mbind option_bind]. unfold pk_body. by rewrite Hop.
Qed.

Lemma offset_queued w ri obc asc lim ofst fl : ri_virt ri = true -> w_inl w = None -> w_flist w = Some fl ->
  let q1 := setQueued w (Some ri) (Wob obc asc lim ofst) in let q2 := setQueued w (Some ri) (Wob obc asc lim (-1)) in
  q_qed q2 = false -> q_qed q1 = false /\ q_pk_lim q1 = q_pk_lim q2 /\ q_pk_desc q1 = q_pk_desc q2 /\
    q_xth q1 = false /\ q_xth q2 = false /\ q_pk_lo q1 = q_pk_lim q1 && negb (ofst =? -1).
Proof.
  unfold setQueued, setRangeQueued, nob, obc_at, asc_at. intros -> -> ->.
  cbn [q_qed q_pk_lim q_pk_desc q_xth q_pk_lo wb_lim wb_ofst wb_obc wb_asc absent negb Z.eqb Pos.eqb].
  intros ->. cbn [negb]. split_and!; try done; by destruct (lim =? -1), (ofst =? -1).
Qed.

(** The OFFSET of a SELECT by a range of the primary key, in the order of the
    key and with filters, is ignored: whatever it is, the reply is that of the
    query without it. *)
Theorem offset_ignored {R} h w ri uv which obc asc lim ofst fl (outputRow : aobj -> cptr -> option (ost_t * R)) qcols cstar :
  w_type w = SQL_RANGE_LKP -> ri_virt ri = true -> w_inl w = None -> w_flist w = Some fl ->
  q_qed (setQueued w (Some ri) (Wob obc asc lim (-1))) = false ->
  select w (Wob obc asc lim ofst) ri uv which outputRow qcols cstar h =
  select w (Wob obc asc lim (-1)) ri uv which outputRow qcols cstar h.
Proof.
  intros Ht Hv Hinl Hfl Hq. destruct (offset_queued w ri obc asc lim ofst fl Hv Hinl Hfl Hq) as (Q1 & Q3 & Q4 & Q5 & Q6 & Q7).
  unfold iselectAction. revert Q1 Q3 Q4 Q5 Q6 Q7 Hq. generalize (setQueued w (Some ri) (Wob obc asc lim ofst)) as q1.
  generalize (setQueued w (Some ri) (Wob obc asc lim (-1))) as q2. intros q2 q1 Q1 Q3 Q4 Q5 Q6 Q7 Q2.
  assert (E : forall p st, Op byte_at p h tb (Stmt qcols 0 cstar false) w (Wob obc asc lim ofst) q1 pktyp ri uv which st =
    Op (T := sel_t R) byte_at p h tb (Stmt qcols 0 cstar false) w (Wob obc asc lim (-1)) q2 pktyp ri uv which st).
  { intros p st. unfold Op, keyOp. rewrite Ht, Hv. change (negb (Z.land SQL_RANGE_LKP SQL_SINGLE_LKP =? 0)) with false.
    change (negb (Z.land SQL_RANGE_LKP SQL_SINGLE_FK_LKP =? 0)) with false. cbv iota.
    apply rangeOpPK_ext; [|done..]. intros st' apk rrow card loops. unfold pk_op_l. rewrite Q1, Q2, Q7, <- Q3. cbn [wb_ofst wb_lim].
    by destruct (q_pk_lim q1), (ofst =? -1), (q_pk_lo q2). }
  rewrite E. destruct (Op _ _ _ _ _ _ _ _ _ _ _ _ _) as [r|]; [|reflexivity]. cbn [mbind option_bind wb_lim]. rewrite Q1, Q2. reflexivity.
Qed.
End Claims.

(** ** Witnesses *)

(** The order determines what an index lookup visits. *)
Lemma by_value_unique floor_log2 getcol pktyp rows ri desc lo hi ks1 ks2 :
  rows_by_value floor_log2 getcol pktyp rows ri desc lo hi ks1 -> rows_by_value floor_log2 getcol pktyp rows ri desc lo hi ks2 -> ks1 = ks2.
Proof.
  intros (ps1 & -> & S1 & I1) (ps2 & -> & S2 & I2). f_equal.
  assert (Hirr : forall x, ~ pair_lt desc x x) by (intros [v k] [?|[_ ?]]; [|destruct (negb desc)]; cbn in *; lia).
  assert (Hnd : forall ps, StronglySorted (pair_lt desc) ps -> NoDup ps).
  { induction 1 as [|x ps _ IH HF]; constructor; [|done]. intros Hin. rewrite Forall_forall in HF. by apply (Hirr x), HF. }
  apply (StronglySorted_unique_strong (pair_lt desc)); [|done|done|].
  - intros [v1 k1] [v2 k2] _ _ [H1|[H1 H1']] [H2|[H2 H2']]; cbn in *; try lia. destruct (negb desc); lia.
  - apply NoDup_Permutation; [by apply Hnd|by apply Hnd|]. intros [v k]. by rewrite I1, I2.
Qed.

#[local] Existing Instances isort_qsort isort_laws.
#[local] Abbreviation no_lua := (fun (_ : r_ind_t) (_ : aobj) (_ : cptr) (h : heap) => h).
#[local] Abbreviation t_ok := (db_ok (fun _ => 0) no_lua no_lua t_col COL_TYPE_INT (fun _ => COL_TYPE_INT) t_args 16 (fun _ => 1)).

Lemma t_two_rows k r : t_rows t_two !! k = Some r -> k = 1 /\ r = t_row 10 7 \/ k = 2 /\ r = t_row 20 8.
Proof. intros (x & [<-|[<-|[]]] & <- & ->)%t_rows_in; auto. Qed.

(** The columns of the two rows, and a filter u > 7. *)
Definition t_val (k c : Z) : Z := if c =? 1 then (if k =? 1 then 10 else 20) else (if k =? 1 then 7 else 8).
Definition t_gt : f_t :=
  Flt (-1) (-1) 0 (INIT_ICOL 2) GT false None (initAobjInt 7) None initAobj None initAobj None None (Lue [] []).
Lemma t_reads : filters_read t_col COL_TYPE_INT 0 (t_rows t_two) t_val (Some [t_gt]).
Proof.
  intros k r fl f Hk [= <-] ->%list_elem_of_singleton _. cbn [f_ic t_gt cmatch INIT_ICOL].
  assert (Hc : exists u, t_col 2 (pk_obj COL_TYPE_INT k) r = Some (initIntAobjFromVal u) /\ 0 <= u < 2 ^ 20 /\ u = t_val k 2).
  { destruct (t_two_rows k r Hk) as [[-> ->]|[-> ->]]; [exists 7|exists 8]; (split; [vm_compute; reflexivity|]); (split; [lia|reflexivity]). }
  destruct Hc as (u & Hc & Hu & Ev). exists (initIntAobjFromVal u). split; [exact Hc|]. split.
  - split; [apply int_val_ok; lia|done|done|done|]. intros _ _. split; [|done]. split; [apply int_obj_ok|]. split; [done|].
    intros _. unfold num_of, num_val. cbn. rewrite !uwrap_small by lia. lia.
  - rewrite <- Ev. unfold num_of, num_val. cbn. by rewrite uwrap_small by lia.
Qed.

(** SELECT id FROM t WHERE a BETWEEN 5 AND 25 AND u > 7 LIMIT 1 *)
Definition t_where (fl : option (list f_t)) : cswc_t := Cswc SQL_RANGE_LKP initAobj (initAobjInt 5) (initAobjInt 25) None None fl.
Definition t_id (apk : aobj) (r : cptr) : option (ost_t * Z) := Some (OR_NONE, ao_i apk).
Lemma t_prints k r : t_rows t_two !! k = Some r -> t_id (pk_obj COL_TYPE_INT k) r = Some (OR_NONE, k).
Proof. intros [[-> _]|[-> _]]%t_two_rows; reflexivity. Qed.
Lemma t_by_value : rows_by_value (fun _ => 0) t_col COL_TYPE_INT (t_rows t_two) t_a false 5 25 [1; 2].
Proof.
  assert (G1 : t_good 1 10 7) by t_good_tac. assert (G2 : t_good 2 20 8) by t_good_tac.
  exists [(10, 1); (20, 2)]. split; [done|]. split.
  { repeat constructor. }
  intros v k. rewrite !elem_of_cons, elem_of_nil. split.
  - intros [[= -> ->]|[[= -> ->]|[]]]; (split; [lia|]).
    + exists (t_row 10 7). split; [reflexivity|]. by apply (t_keyed_a 1 10 7).
    + exists (t_row 20 8). split; [reflexivity|]. by apply (t_keyed_a 2 20 8).
  - intros (_ & r & Hr & Hk). destruct (t_two_rows k r Hr) as [[-> ->]|[-> ->]].
    + apply (t_keyed_a 1 10 7 _ G1) in Hk as [= ->]. by left.
    + apply (t_keyed_a 2 20 8 _ G2) in Hk as [= ->]. right. by left.
Qed.
Lemma t_by_values : by_values (t_where (Some [t_gt])) t_a 0 5 25.
Proof.
  apply (values_range (t_where (Some [t_gt])) t_a 0); [done| |lia|unfold MAX_NUM_ITERS; lia].
  apply (index_stores COL_TYPE_INT 1 BTREE_INDEX (initAobjInt 5) 16); [done|by left|apply int_obj_ok|lia].
Qed.

Lemma select_by_index_witness : exists h, t_ok h (t_rows t_two) t_ids /\
  iselectAction t_col COL_TYPE_INT 16 (fun _ => 1) (fun _ _ _ => (true, false)) (fun _ _ _ => None) 0 [] (fun _ _ => 0)
    (t_where (Some [t_gt])) (Wob [] [] 1 (-1)) t_a initAobj 0 t_id 1 false h = Some (R_ROWS 1 [2]).
Proof.
  destruct t_filled as (h & Hok & _). exists h. split; [exact Hok|].
  destruct (select_by_index (fun _ => 0) no_lua no_lua t_col COL_TYPE_INT (fun _ => COL_TYPE_INT) eq_refl t_args
    (created_table COL_TYPE_INT 0 3 COL_TYPE_INT false eq_refl) eq_refl 16 (fun _ => 1) (fun _ _ _ => (true, false)) (fun _ _ _ => None) 0 []
    (fun _ _ => 0) t_ids h (t_rows t_two) (t_where (Some [t_gt])) (Wob [] [] 1 (-1)) t_a t_a_single eq_refl initAobj 0 5 25 t_val
    (fun k => k) t_id 1 Hok) as (ks & Hks & E); try reflexivity.
  - right. left.
  - exact t_by_values.
  - right. reflexivity.
  - exact t_reads.
  - exact t_prints.
  - rewrite (by_value_unique _ _ _ _ _ _ _ _ _ _ Hks t_by_value) in E. exact E.
Defined.

#[local] Abbreviation t_remove := (ideleteAction (fun _ => 0) no_lua t_col COL_TYPE_INT t_args 16 (fun _ => 1)
  (fun _ _ _ => (true, false)) (fun _ _ _ => None) 0).
Lemma t_created : created t_args.
Proof. by apply created_table. Qed.

(** DELETE FROM t WHERE a BETWEEN 5 AND 25 AND u > 7 LIMIT 1 *)
Lemma delete_by_index_witness : exists h h', t_ok h (t_rows t_two) t_ids /\
  t_remove [] (fun _ _ => 0) (t_where (Some [t_gt])) (Wob [] [] 1 (-1)) t_a initAobj 0 h [t_u; t_a; t_m] = Some (h', 1) /\
  t_ok h' (without [2] (t_rows t_two)) t_ids.
Proof.
  destruct t_filled as (h & Hok & _). exists h.
  destruct (delete_by_index (fun _ => 0) no_lua no_lua t_col COL_TYPE_INT (fun _ => COL_TYPE_INT) eq_refl t_args
    t_created eq_refl 16 (fun _ => 1) (fun _ _ _ => (true, false)) (fun _ _ _ => None) 0 []
    (fun _ _ => 0) t_ids h (t_rows t_two) (t_where (Some [t_gt])) (Wob [] [] 1 (-1)) t_a t_a_single eq_refl initAobj 0 5 25 t_val t_removable Hok)
    as (ks & h' & Hks & E & Hok'); try reflexivity.
  - right. left.
  - exact t_by_values.
  - right. reflexivity.
  - exact t_reads.
  - rewrite (by_value_unique _ _ _ _ _ _ _ _ _ _ Hks t_by_value) in E, Hok'.
    exists h'. split; [exact Hok|]. split; [exact E|exact Hok'].
Defined.

(** ... WHERE id BETWEEN 1 AND 9 AND u > 7 ORDER BY u DESC LIMIT 1 *)
Definition t_pk : r_ind_t := RInd 0 true 0 0 [] CONSTRAINT_NONE false false false (-1) COL_TYPE_INT false.
Definition t_ids_where (fl : option (list f_t)) : cswc_t := Cswc SQL_RANGE_LKP initAobj (initAobjInt 1) (initAobjInt 9) None None fl.
Definition t_desc : wob_t := Wob [INIT_ICOL 2] [false] 1 (-1).
Definition t_obs : list (bool * Z * Z * bool) := [(false, COL_TYPE_INT, 2, false)].
Definition t_okeys (k : Z) : list obkey := [K_WORD (t_val k 2)].
Lemma t_keys_read : keys_read t_col COL_TYPE_INT (fun _ _ _ => None) t_obs (fun _ _ => 0) (t_rows t_two) t_okeys.
Proof.
  intros k r [[-> ->]|[-> ->]]%t_two_rows; (split; [vm_compute; reflexivity|]);
    (constructor; [|constructor]); left; (split; [reflexivity|]); cbn; lia.
Qed.
Lemma t_search : searchable t_args (initAobjInt 1).
Proof. exact (proj1 (t_stores 1 1 1 ltac:(t_good_tac))). Qed.

Lemma select_sorted_witness : exists h ks v, t_ok h (t_rows t_two) t_ids /\ pk_spec (t_rows t_two) 1 9 ks /\
  ordered_by t_obs t_okeys v /\ Permutation v (filter (fun k => passes 0 t_val (Some [t_gt]) k = true) ks) /\
  iselectAction t_col COL_TYPE_INT 16 (fun _ => 1) (fun _ _ _ => (true, false)) (fun _ _ _ => None) 0 t_obs (fun _ _ => 0)
    (t_ids_where (Some [t_gt])) t_desc t_pk initAobj 0 t_id 1 false h = Some (R_ROWS (count (slice t_desc v)) (slice t_desc v)).
Proof.
  destruct t_filled as (h & Hok & _). exists h.
  destruct (select_sorted (fun _ => 0) no_lua no_lua t_col COL_TYPE_INT (fun _ => COL_TYPE_INT) eq_refl t_args
    t_created eq_refl 16 (fun _ => 1) (fun _ _ _ => (true, false)) (fun _ _ _ => None) 0 t_obs
    (fun _ _ => 0) t_ids h (t_rows t_two) (t_ids_where (Some [t_gt])) t_desc t_pk initAobj 0 t_val
    (fun k => k) t_id 1 t_okeys Hok) as (ks & v & Hks & Hp & Ho & E); try reflexivity.
  - unfold MAX_NUM_ITERS. lia.
  - exact t_search.
  - right. reflexivity.
  - exact t_reads.
  - exact t_prints.
  - exact t_keys_read.
  - exists ks, v. split; [exact Hok|]. split; [exact Hks|]. split; [exact Ho|]. split; [exact Hp|].
    assert (Ei : (fun k : Z => k) <$> slice t_desc v = slice t_desc v) by apply list_fmap_id. rewrite Ei in E. exact E.
Defined.

(** DELETE with the same text. *)
Lemma delete_sorted_from_end_witness : exists h ks v h', t_ok h (t_rows t_two) t_ids /\ pk_spec (t_rows t_two) 1 9 ks /\
  ordered_by t_obs t_okeys v /\ Permutation v (filter (fun k => passes 0 t_val None k = true) ks) /\
  t_remove t_obs (fun _ _ => 0) (t_ids_where None) t_desc t_pk initAobj 0 h [t_u; t_a; t_m] = Some (h', count (slice t_desc (reverse v))) /\
  t_ok h' (without (slice t_desc (reverse v)) (t_rows t_two)) t_ids.
Proof.
  destruct t_filled as (h & Hok & _). exists h.
  destruct (delete_sorted_from_end (fun _ => 0) no_lua no_lua t_col COL_TYPE_INT (fun _ => COL_TYPE_INT) eq_refl t_args
    t_created eq_refl 16 (fun _ => 1) (fun _ _ _ => (true, false)) (fun _ _ _ => None) 0 t_obs
    (fun _ _ => 0) t_ids h (t_rows t_two) (t_ids_where None) t_desc t_pk initAobj 0 t_val t_okeys t_removable Hok)
    as (ks & v & h' & Hks & Hp & Ho & E & Hok'); try reflexivity.
  - unfold MAX_NUM_ITERS. lia.
  - exact t_search.
  - right. reflexivity.
  - intros k r fl f _ Hfl. discriminate Hfl.
  - exact t_keys_read.
  - exists ks, v, h'. split; [exact Hok|]. split; [exact Hks|]. split; [exact Ho|]. split; [exact Hp|]. split; [exact E|exact Hok'].
Defined.

(** SELECT id FROM t WHERE id BETWEEN 1 AND 9 AND u > 7 LIMIT 10 OFFSET 5: the table
    has two rows. *)
Lemma offset_ignored_witness : exists h, t_ok h (t_rows t_two) t_ids /\
  iselectAction t_col COL_TYPE_INT 16 (fun _ => 1) (fun _ _ _ => (true, false)) (fun _ _ _ => None) 0 [] (fun _ _ => 0)
    (t_ids_where (Some [t_gt])) (Wob [] [] 10 5) t_pk initAobj 0 t_id 1 false h =
  iselectAction t_col COL_TYPE_INT 16 (fun _ => 1) (fun _ _ _ => (true, false)) (fun _ _ _ => None) 0 [] (fun _ _ => 0)
    (t_ids_where (Some [t_gt])) (Wob [] [] 10 (-1)) t_pk initAobj 0 t_id 1 false h.
Proof.
  destruct t_filled as (h & Hok & _). exists h. split; [exact Hok|].
  apply (offset_ignored t_col COL_TYPE_INT 16 (fun _ => 1) (fun _ _ _ => (true, false)) (fun _ _ _ => None) 0 [] (fun _ _ => 0)
    h (t_ids_where (Some [t_gt])) t_pk initAobj 0 [] [] 10 5 [t_gt] t_id 1 false); reflexivity.
Defined.
