(* ===== verification/Update.v ===== *)
(** * UPDATE of one row ([updateRow] of [DB/row.c])

    The values an UPDATE gives a row: parsed from the text, computed by an
    expression ([evalExpr]) or kept; the new row is written over the old one when
    only numbers of unchanged width change ([updateOverwrite]), or made anew and
    handed to [runUpdate] of [Dml].  [None] is undefined behaviour: a division by
    zero, a conversion of a [double] that no [unsigned long] holds, a read outside
    the text. *)

From Stdlib Require Import Floats.SpecFloat.
From S2P Require Import Prelude Stream SixBit Hash CStr Row Aobj BtKey GetCol InsertParse.

(** ** Floating point *)

Definition f64_of_ulong (m : Z) : spec_float := binary_normalize 53 1024 m 0 false.
Definition f32_of_ulong (m : Z) : spec_float := binary_normalize 24 128 m 0 false.
Definition f_convert (prec emax : Z) (f : spec_float) : spec_float :=
  match f with
  | S754_finite s m e => binary_normalize prec emax (cond_Zopp s (Zpos m)) e s
  | _ => f
  end.
Definition f64_to_f32 : spec_float -> spec_float := f_convert 24 128.
Definition f32_to_f64 : spec_float -> spec_float := f_convert 53 1024.

(** [(ulong)f] *)
Definition ulong_of_f64 (f : spec_float) : option Z :=
  match f with
  | S754_zero _ => Some 0
  | S754_finite s m e =>
      let t := cond_Zopp s (Z.shiftl (Zpos m) e) in
      if (0 <=? t) && (t <? 2 ^ 64) then Some t else None
  | _ => None
  end.

(** The bits of a [float]. *)
Definition f32_bits (f : spec_float) : Z :=
  let sg s := if (s : bool) then 2 ^ 31 else 0 in
  match f with
  | S754_zero s => sg s
  | S754_infinity s => sg s + 255 * 2 ^ 23
  | S754_nan => 255 * 2 ^ 23 + 2 ^ 22
  | S754_finite s m e =>
      sg s + (if Zpos m <? 2 ^ 23 then Zpos m else (e + 150) * 2 ^ 23 + (Zpos m - 2 ^ 23))
  end.

Definition f_zero : spec_float := S754_zero false.
Definition FLT_MIN : spec_float := S754_finite false (2 ^ 23) (-149).
Definition FLT_MAX : spec_float := S754_finite false (2 ^ 24 - 1) 104.

(** ** Expressions *)

Definition PLUS : Z := 43.
Definition MINUS : Z := 45.
Definition MULT : Z := 42.
Definition DIVIDE : Z := 47.
Definition MODULO : Z := 37.
Definition POWER : Z := 94.

(** [pred] is the text from the number on, to the end of the statement. *)
Record ue_t := Ue { ue_op : Z; ue_c1match : Z; ue_type : Z; ue_pred : list Z; ue_plen : Z }.

(** The replies of a refused UPDATE. *)
Inductive up_err :=
| update_expr_div_0 | neg_on_uint | overflow | u2big | update_expr_float_overflow
| updatesyntax | up_on_mt_col | lua_failed.

Section Expr.
(** [atof] and [powf] of libm; [powf] comes with whether it set [errno]. *)
Context (atof : list Z -> spec_float) (powf : spec_float -> spec_float -> spec_float * bool).

(** The branch of the integers: [m] is the value, [a->l] of a U128. *)
Definition eval_num (ue : ue_t) (ctype m : Z) : option (up_err + Z) :=
  let op := ue_op ue in
  let is_f := ue_type ue =? UETYPE_FLT in
  let f := if is_f then atof (cstring (ue_pred ue)) else f_zero in
  let l := if is_f then 0 else strtoul (cstring (ue_pred ue)) in
  if ((op =? DIVIDE) || (op =? MODULO)) && (if is_f then SFeqb f f_zero else l =? 0)
  then Some (inl update_expr_div_0)
  else if is_f && SFltb f f_zero then Some (inl neg_on_uint)
  else
    dlt ← (if is_f then ulong_of_f64 f else Some l);
    r ← (if op =? PLUS then
           if (C_IS_L ctype && (ULONG_MAX - dlt <? m)) || (C_IS_I ctype && (u64 (UINT_MAX - dlt) <? m))
           then Some (inl overflow) else Some (inr (u64 (m + dlt)))
         else if op =? MINUS then
           if m <? dlt then Some (inl overflow) else Some (inr (m - dlt))
         else if op =? MODULO then
           if dlt =? 0 then None else Some (inr (m mod dlt))
         else if op =? DIVIDE then
           if is_f then v ← ulong_of_f64 (SFdiv 53 1024 (f64_of_ulong m) f); Some (inr v)
           else Some (inr (m / l))
         else if op =? MULT then
           if is_f then v ← ulong_of_f64 (SFmul 53 1024 (f64_of_ulong m) f); Some (inr v)
           else if C_IS_L ctype && (0 <? l) && (UINT_MAX / l <? m) then Some (inl u2big)
           else Some (inr (u64 (m * l)))
         else
           let f := if ue_type ue =? UETYPE_INT then f32_of_ulong l else f64_to_f32 f in
           let '(d, errno) := powf (f32_of_ulong m) f in
           let d := f32_to_f64 d in
           if errno || (C_IS_L ctype && SFltb (f64_of_ulong ULONG_MAX) d) then Some (inl u2big)
           else v ← ulong_of_f64 d; Some (inr v));
    Some (match r with
          | inl e => inl e
          | inr m => if C_IS_I ctype && (UINT_MAX <=? m) then inl u2big else inr m
          end).

(** The branch of the floats. *)
Definition eval_float (ue : ue_t) (x : Z) : up_err + Z :=
  let op := ue_op ue in
  let f := f64_to_f32 (atof (cstring (ue_pred ue))) in
  let a := f32_of_bits x in
  if (op =? DIVIDE) && SFeqb f f_zero then inl update_expr_div_0
  else
    let '(m, errno) :=
      if op =? PLUS then (SFadd 24 128 a f, false)
      else if op =? MINUS then (SFsub 24 128 a f, false)
      else if op =? MULT then (SFmul 24 128 a f, false)
      else if op =? DIVIDE then (SFdiv 24 128 a f, false)
      else powf a f in
    if (errno : bool) then inl update_expr_float_overflow
    else
      let d := if SFltb m f_zero then SFopp m else m in
      if SFltb d FLT_MIN || SFltb FLT_MAX d then inl update_expr_float_overflow
      else inr (f32_bits m).

Definition set_f (a : aobj) (f : Z) : aobj :=
  Aobj (ao_s a) (ao_len a) (ao_i a) (ao_l a) (ao_x a) f (ao_b a) (ao_type a) (ao_enc a) (ao_freeme a) (ao_empty a).

(** The column's new value; a TEXT column is left as it is. *)
Definition evalExpr (ue : ue_t) (aval : aobj) (ctype : Z) : option (up_err + aobj) :=
  if C_IS_NUM ctype then
    r ← eval_num ue ctype (if C_IS_I ctype then ao_i aval else ao_l aval);
    Some (match r with
          | inl e => inl e
          | inr m => inr (if C_IS_I ctype then set_i aval m else set_l aval m)
          end)
  else if C_IS_F ctype then
    Some (match eval_float ue (ao_f aval) with inl e => inl e | inr f => inr (set_f aval f) end)
  else Some (inr aval).
End Expr.

(** ** The row of an UPDATE *)

(** What the statement says of a column: whether it names it, or an element of
    its Lua table; the text of the value; the expression, of SQL or Lua. *)
Record ucol := UCol { u_hit : bool; u_nlo : bool; u_val : list Z; u_ue : option ue_t; u_le : bool }.
Definition no_ucol : ucol := UCol false false [] None false.

(** The overwritten bytes of a row. *)
Definition write_at (row : list Z) (st : nat) (bs : list Z) : list Z :=
  take st row ++ bs ++ drop (st + length bs) row.

(** The width of a number in a row: whether it can be overwritten, and the flag. *)
Definition aobj_sflag (a : aobj) : bool * Z :=
  if C_IS_X (ao_type a) then (negb (ao_empty a), 0)
  else
    let l := if C_IS_I (ao_type a) then ao_i a else ao_l a in
    (negb (ao_empty a), sflag (cIcol l (C_IS_I (ao_type a)))).
Definition getNumKeyLen (a : aobj) : Z :=
  if C_IS_X (ao_type a) then 16
  else csize (cIcol (if C_IS_I (ao_type a) then ao_i a else ao_l a) (C_IS_I (ao_type a))).

(** The new row: the old one overwritten, or a key and a row of its own. *)
Inductive up_row := UP_OVR (row : list Z) | UP_NEW (npk : aobj) (nrow : cptr).

Section UpdateRow.
Context (atof : list Z -> spec_float) (powf : spec_float -> spec_float -> spec_float * bool).
Context (lzf_compress : list Z -> Z -> option (list Z)) (writeLuaTblCol : list Z -> bool) (GlobalZipSwitch : bool).
(** What Lua computes for a column, from what the row holds, and whether it takes
    a value queued for an element of a Lua table. *)
Context (evalLuaExpr : nat -> aobj -> option aobj) (queue_CQ : aobj -> bool).
(** The table: its columns, the kind of its tree, which columns are indexed, and
    whether it has Lua triggers. *)
Context (rt : r_tbl_t) (s : bts_t) (pktyp : Z) (indxd : nat -> bool) (nltrgr : bool).
(** The columns of a row, and what the LRU column becomes. *)
Context (getcol : Z -> aobj -> cptr -> option aobj) (lru : Z).

Definition col_types : list Z := pktyp :: (ctype_Z <$> coltypes rt).
Definition is_lru (i : nat) : bool := bool_decide (lruc rt = Some i).
Definition is_lfu (i : nat) : bool := bool_decide (lfuc rt = Some i).

Definition OVRWR (i : nat) (ovrwr : bool) (ctype : Z) : bool :=
  negb (i =? 0)%nat && ovrwr && C_IS_NUM ctype && negb (indxd i).

(** The value a text gives a column. *)
Definition up_value (ctype : Z) (v : list Z) : option (up_err + aobj) :=
  let tkn := cstring v in
  let len := Z.of_nat (length v) in
  if C_IS_I ctype then
    let l := strtoul tkn in Some (if TWO_POW_32 <=? l then inl u2big else inr (initAobjInt l))
  else if C_IS_L ctype then Some (inr (initAobjLong (strtoul tkn)))
  else if C_IS_X ctype then
    Some (match parseU128 tkn with None => inl updatesyntax | Some x => inr (initAobjU128 initAobj x) end)
  else if C_IS_F ctype then Some (inr (initAobjFloat (f32_bits (f64_to_f32 (atof tkn)))))
  else if C_IS_S ctype then
    if len <? 2 then None else Some (inr (initAobjString (S_MEM (drop 1 v)) (len - 2)))
  else if C_IS_O ctype then Some (inr (initAobjString (S_MEM v) len))
  else None.

(** [ovrwr], [lodlt] and [cq]. *)
Record flags := Flags { f_ovrwr : bool; f_lodlt : bool; f_cq : bool }.
Definition set_ovrwr (f : flags) (b : bool) : flags := Flags b (f_lodlt f) (f_cq f).

(** The first loop, for column [i]: its value, the width it must keep to be
    overwritten (0 if it is not to be), and the flags. *)
Definition up_col (i : nat) (ctype : Z) (u : ucol) (f : flags) (opk : aobj) (orow : cptr)
    : option (up_err + aobj * Z * flags) :=
  let col := getcol (Z.of_nat i) opk orow in
  let width a :=
    if OVRWR i (f_ovrwr f) ctype then
      let '(ok, w) := aobj_sflag a in (w, if (ok : bool) then f else set_ovrwr f false)
    else (0, set_ovrwr f false) in
  let counter w := a ← col; Some (inr (if ao_empty a then (a, 0, set_ovrwr f false) else (a, w, f))) in
  if is_lru i then counter getLruSflag
  else if is_lfu i then counter getLfuSflag
  else match u_ue u, u_le u, u_hit u with
  | None, false, true =>
      '(w, f) ← (if OVRWR i (f_ovrwr f) ctype then a ← col; Some (width a) else Some (0, set_ovrwr f false));
      v ← up_value ctype (u_val u);
      Some (match v with inl e => inl e | inr a => inr (a, w, Flags (f_ovrwr f) (f_lodlt f || C_IS_O ctype) (f_cq f)) end)
  | Some ue, _, _ =>
      a ← col;
      if ao_empty a then Some (inl up_on_mt_col)
      else
        let '(w, f) := width a in
        v ← evalExpr atof powf ue a ctype;
        Some (match v with inl e => inl e | inr a => inr (a, w, f) end)
  | None, true, _ =>
      if u_nlo u then
        Some (match evalLuaExpr i initAobj with
              | None => inl lua_failed
              | Some a => inr (a, 0, Flags (f_ovrwr f) (f_lodlt f) true)
              end)
      else
        a ← col;
        if ao_empty a then Some (inl up_on_mt_col)
        else
          let '(w, f) := width a in
          Some (match evalLuaExpr i a with
                | None => inl lua_failed
                | Some a => inr (a, w, Flags (f_ovrwr f) (f_lodlt f || C_IS_O ctype) (f_cq f))
                end)
  | None, false, false => a ← col; Some (inr (a, 0, f))
  end.

Fixpoint up_cols (i : nat) (cs : list (Z * ucol)) (f : flags) (opk : aobj) (orow : cptr)
    : option (up_err + list (aobj * Z) * flags) :=
  match cs with
  | [] => Some (inr ([], f))
  | (t, u) :: cs =>
      r ← up_col i t u f opk orow;
      match r with
      | inl e => Some (inl e)
      | inr (a, w, f) =>
          rest ← up_cols (S i) cs f opk orow;
          Some (match rest with inl e => inl e | inr (avs, f) => inr ((a, w) :: avs, f) end)
      end
  end.

(** The second loop, for column [i]: its data, the bytes it takes before
    compression, and [cq]. *)
Definition up_crd (i : nat) (ctype : Z) (u : ucol) (a : aobj) (cq : bool) : option (up_err + crd_t * Z * bool) :=
  let num (c : icol) := Some (inr (Crd [] (col c) (sflag c) 0 0 false false 0, csize c, cq)) in
  let nothing := Some (inr (zero_crd, 0, cq)) in
  let text := m ← (if ao_len a =? 0 then Some [] else ao_str a); Some (inr (Crd m 0 0 0 0 false false 0, ao_len a, cq)) in
  if (i =? 0)%nat then nothing
  else if is_lru i then num (cLRUcol lru)
  else if is_lfu i then num (cLFUcol (u64 (ao_l a + 1)))
  else if C_IS_I ctype then if ao_empty a then nothing else num (cr8Icol (ao_i a))
  else if C_IS_L ctype then if ao_empty a then nothing else num (cr8Lcol (ao_l a))
  else if C_IS_X ctype then
    if ao_empty a then nothing else Some (inr (Crd [] 0 0 (cr8Xcol (ao_x a)).1 0 false false 0, (cr8Xcol (ao_x a)).2, cq))
  else if C_IS_F ctype then
    if ao_empty a then nothing else Some (inr (Crd [] 0 0 0 (ao_f a) true false 0, 4, cq))
  else if C_IS_S ctype then text
  else if C_IS_O ctype then
    if u_nlo u then
      if ao_empty a then nothing
      else if queue_CQ a then Some (inr (zero_crd, 0, true)) else Some (inl lua_failed)
    else text
  else None.

Definition set_place (d : crd_t) (em : bool) (off : Z) : crd_t :=
  Crd (strs d) (icols d) (iflags d) (xcols d) (fcols d) (fflags d) em off.

(** The columns from [i] on: their data, [rlen] and [cq]. *)
Fixpoint up_crds (i : nat) (cs : list (Z * ucol)) (avs : list aobj) (rlen : Z) (cq : bool)
    : option (up_err + list crd_t * Z * bool) :=
  match cs, avs with
  | (t, u) :: cs, a :: avs =>
      r ← up_crd i t u a cq;
      match r with
      | inl e => Some (inl e)
      | inr (d, nclen, cq) =>
          let em := nclen =? 0 in
          let rlen := u32 (rlen + if C_IS_O t then 0 else nclen) in
          rest ← up_crds (S i) cs avs rlen cq;
          Some (match rest with
                | inl e => inl e
                | inr (ds, rl, cq) => inr (set_place d em (s32 rlen) :: ds, rl, cq)
                end)
      end
  | _, _ => Some (inr ([], rlen, cq))
  end.

(** The columns to write: up to the last one that is not empty, and to the LRU
    and LFU columns. *)
Fixpoint last_filled (ds : list crd_t) (i n : nat) : nat :=
  match ds with
  | [] => n
  | d :: ds => last_filled ds (S i) (if empty d then n else S i)
  end.
Definition up_ncols (ds : list crd_t) : nat :=
  let n := last_filled ds 0 0 in
  let n := match lruc rt with Some c => if (n <=? c)%nat then S c else n | None => n end in
  match lfuc rt with Some c => if (n <=? c)%nat then S c else n | None => n end.

(** [writeRow] of the columns after the key; no columns at all, not even the key,
    are one less than none. *)
Definition up_write (ncols : nat) (ds : list crd_t) (rlen : Z) : option (option (list Z)) :=
  match ncols with
  | O => Some (Some (assign_rflag rlen CZIP_NONE :: rawUintWriteToRow (u32 (0 - 1))))
  | S n => writeRow lzf_compress writeLuaTblCol GlobalZipSwitch (Cr (take n (zip (coltypes rt) (tail ds))) rlen 0)
  end.

(** Whether every column to overwrite keeps its width. *)
Fixpoint same_widths (ws : list Z) (ds : list crd_t) : bool :=
  match ws, ds with
  | w :: ws, d :: ds => ((w =? 0) || (w =? iflags d)) && same_widths ws ds
  | _, _ => true
  end.

(** The value of a packed table, as the row of the UPDATE. *)
Definition packed_row (a : aobj) : cptr :=
  if UX s || LX s || XX s then st_make 16 16 0 (ao_x a)
  else if UU s || LU s || XU s then PNum (ao_i a)
  else PNum (ao_l a).

(** Overwriting column [i], whose data are at [st] of the row: the LRU and LFU
    columns by [updateLru] and [updateLfu], which leave them alone in a client
    that selects them. *)
Context (lru_selected lfu_selected : bool).
Definition updateLru (row : list Z) (st : nat) : option (list Z) :=
  if lru_selected then Some row
  else
    let data := drop st row in
    oltime ← streamLRUToUInt data;
    Some (if oltime =? lru then row else take st row ++ overwriteLRUcol data lru).
Definition updateLfu (row : list Z) (st : nat) : option (list Z) :=
  if lfu_selected then Some row
  else
    let data := drop st row in
    num ← streamLFUToULong data;
    Some (take st row ++ overwriteLFUcol data (u64 (num + 1))).

Fixpoint updateOverwrite (addr : Z) (i : nat) (cs : list (Z * crd_t * Z)) (row : list Z) : option (list Z) :=
  match cs with
  | [] => Some row
  | (t, d, w) :: cs =>
      row ← (if w =? 0 then Some row
             else
               cd ← getColData addr row (Z.of_nat i);
               let st := cd_start cd in
               let row := cd_row cd in
               if is_lru i then updateLru row st
               else if is_lfu i then updateLfu row st
               else if C_IS_I t then Some (write_at row st (writeUIntCol (iflags d) (icols d)))
               else if C_IS_L t then Some (write_at row st (writeULongCol (iflags d) (icols d)))
               else if C_IS_X t then Some (write_at row st (writeU128Col (xcols d)))
               else None);
      updateOverwrite addr (S i) cs row
  end.

(** The row of the UPDATE, or the reply of a refused one; [inl None] is a refusal
    without a reply.  [addr] is the address of the old row. *)
Definition updateRow (addr : Z) (opk : aobj) (orow : cptr) (us : list ucol) : option (option up_err + up_row) :=
  let cs := zip col_types us in
  r ← up_cols 0 cs (Flags (NORM_BT s && negb nltrgr) false false) opk orow;
  match r with
  | inl e => Some (inl (Some e))
  | inr (avws, f) =>
      r ← up_crds 0 cs avws.*1 0 (f_cq f);
      match r with
      | inl e => Some (inl (Some e))
      | inr (ds, rlen, cq) =>
          if f_ovrwr f && negb (f_lodlt f || cq) && same_widths (tail avws.*2) (tail ds) then
            row ← updateOverwrite addr 1 (zip (zip (tail col_types) (tail ds)) (tail avws.*2)) (mem orow);
            Some (inr (UP_OVR row))
          else
            npk ← head avws.*1;
            npk ← cloneAobj npk;
            if OTHER_BT s then
              a ← avws.*1 !! 1%nat;
              let nrow := packed_row a in
              Some (if is_null nrow then inl None else inr (UP_NEW npk nrow))
            else
              nrow ← up_write (up_ncols ds) ds rlen;
              Some (match nrow with None => inl None | Some nrow => inr (UP_NEW npk (PMem nrow)) end)
      end
  end.
End UpdateRow.

(** ** Properties of expressions *)

(** What an operator and a natural number make of a value, in unbounded
    arithmetic; [None] when there is no natural number to store. *)
Definition exact (op m p : Z) : option Z :=
  if op =? PLUS then Some (m + p)
  else if op =? MINUS then if p <=? m then Some (m - p) else None
  else if op =? MULT then Some (m * p)
  else if p =? 0 then None
  else if op =? DIVIDE then Some (m / p)
  else Some (m mod p).

(** The number a predicate begins with. *)
Lemma pred_number p c rest : 0 <= p < 2 ^ 64 -> isdigit c = false -> strtoul (cstring (print_lu p ++ c :: rest)) = p.
Proof.
  intros Hp Hc. destruct (print_lu_digits p Hp) as (HF & Hne & Hl).
  rewrite cstring_app by (by apply digits_nonzero). cbn [cstring].
  destruct (c =? 0); [rewrite app_nil_r|rewrite strtoul_prefix by done]; by apply strtoul_print.
Qed.

Definition int_or_long (ctype : Z) : Prop := ctype = COL_TYPE_INT \/ ctype = COL_TYPE_LONG.
Definition num_max (ctype : Z) : Z := if C_IS_I ctype then 2 ^ 32 else 2 ^ 64.
Definition num_val (ctype : Z) (a : aobj) : Z := if C_IS_I ctype then ao_i a else ao_l a.
Definition set_num (ctype : Z) (a : aobj) (v : Z) : aobj := if C_IS_I ctype then set_i a v else set_l a v.

(** The arithmetic of the integer branch, on the number of the predicate. *)
Lemma eval_num_exact atof powf ue ctype op p m :
  ue_op ue = op -> ue_type ue = UETYPE_INT -> strtoul (cstring (ue_pred ue)) = p ->
  op ∈ [PLUS; MINUS; MULT; DIVIDE; MODULO] -> int_or_long ctype ->
  0 <= m < num_max ctype -> 0 <= p < num_max ctype ->
  exists r, eval_num atof powf ue ctype m = Some r /\
    match r with
    | inr v => exact op m p = Some v /\ 0 <= v < num_max ctype
    | inl _ => forall v, exact op m p = Some v -> UINT_MAX <= v
    end.
Proof.
  intros Eop Et Ep Hop Ht Hm Hp. unfold eval_num. rewrite Eop, Et, Ep.
  change (UETYPE_INT =? UETYPE_FLT) with false. cbv iota. cbn [andb mbind option_bind].
  unfold num_max, exact, PLUS, MINUS, MULT, DIVIDE, MODULO, ULONG_MAX, UINT_MAX in *.
  assert (Hq : 0 < p -> 0 <= m / p <= m /\ 0 <= m mod p < p /\ p * (m / p) + m mod p = m).
  { intros. pose proof (Z.div_mod m p). pose proof (Z.mod_pos_bound m p). split; [|split; [lia|lia]].
    split; [apply Z.div_pos; lia|]. apply Z.div_le_upper_bound; nia. }
  assert (Hq2 : 0 < p -> 4294967295 / p < m -> 4294967295 < m * p).
  { intros H0 H. pose proof (Z.div_mod 4294967295 p). pose proof (Z.mod_pos_bound 4294967295 p). nia. }
  assert (Hq3 : 0 < p -> m <= 4294967295 / p -> m * p <= 4294967295).
  { intros H0 H. pose proof (Z.div_mod 4294967295 p). pose proof (Z.mod_pos_bound 4294967295 p). nia. }
  destruct Ht as [-> | ->]; cbn [C_IS_I C_IS_L COL_TYPE_INT COL_TYPE_LONG Z.eqb Pos.eqb andb orb] in *;
    rewrite !elem_of_cons, elem_of_nil in Hop; destruct Hop as [->|[->|[->|[->|[->|[]]]]]]; cbn [Z.eqb Pos.eqb andb orb] in *;
    repeat match goal with
    | |- context [?x =? 0] => destruct (Z.eqb_spec x 0)
    | |- context [?x <? ?y] => destruct (Z.ltb_spec x y)
    | |- context [?x <=? ?y] => destruct (Z.leb_spec x y)
    end; cbn [andb orb mbind option_bind] in *; eexists; (split; [reflexivity|]); cbn [negb];
    repeat match goal with |- context [if (?x <=? ?y) then _ else _] => destruct (Z.leb_spec x y) end;
    try (intros v [= <-]); try (intros v Hv; discriminate); rewrite ?uwrap_small in * by nia; try split; try done; try lia; try nia.
Qed.

(** C19: an UPDATE of an INT or LONG column by an expression with a natural number
    (below 2^32 for INT, 2^64 for LONG) stores exactly what the operator makes of
    the value, or is refused; it is not refused when the result is less than
    2^32 - 1. *)
Theorem update_expr_exact (atof : list Z -> spec_float) (powf : spec_float -> spec_float -> spec_float * bool)
    (ctype op p c plen : Z) (rest : list Z) (cm : Z) (a : aobj) :
  int_or_long ctype -> op ∈ [PLUS; MINUS; MULT; DIVIDE; MODULO] ->
  0 <= num_val ctype a < num_max ctype -> 0 <= p < num_max ctype -> isdigit c = false ->
  exists r, evalExpr atof powf (Ue op cm UETYPE_INT (print_lu p ++ c :: rest) plen) a ctype = Some r /\
    match r with
    | inr a' => exists v, exact op (num_val ctype a) p = Some v /\ a' = set_num ctype a v /\ 0 <= v < num_max ctype
    | inl _ => forall v, exact op (num_val ctype a) p = Some v -> UINT_MAX <= v
    end.
Proof.
  intros Ht Hop Ha Hp Hc. unfold evalExpr.
  assert (En : C_IS_NUM ctype = true) by (by destruct Ht as [-> | ->]). rewrite En.
  assert (H64 : num_max ctype <= 2 ^ 64) by (by destruct Ht as [-> | ->]).
  set (ue := Ue op cm UETYPE_INT (print_lu p ++ c :: rest) plen).
  destruct (eval_num_exact atof powf ue ctype op p (num_val ctype a)) as (r & Er & Hr);
    [done|done|apply pred_number; [lia|done]|done|done|done|done|].
  change (if C_IS_I ctype then ao_i a else ao_l a) with (num_val ctype a). rewrite Er. cbn [mbind option_bind].
  eexists. split; [reflexivity|]. destruct r as [e|v]; [done|]. exists v. destruct Hr as [He Hv].
  split; [done|]. split; [|done]. unfold set_num. by destruct (C_IS_I ctype).
Qed.

(** A library that reads no number, and one that raises to no power. *)
Definition zero_atof (s : list Z) : spec_float := f_zero.
Definition same_powf (a b : spec_float) : spec_float * bool := (a, false).
Definition half_atof (s : list Z) : spec_float := S754_finite false (2 ^ 52) (-53).

Definition sample_ue (op type : Z) (pred : list Z) : ue_t := Ue op 1 type (pred ++ [0]) (Z.of_nat (length pred)).
Definition eval_int (op type : Z) (pred : list Z) (m : Z) :=
  option_map (fun r => match r with inr a => Some (ao_i a) | inl _ => None end)
    (evalExpr half_atof same_powf (sample_ue op type pred) (initIntAobjFromVal m) COL_TYPE_INT).
Definition eval_long (op type : Z) (pred : list Z) (m : Z) :=
  option_map (fun r => match r with inr a => Some (ao_l a) | inl _ => None end)
    (evalExpr half_atof same_powf (sample_ue op type pred) (initLongAobjFromVal m) COL_TYPE_LONG).

(** The remainder by a fraction below 1, here [0.5], is a division by zero; a
    product of a LONG column beyond 32 bits is refused, and one of an INT column
    beyond 64 bits is not; adding a negative number to a LONG column is refused
    when the result is natural, and stores a number near 2^64 when it is not. *)
Theorem expression_faults :
  (forall m, eval_int MODULO UETYPE_FLT [48; 46; 53] m = None) /\
  eval_long MULT UETYPE_INT [49; 48] 1000000000 = Some None /\
  eval_int MULT UETYPE_INT (print_lu (2 ^ 62 + 1)) 4 = Some (Some 4) /\
  eval_long PLUS UETYPE_INT [45; 53] 7 = Some None /\
  eval_long PLUS UETYPE_INT [45; 53] 3 = Some (Some (2 ^ 64 - 2)).
Proof. split; [intros m; reflexivity|]. by vm_compute. Qed.

(** [10 * 7] in a LONG column. *)
Lemma update_expr_exact_witness :
  exists r, evalExpr zero_atof same_powf (Ue MULT 1 UETYPE_INT (print_lu 7 ++ 0 :: []) 1) (initLongAobjFromVal 10) COL_TYPE_LONG = Some r /\
    match r with
    | inr a' => exists v, exact MULT 10 7 = Some v /\ a' = set_num COL_TYPE_LONG (initLongAobjFromVal 10) v /\ 0 <= v < num_max COL_TYPE_LONG
    | inl _ => forall v, exact MULT 10 7 = Some v -> UINT_MAX <= v
    end.
Proof.
  apply (update_expr_exact zero_atof same_powf COL_TYPE_LONG MULT 7 0 1 [] 1 (initLongAobjFromVal 10)); [by right| |done|done|done].
  apply (bool_decide_unpack _). by vm_compute.
Defined.
