(* ===== verification/UpdateOver.v ===== *)
(** * Overwriting a row ([updateOverwrite] of [DB/row.c])

    Numbers overwritten by numbers as wide leave the row that writing its columns
    anew would have made, compressed or not. *)

From Stdlib Require Import Floats.SpecFloat.
From S2P Require InsertParse.
From S2P Require Import Prelude Stream SixBit Hash CStr Row RowLayout RowTrip Aobj Update.

Abbreviation ctype_Z := InsertParse.ctype_Z.

(** ** Overwriting a normal row *)

Lemma write_block pre (bs : list (list Z)) j b b' :
  bs !! j = Some b -> length b' = length b ->
  write_at (pre ++ concat bs) (length pre + length (concat (take j bs))) b' = pre ++ concat (<[j := b']> bs).
Proof.
  intros Hj Hl. assert (Hlt : (j < length bs)%nat) by (by eapply lookup_lt_Some).
  rewrite insert_take_drop by done. rewrite <- (take_drop_middle bs j b Hj) at 1.
  rewrite !concat_app. cbn [concat]. unfold write_at. rewrite (app_assoc pre), <- length_app, take_app_length.
  rewrite <- drop_drop, drop_app_length, Hl, drop_app_length. by rewrite <- app_assoc.
Qed.

Section Overwrite.
Context (rflag w zt : Z) (Hf : flags_ok rflag w zt).
Context (cols : list column) (Hne : cols <> []) (Hn : Z.of_nat (length cols) < TWO_POW_7).

(** The bytes of columns laid out as [cols] says. *)
Definition fits_row (bs : list (list Z)) : Prop :=
  laid 0 cols bs /\ Z.of_nat (length (concat bs)) < 256 ^ w /\ Z.of_nat (length (concat bs)) < 2 ^ 31.

Lemma laid_insert cs : forall bs off j b b', laid off cs bs -> bs !! j = Some b -> length b' = length b -> laid off cs (<[j := b']> bs).
Proof.
  induction cs as [|[t d] cs IH]; intros [|b0 bs] off [|j] b b' Hl Hj E; try done; cbn in *.
  - injection Hj as ->. by rewrite E.
  - destruct Hl as [? Hl]. split; [done|]. by eapply IH.
Qed.

Lemma concat_insert (bs : list (list Z)) j b b' : bs !! j = Some b -> length b' = length b ->
  length (concat (<[j := b']> bs)) = length (concat bs).
Proof.
  intros Hj E. pose proof (write_block [] bs j b b' Hj E) as Hw. cbn [app length] in Hw. rewrite <- Hw.
  unfold write_at. pose proof (concat_take_le bs j b Hj). rewrite !length_app, length_take, length_drop. lia.
Qed.

Lemma fits_insert bs j b b' : fits_row bs -> bs !! j = Some b -> length b' = length b -> fits_row (<[j := b']> bs).
Proof.
  intros (Hl & H1 & H2) Hj E. unfold fits_row. rewrite (concat_insert bs j b b') by done. split; [|done]. by eapply laid_insert.
Qed.

(** One column of the row, overwritten by as many bytes. *)
Lemma normal_overwrite addr bs j b b' :
  fits_row bs -> bs !! j = Some b -> length b' = length b ->
  exists cd, getColData addr (normal_row rflag cols bs) (Z.of_nat (S j)) = Some cd /\
    cd_row cd = normal_row rflag cols bs /\
    write_at (cd_row cd) (cd_start cd) b' = normal_row rflag cols (<[j := b']> bs).
Proof.
  intros (Hl & H1 & H2) Hj E. unfold TWO_POW_7 in *. assert (1 <= length cols)%nat by (destruct cols; [done|cbn; lia]).
  replace (Z.of_nat (S j)) with (Z.of_nat j + 1) by lia.
  eexists. split; [apply (normal_coldata rflag w zt Hf cols bs Hl Hne); try lia; [done|]|].
  { apply csize_pred; unfold TWO_POW_7, TWO_POW_14; lia. }
  split; [done|]. cbn [cd_row cd_start]. rewrite !(normal_row_eq rflag w zt) by (done || lia || by apply (fits_insert bs j b b')).
  rewrite !app_comm_cons, !app_assoc, <- write_block with (b := b) by done. f_equal.
  repeat (rewrite length_app || cbn [length]). rewrite length_enc_col_getCSize, length_chunks, length_fmap. lia.
Qed.

(** *** The columns to overwrite *)

Definition num_bytes (t : Z) (d : crd_t) : list Z :=
  if C_IS_I t then writeUIntCol (iflags d) (icols d) else writeULongCol (iflags d) (icols d).

(** The bytes after the overwriting; every number keeps its width. *)
Fixpoint overs (cs : list (Z * crd_t * Z)) (bs : list (list Z)) : list (list Z) :=
  match cs, bs with
  | (t, d, wd) :: cs, b :: bs => (if wd =? 0 then b else num_bytes t d) :: overs cs bs
  | _, _ => bs
  end.
Fixpoint keeps (cs : list (Z * crd_t * Z)) (bs : list (list Z)) : Prop :=
  match cs, bs with
  | [], _ => True
  | (t, d, wd) :: cs, [] => wd = 0 /\ keeps cs []
  | (t, d, wd) :: cs, b :: bs =>
      (wd = 0 \/ wd <> 0 /\ (C_IS_I t = true \/ C_IS_L t = true) /\ length (num_bytes t d) = length b) /\ keeps cs bs
  end.

Lemma overs_nil cs : overs cs [] = [].
Proof. by destruct cs as [|[[? ?] ?] ?]. Qed.

Lemma keeps_nil rt lru ls fs addr cs : keeps cs [] -> forall i row, updateOverwrite rt lru ls fs addr i cs row = Some row.
Proof. induction cs as [|[[t d] wd] cs IH]; [done|]. intros [-> Hk] i row. cbn. by apply IH. Qed.

Lemma updateOverwrite_ok rt lru ls fs addr : lruc rt = None -> lfuc rt = None ->
  forall cs dn bs, fits_row (dn ++ bs) -> keeps cs bs ->
  updateOverwrite rt lru ls fs addr (S (length dn)) cs (normal_row rflag cols (dn ++ bs))
    = Some (normal_row rflag cols (dn ++ overs cs bs)) /\ fits_row (dn ++ overs cs bs).
Proof.
  intros Hr Hl cs. induction cs as [|[[t d] wd] cs IH]; intros dn bs Hfit Hk; [done|].
  destruct bs as [|b bs].
  { split; [by apply keeps_nil|done]. }
  destruct Hk as [Hw Hk]. cbn [updateOverwrite overs]. unfold is_lru, is_lfu.
  rewrite Hr, Hl, !bool_decide_eq_false_2 by done.
  assert (Hgo : forall b', length b' = length b ->
    let row' := normal_row rflag cols (dn ++ b' :: bs) in
    updateOverwrite rt lru ls fs addr (S (S (length dn))) cs row' = Some (normal_row rflag cols (dn ++ b' :: overs cs bs)) /\
    fits_row (dn ++ b' :: overs cs bs)).
  { intros b' Eb. specialize (IH (dn ++ [b']) bs). rewrite <- !app_assoc, length_app, Nat.add_1_r in IH. apply IH; [|done].
    cbn [app]. rewrite <- (insert_app_mid (length dn) b b' dn bs eq_refl). apply (fits_insert _ _ b); [done|by apply list_lookup_middle|done]. }
  destruct Hw as [-> |(Hw & Ht & Eb)]; [by apply (Hgo b)|].
  destruct (Z.eqb_spec wd 0) as [|_]; [done|].
  destruct (normal_overwrite addr (dn ++ b :: bs) (length dn) b (num_bytes t d) Hfit) as (cd & -> & _ & Ew);
    [by apply list_lookup_middle|done|]. cbn [mbind option_bind].
  rewrite insert_app_mid in Ew by done. unfold num_bytes in *. specialize (Hgo _ Eb). cbv zeta in Hgo.
  destruct (C_IS_I t); [rewrite Ew; by apply Hgo|]. destruct Ht as [|Ht]; [done|]. rewrite Ht, Ew. by apply Hgo.
Qed.
End Overwrite.

(** The data of a number column are those of the number. *)
Definition num_crd (d : crd_t) (v : colval) : Prop :=
  match v with
  | V_INT i => iflags d = sflag (cr8Icol i) /\ icols d = col (cr8Icol i)
  | V_LONG l => iflags d = sflag (cr8Lcol l) /\ icols d = col (cr8Lcol l)
  | _ => True
  end.

(** ** Overwriting is writing anew *)

Abbreviation entry := (Z * crd_t * Z)%type.
Definition set_icols (d : crd_t) (c : Z) : crd_t :=
  Crd (strs d) c (iflags d) (xcols d) (fcols d) (fflags d) (empty d) (mcofsts d).

(** The columns, and their values, after the entries are applied. *)
Fixpoint new_cols (ents : list entry) (cs : list column) : list column :=
  match ents, cs with
  | (_, d, w) :: ents, c :: cs => (c.1, if w =? 0 then c.2 else set_icols c.2 (icols d)) :: new_cols ents cs
  | _, _ => cs
  end.
Fixpoint new_vals (ents : list entry) (wants vs : list colval) : list colval :=
  match ents, wants, vs with
  | (_, _, w) :: ents, x :: wants, v :: vs => (if w =? 0 then v else x) :: new_vals ents wants vs
  | _, _, _ => vs
  end.

Lemma set_icols_same d : set_icols d (icols d) = d.
Proof. by destruct d. Qed.

Lemma new_cols_map {A} (g : column -> A) (Hg : forall t d x, g (t, set_icols d x) = g (t, d)) :
  forall ents cs, g <$> new_cols ents cs = g <$> cs.
Proof.
  induction ents as [|[[t d] w] ents IH]; intros [|[t0 d0] cs]; try done. cbn [new_cols fmap list_fmap fst snd]. rewrite IH.
  by destruct (w =? 0); rewrite ?Hg.
Qed.

Section Rewrite.
Context (writeLua : list Z -> bool).
Context (lzf_compress : list Z -> Z -> option (list Z)) (lzf_decompress : list Z -> Z -> list Z).

Lemma new_types ents cs : types (new_cols ents cs) = types cs.
Proof. by apply new_cols_map. Qed.
Lemma new_length ents cs : length (new_cols ents cs) = length cs.
Proof. rewrite <- (length_fmap fst (new_cols ents cs)), (new_cols_map fst) by done. by rewrite length_fmap. Qed.

Lemma new_existsb (p : column -> bool) ents cs : (forall t d x, p (t, set_icols d x) = p (t, d)) ->
  existsb p (new_cols ents cs) = existsb p cs.
Proof.
  intros Hp. revert cs. induction ents as [|[[t d] w] ents IH]; intros [|[t0 d0] cs]; try done. cbn [new_cols existsb fst snd].
  rewrite IH. by destruct (w =? 0); rewrite ?Hp.
Qed.

Lemma new_lzf : forall ents cs tl ml czd, lzf_cols lzf_compress (new_cols ents cs) tl ml czd = lzf_cols lzf_compress cs tl ml czd.
Proof.
  induction ents as [|[[t d] w] ents IH]; intros [|[t0 d0] cs] tl ml czd; try done. cbn [new_cols lzf_cols fst snd].
  assert (E : strs (if w =? 0 then d0 else set_icols d0 (icols d)) = strs d0) by (by destruct (w =? 0)).
  unfold slens. rewrite E. destruct (Row.C_IS_S t0); [|apply IH]. destruct (lzfZipCol _ _); [apply IH|done].
Qed.

Lemma new_six : forall ents cs czd, six_cols (new_cols ents cs) czd = six_cols cs czd.
Proof.
  induction ents as [|[[t d] w] ents IH]; intros [|[t0 d0] cs] czd; try done. cbn [new_cols six_cols fst snd].
  assert (E : strs (if w =? 0 then d0 else set_icols d0 (icols d)) = strs d0) by (by destruct (w =? 0)). rewrite E.
  destruct (Row.C_IS_S t0); [|apply IH]. destruct (_createSixBit _) as [[z|]|]; cbn; [apply IH|done..].
Qed.

Lemma new_texts ents : forall cs, texts (new_cols ents cs) = texts cs.
Proof.
  induction ents as [|[[t d] w] ents IH]; intros [|[t0 d0] cs]; try done. cbn [new_cols texts fst snd]. by rewrite IH.
Qed.

Lemma new_complete ents cs : lzf_complete lzf_compress (new_cols ents cs) = lzf_complete lzf_compress cs.
Proof. unfold lzf_complete. rewrite new_existsb, new_lzf, new_texts; done. Qed.

Lemma new_mod z : forall ents cs k sh rl,
  mod_cofsts z (new_cols ents cs) k sh rl = option_map (fun r => (new_cols ents r.1, r.2)) (mod_cofsts z cs k sh rl).
Proof.
  induction ents as [|[[t d] w] ents IH]; intros [|[t0 d0] cs] k sh rl; try done.
  { change (new_cols [] ((t0, d0) :: cs)) with ((t0, d0) :: cs). by destruct (mod_cofsts z ((t0, d0) :: cs) k sh rl) as [[? ?]|]. }
  cbn [new_cols mod_cofsts fst snd].
  assert (E : zip_diff z k (if w =? 0 then d0 else set_icols d0 (icols d)) = zip_diff z k d0).
  { by destruct (w =? 0). }
  rewrite E. destruct (if Row.C_IS_S t0 then zip_diff z k d0 else Some 0) as [diff|]; [|done]. cbn [mbind option_bind].
  rewrite IH. destruct (mod_cofsts z cs _ _ _) as [[cs' rl']|]; [|done]. cbn [option_map mbind option_bind fst snd new_cols].
  do 2 f_equal. f_equal. by destruct (w =? 0).
Qed.

Lemma new_zip ents cs rl cn : zipCol lzf_compress (Cr (new_cols ents cs) rl cn) =
  option_map (fun r => (Cr (new_cols ents (cols r.1)) (rlen r.1) (cnt r.1), r.2)) (zipCol lzf_compress (Cr cs rl cn)).
Proof.
  unfold zipCol. cbn [cols rlen cnt]. rewrite new_existsb, new_lzf by done.
  set (tz := if existsb _ cs then _ else _). destruct tz as [type lzf].
  rewrite new_six. destruct (if type =? CZIP_SIX then six_cols cs [] else Some (Some [])) as [[six|]|]; cbn [mbind option_bind]; [|done|done].
  rewrite new_mod. by destruct (mod_cofsts _ cs _ _ _) as [[cs' rl']|].
Qed.

(** An entry keeps a column, or gives a number column a number as wide. *)
Definition entry_ok (c : column) (e : entry) (want : colval) : Prop :=
  e.2 = 0 \/ e.2 <> 0 /\ e.1.1 = ctype_Z c.1 /\ (c.1 = C_INT \/ c.1 = C_LONG) /\ iflags e.1.2 = iflags c.2 /\
    empty c.2 = false /\ col_ok writeLua c.1 (set_icols c.2 (icols e.1.2)) want /\ num_crd (set_icols c.2 (icols e.1.2)) want.
Definition entries_ok (cs : list column) (ents : list entry) (wants : list colval) : Prop :=
  length wants = length ents /\
  forall j e want, ents !! j = Some e -> wants !! j = Some want ->
    match cs !! j with Some c => entry_ok c e want | None => e.2 = 0 end.

Lemma entries_tail c cs e ents v wants : entries_ok (c :: cs) (e :: ents) (v :: wants) -> entry_ok c e v /\ entries_ok cs ents wants.
Proof.
  intros [Hl H]. split; [by apply (H 0%nat)|]. split; [by injection Hl|]. intros j e' w' He Hw. by apply (H (S j)).
Qed.

Lemma entries_over ents wants : entries_ok [] ents wants -> keeps ents [].
Proof.
  revert wants. induction ents as [|[[t d] w] ents IH]; intros [|v wants] [Hl H]; try done. cbn. split; [by apply (H 0%nat (t, d, w) v)|].
  apply (IH wants). split; [by injection Hl|]. intros j e' w' He Hw. by apply (H (S j) e' w').
Qed.

Lemma wUCol_width f a b isi : length (wUCol f a isi) = length (wUCol f b isi).
Proof. unfold wUCol. repeat case_match; cbn [length]; by rewrite ?length_le_bytes. Qed.

(** The bytes of a number column. *)
Lemma number_bytes z k t d b :
  t = C_INT \/ t = C_LONG -> col_bytes writeLua z k t d = Some (Some b) -> b = num_bytes (ctype_Z t) d.
Proof. intros [-> | ->] [= <-]; done. Qed.

Lemma new_stored z : forall cs bs vs ents wants k,
  RowLayout.stored writeLua lzf_decompress z k cs bs vs -> entries_ok cs ents wants ->
  RowLayout.stored writeLua lzf_decompress z k (new_cols ents cs) (overs ents bs) (new_vals ents wants vs) /\ keeps ents bs.
Proof.
  induction cs as [|[t0 d0] cs IH]; intros [|b bs] [|v vs] ents wants k Hst He; try done.
  { rewrite overs_nil. destruct ents as [|[[t d] w] ents]; [by destruct wants|]. destruct wants as [|x wants]; [by destruct He|].
    split; [done|]. by eapply entries_over. }
  destruct ents as [|[[t d] w] ents]; [by destruct wants|]. destruct wants as [|x wants]; [by destruct He|].
  destruct (entries_tail _ _ _ _ _ _ He) as [He0 He']. cbn [RowLayout.stored] in Hst. destruct Hst as (H1 & H2 & H3 & H4 & Hr).
  destruct (IH bs vs ents wants _ Hr He') as [IH1 IH2]. cbn [new_cols overs new_vals RowLayout.stored keeps fst snd].
  destruct He0 as [E|(Hw & Et & Hn & Ef & _ & Hok & _)]; cbn [fst snd] in *.
  { rewrite E. cbn [Z.eqb]. split_and!; try done. by left. }
  destruct (Z.eqb_spec w 0) as [|_]; [done|]. assert (Hns : Row.C_IS_S t0 = false) by (by destruct Hn as [-> | ->]).
  rewrite Hns in *. destruct (plain_stored writeLua lzf_decompress z k t0 _ x Hok Hns) as (b' & P1 & P2 & P3).
  pose proof (number_bytes z k t0 _ _ Hn P1) as Eb'. pose proof (number_bytes z k t0 _ _ Hn H1) as Eb.
  assert (Enb : num_bytes t d = b').
  { rewrite Eb', Et. unfold num_bytes. cbn [set_icols iflags icols]. by rewrite Ef. }
  rewrite Enb. split; [split_and!; try done; lia|]. split; [|done]. right. split; [done|]. split.
  - rewrite Et. destruct Hn as [-> | ->]; [by left|by right].
  - rewrite Eb, <- Enb, Et. unfold num_bytes. rewrite Ef. destruct (C_IS_I (ctype_Z t0)); apply wUCol_width.
Qed.

(** What the columns are worth after the entries, as before. *)
Lemma new_facts : forall cs vs ents wants off, entries_ok cs ents wants -> cols_ok writeLua cs vs -> empties_ok cs vs ->
  Forall2 (fun c v => num_crd c.2 v) cs vs -> raw_laid off cs ->
  cols_ok writeLua (new_cols ents cs) (new_vals ents wants vs) /\ empties_ok (new_cols ents cs) (new_vals ents wants vs) /\
  Forall2 (fun c v => num_crd c.2 v) (new_cols ents cs) (new_vals ents wants vs) /\ raw_laid off (new_cols ents cs) /\
  total_len (new_cols ents cs) = total_len cs.
Proof.
  induction cs as [|[t0 d0] cs IH]; intros vs ents wants off He Hc Hm Hn Hl.
  { inversion Hc; subst. destruct ents as [|[[t d] w] ents], wants as [|x wants]; done. }
  inversion Hc as [|? v ? vs' Hc0 Hc']; subst. inversion Hm as [|? ? ? ? Hm0 Hm']; subst. inversion Hn as [|? ? ? ? Hn0 Hn']; subst.
  destruct ents as [|[[t d] w] ents]; [by destruct wants|]. destruct wants as [|x wants]; [by destruct He|].
  destruct (entries_tail _ _ _ _ _ _ He) as [He0 He']. cbn [new_cols new_vals raw_laid total_len fst snd] in *. destruct Hl as [Hl0 Hl].
  assert (Er : raw_len t0 (if w =? 0 then d0 else set_icols d0 (icols d)) = raw_len t0 d0).
  { destruct (w =? 0); [done|]. destruct t0; try done; cbn; f_equal; apply wUCol_width. }
  destruct (IH vs' ents wants (off + raw_len t0 d0) He' Hc' Hm' Hn' Hl) as (I1 & I2 & I3 & I4 & I5). rewrite Er, I5.
  assert (H0 : let d' := if w =? 0 then d0 else set_icols d0 (icols d) in let v' := if w =? 0 then v else x in
    col_ok writeLua t0 d' v' /\ (empty d' = true -> norm v' = V_EMPTY \/ Row.C_IS_O t0 = true) /\ num_crd d' v').
  { cbv zeta. unfold entry_ok in He0. cbn [fst snd] in He0. destruct He0 as [->|(Hw & _ & _ & _ & Hem & Hok & Hnum)]; [done|].
    destruct (Z.eqb_spec w 0) as [|_]; [done|]. split_and!; try done. cbn. by rewrite Hem. }
  destruct H0 as (H1 & H2 & H3). split_and!; try (by constructor); try done. by destruct (w =? 0).
Qed.

Lemma new_vals_lookup : forall ents wants vs j, length wants = length ents ->
  match vs !! j with
  | Some v => exists v', new_vals ents wants vs !! j = Some v' /\
      forall e x, ents !! j = Some e -> wants !! j = Some x -> v' = if e.2 =? 0 then v else x
  | None => new_vals ents wants vs !! j = None
  end.
Proof.
  induction ents as [|[[t d] w] ents IH]; intros [|x wants] vs j Hl; try done.
  { cbn. destruct (vs !! j); [|done]. by eexists. }
  destruct vs as [|v vs]; [done|]. destruct j as [|j]; cbn.
  - eexists. split; [done|]. intros e y [= <-] [= <-]. done.
  - apply IH. by injection Hl.
Qed.

Lemma entries_same cs cs' ents wants : Forall2 same_data cs cs' -> entries_ok cs ents wants -> entries_ok cs' ents wants.
Proof.
  intros HF [Hl H]. split; [done|]. intros j e want He Hw. specialize (H j e want He Hw).
  destruct (cs' !! j) as [c'|] eqn:Ec'.
  - destruct (Forall2_lookup_r _ _ _ _ _ HF Ec') as (c & Ec & Et & Ed). rewrite Ec in H. unfold entry_ok in *. rewrite Et, Ed.
    destruct H as [?|(H1 & H2 & H3 & H4 & H5 & H6 & H7)]; [by left|right]. split_and!; try done.
    by apply (col_ok_offset _ _ (set_icols c.2 (icols e.1.2))).
  - rewrite lookup_ge_None, <- (Forall2_length _ _ _ HF), <- lookup_ge_None in Ec'. by rewrite Ec' in H.
Qed.
End Rewrite.
