(* ===== verification/UpdateCols.v ===== *)
(** * The columns of an UPDATE ([updateRow] of [DB/row.c])

    What the first loop of [updateRow] takes for the value of a column, and what
    the second makes of it for the row. *)

From Stdlib Require Import Floats.SpecFloat.
From S2P Require InsertParse.
From S2P Require Import Prelude Stream SixBit Hash CStr Row RowLayout RowTrip RowInsert Aobj BtKey GetCol Update UpdateOver.

(** ** Values of columns *)

(** What a column of the type can hold. *)
Definition storable (t : Row.ctype) (v : colval) : Prop :=
  val_ok t v \/ (v = V_EMPTY /\ t <> C_U128 /\ t <> C_LUAO) \/ (t = C_FLOAT /\ exists f, v = V_FLOAT f /\ 0 <= f < 2 ^ 32).

(** An object that holds the value. *)
Definition rep (t : Row.ctype) (a : aobj) (v : colval) : Prop :=
  match norm v with
  | V_EMPTY => ao_len a = 0 /\ (ao_empty a = true \/ t = C_STRING)
  | V_INT i => ao_empty a = false /\ ao_i a = i
  | V_LONG l => ao_empty a = false /\ ao_l a = l
  | V_U128 x => ao_empty a = false /\ ao_x a = x
  | V_FLOAT f => ao_empty a = false /\ ao_f a = f
  | V_STRING s => ao_len a = Z.of_nat (length s) /\ ao_str a = Some s
  | V_LUAO => False
  end.

Definition col_size (v : colval) : Z := match v with V_STRING s => Z.of_nat (length s) | _ => 16 end.
Definition sizes (vs : list colval) : Z := foldr (fun v n => col_size v + n) 0 vs.


Lemma csize_pos l isi : 1 <= csize (cIcol l isi) <= 9.
Proof. rewrite csize_getCSize. apply getCSize_pos. Qed.

Section Columns.
Context (writeLua : list Z -> bool) (queue_CQ : aobj -> bool) (rt : r_tbl_t) (lru : Z).
Context (Hlru : lruc rt = None) (Hlfu : lfuc rt = None).

Lemma not_lru i : is_lru rt i = false /\ is_lfu rt i = false.
Proof. unfold is_lru, is_lfu. by rewrite Hlru, Hlfu, !bool_decide_eq_false_2. Qed.

(** The data collected for a column. *)
Definition collected (t : Row.ctype) (v : colval) (d : crd_t) : Prop :=
  (exists w, col_ok writeLua t d w /\ norm w = norm v) /\ 0 <= raw_len t d <= col_size v /\
  (empty d = true -> raw_len t d = 0 /\ norm v = V_EMPTY) /\ num_crd d v.

Lemma up_crd_ok i t u a v cq off :
  (0 < i)%nat -> storable t v -> rep t a v ->
  exists d n, up_crd queue_CQ rt lru i (ctype_Z t) u a cq = Some (inr (d, n, cq)) /\
    collected t v (set_place d (n =? 0) off) /\ raw_len t (set_place d (n =? 0) off) = n /\ C_IS_O (ctype_Z t) = false.
Proof.
  intros Hi Hs Ha. unfold up_crd. destruct (Nat.eqb_spec i 0); [lia|]. destruct (not_lru i) as [-> ->].
  unfold collected, rep in *.
  destruct Hs as [Hv|[(-> & HU & HO)|(-> & f & -> & Hf)]].
  - destruct Hv as [k Hk|k Hk|x Hx|str HA HL]; cbn [norm] in Ha.
    + destruct Ha as [Hem Hv]. change (C_IS_I _) with true. rewrite Hem, Hv. cbv iota.
      eexists _, _. split; [reflexivity|]. pose proof (csize_pos k true) as Hc. unfold cr8Icol in *.
      destruct (Z.eqb_spec (csize (cIcol k true)) 0); [lia|]. cbn [raw_len iflags icols set_place empty num_crd].
      change (writeUIntCol _ _) with (enc_col k true). rewrite length_enc_col. unfold col_size.
      split_and!; try done; try lia. exists (V_INT k). split; [by apply ok_int|done].
    + destruct Ha as [Hem Hv]. change (C_IS_I _) with false. change (C_IS_L _) with true. rewrite Hem, Hv. cbv iota.
      eexists _, _. split; [reflexivity|]. pose proof (csize_pos k false) as Hc. unfold cr8Lcol in *.
      destruct (Z.eqb_spec (csize (cIcol k false)) 0); [lia|]. cbn [raw_len iflags icols set_place empty num_crd].
      change (writeULongCol _ _) with (enc_col k false). rewrite length_enc_col. unfold col_size.
      split_and!; try done; try lia. exists (V_LONG k). split; [by apply ok_long|done].
    + destruct Ha as [Hem Hv]. cbn [ctype_Z C_IS_I C_IS_L C_IS_X]. rewrite Hem, Hv. cbn.
      eexists _, _. split; [reflexivity|]. cbn. split_and!; try done; try lia. exists (V_U128 x).
      split; [by apply (ok_u128 writeLua (set_place (Crd [] 0 0 x 0 false false 0) false off))|done].
    + cbn [ctype_Z].
      assert (Hm : ao_len a = Z.of_nat (length str) /\ (if ao_len a =? 0 then Some [] else ao_str a) = Some str).
      { destruct str as [|c str]; cbn [norm] in Ha.
        - destruct Ha as [-> _]. by cbn.
        - destruct Ha as [-> ->]. destruct (Z.eqb_spec (Z.of_nat (length (c :: str))) 0); [cbn in *; lia|done]. }
      destruct Hm as [El ->]. rewrite El. cbn. eexists _, _. split; [reflexivity|].
      cbn [set_place raw_len slens strs empty col_size]. unfold slens. cbn [strs].
      split_and!; try done; try lia.
      * exists (V_STRING str). split; [|done]. by apply (ok_text writeLua (Crd str 0 0 0 0 false (Z.of_nat (length str) =? 0) off)).
      * intros E. destruct str as [|c str]; [done|]. apply Z.eqb_eq in E. cbn [length] in E. lia.
  - destruct Ha as [El He]. cbn [norm] in *. destruct t; try done; cbn [ctype_Z].
    all: try (destruct He as [He|]; [|done]; rewrite He; cbn; eexists _, _; (split; [reflexivity|]); cbn; split_and!; try done; try lia; exists V_EMPTY; (split; [|done])).
    + by apply ok_int_empty.
    + by apply ok_long_empty.
    + by apply ok_float_empty.
    + rewrite El. cbn. eexists _, _. split; [reflexivity|]. cbn. split_and!; try done; try lia. exists (V_STRING []). split; [|done].
      by apply (ok_text writeLua (Crd [] 0 0 0 0 false true off)).
  - cbn [norm] in Ha. destruct Ha as [Hem Hv]. cbn [ctype_Z]. rewrite Hem, Hv. cbn. eexists _, _. split; [reflexivity|].
    cbn. split_and!; try done; try lia. exists (V_FLOAT f). split; [by apply (ok_float writeLua (Crd [] 0 0 0 f true false off))|done].
Qed.

(** The columns of the row to be, collected one after the other. *)
Lemma up_crds_ok : forall ts avs vs us i rl cq,
  (0 < i)%nat -> Forall3 (fun t a v => storable t v /\ rep t a v) ts avs vs -> length us = length ts ->
  0 <= rl -> rl + sizes vs < 2 ^ 31 ->
  exists ds, up_crds queue_CQ rt lru i (zip (ctype_Z <$> ts) us) avs rl cq = Some (inr (ds, rl + total_len (zip ts ds), cq)) /\
    Forall3 collected ts vs ds /\ raw_laid rl (zip ts ds) /\ total_len (zip ts ds) <= sizes vs.
Proof.
  induction ts as [|t ts IH]; intros avs vs us i rl cq Hi HF Hu Hrl Hb.
  { inversion HF; subst. exists []. cbn. rewrite Z.add_0_r. split_and!; try done. constructor. }
  inversion HF as [|? a v ? avs' vs' [Hs Ha] HF']; subst. destruct us as [|u us]; [done|]. injection Hu as Hu.
  cbn [fmap list_fmap zip zip_with up_crds]. cbn [sizes foldr] in Hb. fold (sizes vs') in Hb.
  assert (Hp : 0 <= sizes vs').
  { clear. induction vs' as [|v vs IH]; cbn [sizes foldr]; [lia|]. fold (sizes vs). unfold col_size. destruct v; lia. }
  destruct (up_crd_ok i t u a v cq 0 Hi Hs Ha) as (d & n & E & (_ & Hn & _) & Er & _).
  destruct (up_crd_ok i t u a v cq (rl + n) Hi Hs Ha) as (d' & n' & E' & Hc & Er' & Ho).
  rewrite E in E'. injection E' as <- <-. rewrite Er in Hn. rewrite E, Ho. cbn [mbind option_bind].
  rewrite (uwrap_small 32) by lia.
  destruct (IH avs' vs' us (S i) (rl + n) cq) as (ds & -> & HF2 & Hl & Ht); [lia|done|done|lia|lia|].
  cbn [mbind option_bind]. rewrite (swrap_small 32) by lia.
  exists (set_place d (n =? 0) (rl + n) :: ds). cbn [zip zip_with total_len raw_laid sizes foldr]. rewrite Er'. split_and!; try done; try lia.
  - do 4 f_equal. lia.
  - by constructor.
  - fold (sizes vs'). lia.
Qed.

Lemma collected_cols ts vs ds : Forall3 collected ts vs ds ->
  exists ws, cols_ok writeLua (zip ts ds) ws /\ empties_ok (zip ts ds) ws /\ Forall2 (fun w v => norm w = norm v) ws vs /\
    Forall2 (fun c v => num_crd c.2 v) (zip ts ds) ws.
Proof.
  induction 1 as [|t v d ts vs ds ((w & Hw & Hn) & _ & He & Hd) _ (ws & H1 & H2 & H3 & H4)]; [exists []; split_and!; constructor|].
  exists (w :: ws). split_and!; constructor; try done; cbn.
  - intros E. left. rewrite Hn. by apply He.
  - destruct w as [|?|?|?|?|[|]|], v as [|?|?|?|?|[|]|]; try done; by injection Hn as ->.
Qed.

(** Nothing is lost at the end of the row. *)
Lemma trimmed_len ts vs ds m : Forall3 collected ts vs ds ->
  (forall j d, ds !! j = Some d -> (m <= j)%nat -> empty d = true) ->
  total_len (take m (zip ts ds)) = total_len (zip ts ds).
Proof.
  intros HF. revert m. induction HF as [|t v d ts vs ds (_ & _ & He & _) HF IH]; intros m Hm; [by destruct m|].
  destruct m as [|m]; cbn [zip zip_with take total_len].
  - destruct He as [-> _]; [by apply (Hm 0%nat); [|lia]|]. rewrite <- (IH 0%nat); [done|]. intros j d' Hj _. by apply (Hm (S j)); [|lia].
  - f_equal. apply IH. intros j d' Hj Hle. apply (Hm (S j)); [done|lia].
Qed.

Lemma last_filled_spec ds : forall i n, (n <= i)%nat ->
  (last_filled ds i n = n /\ Forall (fun d => empty d = true) ds) \/
  exists p d, ds !! p = Some d /\ empty d = false /\ last_filled ds i n = S (i + p) /\
    forall j d', ds !! j = Some d' -> (p < j)%nat -> empty d' = true.
Proof.
  induction ds as [|d ds IH]; intros i n Hn; [by left|]. cbn [last_filled]. destruct (empty d) eqn:Ed.
  - destruct (IH (S i) n) as [[E HF]|(p & d' & Hp & Ed' & E & Hall)]; [lia|left; by split; [|constructor]|].
    right. exists (S p), d'. split_and!; try done; [lia|]. intros [|j] d0 Hj Hlt; [lia|]. apply (Hall j); [done|lia].
  - right. destruct (IH (S i) (S i)) as [[E HF]|(p & d' & Hp & Ed' & E & Hall)]; [lia| |].
    + exists 0%nat, d. split_and!; try done; [lia|]. intros [|j] d0 Hj Hlt; [lia|]. rewrite Forall_lookup in HF. by apply (HF j).
    + exists (S p), d'. split_and!; try done; [lia|]. intros [|j] d0 Hj Hlt; [lia|]. apply (Hall j); [done|lia].
Qed.
End Columns.

(** ** The values of the columns *)

Section Values.
Context (atof : list Z -> spec_float) (powf : spec_float -> spec_float -> spec_float * bool) (evalLuaExpr : nat -> aobj -> option aobj).
Context (rt : r_tbl_t) (Hlru : lruc rt = None) (Hlfu : lfuc rt = None).
Context (indxd : nat -> bool) (getcol : Z -> aobj -> cptr -> option aobj) (lua_col : Z -> aobj -> aobj) (opk : aobj) (orow : cptr).

Definition num_aobj (v : colval) : aobj :=
  match v with V_INT i => initIntAobjFromVal i | V_LONG l => initLongAobjFromVal l | _ => initAobj end.
Definition num_colval (t : Row.ctype) (a : aobj) : colval :=
  match t with C_INT => V_INT (ao_i a) | _ => V_LONG (ao_l a) end.

(** What the statement gives column [i]: nothing, a text, or an expression of a
    number; a U128 column must be indexed to be given a value. *)
Inductive gives (i : nat) (t : Row.ctype) : ucol -> colval -> colval -> Prop :=
| g_keep v : gives i t no_ucol v v
| g_value old want : val_ok t want -> (t = C_U128 -> indxd i = true) ->
    gives i t (UCol true false (render want) None false) old want
| g_expr ue hit nlo txt le old a : t = C_INT \/ t = C_LONG -> norm old <> V_EMPTY ->
    evalExpr atof powf ue (num_aobj old) (ctype_Z t) = Some (inr a) -> val_ok t (num_colval t a) ->
    gives i t (UCol hit nlo txt (Some ue) le) old (num_colval t a).

(** The old row holds the value. *)
Definition holds (i : nat) (t : Row.ctype) (v : colval) : Prop :=
  exists v' rfl, getcol (Z.of_nat i) opk orow = Some (colval_aobj lua_col rfl (Z.of_nat i) opk v') /\ norm v' = norm v /\
    forall s, v' = V_STRING s -> t = C_STRING.

(** The number overwritten keeps the width of the old one. *)
Definition narrowed (t : Row.ctype) (old want : colval) (w : Z) : Prop :=
  w <> 0 /\ ((t = C_INT /\ exists o n, old = V_INT o /\ want = V_INT n /\ w = sflag (cr8Icol o)) \/
             (t = C_LONG /\ exists o n, old = V_LONG o /\ want = V_LONG n /\ w = sflag (cr8Lcol o))).

(** What the first loop makes of a column. *)
Record valued (f : flags) (t : Row.ctype) (old want : colval) (a : aobj) (w : Z) (f' : flags) : Prop := {
  vd_rep : rep t a want;
  vd_lua : f_lodlt f' = f_lodlt f /\ f_cq f' = f_cq f;
  vd_over : f_ovrwr f' = true -> f_ovrwr f = true /\ (w = 0 /\ norm want = norm old \/ narrowed t old want w);
}.

Lemma storable_not_lua t v : storable t v -> t <> C_LUAO.
Proof. intros [H|[(_ & _ & H)|(H & _)]] E; [rewrite E in H; inversion H|done|congruence]. Qed.

(** The object of a value read. *)
Lemma rep_read t v v' rfl c pk : storable t v -> norm v' = norm v -> (forall s, v' = V_STRING s -> t = C_STRING) ->
  rep t (colval_aobj lua_col rfl c pk v') v.
Proof.
  intros Hs Hn Ht. unfold rep. rewrite <- Hn.
  assert (Hr : match v with V_INT i => 0 <= i < 2 ^ 32 | V_LONG l => 0 <= l < 2 ^ 64 | V_U128 x => 0 <= x < 2 ^ 128 | V_LUAO => False | _ => True end).
  { destruct Hs as [Hv|[(-> & _)|(_ & f & -> & _)]]; [by destruct Hv|done|done]. }
  destruct v' as [|i|l|x|f|[|c0 s]|]; cbn [norm colval_aobj] in *; try done;
    try (destruct v as [| | | | |[|]|]; try done; injection Hn as ->; cbn; by rewrite uwrap_small by lia).
  - cbn. split; [done|by left].
  - cbn. split; [done|]. right. by apply (Ht []).
  - split; [done|]. unfold ao_str. cbn [ao_s ao_len deref mbind option_bind].
    unfold slice. by rewrite Nat2Z.id, Nat.add_0_l, Nat.leb_refl, drop_0, firstn_all.
Qed.

Lemma parseU128_render x : 0 <= x < 2 ^ 128 -> parseU128 (cstring (render (V_U128 x))) = Some x.
Proof.
  intros Hx. cbn [render].
  assert (Hh : 0 <= x / 2 ^ 64 < 2 ^ 64) by (split; [apply Z.div_pos; lia|apply Z.div_lt_upper_bound; lia]).
  assert (Hlo : 0 <= x mod 2 ^ 64 < 2 ^ 64) by (apply Z.mod_pos_bound; lia).
  destruct (print_lu_digits _ Hh) as (HF & Hne & _), (print_lu_digits _ Hlo) as (HF2 & Hne2 & _).
  rewrite cstring_id by (apply Forall_app; split; [|constructor; [done|]]; by apply digits_nonzero).
  unfold parseU128. erewrite (proj2 (list_find_Some _ _ (length (print_lu (x / 2 ^ 64))) 124)); [|split_and!].
  - rewrite drop_app_ge, Nat.sub_succ_l, Nat.sub_diag by lia. cbn [drop]. rewrite drop_0. unfold _parseU128.
    rewrite strtoul_prefix, !strtoul_print by done. destruct (print_lu (x mod 2 ^ 64)); [done|]. f_equal.
    rewrite Z.mul_comm, <- Z.div_mod; [done|lia].
  - by apply list_lookup_middle.
  - done.
  - intros j y Hj Hlt ->. rewrite lookup_app_l in Hj by done. by apply (Forall_lookup_1 _ _ _ _ HF) in Hj.
Qed.

(** The object of a value written as text. *)
Lemma rep_value t v : val_ok t v -> exists a, up_value atof (ctype_Z t) (render v) = Some (inr a) /\ rep t a v.
Proof.
  destruct 1 as [i Hi|l Hl|x Hx|s HA HL]; unfold rep, up_value; cbn [norm].
  - cbn [render ctype_Z]. destruct (number_string i) as (E & _); [lia|]. change (C_IS_I _) with true. cbv iota. rewrite E.
    unfold TWO_POW_32. destruct (Z.leb_spec 4294967296 i); [lia|]. eexists. split; [done|]. cbn. by rewrite uwrap_small by lia.
  - cbn [render ctype_Z]. destruct (number_string l) as (E & _); [lia|]. change (C_IS_I _) with false. change (C_IS_L _) with true.
    cbv iota. rewrite E. by eexists.
  - rewrite parseU128_render by done. by eexists.
  - cbn [render]. change (C_IS_I _) with false. change (C_IS_L _) with false. change (C_IS_X _) with false.
    change (C_IS_F _) with false. change (C_IS_S _) with true. cbv iota. cbn [length]. rewrite length_app. cbn [length].
    destruct (Z.ltb_spec (Z.of_nat (S (length s + 1))) 2); [lia|]. eexists. split; [reflexivity|].
    unfold initAobjString. rewrite uwrap_small by lia.
    replace (Z.of_nat (S (length s + 1)) - 2) with (Z.of_nat (length s)) by lia.
    assert (Es : ao_str (Aobj (S_MEM (drop 1 (39 :: s ++ [39]))) (Z.of_nat (length s)) 0 0 0 0 false COL_TYPE_STRING COL_TYPE_STRING false false) = Some s).
    { unfold ao_str. cbn [ao_s ao_len deref mbind option_bind drop]. unfold slice. rewrite Nat2Z.id, !drop_0, length_app. cbn [length].
      destruct (Nat.leb_spec (0 + length s) (length s + 1)); [|lia]. by rewrite take_app_length. }
    destruct s as [|c s]; [cbn; split; [done|by right]|]. split; [done|exact Es].
Qed.

#[local] Abbreviation col_of i t u f := (up_col atof powf evalLuaExpr rt indxd getcol i (ctype_Z t) u f opk orow).

(** The width of an old value that is to be overwritten. *)
Lemma old_width t v v' rfl c : storable t v -> norm v' = norm v -> (forall s, v' = V_STRING s -> t = C_STRING) ->
  C_IS_NUM (ctype_Z t) = true ->
  let a := colval_aobj lua_col rfl c opk v' in
  (aobj_sflag a).1 = true -> norm v <> V_EMPTY /\
    ((t = C_INT /\ exists o, v = V_INT o /\ a = initIntAobjFromVal o /\ (aobj_sflag a).2 = sflag (cr8Icol o)) \/
     (t = C_LONG /\ exists o, v = V_LONG o /\ a = initLongAobjFromVal o /\ (aobj_sflag a).2 = sflag (cr8Lcol o)) \/ t = C_U128).
Proof.
  intros Hs Hn Htv Ht a Ha.
  destruct Hs as [Hv|[(-> & _ & _)|(-> & f & -> & _)]]; [|destruct v' as [|?|?|?|?|[|]|]; try done; by rewrite (Htv [] eq_refl) in Ht|done].
  destruct Hv as [i Hi|l Hl|x Hx|str _ _]; try done; destruct v' as [|?|?|?|?|[|]|]; try done; injection Hn as ->.
  - split; [done|]. left. split; [done|]. exists i. unfold a. cbn. by rewrite uwrap_small by lia.
  - split; [done|]. right; left. split; [done|]. exists l. unfold a. cbn. by rewrite uwrap_small by lia.
  - split; [done|]. by do 2 right.
Qed.

Lemma sflag_pos l isi : sflag (cIcol l isi) <> 0.
Proof. unfold cIcol. repeat case_match; done. Qed.

Lemma eval_keeps ue a ct b : evalExpr atof powf ue a ct = Some (inr b) -> ao_empty b = ao_empty a.
Proof.
  unfold evalExpr. destruct (C_IS_NUM ct); [|destruct (C_IS_F ct)].
  - destruct (eval_num _ _ _ _ _) as [[e|m]|]; cbn; try done. intros [= <-]. by destruct (C_IS_I ct).
  - destruct (eval_float _ _ _ _) as [e|m]; [done|]. by intros [= <-].
  - by intros [= <-].
Qed.

Lemma up_col_ok i t u f old want :
  (0 < i)%nat -> gives i t u old want -> storable t old -> storable t want -> holds i t old ->
  exists a w f', col_of i t u f = Some (inr (a, w, f')) /\ valued f t old want a w f'.
Proof.
  intros Hi Hg Hso Hsw (v' & rfl & Hget & Hn & Htv). unfold up_col. destruct (not_lru rt Hlru Hlfu i) as [-> ->].
  rewrite Hget. cbn [mbind option_bind]. set (a := colval_aobj lua_col rfl (Z.of_nat i) opk v') in *.
  pose proof (rep_read t old v' rfl (Z.of_nat i) opk Hso Hn Htv) as Hra. fold a in Hra.
  pose proof (old_width t old v' rfl (Z.of_nat i) Hso Hn Htv) as Hw. cbv zeta in Hw. fold a in Hw.
  destruct Hg as [v|old want Hv HU|ue hit nlo txt le old b Ht Hne Hev Hb]; cbn [u_ue u_le u_hit u_val no_ucol].
  - eexists _, _, _. split; [reflexivity|]. split; [done|done|]. intros Hf. split; [done|by left].
  - destruct (rep_value t want Hv) as (b & Eb & Hrb). rewrite Eb.
    assert (Ho : C_IS_O (ctype_Z t) = false) by (by destruct Hv). rewrite Ho.
    destruct (OVRWR indxd i (f_ovrwr f) (ctype_Z t)) eqn:EO; cbn [mbind option_bind].
    + unfold OVRWR in EO. apply andb_prop in EO as [EO Hix]. apply andb_prop in EO as [EO Hnum]. apply andb_prop in EO as [_ Hov].
      destruct (aobj_sflag a) as [ok w] eqn:Es. eexists _, _, _. split; [reflexivity|].
      destruct ok; split; try done; [by split; [rewrite orb_false_r|]|intros _|by split; [cbn; rewrite orb_false_r|]].
      split; [done|]. right. destruct (Hw Hnum eq_refl) as (_ & [(Et & o & -> & _ & E)|[(Et & o & -> & _ & E)|Et]]).
      * subst t. cbn in E. subst w. inversion Hv; subst. split; [apply sflag_pos|]. left. split; [done|]. by eexists _, _.
      * subst t. cbn in E. subst w. inversion Hv; subst. split; [apply sflag_pos|]. right. split; [done|]. by eexists _, _.
      * rewrite (HU Et) in Hix. done.
    + eexists _, _, _. split; [reflexivity|]. split; [done| |done]. split; [|done]. cbn. by rewrite orb_false_r.
  - assert (Hold : a = num_aobj old /\ exists o, old = V_INT o /\ t = C_INT /\ (aobj_sflag a) = (true, sflag (cr8Icol o)) \/
      old = V_LONG o /\ t = C_LONG /\ (aobj_sflag a) = (true, sflag (cr8Lcol o))).
    { unfold a. destruct Ht as [-> | ->]; (destruct Hso as [Ho|[(-> & _ & _)|(? & _)]]; [|done|done]); inversion Ho; subst;
        (destruct v' as [|?|?|?|?|[|]|]; try done); injection Hn as ->; (split; [done|]); eexists; [left|right]; (split; [done|]);
        (split; [done|]); unfold aobj_sflag; cbn; by rewrite uwrap_small by lia. }
    destruct Hold as [Ea (o & Ho)]. rewrite <- Ea in Hev. rewrite Hev.
    assert (Hae : ao_empty a = false) by (rewrite Ea; destruct Ho as [(-> & _)|(-> & _)]; done). rewrite Hae.
    assert (Es : exists w, aobj_sflag a = (true, w) /\ (narrowed t old (num_colval t b) w)).
    { destruct Ho as [(-> & -> & ->)|(-> & -> & ->)]; (eexists; split; [done|]); (split; [apply sflag_pos|]);
        [left|right]; (split; [done|]); by eexists _, _. }
    destruct Es as (w & Es & Hnar). rewrite Es.
    assert (Hrb : rep t b (num_colval t b)).
    { assert (Hem : ao_empty b = false) by (by rewrite (eval_keeps _ _ _ _ Hev)). by destruct Ht as [-> | ->]. }
    destruct (OVRWR indxd i (f_ovrwr f) (ctype_Z t)) eqn:EO; cbn [mbind option_bind]; eexists _, _, _; (split; [reflexivity|]).
    + unfold OVRWR in EO. apply andb_prop in EO as [EO _]. apply andb_prop in EO as [EO _]. apply andb_prop in EO as [_ Hov].
      split; [done|done|]. intros _. split; [done|by right].
    + split; [done|done|done].
Qed.

(** All the columns. *)
Lemma up_cols_ok : forall ts us olds wants i f,
  (0 < i)%nat -> length us = length ts -> length olds = length ts -> length wants = length ts ->
  (forall j t u old want, ts !! j = Some t -> us !! j = Some u -> olds !! j = Some old -> wants !! j = Some want ->
     gives (i + j) t u old want /\ storable t old /\ storable t want /\ holds (i + j) t old) ->
  exists avws f', up_cols atof powf evalLuaExpr rt indxd getcol i (zip (ctype_Z <$> ts) us) f opk orow = Some (inr (avws, f')) /\
    Forall3 (fun t a v => storable t v /\ rep t a v) ts avws.*1 wants /\ f_lodlt f' = f_lodlt f /\ f_cq f' = f_cq f /\
    (f_ovrwr f' = true -> f_ovrwr f = true /\
       forall j t old want w, ts !! j = Some t -> olds !! j = Some old -> wants !! j = Some want -> avws.*2 !! j = Some w ->
         w = 0 /\ norm want = norm old \/ narrowed t old want w).
Proof.
  induction ts as [|t ts IH]; intros [|u us] [|old olds] [|want wants] i f Hi Hu Ho Hw Hall; try done.
  { exists [], f. cbn. split; [done|]. split; [constructor|]. split_and!; try done. }
  destruct (Hall 0%nat t u old want) as (Hg & Hso & Hsw & Hh); try done. rewrite Nat.add_0_r in *.
  destruct (up_col_ok i t u f old want Hi Hg Hso Hsw Hh) as (a & w & f1 & E & [Hr [H1 H2] H3]).
  destruct (IH us olds wants (S i) f1) as (avws & f2 & E2 & HF & H4 & H5 & H6); [lia|by injection Hu|by injection Ho|by injection Hw| |].
  { intros j t' u' o' w' Ht' Hu' Ho' Hw'. rewrite Nat.add_succ_comm. by apply (Hall (S j)). }
  cbn [fmap list_fmap zip zip_with up_cols]. rewrite E. cbn [mbind option_bind]. rewrite E2. cbn [mbind option_bind].
  exists ((a, w) :: avws), f2. split_and!; try done; try congruence.
  - cbn. by constructor.
  - intros Hf. destruct (H6 Hf) as [Hf1 Hl]. destruct (H3 Hf1) as [Hf0 Hc]. split; [done|].
    intros [|j] t' o' w' x Ht' Ho' Hw' Hx; cbn in *; [|by apply (Hl j t' o' w' x)]. by simplify_eq.
Qed.
End Values.
