(* ===== verification/UpdateLaws.v ===== *)
(** * The row of an UPDATE reads back ([updateRow] of [DB/row.c])

    Whether the old row is overwritten or a new one is made, every column of the
    result reads as the value the UPDATE gives it, or as it did before. *)

From Stdlib Require Import Floats.SpecFloat.
From S2P Require InsertParse.
From S2P Require Import Prelude Stream SixBit Hash CStr Row RowLayout RowTrip RowInsert Aobj BtKey GetCol Update UpdateOver UpdateCols.

(** ** The row made anew *)

(** LZF is not tried, no text being long, or fits every text. *)
Definition texts_fit (lzf_compress : list Z -> Z -> option (list Z)) (vs : list colval) : Prop :=
  Forall (fun v => match v with V_STRING s => (length s <= 20)%nat | _ => True end) vs \/
  forall s, s = [] \/ V_STRING s ∈ vs -> is_Some (lzf_compress s (Z.max 4 (u32 (Z.of_nat (length s) + 4)))).

Section MadeAnew.
Context (writeLua : list Z -> bool).
Context (lzf_compress : list Z -> Z -> option (list Z)) (lzf_decompress : list Z -> Z -> list Z).
Context (lzf_spec : forall s m z, lzf_compress s m = Some z ->
  lzf_decompress z (Z.of_nat (length s)) = s /\ Z.of_nat (length z) <= m).
Context (rt : r_tbl_t) (Hlru : lruc rt = None) (Hlfu : lfuc rt = None).
Context (Hcols : (length (coltypes rt) < 99)%nat).

Lemma lzf_all cs : (forall t d, (t, d) ∈ cs -> t = C_STRING -> is_Some (lzf_compress (strs d) (Z.max 4 (u32 (slens d + 4))))) ->
  forall tl ml czd, length (lzf_cols lzf_compress cs tl ml czd).2 = (length czd + texts cs)%nat.
Proof.
  induction cs as [|[t d] cs IH]; intros H tl ml czd; [cbn; lia|]. cbn [lzf_cols texts].
  assert (H' : forall t d, (t, d) ∈ cs -> t = C_STRING -> is_Some (lzf_compress (strs d) (Z.max 4 (u32 (slens d + 4)))))
    by (intros ? ? Hin; apply H; by right).
  destruct t; cbn [Row.C_IS_S]; try by apply IH.
  destruct (H C_STRING d) as [z Hz]; [by left|done|]. unfold lzfZipCol. fold (slens d). rewrite Hz. cbn [mbind option_bind].
  rewrite IH by done. rewrite length_app. cbn. lia.
Qed.

Lemma collected_text ts vs ds t d : Forall3 (collected writeLua) ts vs ds -> (t, d) ∈ zip ts ds -> t = C_STRING ->
  strs d = [] \/ V_STRING (strs d) ∈ vs.
Proof.
  induction 1 as [|t0 v d0 ts vs ds ((w & Hw & Hn) & _) _ IH]; cbn [zip zip_with]; [by rewrite elem_of_nil|].
  rewrite elem_of_cons. intros [[= -> ->]|Hin] ->; [|destruct IH as [?|?]; [done|done|by left|right; by right]].
  destruct (text_value writeLua d0 w Hw) as (-> & _). destruct (strs d0) as [|c s]; [by left|]. right.
  destruct v as [| | | | |[|]|]; try done. cbn in Hn. injection Hn as -> ->. by left.
Qed.

Lemma texts_complete ts vs ds n : Forall3 (collected writeLua) ts vs ds -> texts_fit lzf_compress vs ->
  lzf_complete lzf_compress (take n (zip ts ds)) = true.
Proof.
  intros HF Hfit. unfold lzf_complete.
  assert (Hin : forall t d, (t, d) ∈ take n (zip ts ds) -> t = C_STRING -> strs d = [] \/ V_STRING (strs d) ∈ vs).
  { intros t d Hin. apply (collected_text ts vs ds); [done|]. apply elem_of_take in Hin as (i & Hi & _). by eapply list_elem_of_lookup_2. }
  destruct Hfit as [Hs|Hs].
  - replace (existsb _ _) with false; [done|]. symmetry. apply not_true_is_false. rewrite existsb_exists.
    intros ([t d] & Hx & E). apply list_elem_of_In in Hx. cbn in E. destruct t; try done. cbn in E. apply Z.ltb_lt in E. unfold slens in E.
    destruct (Hin C_STRING d Hx eq_refl) as [E0|Hv]; [rewrite E0 in E; cbn in E; lia|].
    rewrite Forall_forall in Hs. specialize (Hs _ Hv). cbn in Hs. lia.
  - pose proof (lzf_all (take n (zip ts ds))) as Hl. specialize (Hl ltac:(intros t d H1 H2; apply Hs; by apply (Hin t d)) 0 0 []).
    destruct (lzf_cols _ _ 0 0 []) as [[tl ml] czd]. cbn in Hl. rewrite Hl, Nat.eqb_refl. by rewrite orb_true_r.
Qed.

(** Reading a column of the row as the value given; columns past those stored read
    as empty. *)
Definition row_reads (row : list Z) (vs : list colval) : Prop :=
  forall addr mem i t v, coltypes rt !! i = Some t -> vs !! i = Some v -> t <> C_LUAO -> mem_ok mem v -> (2 <= length mem)%nat ->
    exists v' row', getRawCol lzf_decompress mem addr row t (Z.of_nat i + 1) = Some (v', row') /\ norm v' = norm v.

Lemma mem_ok_norm mem v w : norm w = norm v -> mem_ok mem v -> (2 <= length mem)%nat -> mem_ok mem w.
Proof.
  intros Hn Hm H2. destruct w as [|?|?|?|?|[|c s]|]; try done. destruct v as [|?|?|?|?|[|]|]; cbn in Hn; try done.
  by injection Hn as <- <-.
Qed.

Lemma reads_columns row m vs ws :
  reads_back lzf_decompress row (take m (coltypes rt)) ws -> length vs = length (coltypes rt) ->
  Forall2 (fun w v => norm w = norm v) ws (take m vs) ->
  (forall i v, vs !! i = Some v -> (m <= i)%nat -> norm v = V_EMPTY) -> row_reads row vs.
Proof.
  intros Hrb Hl Hws Hpast addr mem i t v Ht Hv Ho Hm H2. destruct (Hrb addr mem) as [Hin Hbeyond].
  destruct (decide (i < m)%nat) as [Hi|Hi].
  - assert (Hv' : take m vs !! i = Some v) by (by rewrite lookup_take_lt).
    destruct (Forall2_lookup_r _ _ _ _ _ Hws Hv') as (w & Hw & Hn).
    destruct (Hin i t w) as (v' & row' & E & Hn'); [by rewrite lookup_take_lt|done|by eapply mem_ok_norm|].
    exists v', row'. split; [done|]. congruence.
  - destruct (Hbeyond i t) as [row' E]; [rewrite length_take; lia|apply lookup_lt_Some in Ht; lia|by destruct t|].
    exists V_EMPTY, row'. split; [done|]. rewrite (Hpast i v Hv); [done|lia].
Qed.

End MadeAnew.

Section Written.
Context (writeLua : list Z -> bool).
Context (lzf_compress : list Z -> Z -> option (list Z)) (lzf_decompress : list Z -> Z -> list Z).
Context (lzf_spec : forall s m z, lzf_compress s m = Some z ->
  lzf_decompress z (Z.of_nat (length s)) = s /\ Z.of_nat (length z) <= m).
Context (zs : bool) (rt : r_tbl_t) (Hlru : lruc rt = None) (Hlfu : lfuc rt = None).
Context (Hcols : (length (coltypes rt) < 99)%nat).

(** The row is what [writeRow] makes of columns with these values; the columns
    left out at its end are empty. *)
Definition written (row : list Z) (olds : list colval) : Prop :=
  exists cr vs, cr_ok writeLua cr vs /\ types (cols cr) = take (length (cols cr)) (coltypes rt) /\
    Forall2 (fun c v => num_crd c.2 v) (cols cr) vs /\ lzf_complete lzf_compress (cols cr) = true /\
    writeRow lzf_compress writeLua zs cr = Some (Some row) /\ length olds = length (coltypes rt) /\
    forall j old, olds !! j = Some old -> match vs !! j with Some v => norm v = norm old | None => norm old = V_EMPTY end.

Lemma few_cols cr : types (cols cr) = take (length (cols cr)) (coltypes rt) -> (length (cols cr) < 99)%nat.
Proof. intros E. apply (f_equal length) in E. unfold types in E. rewrite length_fmap, length_take in E. lia. Qed.

Lemma small_row cs L n rflag : (length cs < 99)%nat -> createHashRow (Cr cs L n) rflag = Some None.
Proof.
  intros H. unfold createHashRow, ncols, MIN_NUM_COLS_FOR_HASH_ROW. cbn [cols].
  destruct (Z.ltb_spec (Z.of_nat (length cs) + 1) 100); [done|lia].
Qed.

Lemma written_reads row olds : written row olds -> row_reads lzf_decompress rt row olds.
Proof.
  intros (cr & vs & Hok & Hty & _ & Hlz & Ew & Hlen & Hv). pose proof (few_cols cr Hty) as Hf.
  destruct (row_ok writeLua lzf_compress lzf_decompress lzf_spec zs cr vs Hok Hlz) as (row' & Ew' & Hrb & _);
    [unfold TWO_POW_7; lia|unfold TWO_POW_14; lia|apply collisions_few; lia|].
  rewrite Ew in Ew'. injection Ew' as <-. rewrite Hty in Hrb.
  assert (Hlv : length vs = length (cols cr)) by (symmetry; eapply Forall2_length, Hok).
  assert (Hlc : (length (cols cr) <= length (coltypes rt))%nat).
  { apply (f_equal length) in Hty. unfold types in Hty. rewrite length_fmap, length_take in Hty. lia. }
  apply (reads_columns lzf_decompress rt Hcols row (length (cols cr)) olds vs); try done.
  - apply Forall2_same_length_lookup_2; [rewrite length_take; lia|]. intros j v old Hj Ho.
    apply lookup_take_Some in Ho as [Ho _]. specialize (Hv j old Ho). by rewrite Hj in Hv.
  - intros i v Hi Hge. specialize (Hv i v Hi). rewrite (lookup_ge_None_2 vs i) in Hv by lia. done.
Qed.

(** What [updateRow] found in the columns to overwrite. *)
Definition overwritable (olds wants : list colval) (ds : list crd_t) (ws : list Z) : Prop :=
  Forall3 (collected writeLua) (coltypes rt) wants ds /\ Forall2 storable (coltypes rt) wants /\
  length ws = length ds /\ same_widths ws ds = true /\
  forall j t old want w, coltypes rt !! j = Some t -> olds !! j = Some old -> wants !! j = Some want -> ws !! j = Some w ->
    w = 0 /\ norm want = norm old \/ narrowed t old want w.

Lemma same_widths_lookup : forall ws ds j w d, same_widths ws ds = true -> ws !! j = Some w -> ds !! j = Some d -> w = 0 \/ w = iflags d.
Proof.
  induction ws as [|w0 ws IH]; intros [|d0 ds] [|j] w d E Hw Hd; try done; cbn in *; apply andb_prop in E as [E E'].
  - injection Hw as ->. injection Hd as ->. apply orb_prop in E as [E|E]; apply Z.eqb_eq in E; auto.
  - by eapply IH.
Qed.

Abbreviation entries ds ws := (zip (zip (ctype_Z <$> coltypes rt) ds) ws).

Lemma overwritable_entries olds wants ds ws cr vs :
  overwritable olds wants ds ws -> cr_ok writeLua cr vs -> types (cols cr) = take (length (cols cr)) (coltypes rt) ->
  Forall2 (fun c v => num_crd c.2 v) (cols cr) vs -> length olds = length (coltypes rt) ->
  (forall j old, olds !! j = Some old -> match vs !! j with Some v => norm v = norm old | None => norm old = V_EMPTY end) ->
  entries_ok writeLua (cols cr) (entries ds ws) wants.
Proof.
  intros (HF & Hsw & Hlw & Hs & Hn) Hok Hty Hnum Hlo Hv.
  pose proof (Forall3_length_lm _ _ _ _ HF) as Hl1. pose proof (Forall3_length_lr _ _ _ _ HF) as Hl2.
  split; [rewrite !length_zip_with, length_fmap; lia|]. intros j [[tz d] w] want He Hw.
  apply lookup_zip_with_Some in He as ([tz' d'] & w' & [= <- <- <-] & He & Hjw). apply lookup_zip_with_Some in He as (tz' & d' & [= <- <-] & Ht & Hd).
  rewrite list_lookup_fmap in Ht. destruct (coltypes rt !! j) as [t|] eqn:Et; [|done]. cbn in Ht. injection Ht as <-.
  destruct (lookup_lt_is_Some_2 olds j) as [old Ho]; [apply lookup_lt_Some in Et; lia|].
  assert (Hvc : match vs !! j, cols cr !! j with Some v, Some c => norm v = norm old /\ num_crd c.2 v /\ (empty c.2 = true -> norm v = V_EMPTY \/ Row.C_IS_O c.1 = true) /\ c.1 = t
    | None, None => norm old = V_EMPTY | _, _ => False end).
  { specialize (Hv j old Ho). destruct (cols cr !! j) as [c|] eqn:Ec.
    - destruct (Forall2_lookup_l _ _ _ _ _ Hnum Ec) as (v & Ev & Hnc). rewrite Ev in *. split_and!; try done.
      + apply (Forall2_lookup_lr _ _ _ _ _ _ (cr_empties _ _ _ Hok) Ec Ev).
      + assert (Hx : types (cols cr) !! j = Some c.1) by (unfold types; by rewrite list_lookup_fmap, Ec).
        rewrite Hty in Hx. apply lookup_take_Some in Hx as [Hx _]. congruence.
    - rewrite lookup_ge_None, (Forall2_length _ _ _ Hnum), <- lookup_ge_None in Ec. by rewrite Ec in Hv |- *. }
  pose proof (same_widths_lookup ws ds j w d Hs Hjw Hd) as Hwd.
  destruct (Hn j t old want w Et Ho Hw Hjw) as [[-> _]|(Hw0 & Hnar)]; [destruct (cols cr !! j); [by left|done]|].
  destruct Hwd as [|Hwd]; [done|]. destruct (Forall3_lookup_lmr _ _ _ _ _ _ _ _ HF Et Hw Hd) as (_ & _ & _ & Hnd).
  pose proof (Forall2_lookup_lr _ _ _ _ _ _ Hsw Et Hw) as Hst.
  destruct (vs !! j) as [v|], (cols cr !! j) as [c|]; try done; [|by destruct Hnar as [(_ & o & n & -> & _)|(_ & o & n & -> & _)]].
  destruct Hvc as (Ev & Hnc & Hec & Ec). right. cbn [fst snd]. rewrite Ec.
  destruct Hnar as [(-> & o & n & -> & -> & E)|(-> & o & n & -> & -> & E)];
    (destruct v as [| | | | |[|]|]; try done); injection Ev as ->; destruct Hnc as [Hf _]; destruct Hnd as [Hf2 Hi2];
    (assert (Hem : empty c.2 = false) by (destruct (empty c.2); [destruct (Hec eq_refl) as [?|Hx]; [done|by rewrite Ec in Hx]|done]));
    (assert (Hr : storable _ _) by exact Hst); destruct Hst as [Hst|[(? & _)|(? & _)]]; try done; inversion Hst; subst.
  - split_and!; try done; [by left|congruence| |cbn; split; congruence]. apply ok_int; cbn; [done|congruence|done].
  - split_and!; try done; [by right|congruence| |cbn; split; congruence]. apply ok_long; cbn; [done|congruence|done].
Qed.

(** A row of few columns: the columns as [zipCol] leaves them, their bytes, and
    what the same row is with other numbers. *)
Lemma row_rewritten cr vs ents wants :
  cr_ok writeLua cr vs -> lzf_complete lzf_compress (cols cr) = true -> (length (cols cr) < 99)%nat ->
  entries_ok writeLua (cols cr) ents wants ->
  exists rflag w zt cols' bs, flags_ok rflag w zt /\ length cols' = length (cols cr) /\ fits_row w cols' bs /\ keeps ents bs /\
    writeRow lzf_compress writeLua zs cr = Some (Some (normal_row rflag cols' bs)) /\
    writeRow lzf_compress writeLua zs (Cr (new_cols ents (cols cr)) (rlen cr) (cnt cr)) = Some (Some (normal_row rflag cols' (overs ents bs))).
Proof.
  intros Hok Hlz Hfew He.
  destruct (row_made writeLua lzf_compress lzf_decompress lzf_spec zs cr vs Hok Hlz)
    as (cols' & z & bs & w & rflag & Ez & Erf & Ew & Hst & Hlb & HF & HL & Hf & Hw & _).
  destruct (same_types _ _ HF) as (_ & Elen & _).
  destruct (new_stored writeLua lzf_decompress z cols' bs vs ents wants 0 Hst (entries_same _ _ _ _ _ HF He)) as [Hst2 Hk].
  assert (Hfit : fits_row w cols' bs) by done.
  assert (Hlen2 : length (concat (overs ents bs)) = length (concat bs)).
  { clear -Hk. revert bs Hk. induction ents as [|[[t d] w] ents IH]; intros [|b bs] Hk; try done. destruct Hk as [Hb Hk].
    cbn [overs concat]. rewrite !length_app, IH by done. destruct Hb as [->|(Hw & _ & Eb)]; [done|]. by destruct (Z.eqb_spec w 0); rewrite ?Eb. }
  exists rflag, w, (z_type z), cols', bs. split_and!; try done.
  { by rewrite Ew, small_row by lia. }
  unfold writeRow. cbn [cols]. unfold contains_text_col in *. rewrite new_existsb by done.
  assert (Ez2 : (if existsb (fun c => Row.C_IS_S c.1) (cols cr) && zs then zipCol lzf_compress (Cr (new_cols ents (cols cr)) (rlen cr) (cnt cr))
      else Some (Cr (new_cols ents (cols cr)) (rlen cr) (cnt cr), Zip CZIP_NONE [] []))
    = Some (Cr (new_cols ents cols') (Z.of_nat (length (concat bs))) (cnt cr), z)).
  { destruct (_ && zs).
    - rewrite new_zip. destruct cr as [cs rl cn]. cbn [cols rlen cnt] in *. by rewrite Ez.
    - injection Ez as -> <-. by destruct cr as [cs rl cn]. }
  rewrite Ez2. cbn [mbind option_bind]. unfold row_header. cbn [cols rlen]. rewrite <- Erf, small_row by (rewrite new_length; lia).
  cbn [mbind option_bind]. rewrite (emitted_concat _ _ _ _ _ (stored_emitted _ _ _ _ _ _ _ Hst2)). cbn [mbind option_bind option_map].
  do 2 f_equal. unfold normal_row. rewrite Hlen2. unfold ncols. cbn [cols]. rewrite new_length.
  by rewrite (new_cols_map (fun c : column => set_col_offst rflag (mcofsts c.2))).
Qed.

Lemma overwrite_written addr ls fs lru row olds wants ds ws :
  written row olds -> overwritable olds wants ds ws ->
  exists row', updateOverwrite rt lru ls fs addr 1 (entries ds ws) row = Some row' /\ written row' wants.
Proof.
  intros (cr & vs & Hok & Hty & Hnum & Hlz & Ew & Hlo & Hv) Hov. pose proof (few_cols cr Hty) as Hfew.
  pose proof (overwritable_entries olds wants ds ws cr vs Hov Hok Hty Hnum Hlo Hv) as He. set (ents := entries ds ws) in *.
  destruct (row_rewritten cr vs ents wants Hok Hlz Hfew He) as (rflag & w & zt & cols' & bs & Hf & Elen & Hfit & Hk & Ew1 & Ew2).
  rewrite Ew in Ew1. injection Ew1 as ->. pose proof Hok as [Hc Hem Hl Hr Hne Hsz Hnc].
  destruct (new_facts writeLua (cols cr) vs ents wants 0 He Hc Hem Hnum Hl) as (N1 & N2 & N3 & N4 & N5).
  destruct (updateOverwrite_ok rflag w zt Hf cols' ltac:(by destruct cols', (cols cr)) ltac:(unfold TWO_POW_7; lia) rt lru ls fs addr Hlru Hlfu ents [] bs Hfit Hk)
    as [Eo _]. eexists. split; [exact Eo|]. cbn [app].
  exists (Cr (new_cols ents (cols cr)) (rlen cr) (cnt cr)), (new_vals ents wants vs). cbn [cols rlen cnt].
  rewrite new_types, new_length, new_complete. destruct Hov as (HF & _ & Hlw & _ & Hn). destruct He as [Hle He].
  split; [|split_and!; try done].
  - split; cbn [cols rlen]; rewrite ?N5, ?new_length; try done. intros E. by apply (f_equal length) in E; rewrite new_length in E; destruct (cols cr).
  - by rewrite <- (Forall3_length_lm _ _ _ _ HF).
  - intros j want Hj. pose proof (new_vals_lookup ents wants vs j Hle) as Hnv.
    destruct (lookup_lt_is_Some_2 olds j) as [old Ho]; [apply lookup_lt_Some in Hj; rewrite Hlo, (Forall3_length_lm _ _ _ _ HF); done|].
    specialize (Hv j old Ho). destruct (Forall3_lookup_m _ _ _ _ _ _ HF Hj) as (t & d & Ht & Hd & _).
    destruct (lookup_lt_is_Some_2 ws j) as [w0 Hw0]; [apply lookup_lt_Some in Hd; lia|].
    specialize (Hn j t old want w0 Ht Ho Hj Hw0). destruct (vs !! j) as [v|].
    + destruct Hnv as (v' & -> & Hv'). rewrite (Hv' ((InsertParse.ctype_Z t, d), w0) want); [|unfold ents|done].
      * cbn [snd]. destruct Hn as [[-> En]|[Hw _]]; [cbn; congruence|]. by destruct (Z.eqb_spec w0 0).
      * rewrite lookup_zip_with. rewrite lookup_zip_with, list_lookup_fmap, Ht, Hd, Hw0. done.
    + rewrite Hnv. destruct Hn as [[_ ->]|[_ Hnar]]; [done|]. by destruct Hnar as [(_ & o & n & -> & _)|(_ & o & n & -> & _)].
Qed.
(** A row made anew. *)
Lemma new_row_written vs ds key :
  Forall3 (collected writeLua) (coltypes rt) vs ds -> raw_laid 0 (zip (coltypes rt) ds) ->
  total_len (zip (coltypes rt) ds) < 2 ^ 30 -> texts_fit lzf_compress vs -> empty key = true ->
  Exists (fun v => norm v <> V_EMPTY) vs ->
  exists row, up_write lzf_compress writeLua zs rt (up_ncols rt (key :: ds)) (key :: ds) (total_len (zip (coltypes rt) ds)) = Some (Some row) /\
    written row vs.
Proof.
  intros HF Hl Hsz Hfit Hk Hne. unfold up_ncols. rewrite Hlru, Hlfu. cbn [last_filled]. rewrite Hk.
  assert (Hdt : forall j v d, vs !! j = Some v -> ds !! j = Some d -> empty d = true -> norm v = V_EMPTY).
  { intros j v d Hv Hd He. destruct (Forall3_lookup_m _ _ _ _ _ _ HF Hv) as (t' & d' & _ & Hd' & _ & _ & Hem & _).
    assert (d' = d) as -> by congruence. by apply Hem. }
  apply Exists_exists in Hne as (v0 & Hin0 & Hv0). apply list_elem_of_lookup in Hin0 as [j0 Hj0].
  destruct (Forall3_lookup_m _ _ _ _ _ _ HF Hj0) as (t0 & d0 & _ & Hd0 & _).
  destruct (last_filled_spec ds 1 0) as [[_ Hall]|(p & dp & Hp & Hep & -> & Hafter)]; [lia| |].
  { exfalso. apply Hv0. apply (Hdt j0 v0 d0 Hj0 Hd0). rewrite Forall_lookup in Hall. by apply (Hall j0). }
  replace (S (1 + p)) with (S (S p)) by lia. cbn [up_write tail]. set (m := S p).
  assert (Hld : length ds = length (coltypes rt)) by (symmetry; by apply (Forall3_length_lr _ _ _ _ HF)).
  assert (Hlv : length vs = length (coltypes rt)) by (symmetry; by apply (Forall3_length_lm _ _ _ _ HF)).
  assert (Htl : total_len (take m (zip (coltypes rt) ds)) = total_len (zip (coltypes rt) ds)).
  { apply (trimmed_len writeLua _ vs); [done|]. intros j d Hj Hle. apply (Hafter j d Hj). lia. }
  destruct (collected_cols writeLua _ _ _ HF) as (ws & Hco & Hes & Hws & Hnums).
  assert (Hpl : (p < length (coltypes rt))%nat) by (rewrite <- Hld; by eapply lookup_lt_Some).
  assert (Hlen : length (take m (zip (coltypes rt) ds)) = m) by (rewrite length_take, length_zip_with; lia).
  set (cr := Cr (take m (zip (coltypes rt) ds)) (total_len (zip (coltypes rt) ds)) 0).
  assert (Hok : cr_ok writeLua cr (take m ws)).
  { split; cbn [cols rlen cr]; try (rewrite ?Hlen, ?Htl; lia || done).
    - by apply Forall2_take.
    - by apply Forall2_take.
    - clear -Hl. revert Hl. generalize 0. generalize m. induction (zip (coltypes rt) ds) as [|[t d] cs IH]; intros [|n] off; try done.
      cbn. intros [? ?]. split; [done|]. by apply IH.
    - intros E. rewrite E in Hlen. done. }
  destruct (row_ok writeLua lzf_compress lzf_decompress lzf_spec zs cr (take m ws) Hok) as (row & E & _ & _).
  - by eapply texts_complete.
  - unfold TWO_POW_7. cbn [cols cr]. rewrite Hlen. lia.
  - unfold TWO_POW_14. cbn [cols cr]. rewrite Hlen. lia.
  - apply collisions_few. cbn [cols cr]. rewrite Hlen. lia.
  - exists row. split; [exact E|]. exists cr, (take m ws). split; [done|].
    assert (Hty : types (cols cr) = take m (coltypes rt)).
    { unfold types. cbn [cols cr]. rewrite fmap_take, fst_zip by lia. done. }
    split_and!; try done.
    + cbn [cols cr]. by rewrite Hlen.
    + by apply Forall2_take.
    + by eapply texts_complete.
    + intros i v Hv. destruct (Forall2_lookup_r _ _ _ _ _ Hws Hv) as (w & Hw & Hn).
      destruct (decide (i < m)%nat) as [Hi|Hi]; [by rewrite lookup_take_lt, Hw|]. rewrite lookup_take_ge by lia.
      destruct (Forall3_lookup_m _ _ _ _ _ _ HF Hv) as (t & d & _ & Hd & _). apply (Hdt i v d Hv Hd). apply (Hafter i d Hd). lia.
Qed.
End Written.

(** ** The whole row *)

Section Whole.
Context (atof : list Z -> spec_float) (powf : spec_float -> spec_float -> spec_float * bool).
Context (lzf_compress : list Z -> Z -> option (list Z)) (lzf_decompress : list Z -> Z -> list Z).
Context (lzf_spec : forall s m z, lzf_compress s m = Some z ->
  lzf_decompress z (Z.of_nat (length s)) = s /\ Z.of_nat (length z) <= m).
Context (writeLua : list Z -> bool) (zs : bool) (evalLuaExpr : nat -> aobj -> option aobj) (queue_CQ : aobj -> bool).
Context (rt : r_tbl_t) (Hlru : lruc rt = None) (Hlfu : lfuc rt = None) (Hcols : (length (coltypes rt) < 99)%nat).
Context (s : bts_t) (Hs : NORM_BT s = true) (pktyp : Z) (indxd : nat -> bool) (nltrgr : bool) (lua_col : Z -> aobj -> aobj).
Context (buf : list Z) (addr lru : Z) (ls fs : bool).

Definition row_col (c : Z) (apk : aobj) (orow : cptr) : option aobj := getCol lzf_decompress lua_col buf addr s rt orow c apk.

Lemma norm_not_other : OTHER_BT s = false.
Proof. unfold NORM_BT, OTHER_BT in *. apply Z.eqb_eq in Hs. by rewrite Hs. Qed.

Lemma decode_string mem rflag t data clen str : decode_col lzf_decompress mem rflag t data clen = Some (V_STRING str) -> t = C_STRING.
Proof.
  unfold decode_col. destruct (_ && _); [done|]. destruct t; try done; repeat match goal with |- context [mbind _ ?x] => destruct x as [[? ?]|]; cbn end; done.
Qed.

(** A column read is held. *)
Lemma read_holds row olds opk i t old :
  row_reads lzf_decompress rt row olds -> coltypes rt !! i = Some t -> olds !! i = Some old -> storable t old ->
  mem_ok buf old -> (2 <= length buf)%nat -> holds row_col lua_col opk (PMem row) (S i) t old.
Proof.
  intros Hrr Ht Ho Hst Hm H2. destruct (Hrr addr buf i t old Ht Ho) as (v' & row' & E & Hn); [by eapply storable_not_lua|done|done|].
  unfold getRawCol in E. replace (Z.of_nat i + 1) with (Z.of_nat (S i)) in E by lia. unfold holds, row_col, getCol.
  destruct (Z.ltb_spec (Z.of_nat (S i)) (-1)); [lia|]. rewrite norm_not_other.
  destruct (Z.eqb_spec (Z.of_nat (S i)) (-1)); [lia|]. destruct (Z.eqb_spec (Z.of_nat (S i)) 0); [lia|].
  replace (Z.to_nat (Z.of_nat (S i) - 1)) with i by lia. rewrite Ht. cbn [mbind option_bind BtKey.mem].
  destruct (getColData addr row (Z.of_nat (S i))) as [cd|]; [|done]. cbn [mbind option_bind] in E |- *.
  destruct (decode_col _ _ _ _ _ _) as [v|] eqn:Ed; [|done]. cbn [mbind option_bind] in E |- *. injection E as -> <-.
  exists v', (cd_rflag cd). split; [done|]. split; [done|]. intros str ->. by eapply decode_string.
Qed.

(** The key after the UPDATE: a copy of the old one, or of the one given. *)
Inductive key_gives (opk : aobj) : ucol -> aobj -> Prop :=
| k_keep a npk : pk_aobj s opk = Some a -> cloneAobj a = Some npk -> key_gives opk no_ucol npk
| k_value txt a npk : up_value atof pktyp txt = Some (inr a) -> C_IS_O pktyp = false -> cloneAobj a = Some npk ->
    key_gives opk (UCol true false txt None false) npk.

Lemma up_key opk orow u0 npk ov : key_gives opk u0 npk ->
  exists a w ov', up_col atof powf evalLuaExpr rt indxd row_col 0 pktyp u0 (Flags ov false false) opk orow
      = Some (inr (a, w, Flags ov' false false)) /\ cloneAobj a = Some npk /\ (ov' = true -> u0 = no_ucol /\ ov = true).
Proof.
  intros Hk. unfold up_col. destruct (not_lru rt Hlru Hlfu 0) as [-> ->].
  destruct Hk as [a npk Ha Hc|txt a npk Hv Ho Hc]; cbn [u_ue u_le u_hit no_ucol u_val f_ovrwr f_lodlt f_cq OVRWR Nat.eqb negb andb mbind option_bind].
  - assert (E : row_col (Z.of_nat 0) opk orow = pk_aobj s opk).
    { unfold row_col, getCol. change (Z.of_nat 0) with 0. cbn [Z.ltb Z.eqb Z.compare]. by rewrite norm_not_other. }
    rewrite E, Ha. cbn. by eexists _, _, _.
  - rewrite Hv. cbn. rewrite Ho. by eexists _, _, _.
Qed.

Lemma update_row_ok row olds wants u0 us opk npk :
  written writeLua lzf_compress zs rt row olds -> Forall2 storable (coltypes rt) olds -> Forall2 storable (coltypes rt) wants ->
  length us = length (coltypes rt) ->
  (forall i t u old want, coltypes rt !! i = Some t -> us !! i = Some u -> olds !! i = Some old -> wants !! i = Some want ->
     gives atof powf indxd (S i) t u old want) ->
  key_gives opk u0 npk -> Exists (fun v => norm v <> V_EMPTY) wants -> sizes wants < 2 ^ 30 -> texts_fit lzf_compress wants ->
  Forall (mem_ok buf) olds -> (2 <= length buf)%nat ->
  exists r, updateRow atof powf lzf_compress writeLua zs evalLuaExpr queue_CQ rt s pktyp indxd nltrgr row_col lru ls fs addr opk (PMem row) (u0 :: us)
      = Some (inr r) /\
    match r with
    | UP_OVR row' => u0 = no_ucol /\ written writeLua lzf_compress zs rt row' wants
    | UP_NEW npk' nrow => npk' = npk /\ exists row', nrow = PMem row' /\ written writeLua lzf_compress zs rt row' wants
    end.
Proof.
  intros Hw Hso Hsw Hlu Hg Hk Hne Hsz Hfit Hbuf H2. unfold updateRow, col_types. cbn [zip zip_with up_cols]. rewrite Hs. cbn [andb].
  destruct (up_key opk (PMem row) u0 npk (negb nltrgr) Hk) as (a0 & w0 & ov & -> & Hclone & Hov). cbn [mbind option_bind].
  pose proof (written_reads writeLua lzf_compress lzf_decompress lzf_spec zs rt Hcols row olds Hw) as Hrr.
  destruct (up_cols_ok atof powf evalLuaExpr rt Hlru Hlfu indxd row_col lua_col opk (PMem row) (coltypes rt) us olds wants 1 (Flags ov false false))
    as (avws & f' & E & HF & Hl1 & Hl2 & Hover);
    [lia|done|symmetry; by eapply Forall2_length|symmetry; by eapply Forall2_length| |].
  { intros j t u old want Ht Hu Ho Hwj. pose proof (Forall2_lookup_lr _ _ _ _ _ _ Hso Ht Ho). split_and!; try done.
    - by apply (Hg j).
    - by apply (Forall2_lookup_lr _ _ _ _ _ _ Hsw Ht Hwj).
    - apply (read_holds row olds); try done. rewrite Forall_lookup in Hbuf. by apply (Hbuf j). }
  rewrite E. cbn [mbind option_bind fmap list_fmap up_crds fst snd]. cbn in Hl1, Hl2. rewrite Hl2. cbn [up_crd Nat.eqb mbind option_bind].
  assert (E0 : u32 (0 + (if C_IS_O pktyp then 0 else 0)) = 0) by (by destruct (C_IS_O pktyp)). rewrite E0.
  destruct (up_crds_ok writeLua queue_CQ rt lru Hlru Hlfu (coltypes rt) avws.*1 wants us 1 0 false) as (ds & -> & Hcol & Hlaid & Htl);
    [lia|done|done|lia|lia|]. cbn [mbind option_bind tail fmap list_fmap fst snd head Z.add]. rewrite Hl1. cbn [orb negb].
  destruct (f_ovrwr f' && true && same_widths avws.*2 ds) eqn:Eo.
  - apply andb_prop in Eo as [Eo Hsame]. apply andb_prop in Eo as [Eo _]. destruct (Hover Eo) as [Eov Hnar]. cbn [BtKey.mem].
    destruct (overwrite_written writeLua lzf_compress lzf_decompress lzf_spec zs rt Hlru Hlfu Hcols addr ls fs lru row olds wants ds avws.*2 Hw)
      as (row' & -> & Hw').
    { split; [done|]. split; [done|]. split; [|by split]. rewrite length_fmap, <- (Forall3_length_lr _ _ _ _ Hcol), (Forall3_length_lm _ _ _ _ HF).
      by rewrite length_fmap. }
    eexists. split; [reflexivity|]. split; [by apply Hov|done].
  - rewrite Hclone. cbn [mbind option_bind]. rewrite norm_not_other, Z.add_0_l.
    destruct (new_row_written writeLua lzf_compress lzf_decompress lzf_spec zs rt Hlru Hlfu Hcols wants ds (set_place zero_crd (0 =? 0) (s32 0)) Hcol Hlaid)
      as (row' & -> & Hw'); [lia|done|done|done|]. cbn [mbind option_bind]. eexists. split; [reflexivity|]. split; [done|]. by exists row'.
Qed.
End Whole.

(** ** Properties *)

(** C22: the UPDATE of one row of a table of fewer than 100 columns (none of them
    Lua, LRU or LFU columns, the texts of the row before and after ASCII).  Given values written as text, or computed by
    expressions, for some of its columns, and perhaps a new key, [updateRow]
    always makes a row, the old one overwritten or a new one, from which every
    column reads as the value it was given, or as before; it is again such a row
    as [writeRow] makes, so that the next UPDATE finds it so.  Excluded are a
    row left without any value ([update_to_empty_text]), a U128 column that is
    not indexed ([u128_update_lost]), a U128 column without a value, texts with
    bytes of 128 or more, and texts that LZF cannot compress. *)
Theorem update_row_reads_back (atof : list Z -> spec_float) (powf : spec_float -> spec_float -> spec_float * bool)
    (lzf_compress : list Z -> Z -> option (list Z)) (lzf_decompress : list Z -> Z -> list Z)
    (lzf_spec : forall s m z, lzf_compress s m = Some z ->
       lzf_decompress z (Z.of_nat (length s)) = s /\ Z.of_nat (length z) <= m)
    (writeLua : list Z -> bool) (zs : bool) (evalLuaExpr : nat -> aobj -> option aobj) (queue_CQ : aobj -> bool)
    (rt : r_tbl_t) (s : bts_t) (pktyp : Z) (indxd : nat -> bool) (nltrgr : bool) (lua_col : Z -> aobj -> aobj)
    (buf : list Z) (addr lru : Z) (ls fs : bool)
    (row : list Z) (olds wants : list colval) (u0 : ucol) (us : list ucol) (opk npk : aobj) :
  lruc rt = None -> lfuc rt = None -> (length (coltypes rt) < 99)%nat -> NORM_BT s = true ->
  written writeLua lzf_compress zs rt row olds -> Forall2 storable (coltypes rt) olds -> Forall2 storable (coltypes rt) wants ->
  length us = length (coltypes rt) ->
  (forall i t u old want, coltypes rt !! i = Some t -> us !! i = Some u -> olds !! i = Some old -> wants !! i = Some want ->
     gives atof powf indxd (S i) t u old want) ->
  key_gives atof s pktyp opk u0 npk -> Exists (fun v => norm v <> V_EMPTY) wants -> sizes wants < 2 ^ 30 -> texts_fit lzf_compress wants ->
  Forall (mem_ok buf) olds -> (2 <= length buf)%nat ->
  exists r row', updateRow atof powf lzf_compress writeLua zs evalLuaExpr queue_CQ rt s pktyp indxd nltrgr
      (row_col lzf_decompress rt s lua_col buf addr) lru ls fs addr opk (PMem row) (u0 :: us) = Some (inr r) /\
    match r with UP_OVR row1 => u0 = no_ucol /\ row' = row1 | UP_NEW npk' nrow => npk' = npk /\ nrow = PMem row' end /\
    written writeLua lzf_compress zs rt row' wants /\ row_reads lzf_decompress rt row' wants.
Proof.
  intros Hlru Hlfu Hcols Hs Hw Hso Hsw Hlu Hg Hk Hne Hsz Hfit Hbuf H2.
  destruct (update_row_ok atof powf lzf_compress lzf_decompress lzf_spec writeLua zs evalLuaExpr queue_CQ rt Hlru Hlfu Hcols s Hs pktyp
              indxd nltrgr lua_col buf addr lru ls fs row olds wants u0 us opk npk) as (r & E & Hr); try done.
  destruct r as [row'|npk' nrow].
  - exists (UP_OVR row'), row'. destruct Hr as [H0 Hw']. split_and!; try done. by eapply written_reads.
  - destruct Hr as (-> & row' & -> & Hw'). exists (UP_NEW npk (PMem row')), row'. split_and!; try done. by eapply written_reads.
Qed.

(** *** Faults *)

(** A table of a key, a U128, a TEXT and an INT column, and one of its rows. *)
Definition fault_rt : r_tbl_t := Tbl [C_U128; C_STRING; C_INT] None None.
Definition plain_table : bts_t := Bts COL_TYPE_INT BTREE_TABLE 0 BTFLAG_NONE 0.
Definition fault_cr (rt : r_tbl_t) (ds : list crd_t) (rl : Z) : cr_t := Cr (zip (coltypes rt) ds) rl 0.
Definition do_update (rt : r_tbl_t) (s : bts_t) (opk : aobj) (orow : cptr) (us : list ucol) :=
  updateRow zero_atof same_powf no_lzf lua_accepts true (fun _ _ => None) (fun _ => true) rt s COL_TYPE_INT (fun _ => false) false
    (row_col id_unlzf rt s (fun _ a => a) (replicate 64 0) 4096) 7 false false 4096 opk orow us.
Definition value_col (v : colval) : ucol := UCol true false (render v) None false.
Definition key7 : aobj := initIntAobjFromVal 7.

(** An UPDATE of a U128 column without an index answers that it overwrote the
    row, and leaves it as it was. *)
Theorem u128_update_lost :
  (row ← writeRow no_lzf lua_accepts true
     (fault_cr fault_rt [Crd [] 0 0 5 0 false false 16; Crd [] 0 0 0 0 false true 16; Crd [] (col (cr8Icol 9)) 1 0 0 false false 17] 17);
   row ← row;
   r ← do_update fault_rt plain_table key7 (PMem row) [no_ucol; value_col (V_U128 6); no_ucol; no_ucol];
   Some (match r with inr (UP_OVR row1) => bool_decide (row1 = row) | _ => false end)) = Some true.
Proof. by vm_compute. Qed.

(** An UPDATE that leaves nothing in the row but an empty text makes a row that
    says it has 2^32 - 1 columns: [btReplace], which asks for its size, reads
    past its end. *)
Definition no_columns : list Z := [1; 32; 255; 255; 255; 255].
Theorem update_to_empty_text :
  let rt := Tbl [C_STRING] None None in
  (row ← writeRow no_lzf lua_accepts false (fault_cr rt [Crd [72; 105] 0 0 0 0 false false 2] 2);
   row ← row;
   r ← do_update rt plain_table key7 (PMem row) [no_ucol; UCol true false [39; 39] None false];
   match r with inr (UP_NEW _ (PMem nrow)) => Some nrow | _ => None end) = Some no_columns /\
  getRowMallocSize (Some no_columns) = None.
Proof.
  split; [by vm_compute|]. unfold getRowMallocSize, getRowPayload, no_columns. cbn [lookup list_lookup mbind option_bind].
  change (has 1 RFLAG_HASH_ROW) with false. change (has 1 RFLAG_1BYTE_INT) with true. cbv iota.
  change (streamIntToUInt _) with (Some (4294967295, 5)). cbn [mbind option_bind].
  change (u32 (4294967295 * Z.land 1 RFLAG_SIZE_FLAG)) with 4294967295.
  rewrite (drop_ge _ (_ - 1)); [done|]. cbn [length]. lia.
Qed.

(** The UPDATE of a table of a key and a number packed in a struct hands the tree
    the number in place of the struct, which it is then read from; where the
    number has 128 bits, the struct of another table. *)
Definition packed (flag : Z) : bts_t := Bts COL_TYPE_INT BTREE_TABLE 0 flag 0.
Theorem packed_update_faults (a : aobj) (btkey : cptr) :
  Forall (fun flag => OBT_createStream (packed flag) (packed_row (packed flag) a) btkey = None)
    [BTFLAG_UINT_ULONG; BTFLAG_ULONG_UINT; BTFLAG_ULONG_ULONG; BTFLAG_U128_UINT; BTFLAG_U128_ULONG] /\
  option_map (st_val 4 16) (OBT_createStream (packed BTFLAG_UINT_U128) (packed_row (packed BTFLAG_UINT_U128) (initU128AobjFromVal 1)) btkey)
    = Some (2 ^ 96).
Proof. split; [repeat constructor|]. unfold OBT_createStream. vm_compute. reflexivity. Qed.

(** ** Witnesses *)

(** The row [300, 'Hi', -], and [c1 = c1 + 5], with [c3 = 7] and a new key or
    without. *)
Definition w_rt : r_tbl_t := Tbl [C_INT; C_STRING; C_LONG] None None.
Definition w_row : list Z := match writeRow no_lzf lua_accepts true sample_row with Some (Some row) => row | _ => [] end.
Definition w_plus : ucol := UCol true false [] (Some (sample_ue PLUS InsertParse.UETYPE_INT [53])) false.

Lemma no_lzf_spec : forall s m z, no_lzf s m = Some z -> id_unlzf z (Z.of_nat (length s)) = s /\ Z.of_nat (length z) <= m.
Proof. done. Qed.

Lemma w_written : written lua_accepts no_lzf true w_rt w_row sample_vals.
Proof.
  exists sample_row, sample_vals. split; [exact sample_row_ok|]. split_and!; try done.
  - repeat constructor.
  - intros j old Hj. by rewrite Hj.
Qed.

Lemma w_text : storable C_STRING (V_STRING [72; 105]).
Proof. left. apply val_text; [repeat constructor; lia|cbn; lia]. Qed.
Lemma w_olds : Forall2 storable (coltypes w_rt) sample_vals.
Proof. constructor; [left; by apply val_int|]. constructor; [apply w_text|]. constructor; [by right; left|constructor]. Qed.
Lemma w_wants v : v = V_EMPTY \/ v = V_LONG 7 -> Forall2 storable (coltypes w_rt) [V_INT 305; V_STRING [72; 105]; v].
Proof.
  intros Hv. constructor; [left; by apply val_int|]. constructor; [apply w_text|]. constructor; [|constructor].
  destruct Hv as [-> | ->]; [by right; left|left; by apply val_long].
Qed.

Lemma w_given i : gives zero_atof same_powf (fun _ => false) i C_INT w_plus (V_INT 300) (V_INT 305).
Proof.
  apply (g_expr _ _ _ i C_INT _ _ _ _ _ (V_INT 300) (initIntAobjFromVal 305)); [by left|done|by vm_compute|by apply val_int].
Qed.

Lemma update_row_reads_back_witness :
  (exists r row', do_update w_rt plain_table key7 (PMem w_row) [no_ucol; w_plus; no_ucol; no_ucol] = Some (inr r) /\
    match r with UP_OVR row1 => no_ucol = no_ucol /\ row' = row1 | UP_NEW npk' nrow => npk' = key7 /\ nrow = PMem row' end /\
    written lua_accepts no_lzf true w_rt row' [V_INT 305; V_STRING [72; 105]; V_EMPTY] /\
    row_reads id_unlzf w_rt row' [V_INT 305; V_STRING [72; 105]; V_EMPTY]) /\
  (exists r row', do_update w_rt plain_table key7 (PMem w_row)
      [UCol true false (render (V_INT 8)) None false; w_plus; no_ucol; value_col (V_LONG 7)] = Some (inr r) /\
    match r with UP_OVR row1 => UCol true false (render (V_INT 8)) None false = no_ucol /\ row' = row1
    | UP_NEW npk' nrow => npk' = initAobjInt 8 /\ nrow = PMem row' end /\
    written lua_accepts no_lzf true w_rt row' [V_INT 305; V_STRING [72; 105]; V_LONG 7] /\
    row_reads id_unlzf w_rt row' [V_INT 305; V_STRING [72; 105]; V_LONG 7]).
Proof.
  split.
  - apply (update_row_reads_back zero_atof same_powf no_lzf id_unlzf no_lzf_spec) with (olds := sample_vals); try done;
      [cbn; lia|apply w_written|apply w_olds|apply w_wants; by left| |by apply (k_keep _ _ _ _ key7)|by constructor|
       left; repeat constructor; cbn; lia|repeat constructor; cbn; lia|cbn; lia].
    intros [|[|[|i]]] t u old want; intros [= <-] [= <-] [= <-] [= <-]; [apply w_given|constructor..].
  - apply (update_row_reads_back zero_atof same_powf no_lzf id_unlzf no_lzf_spec) with (olds := sample_vals); try done;
      [cbn; lia|apply w_written|apply w_olds|apply w_wants; by right| |by apply (k_value _ _ _ _ _ (initAobjInt 8))|by constructor|
       left; repeat constructor; cbn; lia|repeat constructor; cbn; lia|cbn; lia].
    intros [|[|[|i]]] t u old want; intros [= <-] [= <-] [= <-] [= <-]; [apply w_given|constructor|]. constructor; [by apply val_long|done].
Defined.
